(* ===== verification/_CoqProject ===== *)
-Q . S2P
Prelude.v
Json.v
Decimal.v
Dates.v
Types.v
Computers.v
Service.v
Retry.v
Paging.v
TurnCodec.v
Grant.v
TurnStore.v
Turns.v
TurnSpec.v
TurnRefine.v
TurnSystem.v
TurnPrograms.v
Mailbox.v
Admission.v
Actions.v
ActionSystem.v
ActionPrograms.v
Probes.v
Demo.v
TurnTheorems.v
AdmissionTheorems.v
ActionTheorems.v
ProbeTheorems.v
CodecTheorems.v
LiveFiles.v
Overlay.v
OverlayPlan.v
OverlayFacts.v
OverlayKeeps.v
OverlayEffects.v
OverlayTheorems.v
Interaction.v
OverlayService.v
OverlaySystem.v
OverlayServiceTheorems.v
Policy.v
PolicySinks.v
PolicyTheorems.v
PolicyControl.v
ControlTheorems.v
ComputerStore.v
ComputerSpec.v
ComputerSystem.v
Footprint.v
ComputerPrograms.v
Workers.v
ComputerDomain.v
ComputerStart.v
FileAudits.v
FileRequests.v
OwnerSupervisor.v
OwnerPrograms.v
OwnerDemo.v
OwnerTheorems.v
FileSystem.v
FileTheorems.v
Calendar.v
Organizations.v
OrganizationDomain.v
Spend.v
BudgetRollup.v
SpendTheorems.v
BudgetTheorems.v
OrganizationTheorems.v
OrganizationCodec.v
PolicyStore.v
PolicyStoreTheorems.v
Bots.v
Channels.v
Messages.v
MessageTheorems.v
