(* ===== verification/Prelude.v ===== *)
(** * Chatticus: a verification development

    Chatticus runs bots that answer in channels and use a computer of their organization. This library models the parts of
    it (under [src/conversation/src] and [src/host-protocol/src]) that must be right when processes crash, race and retry,
    and proves what they promise.

    ** The program and its parts

    - A _turn_ is one bot answering one message. Its record, its events and the pointers to it are items of one DynamoDB
      table, written only by conditional updates and transactions ([store/turn-store.ts], [store/turn-events.ts],
      [domain/turns.ts]). A process that runs a turn holds a lease and an attempt number.
    - People post to a _channel_ with its bots, each with a name of its own ([domain/messages.ts], [domain/channels.ts],
      [domain/bots.ts]); a post for a bot is handed to the turn of that bot.
    - _Admission_ starts a turn or steers a message into the turn that runs ([store/turn-admission-store.ts]); messages wait
      in a _mailbox_ ([pi/mailbox.ts]) that the turn drains.
    - A _computer action_ is a tool call the turn parks on while a worker of the computer executes it
      ([store/action-store.ts], [domain/actions.ts], [store/codecs/action.ts]).
    - A _probe_ is a delayed message that watches a turn, recovers it when its process died and resumes it when its action was
      answered ([turn/probes.ts], [turn/park.ts], [turn/yield.ts]).
    - A computer that is off shows its last published _snapshot_; the edits members make meanwhile are entries of an
      _overlay_ over it ([snapshot/overlay-merge.ts], [domain/overlay-write-algebra.ts], [host-protocol/edit-overlay.ts],
      [host-protocol/live-file-rules.ts]). The overlay of a computer is one index in an object store, swapped by everyone who
      edits and by the owner that seals and clears it ([domain/edit-overlay.ts]).
    - The _policy_ of a turn judges every operation a model requests at a _sink_: against the grant of the task, the standing
      of the member who asked, the rules humans made beforehand and the approvals they gave ([policy/capability-policy.ts],
      [policy/ceiling.ts], [policy/authorization-ceiling.ts], [policy/approval-binding.ts], [policy/overnight.ts],
      [policy/sinks.ts]). _Policy control_ keeps the rules, approvals, ceilings and connections of every tenant
      ([policy/policy-control.ts], [policy/connections.ts]).
    - An organization has one _computer_, whose record says which host start generation is current, what is on its disk and
      which long-lived _owner_ serves it ([store/codecs/computer.ts], [domain/computers.ts], [domain/workers.ts]). A host is
      started once per generation ([domain/computer-start.ts]); its owner exchanges a bootstrap credential, polls for work,
      renews its credentials and asks before it stops ([domain/owner-supervisor.ts], [host-protocol/supervisor.ts]). The file
      panel of a member reaches the owner through _file requests_ with audits of what they changed ([domain/live-files.ts],
      [store/codecs/live-file-operation.ts], [store/codecs/file-audit.ts]).
    - People sign in with an address, found _organizations_, invite others and give them roles ([domain/organizations.ts],
      [domain/invitations.ts], [domain/creation-limits.ts], [domain/signup-mode.ts]). An organization that is enabled runs
      its computer until its month reaches the _ceiling_ of its spend ([domain/organization-spend.ts]). What it spends is
      rolled up day by day, in exact decimals, from the recorded runs of its computer and the ledger of model calls
      ([budget/runner.ts], [budget/budget-store.ts], [budget/computer-runtime.ts], [budget/decimal.ts], [budget/calendar.ts]).

    ** The files

    - Prelude.v, Json.v, Dates.v: strings, white space, tactics; JSON text and its parser; calendar dates.
    - Types.v: the records and enumerations of the turn, its events, claims and jobs.
    - Service.v: what the program relies on of DynamoDB, SQS, the clock and the identifier and random sources ([contract],
      the class [Service]); programs as trees of requests, run with arbitrary interference between any two requests.
    - Retry.v, Paging.v: [store/transient-retry.ts] and the paging of queries.
    - TurnCodec.v, Grant.v: the items of turns and events and the stored capability grant, with their round trips.
    - TurnStore.v, Turns.v: every method of the turn control store and every function of [domain/turns.ts].
    - TurnSpec.v: the abstract turn, a machine whose steps are the operations of [TurnControlStore], with its invariants.
    - TurnRefine.v, TurnSystem.v, TurnPrograms.v: each write is a step of the machine; the invariants of the whole table; the
      behaviour of each program under interference.
    - Mailbox.v, Admission.v: the mailbox and the admission store with their lemmas.
    - Actions.v, ActionSystem.v, ActionPrograms.v: computer actions, the steps of one action, and its programs.
    - Probes.v: probes, parking, resuming and handing over, on top of the turn and action stores.
    - LiveFiles.v, Overlay.v, OverlayPlan.v: paths and tree hashes; the effective view; the write algebra.
    - OverlayFacts.v, OverlayKeeps.v, OverlayEffects.v: the index of a pack as a tree, the view in closed
      form, the invariant of the index, and the effect of a change.
    - Interaction.v: programs over any type of calls, their execution under interference, and what holds throughout one.
    - OverlayService.v: the operations around the write algebra.
    - OverlaySystem.v: the contract of the stores they call, the machine of an index, and that every operation keeps to it.
    - Policy.v, PolicySinks.v: the policy of a turn as a state and error monad; ceilings, approvals, unattended actions, sinks.
    - PolicyControl.v: the operations of policy control over the interface of its store.
    - PolicyStore.v: the store behind that interface, its items and their codecs, and the approval gate over it.
    - Computers.v, ComputerStore.v: the records of computers and workers; the codec of a computer and every conditional change
      the messaging store makes to it.
    - ComputerSpec.v, ComputerSystem.v: the machine of one computer, its invariant and its histories; every conditional change
      of the store is a step of it.
    - Footprint.v, ComputerPrograms.v: which requests a program may make, as a syntactic judgement closed under the program
      combinators, programs that only read and programs that refuse before they write; what programs do to a computer record
      under interference.
    - Workers.v, ComputerDomain.v, ComputerStart.v: workers and turn jobs; the functions of a computer; the starter of hosts.
    - FileAudits.v, FileRequests.v: audits of file changes; file requests from the panel to the owner and back.
    - FileSystem.v: a file request as a machine, and what programs do to it under interference.
    - OwnerSupervisor.v, OwnerPrograms.v: the routes of an owner, and that each keeps to the machine.
    - Decimal.v, Calendar.v: exact decimals and their value as rationals; days as texts and as numbers.
    - Organizations.v, OrganizationDomain.v: the records of organizations, members and invitations with their codecs and the
      store methods on them; the functions of organizations.
    - Bots.v, Channels.v, Messages.v: bots and tasks, channels, and posting a message to a channel, with the items and the store
      methods on them.
    - Spend.v, BudgetRollup.v: rollup rows, the price of a computer and the ceiling of an organization (the instance
      [spend_pause] of the class that ComputerDomain.v asks for); the daily rollup over the interface of the budget store.
    - Demo.v, OwnerDemo.v: a table, clock and requests, and a computer with its owner, on which the theorems are applied.
    - TurnTheorems.v, AdmissionTheorems.v, ActionTheorems.v, ProbeTheorems.v, OverlayTheorems.v, OverlayServiceTheorems.v,
      PolicyTheorems.v, ControlTheorems.v, CodecTheorems.v, OwnerTheorems.v, FileTheorems.v, SpendTheorems.v,
      BudgetTheorems.v, OrganizationTheorems.v, OrganizationCodec.v, PolicyStoreTheorems.v, MessageTheorems.v: the theorems with the lemmas they
      rest on, each with a witness that applies it to concrete data.

    ** What the theorems show

    - Turns: the store refines the abstract machine whatever else runs; a transition commits once and atomically or writes
      nothing; a claim is a compare-and-set and an attempt number names one owner; an ended turn is final; what is read
      satisfies the invariants; the log is listed whole and in order; completing is idempotent.
    - Admission: a turn starts atomically with its pointers; a steered message is delivered, and never into a turn that has
      begun to close; the mailbox lists in order, and draining deletes only what was handled; sequences increase.
    - Messages: an answered post reached every other bot of its channel and the turn that took it, or is answered from its
      record; who takes no part in a channel writes nothing there; the name of a bot is reserved once. A post of an empty text
      is not answered again, and a bot that is stored can lose its board.
    - Actions: one action per call, one answer per action, one worker for an action that may not run twice, one live action
      at a time; lost actions are settled.
    - Probes: an enqueue identifier publishes one run; a probe moves turns only along the machine and never loses one.
    - Overlay: a recorded change keeps the index as its schema wants it, was judged against what the member saw, takes effect,
      and goes through no link; an overlay with nothing waiting shows the snapshot; the judgement ends. A put at the source of
      a move in conflict is the exception that breaks the index.
    - Overlay service: every write of an index is a judgement of the index as it is at that moment; what is reported as changed
      was recorded; while a live owner holds the seal nobody else writes. Two orders of calls lose an edit.
    - Policy: a sink passes exactly what the grant and the standing hold; an unattended action needs a rule a human made for its
      arguments, the turn's grant and a role that holds it; whatever operations run, no bot holds a rule that allows, approvals
      are by humans and open connections are as proposed; an approved operation is carried out as it was reviewed; ceilings
      are meets; the gaps version 1 names are open. An approved operation other than a send is refused to a member whose
      ceiling was made for it. The table behind the interface of the policy store does, call by call, at one moment each, what
      the theorems on policy control assume of it, and a call that fails has written nothing.
    - Owners: a computer record is well formed, and every route of an owner moves it along its machine only; a bootstrap
      credential is exchanged once and a host start is claimed once per generation; a stop is approved only on a judgement
      that still holds, and an owner whose stop was approved is handed nothing and renews nothing; the answer to a poll keeps
      to the protocol.
    - File requests: a request is queued in one write with the mark on the record of the computer that keeps its owner from
      stopping; what a poll hands out is marked as delivered to it; a request has one answer, and that is what the panel
      shows; a request reported as abandoned was never taken and never will be.
    - Organizations: an operation that is refused has written nothing; a status changes only along the life cycle; an
      invitation makes a member only of whom it was meant for; a change of role leaves an organization an owner while nobody
      else changes its members. Concrete interleavings show that a suspension can be undone without being noticed and that
      two owners can both step down.
    - Spend: money is exact but for the last step of a rounding; work goes on only while the month, with whatever the unread
      days can have cost, is below the ceiling; each day of the month is read once; the time of a run is billed in the days
      it falls in. A rollup writes each day once, with dollars only where they were read, and reports every day it could not
      read; the ledger of a month is the sum of its days; a band of the limit is published once - in any month, not once in
      each.
    - Codecs: events, grants, actions, organizations and rollup rows are read back as written; event keys order as sequences; a retry uses its attempts.

    ** Bounds and fuel

    Loops that the source bounds (the attempts of a transition, of a retry, of a change of a grant and of a swap of an index)
    keep their bound. A page query recurs on the number of items left, shown enough in Paging.v. The JSON parser recurs on
    the length of the text ([parse_stringify]). The walk of a tree recurs on depth 5001: each nested call has found one
    directory more and at most 5000 paths are ever found ([walk_enough]). The loop over the ancestors of a path recurs on the
    length of the path ([refuse_linked_ok]). The loops over the days of a month have [MONTH_ROUNDS] rounds, one more than a
    month has days ([month_is_read_day_by_day], [rollup_reports_every_unread_day]). The rounds of a host start and of the wait for a file request have no bound in
    the source; their number is an argument, and a theorem about them is about every number of rounds. A post looks
    [CLOSING_POLL_ATTEMPTS] = 100 times for a turn that takes it, as in the source.

    ** Assumptions

    Texts are UTF-8 bytes; a JavaScript number that counts or dates is an integer. A request to the table that throws wrote
    nothing; a call of the overlay service that throws may have had its effect. The order of [localeCompare], the choice of a
    host for a computer and the question whether a turn was answered are parameters, as are SHA-256, the parser of addresses,
    the lower case of a text and the check of a date by the schema library, SHA-1 and the service of the boards. The broker of credentials, the driver that starts
    a host, the hash of tokens and the reason of a spend pause are parameters, which leave the record of a computer alone (the
    reason is [spend_pause], a program that only reads). A read of a rollup row sees the last write; Cost Explorer, the
    reconciliation of the ledger and the topic of the alerts answer anything;
    an identifier that is handed out is not empty, and a tenant holds no separator. Equal entity tags name equal bodies.

    ** Not modelled

    The executor around the third-party agent harness and its storage, the HTTP routes and gateway, the web client, the
    code on the computer itself and the deployment templates: they are input and output, or drive code that is not here. The
    listing of a channel's messages from the stored sessions, the replacement of a turn's grant by a member, the two scans of
    the table that list organizations, and the prices of model calls are not modelled. *)

From stdpp Require Export base gmap strings list option numbers sets.
From stdpp Require Export options.
From Stdlib Require Export ZArith Lia.

#[export] Set Default Proof Using "Type".
#[global] Open Scope Z_scope.

(** ** Results of fallible pure code *)

Notation "'Ok' x" := (inr x) (at level 10, only parsing).
Notation "'Err' e" := (inl e) (at level 10, only parsing).

(** ** JavaScript strings

    A JavaScript string is a [string] of bytes; the concatenation of a template literal is [+:+]. *)

Fixpoint string_has (c : Ascii.ascii) (s : string) : bool :=
  match s with
  | EmptyString => false
  | String d s' => bool_decide (c = d) || string_has c s'
  end.

(** [s.replace(/c/g, r)] for a single character [c]. *)
Fixpoint replace_char (c : Ascii.ascii) (r : string) (s : string) : string :=
  match s with
  | EmptyString => EmptyString
  | String d s' => if bool_decide (c = d) then r +:+ replace_char c r s' else String d (replace_char c r s')
  end.

(** [s.startsWith(p)]. *)
Fixpoint starts_with (p s : string) : bool :=
  match p, s with
  | EmptyString, _ => true
  | String c p', String d s' => bool_decide (c = d) && starts_with p' s'
  | String _ _, EmptyString => false
  end.

(** [s.slice(n)] for a non-negative [n]. *)
Fixpoint drop_string (n : nat) (s : string) : string :=
  match n, s with
  | O, _ => s
  | S n', String _ s' => drop_string n' s'
  | S _, EmptyString => EmptyString
  end.

Definition quote_char : Ascii.ascii := Ascii.ascii_of_nat 34.
Definition apostrophe : Ascii.ascii := Ascii.ascii_of_nat 39.
Definition backslash : Ascii.ascii := Ascii.ascii_of_nat 92.

(** [s.split(c)] for a single character [c]: always at least one part. *)
Fixpoint split_char (c : Ascii.ascii) (s : string) : list string :=
  match s with
  | EmptyString => [EmptyString]
  | String d s' =>
      if bool_decide (c = d) then EmptyString :: split_char c s'
      else match split_char c s' with
           | [] => [String d EmptyString]
           | h :: t => String d h :: t
           end
  end.

(** ** Tactics *)

(** Split every existential and conjunction of the context. *)
Ltac deex :=
  repeat match goal with
         | H : exists x, _ |- _ => let y := fresh x in destruct H as [y H]
         | H : _ /\ _ |- _ => destruct H
         end.

(** Case analysis on the scrutinee of the first [match] of the goal or of a hypothesis. *)
Ltac cases_in H :=
  repeat match type of H with
         | context [match ?x with _ => _ end] => destruct x eqn:?; simplify_eq/=
         end.

Ltac cases_goal :=
  repeat match goal with
         | |- context [match ?x with _ => _ end] => destruct x eqn:?; simplify_eq/=
         end.

(** ** Lemmas on strings *)

Lemma string_app_cons (x : Ascii.ascii) (a b : string) : String x a +:+ b = String x (a +:+ b).
Proof. reflexivity. Qed.

Lemma string_app_nil (b : string) : EmptyString +:+ b = b.
Proof. reflexivity. Qed.

Lemma string_app_assoc (a b c : string) : (a +:+ b) +:+ c = a +:+ (b +:+ c).
Proof. induction a as [|x a IH]; [done|]. rewrite !string_app_cons. by f_equal. Qed.

Lemma string_app_nil_r (a : string) : a +:+ EmptyString = a.
Proof. induction a as [|x a IH]; [done|]. rewrite string_app_cons. by f_equal. Qed.

Lemma string_app_inj_l (p a b : string) : p +:+ a = p +:+ b -> a = b.
Proof. induction p as [|x p IH]; [done|]. rewrite !string_app_cons. intros [= H]. auto. Qed.

Lemma starts_with_app (p s : string) : starts_with p (p +:+ s) = true.
Proof. induction p as [|x p IH]; [by destruct s|]. rewrite string_app_cons. cbn. by rewrite bool_decide_true. Qed.

Lemma starts_with_inv (p s : string) : starts_with p s = true -> exists t, s = p +:+ t.
Proof.
  revert s. induction p as [|x p IH]; intros s; [by exists s|].
  destruct s as [|d s]; cbn; [done|]. intros [Hx%bool_decide_eq_true Hp]%andb_prop.
  destruct (IH _ Hp) as [t ->]. exists t. by subst.
Qed.

Lemma drop_string_app (p s : string) : drop_string (String.length p) (p +:+ s) = s.
Proof. induction p as [|x p IH]; [by destruct s|]. by rewrite string_app_cons. Qed.

Lemma string_length_app (a b : string) : String.length (a +:+ b) = (String.length a + String.length b)%nat.
Proof. induction a as [|x a IH]; [done|]. rewrite string_app_cons. cbn. by rewrite IH. Qed.

(** [s.slice(0, n)] for a non-negative [n]. *)
Fixpoint take_string (n : nat) (s : string) : string :=
  match n, s with
  | S n', String c s' => String c (take_string n' s')
  | _, _ => EmptyString
  end.

Lemma take_string_app (p s : string) : take_string (String.length p) (p +:+ s) = p.
Proof. induction p as [|x p IH]; [done|]. rewrite string_app_cons. cbn. by rewrite IH. Qed.

(** [s.slice(0, -n)]. *)
Definition drop_end (n : nat) (s : string) : string := take_string (String.length s - n) s.

Lemma drop_end_app (s t : string) : drop_end (String.length t) (s +:+ t) = s.
Proof. unfold drop_end. rewrite string_length_app, Nat.add_sub. apply take_string_app. Qed.

(** ** Maps with an order *)

(** [map.set(key, value)] on a [Map] that is iterated: a key that is there keeps its place. *)
Fixpoint map_set {V : Type} (key : string) (value : V) (m : list (string * V)) : list (string * V) :=
  match m with
  | [] => [(key, value)]
  | (k, v) :: m' => if bool_decide (k = key) then (k, value) :: m' else (k, v) :: map_set key value m'
  end.

Fixpoint map_get {V : Type} (key : string) (m : list (string * V)) : option V :=
  match m with
  | [] => None
  | (k, v) :: m' => if bool_decide (k = key) then Some v else map_get key m'
  end.

Lemma map_set_fresh {V : Type} (k : string) (v : V) (m : list (string * V)) : k ∉ m.*1 -> map_set k v m = m ++ [(k, v)].
Proof.
  induction m as [|[k' v'] m IH]; cbn; [done|]. intros [Hne Hm]%not_elem_of_cons.
  rewrite bool_decide_false by congruence. by rewrite IH.
Qed.

Lemma map_get_Some {V : Type} (k : string) (v : V) (m : list (string * V)) : map_get k m = Some v -> (k, v) ∈ m.
Proof.
  induction m as [|[k' v'] m IH]; cbn; [done|]. case_bool_decide as Hk; [intros [= ->]; subst; left|right; auto].
Qed.

Lemma map_get_None {V : Type} (k : string) (m : list (string * V)) : map_get k m = None <-> k ∉ m.*1.
Proof.
  induction m as [|[k' v'] m IH]; cbn; [set_solver|]. case_bool_decide; [set_solver|]. rewrite IH. set_solver.
Qed.

Lemma map_get_elem {V : Type} (k : string) (v : V) (m : list (string * V)) : NoDup m.*1 -> (k, v) ∈ m -> map_get k m = Some v.
Proof.
  induction m as [|[k' v'] m IH]; cbn; [by intros _ ?%elem_of_nil|]. intros [Hk Hm]%NoDup_cons [[= -> ->]|Hin]%elem_of_cons.
  - by rewrite bool_decide_true.
  - rewrite bool_decide_false; [auto|]. intros ->. apply Hk. apply list_elem_of_fmap. by exists (k, v).
Qed.

(** ** White space

    [s.trim()] removes the white space and line terminators of the language at both ends; in UTF-8 each of them is one of
    these texts. *)

Definition bytes (l : list Z) : string := foldr (fun n s => String (Ascii.ascii_of_N (Z.to_N n)) s) EmptyString l.

Definition WHITE_SPACE : list string :=
  ((fun n => bytes [n]) <$> [9; 10; 11; 12; 13; 32]) ++
  [bytes [194; 160]; bytes [239; 187; 191]; bytes [225; 154; 128]; bytes [226; 128; 168]; bytes [226; 128; 169];
   bytes [226; 128; 175]; bytes [226; 129; 159]; bytes [227; 128; 128]] ++
  ((fun n => bytes [226; 128; n]) <$> [128; 129; 130; 131; 132; 133; 134; 135; 136; 137; 138]).

Fixpoint reverse_string (s acc : string) : string :=
  match s with EmptyString => acc | String c s' => reverse_string s' (String c acc) end.

Lemma reverse_string_acc (s acc : string) : reverse_string s acc = reverse_string s EmptyString +:+ acc.
Proof.
  revert acc. induction s as [|c s IH]; intros acc; [done|]. cbn. rewrite IH, (IH (String c EmptyString)).
  by rewrite string_app_assoc.
Qed.

Lemma reverse_string_app (a b acc : string) : reverse_string (a +:+ b) acc = reverse_string b (reverse_string a acc).
Proof. revert acc. induction a as [|c a IH]; intros acc; [done|]. rewrite string_app_cons. cbn. apply IH. Qed.

Lemma reverse_string_twice (s : string) : reverse_string (reverse_string s EmptyString) EmptyString = s.
Proof.
  induction s as [|c s IH]; [done|]. cbn. rewrite (reverse_string_acc s (String c EmptyString)), reverse_string_app.
  cbn. by rewrite IH.
Qed.

(** Drop texts of a list at the front while there is one; each is not empty, so the length bounds the rounds. *)
Fixpoint drop_leading (l : list string) (fuel : nat) (s : string) : string :=
  match fuel with
  | O => s
  | S fuel' =>
      match List.find (fun p => starts_with p s) l with
      | Some p => drop_leading l fuel' (drop_string (String.length p) s)
      | None => s
      end
  end.

Definition trim_start (s : string) : string := drop_leading WHITE_SPACE (String.length s) s.

Definition trim_end (s : string) : string :=
  let r := reverse_string s EmptyString in
  reverse_string (drop_leading ((fun p => reverse_string p EmptyString) <$> WHITE_SPACE) (String.length r) r) EmptyString.

Definition trim (s : string) : string := trim_end (trim_start s).

Example trim_example : trim (bytes [32; 194; 160; 97; 32; 98; 10; 9]) = "a b".
Proof. reflexivity. Qed.
