(* ===== verification/Json.v ===== *)
(** * Decimal numerals and JSON texts

    What the source uses of the language's own library when it stores numbers and objects as text:
    [String(n)] and [Number(s)] on integers, [padStart], [JSON.stringify] and [JSON.parse].
    Numbers are integers; a JSON number with a fraction or an exponent is outside the model and is rejected by
    [parse_json]. [parse_stringify] shows that parsing a printed value gives the value back. *)

From S2P Require Import Prelude.

(** ** Decimal numerals *)

Definition digit (n : Z) : Ascii.ascii := Ascii.ascii_of_N (Z.to_N (48 + n)).

Definition digit_value (c : Ascii.ascii) : option Z :=
  let n := Z.of_N (Ascii.N_of_ascii c) in
  if (48 <=? n) && (n <=? 57) then Some (n - 48) else None.

Fixpoint dec_go (fuel : nat) (n : Z) (acc : string) : string :=
  match fuel with
  | O => acc
  | S f => if n <? 10 then String (digit n) acc else dec_go f (n / 10) (String (digit (n mod 10)) acc)
  end.

(** [String(n)] of a non-negative integer. *)
Definition dec_nonneg (n : Z) : string := dec_go (S (Z.to_nat (Z.log2 n))) n EmptyString.

(** [String(n)] of an integer. *)
Definition dec (n : Z) : string := if n <? 0 then "-" +:+ dec_nonneg (- n) else dec_nonneg n.

(** Read the digits at the front of a text: the value read on top of [acc], and the rest. *)
Fixpoint read_digits (s : string) (acc : Z) : Z * string :=
  match s with
  | String c s' => match digit_value c with Some d => read_digits s' (acc * 10 + d) | None => (acc, s) end
  | EmptyString => (acc, EmptyString)
  end.

(** [n] copies of a character before a text. *)
Fixpoint prepend (n : nat) (c : Ascii.ascii) (s : string) : string :=
  match n with O => s | S n' => String c (prepend n' c s) end.

(** [s.padStart(w, c)] for a single character. *)
Definition pad_start (w : nat) (c : Ascii.ascii) (s : string) : string := prepend (w - String.length s)%nat c s.

(** Exactly [w] decimal digits of [n], the most significant first. *)
Fixpoint fixed_digits (w : nat) (n : Z) : string :=
  match w with
  | O => EmptyString
  | S w' => String (digit (n / 10 ^ Z.of_nat w' mod 10)) (fixed_digits w' n)
  end.

(** ** JSON values *)

#[warnings="-register-all"]
Inductive json : Type :=
| JNull
| JBool (b : bool)
| JNum (n : Z)
| JStr (s : string)
| JArr (l : list json)
| JObj (l : list (string * json)).

Definition code (c : Ascii.ascii) : Z := Z.of_N (Ascii.N_of_ascii c).
Definition char (n : Z) : Ascii.ascii := Ascii.ascii_of_N (Z.to_N n).
Definition ch (n : Z) (s : string) : string := String (char n) s.

Definition hex_digit (n : Z) : Ascii.ascii := if n <? 10 then digit n else char (87 + n).
Definition hex_value (c : Ascii.ascii) : option Z :=
  let n := code c in
  if (48 <=? n) && (n <=? 57) then Some (n - 48)
  else if (97 <=? n) && (n <=? 102) then Some (n - 87)
  else if (65 <=? n) && (n <=? 70) then Some (n - 55)
  else None.

(** One character inside a JSON string literal. *)
Definition escape_char (c : Ascii.ascii) (rest : string) : string :=
  let n := code c in
  if n =? 34 then ch 92 (ch 34 rest)
  else if n =? 92 then ch 92 (ch 92 rest)
  else if n =? 8 then ch 92 (ch 98 rest)
  else if n =? 12 then ch 92 (ch 102 rest)
  else if n =? 10 then ch 92 (ch 110 rest)
  else if n =? 13 then ch 92 (ch 114 rest)
  else if n =? 9 then ch 92 (ch 116 rest)
  else if n <? 32 then ch 92 (ch 117 (ch 48 (ch 48 (String (hex_digit (n / 16)) (String (hex_digit (n mod 16)) rest)))))
  else String c rest.

Fixpoint escape (s : string) (rest : string) : string :=
  match s with
  | EmptyString => rest
  | String c s' => escape_char c (escape s' rest)
  end.

(** A string literal followed by [rest]. *)
Definition quote (s : string) (rest : string) : string := ch 34 (escape s (ch 34 rest)).

(** [JSON.stringify] of a value, followed by [rest]. *)
Fixpoint print (j : json) (rest : string) : string :=
  match j with
  | JNull => "null" +:+ rest
  | JBool true => "true" +:+ rest
  | JBool false => "false" +:+ rest
  | JNum n => dec n +:+ rest
  | JStr s => quote s rest
  | JArr l =>
      ch 91 ((fix elems (l : list json) (first : bool) : string :=
        match l with
        | [] => ch 93 rest
        | x :: l' => (if first then fun s => s else ch 44) (print x (elems l' false))
        end) l true)
  | JObj l =>
      ch 123 ((fix fields (l : list (string * json)) (first : bool) : string :=
        match l with
        | [] => ch 125 rest
        | (k, x) :: l' => (if first then fun s => s else ch 44) (quote k (ch 58 (print x (fields l' false))))
        end) l true)
  end.

Definition stringify (j : json) : string := print j EmptyString.

(** ** Parsing *)

Definition is_space (c : Ascii.ascii) : bool :=
  let n := code c in (n =? 32) || (n =? 9) || (n =? 10) || (n =? 13).

Fixpoint skip_ws (s : string) : string :=
  match s with
  | String c s' => if is_space c then skip_ws s' else s
  | EmptyString => EmptyString
  end.

(** The text after the character of code [n], when the text starts with it. *)
Definition expect (n : Z) (s : string) : option string :=
  match s with
  | String c s' => if code c =? n then Some s' else None
  | EmptyString => None
  end.

Definition unescape (n : Z) : option Z :=
  if n =? 34 then Some 34 else if n =? 92 then Some 92 else if n =? 47 then Some 47
  else if n =? 98 then Some 8 else if n =? 102 then Some 12 else if n =? 110 then Some 10
  else if n =? 114 then Some 13 else if n =? 116 then Some 9 else None.

(** The characters of a literal up to its closing quote, and the rest. *)
Fixpoint read_string (s : string) : option (string * string) :=
  match s with
  | EmptyString => None
  | String c s1 =>
      if code c =? 34 then Some (EmptyString, s1)
      else if code c =? 92 then
        match s1 with
        | String e s2 =>
            if code e =? 117 then
              match s2 with
              | String h1 (String h2 (String h3 (String h4 s3))) =>
                  match hex_value h1, hex_value h2, hex_value h3, hex_value h4 with
                  | Some 0, Some 0, Some a, Some b =>
                      if a <? 8 then '(t, r) ← read_string s3; Some (String (char (a * 16 + b)) t, r) else None
                  | _, _, _, _ => None
                  end
              | _ => None
              end
            else v ← unescape (code e); '(t, r) ← read_string s2; Some (String (char v) t, r)
        | EmptyString => None
        end
      else if code c <? 32 then None
      else '(t, r) ← read_string s1; Some (String c t, r)
  end.

Definition read_number (s : string) : option (Z * string) :=
  match s with
  | String c s1 =>
      if code c =? 45 then
        match s1 with
        | String d _ => if digit_value d is Some _ then let '(v, r) := read_digits s1 0 in Some (- v, r) else None
        | EmptyString => None
        end
      else if digit_value c is Some _ then Some (read_digits s 0) else None
  | EmptyString => None
  end.

Section containers.
Context (value : string -> option (json * string)).

(** The elements of an array after its first, each behind a comma, up to the closing bracket. *)
Fixpoint read_elems (fuel : nat) (s : string) : option (list json * string) :=
  match fuel with
  | O => None
  | S f =>
      match expect 93 (skip_ws s) with
      | Some r => Some ([], r)
      | None =>
          s1 ← expect 44 (skip_ws s);
          '(v, s2) ← value s1;
          '(vs, s3) ← read_elems f s2;
          Some (v :: vs, s3)
      end
  end.

Definition read_field (s : string) : option (string * json * string) :=
  s1 ← expect 34 (skip_ws s);
  '(k, s2) ← read_string s1;
  s3 ← expect 58 (skip_ws s2);
  '(v, s4) ← value s3;
  Some (k, v, s4).

Fixpoint read_fields (fuel : nat) (s : string) : option (list (string * json) * string) :=
  match fuel with
  | O => None
  | S f =>
      match expect 125 (skip_ws s) with
      | Some r => Some ([], r)
      | None =>
          s1 ← expect 44 (skip_ws s);
          '(k, v, s2) ← read_field s1;
          '(vs, s3) ← read_fields f s2;
          Some ((k, v) :: vs, s3)
      end
  end.

Definition read_array (fuel : nat) (s : string) : option (json * string) :=
  match expect 93 (skip_ws s) with
  | Some r => Some (JArr [], r)
  | None => '(v, s1) ← value s; '(vs, s2) ← read_elems fuel s1; Some (JArr (v :: vs), s2)
  end.

Definition read_object (fuel : nat) (s : string) : option (json * string) :=
  match expect 125 (skip_ws s) with
  | Some r => Some (JObj [], r)
  | None => '(k, v, s1) ← read_field s; '(vs, s2) ← read_fields fuel s1; Some (JObj ((k, v) :: vs), s2)
  end.

End containers.

Fixpoint parse_value (fuel : nat) (s0 : string) : option (json * string) :=
  match fuel with
  | O => None
  | S f =>
      let s := skip_ws s0 in
      if starts_with "null" s then Some (JNull, drop_string 4 s)
      else if starts_with "true" s then Some (JBool true, drop_string 4 s)
      else if starts_with "false" s then Some (JBool false, drop_string 5 s)
      else match s with
           | String c s1 =>
               if code c =? 34 then '(t, r) ← read_string s1; Some (JStr t, r)
               else if code c =? 91 then read_array (parse_value f) f s1
               else if code c =? 123 then read_object (parse_value f) f s1
               else '(n, r) ← read_number s; Some (JNum n, r)
           | EmptyString => None
           end
  end.

(** [JSON.parse]: the whole text is one value. The length of the text bounds the depth and the width of what it holds. *)
Definition parse_json (s : string) : option json :=
  '(j, r) ← parse_value (S (String.length s)) s;
  match skip_ws r with EmptyString => Some j | _ => None end.

(** ** Numerals read back *)

Lemma code_char (n : Z) : 0 <= n < 256 -> code (char n) = n.
Proof.
  intros H. unfold code, char. rewrite Ascii.N_ascii_embedding by lia. lia.
Qed.

Lemma char_code (c : Ascii.ascii) : char (code c) = c.
Proof. unfold code, char. rewrite N2Z.id. apply Ascii.ascii_N_embedding. Qed.

Lemma code_bound (c : Ascii.ascii) : 0 <= code c < 256.
Proof. unfold code. pose proof (Ascii.N_ascii_bounded c). lia. Qed.

Lemma digit_code (n : Z) : 0 <= n < 10 -> code (digit n) = 48 + n.
Proof. intros H. apply (code_char (48 + n)). lia. Qed.

Lemma digit_value_digit (n : Z) : 0 <= n < 10 -> digit_value (digit n) = Some n.
Proof.
  intros H. unfold digit_value. pose proof (digit_code n H) as Hc. unfold code in Hc. rewrite Hc.
  replace ((48 <=? 48 + n) && (48 + n <=? 57)) with true by lia. f_equal; lia.
Qed.

Lemma div_10_bounds (n : Z) : 0 <= n -> 0 <= n / 10 /\ 0 <= n mod 10 < 10 /\ n = n / 10 * 10 + n mod 10.
Proof.
  intros H. split; [apply Z.div_pos; lia|]. split; [apply Z.mod_pos_bound; lia|].
  rewrite Z.mul_comm. apply Z.div_mod; lia.
Qed.

Lemma read_digits_dec_go (f : nat) (n : Z) (acc : string) :
  0 <= n < 10 ^ Z.of_nat f -> f <> O -> read_digits (dec_go f n acc) 0 = read_digits acc n.
Proof.
  revert n acc. induction f as [|f IH]; intros n acc Hn Hf; [done|].
  cbn [dec_go]. destruct (Z.ltb_spec n 10).
  - cbn [read_digits]. rewrite digit_value_digit by lia. reflexivity.
  - destruct (div_10_bounds n) as (? & ? & ?); [lia|].
    rewrite Nat2Z.inj_succ, Z.pow_succ_r in Hn by lia.
    destruct f as [|f]; [cbn in Hn; lia|].
    rewrite IH; [|split; [lia|apply Z.div_lt_upper_bound; lia]|done].
    cbn [read_digits]. rewrite digit_value_digit by lia. f_equal. lia.
Qed.

Lemma dec_go_app (f : nat) (n : Z) (acc rest : string) : dec_go f n acc +:+ rest = dec_go f n (acc +:+ rest).
Proof.
  revert n acc. induction f as [|f IH]; intros n acc; [done|]. cbn [dec_go].
  destruct (n <? 10); [done|]. rewrite IH. done.
Qed.

Lemma dec_fuel (n : Z) : 0 <= n -> n < 10 ^ Z.of_nat (S (Z.to_nat (Z.log2 n))).
Proof.
  intros H. destruct (Z.eq_dec n 0) as [->|]; [done|].
  rewrite Nat2Z.inj_succ, Z2Nat.id by apply Z.log2_nonneg.
  pose proof (Z.log2_spec n ltac:(lia)) as [_ Hlt].
  eapply Z.lt_le_trans; [exact Hlt|]. apply Z.pow_le_mono_l; lia.
Qed.

(** A text that does not go on with a digit. *)
Definition no_digit (s : string) : Prop :=
  match s with String c _ => digit_value c = None | EmptyString => True end.

Lemma read_digits_stop (s : string) (acc : Z) : no_digit s -> read_digits s acc = (acc, s).
Proof. destruct s as [|c s]; cbn; [done|]. by intros ->. Qed.

Lemma read_digits_dec (n : Z) (rest : string) :
  0 <= n -> no_digit rest -> read_digits (dec_nonneg n +:+ rest) 0 = (n, rest).
Proof.
  intros Hn Hrest. unfold dec_nonneg. rewrite dec_go_app, read_digits_dec_go.
  - rewrite string_app_nil. by apply read_digits_stop.
  - split; [done|by apply dec_fuel].
  - done.
Qed.

Lemma dec_go_head (f : nat) (n : Z) (acc : string) :
  0 <= n -> f <> O -> (n < 10 ^ Z.of_nat f) ->
  exists d s, 0 <= d < 10 /\ dec_go f n acc = String (digit d) s.
Proof.
  revert n acc. induction f as [|f IH]; intros n acc Hn Hf Hlt; [done|]. cbn [dec_go].
  destruct (Z.ltb_spec n 10); [by exists n, acc|].
  destruct (div_10_bounds n Hn) as (? & ? & ?).
  rewrite Nat2Z.inj_succ, Z.pow_succ_r in Hlt by lia.
  destruct f as [|f]; [cbn in Hlt; lia|].
  apply IH; [lia|done|]. apply Z.div_lt_upper_bound; lia.
Qed.

Lemma dec_nonneg_head (n : Z) : 0 <= n -> exists d s, 0 <= d < 10 /\ dec_nonneg n = String (digit d) s.
Proof. intros H. apply dec_go_head; [done|done|by apply dec_fuel]. Qed.

Lemma read_number_minus (s : string) :
  read_number ("-" +:+ s) =
  match s with
  | String d _ => if digit_value d is Some _ then let '(v, r) := read_digits s 0 in Some (- v, r) else None
  | EmptyString => None
  end.
Proof. reflexivity. Qed.

Lemma read_number_dec (n : Z) (rest : string) :
  no_digit rest -> read_number (dec n +:+ rest) = Some (n, rest).
Proof.
  intros Hrest. unfold dec. destruct (Z.ltb_spec n 0) as [Hneg|Hpos].
  - destruct (dec_nonneg_head (- n)) as (d & s & Hd & Hs); [lia|].
    rewrite string_app_assoc, read_number_minus, read_digits_dec by (done || lia).
    rewrite Hs, string_app_cons, digit_value_digit by lia. do 2 f_equal. lia.
  - destruct (dec_nonneg_head n Hpos) as (d & s & Hd & Hs).
    pose proof (read_digits_dec n rest Hpos Hrest) as Hr.
    rewrite Hs, string_app_cons in *. cbn [read_number].
    rewrite digit_code, digit_value_digit by lia.
    destruct (Z.eqb_spec (48 + d) 45); [lia|]. by rewrite Hr.
Qed.

(** The low digits of a number do not see its high ones. *)
Lemma digit_mod (n : Z) (v w : nat) : (v < w)%nat -> n mod 10 ^ Z.of_nat w / 10 ^ Z.of_nat v mod 10 = n / 10 ^ Z.of_nat v mod 10.
Proof.
  intros Hv. replace (10 ^ Z.of_nat w) with (10 ^ Z.of_nat v * (10 * 10 ^ Z.of_nat (w - S v))).
  - rewrite Z.rem_mul_r, (Z.mul_comm (10 ^ Z.of_nat v) (_ mod _)), Z.div_add by lia.
    rewrite (Z.div_small (n mod _)), Z.add_0_l by (apply Z.mod_pos_bound; lia).
    rewrite Z.rem_mul_r, Z.mul_comm, Z.mod_add by lia. apply Z.mod_mod. lia.
  - rewrite <- (Z.pow_succ_r 10), <- Z.pow_add_r by lia. f_equal. lia.
Qed.

Lemma fixed_digits_mod (v w : nat) (n : Z) : (v <= w)%nat -> fixed_digits v (n mod 10 ^ Z.of_nat w) = fixed_digits v n.
Proof. intros Hv. induction v as [|v IH]; [done|]. cbn [fixed_digits]. by rewrite IH, digit_mod by lia. Qed.

(** ** String literals read back *)

Ltac code_cases c :=
  pose proof (code_bound c);
  repeat match goal with
         | |- context [code c =? ?k] => destruct (Z.eqb_spec (code c) k)
         | |- context [code c <? ?k] => destruct (Z.ltb_spec (code c) k)
         end.

Lemma hex_value_digit (n : Z) : 0 <= n < 16 -> hex_value (hex_digit n) = Some n.
Proof.
  intros Hn. unfold hex_value, hex_digit. destruct (Z.ltb_spec n 10).
  - rewrite digit_code by lia. replace ((48 <=? 48 + n) && (48 + n <=? 57)) with true by lia. f_equal; lia.
  - rewrite code_char by lia. replace ((48 <=? 87 + n) && (87 + n <=? 57)) with false by lia.
    replace ((97 <=? 87 + n) && (87 + n <=? 102)) with true by lia. f_equal; lia.
Qed.

Lemma read_string_escape_char (c : Ascii.ascii) (s : string) :
  read_string (escape_char c s) = '(t, r) ← read_string s; Some (String c t, r).
Proof.
  unfold escape_char. code_cases c;
    try (match goal with H : code c = ?k |- _ =>
           rewrite <- (char_code c), H; by cbn; destruct (read_string s) as [[??]|] end).
  - unfold ch. cbn [read_string]. rewrite !code_char by lia. cbn [Z.eqb Pos.eqb].
    rewrite (hex_value_digit (code c / 16)), (hex_value_digit (code c mod 16))
      by (first [apply Z.mod_pos_bound; lia | split; [apply Z.div_pos; lia|apply Z.div_lt_upper_bound; lia]]).
    change (hex_value (char 48)) with (Some 0).
    assert (code c / 16 < 8) by (apply Z.div_lt_upper_bound; lia).
    destruct (Z.ltb_spec (code c / 16) 8); [|lia].
    replace (code c / 16 * 16 + code c mod 16) with (code c); [by rewrite char_code|].
    rewrite Z.mul_comm. apply Z.div_mod. lia.
  - cbn [read_string]. code_cases c; try lia. done.
Qed.

Lemma read_string_escape (s rest : string) : read_string (escape s (ch 34 rest)) = Some (s, rest).
Proof.
  induction s as [|c s IH]; [done|]. cbn [escape]. by rewrite read_string_escape_char, IH.
Qed.

(** ** Values read back *)

Definition print_elems (rest : string) : list json -> bool -> string :=
  fix elems (l : list json) (first : bool) : string :=
    match l with
    | [] => ch 93 rest
    | x :: l' => (if first then fun s => s else ch 44) (print x (elems l' false))
    end.

Definition print_fields (rest : string) : list (string * json) -> bool -> string :=
  fix fields (l : list (string * json)) (first : bool) : string :=
    match l with
    | [] => ch 125 rest
    | (k, x) :: l' => (if first then fun s => s else ch 44) (quote k (ch 58 (print x (fields l' false))))
    end.

Lemma print_arr (l : list json) (rest : string) : print (JArr l) rest = ch 91 (print_elems rest l true).
Proof. reflexivity. Qed.

Lemma print_obj (l : list (string * json)) (rest : string) : print (JObj l) rest = ch 123 (print_fields rest l true).
Proof. reflexivity. Qed.

(** The fuel that reading a printed value back takes. *)
Fixpoint need (j : json) : nat :=
  match j with
  | JArr l => S (Nat.max (length l) (fold_right (fun x m => Nat.max (need x) m) O l))
  | JObj l => S (Nat.max (length l) (fold_right (fun kx m => Nat.max (need (snd kx)) m) O l))
  | _ => 1%nat
  end.

(** Induction on values with a hypothesis for every element. *)
Lemma json_ind' (P : json -> Prop) :
  P JNull -> (forall b, P (JBool b)) -> (forall n, P (JNum n)) -> (forall s, P (JStr s)) ->
  (forall l, Forall P l -> P (JArr l)) -> (forall l, Forall (fun kx => P (snd kx)) l -> P (JObj l)) ->
  forall j, P j.
Proof.
  intros Hnull Hbool Hnum Hstr Harr Hobj. fix IH 1.
  intros [|b|n|s|l|l]; [apply Hnull|apply Hbool|apply Hnum|apply Hstr|apply Harr|apply Hobj].
  - induction l as [|x l IHl]; constructor; [apply IH|apply IHl].
  - induction l as [|[k x] l IHl]; constructor; [apply IH|apply IHl].
Qed.

(** How a printed value starts: never with a space, a bracket or a brace that closes. *)
Definition value_start (s : string) : Prop :=
  match s with
  | String c _ => is_space c = false /\ code c <> 93 /\ code c <> 125
  | EmptyString => False
  end.

Lemma value_start_char (n : Z) (s : string) :
  0 <= n < 256 -> n <> 32 -> n <> 9 -> n <> 10 -> n <> 13 -> n <> 93 -> n <> 125 -> value_start (ch n s).
Proof. intros. unfold ch, value_start, is_space. rewrite code_char by done. split; [|done]. lia. Qed.

Lemma print_start (j : json) (rest : string) : value_start (print j rest).
Proof.
  destruct j as [|[]|n|s|l|l]; cbn [print]; unfold quote;
    try (apply value_start_char; lia); try (by split).
  unfold dec. destruct (Z.ltb_spec n 0).
  - rewrite string_app_assoc. by split.
  - destruct (dec_nonneg_head n) as (d & s & Hd & ->); [done|]. rewrite string_app_cons.
    apply (value_start_char (48 + d)); lia.
Qed.

Lemma skip_ws_start (s : string) : value_start s -> skip_ws s = s.
Proof. destruct s as [|c s]; [done|]. intros (Hc & _). cbn. by rewrite Hc. Qed.

Lemma expect_start (n : Z) (s : string) : value_start s -> n = 93 \/ n = 125 -> expect n s = None.
Proof.
  destruct s as [|c s]; [done|]. intros (_ & H1 & H2) Hn. cbn.
  destruct (Z.eqb_spec (code c) n); [lia|done].
Qed.

Lemma skip_ws_ch (n : Z) (s : string) :
  0 <= n < 256 -> n <> 32 -> n <> 9 -> n <> 10 -> n <> 13 -> skip_ws (ch n s) = ch n s.
Proof.
  intros. unfold ch. cbn [skip_ws]. unfold is_space. rewrite code_char by done.
  by replace ((n =? 32) || (n =? 9) || (n =? 10) || (n =? 13)) with false by lia.
Qed.

Lemma expect_ch (n m : Z) (s : string) :
  0 <= n < 256 -> expect m (ch n s) = if n =? m then Some s else None.
Proof. intros. unfold ch. cbn [expect]. by rewrite code_char. Qed.

Lemma no_digit_ch (n : Z) (s : string) : 0 <= n < 48 \/ 57 < n < 256 -> no_digit (ch n s).
Proof.
  intros H. cbn. unfold digit_value. fold (code (char n)). rewrite code_char by lia.
  by replace ((48 <=? n) && (n <=? 57)) with false by lia.
Qed.

(** Run the option monad one step. *)
Ltac ostep := cbn [mbind option_bind Z.eqb Pos.eqb].

(** [j] is read back from its text with [f] units of fuel, whatever follows it. *)
Definition reads_back (f : nat) (j : json) : Prop :=
  forall rest, no_digit rest -> parse_value f (print j rest) = Some (j, rest).

Lemma elems_no_digit (rest : string) (l : list json) : no_digit (print_elems rest l false).
Proof. destruct l; cbn [print_elems]; apply no_digit_ch; lia. Qed.

Lemma fields_no_digit (rest : string) (l : list (string * json)) : no_digit (print_fields rest l false).
Proof. destruct l as [|[??]]; cbn [print_fields]; apply no_digit_ch; lia. Qed.

Lemma read_elems_print (f w : nat) (l : list json) (rest : string) :
  Forall (reads_back f) l -> (length l < w)%nat ->
  read_elems (parse_value f) w (print_elems rest l false) = Some (l, rest).
Proof.
  revert w. induction l as [|x l IH]; intros [|w] Hl Hw; cbn in Hw; try lia.
  - cbn [print_elems read_elems]. by rewrite skip_ws_ch, expect_ch by lia.
  - apply Forall_cons in Hl as [Hx Hl]. cbn [print_elems read_elems].
    rewrite skip_ws_ch, !expect_ch by lia. cbn.
    rewrite Hx by apply elems_no_digit. cbn. by rewrite IH by (done || lia).
Qed.

Lemma read_field_print (f : nat) (k : string) (x : json) (s : string) :
  reads_back f x -> no_digit s -> read_field (parse_value f) (quote k (ch 58 (print x s))) = Some (k, x, s).
Proof.
  intros Hx Hs. unfold read_field, quote. rewrite skip_ws_ch, expect_ch by lia. ostep.
  rewrite read_string_escape. ostep. rewrite skip_ws_ch, expect_ch by lia. ostep. by rewrite Hx.
Qed.

Lemma read_fields_print (f w : nat) (l : list (string * json)) (rest : string) :
  Forall (fun kx => reads_back f (snd kx)) l -> (length l < w)%nat ->
  read_fields (parse_value f) w (print_fields rest l false) = Some (l, rest).
Proof.
  revert w. induction l as [|[k x] l IH]; intros [|w] Hl Hw; cbn in Hw; try lia.
  - cbn [print_fields read_fields]. by rewrite skip_ws_ch, expect_ch by lia.
  - apply Forall_cons in Hl as [Hx Hl]. cbn [print_fields read_fields].
    rewrite skip_ws_ch, !expect_ch by lia. ostep.
    rewrite read_field_print by (done || apply fields_no_digit). ostep. by rewrite IH by (done || lia).
Qed.

Lemma need_fold {A} (g : A -> nat) (l : list A) (m : nat) :
  (fold_right (fun x m => Nat.max (g x) m) O l <= m)%nat -> Forall (fun x => (g x <= m)%nat) l.
Proof. induction l as [|x l IH]; cbn; constructor; [lia|]. apply IH. lia. Qed.

(** A text that starts with a digit or a minus sign is read as a number. *)
Lemma parse_number (f : nat) (c : Ascii.ascii) (s : string) :
  code c = 45 \/ 48 <= code c <= 57 ->
  parse_value (S f) (String c s) = '(n, r) ← read_number (String c s); Some (JNum n, r).
Proof.
  intros Hc. cbn [parse_value skip_ws]. unfold is_space.
  replace ((code c =? 32) || (code c =? 9) || (code c =? 10) || (code c =? 13)) with false by lia.
  assert (forall x, code x <> code c -> bool_decide (x = c) = false) as Hne.
  { intros x Hx. apply bool_decide_eq_false_2. by intros ->. }
  cbn [starts_with]. rewrite !Hne by (vm_compute (code _) at 1; lia).
  cbn [andb]. destruct (Z.eqb_spec (code c) 34), (Z.eqb_spec (code c) 91), (Z.eqb_spec (code c) 123); try lia.
  done.
Qed.

Lemma parse_dec (f : nat) (n : Z) : reads_back (S f) (JNum n).
Proof.
  intros rest Hrest. cbn [print]. pose proof (read_number_dec n rest Hrest) as Hread.
  assert (exists c s, dec n +:+ rest = String c s /\ (code c = 45 \/ 48 <= code c <= 57)) as (c & s & Hs & Hc).
  { unfold dec. destruct (Z.ltb_spec n 0).
    - exists (char 45), (dec_nonneg (- n) +:+ rest). split; [done|by left].
    - destruct (dec_nonneg_head n) as (d & s & Hd & ->); [done|].
      exists (digit d), (s +:+ rest). split; [done|]. right. rewrite digit_code by done. lia. }
  rewrite Hs in *. rewrite parse_number by done. by rewrite Hread.
Qed.

Lemma parse_arr (f : nat) (l : list json) :
  Forall (reads_back f) l -> (length l <= f)%nat -> reads_back (S f) (JArr l).
Proof.
  intros Hl Hf rest Hrest. rewrite print_arr. unfold ch at 1.
  change (parse_value (S f) (String (char 91) ?s)) with (read_array (parse_value f) f s).
  unfold read_array. destruct l as [|x l]; cbn [print_elems].
  - by rewrite skip_ws_ch, expect_ch by lia.
  - apply Forall_cons in Hl as [Hx Hl]. cbn in Hf.
    rewrite skip_ws_start, expect_start by (apply print_start || auto).
    fold (print_elems rest). rewrite Hx by apply elems_no_digit. cbn. by rewrite read_elems_print by (done || lia).
Qed.

Lemma parse_obj (f : nat) (l : list (string * json)) :
  Forall (fun kx => reads_back f (snd kx)) l -> (length l <= f)%nat -> reads_back (S f) (JObj l).
Proof.
  intros Hl Hf rest Hrest. rewrite print_obj. unfold ch at 1.
  change (parse_value (S f) (String (char 123) ?s)) with (read_object (parse_value f) f s).
  unfold read_object. destruct l as [|[k x] l]; cbn [print_fields].
  - by rewrite skip_ws_ch, expect_ch by lia.
  - apply Forall_cons in Hl as [Hx Hl]. cbn in Hf. unfold quote at 1.
    rewrite skip_ws_ch, expect_ch by lia. cbn [Z.eqb Pos.eqb].
    fold (print_fields rest). fold (quote k (ch 58 (print x (print_fields rest l false)))).
    rewrite read_field_print by (done || apply fields_no_digit). cbn. by rewrite read_fields_print by (done || lia).
Qed.

Lemma parse_print (j : json) (f : nat) : (need j <= f)%nat -> reads_back f j.
Proof.
  revert f. induction j as [|b|n|s|l IH|l IH] using json_ind'; intros f Hf;
    (destruct f as [|f]; [cbn in Hf; lia|]).
  - done.
  - by destruct b.
  - apply parse_dec.
  - intros rest _. cbn [print]. unfold quote, ch at 1.
    change (parse_value (S f) (String (char 34) ?s)) with ('(t, r) ← read_string s; Some (JStr t, r)).
    by rewrite read_string_escape.
  - cbn in Hf. apply parse_arr; [|lia].
    assert (Forall (fun x => (need x <= f)%nat) l) as Hn by (apply need_fold; lia).
    eapply Forall_impl; [exact (proj2 (Forall_and _ _) (conj IH Hn))|]. cbn. intros x [Hx ?]. by apply Hx.
  - cbn in Hf. apply parse_obj; [|lia].
    assert (Forall (fun kx : string * json => (need (snd kx) <= f)%nat) l) as Hn by (apply (need_fold (fun kx => need (snd kx))); lia).
    eapply Forall_impl; [exact (proj2 (Forall_and _ _) (conj IH Hn))|]. cbn. intros x [Hx ?]. by apply Hx.
Qed.

(** ** The fuel of [parse_json] is enough *)

Lemma length_app_string (a b : string) : String.length (a +:+ b) = (String.length a + String.length b)%nat.
Proof. induction a as [|c a IH]; [done|]. rewrite string_app_cons. cbn. by rewrite IH. Qed.

Lemma escape_char_length (c : Ascii.ascii) (s : string) : (String.length s < String.length (escape_char c s))%nat.
Proof. unfold escape_char, ch. code_cases c; cbn; lia. Qed.

Lemma quote_length (s rest : string) : (S (String.length rest) < String.length (quote s rest))%nat.
Proof.
  unfold quote, ch. cbn [String.length].
  assert (forall r, (String.length r <= String.length (escape s r))%nat) as H.
  { intros r. induction s as [|c s IH]; [done|]. cbn [escape]. pose proof (escape_char_length c (escape s r)). lia. }
  specialize (H (String (char 34) rest)). cbn [String.length] in H. lia.
Qed.

Lemma dec_length (n : Z) : (0 < String.length (dec n))%nat.
Proof.
  unfold dec. destruct (Z.ltb_spec n 0); [rewrite length_app_string; cbn; lia|].
  destruct (dec_nonneg_head n) as (d & s & _ & ->); [done|]. cbn. lia.
Qed.

(** The text of a value is longer than the fuel reading it takes. *)
Definition long_enough (j : json) : Prop :=
  forall rest, (need j + String.length rest <= String.length (print j rest))%nat.

Lemma elems_length (l : list json) (rest : string) (b : bool) :
  Forall long_enough l ->
  (length l + String.length rest < String.length (print_elems rest l b))%nat /\
  (fold_right (fun x m => Nat.max (need x) m) O l + String.length rest < String.length (print_elems rest l b))%nat.
Proof.
  intros Hl. revert b. induction Hl as [|x l Hx Hl IH]; intros b; cbn [print_elems length fold_right].
  - unfold ch. cbn. lia.
  - specialize (IH false) as [IH1 IH2]. specialize (Hx (print_elems rest l false)).
    assert (1 <= need x)%nat by (destruct x; cbn; lia).
    destruct b; unfold ch; cbn [String.length]; fold (print_elems rest) in *; lia.
Qed.

Lemma fields_length (l : list (string * json)) (rest : string) (b : bool) :
  Forall (fun kx => long_enough (snd kx)) l ->
  (length l + String.length rest < String.length (print_fields rest l b))%nat /\
  (fold_right (fun kx m => Nat.max (need (snd kx)) m) O l + String.length rest <
   String.length (print_fields rest l b))%nat.
Proof.
  intros Hl. revert b. induction Hl as [|[k x] l Hx Hl IH]; intros b; cbn [print_fields length fold_right].
  - unfold ch. cbn. lia.
  - specialize (IH false) as [IH1 IH2]. cbn [snd] in *. specialize (Hx (print_fields rest l false)).
    assert (1 <= need x)%nat by (destruct x; cbn; lia).
    pose proof (quote_length k (ch 58 (print x (print_fields rest l false)))) as Hq.
    unfold ch in *. cbn [String.length] in *.
    destruct b; cbn [String.length]; fold (print_fields rest) in *; lia.
Qed.

Lemma need_le_length (j : json) : long_enough j.
Proof.
  induction j as [|b|n|s|l IH|l IH] using json_ind'; intros rest.
  - cbn [print need]. rewrite length_app_string. cbn. lia.
  - destruct b; cbn [print need]; rewrite length_app_string; cbn; lia.
  - cbn [print need]. rewrite length_app_string. pose proof (dec_length n). lia.
  - cbn [print need]. pose proof (quote_length s rest). lia.
  - rewrite print_arr. destruct (elems_length l rest true IH). unfold ch. cbn [String.length need]. lia.
  - rewrite print_obj. destruct (fields_length l rest true IH). unfold ch. cbn [String.length need]. lia.
Qed.

(** Parsing the text of a value gives the value back. *)
Lemma parse_stringify (j : json) : parse_json (stringify j) = Some j.
Proof.
  unfold parse_json, stringify. rewrite (parse_print j); [done| |done].
  pose proof (need_le_length j EmptyString). lia.
Qed.
