(* ===== verification/Decimal.v ===== *)
(** * Exact decimal numbers

    src/conversation/src/budget/decimal.ts: money as [units / 10^scale], with the scale kept. The units are a [bigint]. A
    number is read back as it is printed ([parse_toString]); [compare] and [add] are those of the number a decimal stands for
    ([value]); [quantize] and [divideByInteger] give the nearest decimal of their scale, and of two nearest ones the even one
    ([quantize_nearest], [divideByInteger_nearest]). *)

From S2P Require Import Prelude Json.
From Stdlib Require Import QArith.
#[local] Open Scope Z_scope.

Module Decimal.
Record Decimal : Type := mk { units : Z; scale : nat }.
End Decimal.
Abbreviation Decimal := Decimal.Decimal.

#[export] Instance Decimal_eq_dec : EqDecision Decimal.
Proof. solve_decision. Defined.

Definition powerOfTen (exponent : nat) : Z := 10 ^ Z.of_nat exponent.

(** ** Reading and printing *)

(** The digits at the front of a text, and the rest. *)
Fixpoint take_digits (s : string) : string * string :=
  match s with
  | String c s' => match digit_value c with Some _ => let '(d, r) := take_digits s' in (String c d, r) | None => (EmptyString, s) end
  | EmptyString => (EmptyString, EmptyString)
  end.

(** An optional sign: whether it is a minus, and the rest. *)
Definition take_sign (s : string) : bool * string :=
  match s with
  | String c s' => if code c =? 45 then (true, s') else if code c =? 43 then (false, s') else (false, s)
  | EmptyString => (false, s)
  end.

(** [BigInt(digits)]. *)
Definition digits_value (digits : string) : Z := fst (read_digits digits 0).

(** The digits after a point, none without one, and the rest. *)
Definition take_fraction (s : string) : string * string :=
  match s with
  | String c s' => if code c =? 46 then take_digits s' else (EmptyString, s)
  | EmptyString => (EmptyString, s)
  end.

(** The exponent after an [e], 0 without one; [None] when the text does not end there. *)
Definition take_exponent (s : string) : option Z :=
  match s with
  | EmptyString => Some 0
  | String c s' =>
      if (code c =? 101) || (code c =? 69) then
        let '(negative, s1) := take_sign s' in
        match take_digits s1 with
        | (EmptyString, _) => None
        | (d, EmptyString) => Some (if negative then - digits_value d else digits_value d)
        | _ => None
        end
      else None
  end.

(** [None] is the error of a text that is no decimal number. *)
Definition parse (text : string) : option Decimal :=
  let '(negative, s1) := take_sign (trim text) in
  let '(whole, s2) := take_digits s1 in
  let '(fraction, s3) := take_fraction s2 in
  exponent ← take_exponent s3;
  let digits := whole +:+ fraction in
  if decide (digits = EmptyString) then None
  else
    let units := digits_value digits in
    let scale := Z.of_nat (String.length fraction) - exponent in
    let '(units, scale) := if scale <? 0 then (units * 10 ^ (- scale), 0) else (units, scale) in
    Some (Decimal.mk (if negative then - units else units) (Z.to_nat scale)).

Definition zero : Decimal := Decimal.mk 0 0.

Definition toString (d : Decimal) : string :=
  let scale := Decimal.scale d in
  let digits := pad_start (scale + 1) (digit 0) (dec_nonneg (Z.abs (Decimal.units d))) in
  let whole := take_string (String.length digits - scale) digits in
  let fraction := drop_string (String.length digits - scale) digits in
  let body := if bool_decide (scale = 0%nat) then whole else whole +:+ "." +:+ fraction in
  if Decimal.units d <? 0 then "-" +:+ body else body.

(** ** Arithmetic *)

(** For a scale that is not below that of the number. *)
Definition alignedTo (d : Decimal) (scale : nat) : Z := Decimal.units d * powerOfTen (scale - Decimal.scale d).

Definition add (a b : Decimal) : Decimal :=
  let scale := Nat.max (Decimal.scale a) (Decimal.scale b) in
  Decimal.mk (alignedTo a scale + alignedTo b scale) scale.

Definition multiplyByInteger (d : Decimal) (factor : Z) : Decimal := Decimal.mk (Decimal.units d * factor) (Decimal.scale d).

Definition divideByPowerOfTen (d : Decimal) (exponent : nat) : Decimal :=
  Decimal.mk (Decimal.units d) (Decimal.scale d + exponent).

(** The rounding both divisions share: of a magnitude, half to even. *)
Definition round_half_even (numerator denominator : Z) : Z :=
  let quotient := Z.quot numerator denominator in
  let doubledRemainder := Z.rem numerator denominator * 2 in
  if (denominator <? doubledRemainder) || ((doubledRemainder =? denominator) && (Z.rem quotient 2 =? 1))
  then quotient + 1 else quotient.

Definition signed (negative : bool) (magnitude : Z) : Z := if negative then - magnitude else magnitude.

(** [None] is the error of a divisor that is not positive. *)
Definition divideByInteger (d : Decimal) (divisor : Z) (scale : nat) : option Decimal :=
  if divisor <=? 0 then None
  else
    let numerator := if (Decimal.scale d <=? scale)%nat then Z.abs (Decimal.units d) * powerOfTen (scale - Decimal.scale d)
                     else Z.abs (Decimal.units d) in
    let denominator := divisor * (if (Decimal.scale d <=? scale)%nat then 1 else powerOfTen (Decimal.scale d - scale)) in
    Some (Decimal.mk (signed (Decimal.units d <? 0) (round_half_even numerator denominator)) scale).

Definition quantize (d : Decimal) (scale : nat) : Decimal :=
  if (Decimal.scale d <=? scale)%nat then Decimal.mk (alignedTo d scale) scale
  else
    let divisor := powerOfTen (Decimal.scale d - scale) in
    Decimal.mk (signed (Decimal.units d <? 0) (round_half_even (Z.abs (Decimal.units d)) divisor)) scale.

Definition compare (a b : Decimal) : comparison :=
  let scale := Nat.max (Decimal.scale a) (Decimal.scale b) in
  let left := alignedTo a scale in
  let right := alignedTo b scale in
  if left =? right then Eq else if left <? right then Lt else Gt.

Definition equals (a b : Decimal) : bool := match compare a b with Eq => true | _ => false end.
Definition isPositive (d : Decimal) : bool := 0 <? Decimal.units d.

(** [a.compare(b) >= 0]. *)
Definition at_least (a b : Decimal) : bool := match compare a b with Lt => false | _ => true end.

Example parse_examples :
  parse " -12.50 " = Some (Decimal.mk (-1250) 2) /\ parse "1e3" = Some (Decimal.mk 1000 0) /\ parse "." = None /\
  toString (Decimal.mk (-5) 3) = "-0.005" /\ quantize (Decimal.mk 125 3) 2 = Decimal.mk 12 2 /\
  divideByInteger (Decimal.mk 1 0) 3 4 = Some (Decimal.mk 3333 4).
Proof. vm_compute. done. Qed.

(** ** The number a decimal stands for *)

Lemma powerOfTen_pos (n : nat) : 0 < powerOfTen n.
Proof. unfold powerOfTen. lia. Qed.

Lemma powerOfTen_add (m n : nat) : powerOfTen (m + n) = powerOfTen m * powerOfTen n.
Proof. unfold powerOfTen. rewrite Nat2Z.inj_add. apply Z.pow_add_r; lia. Qed.

Lemma powerOfTen_split (m n : nat) : (n <= m)%nat -> powerOfTen m = powerOfTen n * powerOfTen (m - n).
Proof. intros Hn. rewrite <- powerOfTen_add. f_equal. lia. Qed.

Definition value (d : Decimal) : Q := Qmake (Decimal.units d) (Z.to_pos (powerOfTen (Decimal.scale d))).

Lemma value_le (a b : Decimal) :
  (value a <= value b)%Q <-> Decimal.units a * powerOfTen (Decimal.scale b) <= Decimal.units b * powerOfTen (Decimal.scale a).
Proof. unfold value, Qle. cbn. rewrite !Z2Pos.id by apply powerOfTen_pos. done. Qed.

Lemma value_eq (a b : Decimal) :
  (value a == value b)%Q <-> Decimal.units a * powerOfTen (Decimal.scale b) = Decimal.units b * powerOfTen (Decimal.scale a).
Proof. unfold value, Qeq. cbn. rewrite !Z2Pos.id by apply powerOfTen_pos. done. Qed.

(** A number keeps its value when it is aligned to a larger scale. *)
Lemma alignedTo_value (d : Decimal) (scale : nat) :
  (Decimal.scale d <= scale)%nat -> (value (Decimal.mk (alignedTo d scale) scale) == value d)%Q.
Proof.
  intros Hs. rewrite value_eq. unfold alignedTo. cbn. rewrite (powerOfTen_split scale (Decimal.scale d)) by done. lia.
Qed.

Lemma value_mk_add (x y : Z) (s : nat) : (value (Decimal.mk (x + y) s) == value (Decimal.mk x s) + value (Decimal.mk y s))%Q.
Proof.
  unfold value, Qeq, Qplus. cbn. rewrite !Pos2Z.inj_mul, !Z2Pos.id by apply powerOfTen_pos. lia.
Qed.

Lemma add_value (a b : Decimal) : (value (add a b) == value a + value b)%Q.
Proof. unfold add. rewrite value_mk_add, !alignedTo_value by lia. done. Qed.

Lemma zero_value : (value zero == 0)%Q.
Proof. done. Qed.

Lemma multiplyByInteger_value (d : Decimal) (n : Z) : (value (multiplyByInteger d n) == value d * inject_Z n)%Q.
Proof. unfold value, multiplyByInteger, Qeq, Qmult. cbn. rewrite Pos.mul_1_r. lia. Qed.

Lemma divideByPowerOfTen_value (d : Decimal) (n : nat) :
  (value (divideByPowerOfTen d n) * inject_Z (powerOfTen n) == value d)%Q.
Proof.
  unfold value, divideByPowerOfTen, Qeq, Qmult. cbn. rewrite Pos.mul_1_r, !Z2Pos.id by apply powerOfTen_pos.
  rewrite powerOfTen_add. lia.
Qed.

Lemma compare_value (a b : Decimal) : compare a b = (value a ?= value b)%Q.
Proof.
  assert (forall x y s, (value (Decimal.mk x s) ?= value (Decimal.mk y s))%Q = Z.compare x y) as Hsame.
  { intros x y s. unfold value, Qcompare. cbn. rewrite !Z2Pos.id by apply powerOfTen_pos.
    destruct (Z.compare_spec x y) as [->|?|?]; [apply Z.compare_refl|apply Z.compare_lt_iff|apply Z.compare_gt_iff];
      apply Zmult_lt_compat_r; [apply powerOfTen_pos|done..|apply powerOfTen_pos|done]. }
  unfold compare. set (s := Nat.max _ _).
  rewrite <- (Qcompare_comp _ _ (alignedTo_value a s ltac:(lia)) _ _ (alignedTo_value b s ltac:(lia))), Hsame.
  destruct (Z.compare_spec (alignedTo a s) (alignedTo b s));
    destruct (Z.eqb_spec (alignedTo a s) (alignedTo b s)); destruct (Z.ltb_spec (alignedTo a s) (alignedTo b s)); done || lia.
Qed.

Lemma at_least_value (a b : Decimal) : at_least a b = true <-> (value b <= value a)%Q.
Proof.
  unfold at_least. rewrite compare_value. destruct (Qcompare_spec (value a) (value b)) as [H|H|H].
  - split; [intros _; by rewrite H; apply Qle_refl|done].
  - split; [done|]. intros Hle. by apply Qlt_not_le in H.
  - split; [intros _; by apply Qlt_le_weak|done].
Qed.

(** ** Rounding *)

(** [q] is the integer nearest to [n / d], the even one of two. *)
Definition nearest_even (n d q : Z) : Prop := 2 * Z.abs (n - q * d) <= d /\ (2 * Z.abs (n - q * d) = d -> Z.even q = true).

Lemma nearest_even_unique (n d q q' : Z) : 0 < d -> nearest_even n d q -> nearest_even n d q' -> q = q'.
Proof.
  intros Hd [H1 E1] [H2 E2].
  assert (q = q' \/ q = q' + 1 \/ q' = q + 1) as [?|[->| ->]] by nia; [done| |].
  - exfalso. assert (2 * Z.abs (n - (q' + 1) * d) = d /\ 2 * Z.abs (n - q' * d) = d) as [H3 H4] by lia.
    specialize (E1 H3). specialize (E2 H4). rewrite Z.even_add, E2 in E1. done.
  - exfalso. assert (2 * Z.abs (n - (q + 1) * d) = d /\ 2 * Z.abs (n - q * d) = d) as [H3 H4] by lia.
    specialize (E2 H3). specialize (E1 H4). rewrite Z.even_add, E1 in E2. done.
Qed.

Lemma round_half_even_nearest (n d : Z) : 0 <= n -> 0 < d -> nearest_even n d (round_half_even n d).
Proof.
  intros Hn Hd. unfold round_half_even. rewrite Z.quot_div_nonneg, Z.rem_mod_nonneg by lia.
  pose proof (Z.div_mod n d ltac:(lia)). pose proof (Z.mod_pos_bound n d Hd). pose proof (Z.div_pos n d Hn Hd).
  set (q := n / d) in *. set (r := n mod d) in *. rewrite (Z.rem_mod_nonneg q 2) by lia.
  pose proof (Zmod_even q) as Heven. unfold nearest_even.
  destruct (Z.ltb_spec d (r * 2)); destruct (Z.eqb_spec (r * 2) d); destruct (Z.eqb_spec (q mod 2) 1); cbn [orb andb];
    split; try nia; intros Htie; try nia; rewrite ?Z.even_add; destruct (Z.even q); cbn; (done || lia).
Qed.

Lemma nearest_even_opp (n d q : Z) : nearest_even n d q -> nearest_even (- n) d (- q).
Proof.
  intros [H1 H2]. unfold nearest_even. replace (- n - - q * d) with (- (n - q * d)) by lia. rewrite Z.abs_opp, Z.even_opp. done.
Qed.

Lemma signed_nearest (u n d : Z) :
  0 < d -> 0 <= n -> nearest_even (signed (u <? 0) n) d (signed (u <? 0) (round_half_even n d)).
Proof.
  intros Hd Hn. pose proof (round_half_even_nearest n d Hn Hd). unfold signed. destruct (u <? 0); [by apply nearest_even_opp|done].
Qed.

Lemma signed_abs (u : Z) : signed (u <? 0) (Z.abs u) = u.
Proof. unfold signed. destruct (Z.ltb_spec u 0); lia. Qed.

Lemma signed_mul (b : bool) (x y : Z) : signed b (x * y) = signed b x * y.
Proof. unfold signed. destruct b; lia. Qed.

(** The rounded number of a scale is the nearest one of that scale. *)
Lemma quantize_nearest (d : Decimal) (scale : nat) :
  Decimal.scale (quantize d scale) = scale /\
  nearest_even (Decimal.units d * powerOfTen scale) (powerOfTen (Decimal.scale d)) (Decimal.units (quantize d scale)).
Proof.
  unfold quantize. destruct (Nat.leb_spec (Decimal.scale d) scale) as [Hs|Hs]; cbn; (split; [done|]).
  - unfold alignedTo, nearest_even. rewrite (powerOfTen_split scale (Decimal.scale d)) by done.
    pose proof (powerOfTen_pos (Decimal.scale d)). replace (_ - _) with 0 by ring. cbn. lia.
  - pose proof (powerOfTen_pos (Decimal.scale d - scale)) as Hp. pose proof (powerOfTen_pos scale).
    pose proof (signed_nearest (Decimal.units d) (Z.abs (Decimal.units d)) _ Hp ltac:(lia)) as [H1 H2].
    rewrite signed_abs in H1, H2. set (q := signed _ (round_half_even _ _)) in *.
    rewrite (powerOfTen_split (Decimal.scale d) scale) by lia. unfold nearest_even.
    replace (Decimal.units d * powerOfTen scale - q * (powerOfTen scale * powerOfTen (Decimal.scale d - scale)))
      with ((Decimal.units d - q * powerOfTen (Decimal.scale d - scale)) * powerOfTen scale) by ring.
    rewrite Z.abs_mul, (Z.abs_eq (powerOfTen scale)) by lia. split; [nia|]. intros Htie. apply H2. nia.
Qed.

Lemma divideByInteger_nearest (d r : Decimal) (divisor : Z) (scale : nat) :
  divideByInteger d divisor scale = Some r ->
  Decimal.scale r = scale /\
  nearest_even (Decimal.units d * powerOfTen scale) (divisor * powerOfTen (Decimal.scale d)) (Decimal.units r).
Proof.
  unfold divideByInteger. destruct (Z.leb_spec divisor 0) as [|Hd]; [done|]. intros [= <-]. cbn. split; [done|].
  destruct (Nat.leb_spec (Decimal.scale d) scale) as [Hs|Hs].
  - pose proof (powerOfTen_pos (scale - Decimal.scale d)). pose proof (powerOfTen_pos (Decimal.scale d)).
    pose proof (signed_nearest (Decimal.units d) (Z.abs (Decimal.units d) * powerOfTen (scale - Decimal.scale d)) (divisor * 1)
      ltac:(lia) ltac:(lia)) as [H1 H2].
    rewrite Z.mul_1_r in *. rewrite signed_mul, signed_abs in H1, H2. set (q := signed _ (round_half_even _ _)) in *.
    rewrite (powerOfTen_split scale (Decimal.scale d)) by done. unfold nearest_even.
    replace (_ - q * _) with ((Decimal.units d * powerOfTen (scale - Decimal.scale d) - q * divisor) * powerOfTen (Decimal.scale d)) by ring.
    rewrite Z.abs_mul, (Z.abs_eq (powerOfTen (Decimal.scale d))) by lia. split; [nia|]. intros Htie. apply H2. nia.
  - pose proof (powerOfTen_pos (Decimal.scale d - scale)). pose proof (powerOfTen_pos scale).
    pose proof (signed_nearest (Decimal.units d) (Z.abs (Decimal.units d)) (divisor * powerOfTen (Decimal.scale d - scale))
      ltac:(nia) ltac:(lia)) as [H1 H2].
    rewrite signed_abs in H1, H2. set (q := signed _ (round_half_even _ _)) in *.
    rewrite (powerOfTen_split (Decimal.scale d) scale) by lia. unfold nearest_even.
    replace (Decimal.units d * powerOfTen scale - q * (divisor * (powerOfTen scale * powerOfTen (Decimal.scale d - scale))))
      with ((Decimal.units d - q * (divisor * powerOfTen (Decimal.scale d - scale))) * powerOfTen scale) by ring.
    rewrite Z.abs_mul, (Z.abs_eq (powerOfTen scale)) by lia. split; [nia|]. intros Htie. apply H2. nia.
Qed.

(** ** A number is read back as printed *)

Fixpoint all_digits (s : string) : bool :=
  match s with EmptyString => true | String c s' => bool_decide (is_Some (digit_value c)) && all_digits s' end.

Lemma all_digits_app (a b : string) : all_digits (a +:+ b) = all_digits a && all_digits b.
Proof. induction a as [|c a IH]; [done|]. rewrite string_app_cons. cbn. by rewrite IH, andb_assoc. Qed.

Lemma all_digits_dec_go (f : nat) (n : Z) (acc : string) : 0 <= n -> all_digits acc = true -> all_digits (dec_go f n acc) = true.
Proof.
  revert n acc. induction f as [|f IH]; intros n acc Hn Hacc; cbn; [done|]. pose proof (div_10_bounds n Hn) as (? & ? & ?).
  destruct (Z.ltb_spec n 10); [|apply IH; [lia|]]; cbn; rewrite digit_value_digit by lia; by rewrite bool_decide_true.
Qed.

Lemma all_digits_dec (n : Z) : 0 <= n -> all_digits (dec_nonneg n) = true.
Proof. intros Hn. by apply all_digits_dec_go. Qed.

Lemma all_digits_prepend (k : nat) (s : string) : all_digits (prepend k (digit 0) s) = all_digits s.
Proof. induction k as [|k IH]; [done|]. exact IH. Qed.

Lemma length_prepend (k : nat) (c : Ascii.ascii) (s : string) : String.length (prepend k c s) = (k + String.length s)%nat.
Proof. induction k as [|k IH]; [done|]. cbn. by rewrite IH. Qed.

Lemma take_digits_app (a rest : string) : all_digits a = true -> no_digit rest -> take_digits (a +:+ rest) = (a, rest).
Proof.
  intros Ha Hr. induction a as [|c a IH]; [destruct rest as [|c r]; [done|rewrite string_app_nil; cbn [no_digit take_digits] in *; by rewrite Hr]|].
  rewrite string_app_cons. cbn [all_digits take_digits] in *. apply andb_prop in Ha as [[v Hc]%bool_decide_eq_true Ha]. by rewrite Hc, IH.
Qed.

Lemma take_digits_all (a : string) : all_digits a = true -> take_digits a = (a, EmptyString).
Proof. intros Ha. rewrite <- (string_app_nil_r a) at 1. by apply take_digits_app. Qed.

Lemma digits_value_prepend (k : nat) (s : string) : digits_value (prepend k (digit 0) s) = digits_value s.
Proof. induction k as [|k IH]; [done|]. exact IH. Qed.

Lemma digits_value_dec (n : Z) : 0 <= n -> digits_value (dec_nonneg n) = n.
Proof. intros Hn. unfold digits_value. rewrite <- (string_app_nil_r (dec_nonneg n)), read_digits_dec by done. done. Qed.

Lemma take_drop_string (n : nat) (s : string) : take_string n s +:+ drop_string n s = s.
Proof. revert s. induction n as [|n IH]; intros [|c s]; cbn; [done..|]. by rewrite string_app_cons, IH. Qed.

Lemma length_drop_string (n : nat) (s : string) : String.length (drop_string n s) = (String.length s - n)%nat.
Proof. revert s. induction n as [|n IH]; intros [|c s]; cbn; [done..|]. apply IH. Qed.

(** White space begins and ends with other bytes than digits and a minus. *)
Definition plain (c : Ascii.ascii) : bool := (45 <=? code c) && (code c <=? 57).

Lemma drop_leading_plain (l : list string) (fuel : nat) (c : Ascii.ascii) (s : string) :
  forallb (fun p => match p with String d _ => negb (plain d) | EmptyString => false end) l = true -> plain c = true ->
  drop_leading l fuel (String c s) = String c s.
Proof.
  intros Hl Hc. destruct fuel as [|fuel]; [done|]. cbn. destruct (List.find _ l) as [p|] eqn:Hf; [|done].
  apply List.find_some in Hf as [Hin Hp]. rewrite List.forallb_forall in Hl. specialize (Hl p Hin).
  destruct p as [|d p]; [done|]. cbn in Hp. apply andb_prop in Hp as [->%bool_decide_eq_true _]. by rewrite Hc in Hl.
Qed.

Lemma reverse_string_last (s : string) (c : Ascii.ascii) :
  reverse_string (s +:+ String c EmptyString) EmptyString = String c (reverse_string s EmptyString).
Proof. by rewrite reverse_string_app. Qed.

Lemma trim_plain (s : string) (c d : Ascii.ascii) :
  plain c = true -> plain d = true -> trim (String c (s +:+ String d EmptyString)) = String c (s +:+ String d EmptyString).
Proof.
  intros Hc Hd. unfold trim, trim_start. rewrite drop_leading_plain by done. unfold trim_end.
  replace (String c (s +:+ String d EmptyString)) with (String c s +:+ String d EmptyString) by apply string_app_cons.
  rewrite reverse_string_last, drop_leading_plain by done. by rewrite <- reverse_string_last, reverse_string_twice.
Qed.

Lemma trim_plain_one (c : Ascii.ascii) : plain c = true -> trim (String c EmptyString) = String c EmptyString.
Proof. intros Hc. unfold trim, trim_start. rewrite drop_leading_plain by done. unfold trim_end. cbn [reverse_string]. by rewrite drop_leading_plain. Qed.

Lemma trim_plain_ends (s : string) (c d : Ascii.ascii) (m : string) :
  s = String c m -> plain c = true -> (exists p, s = p +:+ String d EmptyString) -> plain d = true -> trim s = s.
Proof.
  intros -> Hc [[|a p] Hp] Hd.
  - rewrite string_app_nil in Hp. injection Hp as -> ->. by apply trim_plain_one.
  - rewrite string_app_cons in Hp. injection Hp as -> ->. by apply trim_plain.
Qed.

Lemma digit_plain (c : Ascii.ascii) : is_Some (digit_value c) -> plain c = true.
Proof. unfold digit_value, plain, code. intros [v Hv]. destruct (_ && _) eqn:E; [|done]. lia. Qed.

Lemma all_digits_last (s : string) : all_digits s = true -> s <> EmptyString -> exists p d, s = p +:+ String d EmptyString /\ plain d = true.
Proof.
  induction s as [|c s IH]; [done|]. cbn [all_digits]. intros [Hc%bool_decide_eq_true Hs]%andb_prop _.
  destruct s as [|c' s]; [exists EmptyString, c; split; [done|by apply digit_plain]|].
  destruct (IH Hs ltac:(done)) as (p & d & -> & Hd). exists (String c p), d. split; [|done]. by rewrite string_app_cons.
Qed.

Definition sign_text (negative : bool) : string := if negative then "-" else EmptyString.
Definition point_text (fraction : string) : string := match fraction with EmptyString => EmptyString | _ => "." +:+ fraction end.

Lemma toString_parts (d : Decimal) :
  exists whole fraction, all_digits whole = true /\ whole <> EmptyString /\ all_digits fraction = true /\
    String.length fraction = Decimal.scale d /\ digits_value (whole +:+ fraction) = Z.abs (Decimal.units d) /\
    toString d = sign_text (Decimal.units d <? 0) +:+ whole +:+ point_text fraction.
Proof.
  destruct d as [u s]. unfold toString. cbn [Decimal.units Decimal.scale].
  set (n := Z.abs u). set (digits := pad_start (s + 1) (digit 0) (dec_nonneg n)). set (k := (String.length digits - s)%nat).
  assert (s + 1 <= String.length digits)%nat as Hlen. { unfold digits, pad_start. rewrite length_prepend. lia. }
  assert (all_digits (take_string k digits +:+ drop_string k digits) = true) as Hall.
  { rewrite take_drop_string. unfold digits, pad_start. rewrite all_digits_prepend. apply all_digits_dec. lia. }
  rewrite all_digits_app in Hall. apply andb_prop in Hall as [Hw Hf].
  assert (String.length (drop_string k digits) = s) as Hfl by (rewrite length_drop_string; unfold k; lia).
  exists (take_string k digits), (drop_string k digits). split_and!; [done| |done|done| |].
  - intros Hnil. assert (String.length (take_string k digits +:+ drop_string k digits) = String.length digits) as Hl
      by by rewrite take_drop_string.
    rewrite Hnil, string_app_nil, Hfl in Hl. lia.
  - rewrite take_drop_string. unfold digits, pad_start. rewrite digits_value_prepend. apply digits_value_dec. lia.
  - unfold point_text. case_bool_decide as Hs.
    + rewrite Hs in Hfl. destruct (drop_string k digits); [|done]. rewrite string_app_nil_r. by destruct (u <? 0).
    + destruct (drop_string k digits) as [|c f]; [by rewrite <- Hfl in Hs|]. by destruct (u <? 0).
Qed.

Lemma toString_trim (d : Decimal) : trim (toString d) = toString d.
Proof.
  destruct (toString_parts d) as (whole & fraction & Hw & Hne & Hf & _ & _ & ->).
  assert (exists c m, sign_text (Decimal.units d <? 0) +:+ whole +:+ point_text fraction = String c m /\ plain c = true) as (c & m & Hc & Hp).
  { destruct (Decimal.units d <? 0); cbn [sign_text]; [by eexists (char 45), _|]. destruct whole as [|c w]; [done|].
    exists c. eexists. split; [apply string_app_cons|]. apply andb_prop in Hw as [Hc%bool_decide_eq_true _]. by apply digit_plain. }
  assert (exists p e, whole +:+ point_text fraction = p +:+ String e EmptyString /\ plain e = true) as (p & e & He & Hq).
  { destruct fraction as [|a f]; cbn [point_text].
    - destruct (all_digits_last whole Hw Hne) as (p & e & -> & ?). exists p, e. by rewrite string_app_nil_r.
    - destruct (all_digits_last _ Hf ltac:(done)) as (p & e & -> & ?). exists (whole +:+ "." +:+ p), e. by rewrite !string_app_assoc. }
  eapply trim_plain_ends; [exact Hc|done| |exact Hq]. exists (sign_text (Decimal.units d <? 0) +:+ p). by rewrite He, string_app_assoc.
Qed.

Lemma take_sign_text (negative : bool) (s : string) (c : Ascii.ascii) :
  s = String c (drop_string 1 s) -> is_Some (digit_value c) -> take_sign (sign_text negative +:+ s) = (negative, s).
Proof.
  intros Hs Hc. destruct negative; [done|]. cbn [sign_text]. rewrite string_app_nil, Hs. cbn [take_sign].
  unfold digit_value in Hc. destruct (_ && _) eqn:Hd in Hc; [|by destruct Hc].
  unfold code. destruct (Z.eqb_spec (Z.of_N (Ascii.N_of_ascii c)) 45); [lia|]. destruct (Z.eqb_spec (Z.of_N (Ascii.N_of_ascii c)) 43); [lia|done].
Qed.

Lemma parse_toString (d : Decimal) : parse (toString d) = Some d.
Proof.
  unfold parse. rewrite toString_trim.
  destruct (toString_parts d) as (whole & fraction & Hw & Hne & Hf & Hlen & Hval & ->).
  destruct whole as [|c w]; [done|]. pose proof Hw as Hc. cbn [all_digits] in Hc. apply andb_prop in Hc as [Hc%bool_decide_eq_true _].
  rewrite (take_sign_text _ _ c) by (first [done | by rewrite string_app_cons]).
  assert (no_digit (point_text fraction)) as Hnd by by destruct fraction.
  rewrite (take_digits_app _ _ Hw Hnd).
  assert (take_fraction (point_text fraction) = (fraction, EmptyString)) as ->.
  { destruct fraction as [|a f]; [done|]. cbn [point_text take_fraction]. rewrite string_app_cons, string_app_nil. cbn [take_fraction].
    by rewrite (take_digits_all _ Hf). }
  cbn [take_exponent mbind option_bind]. rewrite decide_False by (by rewrite string_app_cons).
  rewrite Hval, Hlen, Z.sub_0_r. destruct (Z.ltb_spec (Z.of_nat (Decimal.scale d)) 0); [lia|]. rewrite Nat2Z.id.
  destruct d as [u s]. cbn [Decimal.units Decimal.scale]. do 2 f_equal. destruct (Z.ltb_spec u 0); lia.
Qed.
