(* ===== verification/Dates.v ===== *)
(** * Dates

    A JavaScript [Date] is its number of milliseconds since the epoch. [toISOString] is the method of the language, on the
    proleptic Gregorian calendar; [formatIsoDateTime] of src/conversation/src/store/codecs/util.ts is built on it.
    [days_of_civil_of_days] shows that the calendar loses nothing: the date of a day is the date of that day only. *)

From S2P Require Import Prelude Json.
#[local] Open Scope Z_scope.

Module Civil.
Record Civil : Type := mk { year : Z; month : Z; day : Z }.
End Civil.
Abbreviation Civil := Civil.Civil.

(** The day of a 400-year era, counted from the first of March: year of the era, month from March, day of the month. *)
Definition day_of_era (doe : Z) : Z * Z * Z :=
  let yoe := (doe - doe / 1460 + doe / 36524 - doe / 146096) / 365 in
  let doy := doe - (365 * yoe + yoe / 4 - yoe / 100) in
  let mp := (5 * doy + 2) / 153 in
  (yoe, mp, doy - (153 * mp + 2) / 5 + 1).

(** The date of a day counted from 1970-01-01. *)
Definition civil_of_days (days : Z) : Civil :=
  let z := days + 719468 in
  let era := z / 146097 in
  let '(yoe, mp, d) := day_of_era (z mod 146097) in
  let m := if mp <? 10 then mp + 3 else mp - 9 in
  Civil.mk (yoe + era * 400 + (if m <=? 2 then 1 else 0)) m d.

(** The day of a date. *)
Definition days_of_civil (c : Civil) : Z :=
  let y := if Civil.month c <=? 2 then Civil.year c - 1 else Civil.year c in
  let era := y / 400 in
  let yoe := y mod 400 in
  let mp := if 2 <? Civil.month c then Civil.month c - 3 else Civil.month c + 9 in
  let doy := (153 * mp + 2) / 5 + Civil.day c - 1 in
  era * 146097 + (yoe * 365 + yoe / 4 - yoe / 100 + doy) - 719468.

(** A year of [toISOString]: four digits, or a sign and six. *)
Definition iso_year (y : Z) : string :=
  if (0 <=? y) && (y <=? 9999) then fixed_digits 4 y
  else (if y <? 0 then "-" else "+") +:+ fixed_digits 6 (Z.abs y).

(** [date.toISOString()] up to the seconds, and its milliseconds. *)
Definition iso_seconds (moment : Z) : string :=
  let c := civil_of_days (moment / 86400000) in
  let s := moment / 1000 mod 86400 in
  iso_year (Civil.year c) +:+ "-" +:+ fixed_digits 2 (Civil.month c) +:+ "-" +:+ fixed_digits 2 (Civil.day c)
  +:+ "T" +:+ fixed_digits 2 (s / 3600) +:+ ":" +:+ fixed_digits 2 (s / 60 mod 60) +:+ ":" +:+ fixed_digits 2 (s mod 60).

Definition toISOString (moment : Z) : string :=
  iso_seconds moment +:+ "." +:+ fixed_digits 3 (moment mod 1000) +:+ "Z".

(** [s.replace(/\.\d{3}$/, "")]. *)
Definition strip_millis (s : string) : string :=
  match drop_string (String.length s - 4) s with
  | String dot (String a (String b (String c EmptyString))) =>
      match bool_decide (dot = Ascii.ascii_of_nat 46), digit_value a, digit_value b, digit_value c with
      | true, Some _, Some _, Some _ => drop_end 4 s
      | _, _, _, _ => s
      end
  | _ => s
  end.

Definition formatIsoDateTime (date : Z) : string :=
  let iso := toISOString date in
  let withoutZ := drop_end 1 iso in
  let noMillis := strip_millis withoutZ in
  noMillis +:+ "+00:00".

(** ** Reading a date back *)

(** Exactly [w] decimal digits at the front of a text, on top of [acc], and the rest. *)
Fixpoint read_fixed (w : nat) (s : string) (acc : Z) : option (Z * string) :=
  match w, s with
  | O, _ => Some (acc, s)
  | S w', String c s' => d ← digit_value c; read_fixed w' s' (acc * 10 + d)
  | S _, EmptyString => None
  end.

(** [w] digits and the character of code [n] after them. *)
Definition read_part (w : nat) (n : Z) (s : string) : option (Z * string) :=
  '(v, s1) ← read_fixed w s 0; s2 ← expect n s1; Some (v, s2).

Definition read_millis (s : string) : option (Z * string) :=
  match expect 46 s with Some s' => read_fixed 3 s' 0 | None => Some (0, s) end.

(** [new Date(text)] of the texts the program writes: a date with a year of four digits in the zone [Z] or [+00:00], with
    or without milliseconds. What the platform reads of other texts is outside the model ([None]). *)
Definition date_of_text (s : string) : option Z :=
  '(year, s) ← read_part 4 45 s;
  '(month, s) ← read_part 2 45 s;
  '(day, s) ← read_part 2 84 s;
  '(hours, s) ← read_part 2 58 s;
  '(minutes, s) ← read_part 2 58 s;
  '(seconds, s) ← read_fixed 2 s 0;
  '(millis, s) ← read_millis s;
  if bool_decide (s = "Z") || bool_decide (s = "+00:00")
  then Some (days_of_civil (Civil.mk year month day) * 86400000 + hours * 3600000 + minutes * 60000 + seconds * 1000 + millis)
  else None.

Example toISOString_example : toISOString 1709210096789 = "2024-02-29T12:34:56.789Z".
Proof. reflexivity. Qed.

(** The text a moment is stored as has its seconds and no milliseconds. *)
Lemma formatIsoDateTime_seconds (date : Z) : formatIsoDateTime date = iso_seconds date +:+ "+00:00".
Proof.
  assert (toISOString date = (iso_seconds date +:+ ("." +:+ fixed_digits 3 (date mod 1000))) +:+ "Z") as Hiso.
  { unfold toISOString. by rewrite !string_app_assoc. }
  unfold formatIsoDateTime. rewrite Hiso.
  set (ms := "." +:+ fixed_digits 3 (date mod 1000)). change 1%nat with (String.length "Z"). rewrite drop_end_app. unfold strip_millis.
  assert (String.length (iso_seconds date +:+ ms) - 4 = String.length (iso_seconds date))%nat as ->.
  { rewrite string_length_app. change (String.length ms) with 4%nat. lia. }
  rewrite drop_string_app. change 4%nat with (String.length ms). rewrite drop_end_app. unfold ms. cbn [fixed_digits].
  rewrite string_app_cons, string_app_nil, bool_decide_true by done.
  by rewrite !digit_value_digit by (apply Z.mod_pos_bound; lia).
Qed.

(** ** The calendar *)

(** The year of an era is one of 400, and the day of the year one of 366. *)
Lemma year_of_era (doe : Z) :
  0 <= doe < 146097 ->
  let yoe := (doe - doe / 1460 + doe / 36524 - doe / 146096) / 365 in
  0 <= yoe < 400 /\ 0 <= doe - (365 * yoe + yoe / 4 - yoe / 100) <= 365.
Proof.
  intros Hdoe. cbv zeta.
  assert (doe / 36524 = 0 \/ doe / 36524 = 1 \/ doe / 36524 = 2 \/ doe / 36524 = 3 \/ doe / 36524 = 4) as Hc
    by (Z.to_euclidean_division_equations; lia).
  Z.to_euclidean_division_equations. destruct Hc as [->|[->|[->|[->| ->]]]]; lia.
Qed.

(** A day of an era is a date, and can be computed back from it. *)
Lemma day_of_era_ok (doe yoe mp d : Z) :
  0 <= doe < 146097 -> day_of_era doe = (yoe, mp, d) ->
  0 <= yoe < 400 /\ 0 <= mp < 12 /\ 1 <= d <= 31 /\
  yoe * 365 + yoe / 4 - yoe / 100 + ((153 * mp + 2) / 5 + d - 1) = doe.
Proof.
  intros Hdoe Heq. pose proof (year_of_era doe Hdoe) as [Hy Hd]. unfold day_of_era in Heq. injection Heq as <- <- <-.
  set (yoe := (doe - doe / 1460 + doe / 36524 - doe / 146096) / 365) in *.
  set (doy := doe - (365 * yoe + yoe / 4 - yoe / 100)) in *.
  split_and!; try lia; try (clearbody doy; Z.to_euclidean_division_equations; lia).
Qed.

Lemma days_of_civil_of_days (days : Z) : days_of_civil (civil_of_days days) = days.
Proof.
  pose proof (Z.mod_pos_bound (days + 719468) 146097 ltac:(lia)) as Hr.
  pose proof (Z.div_mod (days + 719468) 146097 ltac:(lia)) as Hdm.
  unfold civil_of_days. destruct (day_of_era ((days + 719468) mod 146097)) as [[yoe mp] d] eqn:He.
  destruct (day_of_era_ok _ _ _ _ Hr He) as (? & ? & ? & Hdoe). unfold days_of_civil. cbn [Civil.year Civil.month Civil.day].
  set (era := (days + 719468) / 146097) in *.
  assert (forall y, (y + era * 400) / 400 = era + y / 400) as Hdiv by (intros y; rewrite Z.div_add by lia; lia).
  assert (forall y, (y + era * 400) mod 400 = y mod 400) as Hmod by (intros y; by rewrite Z.mod_add by lia).
  destruct (mp <? 10) eqn:Hmp; [apply Z.ltb_lt in Hmp|apply Z.ltb_ge in Hmp].
  - assert (mp + 3 <=? 2 = false) as -> by (apply Z.leb_gt; lia).
    assert (2 <? mp + 3 = true) as -> by (apply Z.ltb_lt; lia).
    rewrite Z.add_0_r, Hdiv, Hmod, Z.div_small, Z.mod_small by lia. replace (mp + 3 - 3) with mp by lia. lia.
  - assert (mp - 9 <=? 2 = true) as -> by (apply Z.leb_le; lia).
    assert (2 <? mp - 9 = false) as -> by (apply Z.ltb_ge; lia).
    replace (yoe + era * 400 + 1 - 1) with (yoe + era * 400) by lia.
    rewrite Hdiv, Hmod, Z.div_small, Z.mod_small by lia. replace (mp - 9 + 9) with mp by lia. lia.
Qed.

(** ** Round trips *)

Lemma read_fixed_digits (w : nat) (n acc : Z) (rest : string) :
  0 <= n < 10 ^ Z.of_nat w -> read_fixed w (fixed_digits w n +:+ rest) acc = Some (acc * 10 ^ Z.of_nat w + n, rest).
Proof.
  revert n acc. induction w as [|w IH]; intros n acc Hn.
  - cbn in *. rewrite string_app_nil. do 2 f_equal. lia.
  - rewrite Nat2Z.inj_succ, Z.pow_succ_r in * by lia. cbn [fixed_digits read_fixed]. rewrite string_app_cons.
    pose proof (Z.div_mod n (10 ^ Z.of_nat w) ltac:(lia)) as Hdm.
    pose proof (Z.mod_pos_bound n (10 ^ Z.of_nat w) ltac:(lia)) as Hm.
    assert (0 <= n / 10 ^ Z.of_nat w < 10) as Hd by (split; [apply Z.div_pos; lia|apply Z.div_lt_upper_bound; lia]).
    rewrite (Z.mod_small (n / 10 ^ Z.of_nat w)), digit_value_digit by lia. cbn [mbind option_bind].
    rewrite <- (fixed_digits_mod w w), IH by lia. do 2 f_equal. lia.
Qed.

(** Bounds of a number of a given count of digits. *)
Ltac digit_bounds :=
  try lia;
  match goal with |- context [10 ^ Z.of_nat ?w] => let v := eval vm_compute in (10 ^ Z.of_nat w) in change (10 ^ Z.of_nat w) with v end;
  Z.to_euclidean_division_equations; lia.

Lemma read_part_digits (w : nat) (n v : Z) (rest : string) :
  0 <= n < 256 -> 0 <= v < 10 ^ Z.of_nat w -> read_part w n (fixed_digits w v +:+ ch n rest) = Some (v, rest).
Proof.
  intros Hn Hv. unfold read_part. rewrite read_fixed_digits by done. cbn [mbind option_bind]. unfold ch. cbn [expect].
  rewrite code_char, Z.eqb_refl by done. cbn [mbind option_bind]. by rewrite Z.add_0_l.
Qed.

Lemma civil_bounds (days : Z) : 1 <= Civil.month (civil_of_days days) <= 12 /\ 1 <= Civil.day (civil_of_days days) <= 31.
Proof.
  pose proof (Z.mod_pos_bound (days + 719468) 146097 ltac:(lia)) as Hr. unfold civil_of_days.
  destruct (day_of_era ((days + 719468) mod 146097)) as [[yoe mp] d] eqn:He.
  destruct (day_of_era_ok _ _ _ _ Hr He) as (_ & ? & ? & _). cbn. destruct (Z.ltb_spec mp 10); lia.
Qed.

(** Moments whose year has four digits. *)
Definition four_digit_year (moment : Z) : Prop := 0 <= Civil.year (civil_of_days (moment / 86400000)) <= 9999.

Lemma date_of_iso (moment millis : Z) (suffix rest : string) :
  four_digit_year moment -> read_millis suffix = Some (millis, rest) -> rest = "Z" \/ rest = "+00:00" ->
  date_of_text (iso_seconds moment +:+ suffix) = Some (moment / 1000 * 1000 + millis).
Proof.
  intros Hy Hsuffix Hrest. unfold date_of_text, iso_seconds, iso_year.
  destruct (civil_bounds (moment / 86400000)) as [Hm Hd].
  pose proof (days_of_civil_of_days (moment / 86400000)) as Hdays.
  pose proof (Z.mod_pos_bound (moment / 1000) 86400 ltac:(lia)) as Hs.
  pose proof (Z.div_mod (moment / 1000) 86400 ltac:(lia)) as Hsd.
  unfold four_digit_year in Hy. set (c := civil_of_days (moment / 86400000)) in *. set (s := moment / 1000 mod 86400) in *.
  replace ((0 <=? Civil.year c) && (Civil.year c <=? 9999)) with true by lia. rewrite !string_app_assoc.
  repeat match goal with
         | |- context [String ?x EmptyString +:+ ?r] => let n := eval vm_compute in (code x) in change (String x EmptyString +:+ r) with (ch n r)
         end.
  rewrite read_part_digits by digit_bounds. cbn [mbind option_bind].
  rewrite read_part_digits by digit_bounds. cbn [mbind option_bind].
  rewrite read_part_digits by digit_bounds. cbn [mbind option_bind].
  rewrite read_part_digits by digit_bounds. cbn [mbind option_bind].
  rewrite read_part_digits by digit_bounds. cbn [mbind option_bind].
  rewrite read_fixed_digits by digit_bounds. cbn [mbind option_bind].
  rewrite Hsuffix. cbn [mbind option_bind].
  assert (bool_decide (rest = "Z") || bool_decide (rest = "+00:00") = true) as ->
    by (destruct Hrest as [-> | ->]; reflexivity).
  f_equal. replace (Civil.mk (Civil.year c) (Civil.month c) (Civil.day c)) with c by by destruct c. rewrite Hdays.
  clear -Hs Hsd. subst s. replace (moment / 86400000) with (moment / 1000 / 86400) by (rewrite Z.div_div by lia; done).
  Z.to_euclidean_division_equations; lia.
Qed.

(** A moment is read back from its text as the program writes it, without its milliseconds. *)
Lemma date_of_formatIsoDateTime (moment : Z) :
  four_digit_year moment -> date_of_text (formatIsoDateTime moment) = Some (moment / 1000 * 1000).
Proof.
  intros Hy. rewrite formatIsoDateTime_seconds, (date_of_iso _ 0 _ "+00:00"); [f_equal; lia|done|reflexivity|by right].
Qed.

Lemma date_of_toISOString (moment : Z) : four_digit_year moment -> date_of_text (toISOString moment) = Some moment.
Proof.
  intros Hy. unfold toISOString. rewrite (date_of_iso _ (moment mod 1000) _ "Z"); [|done| |by left].
  - f_equal. Z.to_euclidean_division_equations; lia.
  - change ("." +:+ ?r) with (ch 46 r). unfold read_millis, ch. cbn [expect].
    rewrite code_char, Z.eqb_refl by lia. rewrite read_fixed_digits by digit_bounds. done.
Qed.
