(* ===== verification/Types.v ===== *)
(** * The data of a turn

    The record and enumeration types of src/conversation/src/domain/turns.ts and domain/turn-admission.ts that the
    stores, the queues and the handlers share, and the errors they raise. Each record has a module of its own for its
    field names. A moment ([Date]) is a number of milliseconds since the epoch; a count or a sequence is an integer. *)

From S2P Require Import Prelude Json.

(** ** Errors

    What a call of the program throws: an exception of the DynamoDB client, a domain error with its message, or another
    JavaScript error. *)

Inductive exn : Type :=
| ConditionalCheckFailedException
| TransactionCanceledException (reasons : list string)
| ServiceException (name : string)
| TurnNotFoundError (message : string)
| StaleAttemptError (message : string)
| TurnTerminalError (message : string)
| TurnNotWaitingError (message : string)
| ComputerNotReadyError (message : string)
| ComputerActionNotFoundError (message : string)
| ComputerActionNotClaimedError (message : string)
| JsError (message : string)
| MalformedItem (what : string)
| DomainError (code message : string)
| OrganizationComputerNotSetUpError (reasonClass message : string)
| OwnerRefusal (code detail : string)
| OwnerCredentialBrokerError (code : string)
| NamedError (name message : string).

#[export] Instance exn_eq_dec : EqDecision exn.
Proof. solve_decision. Defined.

(** Exceptions the DynamoDB client raises, the only ones a request can answer with. *)
Definition is_service_exn (e : exn) : bool :=
  match e with
  | ConditionalCheckFailedException | TransactionCanceledException _ | ServiceException _ => true
  | _ => false
  end.

(** ** Turns *)

Inductive TurnStatus : Type := Active | Completed | Failed | Reconciling.

#[export] Instance TurnStatus_eq_dec : EqDecision TurnStatus.
Proof. solve_decision. Defined.

Definition status_text (s : TurnStatus) : string :=
  match s with
  | Active => "active"
  | Completed => "completed"
  | Failed => "failed"
  | Reconciling => "reconciling"
  end.

Definition status_of_text (s : string) : option TurnStatus :=
  if decide (s = "active") then Some Active
  else if decide (s = "completed") then Some Completed
  else if decide (s = "failed") then Some Failed
  else if decide (s = "reconciling") then Some Reconciling
  else None.

Inductive TurnEventKind : Type :=
| TurnStarted
| AttemptClaimed
| ModelRequest
| TurnToken
| TurnThinking
| ComputerStarting
| ComputerReady
| ToolCall
| ToolResult
| TurnWaiting
| AttemptRelinquished
| TurnCompleted
| TurnFailed
| TurnReconciling
| TurnGrantReplaced.

#[export] Instance TurnEventKind_eq_dec : EqDecision TurnEventKind.
Proof. solve_decision. Defined.

Definition kind_text (k : TurnEventKind) : string :=
  match k with
  | TurnStarted => "turn.started"
  | AttemptClaimed => "attempt.claimed"
  | ModelRequest => "model.request"
  | TurnToken => "turn.token"
  | TurnThinking => "turn.thinking"
  | ComputerStarting => "computer.starting"
  | ComputerReady => "computer.ready"
  | ToolCall => "tool.call"
  | ToolResult => "tool.result"
  | TurnWaiting => "turn.waiting"
  | AttemptRelinquished => "attempt.relinquished"
  | TurnCompleted => "turn.completed"
  | TurnFailed => "turn.failed"
  | TurnReconciling => "turn.reconciling"
  | TurnGrantReplaced => "turn.grant.replaced"
  end.

Definition all_kinds : list TurnEventKind :=
  [TurnStarted; AttemptClaimed; ModelRequest; TurnToken; TurnThinking; ComputerStarting; ComputerReady; ToolCall;
   ToolResult; TurnWaiting; AttemptRelinquished; TurnCompleted; TurnFailed; TurnReconciling; TurnGrantReplaced].

Definition kind_of_text (s : string) : option TurnEventKind :=
  snd <$> list_find (fun k => kind_text k = s) all_kinds.

(** The computer tool call a waiting turn is parked on. The arguments are an object used as a map. *)
Module PendingComputerTool.
Record PendingComputerTool : Type := mk {
  actionId : string;
  toolName : string;
  arguments : gmap string string;
}.
End PendingComputerTool.
Abbreviation PendingComputerTool := PendingComputerTool.PendingComputerTool.

#[export] Instance PendingComputerTool_eq_dec : EqDecision PendingComputerTool.
Proof. solve_decision. Defined.

(** The turn control record. *)
Module Turn.
Record Turn : Type := mk {
  turnId : string;
  tenantId : string;
  channelId : string;
  botId : string;
  status : TurnStatus;
  promptMessageSeq : option Z;
  promptAuthorId : option string;
  attemptId : option string;
  attempt : Z;
  claimedBy : option string;
  leaseExpiresAt : option Z;
  deadlineAt : option Z;
  recoveryAttempts : Z;
  waitingFor : option string;
  waitingSince : option Z;
  logicalEnqueueIds : gset string;
  pendingComputerTool : option PendingComputerTool;
  storageFence : option Z;
  nextEventSeq : Z;
  terminalReason : option string;
  messageSeq : option Z;
}.
End Turn.
Abbreviation Turn := Turn.Turn.

(** The value of one argument of a [tool.call] event. *)
Inductive ToolArgument : Type :=
| ArgText (s : string)
| ArgNumber (n : Z)
| ArgFlag (b : bool).

#[export] Instance ToolArgument_eq_dec : EqDecision ToolArgument.
Proof. solve_decision. Defined.

(** What a caller says about an event. An optional property is [None] when it is absent; [durationMs] may also be null. *)
Module Draft.
Record TurnEventDraft : Type := mk {
  kind : TurnEventKind;
  token : option string;
  messageSeq : option Z;
  body : option string;
  pendingComputerTool : option PendingComputerTool;
  attemptId : option string;
  tool : option string;
  callId : option string;
  summary : option string;
  toolArguments : option (list (string * ToolArgument));
  argumentsTruncated : option bool;
  ok : option bool;
  output : option string;
  outputTruncated : option bool;
  durationMs : option (option Z);
  text : option string;
  detail : option string;
}.

(** A draft of one kind that says nothing else. *)
Definition only (k : TurnEventKind) : TurnEventDraft :=
  mk k None None None None None None None None None None None None None None None None.
End Draft.
Abbreviation TurnEventDraft := Draft.TurnEventDraft.

(** One durable turn event: the draft the caller gave, and what the store and the domain assigned. *)
Module TurnEvent.
Record TurnEvent : Type := mk {
  eventId : string;
  tenantId : string;
  turnId : string;
  channelId : string;
  seq : Z;
  draft : TurnEventDraft;
}.
Definition kind (e : TurnEvent) : TurnEventKind := Draft.kind (draft e).
End TurnEvent.
Abbreviation TurnEvent := TurnEvent.TurnEvent.

#[export] Instance TurnEventDraft_eq_dec : EqDecision TurnEventDraft.
Proof. solve_decision. Defined.

#[export] Instance TurnEvent_eq_dec : EqDecision TurnEvent.
Proof. solve_decision. Defined.

(** What a successful claim hands the owner. *)
Module TurnClaim.
Record TurnClaim : Type := mk {
  turn : Turn;
  attemptId : string;
  attempt : Z;
  leaseExpiresAt : Z;
  deadlineAt : Z;
}.
End TurnClaim.
Abbreviation TurnClaim := TurnClaim.TurnClaim.

(** What a probe saw of a turn. *)
Module Observation.
Record ProbeObservation : Type := mk {
  attemptId : option string;
  recoveryAttempts : Z;
}.
End Observation.
Abbreviation ProbeObservation := Observation.ProbeObservation.

(** ** The jobs and messages of the queues *)

Module RunJob.
Record TurnRunJob : Type := mk {
  tenantId : string;
  channelId : string;
  botId : string;
  turnId : string;
  requiredCapabilities : list string;
}.
End RunJob.
Abbreviation TurnRunJob := RunJob.TurnRunJob.

#[export] Instance TurnRunJob_eq_dec : EqDecision TurnRunJob.
Proof. solve_decision. Defined.

(** The deadline probe; its [kind] is the one text ["deadline"]. *)
Module Probe.
Record TurnProbeMessage : Type := mk {
  tenantId : string;
  turnId : string;
  expectAttempt : Z;
}.
End Probe.
Abbreviation TurnProbeMessage := Probe.TurnProbeMessage.

#[export] Instance TurnProbeMessage_eq_dec : EqDecision TurnProbeMessage.
Proof. solve_decision. Defined.

(** The request that a computer host be started for a parked turn. *)
Module StartJob.
Record ComputerStartJob : Type := mk {
  jobId : string;
  tenantId : string;
  turnId : string;
  botId : string;
  userId : string;
  computerId : string;
  computerPolicy : string;
  requiredCapabilities : list string;
}.
End StartJob.
Abbreviation ComputerStartJob := StartJob.ComputerStartJob.

(** ** Texts of the enumerations *)

Lemma status_of_text_text (s : TurnStatus) : status_of_text (status_text s) = Some s.
Proof. by destruct s. Qed.

Lemma kind_of_text_text (k : TurnEventKind) : kind_of_text (kind_text k) = Some k.
Proof. by destruct k. Qed.

Lemma status_text_inj (s t : TurnStatus) : status_text s = status_text t -> s = t.
Proof. by destruct s, t. Qed.
