(* ===== verification/Computers.v ===== *)
(** * The data of computers and their workers

    The record of an organization computer (src/conversation/src/store/codecs/computer.ts), the record of a worker
    (store/codecs/worker.ts), and what is judged on them alone (domain/computers.ts, domain/owner-supervisor.ts). A moment is
    a number of milliseconds. *)

From S2P Require Import Prelude.
From coqutil Require Import Datatypes.RecordSetters.
Import DoubleBraceUpdate.

(** A field that may be absent is an option; [browserUnavailable] is true or absent. *)
Module Computer.
Record Computer : Type := mk {
  computerId : string;
  tenantId : string;
  policy : string;
  stopped : bool;
  modelReady : bool;
  workspaceReady : bool;
  browserReady : bool;
  browserUnavailable : bool;
  hostStartGeneration : Z;
  hostStartDispatchedGeneration : Z;
  snapshotGeneration : Z;
  diskDirty : bool;
  hydrateRequired : bool;
  hostStartLeaseExpiresAt : option Z;
  snapshotUri : option string;
  snapshotChecksum : option string;
  intendedHostWorkerId : option string;
  liveWriterHostId : option string;
  hostLostAt : option Z;
  hostLostGeneration : option Z;
  ownerId : option string;
  ownerGeneration : option Z;
  ownerProtocolVersion : option Z;
  ownerStartedAt : option Z;
  ownerCredentialsExpireAt : option Z;
  ownerCredentialsRenewedAt : option Z;
  dispatchCredentialsRenewedAt : option Z;
  idleSinceAt : option Z;
  ownerStopApprovedAt : option Z;
  dispatchId : option string;
  dispatchTurnId : option string;
  dispatchActionId : option string;
  dispatchAttempt : option Z;
  dispatchLeaseExpiresAt : option Z;
  interactiveUntilAt : option Z;
  fileOperationId : option string;
}.
End Computer.
Abbreviation Computer := Computer.Computer.

Module Worker.
Record Worker : Type := mk {
  workerId : string;
  tenantId : string;
  costClass : string;
  capabilities : list string;
  tokenHash : string;
  lastHeartbeatAt : Z;
  computerId : option string;
  hydratedSnapshotGeneration : option Z;
  pollSequence : option Z;
  pollState : option string;
  pollPaceMilliseconds : option Z;
}.
End Worker.
Abbreviation Worker := Worker.Worker.

(** The record an organization computer starts with. *)
Definition newComputerRecord (tenantId computerId : string) : Computer := {|
  Computer.computerId := computerId;
  Computer.tenantId := tenantId;
  Computer.policy := "prefer_local";
  Computer.stopped := false;
  Computer.modelReady := true;
  Computer.workspaceReady := false;
  Computer.browserReady := false;
  Computer.browserUnavailable := false;
  Computer.hostStartGeneration := 0;
  Computer.hostStartDispatchedGeneration := 0;
  Computer.snapshotGeneration := 0;
  Computer.diskDirty := false;
  Computer.hydrateRequired := false;
  Computer.hostStartLeaseExpiresAt := None;
  Computer.snapshotUri := None;
  Computer.snapshotChecksum := None;
  Computer.intendedHostWorkerId := None;
  Computer.liveWriterHostId := None;
  Computer.hostLostAt := None;
  Computer.hostLostGeneration := None;
  Computer.ownerId := None;
  Computer.ownerGeneration := None;
  Computer.ownerProtocolVersion := None;
  Computer.ownerStartedAt := None;
  Computer.ownerCredentialsExpireAt := None;
  Computer.ownerCredentialsRenewedAt := None;
  Computer.dispatchCredentialsRenewedAt := None;
  Computer.idleSinceAt := None;
  Computer.ownerStopApprovedAt := None;
  Computer.dispatchId := None;
  Computer.dispatchTurnId := None;
  Computer.dispatchActionId := None;
  Computer.dispatchAttempt := None;
  Computer.dispatchLeaseExpiresAt := None;
  Computer.interactiveUntilAt := None;
  Computer.fileOperationId := None;
|}.

(** The computer without its owner fields, keeping the last owner generation. *)
Definition withoutOwner (c : Computer) : Computer :=
  c {{ Computer.ownerId := None; Computer.ownerProtocolVersion := None; Computer.ownerStartedAt := None;
       Computer.ownerCredentialsExpireAt := None; Computer.ownerCredentialsRenewedAt := None;
       Computer.dispatchCredentialsRenewedAt := None; Computer.idleSinceAt := None; Computer.ownerStopApprovedAt := None;
       Computer.dispatchId := None; Computer.dispatchTurnId := None; Computer.dispatchActionId := None;
       Computer.dispatchAttempt := None; Computer.dispatchLeaseExpiresAt := None; Computer.interactiveUntilAt := None;
       Computer.fileOperationId := None }}.

(** Whether a live owner serves the computer: it exchanged its bootstrap token for the current host start generation, and
    its worker has a heartbeat inside the window. *)
Definition liveOwnerOf (computer : Computer) (worker : option Worker) (now timeoutSeconds : Z) : bool :=
  bool_decide (is_Some (Computer.ownerId computer)) &&
  bool_decide (Computer.ownerGeneration computer = Some (Computer.hostStartGeneration computer)) &&
  match worker with
  | None => false
  | Some worker =>
      bool_decide (Some (Worker.workerId worker) = Computer.ownerId computer) &&
      bool_decide (Worker.computerId worker = Some (Computer.computerId computer)) &&
      (now - Worker.lastHeartbeatAt worker <=? timeoutSeconds * 1000)
  end.
