(* ===== verification/Service.v ===== *)
(** * The services the program calls, and programs that call them

    DynamoDB, SQS, the clock, the identifier source and the random source are outside the repository. This file states
    what the program relies on of them and nothing more:

    - [attr], [item], [cond] and [action]: the values, items, condition expressions and update expressions the source
      writes, with the documented meaning of an expression on an item ([holds], [apply_actions]);
    - [request R]: one call, with the type of its answer;
    - [contract]: what an answer tells about the state before and after the call. A request that fails changes nothing;
      a condition that is reported failed did fail; a transaction writes all of its items or none. Which failures happen,
      which numbers the clock and the random source give and which identifiers are handed out is left open;
    - [Service]: a service is any relation that keeps the contract.

    A program is a tree of requests ([prog]); [exec] runs it against a service while other processes change the state
    between any two of its requests ([interference] is an arbitrary relation). [run] executes a program against the
    deterministic, fault-free service [local_service], with nobody else about. *)

From S2P Require Import Prelude Json Types.
From stdpp Require Import sorting.
From Stdlib Require Import QArith Sorted.
#[local] Open Scope Z_scope.

(** ** Items and expressions *)

(** An attribute value. [AB] is a text stored as deflated bytes; it stands for the bytes by the text. A number that is no
    integer is [ADEC units scale], [units / 10^scale] with [scale] as small as it can be: DynamoDB keeps no trailing zeros.
    [AL] and [APAIRS] are lists, of texts and of two-element lists of texts. *)
Inductive attr : Type :=
| AS (s : string)
| AN (n : Z)
| ADEC (units : Z) (scale : nat)
| AL (texts : list string)
| APAIRS (pairs : list (string * string))
| ABOOL (b : bool)
| ASS (ss : gset string)
| AB (text : string).

#[export] Instance attr_eq_dec : EqDecision attr.
Proof. solve_decision. Defined.

Abbreviation item := (gmap string attr).

(** The primary key of an item: partition key and sort key. *)
Abbreviation key := (string * string)%type.

Inductive cond : Type :=
| CTrue
| AttrExists (a : string)
| AttrNotExists (a : string)
| AttrEq (a : string) (v : attr)
| AttrNe (a : string) (v : attr)
| AttrLe (a : string) (n : Z)
| AttrLt (a : string) (n : Z)
| AttrGt (a : string) (n : Z)
| AttrBefore (a : string) (s : string)
| Contains (a : string) (s : string)
| CNot (c : cond)
| CAnd (c d : cond)
| COr (c d : cond).

Declare Scope cond_scope.
Delimit Scope cond_scope with cond.
Bind Scope cond_scope with cond.
Notation "c 'AND' d" := (CAnd c d) (at level 60, right associativity) : cond_scope.
Notation "c 'OR' d" := (COr c d) (at level 65, right associativity) : cond_scope.

(** A condition on an item; an item that does not exist has no attributes. A comparison with an attribute that is not
    there is false, except that it is unequal to everything; counters and times are compared, which are integers. *)
Fixpoint holds (c : cond) (it : item) : bool :=
  match c with
  | CTrue => true
  | AttrExists a => bool_decide (is_Some (it !! a))
  | AttrNotExists a => bool_decide (it !! a = None)
  | AttrEq a v => bool_decide (it !! a = Some v)
  | AttrNe a v => bool_decide (it !! a <> Some v)
  | AttrLe a n => match it !! a with Some (AN m) => m <=? n | _ => false end
  | AttrLt a n => match it !! a with Some (AN m) => m <? n | _ => false end
  | AttrGt a n => match it !! a with Some (AN m) => n <? m | _ => false end
  | AttrBefore a s => match it !! a with Some (AS t) => String.ltb t s | _ => false end
  | Contains a s => match it !! a with Some (ASS ss) => bool_decide (s ∈ ss) | _ => false end
  | CNot d => negb (holds d it)
  | CAnd d e => holds d it && holds e it
  | COr d e => holds d it || holds e it
  end.

Inductive action : Type :=
| SET (a : string) (v : attr)
| ADD (a : string) (v : attr)
| REMOVE (a : string)
| INCREMENT (a : string) (first step : Z).

(** One action of an update expression. [ADD] adds to a number (absent counts as 0) or to a set;
    [INCREMENT a first step] is [SET a = if_not_exists(a, first) + step] on a counter, which is an integer. *)
Definition apply_action (it : item) (x : action) : item :=
  match x with
  | SET a v => <[a := v]> it
  | REMOVE a => delete a it
  | ADD a v =>
      match v, it !! a with
      | AN n, Some (AN m) => <[a := AN (m + n)]> it
      | ASS ss, Some (ASS old) => <[a := ASS (old ∪ ss)]> it
      | _, None => <[a := v]> it
      | _, Some _ => it
      end
  | INCREMENT a first step =>
      match it !! a with
      | Some (AN m) => <[a := AN (m + step)]> it
      | _ => <[a := AN (first + step)]> it
      end
  end.

(** The item an update starts from: the stored one, or one that holds only its key. *)
Definition base_item (k : key) (o : option item) : item :=
  default {["pk" := AS k.1; "sk" := AS k.2]} o.

Definition apply_actions (xs : list action) (it : item) : item := foldl apply_action it xs.

(** The key an item to be put carries. *)
Definition item_key (it : item) : option key :=
  match it !! "pk", it !! "sk" with
  | Some (AS p), Some (AS s) => Some (p, s)
  | _, _ => None
  end.

(** ** The shared state *)

(** The Messaging table, and what was published on each queue, oldest first. *)
Module World.
Record World : Type := mk {
  tbl : gmap (string * string) (gmap string attr);
  runs : list TurnRunJob;
  probes : list (TurnProbeMessage * Z);
  starts : list ComputerStartJob;
}.
End World.
Abbreviation World := World.World.
Abbreviation tbl := World.tbl.

Definition with_tbl (w : World) (t : gmap key item) : World :=
  World.mk t (World.runs w) (World.probes w) (World.starts w).
Definition with_run (w : World) (j : TurnRunJob) : World :=
  World.mk (tbl w) (World.runs w ++ [j]) (World.probes w) (World.starts w).
Definition with_probe (w : World) (m : TurnProbeMessage) (delay : Z) : World :=
  World.mk (tbl w) (World.runs w) (World.probes w ++ [(m, delay)]) (World.starts w).
Definition with_start (w : World) (j : ComputerStartJob) : World :=
  World.mk (tbl w) (World.runs w) (World.probes w) (World.starts w ++ [j]).

(** The item at a key, an absent one without attributes. *)
Definition item_at (w : World) (k : key) : item := default ∅ (tbl w !! k).

(** ** Requests *)

Inductive txop : Type :=
| TUpdate (k : key) (xs : list action) (c : cond)
| TPut (it : item) (c : cond)
| TCheck (k : key) (c : cond).

Definition txop_key (o : txop) : option key :=
  match o with
  | TUpdate k _ _ | TCheck k _ => Some k
  | TPut it _ => item_key it
  end.

Definition txop_cond (o : txop) : cond :=
  match o with TUpdate _ _ c | TPut _ c | TCheck _ c => c end.

(** Whether the condition of one operation holds. *)
Definition txop_holds (w : World) (o : txop) : bool :=
  match txop_key o with Some k => holds (txop_cond o) (item_at w k) | None => false end.

Definition txop_write (t : gmap key item) (o : txop) : gmap key item :=
  match o with
  | TUpdate k xs _ => <[k := apply_actions xs (base_item k (t !! k))]> t
  | TPut it _ => match item_key it with Some k => <[k := it]> t | None => t end
  | TCheck _ _ => t
  end.

(** What a query selects within its partition: sort keys in a closed range, by prefix, or above a bound. *)
Inductive sort_range : Type :=
| Between (lo hi : string)
| BeginsWith (p : string)
| Above (lo : string).

Definition in_range (r : sort_range) (sk : string) : bool :=
  match r with
  | Between lo hi => String.leb lo sk && String.leb sk hi
  | BeginsWith p => starts_with p sk
  | Above lo => String.ltb lo sk
  end.

Inductive request : Type -> Type :=
| GetItem (k : key) : request (option item)
| UpdateItem (k : key) (xs : list action) (c : cond) : request item
| PutItem (it : item) (c : cond) : request unit
| DeleteItem (k : key) (c : cond) : request unit
| TransactWrite (ops : list txop) : request unit
| Query (pk : string) (r : sort_range) (filter : cond) (start : option key) : request (list item * option key)
| ClockNow : request Z
| NextId : request string
| Random : request Q
| Sleep (milliseconds : Q) : request unit
| EnqueueRun (j : TurnRunJob) : request unit
| SendProbe (m : TurnProbeMessage) (delay : Z) : request unit
| EnqueueStart (j : ComputerStartJob) : request unit.

(** ** The contract *)

Section contract.
Context (w : World).

(** The items a query may return: those of the partition whose sort key is in the range and that pass the filter. *)
Definition selected (pk : string) (r : sort_range) (f : cond) (k : key) (it : item) : Prop :=
  tbl w !! k = Some it /\ k.1 = pk /\ in_range r k.2 = true /\ holds f it = true.

(** A page: the selected items after [start] up to [last] ([None]: up to the end), each once, in ascending order of
    their sort keys. A [last] key is that of an item of the partition after [start]. *)
Definition page_of (pk : string) (r : sort_range) (f : cond) (start last : option key) (its : list item) : Prop :=
  exists ks : list (string * item),
    its = ks.*2 /\
    Sorted (fun a b => String.ltb a b = true) ks.*1 /\
    (forall sk it, (sk, it) ∈ ks <->
       selected pk r f (pk, sk) it /\
       (match start with Some s => String.ltb s.2 sk = true | None => True end) /\
       (match last with Some s => String.leb sk s.2 = true | None => True end)) /\
    (match last with
     | Some l => l.1 = pk /\ is_Some (tbl w !! l) /\ in_range r l.2 = true /\
                 match start with Some s => String.ltb s.2 l.2 = true | None => True end
     | None => True
     end).

(** An answered request: what it returns and the state it leaves. *)
Definition answered {R : Type} (r : request R) : R -> World -> Prop :=
  match r in request R return R -> World -> Prop with
  | GetItem k => fun o w' => o = tbl w !! k /\ w' = w
  | UpdateItem k xs c => fun it w' =>
      holds c (item_at w k) = true /\
      it = apply_actions xs (base_item k (tbl w !! k)) /\
      w' = with_tbl w (<[k := it]> (tbl w))
  | PutItem it c => fun _ w' =>
      exists k, item_key it = Some k /\ holds c (item_at w k) = true /\ w' = with_tbl w (<[k := it]> (tbl w))
  | DeleteItem k c => fun _ w' => holds c (item_at w k) = true /\ w' = with_tbl w (delete k (tbl w))
  | TransactWrite ops => fun _ w' =>
      NoDup (txop_key <$> ops) /\ Forall (fun o => txop_holds w o = true) ops /\
      w' = with_tbl w (foldl txop_write (tbl w) ops)
  | Query pk r f start => fun page w' => page_of pk r f start page.2 page.1 /\ w' = w
  | ClockNow => fun _ w' => w' = w
  | NextId => fun _ w' => w' = w
  | Random => fun q w' => (0 <= q < 1)%Q /\ w' = w
  | Sleep _ => fun _ w' => w' = w
  | EnqueueRun j => fun _ w' => w' = with_run w j
  | SendProbe m delay => fun _ w' => w' = with_probe w m delay
  | EnqueueStart j => fun _ w' => w' = with_start w j
  end.

(** The reason code of an operation whose condition failed. *)
Definition CONDITION_FAILED : string := "ConditionalCheckFailed".

(** A refused request: what the exception tells about the state. *)
Definition refused {R : Type} (r : request R) (e : exn) : Prop :=
  is_service_exn e = true /\
  match r, e with
  | UpdateItem k _ c, ConditionalCheckFailedException => holds c (item_at w k) = false
  | PutItem it c, ConditionalCheckFailedException =>
      forall k, item_key it = Some k -> holds c (item_at w k) = false
  | DeleteItem k c, ConditionalCheckFailedException => holds c (item_at w k) = false
  | TransactWrite ops, TransactionCanceledException reasons =>
      forall i o, reasons !! i = Some CONDITION_FAILED -> ops !! i = Some o -> txop_holds w o = false
  | ClockNow, _ | NextId, _ | Random, _ | Sleep _, _ => False
  | _, ConditionalCheckFailedException => False
  | _, TransactionCanceledException _ => False
  | _, _ => True
  end.

End contract.

(** What a request may answer, and the state after it. *)
Definition contract {R : Type} (r : request R) (w : World) (x : exn + R) (w' : World) : Prop :=
  match x with
  | Err e => w' = w /\ refused w r e
  | Ok v => answered w r v w'
  end.

Class Service : Type := {
  respond : forall {R : Type}, request R -> World -> exn + R -> World -> Prop;
  respond_contract : forall {R : Type} (r : request R) (w : World) (x : exn + R) (w' : World),
    respond r w x w' -> contract r w x w';
}.

(** ** Programs *)

#[warnings="-register-all"]
Inductive prog (A : Type) : Type :=
| Ret (a : A)
| Throw (e : exn)
| Send {R : Type} (r : request R) (k : exn + R -> prog A).
Arguments Ret {A} a.
Arguments Throw {A} e.
Arguments Send {A R} r k.

Fixpoint bind {A B : Type} (p : prog A) (f : A -> prog B) : prog B :=
  match p with
  | Ret a => f a
  | Throw e => Throw e
  | Send r k => Send r (fun x => bind (k x) f)
  end.

(** [try { p } catch (error) { h(error) }]. *)
Fixpoint catch {A : Type} (p : prog A) (h : exn -> prog A) : prog A :=
  match p with
  | Ret a => Ret a
  | Throw e => h e
  | Send r k => Send r (fun x => catch (k x) h)
  end.

(** The outcome of a program as a value. *)
Fixpoint outcome_of {A : Type} (p : prog A) : prog (exn + A) :=
  match p with
  | Ret a => Ret (inr a)
  | Throw e => Ret (inl e)
  | Send r k => Send r (fun x => outcome_of (k x))
  end.

(** [await client.send(request)]. *)
Definition send {R : Type} (r : request R) : prog R :=
  Send r (fun x => match x with inl e => Throw e | inr v => Ret v end).

Declare Scope prog_scope.
Delimit Scope prog_scope with prog.
Notation "'let!' x := p 'in' q" := (bind p (fun x => q))
  (at level 10, x pattern, p at level 100, q at level 200) : prog_scope.
Notation "p ;;; q" := (bind p (fun _ => q)) (at level 100, q at level 200, right associativity) : prog_scope.
#[global] Open Scope prog_scope.

(** A loop over a list: [for (const a of l) ...], each round extending an accumulator. *)
Fixpoint for_each {A B : Type} (l : list A) (acc : B) (body : B -> A -> prog B) : prog B :=
  match l with
  | [] => Ret acc
  | a :: l' => let! acc' := body acc a in for_each l' acc' body
  end.

(** ** Execution under interference *)

Section exec.
Context `{Service} (interference : World -> World -> Prop).

(** Other processes act, any number of times. *)
Abbreviation others := (rtc interference).

(** [exec p w o w']: started in [w], the program ends with outcome [o] in state [w'], other processes acting before each
    of its requests and at its end. *)
Fixpoint exec {A : Type} (p : prog A) (w : World) (o : exn + A) (w' : World) : Prop :=
  match p with
  | Ret a => o = inr a /\ others w w'
  | Throw e => o = inl e /\ others w w'
  | Send r k => exists w1 x w2, others w w1 /\ respond r w1 x w2 /\ exec (k x) w2 o w'
  end.

Lemma exec_others {A : Type} (p : prog A) (w w1 : World) (o : exn + A) (w' : World) :
  others w w1 -> exec p w1 o w' -> exec p w o w'.
Proof.
  intros Hw. destruct p as [a|e|R r k]; cbn.
  - intros [-> ?]. split; [done|]. by trans w1.
  - intros [-> ?]. split; [done|]. by trans w1.
  - intros (w2 & x & w3 & ? & ? & ?). exists w2, x, w3. split; [by trans w1|done].
Qed.

Lemma exec_others_r {A : Type} (p : prog A) (w : World) (o : exn + A) (w1 w' : World) :
  exec p w o w1 -> others w1 w' -> exec p w o w'.
Proof.
  intros He Hw. revert w He. induction p as [a|e|R r k IH]; intros w; cbn.
  - intros [-> ?]. split; [done|]. by trans w1.
  - intros [-> ?]. split; [done|]. by trans w1.
  - intros (w2 & x & w3 & ? & ? & ?). exists w2, x, w3. split_and!; try done. by apply IH.
Qed.

Lemma exec_bind {A B : Type} (p : prog A) (f : A -> prog B) (w : World) (o : exn + B) (w' : World) :
  exec (bind p f) w o w' <->
  (exists a w1, exec p w (inr a) w1 /\ exec (f a) w1 o w') \/ (exists e, o = inl e /\ exec p w (inl e) w').
Proof.
  revert w. induction p as [a|e|R r k IH]; intros w; cbn.
  - split.
    + intros He. left. exists a, w. split; [split; [done|apply rtc_refl]|done].
    + intros [(a' & w1 & [[= ->] Hw] & He)|(e & -> & [[=] _])]. by eapply exec_others.
  - split.
    + intros [-> ?]. right. by exists e.
    + intros [(a' & w1 & [[=] _] & _)|(e' & -> & [[= ->] ?])]. done.
  - split.
    + intros (w1 & x & w2 & ? & ? & [(a & w3 & ? & ?)|(e & -> & ?)]%IH).
      * left. exists a, w3. split; [by exists w1, x, w2|done].
      * right. exists e. split; [done|by exists w1, x, w2].
    + intros [(a & w3 & (w1 & x & w2 & ? & ? & ?) & ?)|(e & -> & w1 & x & w2 & ? & ? & ?)];
        exists w1, x, w2; split_and!; try done; apply IH; [left|right]; eauto.
Qed.

Lemma exec_catch {A : Type} (p : prog A) (h : exn -> prog A) (w : World) (o : exn + A) (w' : World) :
  exec (catch p h) w o w' <->
  (exists a, o = inr a /\ exec p w (inr a) w') \/ (exists e w1, exec p w (inl e) w1 /\ exec (h e) w1 o w').
Proof.
  revert w. induction p as [a|e|R r k IH]; intros w; cbn.
  - split.
    + intros [-> ?]. left. by exists a.
    + intros [(a' & -> & [[= ->] ?])|(e & w1 & [[=] _] & _)]. done.
  - split.
    + intros He. right. exists e, w. split; [split; [done|apply rtc_refl]|done].
    + intros [(a & -> & [[=] _])|(e' & w1 & [[= ->] ?] & ?)]. by eapply exec_others.
  - split.
    + intros (w1 & x & w2 & ? & ? & [(a & -> & ?)|(e & w3 & ? & ?)]%IH).
      * left. exists a. split; [done|by exists w1, x, w2].
      * right. exists e, w3. split; [by exists w1, x, w2|done].
    + intros [(a & -> & w1 & x & w2 & ? & ? & ?)|(e & w3 & (w1 & x & w2 & ? & ? & ?) & ?)];
        exists w1, x, w2; split_and!; try done; apply IH; [left|right]; eauto.
Qed.

Lemma exec_outcome_of {A : Type} (p : prog A) (w : World) (o : exn + (exn + A)) (w' : World) :
  exec (outcome_of p) w o w' <-> exists x, o = inr x /\ exec p w x w'.
Proof.
  revert w. induction p as [a|e|R r k IH]; intros w; cbn.
  - split; [intros [-> ?]; by exists (inr a)|]. by intros (x & -> & [-> ?]).
  - split; [intros [-> ?]; by exists (inl e)|]. by intros (x & -> & [-> ?]).
  - split.
    + intros (w1 & x & w2 & ? & ? & (y & -> & ?)%IH). exists y. split; [done|by exists w1, x, w2].
    + intros (y & -> & w1 & x & w2 & ? & ? & ?). exists w1, x, w2. split_and!; try done. apply IH. eauto.
Qed.

Lemma exec_send {R : Type} (r : request R) (w : World) (o : exn + R) (w' : World) :
  exec (send r) w o w' <-> exists w1 w2, others w w1 /\ respond r w1 o w2 /\ others w2 w'.
Proof.
  cbn. split.
  - intros (w1 & [e|v] & w2 & ? & ? & [-> ?]); exists w1, w2; done.
  - intros (w1 & w2 & ? & ? & ?). exists w1, o, w2. split_and!; try done. by destruct o.
Qed.

(** A request that fails, or reads, is as if it had not been made. *)
Lemma exec_send_fails {R : Type} (r : request R) (w : World) (e : exn) (w' : World) :
  exec (send r) w (inl e) w' -> others w w' /\ is_service_exn e = true.
Proof.
  intros (w1 & w2 & H1 & [-> [Hx _]]%respond_contract & H2)%exec_send. split; [by trans w1|done].
Qed.

Lemma exec_get (k : key) (w : World) (o : option item) (w' : World) :
  exec (send (GetItem k)) w (inr o) w' -> exists w1, others w w1 /\ o = tbl w1 !! k /\ others w1 w'.
Proof.
  intros (w1 & w2 & H1 & [-> ->]%respond_contract & H2)%exec_send. by exists w1.
Qed.

End exec.

(** ** A deterministic service that never fails *)

(** What it hands out: the time, and numbered identifiers. *)
Record Local : Type := mkLocal { local_now : Z; local_ids : Z }.

(** Whether a query returns the item at a key. *)
Definition wanted (pk : string) (r : sort_range) (f : cond) (start : option key) (kit : key * item) : bool :=
  bool_decide (kit.1.1 = pk) && in_range r kit.1.2 && holds f kit.2 &&
  (match start with Some s => String.ltb s.2 kit.1.2 | None => true end).

(** The selected items with their sort keys, in ascending order. *)
Definition select (w : World) (pk : string) (r : sort_range) (f : cond) (start : option key) : list (string * item) :=
  merge_sort (fun a b => String.le a.1 b.1)
    ((fun kit => (kit.1.2, kit.2)) <$> filter (fun kit => wanted pk r f start kit = true) (map_to_list (tbl w))).

Definition handle {R : Type} (r : request R) (l : Local) (w : World) : (exn + R) * World * Local :=
  match r in request R return (exn + R) * World * Local with
  | GetItem k => (inr (tbl w !! k), w, l)
  | UpdateItem k xs c =>
      if holds c (item_at w k)
      then let it := apply_actions xs (base_item k (tbl w !! k)) in (inr it, with_tbl w (<[k := it]> (tbl w)), l)
      else (inl ConditionalCheckFailedException, w, l)
  | PutItem it c =>
      match item_key it with
      | Some k => if holds c (item_at w k) then (inr tt, with_tbl w (<[k := it]> (tbl w)), l)
                  else (inl ConditionalCheckFailedException, w, l)
      | None => (inl (ServiceException "ValidationException"), w, l)
      end
  | DeleteItem k c =>
      if holds c (item_at w k) then (inr tt, with_tbl w (delete k (tbl w)), l)
      else (inl ConditionalCheckFailedException, w, l)
  | TransactWrite ops =>
      if decide (NoDup (txop_key <$> ops)) then
        if forallb (txop_holds w) ops then (inr tt, with_tbl w (foldl txop_write (tbl w) ops), l)
        else (inl (TransactionCanceledException
                ((fun o => if txop_holds w o then "None" else CONDITION_FAILED) <$> ops)), w, l)
      else (inl (ServiceException "ValidationException"), w, l)
  | Query pk r f start => (inr ((select w pk r f start).*2, None), w, l)
  | ClockNow => (inr (local_now l), w, l)
  | NextId => (inr ("id-" +:+ dec (local_ids l)), w, mkLocal (local_now l) (local_ids l + 1))
  | Random => (inr 0%Q, w, l)
  | Sleep _ => (inr tt, w, l)
  | EnqueueRun j => (inr tt, with_run w j, l)
  | SendProbe m delay => (inr tt, with_probe w m delay, l)
  | EnqueueStart j => (inr tt, with_start w j, l)
  end.

(** Run a program to its end. *)
Fixpoint run {A : Type} (p : prog A) (l : Local) (w : World) : (exn + A) * World :=
  match p with
  | Ret a => (inr a, w)
  | Throw e => (inl e, w)
  | Send r k => let '(x, w', l') := handle r l w in run (k x) l' w'
  end.

Lemma string_leb_neq_ltb (a b : string) : String.le a b -> a <> b -> String.ltb a b = true.
Proof.
  unfold String.le, String.leb, String.ltb. destruct (String.compare a b) eqn:E; try done.
  by apply String.compare_eq_iff in E.
Qed.

Lemma wanted_spec w pk r f start k it :
  tbl w !! k = Some it /\ wanted pk r f start (k, it) = true <->
  selected w pk r f k it /\ match start with Some s => String.ltb s.2 k.2 = true | None => True end.
Proof.
  unfold wanted, selected. cbn [fst snd]. rewrite !andb_true_iff, bool_decide_eq_true.
  destruct start; naive_solver.
Qed.

Lemma elem_of_select w pk r f start sk it :
  (sk, it) ∈ select w pk r f start <->
  selected w pk r f (pk, sk) it /\ match start with Some s => String.ltb s.2 sk = true | None => True end.
Proof.
  unfold select. rewrite merge_sort_Permutation, list_elem_of_fmap. split.
  - intros ([[p sk'] it'] & [= -> ->] & [Hw Hin%elem_of_map_to_list]%list_elem_of_filter).
    pose proof (proj1 (wanted_spec w _ _ _ _ _ _) (conj Hin Hw)) as [Hs ?].
    assert (p = pk) as -> by apply Hs. done.
  - intros Hs. exists ((pk, sk), it). split; [done|].
    apply (wanted_spec w _ _ _ _ (pk, sk)) in Hs as [? ?].
    by rewrite list_elem_of_filter, elem_of_map_to_list.
Qed.

Lemma select_NoDup w pk r f start : NoDup (select w pk r f start).*1.
Proof.
  unfold select. rewrite merge_sort_Permutation, <- list_fmap_compose.
  apply NoDup_fmap_2_strong; [|apply NoDup_filter, NoDup_map_to_list].
  intros [[p sk] it] [[p' sk'] it'] [Hw Hin%elem_of_map_to_list]%list_elem_of_filter
    [Hw' Hin'%elem_of_map_to_list]%list_elem_of_filter Heq. cbn in Heq. subst sk'.
  assert (p = pk /\ p' = pk) as [-> ->].
  { unfold wanted in *. cbn in *. rewrite !andb_true_iff, bool_decide_eq_true in *. naive_solver. }
  naive_solver.
Qed.

Lemma select_sorted w pk r f start :
  Sorted (fun a b => String.ltb a b = true) (select w pk r f start).*1.
Proof.
  pose proof (select_NoDup w pk r f start) as Hnd. revert Hnd.
  assert (Sorted (fun a b : string * item => String.le a.1 b.1) (select w pk r f start)) as Hs.
  { apply Sorted_merge_sort. intros a b. apply String.le_total. }
  revert Hs. generalize (select w pk r f start). intros l.
  induction 1 as [|a l Hl IH Hhd]; cbn; [constructor|]. intros [Hnin Hnd]%NoDup_cons.
  constructor; [by apply IH|]. destruct Hhd as [|b l Hab]; cbn; [constructor|].
  constructor. apply string_leb_neq_ltb; [done|]. intros Heq. apply Hnin. rewrite Heq. cbn. by left.
Qed.

Lemma handle_contract {R : Type} (r : request R) (l : Local) (w : World) :
  contract r w (handle r l w).1.1 (handle r l w).1.2.
Proof.
  destruct r; cbn; try done.
  - destruct (holds c (item_at w k)) eqn:?; done.
  - destruct (item_key it) as [k|] eqn:?; [|done].
    destruct (holds c (item_at w k)) eqn:?; cbn; [by exists k|].
    split; [done|]. split; [done|]. intros k' Hk'. by assert (k' = k) as -> by congruence.
  - destruct (holds c (item_at w k)) eqn:?; done.
  - destruct (decide (NoDup (txop_key <$> ops))); [|done].
    destruct (forallb (txop_holds w) ops) eqn:E; cbn.
    + split_and!; try done. apply List.Forall_forall. by apply List.forallb_forall.
    + split; [done|]. split; [done|]. intros i o Hr Ho. rewrite list_lookup_fmap, Ho in Hr. cbn in Hr.
      by destruct (txop_holds w o).
  - split; [|done]. exists (select w pk r filter start). split_and!; try done.
    + apply select_sorted.
    + intros sk it. rewrite elem_of_select. naive_solver.
Qed.

Definition local_respond {R : Type} (r : request R) (w : World) (x : exn + R) (w' : World) : Prop :=
  exists l, (handle r l w).1 = (x, w').

Lemma local_respond_contract {R : Type} (r : request R) (w : World) (x : exn + R) (w' : World) :
  local_respond r w x w' -> contract r w x w'.
Proof. intros [l Hl]. pose proof (handle_contract r l w) as Hc. by rewrite Hl in Hc. Qed.

(** The fault-free service: whatever it hands out, it keeps the contract. *)
Definition local_service : Service :=
  {| respond := @local_respond; respond_contract := @local_respond_contract |}.

(** A run without interference is an execution. *)
Lemma run_exec {A : Type} (p : prog A) (l : Local) (w : World) (I : World -> World -> Prop) :
  exec (H:=local_service) I p w (run p l w).1 (run p l w).2.
Proof.
  revert l w. induction p as [a|e|R r k IH]; intros l w; cbn [run exec].
  - split; [done|apply rtc_refl].
  - split; [done|apply rtc_refl].
  - destruct (handle r l w) as [[x w'] l'] eqn:E. exists w, x, w'.
    split; [apply rtc_refl|]. split; [by exists l; rewrite E|apply IH].
Qed.
