(* ===== verification/Retry.v ===== *)
(** * Retrying transient failures

    src/conversation/src/store/transient-retry.ts: [retryTransient] repeats a call with jittered exponential backoff while
    it fails with a transient DynamoDB error. The milliseconds and the random factor are rationals. *)

From S2P Require Import Prelude Json Types Service.
From Stdlib Require Import QArith Lqa.
#[local] Open Scope Z_scope.

Definition TRANSIENT_RETRY_MAX_ATTEMPTS : nat := 5.
Definition TRANSIENT_RETRY_BASE_DELAY_MILLISECONDS : Q := 25 # 1.
Definition TRANSIENT_RETRY_FACTOR : Q := 2 # 1.
Definition TRANSIENT_RETRY_BUDGET_MILLISECONDS : Q := 2000 # 1.

Definition TRANSIENT_ERROR_NAMES : list string :=
  ["TransactionConflictException"; "ThrottlingException"; "ProvisionedThroughputExceededException";
   "RequestLimitExceeded"; "InternalServerError"; "ServiceUnavailable"].

Definition TRANSACTION_CONFLICT_REASON : string := "TransactionConflict".
Definition CONDITION_FAILED_REASON : string := CONDITION_FAILED.

(** Whether a repeat of the same request is expected to clear a failure. *)
Definition isTransientDynamoError (e : exn) : bool :=
  match e with
  | TransactionCanceledException reasons =>
      existsb (fun r => bool_decide (r = TRANSACTION_CONFLICT_REASON)) reasons &&
      negb (existsb (fun r => bool_decide (r = CONDITION_FAILED_REASON)) reasons)
  | ServiceException name => bool_decide (name ∈ TRANSIENT_ERROR_NAMES)
  | _ => false
  end.

Record TransientRetryOptions : Type := mkRetryOptions {
  maxAttempts : nat;
  baseDelayMilliseconds : Q;
  factor : Q;
  budgetMilliseconds : Q;
}.

Definition default_retry_options : TransientRetryOptions :=
  mkRetryOptions TRANSIENT_RETRY_MAX_ATTEMPTS TRANSIENT_RETRY_BASE_DELAY_MILLISECONDS TRANSIENT_RETRY_FACTOR
    TRANSIENT_RETRY_BUDGET_MILLISECONDS.

Section retry.
Context (options : TransientRetryOptions) {A : Type} (operation : prog A).

(** The rounds of the loop from the [attempt]-th on, with [slept] milliseconds slept. [left] counts the attempts after
    this one that [maxAttempts] allows, so the guard [attempt >= maxAttempts] ends the loop when it is 0. *)
Fixpoint retry_loop (left attempt : nat) (slept : Q) : prog A :=
  let! x := outcome_of operation in
  match x with
  | Ok a => Ret a
  | Err error =>
      if negb (isTransientDynamoError error) then Throw error
      else match left with
           | O => Throw error
           | S left' =>
               let! random := send Random in
               let delay := (random * baseDelayMilliseconds options * factor options ^ Z.of_nat (attempt - 1))%Q in
               if Qle_bool (slept + delay) (budgetMilliseconds options) then
                 send (Sleep delay) ;;;
                 retry_loop left' (S attempt) (slept + delay)%Q
               else Throw error
           end
  end.

Definition retry_with : prog A := retry_loop (maxAttempts options - 1) 1 0%Q.

End retry.

Definition retryTransient {A : Type} (operation : prog A) : prog A := retry_with default_retry_options operation.

(** ** What a retried call does *)

Section retry_exec.
Context `{Service} (I : World -> World -> Prop).
Context {A : Type} (op : prog A).

(** A failed try leaves nothing behind. *)
Definition fails_clean : Prop := forall w e w', exec I op w (inl e) w' -> rtc I w w'.

(** [n + 1] tries in a row fail, all but the last with a transient error, the last with [e]. *)
Fixpoint failing (n : nat) (w : World) (e : exn) (w' : World) : Prop :=
  match n with
  | O => exec I op w (inl e) w'
  | S n' => exists e1 w1, isTransientDynamoError e1 = true /\ exec I op w (inl e1) w1 /\ failing n' w1 e w'
  end.

Lemma exec_random (w : World) (o : exn + Q) (w' : World) :
  exec I (send Random) w o w' -> exists q, o = inr q /\ (0 <= q < 1)%Q /\ rtc I w w'.
Proof.
  intros (w1 & w2 & H1 & Hr & H2)%exec_send. apply respond_contract in Hr.
  destruct o as [e|q]; cbn in Hr; [by destruct Hr as (_ & _ & [])|].
  destruct Hr as [? ->]. exists q. split; [done|]. split; [done|]. by trans w1.
Qed.

Lemma exec_sleep (d : Q) (w : World) (o : exn + unit) (w' : World) :
  exec I (send (Sleep d)) w o w' -> o = inr tt /\ rtc I w w'.
Proof.
  intros (w1 & w2 & H1 & Hr & H2)%exec_send. apply respond_contract in Hr.
  destruct o as [e|[]]; cbn in Hr; [by destruct Hr as (_ & _ & [])|].
  subst. split; [done|]. by trans w1.
Qed.

(** One round: the try succeeds, fails for good, gives up, or is followed by a round that starts later. *)
Lemma exec_retry_round options (left attempt : nat) (slept : Q) w o w' :
  exec I (retry_loop options op left attempt slept) w o w' ->
  (exists a w1, o = inr a /\ exec I op w (inr a) w1 /\ rtc I w1 w') \/
  (exists e w1, exec I op w (inl e) w1 /\
    ((o = inl e /\ rtc I w1 w' /\ (isTransientDynamoError e = false \/ left = O \/
        exists q, (0 <= q < 1)%Q /\ Qle_bool (slept + q * baseDelayMilliseconds options
          * factor options ^ Z.of_nat (attempt - 1)) (budgetMilliseconds options) = false)) \/
     (isTransientDynamoError e = true /\ exists left' q w2, left = S left' /\ (0 <= q < 1)%Q /\ rtc I w1 w2 /\
        exec I (retry_loop options op left' (S attempt)
          (slept + q * baseDelayMilliseconds options * factor options ^ Z.of_nat (attempt - 1))%Q) w2 o w'))).
Proof.
  intros Hexec. destruct left as [|left']; cbn [retry_loop] in Hexec;
    apply exec_bind in Hexec as [([e|a] & w1 & (x & [= <-] & Hop)%exec_outcome_of & Hk)
      |(e & _ & (x & [=] & _)%exec_outcome_of)].
  all: try (destruct Hk as [-> ?]; left; by exists a, w1).
  all: right; exists e, w1; split; [done|]; destruct (isTransientDynamoError e) eqn:Htr; cbn [negb] in Hk.
  all: try (destruct Hk as [-> ?]; left; by auto).
  apply exec_bind in Hk as [(q & w2 & (q' & [= <-] & Hq & Hw2)%exec_random & Hk)
    |(e' & _ & (q' & [=] & _)%exec_random)].
  destruct (Qle_bool _ _) eqn:Hle.
  - apply exec_bind in Hk as [([] & w3 & [_ Hw3]%exec_sleep & Hk)|(e' & _ & [[=] _]%exec_sleep)].
    right. split; [done|]. exists left', q, w3. split; [done|]. split; [done|]. split; [by trans w2|done].
  - destruct Hk as [-> ?]. left. split; [done|]. split; [by trans w2|]. right. right. by exists q.
Qed.

(** The outcome of a retried call is that of one try, made after tries that left nothing behind. *)
Lemma exec_retry_loop options (left attempt : nat) (slept : Q) (w : World) (o : exn + A) (w' : World) :
  fails_clean -> exec I (retry_loop options op left attempt slept) w o w' ->
  exists w1, rtc I w w1 /\ exec I op w1 o w'.
Proof.
  intros Hclean. revert w attempt slept. induction left as [|left IH]; intros w attempt slept Hexec;
    apply exec_retry_round in Hexec as [(a & w1 & -> & Hop & Hw)|(e & w1 & Hop & [(-> & Hw & _)|
      (_ & left' & q & w2 & Hleft & _ & Hw2 & Hk)])]; simplify_eq;
    try (exists w; split; [apply rtc_refl|by eapply exec_others_r]).
  apply IH in Hk as (w3 & ? & ?). exists w3. split; [|done].
  trans w1; [by eapply Hclean|]. by trans w2.
Qed.

Lemma exec_retry (w : World) (o : exn + A) (w' : World) :
  fails_clean -> exec I (retryTransient op) w o w' -> exists w1, rtc I w w1 /\ exec I op w1 o w'.
Proof. apply exec_retry_loop. Qed.

(** The default delays never use up the sleeping budget: the waits before the tries 2 to 5 add up to less than 375 ms. *)
Lemma default_budget (attempt : nat) (slept q : Q) :
  (1 <= attempt <= 4)%nat -> (0 <= q < 1)%Q -> (slept <= 25 * (2 ^ Z.of_nat (attempt - 1) - 1))%Q ->
  (slept + q * 25 * 2 ^ Z.of_nat (attempt - 1) <= 25 * (2 ^ Z.of_nat attempt - 1))%Q /\
  (slept + q * 25 * 2 ^ Z.of_nat (attempt - 1) <= 2000)%Q.
Proof.
  intros Ha [Hq0 Hq1] Hs.
  assert (attempt = 1 \/ attempt = 2 \/ attempt = 3 \/ attempt = 4)%nat as [-> | [-> | [-> | ->]]] by lia;
    cbv [Nat.sub Z.of_nat Pos.of_succ_nat Pos.succ Qpower Qpower_positive pow_pos] in *; split; lra.
Qed.

(** The loop with [n] tries left after this one either fails for good or makes them all. *)
Lemma retry_loop_exhausts (n attempt : nat) (slept : Q) w e w' :
  (attempt + n = 5)%nat -> (1 <= attempt)%nat -> (slept <= 25 * (2 ^ Z.of_nat (attempt - 1) - 1))%Q ->
  fails_clean ->
  exec I (retry_loop default_retry_options op n attempt slept) w (inl e) w' ->
  isTransientDynamoError e = false \/ failing n w e w'.
Proof.
  revert attempt slept w. induction n as [|n IH]; intros attempt slept w Hn Ha Hs Hclean Hexec;
    apply exec_retry_round in Hexec as [(a & w1 & [=] & _)|(e1 & w1 & Hop & [([= <-] & Hw & Hwhy)|
      (Htr & left' & q & w2 & Hleft & Hq & Hw2 & Hk)])]; simplify_eq.
  - right. by eapply exec_others_r.
  - destruct Hwhy as [?|[?|(q & Hq & Hle)]]; [by left|done|].
    exfalso. destruct (default_budget attempt slept q) as [_ Hb]; [lia|done|done|].
    apply Qle_bool_iff in Hb. cbn -[Qmult Qplus Qpower Qle_bool] in Hle. unfold TRANSIENT_RETRY_BASE_DELAY_MILLISECONDS, TRANSIENT_RETRY_FACTOR, TRANSIENT_RETRY_BUDGET_MILLISECONDS in Hle. congruence.
  - destruct (default_budget attempt slept q) as [Hb _]; [lia|done|done|].
    apply IH in Hk; [|lia|lia|by replace (S attempt - 1)%nat with attempt by lia|done].
    destruct Hk as [?|Hk]; [by left|]. right. exists e1, w1. split_and!; try done.
    destruct left' as [|n]; cbn in Hk |- *.
    + by eapply exec_others.
    + destruct Hk as (e2 & w3 & ? & ? & ?). exists e2, w3. split_and!; try done. by eapply exec_others.
Qed.

End retry_exec.

(** A transient error reaches the caller of [retryTransient] only after five tries, each of them failed with a transient
    error: the sleeping budget never ends the retries early. *)
Lemma retry_makes_every_attempt `{Service} (I : World -> World -> Prop) {A : Type} (op : prog A) w e w' :
  fails_clean I op -> exec I (retryTransient op) w (inl e) w' -> isTransientDynamoError e = true ->
  failing I op 4 w e w'.
Proof.
  intros Hclean Hexec Htr. eapply retry_loop_exhausts in Hexec as [?|?]; [congruence|done|done|lia|..|done].
  vm_compute. discriminate.
Qed.

(** A single request that fails leaves nothing behind. *)
Lemma send_fails_clean `{Service} (I : World -> World -> Prop) {R : Type} (r : request R) : fails_clean I (send r).
Proof. intros w e w' Hs. by apply exec_send_fails in Hs as [? _]. Qed.

(** A retried request is one request, answered at some moment during the call. *)
Lemma exec_retry_send `{Service} (I : World -> World -> Prop) {R : Type} (r : request R) w o w' :
  exec I (retryTransient (send r)) w o w' ->
  exists w1 w2, rtc I w w1 /\ contract r w1 o w2 /\ rtc I w2 w'.
Proof.
  intros (w1 & Hw1 & (w2 & w3 & Hw2 & Hr%respond_contract & Hw3)%exec_send)%exec_retry; [|apply send_fails_clean].
  exists w2, w3. split_and!; try done. by trans w1.
Qed.
