(* ===== verification/Paging.v ===== *)
(** * Reading a query page by page

    The loop every listing of the source shares: query a partition, take the items of the page, and go on from
    [LastEvaluatedKey] until there is none. [query_pages_quiet] shows that, while nobody else writes to the partition, the
    loop returns every selected item once and in the order of the sort keys, and that as many rounds as the partition has
    items, and one more, are always enough. *)

From S2P Require Import Prelude Json Types Service.
From stdpp Require Import sorting.
From Stdlib Require Import Sorted.
#[local] Open Scope Z_scope.
#[local] Open Scope prog_scope.

(** The error of a listing that takes more pages than the bound of the model; the source has no bound. *)
Definition TOO_MANY_PAGES : exn := JsError "more pages than the bound".

Fixpoint query_pages {B : Type} (decode : item -> exn + B) (pk : string) (r : sort_range) (f : cond)
    (start : option key) (fuel : nat) : prog (list B) :=
  match fuel with
  | O => Throw TOO_MANY_PAGES
  | S fuel' =>
      let! page := send (Query pk r f start) in
      let! items := for_each page.1 [] (fun acc it =>
        match decode it with Ok b => Ret (acc ++ [b]) | Err e => Throw e end) in
      match page.2 with
      | None => Ret items
      | Some next => let! rest := query_pages decode pk r f (Some next) fuel' in Ret (items ++ rest)
      end
  end.

(** Decode a list of items in order, up to the first that fails. *)
Fixpoint decode_all {B : Type} (decode : item -> exn + B) (its : list item) : exn + list B :=
  match its with
  | [] => Ok []
  | it :: its' =>
      match decode it with
      | Err e => Err e
      | Ok b => match decode_all decode its' with Err e => Err e | Ok bs => Ok (b :: bs) end
      end
  end.

Lemma decode_all_app {B : Type} (decode : item -> exn + B) (l1 l2 : list item) :
  decode_all decode (l1 ++ l2) =
  match decode_all decode l1 with
  | Err e => Err e
  | Ok bs => match decode_all decode l2 with Err e => Err e | Ok bs' => Ok (bs ++ bs') end
  end.
Proof.
  induction l1 as [|it l1 IH]; cbn; [by destruct (decode_all decode l2)|].
  destruct (decode it); [done|]. rewrite IH. destruct (decode_all decode l1); [done|].
  by destruct (decode_all decode l2).
Qed.

(** A loop that decodes every item of a page. *)
Lemma exec_decode_page `{Service} (I : World -> World -> Prop) {B : Type} (decode : item -> exn + B)
    (its : list item) (acc : list B) w o w' :
  exec I (for_each its acc (fun acc it => match decode it with Ok b => Ret (acc ++ [b]) | Err e => Throw e end)) w o w' <->
  o = match decode_all decode its with Err e => Err e | Ok bs => Ok (acc ++ bs) end /\ rtc I w w'.
Proof.
  revert acc w. induction its as [|it its IH]; intros acc w; cbn [for_each decode_all].
  { cbn. by rewrite app_nil_r. }
  rewrite exec_bind. destruct (decode it) as [e|b].
  - split; [by intros [(a & w1 & [[=] _] & _)|(e' & -> & [[= ->] ?])]|]. intros [-> ?]. right. by exists e.
  - setoid_rewrite IH. split.
    + intros [(a & w1 & [[= ->] Hw1] & -> & Hw')|(e' & _ & [[=] _])].
      split; [|by trans w1]. destruct (decode_all decode its); [done|]. by rewrite <- app_assoc.
    + intros [-> Hw']. left. exists (acc ++ [b]), w. split; [by split|]. split; [|done].
      destruct (decode_all decode its); [done|]. by rewrite <- app_assoc.
Qed.

(** ** Selections *)

Definition sk_lt (a b : string * item) : Prop := String.ltb a.1 b.1 = true.

Lemma ltb_compare (a b : string) : String.ltb a b = true <-> String.compare a b = Lt.
Proof. unfold String.ltb. by destruct (String.compare a b). Qed.

Lemma ltb_antisym (a b : string) : String.ltb a b = true -> String.ltb b a = true -> False.
Proof. rewrite !ltb_compare, (String.compare_antisym a b). intros H1 H2. by rewrite H2 in H1. Qed.

Lemma ltb_le (a b : string) : String.ltb a b = true -> String.le a b.
Proof. unfold String.le, String.leb. rewrite ltb_compare. by intros ->. Qed.

Lemma ltb_trans (a b c : string) : String.ltb a b = true -> String.ltb b c = true -> String.ltb a c = true.
Proof.
  intros Hab Hbc. apply string_leb_neq_ltb; [by trans b; apply ltb_le|].
  intros ->. by eapply ltb_antisym.
Qed.

Lemma ltb_irrefl (a : string) : String.ltb a a = false.
Proof. destruct (String.ltb a a) eqn:E; [|done]. by destruct (ltb_antisym a a). Qed.

Lemma leb_ltb_trans (a b c : string) : String.leb a b = true -> String.ltb b c = true -> String.ltb a c = true.
Proof.
  intros Hab Hbc. destruct (decide (a = b)) as [->|Hne]; [done|].
  eapply ltb_trans; [|done]. by apply string_leb_neq_ltb; [rewrite <- Is_true_true in Hab|].
Qed.

Lemma leb_false_ltb (a b : string) : String.leb a b = false -> String.ltb b a = true.
Proof.
  unfold String.leb. rewrite ltb_compare, (String.compare_antisym b a). by destruct (String.compare a b).
Qed.

#[export] Instance sk_lt_trans : Transitive sk_lt.
Proof. intros a b c. apply ltb_trans. Qed.

Lemma sorted_by_key (ks : list (string * item)) :
  Sorted (fun a b => String.ltb a b = true) ks.*1 -> StronglySorted sk_lt ks.
Proof.
  intros Hs. apply sorting.Sorted_StronglySorted; [apply _|].
  induction ks as [|k ks IH]; [constructor|]. inversion Hs as [|? ? Hs' Hhd]; subst. constructor; [by apply IH|].
  destruct ks as [|k' ks]; constructor. by inversion Hhd.
Qed.

Lemma strictly_sorted_NoDup (ks : list (string * item)) : StronglySorted sk_lt ks -> NoDup ks.
Proof.
  induction 1 as [|k ks Hs IH Hall]; [constructor|]. constructor; [|done].
  intros Hin. rewrite List.Forall_forall in Hall. apply list_elem_of_In in Hin. apply Hall in Hin.
  unfold sk_lt in Hin. by rewrite ltb_irrefl in Hin.
Qed.

(** Strictly sorted lists with the same elements are equal. *)
Lemma strictly_sorted_unique (l1 l2 : list (string * item)) :
  StronglySorted sk_lt l1 -> StronglySorted sk_lt l2 -> (forall x, x ∈ l1 <-> x ∈ l2) -> l1 = l2.
Proof.
  intros H1 H2 Heq. apply (StronglySorted_unique_strong sk_lt); try done.
  - intros x1 x2 _ _ H12 H21. by destruct (ltb_antisym _ _ H12 H21).
  - apply NoDup_Permutation; [by apply strictly_sorted_NoDup..|done].
Qed.

Lemma select_strictly_sorted w pk r f start : StronglySorted sk_lt (select w pk r f start).
Proof. apply sorted_by_key, select_sorted. Qed.

(** A page with no more to come is the whole selection; another page is followed by the rest. *)
Lemma page_select w pk r f start last its :
  page_of w pk r f start last its ->
  (select w pk r f start).*2 = its ++ match last with None => [] | Some l => (select w pk r f (Some l)).*2 end.
Proof.
  intros (ks & -> & Hs%sorted_by_key & Hall & Hlast).
  assert (select w pk r f start = ks ++ match last with None => [] | Some l => select w pk r f (Some l) end) as ->;
    [|by rewrite fmap_app; destruct last].
  apply strictly_sorted_unique; [apply select_strictly_sorted| |].
  - destruct last as [l|]; [|by rewrite app_nil_r]. apply StronglySorted_app_2; [|done|apply select_strictly_sorted].
    intros [sk1 it1] [sk2 it2] (_ & _ & Hle)%Hall [_ Hlt]%elem_of_select. by eapply leb_ltb_trans.
  - intros [sk it]. rewrite elem_of_app, Hall, elem_of_select. destruct last as [l|].
    + rewrite elem_of_select. destruct Hlast as (_ & _ & _ & Hl). split.
      * intros [Hsel Hst]. destruct (String.leb sk l.2) eqn:E; [by left|right]. split; [done|]. by apply leb_false_ltb.
      * intros [(? & ? & _)|[? Hlt]]; [done|]. split; [done|]. destruct start; [|done]. by eapply ltb_trans.
    + rewrite elem_of_nil. naive_solver.
Qed.

(** ** A quiet partition *)

Definition quiet (I : World -> World -> Prop) (pk : string) : Prop :=
  forall w w' sk, I w w' -> tbl w' !! (pk, sk) = tbl w !! (pk, sk).

Lemma quiet_others I pk w w' sk : quiet I pk -> rtc I w w' -> tbl w' !! (pk, sk) = tbl w !! (pk, sk).
Proof. intros Hq. induction 1 as [|w w1 w2 H1 _ IH]; [done|]. by rewrite IH, (Hq _ _ _ H1). Qed.

Lemma select_quiet w w' pk r f start :
  (forall sk, tbl w' !! (pk, sk) = tbl w !! (pk, sk)) -> select w' pk r f start = select w pk r f start.
Proof.
  intros Hsame. apply strictly_sorted_unique; try apply select_strictly_sorted.
  intros [sk it]. rewrite !elem_of_select. unfold selected. by rewrite Hsame.
Qed.

(** How many items of the range come after a key: each page but the last passes at least one of them. *)
Definition remaining (w : World) (pk : string) (r : sort_range) (start : option key) : nat :=
  length (select w pk r CTrue start).

Lemma remaining_decreases w pk r f start l its :
  page_of w pk r f start (Some l) its -> (remaining w pk r (Some l) < remaining w pk r start)%nat.
Proof.
  intros (ks & _ & _ & _ & Hpk & [it Hit] & Hr & Hst). destruct l as [p sk]. cbn in *. subst p.
  assert ((sk, it) :: select w pk r CTrue (Some (pk, sk)) ⊆+ select w pk r CTrue start) as Hsub.
  { apply NoDup_submseteq.
    - constructor; [|apply strictly_sorted_NoDup, select_strictly_sorted].
      intros [_ Hlt]%elem_of_select. cbn in Hlt. by rewrite ltb_irrefl in Hlt.
    - intros [sk' it'] [[= -> ->]|[Hsel Hlt]%elem_of_select]%elem_of_cons; apply elem_of_select; [done|].
      split; [done|]. destruct start; [|done]. by eapply ltb_trans. }
  apply submseteq_length in Hsub. done.
Qed.

Lemma query_pages_quiet `{Service} (I : World -> World -> Prop) {B : Type} (decode : item -> exn + B)
    pk r f start fuel w o w' :
  quiet I pk -> (remaining w pk r start < fuel)%nat ->
  exec I (query_pages decode pk r f start fuel) w o w' ->
  (forall sk, tbl w' !! (pk, sk) = tbl w !! (pk, sk)) /\
  (o = decode_all decode (select w pk r f start).*2 \/ exists e, o = Err e /\ is_service_exn e = true).
Proof.
  intros Hq. revert start w o w'. induction fuel as [|fuel IH]; intros start w o w' Hfuel; [lia|]. cbn [query_pages].
  intros [(page & w1 & Hpage & Hrest)|(e & -> & [Hw He]%exec_send_fails)]%exec_bind;
    [|split; [intros sk; by eapply quiet_others|eauto]].
  apply exec_send in Hpage as (w2 & w3 & Hw2 & [Hpage ->]%respond_contract & Hw1).
  assert (forall sk, tbl w2 !! (pk, sk) = tbl w !! (pk, sk)) as Hs2 by (intros sk; by eapply quiet_others).
  assert (forall sk, tbl w1 !! (pk, sk) = tbl w !! (pk, sk)) as Hs1.
  { intros sk. rewrite <- Hs2. by eapply quiet_others. }
  rewrite <- (select_quiet w w2) by done. rewrite (page_select _ _ _ _ _ _ _ Hpage), decode_all_app.
  apply exec_bind in Hrest as [(items & w4 & [Heq Hw4]%exec_decode_page & Hrest)|(e & -> & [Heq Hw4]%exec_decode_page)].
  - destruct (decode_all decode page.1) as [|bs]; [done|]. injection Heq as ->. cbn [app].
    assert (forall sk, tbl w4 !! (pk, sk) = tbl w !! (pk, sk)) as Hs4.
    { intros sk. rewrite <- Hs1. by eapply quiet_others. }
    destruct page.2 as [next|] eqn:Hnext.
    + assert (remaining w4 pk r (Some next) < fuel)%nat as Hlt.
      { unfold remaining. rewrite (select_quiet w w4) by done.
        pose proof (remaining_decreases _ _ _ _ _ _ _ Hpage) as Hdec. unfold remaining in *.
        rewrite !(select_quiet w w2) in Hdec by done. lia. }
      apply exec_bind in Hrest as [(rest & w5 & Hrec & [-> Hw5])|(e & -> & Hrec)].
      * destruct (IH _ _ _ _ Hlt Hrec) as [Hs5 Ho]. split.
        { intros sk. by rewrite (quiet_others _ _ _ _ _ Hq Hw5), Hs5. }
        left. rewrite (select_quiet w4 w2) in * by (intros; congruence).
        destruct Ho as [Ho|(e & [=] & _)]. by rewrite <- Ho.
      * destruct (IH _ _ _ _ Hlt Hrec) as [Hs5 Ho]. split; [intros sk; by rewrite Hs5|].
        rewrite (select_quiet w4 w2) in * by (intros; congruence).
        destruct Ho as [Ho|?]; [left|by right]. by rewrite <- Ho.
    + destruct Hrest as [-> Hw5]. split; [intros sk; rewrite <- Hs4; by eapply quiet_others|].
      left. cbn. by rewrite app_nil_r.
  - split; [intros sk; rewrite <- Hs1; by eapply quiet_others|]. left.
    by destruct (decode_all decode page.1); simplify_eq.
Qed.

(** The number of items of the table bounds the rounds. *)
Lemma remaining_size w pk r start : (remaining w pk r start <= size (tbl w))%nat.
Proof.
  unfold remaining, select. rewrite merge_sort_Permutation.
  rewrite length_fmap, <- length_map_to_list. apply length_filter.
Qed.

(** ** Under interference *)

(** The elements of a page satisfy the selection. *)
Lemma page_selected w pk r f start last its it :
  page_of w pk r f start last its -> it ∈ its -> exists k, selected w pk r f k it.
Proof.
  intros (ks & -> & _ & Hall & _) ([sk it'] & -> & Hin)%list_elem_of_fmap. exists (pk, sk). by apply Hall in Hin as [? _].
Qed.

Lemma decode_all_elem {B : Type} (decode : item -> exn + B) (its : list item) (bs : list B) (b : B) :
  decode_all decode its = Ok bs -> b ∈ bs -> exists it, it ∈ its /\ decode it = Ok b.
Proof.
  revert bs. induction its as [|it its IH]; intros bs; cbn; [intros [= <-]; set_solver|].
  destruct (decode it) as [|b'] eqn:Hd; [done|]. destruct (decode_all decode its) as [|bs']; [done|].
  intros [= <-] [->|Hin]%elem_of_cons; [exists it; set_solver|]. destruct (IH bs') as (it' & ? & ?); set_solver.
Qed.

Lemma decode_all_complete {B : Type} (decode : item -> exn + B) (its : list item) :
  match decode_all decode its with
  | Ok bs => forall it b, it ∈ its -> decode it = Ok b -> b ∈ bs
  | Err e => exists it, it ∈ its /\ decode it = Err e
  end.
Proof.
  induction its as [|it its IH]; cbn; [set_solver|]. destruct (decode it) as [e|b] eqn:Hd; [exists it; set_solver|].
  destruct (decode_all decode its); [set_solver|]. intros it' b' [->|Hin]%elem_of_cons Hb'; [|set_solver].
  rewrite Hd in Hb'. injection Hb' as ->. by left.
Qed.

(** Whatever a listing returns was selected at some moment of the listing, and the listing changes nothing. *)
Lemma query_pages_elem `{Service} (I : World -> World -> Prop) {B : Type} (decode : item -> exn + B)
    pk r f start fuel w o w' :
  exec I (query_pages decode pk r f start fuel) w o w' ->
  rtc I w w' /\
  forall bs b, o = Ok bs -> b ∈ bs ->
    exists w1 k it, rtc I w w1 /\ rtc I w1 w' /\ selected w1 pk r f k it /\ decode it = Ok b.
Proof.
  revert start w o w'. induction fuel as [|fuel IH]; intros start w o w'; cbn [query_pages]; [by intros [-> ?]|].
  intros [(page & w1 & (w2 & w3 & Hw2 & [Hpage ->]%respond_contract & Hw1)%exec_send & Hrest)|(e & -> & [Hw _]%exec_send_fails)]%exec_bind;
    [|done].
  apply exec_bind in Hrest as [(items & w4 & [Heq Hw4]%exec_decode_page & Hrest)|(e & -> & [Heq Hw4]%exec_decode_page)];
    [|split; [trans w2; [done|]; by trans w1|done]].
  destruct (decode_all decode page.1) as [|bs] eqn:Hd; [done|]. injection Heq as ->. cbn [app] in *.
  assert (rtc I w2 w4) as Hw24 by by trans w1.
  assert (forall wz b, rtc I w4 wz -> b ∈ bs -> exists w1 k it, rtc I w w1 /\ rtc I w1 wz /\ selected w1 pk r f k it /\
    decode it = Ok b) as Hfirst.
  { intros wz b Hwz Hb. destruct (decode_all_elem _ _ _ _ Hd Hb) as (it & Hit & Hdec).
    destruct (page_selected _ _ _ _ _ _ _ _ Hpage Hit) as [k Hk]. exists w2, k, it. split_and!; try done. by trans w4. }
  destruct page.2 as [next|].
  - apply exec_bind in Hrest as [(rest & w5 & [Hw5 Hrec]%IH & [-> Hw6])|(e & -> & [Hw5 Hrec]%IH)].
    + split; [trans w2; [done|]; trans w4; [done|]; by trans w5|].
      intros bs' b [= <-] [Hb|Hb]%elem_of_app; [apply Hfirst; [by trans w5|done]|].
      destruct (Hrec rest b eq_refl Hb) as (w7 & k & it & H1 & H2 & ?). exists w7, k, it. split; [|split; [|done]].
      * trans w2; [done|]. by trans w4.
      * by trans w5.
    + split; [|done]. trans w2; [done|]. by trans w4.
  - destruct Hrest as [-> Hw5]. split; [trans w2; [done|]; by trans w4|]. intros bs' b [= <-]. by apply Hfirst.
Qed.
