(* ===== verification/TurnCodec.v ===== *)
(** * The items of a turn

    The keys and codecs of src/conversation/src/store/turn-events.ts and the decoder of store/turn-store.ts: how the turn
    control record and its events are laid out in the Messaging table. A decoder answers [None] where the source would read
    a property of an attribute that is not there or has another type. *)

From S2P Require Import Prelude Json Types Service.
From stdpp Require Import sorting.
#[local] Open Scope Z_scope.

(** ** Keys *)

(** Render a string the way Python repr does for a plain string. *)
Definition pythonRepr (value : string) : string :=
  if string_has apostrophe value && negb (string_has quote_char value)
  then String quote_char (value +:+ String quote_char EmptyString)
  else String apostrophe
         (replace_char apostrophe (String backslash (String apostrophe EmptyString))
            (replace_char backslash (String backslash (String backslash EmptyString)) value)
          +:+ String apostrophe EmptyString).

Definition turnItemPartitionKey (tenantId turnId : string) : string := tenantId +:+ "#turn#" +:+ turnId.

(** [String(seq).padStart(10, "0")]. *)
Definition padded (seq : Z) : string := pad_start 10 (digit 0) (dec seq).

Definition turnEventSortKey (seq : Z) : string := "evt#" +:+ padded seq.

Definition EVENT_SORT_KEY_PREFIX : string := "evt#".

Inductive pointer_kind : Type := PointerActive | PointerLatest.

Definition pointer_text (p : pointer_kind) : string :=
  match p with PointerActive => "active" | PointerLatest => "latest" end.

Definition turnPointerKey (tenantId channelId : string) (pointer : pointer_kind) (botId : option string) : key :=
  (tenantId +:+ "#channel#" +:+ channelId,
   match botId with
   | None => pointer_text pointer +:+ "_turn_primary"
   | Some b => pointer_text pointer +:+ "_turn#" +:+ b
   end).

Definition metaKey (tenantId turnId : string) : key := (turnItemPartitionKey tenantId turnId, "meta").

(** ** Reading attributes *)

Definition epochSeconds (moment : Z) : Z := moment / 1000.

Definition required_string (it : item) (name : string) : option string :=
  match it !! name with Some (AS s) => Some s | _ => None end.

Definition required_number (it : item) (name : string) : option Z :=
  match it !! name with Some (AN n) => Some n | _ => None end.

Definition optionalString (it : item) (name : string) : option string :=
  match it !! name with
  | Some (AS s) => if decide (s = EmptyString) then None else Some s
  | _ => None
  end.

Definition optionalNumber (it : item) (name : string) : option Z := required_number it name.

Definition optionalDate (it : item) (name : string) : option Z :=
  seconds ← optionalNumber it name; Some (seconds * 1000).

Definition optionalFlag (it : item) (name : string) : option bool :=
  match it !! name with Some (ABOOL b) => Some b | _ => None end.

Definition string_set (it : item) (name : string) : gset string :=
  match it !! name with Some (ASS ss) => ss | _ => ∅ end.

(** ** Pending computer tools *)

(** The order [localeCompare] gives: it depends on the platform's collation tables. *)
Class Collation : Type := {
  locale_le : string -> string -> Prop;
  locale_dec : forall a b, Decision (locale_le a b);
}.
#[export] Existing Instance locale_dec.

(** The value of a property of a parsed object; the last of repeated keys counts. *)
Definition field (l : list (string * json)) (k : string) : option json := (list_to_map (reverse l) : gmap string json) !! k.

Definition as_text (j : json) : option string := match j with JStr s => Some s | _ => None end.
Definition as_object (j : json) : option (list (string * json)) := match j with JObj l => Some l | _ => None end.

(** An object whose values are all texts, as a map. *)
Definition text_map (l : list (string * json)) : option (gmap string string) :=
  kvs ← mapM (fun kx => v ← as_text kx.2; Some (kx.1, v)) l;
  Some (list_to_map (reverse kvs)).

Definition sorted_entries `{Collation} (m : gmap string string) : list (string * string) :=
  merge_sort (fun a b => locale_le a.1 b.1) (map_to_list m).

Definition text_object (l : list (string * string)) : json := JObj ((fun kv => (kv.1, JStr kv.2)) <$> l).

(** The stored text of a pending computer tool, keys sorted so equal tools encode equally. *)
Definition encodePendingComputerTool `{Collation} (tool : PendingComputerTool) : string :=
  stringify (JObj [
    ("action_id", JStr (PendingComputerTool.actionId tool));
    ("arguments", text_object (sorted_entries (PendingComputerTool.arguments tool)));
    ("tool_name", JStr (PendingComputerTool.toolName tool))]).

Definition decodePendingComputerTool (text : string) : option PendingComputerTool :=
  parsed ← parse_json text ≫= as_object;
  action_id ← field parsed "action_id" ≫= as_text;
  tool_name ← field parsed "tool_name" ≫= as_text;
  arguments ← (field parsed "arguments" ≫= as_object) ≫= text_map;
  Some (PendingComputerTool.mk action_id tool_name arguments).

(** ** Turns *)

(** Read a turn control record from its item. *)
Definition turnFromItem (it : item) : option Turn :=
  turnId ← required_string it "turn_id";
  tenantId ← required_string it "tenant_id";
  channelId ← required_string it "channel_id";
  botId ← required_string it "bot_id";
  status ← required_string it "status" ≫= status_of_text;
  pending ← match optionalString it "pending_computer_tool" with
            | None => Some None
            | Some text => Some <$> decodePendingComputerTool text
            end;
  Some {|
    Turn.turnId := turnId;
    Turn.tenantId := tenantId;
    Turn.channelId := channelId;
    Turn.botId := botId;
    Turn.status := status;
    Turn.promptMessageSeq := optionalNumber it "prompt_message_seq";
    Turn.promptAuthorId := optionalString it "prompt_author_id";
    Turn.attemptId := optionalString it "attempt_id";
    Turn.attempt := default 0 (optionalNumber it "attempt");
    Turn.claimedBy := optionalString it "claimed_by";
    Turn.leaseExpiresAt := optionalDate it "lease_expires_at";
    Turn.deadlineAt := optionalDate it "deadline_at";
    Turn.recoveryAttempts := default 0 (optionalNumber it "recovery_attempts");
    Turn.waitingFor := optionalString it "waiting_for";
    Turn.waitingSince := optionalDate it "waiting_since";
    Turn.logicalEnqueueIds := string_set it "logical_enqueue_ids";
    Turn.pendingComputerTool := pending;
    Turn.storageFence := optionalNumber it "storage_fence";
    Turn.nextEventSeq := default 1 (optionalNumber it "next_event_seq");
    Turn.terminalReason := optionalString it "terminal_reason";
    Turn.messageSeq := optionalNumber it "message_seq";
  |}.

(** ** Events *)

Definition argument_json (a : ToolArgument) : json :=
  match a with ArgText s => JStr s | ArgNumber n => JNum n | ArgFlag b => JBool b end.

Definition argument_of_json (j : json) : option ToolArgument :=
  match j with JStr s => Some (ArgText s) | JNum n => Some (ArgNumber n) | JBool b => Some (ArgFlag b) | _ => None end.

Definition arguments_text (l : list (string * ToolArgument)) : string :=
  stringify (JObj ((fun kv => (kv.1, argument_json kv.2)) <$> l)).

Definition arguments_of_text (s : string) : option (list (string * ToolArgument)) :=
  l ← parse_json s ≫= as_object;
  mapM (fun kx => v ← argument_of_json kx.2; Some (kx.1, v)) l.

(** [if (value !== undefined) item[name] = ...]. *)
Definition put_if {A : Type} (name : string) (f : A -> attr) (o : option A) (it : item) : item :=
  match o with Some v => <[name := f v]> it | None => it end.

(** The item of one turn event, with its time to live in [expires_at]. *)
Definition turnEventItem `{Collation} (event : TurnEvent) (expiresAt : Z) : item :=
  let d := TurnEvent.draft event in
  let base : item := list_to_map [
    ("pk", AS (turnItemPartitionKey (TurnEvent.tenantId event) (TurnEvent.turnId event)));
    ("sk", AS (turnEventSortKey (TurnEvent.seq event)));
    ("tenant_id", AS (TurnEvent.tenantId event));
    ("turn_id", AS (TurnEvent.turnId event));
    ("channel_id", AS (TurnEvent.channelId event));
    ("event_id", AS (TurnEvent.eventId event));
    ("seq", AN (TurnEvent.seq event));
    ("kind", AS (kind_text (Draft.kind d)));
    ("expires_at", AN (expiresAt / 1000))] in
  let base := put_if "token" AS (Draft.token d) base in
  let base := put_if "message_seq" AN (Draft.messageSeq d) base in
  let base := put_if "body" AS (Draft.body d) base in
  let base := put_if "attempt_id" AS (Draft.attemptId d) base in
  let base := put_if "tool" AS (Draft.tool d) base in
  let base := put_if "call_id" AS (Draft.callId d) base in
  let base := put_if "summary" AS (Draft.summary d) base in
  let base := put_if "tool_arguments" (AS ∘ arguments_text) (Draft.toolArguments d) base in
  let base := put_if "arguments_truncated" ABOOL (Draft.argumentsTruncated d) base in
  let base := put_if "ok" ABOOL (Draft.ok d) base in
  let base := put_if "output" AS (Draft.output d) base in
  let base := put_if "output_truncated" ABOOL (Draft.outputTruncated d) base in
  let base := put_if "duration_ms" AN (mjoin (Draft.durationMs d)) base in
  let base := put_if "text" AS (Draft.text d) base in
  let base := put_if "detail" AS (Draft.detail d) base in
  put_if "pending_computer_tool" (AS ∘ encodePendingComputerTool) (Draft.pendingComputerTool d) base.

(** An optional text attribute that holds an encoded value: absent, or decoded. *)
Definition decoded {A : Type} (f : string -> option A) (it : item) (name : string) : option (option A) :=
  match required_string it name with None => Some None | Some s => Some <$> f s end.

(** Read one turn event from its item. *)
Definition turnEventFromItem (it : item) : option TurnEvent :=
  eventId ← required_string it "event_id";
  tenantId ← required_string it "tenant_id";
  turnId ← required_string it "turn_id";
  channelId ← required_string it "channel_id";
  seq ← required_number it "seq";
  kind ← required_string it "kind" ≫= kind_of_text;
  toolArguments ← decoded arguments_of_text it "tool_arguments";
  pendingComputerTool ← decoded decodePendingComputerTool it "pending_computer_tool";
  Some (TurnEvent.mk eventId tenantId turnId channelId seq {|
    Draft.kind := kind;
    Draft.token := required_string it "token";
    Draft.messageSeq := required_number it "message_seq";
    Draft.body := required_string it "body";
    Draft.pendingComputerTool := pendingComputerTool;
    Draft.attemptId := required_string it "attempt_id";
    Draft.tool := required_string it "tool";
    Draft.callId := required_string it "call_id";
    Draft.summary := required_string it "summary";
    Draft.toolArguments := toolArguments;
    Draft.argumentsTruncated := optionalFlag it "arguments_truncated";
    Draft.ok := optionalFlag it "ok";
    Draft.output := required_string it "output";
    Draft.outputTruncated := optionalFlag it "output_truncated";
    Draft.durationMs := Some <$> required_number it "duration_ms";
    Draft.text := required_string it "text";
    Draft.detail := required_string it "detail";
  |}).

(** An event as it reads back: a duration that was null is absent. *)
Definition without_null_duration (e : TurnEvent) : TurnEvent :=
  let d := TurnEvent.draft e in
  TurnEvent.mk (TurnEvent.eventId e) (TurnEvent.tenantId e) (TurnEvent.turnId e) (TurnEvent.channelId e)
    (TurnEvent.seq e)
    (Draft.mk (Draft.kind d) (Draft.token d) (Draft.messageSeq d) (Draft.body d) (Draft.pendingComputerTool d)
       (Draft.attemptId d) (Draft.tool d) (Draft.callId d) (Draft.summary d) (Draft.toolArguments d)
       (Draft.argumentsTruncated d) (Draft.ok d) (Draft.output d) (Draft.outputTruncated d)
       (Some <$> mjoin (Draft.durationMs d)) (Draft.text d) (Draft.detail d)).

(** ** Round trips *)

Lemma mapM_fmap_inv {A B : Type} (f : A -> option B) (g : B -> A) (l : list B) :
  (forall b, f (g b) = Some b) -> mapM f (g <$> l) = Some l.
Proof. intros Hfg. induction l as [|b l IH]; [done|]. cbn. by rewrite Hfg, IH. Qed.

Lemma text_map_object (l : list (string * string)) :
  text_map ((fun kv => (kv.1, JStr kv.2)) <$> l) = Some (list_to_map (reverse l)).
Proof. unfold text_map. rewrite mapM_fmap_inv; [done|]. by intros []. Qed.

Lemma lookup_put_if_ne {A : Type} (n m : string) (f : A -> attr) (o : option A) (it : item) :
  n <> m -> put_if n f o it !! m = it !! m.
Proof. intros Hne. destruct o; cbn; [by rewrite lookup_insert_ne|done]. Qed.

Lemma lookup_put_if_eq {A : Type} (n : string) (f : A -> attr) (o : option A) (it : item) :
  it !! n = None -> put_if n f o it !! n = f <$> o.
Proof. intros Hn. destruct o; cbn; [by rewrite lookup_insert_eq|done]. Qed.

(** Look an attribute up in an item built with [put_if]. *)
Ltac lookup_item :=
  repeat first
    [ rewrite lookup_put_if_ne by done
    | rewrite lookup_put_if_eq by (repeat (rewrite lookup_put_if_ne by done); reflexivity) ].

Section codec_lemmas.
Context `{Collation}.

Lemma sorted_entries_map (m : gmap string string) : list_to_map (reverse (sorted_entries m)) = m.
Proof.
  assert (reverse (sorted_entries m) ≡ₚ map_to_list m) as Hperm.
  { unfold sorted_entries. by rewrite reverse_Permutation, merge_sort_Permutation. }
  rewrite <- (list_to_map_to_list m) at 2. apply list_to_map_proper; [|done].
  rewrite Hperm. apply NoDup_fst_map_to_list.
Qed.

Lemma decode_encodePendingComputerTool (tool : PendingComputerTool) :
  decodePendingComputerTool (encodePendingComputerTool tool) = Some tool.
Proof.
  unfold decodePendingComputerTool, encodePendingComputerTool. rewrite parse_stringify.
  cbn [mbind option_bind as_object].
  change (field _ "action_id") with (Some (JStr (PendingComputerTool.actionId tool))).
  change (field _ "tool_name") with (Some (JStr (PendingComputerTool.toolName tool))).
  change (field _ "arguments") with (Some (text_object (sorted_entries (PendingComputerTool.arguments tool)))).
  cbn [mbind option_bind as_object as_text text_object]. rewrite text_map_object, sorted_entries_map.
  by destruct tool.
Qed.

Lemma arguments_of_text_text (l : list (string * ToolArgument)) : arguments_of_text (arguments_text l) = Some l.
Proof.
  unfold arguments_of_text, arguments_text. rewrite parse_stringify. cbn [mbind option_bind as_object].
  rewrite mapM_fmap_inv; [done|]. by intros [? []].
Qed.

Lemma required_string_opt (it : item) (n : string) (o : option string) :
  it !! n = AS <$> o -> required_string it n = o.
Proof. unfold required_string. intros ->. by destruct o. Qed.

Lemma required_number_opt (it : item) (n : string) (o : option Z) : it !! n = AN <$> o -> required_number it n = o.
Proof. unfold required_number. intros ->. by destruct o. Qed.

Lemma optionalFlag_opt (it : item) (n : string) (o : option bool) : it !! n = ABOOL <$> o -> optionalFlag it n = o.
Proof. unfold optionalFlag. intros ->. by destruct o. Qed.

Lemma decoded_opt {A : Type} (f : string -> option A) (g : A -> string) (it : item) (n : string) (o : option A) :
  (forall a, f (g a) = Some a) -> it !! n = (AS ∘ g) <$> o -> decoded f it n = Some o.
Proof.
  intros Hfg Hn. unfold decoded, required_string. rewrite Hn. destruct o; cbn; [by rewrite Hfg|done].
Qed.

(** Reading an event back from its item gives the event; only a duration that was null is lost. *)
Lemma turnEventFromItem_item (e : TurnEvent) (expiresAt : Z) :
  turnEventFromItem (turnEventItem e expiresAt) = Some (without_null_duration e).
Proof.
  unfold turnEventFromItem. set (it := turnEventItem e expiresAt).
  rewrite (required_string_opt it "event_id" (Some (TurnEvent.eventId e))) by (unfold it, turnEventItem; by lookup_item).
  rewrite (required_string_opt it "tenant_id" (Some (TurnEvent.tenantId e))) by (unfold it, turnEventItem; by lookup_item).
  rewrite (required_string_opt it "turn_id" (Some (TurnEvent.turnId e))) by (unfold it, turnEventItem; by lookup_item).
  rewrite (required_string_opt it "channel_id" (Some (TurnEvent.channelId e))) by (unfold it, turnEventItem; by lookup_item).
  rewrite (required_number_opt it "seq" (Some (TurnEvent.seq e))) by (unfold it, turnEventItem; by lookup_item).
  rewrite (required_string_opt it "kind" (Some (kind_text (TurnEvent.kind e)))) by (unfold it, turnEventItem; by lookup_item).
  cbn [mbind option_bind]. rewrite kind_of_text_text. cbn [mbind option_bind].
  rewrite (decoded_opt arguments_of_text arguments_text it "tool_arguments" (Draft.toolArguments (TurnEvent.draft e)))
    by (apply arguments_of_text_text || (unfold it, turnEventItem; by lookup_item)).
  rewrite (decoded_opt decodePendingComputerTool encodePendingComputerTool it "pending_computer_tool"
    (Draft.pendingComputerTool (TurnEvent.draft e)))
    by (apply decode_encodePendingComputerTool || (unfold it, turnEventItem; by lookup_item)).
  cbn [mbind option_bind]. unfold without_null_duration. do 2 f_equal.
  f_equal; try (apply required_string_opt || apply required_number_opt || apply optionalFlag_opt || f_equal;
                try apply required_number_opt; unfold it, turnEventItem; by lookup_item).
Qed.

Lemma turnEventItem_key (e : TurnEvent) (expiresAt : Z) :
  item_key (turnEventItem e expiresAt) =
  Some (turnItemPartitionKey (TurnEvent.tenantId e) (TurnEvent.turnId e), turnEventSortKey (TurnEvent.seq e)).
Proof.
  unfold item_key.
  assert (forall n v, turnEventItem e expiresAt !! n = v -> turnEventItem e expiresAt !! n = v) as Hl by done.
  rewrite (Hl "pk" (Some (AS (turnItemPartitionKey (TurnEvent.tenantId e) (TurnEvent.turnId e)))))
    by (unfold turnEventItem; by lookup_item).
  by rewrite (Hl "sk" (Some (AS (turnEventSortKey (TurnEvent.seq e))))) by (unfold turnEventItem; by lookup_item).
Qed.

End codec_lemmas.

(** ** Sort keys *)

Lemma dec_go_fuel (f g : nat) (n : Z) (acc : string) :
  0 <= n -> f <> O -> g <> O -> n < 10 ^ Z.of_nat f -> n < 10 ^ Z.of_nat g -> dec_go f n acc = dec_go g n acc.
Proof.
  revert g n acc. induction f as [|f IH]; intros [|g] n acc Hn Hf Hg Hlf Hlg; try done.
  cbn [dec_go]. destruct (Z.ltb_spec n 10); [done|]. destruct (div_10_bounds n Hn) as (? & ? & ?).
  rewrite Nat2Z.inj_succ, Z.pow_succ_r in Hlf, Hlg by lia.
  apply IH; try lia.
  - intros ->. cbn in Hlf. lia.
  - intros ->. cbn in Hlg. lia.
Qed.

(** A numeral is the numeral of its tenth followed by its last digit. *)
Lemma dec_nonneg_snoc (n : Z) :
  10 <= n -> dec_nonneg n = dec_nonneg (n / 10) +:+ String (digit (n mod 10)) EmptyString.
Proof.
  intros Hn. destruct (div_10_bounds n) as (? & ? & ?); [lia|].
  unfold dec_nonneg at 1. pose proof (dec_fuel n ltac:(lia)) as Hfuel.
  cbn [dec_go]. destruct (Z.ltb_spec n 10); [lia|].
  rewrite <- (string_app_nil (String (digit (n mod 10)) EmptyString)), <- dec_go_app. f_equal.
  unfold dec_nonneg. rewrite Nat2Z.inj_succ, Z.pow_succ_r in Hfuel by lia.
  apply dec_go_fuel; try lia.
  - intros Hlog. rewrite Hlog in Hfuel. cbn in Hfuel. lia.
  - apply dec_fuel. lia.
Qed.

Lemma dec_nonneg_digit (n : Z) : 0 <= n < 10 -> dec_nonneg n = String (digit n) EmptyString.
Proof. intros Hn. unfold dec_nonneg. cbn [dec_go]. destruct (Z.ltb_spec n 10); [done|lia]. Qed.

Lemma fixed_digits_snoc (w : nat) (n : Z) :
  0 <= n -> fixed_digits (S w) n = fixed_digits w (n / 10) +:+ String (digit (n mod 10)) EmptyString.
Proof.
  intros Hn. induction w as [|w IH].
  - cbn [fixed_digits]. change (10 ^ Z.of_nat 0) with 1. by rewrite Z.div_1_r.
  - cbn [fixed_digits] in *. rewrite IH, string_app_cons. f_equal. f_equal.
    rewrite Nat2Z.inj_succ, Z.pow_succ_r, Z.div_div by lia. done.
Qed.

Lemma prepend_app (w : nat) (c : Ascii.ascii) (s t : string) :
  prepend w c (s +:+ t) = prepend w c s +:+ t.
Proof. induction w as [|w IH]; [done|]. cbn [prepend]. by rewrite IH. Qed.

Lemma fixed_digits_zero (w : nat) : fixed_digits w 0 = prepend w (digit 0) EmptyString.
Proof. induction w as [|w IH]; [done|]. cbn [fixed_digits prepend]. rewrite Z.div_0_l by lia. by rewrite IH. Qed.

(** Padding a numeral of at most [w] digits gives exactly its [w] digits. *)
Lemma pad_dec (w : nat) (n : Z) :
  0 <= n < 10 ^ Z.of_nat w -> w <> O ->
  (String.length (dec_nonneg n) <= w)%nat /\ pad_start w (digit 0) (dec_nonneg n) = fixed_digits w n.
Proof.
  revert n. induction w as [|w IH]; intros n Hn Hw; [done|].
  rewrite fixed_digits_snoc by lia. destruct (Z.lt_ge_cases n 10).
  - rewrite dec_nonneg_digit by lia. split; [cbn; lia|]. unfold pad_start. cbn [String.length].
    replace (S w - 1)%nat with w by lia. rewrite Z.div_small, Z.mod_small, fixed_digits_zero by lia.
    rewrite <- (string_app_nil (String (digit n) EmptyString)) at 1. by rewrite prepend_app.
  - destruct (div_10_bounds n) as (? & ? & ?); [lia|].
    rewrite Nat2Z.inj_succ, Z.pow_succ_r in Hn by lia.
    destruct (IH (n / 10)) as [Hlen Hpad].
    { split; [lia|]. apply Z.div_lt_upper_bound; lia. }
    { intros ->. cbn in Hn. lia. }
    rewrite dec_nonneg_snoc by lia. unfold pad_start in *. rewrite length_app_string. cbn [String.length].
    split; [lia|]. replace (S w - (_ + 1))%nat with (w - String.length (dec_nonneg (n / 10)))%nat by lia.
    by rewrite prepend_app, Hpad.
Qed.

Lemma digit_compare (a b : Z) : 0 <= a < 10 -> 0 <= b < 10 -> Ascii.compare (digit a) (digit b) = (a ?= b).
Proof.
  intros Ha Hb. unfold Ascii.compare. pose proof (digit_code a Ha) as Hca. pose proof (digit_code b Hb) as Hcb.
  unfold code in *. rewrite <- N2Z.inj_compare, Hca, Hcb. rewrite Z.add_compare_mono_l. done.
Qed.

(** Texts of the same number of digits compare as their numbers. *)
Lemma fixed_digits_compare (w : nat) (n m : Z) :
  0 <= n < 10 ^ Z.of_nat w -> 0 <= m < 10 ^ Z.of_nat w ->
  String.compare (fixed_digits w n) (fixed_digits w m) = (n ?= m).
Proof.
  revert n m. induction w as [|w IH]; intros n m Hn Hm.
  - cbn in *. symmetry. apply Z.compare_eq_iff. lia.
  - rewrite Nat2Z.inj_succ, Z.pow_succ_r in Hn, Hm by lia. set (p := 10 ^ Z.of_nat w) in *.
    assert (0 < p) by (apply Z.pow_pos_nonneg; lia).
    assert (0 <= n / p < 10 /\ 0 <= m / p < 10) as [Hdn Hdm].
    { split; (split; [apply Z.div_pos; lia|apply Z.div_lt_upper_bound; lia]). }
    pose proof (Z.mod_pos_bound n p ltac:(lia)). pose proof (Z.mod_pos_bound m p ltac:(lia)).
    pose proof (Z.div_mod n p ltac:(lia)). pose proof (Z.div_mod m p ltac:(lia)).
    cbn [fixed_digits String.compare]. fold p. rewrite !(Z.mod_small (_ / p)) by lia.
    rewrite digit_compare by lia.
    rewrite <- (fixed_digits_mod w w n), <- (fixed_digits_mod w w m) by lia. fold p. rewrite IH by lia.
    destruct (Z.compare_spec (n / p) (m / p)) as [Heq|Hlt|Hgt].
    + rewrite Heq in *. destruct (Z.compare_spec (n mod p) (m mod p)); symmetry;
        [apply Z.compare_eq_iff|apply Z.compare_lt_iff|apply Z.compare_gt_iff]; lia.
    + symmetry. apply Z.compare_lt_iff. nia.
    + symmetry. apply Z.compare_gt_iff. nia.
Qed.

Lemma padded_fixed (n : Z) : 0 <= n < 10 ^ 10 -> padded n = fixed_digits 10 n.
Proof.
  intros Hn. unfold padded, dec. destruct (Z.ltb_spec n 0); [lia|]. by apply (pad_dec 10).
Qed.

Lemma compare_app (p a b : string) : String.compare (p +:+ a) (p +:+ b) = String.compare a b.
Proof.
  induction p as [|c p IH]; [done|]. rewrite !string_app_cons. cbn [String.compare].
  unfold Ascii.compare. by rewrite N.compare_refl.
Qed.

(** The sort keys of events order as their sequences, up to ten digits. *)
Lemma turnEventSortKey_compare (n m : Z) :
  0 <= n < 10 ^ 10 -> 0 <= m < 10 ^ 10 ->
  String.compare (turnEventSortKey n) (turnEventSortKey m) = (n ?= m).
Proof.
  intros Hn Hm. unfold turnEventSortKey. rewrite compare_app, !padded_fixed by done.
  by apply (fixed_digits_compare 10).
Qed.

(** Padding does not change the number a text reads as. *)
Lemma read_digits_padded (n : Z) : 0 <= n -> read_digits (padded n) 0 = (n, EmptyString).
Proof.
  intros Hn. unfold padded, dec, pad_start. destruct (Z.ltb_spec n 0); [lia|].
  generalize (10 - String.length (dec_nonneg n))%nat. intros k. induction k as [|k IH].
  - cbn [prepend]. rewrite <- (string_app_nil_r (dec_nonneg n)). by apply read_digits_dec.
  - cbn [prepend read_digits]. by rewrite digit_value_digit by lia.
Qed.

Lemma turnEventSortKey_inj (n m : Z) : 0 <= n -> 0 <= m -> turnEventSortKey n = turnEventSortKey m -> n = m.
Proof.
  intros Hn Hm Heq%string_app_inj_l.
  pose proof (read_digits_padded n Hn). pose proof (read_digits_padded m Hm). congruence.
Qed.
