(* ===== verification/Grant.v ===== *)
(** * Capability grants

    The closed authority a task carries, [TaskCapabilityGrant] of src/conversation/src/policy/capability-policy.ts, its
    payload, and the item it is stored in (store/codecs/grant.ts). A set of texts is a [gset string]; the payload lists each
    set in ascending order. *)

From S2P Require Import Prelude Json Types Service TurnCodec.
From stdpp Require Import sorting.
#[local] Open Scope Z_scope.

Module Grant.
Record TaskCapabilityGrant : Type := mk {
  tools : gset string;
  origins : gset string;
  recipients : gset string;
  fileScopes : gset string;
  egressClasses : gset string;
  ingestClasses : gset string;
}.
End Grant.
Abbreviation TaskCapabilityGrant := Grant.TaskCapabilityGrant.

#[export] Instance TaskCapabilityGrant_eq_dec : EqDecision TaskCapabilityGrant.
Proof. solve_decision. Defined.

(** [[...set].sort()]. *)
Definition sorted_texts (s : gset string) : list string := merge_sort String.le (elements s).

(** Serialize one task grant for durable storage. *)
Definition grantToPayload (g : TaskCapabilityGrant) : list (string * list string) :=
  [("tools", sorted_texts (Grant.tools g));
   ("origins", sorted_texts (Grant.origins g));
   ("recipients", sorted_texts (Grant.recipients g));
   ("file_scopes", sorted_texts (Grant.fileScopes g));
   ("egress_classes", sorted_texts (Grant.egressClasses g));
   ("ingest_classes", sorted_texts (Grant.ingestClasses g))].

(** [String(part)] of a parsed part; a nested array or object is outside the model. *)
Definition part_text (j : json) : option string :=
  match j with
  | JStr s => Some s
  | JNum n => Some (dec n)
  | JBool true => Some "true"
  | JBool false => Some "false"
  | JNull => Some "null"
  | _ => None
  end.

(** One field of a payload: absent or null is the empty set, anything else that is not a list is an error. *)
Definition frozenset (payload : list (string * json)) (fieldName : string) : option (gset string) :=
  match field payload fieldName with
  | None | Some JNull => Some ∅
  | Some (JArr raw) => list_to_set <$> mapM part_text raw
  | Some _ => None
  end.

(** Rebuild one task grant from durable storage. *)
Definition grantFromPayload (payload : list (string * json)) : option TaskCapabilityGrant :=
  tools ← frozenset payload "tools";
  origins ← frozenset payload "origins";
  recipients ← frozenset payload "recipients";
  fileScopes ← frozenset payload "file_scopes";
  egressClasses ← frozenset payload "egress_classes";
  ingestClasses ← frozenset payload "ingest_classes";
  Some (Grant.mk tools origins recipients fileScopes egressClasses ingestClasses).

Definition payload_json (payload : list (string * list string)) : json :=
  JObj ((fun kv => (kv.1, JArr (JStr <$> kv.2))) <$> payload).

(** The grant as compact JSON text, keys sorted. *)
Definition encodeGrantText (g : TaskCapabilityGrant) : string :=
  stringify (payload_json (merge_sort (fun a b => String.le a.1 b.1) (grantToPayload g))).

Definition TURN_GRANT_SORT_KEY : string := "grant".

Definition encodeGrant (tenantId turnId : string) (g : TaskCapabilityGrant) : item :=
  list_to_map [
    ("pk", AS (turnItemPartitionKey tenantId turnId));
    ("sk", AS TURN_GRANT_SORT_KEY);
    ("tenant_id", AS tenantId);
    ("turn_id", AS turnId);
    ("grant", AS (encodeGrantText g))].

(** Decode a turn's grant from its item; [None] where the source throws. *)
Definition decodeGrant (it : item) : option TaskCapabilityGrant :=
  text ← required_string it "grant";
  payload ← parse_json text ≫= as_object;
  grantFromPayload payload.

(** ** Round trip *)

Lemma sorted_texts_set (s : gset string) : list_to_set (sorted_texts s) = s.
Proof.
  unfold sorted_texts. apply set_eq. intros x.
  rewrite elem_of_list_to_set, merge_sort_Permutation, elem_of_elements. done.
Qed.

Lemma frozenset_texts (payload : list (string * json)) (k : string) (l : list string) :
  field payload k = Some (JArr (JStr <$> l)) -> frozenset payload k = Some (list_to_set l).
Proof. unfold frozenset. intros ->. by rewrite mapM_fmap_inv. Qed.

(** A property of an object does not depend on the order of its fields. *)
Lemma field_Permutation (l l' : list (string * json)) (k : string) :
  NoDup l'.*1 -> l ≡ₚ l' -> field l k = field l' k.
Proof.
  intros Hnd Hp. unfold field. rewrite (list_to_map_proper (reverse l) (reverse l')); [done| |].
  - by rewrite reverse_Permutation, Hp.
  - by rewrite !reverse_Permutation.
Qed.

(** The fields of a payload, in any order, decode to their sets. *)
Lemma payload_decodes (a b c d e f : list string) (l : list (string * list string)) :
  l ≡ₚ [("tools", a); ("origins", b); ("recipients", c); ("file_scopes", d); ("egress_classes", e);
        ("ingest_classes", f)] ->
  grantFromPayload ((fun kv => (kv.1, JArr (JStr <$> kv.2))) <$> l) =
  Some (Grant.mk (list_to_set a) (list_to_set b) (list_to_set c) (list_to_set d) (list_to_set e) (list_to_set f)).
Proof.
  intros Hp. apply (fmap_Permutation (fun kv => (kv.1, JArr (JStr <$> kv.2)))) in Hp. unfold grantFromPayload.
  rewrite (frozenset_texts _ "tools" a), (frozenset_texts _ "origins" b), (frozenset_texts _ "recipients" c),
    (frozenset_texts _ "file_scopes" d), (frozenset_texts _ "egress_classes" e),
    (frozenset_texts _ "ingest_classes" f); [done|..].
  all: etrans; [eapply field_Permutation; [|exact Hp]|reflexivity].
  all: cbn; repeat constructor; set_solver.
Qed.

Lemma grant_text_of_item (p s t u x : string) :
  required_string (list_to_map [("pk", AS p); ("sk", AS s); ("tenant_id", AS t); ("turn_id", AS u); ("grant", AS x)])
    "grant" = Some x.
Proof. reflexivity. Qed.

Lemma decodeGrant_text (it : item) (t : string) (l : list (string * json)) :
  required_string it "grant" = Some t -> parse_json t = Some (JObj l) -> decodeGrant it = grantFromPayload l.
Proof. unfold decodeGrant. intros ->. cbn [mbind option_bind]. by intros ->. Qed.

(** Decoding the stored item of a grant gives the grant back. *)
Lemma decode_encodeGrant (tenantId turnId : string) (g : TaskCapabilityGrant) :
  decodeGrant (encodeGrant tenantId turnId g) = Some g.
Proof.
  erewrite decodeGrant_text; [|apply grant_text_of_item|apply parse_stringify].
  erewrite payload_decodes by apply merge_sort_Permutation. rewrite !sorted_texts_set. by destruct g.
Qed.
