(* ===== verification/TurnStore.v ===== *)
(** * The turn control store

    [DynamoTurnControlStore] of src/conversation/src/store/turn-store.ts: every conditional write of the turn control
    record, as programs over the Messaging table. Each definition is one method; [transition] is the loop that all methods
    appending an event share. *)

From S2P Require Import Prelude Json Types Service Retry Paging TurnCodec Grant.
#[local] Open Scope Z_scope.
#[local] Open Scope cond_scope.
#[local] Open Scope prog_scope.

Definition ACTIVE_STATUS : attr := AS "active".
Definition TRANSITION_ATTEMPTS : nat := 8.

(** The condition that a turn is active. *)
Definition status_active : cond := AttrEq "status" ACTIVE_STATUS.

(** [attempt_id = :attemptId AND #status = :active]. *)
Definition owned_by (attemptId : string) : cond := AttrEq "attempt_id" (AS attemptId) AND status_active.

(** No lease, or one that ran out by [nowSeconds]. *)
Definition lease_over (nowSeconds : Z) : cond :=
  AttrNotExists "lease_expires_at" OR AttrLe "lease_expires_at" nowSeconds.

(** The turn of an item, or the error of reading a malformed one. *)
Definition decode_turn (it : item) : prog Turn :=
  match turnFromItem it with Some t => Ret t | None => Throw (MalformedItem "turn") end.

(** [catch (error) { if (error instanceof ConditionalCheckFailedException) return null; throw error; }]. *)
Definition null_when_condition_fails {A : Type} (p : prog A) : prog (option A) :=
  catch (let! a := p in Ret (Some a))
    (fun error => match error with ConditionalCheckFailedException => Ret None | _ => Throw error end).

Module Transition.
Record Transition : Type := mk {
  tenantId : string;
  turnId : string;
  attemptId : option string;
  guard : option cond;
  holds : option (Turn -> bool);
  draft : TurnEventDraft;
  eventId : string;
  expiresAt : Z;
  set : list (string * attr);
  remove : list string;
  terminal : bool;
}.
End Transition.
Abbreviation Transition := Transition.Transition.

Section store.
Context `{Collation}.

Definition getTurn (tenantId turnId : string) : prog (option Turn) :=
  let! result := send (GetItem (metaKey tenantId turnId)) in
  match result with
  | None => Ret None
  | Some it => let! t := decode_turn it in Ret (Some t)
  end.

Definition recordLogicalEnqueueOnTurn (tenantId turnId enqueueId : string) : prog bool :=
  let key := metaKey tenantId turnId in
  let! recorded := null_when_condition_fails (retryTransient (send (UpdateItem key
    [ADD "logical_enqueue_ids" (ASS {[enqueueId]})]
    (AttrExists "pk" AND (AttrNotExists "logical_enqueue_ids" OR CNot (Contains "logical_enqueue_ids" enqueueId)))))) in
  match recorded with
  | Some _ => Ret true
  | None =>
      let! existing := send (GetItem key) in
      match existing with
      | None => Throw (TurnNotFoundError ("Turn " +:+ pythonRepr turnId +:+ " does not exist."))
      | Some _ => Ret false
      end
  end.

Definition claimTurn (tenantId turnId attemptId : string) (claimedBy : option string)
    (now leaseExpiresAt deadlineAt : Z) : prog (option Turn) :=
  null_when_condition_fails (
    let! attributes := retryTransient (send (UpdateItem (metaKey tenantId turnId)
      ([SET "attempt_id" (AS attemptId); SET "lease_expires_at" (AN (epochSeconds leaseExpiresAt));
        SET "deadline_at" (AN (epochSeconds deadlineAt))] ++
       match claimedBy with Some c => [SET "claimed_by" (AS c)] | None => [] end ++
       [ADD "attempt" (AN 1)] ++
       match claimedBy with Some _ => [] | None => [REMOVE "claimed_by"] end)
      (AttrExists "pk" AND status_active AND AttrNotExists "waiting_for" AND lease_over (epochSeconds now)))) in
    decode_turn attributes).

Definition renewTurn (tenantId turnId attemptId : string) (leaseExpiresAt deadlineAt : Z) : prog (option Turn) :=
  null_when_condition_fails (
    let! attributes := retryTransient (send (UpdateItem (metaKey tenantId turnId)
      [SET "lease_expires_at" (AN (epochSeconds leaseExpiresAt)); SET "deadline_at" (AN (epochSeconds deadlineAt))]
      (owned_by attemptId))) in
    decode_turn attributes).

(** Why a fenced write of [attemptId] was rejected. *)
Definition rejection (tenantId turnId : string) (attemptId : option string) : prog exn :=
  let! current := getTurn tenantId turnId in
  match current with
  | None => Ret (TurnNotFoundError ("Turn " +:+ pythonRepr turnId +:+ " does not exist."))
  | Some t =>
      if decide (Turn.attemptId t = attemptId)
      then Ret (TurnTerminalError ("Turn " +:+ pythonRepr turnId +:+ " is not active."))
      else Ret (StaleAttemptError ("Turn " +:+ pythonRepr turnId +:+ " rejected attempt "
                  +:+ pythonRepr (default "" attemptId) +:+ " (current "
                  +:+ pythonRepr (default "" (Turn.attemptId t)) +:+ ")."))
  end.

(** [throw await this.rejection(...)] when the condition of a fenced write failed. *)
Definition fenced {A : Type} (tenantId turnId attemptId : string) (p : prog A) : prog unit :=
  catch (p ;;; Ret tt)
    (fun error => match error with
                  | ConditionalCheckFailedException =>
                      let! e := rejection tenantId turnId (Some attemptId) in Throw e
                  | _ => Throw error
                  end).

Definition recordStorageFence (tenantId turnId attemptId : string) (storageFence : Z) : prog unit :=
  fenced tenantId turnId attemptId
    (retryTransient (send (UpdateItem (metaKey tenantId turnId) [SET "storage_fence" (AN storageFence)]
       (owned_by attemptId)))).

Definition beginClosing (tenantId turnId attemptId : string) : prog unit :=
  fenced tenantId turnId attemptId
    (retryTransient (send (UpdateItem (metaKey tenantId turnId) [SET "closing" (ABOOL true)] (owned_by attemptId)))).

(** Delete the active pointers of a turn that ended, where they still name it. *)
Definition clearActivePointers (t : Turn) : prog unit :=
  for_each [Some (Turn.botId t); None] tt (fun _ botId =>
    catch
      (retryTransient (send (DeleteItem
        (turnPointerKey (Turn.tenantId t) (Turn.channelId t) PointerActive botId)
        (AttrEq "turn_id" (AS (Turn.turnId t))))))
      (fun error => match error with ConditionalCheckFailedException => Ret tt | _ => Throw error end)).

(** The event a transition appends to the turn it read. *)
Definition transition_event (request : Transition) (current : Turn) : TurnEvent :=
  TurnEvent.mk (Transition.eventId request) (Turn.tenantId current) (Turn.turnId current) (Turn.channelId current)
    (Turn.nextEventSeq current) (Transition.draft request).

(** What must still hold of the control record: its owner, its status, its next sequence and the caller's guard. *)
Definition transition_condition (request : Transition) (current : Turn) : cond :=
  let owner := match Transition.attemptId request with
               | None => AttrNotExists "attempt_id"
               | Some a => AttrEq "attempt_id" (AS a)
               end in
  let condition := owner AND status_active AND AttrEq "next_event_seq" (AN (Turn.nextEventSeq current)) in
  match Transition.guard request with None => condition | Some g => condition AND g end.

(** The update expression of a transition. *)
Definition transition_actions (request : Transition) (current : Turn) : list action :=
  [SET "next_event_seq" (AN (Turn.nextEventSeq current + 1))] ++
  ((fun nv => SET nv.1 nv.2) <$> Transition.set request) ++ (REMOVE <$> Transition.remove request).

(** The write of a transition: the update of the control record under its conditions, and the event. *)
Definition transition_ops (request : Transition) (current : Turn) : list txop :=
  [TUpdate (metaKey (Transition.tenantId request) (Transition.turnId request))
     (transition_actions request current) (transition_condition request current);
   TPut (turnEventItem (transition_event request current) (Transition.expiresAt request)) (AttrNotExists "pk")].

Fixpoint transition_loop (request : Transition) (attempts : nat) : prog TurnEvent :=
  match attempts with
  | O => Throw (JsError ("Turn " +:+ pythonRepr (Transition.turnId request) +:+ " could not append an event after "
                  +:+ dec (Z.of_nat TRANSITION_ATTEMPTS) +:+ " attempts."))
  | S attempts' =>
      let! current := getTurn (Transition.tenantId request) (Transition.turnId request) in
      let reject := let! e := rejection (Transition.tenantId request) (Transition.turnId request)
                                (Transition.attemptId request) in Throw e in
      match current with
      | None => reject
      | Some t =>
          if bool_decide (Turn.attemptId t <> Transition.attemptId request) || bool_decide (Turn.status t <> Active)
          then reject
          else if match Transition.holds request with Some h => negb (h t) | None => false end
          then Throw (StaleAttemptError ("Turn " +:+ pythonRepr (Transition.turnId request)
                        +:+ " is no longer as the probe observed it."))
          else
            let! committed := outcome_of (retryTransient (send (TransactWrite (transition_ops request t)))) in
            match committed with
            | Err (TransactionCanceledException _) => transition_loop request attempts'
            | Err error => Throw error
            | Ok _ =>
                (if Transition.terminal request then clearActivePointers t else Ret tt) ;;;
                Ret (transition_event request t)
            end
      end
  end.

Definition transition (request : Transition) : prog TurnEvent := transition_loop request TRANSITION_ATTEMPTS.

Definition append_request (tenantId turnId attemptId : string) (draft : TurnEventDraft) (eventId : string)
    (expiresAt : Z) : Transition :=
  Transition.mk tenantId turnId (Some attemptId) None None draft eventId expiresAt [] [] false.

Definition appendEvent (tenantId turnId attemptId : string) (draft : TurnEventDraft) (eventId : string)
    (expiresAt : Z) : prog TurnEvent :=
  transition (append_request tenantId turnId attemptId draft eventId expiresAt).

Definition completed_draft (messageSeq : Z) (body : string) : TurnEventDraft :=
  Draft.mk TurnCompleted None (Some messageSeq) (Some body) None None None None None None None None None None None
    None None.

(** A draft of one kind with a body. *)
Definition body_draft (kind : TurnEventKind) (body : string) : TurnEventDraft :=
  Draft.mk kind None None (Some body) None None None None None None None None None None None None None.

Definition complete_request (tenantId turnId attemptId : string) (messageSeq : Z) (body eventId : string)
    (expiresAt : Z) : Transition :=
  Transition.mk tenantId turnId (Some attemptId) None None (completed_draft messageSeq body) eventId expiresAt
    [("status", AS "completed"); ("message_seq", AN messageSeq)] ["waiting_for"; "pending_computer_tool"] true.

Definition completeTurn (tenantId turnId attemptId : string) (messageSeq : Z) (body eventId : string)
    (expiresAt : Z) : prog TurnEvent :=
  transition (complete_request tenantId turnId attemptId messageSeq body eventId expiresAt).

Definition fail_request (tenantId turnId attemptId reason eventId : string) (expiresAt : Z) : Transition :=
  Transition.mk tenantId turnId (Some attemptId) None None (body_draft TurnFailed reason) eventId expiresAt
    [("status", AS "failed"); ("terminal_reason", AS reason)] ["claimed_by"; "lease_expires_at"] true.

Definition failTurn (tenantId turnId attemptId reason eventId : string) (expiresAt : Z) : prog TurnEvent :=
  transition (fail_request tenantId turnId attemptId reason eventId expiresAt).

Definition waiting_draft (gate : string) (tool : PendingComputerTool) : TurnEventDraft :=
  Draft.mk TurnWaiting None None (Some gate) (Some tool) None None None None None None None None None None None None.

Definition park_request (tenantId turnId attemptId gate : string) (tool : PendingComputerTool) (now : Z)
    (eventId : string) (expiresAt : Z) : Transition :=
  Transition.mk tenantId turnId (Some attemptId) None None (waiting_draft gate tool) eventId expiresAt
    [("waiting_for", AS gate); ("waiting_since", AN (epochSeconds now));
     ("pending_computer_tool", AS (encodePendingComputerTool tool))]
    ["attempt_id"; "claimed_by"; "lease_expires_at"] false.

Definition parkTurn (tenantId turnId attemptId gate : string) (tool : PendingComputerTool) (now : Z)
    (eventId : string) (expiresAt : Z) : prog TurnEvent :=
  transition (park_request tenantId turnId attemptId gate tool now eventId expiresAt).

Definition resumeTurn (tenantId turnId : string) : prog (option Turn) :=
  null_when_condition_fails (
    let! attributes := retryTransient (send (UpdateItem (metaKey tenantId turnId)
      [REMOVE "waiting_for"; REMOVE "waiting_since"; REMOVE "pending_computer_tool"]
      (AttrExists "pk" AND status_active AND AttrExists "waiting_for"))) in
    decode_turn attributes).

Definition reconcile_request (tenantId turnId attemptId reason eventId : string) (expiresAt : Z) : Transition :=
  Transition.mk tenantId turnId (Some attemptId) None None (body_draft TurnReconciling reason) eventId expiresAt
    [("status", AS "reconciling"); ("terminal_reason", AS reason)] ["claimed_by"; "lease_expires_at"] false.

Definition reconcileTurn (tenantId turnId attemptId reason eventId : string) (expiresAt : Z) : prog TurnEvent :=
  transition (reconcile_request tenantId turnId attemptId reason eventId expiresAt).

(** The turn is active and not waiting, its lease is over, and it is still as the probe observed it. *)
Definition recovery_condition (observed : ProbeObservation) (nowSeconds : Z) : cond :=
  let attemptCondition := match Observation.attemptId observed with
                          | None => AttrNotExists "attempt_id"
                          | Some a => AttrEq "attempt_id" (AS a)
                          end in
  AttrExists "pk" AND status_active AND AttrNotExists "waiting_for" AND lease_over nowSeconds
  AND attemptCondition AND AttrEq "recovery_attempts" (AN (Observation.recoveryAttempts observed)).

Definition recoverExpiredTurn (tenantId turnId : string) (observed : ProbeObservation) (now deadlineAt : Z)
  : prog (option Turn) :=
  null_when_condition_fails (
    let! attributes := retryTransient (send (UpdateItem (metaKey tenantId turnId)
      [SET "recovery_attempts" (AN (Observation.recoveryAttempts observed + 1));
       SET "deadline_at" (AN (epochSeconds deadlineAt));
       REMOVE "attempt_id"; REMOVE "claimed_by"; REMOVE "lease_expires_at"]
      (recovery_condition observed (epochSeconds now)))) in
    decode_turn attributes).

(** What a probe requires of the turn it ends. *)
Inductive stale_condition : Type := LeaseExpired | StillWaiting.

(** The same condition on the record just read. *)
Definition stale_holds (observed : ProbeObservation) (condition : stale_condition) (nowSeconds : Z) (t : Turn) : bool :=
  let leaseExpired :=
    bool_decide (Turn.waitingFor t = None) &&
    match Turn.leaseExpiresAt t with None => true | Some l => l / 1000 <=? nowSeconds end in
  bool_decide (Turn.recoveryAttempts t = Observation.recoveryAttempts observed) &&
  match condition with StillWaiting => negb (bool_decide (Turn.waitingFor t = None)) | LeaseExpired => leaseExpired end.

Definition stale_guard (condition : stale_condition) (nowSeconds : Z) : cond :=
  match condition with
  | StillWaiting => AttrExists "waiting_for"
  | LeaseExpired => AttrNotExists "waiting_for" AND lease_over nowSeconds
  end.

Definition fail_stale_request (tenantId turnId : string) (observed : ProbeObservation) (condition : stale_condition)
    (now : Z) (reason eventId : string) (expiresAt : Z) : Transition :=
  let nowSeconds := now / 1000 in
  Transition.mk tenantId turnId (Observation.attemptId observed)
    (Some (stale_guard condition nowSeconds)) (Some (stale_holds observed condition nowSeconds))
    (body_draft TurnFailed reason) eventId expiresAt
    [("status", AS "failed"); ("terminal_reason", AS reason)] ["claimed_by"; "lease_expires_at"] true.

Definition failStaleTurn (tenantId turnId : string) (observed : ProbeObservation) (condition : stale_condition)
    (now : Z) (reason eventId : string) (expiresAt : Z) : prog (option TurnEvent) :=
  catch
    (let! event := transition (fail_stale_request tenantId turnId observed condition now reason eventId expiresAt) in
     Ret (Some event))
    (fun error => match error with
                  | StaleAttemptError _ | TurnTerminalError _ | TurnNotFoundError _ => Ret None
                  | _ => Throw error
                  end).

Definition relinquished_draft (attemptId : string) : TurnEventDraft :=
  Draft.mk AttemptRelinquished None None None None (Some attemptId) None None None None None None None None None None
    None.

Definition relinquish_request (tenantId turnId attemptId eventId : string) (expiresAt : Z) : Transition :=
  Transition.mk tenantId turnId (Some attemptId) None None (relinquished_draft attemptId) eventId expiresAt
    [] ["attempt_id"; "claimed_by"; "lease_expires_at"] false.

Definition relinquishTurn (tenantId turnId attemptId eventId : string) (expiresAt : Z) : prog TurnEvent :=
  transition (relinquish_request tenantId turnId attemptId eventId expiresAt).

Definition recordLogicalEnqueue := recordLogicalEnqueueOnTurn.

Definition decode_event (it : item) : exn + TurnEvent :=
  match turnEventFromItem it with Some e => Ok e | None => Err (MalformedItem "turn event") end.

(** The events of a turn after a sequence, in sequence order; [pages] bounds the rounds. *)
Definition listEvents (pages : nat) (tenantId turnId : string) (afterSeq : Z) : prog (list TurnEvent) :=
  query_pages decode_event (turnItemPartitionKey tenantId turnId)
    (Between (turnEventSortKey (afterSeq + 1)) (EVENT_SORT_KEY_PREFIX +:+ "~")) CTrue None pages.

Definition getGrant (tenantId turnId : string) : prog (option TaskCapabilityGrant) :=
  let! result := send (GetItem (turnItemPartitionKey tenantId turnId, TURN_GRANT_SORT_KEY)) in
  match result with
  | None => Ret None
  | Some it => match decodeGrant it with Some g => Ret (Some g) | None => Throw (MalformedItem "turn grant") end
  end.

Definition grant_event (current : Turn) (body eventId : string) : TurnEvent :=
  TurnEvent.mk eventId (Turn.tenantId current) (Turn.turnId current) (Turn.channelId current)
    (Turn.nextEventSeq current) (body_draft TurnGrantReplaced body).

(** The write of a replaced grant: the next sequence of an active turn, the grant and the event. *)
Definition grant_ops (tenantId turnId : string) (grant : TaskCapabilityGrant) (body eventId : string) (expiresAt : Z)
    (current : Turn) : list txop :=
  [TUpdate (metaKey tenantId turnId) [SET "next_event_seq" (AN (Turn.nextEventSeq current + 1))]
     (status_active AND AttrEq "next_event_seq" (AN (Turn.nextEventSeq current)));
   TPut (encodeGrant tenantId turnId grant) CTrue;
   TPut (turnEventItem (grant_event current body eventId) expiresAt) (AttrNotExists "pk")].

Fixpoint replaceGrant_loop (tenantId turnId : string) (grant : TaskCapabilityGrant) (body eventId : string)
    (expiresAt : Z) (attempts : nat) : prog TurnEvent :=
  match attempts with
  | O => Throw (JsError ("Turn " +:+ pythonRepr turnId +:+ " could not replace its grant after "
                  +:+ dec (Z.of_nat TRANSITION_ATTEMPTS) +:+ " attempts."))
  | S attempts' =>
      let! current := getTurn tenantId turnId in
      match current with
      | None => Throw (TurnNotFoundError ("Turn " +:+ pythonRepr turnId +:+ " does not exist."))
      | Some t =>
          if bool_decide (Turn.status t <> Active)
          then Throw (TurnTerminalError ("Turn " +:+ pythonRepr turnId +:+ " is not active."))
          else
            let! committed := outcome_of (retryTransient (send (TransactWrite
              (grant_ops tenantId turnId grant body eventId expiresAt t)))) in
            match committed with
            | Err (TransactionCanceledException _) =>
                replaceGrant_loop tenantId turnId grant body eventId expiresAt attempts'
            | Err error => Throw error
            | Ok _ => Ret (grant_event t body eventId)
            end
      end
  end.

Definition replaceGrant (tenantId turnId : string) (grant : TaskCapabilityGrant) (body eventId : string)
    (expiresAt : Z) : prog TurnEvent :=
  replaceGrant_loop tenantId turnId grant body eventId expiresAt TRANSITION_ATTEMPTS.

(** The turn a channel pointer names. *)
Definition pointedTurn (tenantId channelId : string) (pointer : pointer_kind) (botId : option string)
  : prog (option Turn) :=
  let! pointed := send (GetItem (turnPointerKey tenantId channelId pointer botId)) in
  match (pointed ≫= fun it => required_string it "turn_id") with
  | None => Ret None
  | Some turnId => getTurn tenantId turnId
  end.

End store.
