(* ===== verification/Turns.v ===== *)
(** * The turn functions

    The functions of src/conversation/src/domain/turns.ts over the store, the clock and the identifier source: what an
    owner, a probe and the web call. Names that the store has too carry the prefix [turns_]. *)

From S2P Require Import Prelude Json Types Service Retry Paging TurnCodec Grant TurnStore.
#[local] Open Scope Z_scope.
#[local] Open Scope prog_scope.

Definition ATTEMPT_LEASE_SECONDS : Z := 60.
Definition TURN_DEADLINE_SECONDS : Z := 120.
Definition TURN_EVENT_TTL_SECONDS : Z := 86400.

Definition addSeconds (moment seconds : Z) : Z := moment + seconds * 1000.

Definition no_such_turn (turnId : string) : exn :=
  TurnNotFoundError ("Turn " +:+ pythonRepr turnId +:+ " does not exist.").

Section turns.
Context `{Collation}.

Definition turns_getTurn (tenantId turnId : string) : prog Turn :=
  let! turn := getTurn tenantId turnId in
  match turn with
  | None => Throw (no_such_turn turnId)
  | Some t => Ret t
  end.

(** The claim a turn stands for, when an attempt holds it. *)
Definition claim_of (turn : option Turn) (leaseExpiresAt deadlineAt : Z) : option TurnClaim :=
  t ← turn;
  attemptId ← Turn.attemptId t;
  Some (TurnClaim.mk t attemptId (Turn.attempt t) leaseExpiresAt deadlineAt).

Definition turns_claimTurn (tenantId turnId attemptId : string) (claimedBy : option string) : prog (option TurnClaim) :=
  turns_getTurn tenantId turnId ;;;
  let! now := send ClockNow in
  let leaseExpiresAt := addSeconds now ATTEMPT_LEASE_SECONDS in
  let deadlineAt := addSeconds now TURN_DEADLINE_SECONDS in
  let! turn := claimTurn tenantId turnId attemptId claimedBy now leaseExpiresAt deadlineAt in
  Ret (claim_of turn leaseExpiresAt deadlineAt).

Definition turns_renewTurn (tenantId turnId attemptId : string) : prog (option TurnClaim) :=
  let! now := send ClockNow in
  let leaseExpiresAt := addSeconds now ATTEMPT_LEASE_SECONDS in
  let deadlineAt := addSeconds now TURN_DEADLINE_SECONDS in
  let! turn := renewTurn tenantId turnId attemptId leaseExpiresAt deadlineAt in
  Ret (claim_of turn leaseExpiresAt deadlineAt).

Definition turns_recordStorageFence (tenantId turnId attemptId : string) (storageFence : Z) : prog unit :=
  recordStorageFence tenantId turnId attemptId storageFence.

(** The identifier and the time to live of an event to be appended. *)
Definition with_event {A : Type} (k : string -> Z -> prog A) : prog A :=
  let! eventId := send NextId in
  let! now := send ClockNow in
  k eventId (addSeconds now TURN_EVENT_TTL_SECONDS).

Definition appendTurnEvent (tenantId turnId attemptId : string) (draft : TurnEventDraft) : prog TurnEvent :=
  with_event (appendEvent tenantId turnId attemptId draft).

Definition turns_beginClosing (tenantId turnId attemptId : string) : prog unit :=
  beginClosing tenantId turnId attemptId.

Definition turns_reconcileTurn (tenantId turnId attemptId reason : string) : prog TurnEvent :=
  with_event (reconcileTurn tenantId turnId attemptId reason).

Definition releaseForWaiting (tenantId turnId attemptId gate : string) (tool : PendingComputerTool) : prog TurnEvent :=
  let! now := send ClockNow in
  with_event (parkTurn tenantId turnId attemptId gate tool now).

Definition clearWaiting (tenantId turnId : string) : prog (option Turn) := resumeTurn tenantId turnId.

Definition observationOf (turn : Turn) : ProbeObservation :=
  Observation.mk (Turn.attemptId turn) (Turn.recoveryAttempts turn).

Definition turns_recoverExpiredTurn (observed : Turn) : prog (option Turn) :=
  let! now := send ClockNow in
  recoverExpiredTurn (Turn.tenantId observed) (Turn.turnId observed) (observationOf observed) now
    (addSeconds now TURN_DEADLINE_SECONDS).

Definition turns_failStaleTurn (observed : Turn) (condition : stale_condition) (reason : string)
  : prog (option TurnEvent) :=
  let! now := send ClockNow in
  let! eventId := send NextId in
  failStaleTurn (Turn.tenantId observed) (Turn.turnId observed) (observationOf observed) condition now reason eventId
    (addSeconds now TURN_EVENT_TTL_SECONDS).

Definition turns_relinquishTurn (tenantId turnId attemptId : string) : prog TurnEvent :=
  with_event (relinquishTurn tenantId turnId attemptId).

Definition turns_failTurn (tenantId turnId attemptId reason : string) : prog TurnEvent :=
  with_event (failTurn tenantId turnId attemptId reason).

(** [events.findLast(p)]. *)
Definition find_last {A : Type} (p : A -> bool) (l : list A) : option A := List.find p (reverse l).

Definition turns_completeTurn (pages : nat) (tenantId turnId attemptId : string) (messageSeq : Z) (body : string)
  : prog TurnEvent :=
  let! current := turns_getTurn tenantId turnId in
  if decide (Turn.status current = Completed) then
    if decide (Turn.attemptId current <> Some attemptId) then
      Throw (StaleAttemptError ("Turn " +:+ pythonRepr turnId +:+ " rejected attempt " +:+ pythonRepr attemptId
               +:+ " (current " +:+ pythonRepr (default "" (Turn.attemptId current)) +:+ ")."))
    else
      let! events := listEvents pages tenantId turnId 0 in
      match find_last (fun e => bool_decide (TurnEvent.kind e = TurnCompleted)) events with
      | None => Throw (TurnTerminalError ("Turn " +:+ pythonRepr turnId +:+ " is completed but has no completion event."))
      | Some completion => Ret completion
      end
  else with_event (completeTurn tenantId turnId attemptId messageSeq body).

Definition listTurnEvents (pages : nat) (tenantId turnId : string) (afterSeq : Z) : prog (list TurnEvent) :=
  turns_getTurn tenantId turnId ;;; listEvents pages tenantId turnId afterSeq.

Definition activeTurnForChannel (tenantId channelId : string) (botId : option string) : prog (option Turn) :=
  let! turn := pointedTurn tenantId channelId PointerActive botId in
  Ret (t ← turn; if decide (Turn.status t = Active) then Some t else None).

Definition latestTurnForChannel (tenantId channelId : string) (botId : option string) : prog (option Turn) :=
  pointedTurn tenantId channelId PointerLatest botId.

End turns.
