(* ===== verification/TurnSpec.v ===== *)
(** * The turn as an abstract machine

    What the turn control store promises (the interface [TurnControlStore] of src/conversation/src/domain/turns.ts), with
    no table and no conditions: a turn is its control record and the log of its events, and every write is one step
    ([spec_step]). The invariants are proved here by induction on steps; TurnRefine.v shows that the store implements the
    machine. A stored moment has whole seconds ([stored_moment]). *)

From S2P Require Import Prelude Json Types Service TurnCodec TurnStore.
From coqutil Require Import Datatypes.RecordSetters.
Import DoubleBraceUpdate.
#[local] Open Scope Z_scope.

Module Abstract.
Record AbstractTurn : Type := mk {
  turn : Turn;
  log : list TurnEvent;
}.
End Abstract.
Abbreviation AbstractTurn := Abstract.AbstractTurn.

(** A moment as the table keeps it: rounded down to the second. *)
Definition stored_moment (moment : Z) : Z := epochSeconds moment * 1000.

(** The event at the end of a log: the turn's next sequence. *)
Definition next_event (t : Turn) (eventId : string) (d : TurnEventDraft) : TurnEvent :=
  TurnEvent.mk eventId (Turn.tenantId t) (Turn.turnId t) (Turn.channelId t) (Turn.nextEventSeq t) d.

(** Whether a turn has no lease that is live at [now]. *)
Definition unleased (now : Z) (t : Turn) : Prop :=
  match Turn.leaseExpiresAt t with None => True | Some l => l <= stored_moment now end.

(** Whether an attempt owns an active turn. *)
Definition owns (a : string) (t : Turn) : Prop := Turn.attemptId t = Some a /\ Turn.status t = Active.

(** The kinds that say how a turn ended; no other method appends them. *)
Definition ending_kind (k : TurnEventKind) : bool :=
  match k with TurnCompleted | TurnFailed | TurnReconciling => true | _ => false end.

(** Append an event to the log of a turn that is changed to [t']. *)
Definition logged (s : AbstractTurn) (t' : Turn) (eventId : string) (d : TurnEventDraft) : AbstractTurn :=
  Abstract.mk (t' {{ Turn.nextEventSeq := Turn.nextEventSeq (Abstract.turn s) + 1 }})
    (Abstract.log s ++ [next_event (Abstract.turn s) eventId d]).

(** Change the record of a turn and append nothing. *)
Definition changed (s : AbstractTurn) (t' : Turn) : AbstractTurn := Abstract.mk t' (Abstract.log s).

(** Drop the attempt, its claim and its lease. *)
Definition disowned (t : Turn) : Turn :=
  t {{ Turn.attemptId := None; Turn.claimedBy := None; Turn.leaseExpiresAt := None }}.

(** Drop the claim and the lease of a turn that ended in [st]. *)
Definition ended (st : TurnStatus) (reason : option string) (t : Turn) : Turn :=
  t {{ Turn.status := st; Turn.terminalReason := reason; Turn.claimedBy := None; Turn.leaseExpiresAt := None }}.

(** A reason as it reads back: an empty text is no text. *)
Definition text_or_null (s : string) : option string := if decide (s = EmptyString) then None else Some s.

Inductive spec_step (s : AbstractTurn) : AbstractTurn -> Prop :=
| spec_claim a by_ now lease deadline :
    a <> EmptyString ->
    Turn.status (Abstract.turn s) = Active -> Turn.waitingFor (Abstract.turn s) = None ->
    unleased now (Abstract.turn s) ->
    spec_step s (changed s ((Abstract.turn s) {{
      Turn.attemptId := Some a;
      Turn.attempt := Turn.attempt (Abstract.turn s) + 1;
      Turn.claimedBy := by_ ≫= text_or_null;
      Turn.leaseExpiresAt := Some (stored_moment lease);
      Turn.deadlineAt := Some (stored_moment deadline) }}))
| spec_renew a lease deadline :
    owns a (Abstract.turn s) ->
    spec_step s (changed s ((Abstract.turn s) {{
      Turn.leaseExpiresAt := Some (stored_moment lease); Turn.deadlineAt := Some (stored_moment deadline) }}))
| spec_fence a fence :
    owns a (Abstract.turn s) -> spec_step s (changed s ((Abstract.turn s) {{ Turn.storageFence := Some fence }}))
| spec_closing a : owns a (Abstract.turn s) -> spec_step s s
| spec_enqueue id :
    id ∉ Turn.logicalEnqueueIds (Abstract.turn s) ->
    spec_step s (changed s ((Abstract.turn s) {{
      Turn.logicalEnqueueIds := Turn.logicalEnqueueIds (Abstract.turn s) ∪ {[id]} }}))
| spec_resume :
    Turn.status (Abstract.turn s) = Active -> Turn.waitingFor (Abstract.turn s) <> None ->
    spec_step s (changed s ((Abstract.turn s) {{
      Turn.waitingFor := None; Turn.waitingSince := None; Turn.pendingComputerTool := None }}))
| spec_recover now deadline :
    Turn.status (Abstract.turn s) = Active -> Turn.waitingFor (Abstract.turn s) = None ->
    unleased now (Abstract.turn s) ->
    spec_step s (changed s ((disowned (Abstract.turn s)) {{
      Turn.recoveryAttempts := Turn.recoveryAttempts (Abstract.turn s) + 1;
      Turn.deadlineAt := Some (stored_moment deadline) }}))
| spec_append a d id :
    owns a (Abstract.turn s) -> ending_kind (Draft.kind d) = false ->
    spec_step s (logged s (Abstract.turn s) id d)
| spec_grant body id :
    Turn.status (Abstract.turn s) = Active ->
    spec_step s (logged s (Abstract.turn s) id (body_draft TurnGrantReplaced body))
| spec_complete a seq body id :
    owns a (Abstract.turn s) ->
    spec_step s (logged s ((Abstract.turn s) {{
      Turn.status := Completed; Turn.messageSeq := Some seq; Turn.waitingFor := None;
      Turn.pendingComputerTool := None }}) id (completed_draft seq body))
| spec_fail a reason id :
    owns a (Abstract.turn s) ->
    spec_step s (logged s (ended Failed (text_or_null reason) (Abstract.turn s)) id (body_draft TurnFailed reason))
| spec_park a gate tool now id :
    gate <> EmptyString -> owns a (Abstract.turn s) ->
    spec_step s (logged s ((disowned (Abstract.turn s)) {{
      Turn.waitingFor := Some gate; Turn.waitingSince := Some (stored_moment now);
      Turn.pendingComputerTool := Some tool }}) id (waiting_draft gate tool))
| spec_reconcile a reason id :
    owns a (Abstract.turn s) ->
    spec_step s (logged s (ended Reconciling (text_or_null reason) (Abstract.turn s)) id
      (body_draft TurnReconciling reason))
| spec_relinquish a id :
    owns a (Abstract.turn s) -> spec_step s (logged s (disowned (Abstract.turn s)) id (relinquished_draft a))
| spec_fail_expired now reason id :
    Turn.status (Abstract.turn s) = Active -> Turn.waitingFor (Abstract.turn s) = None ->
    unleased now (Abstract.turn s) ->
    spec_step s (logged s (ended Failed (text_or_null reason) (Abstract.turn s)) id (body_draft TurnFailed reason))
| spec_fail_waiting reason id :
    Turn.status (Abstract.turn s) = Active -> Turn.waitingFor (Abstract.turn s) <> None ->
    spec_step s (logged s (ended Failed (text_or_null reason) (Abstract.turn s)) id (body_draft TurnFailed reason)).

(** The turn an admitted message starts. *)
Definition fresh_turn (tenantId turnId channelId botId : string) (promptSeq : Z) (author : option string) : Turn :=
  Turn.mk turnId tenantId channelId botId Active (Some promptSeq) author None 0 None None None 0 None None ∅ None None
    2 None None.

Inductive spec_initial : AbstractTurn -> Prop :=
| spec_start tenantId turnId channelId botId promptSeq author id :
    spec_initial (Abstract.mk (fresh_turn tenantId turnId channelId botId promptSeq author)
      [TurnEvent.mk id tenantId turnId channelId 1 (Draft.only TurnStarted)]).

Definition reachable (s : AbstractTurn) : Prop := exists s0, spec_initial s0 /\ rtc spec_step s0 s.

(** ** Invariants *)

(** The ending event a status calls for. *)
Definition ending_of (st : TurnStatus) : option TurnEventKind :=
  match st with
  | Active => None
  | Completed => Some TurnCompleted
  | Failed => Some TurnFailed
  | Reconciling => Some TurnReconciling
  end.

Definition ordinary (e : TurnEvent) : Prop := ending_kind (TurnEvent.kind e) = false.

(** The log ends the way the status says, and ends only once. *)
Definition log_matches (st : TurnStatus) (log : list TurnEvent) : Prop :=
  match ending_of st with
  | None => Forall ordinary log
  | Some k => exists before e, log = before ++ [e] /\ Forall ordinary before /\ TurnEvent.kind e = k
  end.

(** Events are numbered from 1 without gaps and carry the identity of their turn. *)
Definition log_numbered (t : Turn) (log : list TurnEvent) : Prop :=
  Turn.nextEventSeq t = Z.of_nat (length log) + 1 /\
  forall i e, log !! i = Some e ->
    TurnEvent.seq e = Z.of_nat i + 1 /\ TurnEvent.turnId e = Turn.turnId t /\
    TurnEvent.tenantId e = Turn.tenantId t /\ TurnEvent.channelId e = Turn.channelId t.

(** An active turn that waits has no owner, and knows what it waits for and since when; a lease belongs to an attempt. *)
Definition ownership (t : Turn) : Prop :=
  Turn.status t = Active ->
  (Turn.waitingFor t <> None ->
     Turn.attemptId t = None /\ Turn.claimedBy t = None /\ Turn.leaseExpiresAt t = None /\
     Turn.waitingSince t <> None /\ Turn.pendingComputerTool t <> None) /\
  (Turn.waitingFor t = None -> Turn.pendingComputerTool t = None) /\
  (Turn.leaseExpiresAt t <> None -> Turn.attemptId t <> None).

Record turn_inv (s : AbstractTurn) : Prop := {
  inv_numbered : log_numbered (Abstract.turn s) (Abstract.log s);
  inv_matches : log_matches (Turn.status (Abstract.turn s)) (Abstract.log s);
  inv_ownership : ownership (Abstract.turn s);
  inv_counts : 0 <= Turn.attempt (Abstract.turn s) /\ 0 <= Turn.recoveryAttempts (Abstract.turn s);
}.

(** Compute the fields of an updated record. *)
Ltac fields :=
  cbv [apply_update constant Turn.turnId Turn.tenantId Turn.channelId Turn.botId Turn.status Turn.promptMessageSeq
       Turn.promptAuthorId Turn.attemptId Turn.attempt Turn.claimedBy Turn.leaseExpiresAt Turn.deadlineAt
       Turn.recoveryAttempts Turn.waitingFor Turn.waitingSince Turn.logicalEnqueueIds Turn.pendingComputerTool
       Turn.storageFence Turn.nextEventSeq Turn.terminalReason Turn.messageSeq disowned ended changed logged
       Abstract.turn Abstract.log] in *.

Lemma numbered_snoc (t t' : Turn) (log : list TurnEvent) (id : string) (d : TurnEventDraft) :
  log_numbered t log ->
  Turn.nextEventSeq t' = Turn.nextEventSeq t + 1 -> Turn.turnId t' = Turn.turnId t ->
  Turn.tenantId t' = Turn.tenantId t -> Turn.channelId t' = Turn.channelId t ->
  log_numbered t' (log ++ [next_event t id d]).
Proof.
  intros [Hn Hall] Hnext H1 H2 H3. split; [rewrite length_app; cbn; lia|].
  intros i e [Hi|[Hi [Heq Hone]%list_lookup_singleton_Some]]%lookup_app_Some; rewrite H1, H2, H3; [by apply Hall|].
  subst e. cbn. split_and!; try done. lia.
Qed.

Lemma numbered_frame (t t' : Turn) (log : list TurnEvent) :
  log_numbered t log -> Turn.nextEventSeq t' = Turn.nextEventSeq t -> Turn.turnId t' = Turn.turnId t ->
  Turn.tenantId t' = Turn.tenantId t -> Turn.channelId t' = Turn.channelId t -> log_numbered t' log.
Proof. intros [Hn Hall] Hnext H1 H2 H3. split; [by rewrite Hnext|]. rewrite H1, H2, H3. done. Qed.

Lemma matches_active (log : list TurnEvent) : log_matches Active log <-> Forall ordinary log.
Proof. done. Qed.

Lemma matches_ended (st : TurnStatus) (k : TurnEventKind) (log : list TurnEvent) (e : TurnEvent) :
  Forall ordinary log -> ending_of st = Some k -> TurnEvent.kind e = k -> log_matches st (log ++ [e]).
Proof. intros Hlog Hst Hk. unfold log_matches. rewrite Hst. eauto. Qed.

Lemma spec_step_inv (s s' : AbstractTurn) : turn_inv s -> spec_step s s' -> turn_inv s'.
Proof.
  intros [Hnum Hmat Hown Hcnt] Hstep. destruct s as [t log].
  destruct Hstep; unfold owns in *; deex; constructor;
    try (eapply numbered_snoc; [exact Hnum|by fields..]);
    try (eapply numbered_frame; [exact Hnum|by fields..]);
    try (fields; lia); try done.
  all: try (destruct t; fields; subst; first
    [ apply Forall_app; split; [by apply matches_active|by apply Forall_singleton]
    | eapply matches_ended; [by apply matches_active|done|done]
    | by intros [=]
    | unfold ownership in *; fields; naive_solver ]).
Qed.

Lemma spec_initial_inv (s : AbstractTurn) : spec_initial s -> turn_inv s.
Proof.
  destruct 1. constructor.
  - split; [done|]. intros [|i] e; cbn; [by intros [= <-]|done].
  - by apply Forall_singleton.
  - by intros _.
  - done.
Qed.

Lemma steps_inv (s s' : AbstractTurn) : turn_inv s -> rtc spec_step s s' -> turn_inv s'.
Proof. intros Hinv Hsteps. induction Hsteps; eauto using spec_step_inv. Qed.

Lemma reachable_inv (s : AbstractTurn) : reachable s -> turn_inv s.
Proof. intros (s0 & H0%spec_initial_inv & Hs). by eapply steps_inv. Qed.

(** ** What never changes back *)

(** One step never shortens the log, never lowers a counter and never changes who the turn is of. *)
Definition grows (s s' : AbstractTurn) : Prop :=
  Abstract.log s `prefix_of` Abstract.log s' /\
  Turn.attempt (Abstract.turn s) <= Turn.attempt (Abstract.turn s') /\
  Turn.recoveryAttempts (Abstract.turn s) <= Turn.recoveryAttempts (Abstract.turn s') /\
  Turn.logicalEnqueueIds (Abstract.turn s) ⊆ Turn.logicalEnqueueIds (Abstract.turn s') /\
  Turn.turnId (Abstract.turn s') = Turn.turnId (Abstract.turn s) /\
  Turn.tenantId (Abstract.turn s') = Turn.tenantId (Abstract.turn s) /\
  Turn.channelId (Abstract.turn s') = Turn.channelId (Abstract.turn s) /\
  Turn.botId (Abstract.turn s') = Turn.botId (Abstract.turn s).

#[export] Instance grows_preorder : PreOrder grows.
Proof.
  split; [intros s; unfold grows; split_and!; done || lia|].
  intros s1 s2 s3 (? & ? & ? & ? & ? & ? & ? & ?) (? & ? & ? & ? & ? & ? & ? & ?).
  unfold grows. split_and!; try congruence; try lia; try set_solver. by etrans.
Qed.

Lemma spec_step_grows (s s' : AbstractTurn) : spec_step s s' -> grows s s'.
Proof.
  destruct s as [t log]. destruct 1; unfold grows; fields; split_and!; try done; try lia; try set_solver;
    by apply prefix_app_r.
Qed.

Lemma steps_grow (s s' : AbstractTurn) : rtc spec_step s s' -> grows s s'.
Proof. induction 1; [done|]. etrans; [by apply spec_step_grows|done]. Qed.

(** A turn that ended only remembers more enqueue identifiers. *)
Definition settled (s s' : AbstractTurn) : Prop :=
  Abstract.log s' = Abstract.log s /\
  exists ids, Abstract.turn s' = (Abstract.turn s) {{ Turn.logicalEnqueueIds := ids }}.

Lemma spec_step_settled (s s' : AbstractTurn) :
  Turn.status (Abstract.turn s) <> Active -> spec_step s s' -> settled s s'.
Proof.
  destruct s as [t log]. intros Hst. destruct 1; unfold owns in *; deex; try done.
  - split; [done|]. exists (Turn.logicalEnqueueIds t ∪ {[id]}). done.
Qed.

Lemma steps_settled (s s' : AbstractTurn) :
  Turn.status (Abstract.turn s) <> Active -> rtc spec_step s s' -> settled s s'.
Proof.
  intros Hst Hsteps. induction Hsteps as [s|s s1 s2 Hstep Hsteps IH].
  - split; [done|]. exists (Turn.logicalEnqueueIds (Abstract.turn s)). by destruct s as [[] ?].
  - apply spec_step_settled in Hstep as [Hlog [ids Hids]]; [|done].
    destruct IH as [Hlog' [ids' Hids']].
    { rewrite Hids. destruct s as [[] ?]. done. }
    split; [congruence|]. exists ids'. rewrite Hids', Hids. by destruct s as [[] ?].
Qed.

(** One step changes the owner only to nobody, or by a claim, which takes the next attempt number. *)
Lemma spec_step_owner (s s' : AbstractTurn) :
  spec_step s s' ->
  Turn.attemptId (Abstract.turn s') = Turn.attemptId (Abstract.turn s) \/
  Turn.attemptId (Abstract.turn s') = None \/
  Turn.attempt (Abstract.turn s) < Turn.attempt (Abstract.turn s').
Proof. destruct s as [t log]. destruct 1; fields; auto; right; right; lia. Qed.

(** While the attempt number stays, the owner can only be dropped. *)
Lemma steps_owner (s s' : AbstractTurn) :
  rtc spec_step s s' -> Turn.attempt (Abstract.turn s') = Turn.attempt (Abstract.turn s) ->
  Turn.attemptId (Abstract.turn s') = Turn.attemptId (Abstract.turn s) \/
  Turn.attemptId (Abstract.turn s') = None.
Proof.
  induction 1 as [s|s s1 s2 Hstep Hsteps IH]; intros Heq; [by left|].
  pose proof (spec_step_grows _ _ Hstep) as (_ & Hle1 & _). pose proof (steps_grow _ _ Hsteps) as (_ & Hle2 & _).
  destruct IH as [IH|IH]; [lia| |by right].
  destruct (spec_step_owner _ _ Hstep) as [?|[?|?]]; [left; congruence|right; congruence|lia].
Qed.
