(* ===== verification/TurnRefine.v ===== *)
(** * The turn control store implements the abstract turn

    Relates the items of the Messaging table to the machine of TurnSpec.v. [sys] is one atomic write to the shared table by
    any process of the program; [represents] ties the items of a turn to a state of the machine. The results:

    - every write is a step of the machine ([sys_refines]);
    - every program of the store, run against any service that keeps the contract and with any number of other processes
      writing in between, moves the table only along such writes ([store_programs_refine] and the lemmas before it);
    - so the invariants of the machine hold of the table at all times ([system_inv]). *)

From S2P Require Import Prelude Json Types Service Retry TurnCodec Grant TurnStore TurnSpec.
From coqutil Require Import Datatypes.RecordSetters.
Import DoubleBraceUpdate.
#[local] Open Scope Z_scope.
#[local] Open Scope cond_scope.

(** ** Reading an item that was written *)

Create HintDb item.

Section readers.
Context (it : item) (n m : string) (v : attr).

Lemma required_string_insert_ne : n <> m -> required_string (<[n := v]> it) m = required_string it m.
Proof. intros. unfold required_string. by rewrite lookup_insert_ne. Qed.
Lemma required_number_insert_ne : n <> m -> required_number (<[n := v]> it) m = required_number it m.
Proof. intros. unfold required_number. by rewrite lookup_insert_ne. Qed.
Lemma optionalString_insert_ne : n <> m -> optionalString (<[n := v]> it) m = optionalString it m.
Proof. intros. unfold optionalString. by rewrite lookup_insert_ne. Qed.
Lemma optionalNumber_insert_ne : n <> m -> optionalNumber (<[n := v]> it) m = optionalNumber it m.
Proof. apply required_number_insert_ne. Qed.
Lemma optionalDate_insert_ne : n <> m -> optionalDate (<[n := v]> it) m = optionalDate it m.
Proof. intros. unfold optionalDate. by rewrite optionalNumber_insert_ne. Qed.
Lemma string_set_insert_ne : n <> m -> string_set (<[n := v]> it) m = string_set it m.
Proof. intros. unfold string_set. by rewrite lookup_insert_ne. Qed.

Lemma required_string_delete_ne : n <> m -> required_string (delete n it) m = required_string it m.
Proof. intros. unfold required_string. by rewrite lookup_delete_ne. Qed.
Lemma optionalString_delete_ne : n <> m -> optionalString (delete n it) m = optionalString it m.
Proof. intros. unfold optionalString. by rewrite lookup_delete_ne. Qed.
Lemma optionalNumber_delete_ne : n <> m -> optionalNumber (delete n it) m = optionalNumber it m.
Proof. intros. unfold optionalNumber, required_number. by rewrite lookup_delete_ne. Qed.
Lemma optionalDate_delete_ne : n <> m -> optionalDate (delete n it) m = optionalDate it m.
Proof. intros. unfold optionalDate. by rewrite optionalNumber_delete_ne. Qed.
Lemma string_set_delete_ne : n <> m -> string_set (delete n it) m = string_set it m.
Proof. intros. unfold string_set. by rewrite lookup_delete_ne. Qed.

Lemma required_string_insert_eq s : required_string (<[n := AS s]> it) n = Some s.
Proof. unfold required_string. by rewrite lookup_insert_eq. Qed.
Lemma optionalString_insert_eq s : optionalString (<[n := AS s]> it) n = text_or_null s.
Proof. unfold optionalString. by rewrite lookup_insert_eq. Qed.
Lemma optionalNumber_insert_eq z : optionalNumber (<[n := AN z]> it) n = Some z.
Proof. unfold optionalNumber, required_number. by rewrite lookup_insert_eq. Qed.
Lemma optionalDate_insert_eq z : optionalDate (<[n := AN z]> it) n = Some (z * 1000).
Proof. unfold optionalDate. by rewrite optionalNumber_insert_eq. Qed.
Lemma string_set_insert_eq ss : string_set (<[n := ASS ss]> it) n = ss.
Proof. unfold string_set. by rewrite lookup_insert_eq. Qed.
Lemma optionalString_delete_eq : optionalString (delete n it) n = None.
Proof. unfold optionalString. by rewrite lookup_delete_eq. Qed.
Lemma optionalDate_delete_eq : optionalDate (delete n it) n = None.
Proof. unfold optionalDate, optionalNumber, required_number. by rewrite lookup_delete_eq. Qed.
End readers.

#[export] Hint Rewrite required_string_insert_ne required_number_insert_ne optionalString_insert_ne
  optionalNumber_insert_ne optionalDate_insert_ne string_set_insert_ne required_string_delete_ne
  optionalString_delete_ne optionalNumber_delete_ne optionalDate_delete_ne string_set_delete_ne using done : item.
#[export] Hint Rewrite required_string_insert_eq optionalString_insert_eq optionalNumber_insert_eq
  optionalDate_insert_eq string_set_insert_eq optionalString_delete_eq optionalDate_delete_eq : item.

(** ** Well-formed control records *)

(** An attribute that, where it is set, holds a text that is not empty. *)
Definition text_attr (it : item) (n : string) : Prop :=
  it !! n = None \/ exists s, it !! n = Some (AS s) /\ s <> EmptyString.

(** An attribute that, where it is set, holds a number. *)
Definition number_attr (it : item) (n : string) : Prop := it !! n = None \/ exists z, it !! n = Some (AN z).

Record item_wf (it : item) : Prop := {
  wf_pk : is_Some (it !! "pk");
  wf_attempt_id : text_attr it "attempt_id";
  wf_waiting_for : text_attr it "waiting_for";
  wf_lease : number_attr it "lease_expires_at";
  wf_attempt : exists z, it !! "attempt" = Some (AN z);
  wf_next : exists z, it !! "next_event_seq" = Some (AN z);
  wf_recovery : exists z, it !! "recovery_attempts" = Some (AN z);
  wf_enqueues : it !! "logical_enqueue_ids" = None \/ exists ss, it !! "logical_enqueue_ids" = Some (ASS ss);
}.

Lemma text_attr_null (it : item) (n : string) :
  text_attr it n -> optionalString it n = None <-> it !! n = None.
Proof.
  unfold optionalString. intros [Hn|(s & Hn & Hs)]; rewrite Hn; [done|].
  destruct (decide (s = EmptyString)); [done|]. done.
Qed.

Lemma text_attr_eq (it : item) (n a : string) :
  text_attr it n -> it !! n = Some (AS a) -> optionalString it n = Some a.
Proof.
  unfold optionalString. intros [Hn|(s & Hn & Hs)] Ha; rewrite Ha in *; [done|]. simplify_eq.
  by case_decide.
Qed.

(** ** The writes of the store *)

(** The single updates of the control record. *)
Inductive store_update : list action -> cond -> Prop :=
| up_claim a claimedBy now lease deadline :
    a <> EmptyString ->
    store_update
      ([SET "attempt_id" (AS a); SET "lease_expires_at" (AN (epochSeconds lease));
        SET "deadline_at" (AN (epochSeconds deadline))] ++
       match claimedBy with Some c => [SET "claimed_by" (AS c)] | None => [] end ++
       [ADD "attempt" (AN 1)] ++
       match claimedBy with Some _ => [] | None => [REMOVE "claimed_by"] end)
      (AttrExists "pk" AND status_active AND AttrNotExists "waiting_for" AND lease_over (epochSeconds now))
| up_renew a lease deadline :
    store_update [SET "lease_expires_at" (AN (epochSeconds lease)); SET "deadline_at" (AN (epochSeconds deadline))]
      (owned_by a)
| up_fence a fence : store_update [SET "storage_fence" (AN fence)] (owned_by a)
| up_closing a : store_update [SET "closing" (ABOOL true)] (owned_by a)
| up_enqueue id :
    store_update [ADD "logical_enqueue_ids" (ASS {[id]})]
      (AttrExists "pk" AND (AttrNotExists "logical_enqueue_ids" OR CNot (Contains "logical_enqueue_ids" id)))
| up_resume :
    store_update [REMOVE "waiting_for"; REMOVE "waiting_since"; REMOVE "pending_computer_tool"]
      (AttrExists "pk" AND status_active AND AttrExists "waiting_for")
| up_recover (attemptCondition : cond) recovery now deadline :
    store_update
      [SET "recovery_attempts" (AN (recovery + 1)); SET "deadline_at" (AN (epochSeconds deadline));
       REMOVE "attempt_id"; REMOVE "claimed_by"; REMOVE "lease_expires_at"]
      (AttrExists "pk" AND status_active AND AttrNotExists "waiting_for" AND lease_over (epochSeconds now)
       AND attemptCondition AND AttrEq "recovery_attempts" (AN recovery)).

(** Split a condition that holds into what it says. *)
Ltac split_cond H :=
  unfold owned_by, status_active, lease_over, ACTIVE_STATUS in H; cbn [holds] in H;
  rewrite ?andb_true_iff, ?orb_true_iff, ?negb_true_iff, ?bool_decide_eq_true in H; deex.

(** What the attributes of an item say of the turn it holds, one reader per field. *)
Definition pending_of (it : item) : option (option PendingComputerTool) :=
  match optionalString it "pending_computer_tool" with
  | None => Some None
  | Some text => Some <$> decodePendingComputerTool text
  end.

Record reads (it : item) (t : Turn) : Prop := {
  r_turnId : required_string it "turn_id" = Some (Turn.turnId t);
  r_tenantId : required_string it "tenant_id" = Some (Turn.tenantId t);
  r_channelId : required_string it "channel_id" = Some (Turn.channelId t);
  r_botId : required_string it "bot_id" = Some (Turn.botId t);
  r_status : required_string it "status" = Some (status_text (Turn.status t));
  r_pending : pending_of it = Some (Turn.pendingComputerTool t);
  r_promptSeq : optionalNumber it "prompt_message_seq" = Turn.promptMessageSeq t;
  r_author : optionalString it "prompt_author_id" = Turn.promptAuthorId t;
  r_attemptId : optionalString it "attempt_id" = Turn.attemptId t;
  r_attempt : default 0 (optionalNumber it "attempt") = Turn.attempt t;
  r_claimedBy : optionalString it "claimed_by" = Turn.claimedBy t;
  r_lease : optionalDate it "lease_expires_at" = Turn.leaseExpiresAt t;
  r_deadline : optionalDate it "deadline_at" = Turn.deadlineAt t;
  r_recovery : default 0 (optionalNumber it "recovery_attempts") = Turn.recoveryAttempts t;
  r_waitingFor : optionalString it "waiting_for" = Turn.waitingFor t;
  r_waitingSince : optionalDate it "waiting_since" = Turn.waitingSince t;
  r_enqueues : string_set it "logical_enqueue_ids" = Turn.logicalEnqueueIds t;
  r_fence : optionalNumber it "storage_fence" = Turn.storageFence t;
  r_next : default 1 (optionalNumber it "next_event_seq") = Turn.nextEventSeq t;
  r_reason : optionalString it "terminal_reason" = Turn.terminalReason t;
  r_messageSeq : optionalNumber it "message_seq" = Turn.messageSeq t;
}.

Lemma status_of_text_inv (s : string) (st : TurnStatus) : status_of_text s = Some st -> s = status_text st.
Proof. unfold status_of_text. repeat case_decide; by intros [= <-]. Qed.

Lemma turnFromItem_reads (it : item) (t : Turn) : turnFromItem it = Some t <-> reads it t.
Proof.
  split.
  - intros Ht. unfold turnFromItem in Ht. fold (pending_of it) in Ht.
    destruct (required_string it "turn_id") as [u|] eqn:?; [|done].
    destruct (required_string it "tenant_id") as [te|] eqn:?; [|done].
    destruct (required_string it "channel_id") as [c|] eqn:?; [|done].
    destruct (required_string it "bot_id") as [b|] eqn:?; [|done].
    destruct (required_string it "status") as [st|] eqn:?; [|done].
    cbn [mbind option_bind] in Ht. destruct (status_of_text st) as [st'|] eqn:Hst; [|done].
    apply status_of_text_inv in Hst as ->. cbn [mbind option_bind] in Ht.
    destruct (pending_of it) as [p|] eqn:?; [|done]. injection Ht as <-. by constructor.
  - intros []. unfold turnFromItem. fold (pending_of it).
    rewrite r_turnId0, r_tenantId0, r_channelId0, r_botId0, r_status0. cbn [mbind option_bind].
    rewrite status_of_text_text. cbn [mbind option_bind]. rewrite r_pending0. cbn [mbind option_bind].
    destruct t; cbn in *. by subst.
Qed.

Lemma reads_active (it : item) (t : Turn) :
  reads it t -> it !! "status" = Some (AS "active") <-> Turn.status t = Active.
Proof.
  intros Hr. pose proof (r_status _ _ Hr) as Hs. unfold required_string in Hs. split.
  - intros Ha. rewrite Ha in Hs. simplify_eq. by destruct (Turn.status t).
  - intros Ha. rewrite Ha in Hs. destruct (it !! "status") as [[]|]; naive_solver.
Qed.

(** A condition on the lease is the machine's. *)
Lemma lease_over_unleased (it : item) (t : Turn) (now : Z) :
  item_wf it -> reads it t -> holds (lease_over (epochSeconds now)) it = true <-> unleased now t.
Proof.
  intros Hwf Hr. unfold unleased. rewrite <- (r_lease _ _ Hr). unfold optionalDate, optionalNumber, required_number.
  cbn [lease_over holds]. destruct (wf_lease _ Hwf) as [Hn|[z Hn]]; rewrite Hn; [done|].
  rewrite orb_true_iff, bool_decide_eq_true, Z.leb_le. cbn. unfold stored_moment. split; [intros [[=]|?]; lia|intros ?; right; lia].
Qed.

(** Whether an attribute reads as before after writes elsewhere. *)
Lemma text_attr_insert_ne it n m v : n <> m -> text_attr it m -> text_attr (<[n := v]> it) m.
Proof. intros. unfold text_attr. by rewrite lookup_insert_ne. Qed.
Lemma text_attr_insert_eq it n s : s <> EmptyString -> text_attr (<[n := AS s]> it) n.
Proof. intros. right. rewrite lookup_insert_eq. eauto. Qed.
Lemma text_attr_delete_ne it n m : n <> m -> text_attr it m -> text_attr (delete n it) m.
Proof. intros. unfold text_attr. by rewrite lookup_delete_ne. Qed.
Lemma text_attr_delete_eq it n : text_attr (delete n it) n.
Proof. left. apply lookup_delete_eq. Qed.
Lemma number_attr_insert_ne it n m v : n <> m -> number_attr it m -> number_attr (<[n := v]> it) m.
Proof. intros. unfold number_attr. by rewrite lookup_insert_ne. Qed.
Lemma number_attr_insert_eq it n z : number_attr (<[n := AN z]> it) n.
Proof. right. rewrite lookup_insert_eq. eauto. Qed.
Lemma number_attr_delete_ne it n m : n <> m -> number_attr it m -> number_attr (delete n it) m.
Proof. intros. unfold number_attr. by rewrite lookup_delete_ne. Qed.
Lemma number_attr_delete_eq it n : number_attr (delete n it) n.
Proof. left. apply lookup_delete_eq. Qed.

#[export] Hint Resolve text_attr_insert_ne text_attr_insert_eq text_attr_delete_ne text_attr_delete_eq
  number_attr_insert_ne number_attr_insert_eq number_attr_delete_ne number_attr_delete_eq : item.
#[export] Hint Extern 1 (_ <> _) => done : item.

(** Close the goals about one attribute of a written item. *)
Ltac attr_goal :=
  solve
    [ eauto 10 with item
    | repeat (first [rewrite lookup_insert_ne by done | rewrite lookup_delete_ne by done | rewrite lookup_insert_eq]);
      eauto ].

Ltac wf_goal Hwf := destruct Hwf; constructor; attr_goal.

Ltac reads_goal :=
  constructor; unfold pending_of; autorewrite with item; fields; unfold pending_of in *; first [assumption | reflexivity | idtac].

Lemma text_or_null_ne (s : string) : s <> EmptyString -> text_or_null s = Some s.
Proof. intros. unfold text_or_null. by rewrite decide_False. Qed.

(** A written number reads as the number. *)
Lemma number_reads (it : item) (n : string) (z d : Z) (v : Z) :
  it !! n = Some (AN z) -> default d (optionalNumber it n) = v -> v = z.
Proof. unfold optionalNumber, required_number. by intros -> <-. Qed.

Section update.
Context (it : item) (t : Turn) (log : list TurnEvent) (Hwf : item_wf it) (Hr : reads it t).

(** The fields of the item after a write of it, one goal per field. *)
Ltac write_goal Hstep :=
  split; [wf_goal Hwf|]; eexists; split; [|exact Hstep]; destruct t, Hr; fields; cbn in *; reads_goal.

Lemma reads_waiting : it !! "waiting_for" = None <-> Turn.waitingFor t = None.
Proof using Hwf Hr. rewrite <- (r_waitingFor _ _ Hr). symmetry. apply text_attr_null, Hwf. Qed.

Lemma reads_owner (a : string) : it !! "attempt_id" = Some (AS a) -> Turn.attemptId t = Some a.
Proof using Hwf Hr. rewrite <- (r_attemptId _ _ Hr). apply text_attr_eq, Hwf. Qed.

Lemma reads_nobody : it !! "attempt_id" = None <-> Turn.attemptId t = None.
Proof using Hwf Hr. rewrite <- (r_attemptId _ _ Hr). symmetry. apply text_attr_null, Hwf. Qed.

Lemma reads_owns (a : string) : holds (owned_by a) it = true -> owns a t.
Proof using Hwf Hr.
  intros Hc. split_cond Hc. split; [by apply reads_owner|by eapply reads_active].
Qed.

Lemma claim_refines a (by_ : option string) now lease dl :
  a <> EmptyString ->
  holds (AttrExists "pk" AND status_active AND AttrNotExists "waiting_for" AND lease_over (epochSeconds now)) it = true ->
  let xs := [SET "attempt_id" (AS a); SET "lease_expires_at" (AN (epochSeconds lease));
             SET "deadline_at" (AN (epochSeconds dl))] ++
            match by_ with Some c => [SET "claimed_by" (AS c)] | None => [] end ++
            [ADD "attempt" (AN 1)] ++ match by_ with Some _ => [] | None => [REMOVE "claimed_by"] end in
  item_wf (apply_actions xs it) /\
  exists t', reads (apply_actions xs it) t' /\ spec_step (Abstract.mk t log) (Abstract.mk t' log).
Proof using Hwf Hr.
  intros Ha Hc. destruct (wf_attempt _ Hwf) as [z Hz].
  assert (holds (lease_over (epochSeconds now)) it = true) as Hl.
  { cbn [holds] in Hc. by rewrite !andb_true_iff in Hc; deex. }
  split_cond Hc. apply (lease_over_unleased it t) in Hl; [|done..].
  assert (Turn.status t = Active) as Hact by (by eapply reads_active).
  assert (Turn.waitingFor t = None) as Hwait by (by apply reads_waiting).
  pose proof (spec_claim (Abstract.mk t log) a by_ now lease dl Ha Hact Hwait Hl) as Hstep.
  pose proof (number_reads _ _ _ _ _ Hz (r_attempt _ _ Hr)) as Hat.
  unfold apply_actions. destruct by_ as [b|]; cbn [app foldl apply_action];
    rewrite !lookup_insert_ne by done; rewrite Hz; cbn [option_map]; write_goal Hstep.
  all: first [by apply text_or_null_ne | cbn; congruence].
Qed.

Lemma enqueue_refines id :
  holds (AttrExists "pk" AND (AttrNotExists "logical_enqueue_ids" OR CNot (Contains "logical_enqueue_ids" id))) it = true ->
  let xs := [ADD "logical_enqueue_ids" (ASS {[id]})] in
  item_wf (apply_actions xs it) /\
  exists t', reads (apply_actions xs it) t' /\ spec_step (Abstract.mk t log) (Abstract.mk t' log).
Proof using Hwf Hr.
  intros Hc. cbn [holds] in Hc. rewrite andb_true_iff in Hc. destruct Hc as [_ Hc].
  pose proof (r_enqueues _ _ Hr) as Hids. unfold string_set in Hids.
  assert (id ∉ Turn.logicalEnqueueIds t) as Hid.
  { rewrite <- Hids. destruct (wf_enqueues _ Hwf) as [E|[ss E]]; rewrite E in *; [set_solver|].
    by rewrite orb_false_l, negb_true_iff, bool_decide_eq_false in Hc. }
  pose proof (spec_enqueue (Abstract.mk t log) id Hid) as Hstep.
  unfold apply_actions. cbn [foldl apply_action].
  destruct (wf_enqueues _ Hwf) as [E|[ss E]]; rewrite E in *; write_goal Hstep.
  all: rewrite <- Hids; first [by rewrite (left_id_L ∅ (∪)) | done].
Qed.

Lemma recover_refines (attemptCondition : cond) recovery now dl :
  holds (AttrExists "pk" AND status_active AND AttrNotExists "waiting_for" AND lease_over (epochSeconds now)
         AND attemptCondition AND AttrEq "recovery_attempts" (AN recovery)) it = true ->
  let xs := [SET "recovery_attempts" (AN (recovery + 1)); SET "deadline_at" (AN (epochSeconds dl));
             REMOVE "attempt_id"; REMOVE "claimed_by"; REMOVE "lease_expires_at"] in
  item_wf (apply_actions xs it) /\
  exists t', reads (apply_actions xs it) t' /\ spec_step (Abstract.mk t log) (Abstract.mk t' log).
Proof using Hwf Hr.
  intros Hc. assert (holds (lease_over (epochSeconds now)) it = true) as Hl.
  { cbn [holds] in Hc. by rewrite !andb_true_iff in Hc; deex. }
  split_cond Hc. apply (lease_over_unleased it t) in Hl; [|done..].
  assert (Turn.status t = Active) as Hact by (by eapply reads_active).
  assert (Turn.waitingFor t = None) as Hwait by (by apply reads_waiting).
  pose proof (spec_recover (Abstract.mk t log) now dl Hact Hwait Hl) as Hstep.
  match goal with E : it !! "recovery_attempts" = _ |- _ => pose proof (number_reads _ _ _ _ _ E (r_recovery _ _ Hr)) as Hrec end.
  unfold apply_actions. cbn [foldl apply_action]. write_goal Hstep. cbn. congruence.
Qed.

(** What a claim writes reads as a claim. *)
Lemma claim_reads a (by_ : option string) now lease dl t' :
  a <> EmptyString ->
  holds (AttrExists "pk" AND status_active AND AttrNotExists "waiting_for" AND lease_over (epochSeconds now)) it = true ->
  reads (apply_actions
    ([SET "attempt_id" (AS a); SET "lease_expires_at" (AN (epochSeconds lease));
      SET "deadline_at" (AN (epochSeconds dl))] ++
     match by_ with Some c => [SET "claimed_by" (AS c)] | None => [] end ++
     [ADD "attempt" (AN 1)] ++ match by_ with Some _ => [] | None => [REMOVE "claimed_by"] end) it) t' ->
  (Turn.status t = Active /\ Turn.waitingFor t = None /\ unleased now t) /\
  Turn.attemptId t' = Some a /\ Turn.attempt t' = Turn.attempt t + 1 /\
  Turn.leaseExpiresAt t' = Some (stored_moment lease).
Proof using Hwf Hr.
  intros Ha Hc Hr'. destruct (wf_attempt _ Hwf) as [z Hz].
  assert (holds (lease_over (epochSeconds now)) it = true) as Hl.
  { cbn [holds] in Hc. by rewrite !andb_true_iff in Hc; deex. }
  split_cond Hc. apply (lease_over_unleased it t) in Hl; [|done..].
  split; [split_and!; [by eapply reads_active|by apply reads_waiting|done]|].
  pose proof (number_reads _ _ _ _ _ Hz (r_attempt _ _ Hr)) as Hat.
  pose proof (r_attemptId _ _ Hr') as E1. pose proof (r_attempt _ _ Hr') as E2. pose proof (r_lease _ _ Hr') as E3.
  unfold apply_actions in *. destruct by_ as [b|]; cbn [app foldl apply_action] in *;
    rewrite !lookup_insert_ne, Hz in E1, E2, E3 by done; autorewrite with item in E1, E2, E3; rewrite text_or_null_ne in E1 by done;
    split_and!; try done; cbn in E2; congruence.
Qed.

(** Every update of the control record under its condition is a step of the machine. *)
Lemma update_refines (xs : list action) (c : cond) :
  store_update xs c -> holds c it = true ->
  item_wf (apply_actions xs it) /\
  exists t', reads (apply_actions xs it) t' /\ spec_step (Abstract.mk t log) (Abstract.mk t' log).
Proof using Hwf Hr.
  intros Hup Hc. destruct Hup as [a by_ now lease dl Ha|a lease dl|a fence|a|id| |ac rec now dl].
  - by apply (claim_refines a by_ now lease dl).
  - pose proof (spec_renew (Abstract.mk t log) a lease dl (reads_owns _ Hc)) as Hstep.
    unfold apply_actions. cbn [foldl apply_action]. write_goal Hstep.
  - pose proof (spec_fence (Abstract.mk t log) a fence (reads_owns _ Hc)) as Hstep.
    unfold apply_actions. cbn [foldl apply_action]. write_goal Hstep.
  - pose proof (spec_closing (Abstract.mk t log) a (reads_owns _ Hc)) as Hstep.
    unfold apply_actions. cbn [foldl apply_action]. write_goal Hstep.
  - by apply enqueue_refines.
  - split_cond Hc. assert (Turn.status t = Active) as Hact by (by eapply reads_active).
    assert (Turn.waitingFor t <> None) as Hwait.
    { rewrite <- reads_waiting. match goal with E : is_Some _ |- _ => by destruct E as [? ->] end. }
    pose proof (spec_resume (Abstract.mk t log) Hact Hwait) as Hstep.
    unfold apply_actions. cbn [foldl apply_action]. write_goal Hstep.
  - by apply (recover_refines ac rec now dl).
Qed.
End update.

(** ** The transitions of the store *)

#[local] Arguments encodePendingComputerTool : simpl never.
#[local] Arguments decodePendingComputerTool : simpl never.

(** Every request the methods of the store make to [transition]. A client appends no ending event and parks on a gate
    that has a name. *)
Inductive store_transition `{Collation} : Transition -> Prop :=
| tr_append tenantId turnId a d id x :
    ending_kind (Draft.kind d) = false -> store_transition (append_request tenantId turnId a d id x)
| tr_complete tenantId turnId a seq body id x : store_transition (complete_request tenantId turnId a seq body id x)
| tr_fail tenantId turnId a reason id x : store_transition (fail_request tenantId turnId a reason id x)
| tr_park tenantId turnId a gate tool now id x :
    gate <> EmptyString -> store_transition (park_request tenantId turnId a gate tool now id x)
| tr_reconcile tenantId turnId a reason id x : store_transition (reconcile_request tenantId turnId a reason id x)
| tr_relinquish tenantId turnId a id x : store_transition (relinquish_request tenantId turnId a id x)
| tr_fail_stale tenantId turnId observed condition now reason id x :
    store_transition (fail_stale_request tenantId turnId observed condition now reason id x).

Section transitions.
Context `{Collation}.

Lemma encodePendingComputerTool_ne (tool : PendingComputerTool) : encodePendingComputerTool tool <> EmptyString.
Proof.
  intros Heq. pose proof (decode_encodePendingComputerTool tool) as Hd. rewrite Heq in Hd. by vm_compute in Hd.
Qed.

Context (it : item) (t : Turn) (log : list TurnEvent) (Hwf : item_wf it) (Hr : reads it t).

(** The condition of a transition says that the read record was current. *)
Lemma transition_condition_owner (request : Transition) (current : Turn) :
  holds (transition_condition request current) it = true ->
  Turn.attemptId t = Transition.attemptId request /\ Turn.status t = Active /\
  Turn.nextEventSeq t = Turn.nextEventSeq current /\
  (forall g, Transition.guard request = Some g -> holds g it = true).
Proof using Hwf Hr.
  unfold transition_condition. intros Hc.
  assert (holds (match Transition.attemptId request with
                 | None => AttrNotExists "attempt_id" | Some a => AttrEq "attempt_id" (AS a) end) it = true /\
          holds status_active it = true /\ it !! "next_event_seq" = Some (AN (Turn.nextEventSeq current)) /\
          (forall g, Transition.guard request = Some g -> holds g it = true)) as (Ho & Hs & Hn & Hg).
  { destruct (Transition.guard request); cbn [holds] in Hc; rewrite !andb_true_iff, !bool_decide_eq_true in Hc;
      naive_solver. }
  split_and!; try done.
  - destruct (Transition.attemptId request); cbn [holds] in Ho; rewrite bool_decide_eq_true in Ho.
    + by eapply reads_owner.
    + by eapply reads_nobody.
  - cbn [holds status_active] in Hs. rewrite bool_decide_eq_true in Hs. by eapply reads_active.
  - symmetry. by rewrite (number_reads _ _ _ _ _ Hn (r_next _ _ Hr)).
Qed.

(** The fields of the item after the write of a transition. *)
Ltac transition_goal Hstep :=
  unfold apply_actions, transition_actions; cbn [app fmap list_fmap foldl apply_action Transition.set Transition.remove
    append_request complete_request fail_request park_request reconcile_request relinquish_request fail_stale_request
    fst snd];
  split; [wf_goal Hwf|]; eexists; split; [|exact Hstep]; destruct t, Hr; fields; cbn in *; reads_goal.

Lemma transition_refines (request : Transition) :
  store_transition request -> holds (transition_condition request t) it = true ->
  item_wf (apply_actions (transition_actions request t) it) /\
  exists t', reads (apply_actions (transition_actions request t) it) t' /\
    spec_step (Abstract.mk t log) (Abstract.mk t' (log ++ [transition_event request t])).
Proof using Hwf Hr.
  intros Hreq Hc. destruct (transition_condition_owner _ _ Hc) as (Howner & Hact & _ & Hg). clear Hc.
  destruct Hreq as [te u a d id x Hd|te u a seq body id x|te u a reason id x|te u a gate tool now id x Hgate
                   |te u a reason id x|te u a id x|te u observed condition now reason id x]; cbn in Howner;
    try assert (owns a t) as Hown by done.
  - pose proof (spec_append (Abstract.mk t log) a d id Hown Hd) as Hstep. transition_goal Hstep.
  - pose proof (spec_complete (Abstract.mk t log) a seq body id Hown) as Hstep. transition_goal Hstep.
  - pose proof (spec_fail (Abstract.mk t log) a reason id Hown) as Hstep. transition_goal Hstep.
  - pose proof (spec_park (Abstract.mk t log) a gate tool now id Hgate Hown) as Hstep. transition_goal Hstep.
    + unfold text_or_null. rewrite decide_False by apply encodePendingComputerTool_ne.
      by rewrite decode_encodePendingComputerTool.
    + by apply text_or_null_ne.
  - pose proof (spec_reconcile (Abstract.mk t log) a reason id Hown) as Hstep. transition_goal Hstep.
  - pose proof (spec_relinquish (Abstract.mk t log) a id Hown) as Hstep. transition_goal Hstep.
  - specialize (Hg _ eq_refl). destruct condition; cbn [stale_guard] in Hg.
    + cbn [holds] in Hg. rewrite andb_true_iff, bool_decide_eq_true in Hg. destruct Hg as [Hw Hl].
      apply (reads_waiting it t) in Hw; [|done..]. apply (lease_over_unleased it t now) in Hl; [|done..].
      pose proof (spec_fail_expired (Abstract.mk t log) now reason id Hact Hw Hl) as Hstep. transition_goal Hstep.
    + cbn [holds] in Hg. rewrite bool_decide_eq_true in Hg.
      assert (Turn.waitingFor t <> None) as Hw.
      { rewrite <- (reads_waiting it t) by done. by destruct Hg as [? ->]. }
      pose proof (spec_fail_waiting (Abstract.mk t log) reason id Hact Hw) as Hstep. transition_goal Hstep.
Qed.

(** The replacement of a grant appends an event to an active turn. *)
Lemma grant_refines (body id : string) :
  holds (status_active AND AttrEq "next_event_seq" (AN (Turn.nextEventSeq t))) it = true ->
  let xs := [SET "next_event_seq" (AN (Turn.nextEventSeq t + 1))] in
  item_wf (apply_actions xs it) /\
  exists t', reads (apply_actions xs it) t' /\
    spec_step (Abstract.mk t log) (Abstract.mk t' (log ++ [grant_event t body id])).
Proof using Hwf Hr.
  intros Hc. split_cond Hc. assert (Turn.status t = Active) as Hact by (by eapply reads_active).
  pose proof (spec_grant (Abstract.mk t log) body id Hact) as Hstep.
  unfold apply_actions. cbn [foldl apply_action].
  split; [wf_goal Hwf|]; eexists; split; [|exact Hstep]; destruct t, Hr; fields; cbn in *; reads_goal.
Qed.
End transitions.
