(* ===== verification/TurnSystem.v ===== *)
(** * The turns of the table under concurrent writers

    [represents] ties the items of one turn to a state of the machine of TurnSpec.v. [sys] is one atomic write to the
    Messaging table by any process: a conditional update or a transition of the turn control store, the replacement of a
    grant, the start of a turn, the expiry of an event (the table drops events some time after their [expires_at]), or a
    write that touches no turn item. [sys_ok] and [sys_refines] show that every such write keeps all turns of the table
    represented and is a step of the machine for each of them. *)

From S2P Require Import Prelude Json Types Service Retry TurnCodec Grant TurnStore TurnSpec TurnRefine.
#[local] Open Scope Z_scope.
#[local] Open Scope cond_scope.

(** A partition that holds a turn, and the sort keys of its control record and its events. *)
Definition turn_partition (pk : string) : Prop := exists tenantId turnId, pk = turnItemPartitionKey tenantId turnId.
Definition turn_slot (sk : string) : Prop := sk = "meta" \/ starts_with EVENT_SORT_KEY_PREFIX sk = true.

Lemma evt_not_meta (n : Z) : turnEventSortKey n <> "meta".
Proof. unfold turnEventSortKey. by rewrite !string_app_cons. Qed.

Lemma evt_meta_ne (pk pk' : string) (n : Z) : (pk, turnEventSortKey n) <> (pk', "meta").
Proof. intros Heq%(f_equal snd). by eapply evt_not_meta. Qed.
Lemma meta_evt_ne (pk pk' : string) (n : Z) : (pk, "meta") <> (pk', turnEventSortKey n).
Proof. intros Heq%(f_equal snd). by eapply evt_not_meta. Qed.

Lemma slot_event (n : Z) : turn_slot (turnEventSortKey n).
Proof. right. apply starts_with_app. Qed.

Lemma slot_meta : turn_slot "meta".
Proof. by left. Qed.

Lemma not_slot (sk : string) : sk <> "meta" -> starts_with EVENT_SORT_KEY_PREFIX sk = false -> ~ turn_slot sk.
Proof. intros Hm He [->|Hs]; [done|]. congruence. Qed.

Lemma meta_not_prefixed (sk : string) : starts_with EVENT_SORT_KEY_PREFIX sk = true -> sk <> "meta".
Proof. by intros ? ->. Qed.

Lemma meta_ne_prefixed (pk pk' sk : string) :
  starts_with EVENT_SORT_KEY_PREFIX sk = true -> (pk, "meta") <> (pk', sk) /\ (pk', sk) <> (pk, "meta").
Proof. intros Hsk%meta_not_prefixed. by split; intros Heq%(f_equal snd). Qed.

Section system.
Context `{Collation}.

(** An item among the events of a partition is that of an event of the log, under the key of its sequence. *)
Definition event_of_log (log : list TurnEvent) (sk : string) (it : item) : Prop :=
  exists n e x, 1 <= n /\ sk = turnEventSortKey n /\ log !! Z.to_nat (n - 1) = Some e /\ it = turnEventItem e x.

Record represented_by (w : World) (pk : string) (s : AbstractTurn) (it : item) : Prop := {
  rep_meta : tbl w !! (pk, "meta") = Some it;
  rep_wf : item_wf it;
  rep_reads : reads it (Abstract.turn s);
  rep_pk : turnItemPartitionKey (Turn.tenantId (Abstract.turn s)) (Turn.turnId (Abstract.turn s)) = pk;
  rep_events : forall sk it', starts_with EVENT_SORT_KEY_PREFIX sk = true -> tbl w !! (pk, sk) = Some it' ->
    event_of_log (Abstract.log s) sk it';
}.

(** The items of a partition are those of a turn: its control record, and each event of its log unless it expired. *)
Definition represents (w : World) (pk : string) (s : AbstractTurn) : Prop := exists it, represented_by w pk s it.

Definition same_slots (w w' : World) (pk : string) : Prop :=
  forall sk, turn_slot sk -> tbl w' !! (pk, sk) = tbl w !! (pk, sk).

Inductive sys (w : World) : World -> Prop :=
| sys_update pk it xs c :
    tbl w !! (pk, "meta") = Some it -> store_update xs c -> holds c it = true ->
    sys w (with_tbl w (<[(pk, "meta") := apply_actions xs it]> (tbl w)))
| sys_transition request it t :
    tbl w !! metaKey (Transition.tenantId request) (Transition.turnId request) = Some it ->
    turnFromItem it = Some t -> store_transition request ->
    holds (transition_condition request t) it = true ->
    sys w (with_tbl w (foldl txop_write (tbl w) (transition_ops request t)))
| sys_grant tenantId turnId it t grant body id x :
    tbl w !! metaKey tenantId turnId = Some it -> turnFromItem it = Some t ->
    holds (status_active AND AttrEq "next_event_seq" (AN (Turn.nextEventSeq t))) it = true ->
    sys w (with_tbl w (foldl txop_write (tbl w) (grant_ops tenantId turnId grant body id x t)))
| sys_start pk s w' :
    tbl w !! (pk, "meta") = None -> spec_initial s -> represents w' pk s ->
    (forall pk', pk' <> pk -> turn_partition pk' -> same_slots w w' pk') ->
    sys w w'
| sys_expire pk sk :
    starts_with EVENT_SORT_KEY_PREFIX sk = true -> sys w (with_tbl w (delete (pk, sk) (tbl w)))
| sys_frame w' : (forall pk, turn_partition pk -> same_slots w w' pk) -> sys w w'.

(** Every turn of the table is represented by a state the machine reaches, and no event is without its turn. *)
Definition all_ok (w : World) : Prop :=
  forall pk, turn_partition pk ->
    match tbl w !! (pk, "meta") with
    | Some _ => exists s, represents w pk s /\ reachable s
    | None => forall sk, starts_with EVENT_SORT_KEY_PREFIX sk = true -> tbl w !! (pk, sk) = None
    end.

(** ** Representation under writes *)

Lemma represents_same (w w' : World) (pk : string) (s : AbstractTurn) :
  same_slots w w' pk -> represents w pk s -> represents w' pk s.
Proof.
  intros Hs [it [Hm Hwf Hr Hpk Hev]]. exists it. constructor; try done; [by rewrite Hs by apply slot_meta|].
  intros sk it' Hsk. rewrite Hs by by right. by apply Hev.
Qed.

Lemma represents_partition w pk s : represents w pk s -> turn_partition pk.
Proof. intros [it [_ _ _ Hpk _]]. by eexists _, _. Qed.

(** A new control record and the event that goes with it. *)
Lemma represents_logged (w : World) (pk : string) (t t' : Turn) (log : list TurnEvent) (it' : item) (id : string) (d : TurnEventDraft) (x : Z) (others : gmap key item -> gmap key item) :
  represents w pk (Abstract.mk t log) -> turn_inv (Abstract.mk t log) ->
  item_wf it' -> reads it' t' -> Turn.turnId t' = Turn.turnId t -> Turn.tenantId t' = Turn.tenantId t ->
  (forall m sk, turn_slot sk -> others m !! (pk, sk) = m !! (pk, sk)) ->
  let e := TurnEvent.mk id (Turn.tenantId t) (Turn.turnId t) (Turn.channelId t) (Turn.nextEventSeq t) d in
  represents
    (with_tbl w (<[(pk, turnEventSortKey (Turn.nextEventSeq t)) := turnEventItem e x]>
                   (others (<[(pk, "meta") := it']> (tbl w)))))
    pk (Abstract.mk t' (log ++ [e])).
Proof.
  intros [it [Hm Hwf Hr Hpk Hev]] Hinv Hwf' Hr' Hu Ht Hoth e. cbn in *.
  destruct (inv_numbered _ Hinv) as [Hnext _]. cbn in Hnext.
  exists it'; constructor; cbn; try done; [|by rewrite Hu, Ht|].
  - rewrite lookup_insert_ne by solve [apply evt_meta_ne | apply meta_evt_ne].
    rewrite Hoth by apply slot_meta. by rewrite lookup_insert_eq.
  - intros sk it2 Hsk. destruct (decide (sk = turnEventSortKey (Turn.nextEventSeq t))) as [->|Hne].
    + rewrite lookup_insert_eq. intros [= <-]. exists (Turn.nextEventSeq t), e, x. split_and!; try done; [lia|].
      rewrite lookup_app_r by lia. by replace (Z.to_nat (Turn.nextEventSeq t - 1) - length log)%nat with 0%nat by lia.
    + rewrite lookup_insert_ne by congruence. rewrite Hoth by by right.
      rewrite lookup_insert_ne by by apply meta_ne_prefixed.
      intros Hit. destruct (Hev _ _ Hsk Hit) as (n & e' & x' & ? & ? & Hl & ?). exists n, e', x'. split_and!; try done.
      by apply lookup_app_l_Some.
Qed.

Lemma represents_changed (w : World) (pk : string) (t t' : Turn) (log : list TurnEvent) (it' : item) :
  represents w pk (Abstract.mk t log) -> item_wf it' -> reads it' t' ->
  Turn.turnId t' = Turn.turnId t -> Turn.tenantId t' = Turn.tenantId t ->
  represents (with_tbl w (<[(pk, "meta") := it']> (tbl w))) pk (Abstract.mk t' log).
Proof.
  intros [it [Hm Hwf Hr Hpk Hev]] Hwf' Hr' Hu Ht. exists it'; constructor; cbn in *; try done.
  - by rewrite lookup_insert_eq.
  - by rewrite Hu, Ht.
  - intros sk it2 Hsk. rewrite lookup_insert_ne by by apply meta_ne_prefixed. by apply Hev.
Qed.

(** The item a representation holds is the one in the table. *)
Lemma represents_reads (w : World) (pk : string) (s : AbstractTurn) (it : item) :
  represents w pk s -> tbl w !! (pk, "meta") = Some it -> item_wf it /\ reads it (Abstract.turn s).
Proof. intros [it' [Hm ? ? ? ?]] Hit. by simplify_eq. Qed.

Lemma represents_turn (w : World) (pk : string) (s : AbstractTurn) (it : item) (t : Turn) :
  represents w pk s -> tbl w !! (pk, "meta") = Some it -> turnFromItem it = Some t -> t = Abstract.turn s.
Proof.
  intros Hrep Hit Ht. destruct (represents_reads _ _ _ _ Hrep Hit) as [_ Hr].
  apply turnFromItem_reads in Hr. congruence.
Qed.

Lemma step_ids s s' : spec_step s s' ->
  Turn.turnId (Abstract.turn s') = Turn.turnId (Abstract.turn s) /\
  Turn.tenantId (Abstract.turn s') = Turn.tenantId (Abstract.turn s).
Proof. intros (_ & _ & _ & _ & ? & ? & _)%spec_step_grows. done. Qed.
(** ** One write, seen from one turn *)

Inductive effect (w w' : World) (pk : string) : Prop :=
| eff_same : same_slots w w' pk -> effect w w' pk
| eff_step :
    is_Some (tbl w !! (pk, "meta")) -> is_Some (tbl w' !! (pk, "meta")) ->
    (forall s, represents w pk s -> turn_inv s -> exists s', rtc spec_step s s' /\ represents w' pk s') ->
    effect w w' pk
| eff_start s : tbl w !! (pk, "meta") = None -> spec_initial s -> represents w' pk s -> effect w w' pk.

Lemma update_effect (w : World) (pk pk' : string) (it : item) (xs : list action) (c : cond) :
  tbl w !! (pk, "meta") = Some it -> store_update xs c -> holds c it = true ->
  effect w (with_tbl w (<[(pk, "meta") := apply_actions xs it]> (tbl w))) pk'.
Proof.
  intros Hit Hup Hc. destruct (decide (pk' = pk)) as [->|Hne].
  - apply eff_step; [by rewrite Hit|by cbn; rewrite lookup_insert_eq|].
    intros [t log] Hrep Hinv. destruct (represents_reads _ _ _ _ Hrep Hit) as [Hwf Hr].
    destruct (update_refines it t log Hwf Hr xs c Hup Hc) as (Hwf' & t' & Hr' & Hstep).
    exists (Abstract.mk t' log). split; [by apply rtc_once|]. apply step_ids in Hstep as [? ?].
    by eapply represents_changed.
  - apply eff_same. intros sk _. cbn. by rewrite lookup_insert_ne by congruence.
Qed.

(** What a transition writes. *)
Lemma transition_ops_write (m : gmap key item) (request : Transition) (t : Turn) (it : item) :
  m !! metaKey (Transition.tenantId request) (Transition.turnId request) = Some it ->
  foldl txop_write m (transition_ops request t) =
  <[(turnItemPartitionKey (Turn.tenantId t) (Turn.turnId t), turnEventSortKey (Turn.nextEventSeq t)) :=
      turnEventItem (transition_event request t) (Transition.expiresAt request)]>
    (<[metaKey (Transition.tenantId request) (Transition.turnId request) :=
        apply_actions (transition_actions request t) it]> m).
Proof. intros Hit. cbn [transition_ops foldl txop_write]. rewrite turnEventItem_key, Hit. done. Qed.

Lemma grant_ops_write (m : gmap key item) tenantId turnId g body id x (t : Turn) (it : item) :
  m !! metaKey tenantId turnId = Some it ->
  foldl txop_write m (grant_ops tenantId turnId g body id x t) =
  <[(turnItemPartitionKey (Turn.tenantId t) (Turn.turnId t), turnEventSortKey (Turn.nextEventSeq t)) :=
      turnEventItem (grant_event t body id) x]>
    (<[(turnItemPartitionKey tenantId turnId, TURN_GRANT_SORT_KEY) := encodeGrant tenantId turnId g]>
      (<[metaKey tenantId turnId :=
          apply_actions [SET "next_event_seq" (AN (Turn.nextEventSeq t + 1))] it]> m)).
Proof.
  intros Hit. cbn [grant_ops foldl txop_write]. rewrite turnEventItem_key, Hit.
  assert (item_key (encodeGrant tenantId turnId g) =
          Some (turnItemPartitionKey tenantId turnId, TURN_GRANT_SORT_KEY)) as -> by done. done.
Qed.

Lemma grant_key_slot (m : gmap key item) (k : string) (pk sk : string) (v : item) :
  turn_slot sk -> <[(k, TURN_GRANT_SORT_KEY) := v]> m !! (pk, sk) = m !! (pk, sk).
Proof.
  intros Hsk. apply lookup_insert_ne. intros Heq%(f_equal snd). cbn in Heq. subst sk.
  by eapply not_slot in Hsk.
Qed.

(** The two writes that append an event. *)
Lemma logged_effect (w : World) (pk pk' : string) (it it' : item) (t : Turn) (id : string) (d : TurnEventDraft) (x : Z)
    (others : gmap key item -> gmap key item) :
  all_ok w -> turn_partition pk ->
  tbl w !! (pk, "meta") = Some it -> turnFromItem it = Some t ->
  (forall m p sk, turn_slot sk -> others m !! (p, sk) = m !! (p, sk)) ->
  let e := TurnEvent.mk id (Turn.tenantId t) (Turn.turnId t) (Turn.channelId t) (Turn.nextEventSeq t) d in
  (forall log, item_wf it -> reads it t -> item_wf it' /\
     exists t', reads it' t' /\ spec_step (Abstract.mk t log) (Abstract.mk t' (log ++ [e]))) ->
  effect w (with_tbl w
    (<[(turnItemPartitionKey (Turn.tenantId t) (Turn.turnId t), turnEventSortKey (Turn.nextEventSeq t)) :=
        turnEventItem e x]> (others (<[(pk, "meta") := it']> (tbl w))))) pk'.
Proof.
  intros Hok Hpart Hit Ht Hoth e Hstep.
  assert (turnItemPartitionKey (Turn.tenantId t) (Turn.turnId t) = pk) as ->.
  { pose proof (Hok pk Hpart) as Hpk. rewrite Hit in Hpk. destruct Hpk as (s & Hrep & _).
    rewrite (represents_turn _ _ _ _ _ Hrep Hit Ht). by destruct Hrep as [? []]. }
  destruct (decide (pk' = pk)) as [->|Hne].
  - apply eff_step; [by rewrite Hit| |].
    { cbn. rewrite lookup_insert_ne, Hoth, lookup_insert_eq by (apply slot_meta || apply evt_meta_ne). done. }
    intros [t0 log] Hrep Hinv. pose proof (represents_turn _ _ _ _ _ Hrep Hit Ht) as Heq. cbn in Heq. subst t0.
    destruct (represents_reads _ _ _ _ Hrep Hit) as [Hwf Hr].
    destruct (Hstep log Hwf Hr) as (Hwf' & t' & Hr' & Hs).
    exists (Abstract.mk t' (log ++ [e])). split; [by apply rtc_once|]. apply step_ids in Hs as [? ?].
    eapply (represents_logged w pk t t' log it' id d x others); auto.
  - apply eff_same. intros sk Hsk. cbn.
    by rewrite lookup_insert_ne, Hoth, lookup_insert_ne by (done || congruence).
Qed.

Lemma expire_effect (w : World) (pk pk' sk : string) :
  starts_with EVENT_SORT_KEY_PREFIX sk = true -> all_ok w -> turn_partition pk' ->
  effect w (with_tbl w (delete (pk, sk) (tbl w))) pk'.
Proof.
  intros Hsk Hok Hpart. assert (forall p, (pk, sk) <> (p, "meta")) as Hmeta.
  { intros p. by apply meta_ne_prefixed. }
  destruct (decide (pk' = pk)) as [->|Hne].
  - pose proof (Hok pk Hpart) as Hpk. destruct (tbl w !! (pk, "meta")) as [it|] eqn:Hit.
    + apply eff_step; [by rewrite Hit|by cbn; rewrite lookup_delete_ne, Hit by apply Hmeta|].
      intros s [it' [Hm Hwf Hr Hpk' Hev]] _. exists s. split; [done|]. exists it'. constructor; cbn; try done.
      { by rewrite lookup_delete_ne by apply Hmeta. }
      intros sk' it2 Hsk' [_ ?]%lookup_delete_Some. by apply Hev.
    + apply eff_same. intros sk' Hsk'. cbn. destruct (decide (sk' = sk)) as [->|].
      * by rewrite lookup_delete_eq, Hpk.
      * by rewrite lookup_delete_ne by congruence.
  - apply eff_same. intros sk' _. cbn. by rewrite lookup_delete_ne by congruence.
Qed.

Lemma sys_effect (w w' : World) : all_ok w -> sys w w' -> forall pk, turn_partition pk -> effect w w' pk.
Proof.
  intros Hok Hsys pk Hpart. destruct Hsys.
  - by eapply update_effect.
  - erewrite transition_ops_write by done. apply (logged_effect w _ _ it _ t _ _ _ id); try done; [by eexists _, _|].
    intros log Hwf Hr. by apply transition_refines.
  - erewrite grant_ops_write by done.
    apply (logged_effect w _ _ it _ t _ _ _ (insert (turnItemPartitionKey tenantId turnId, TURN_GRANT_SORT_KEY) _));
      try done; [by eexists _, _|intros; by apply grant_key_slot|].
    intros log Hwf Hr. by apply grant_refines.
  - destruct (decide (pk = pk0)) as [->|]; [by eapply eff_start|by apply eff_same; auto].
  - by apply expire_effect.
  - by apply eff_same; auto.
Qed.

Lemma sys_ok (w w' : World) : all_ok w -> sys w w' -> all_ok w'.
Proof.
  intros Hok Hsys pk Hpart. pose proof (Hok pk Hpart) as Hpk.
  destruct (sys_effect _ _ Hok Hsys pk Hpart) as [Hsame|[it Hit] [it' Hit'] Hstep|s Hnone Hinit Hrep].
  - rewrite Hsame by apply slot_meta. destruct (tbl w !! (pk, "meta")).
    + destruct Hpk as (s & ? & ?). exists s. split; [by eapply represents_same|done].
    + intros sk Hsk. rewrite Hsame by by right. auto.
  - rewrite Hit in Hpk. rewrite Hit'. destruct Hpk as (s & Hrep & Hreach).
    destruct (Hstep s Hrep (reachable_inv _ Hreach)) as (s' & Hs & ?). exists s'. split; [done|].
    destruct Hreach as (s0 & ? & ?). exists s0. split; [done|]. by trans s.
  - destruct Hrep as [it [Hm ? ? ? ?]]. rewrite Hm. exists s. split; [by exists it|]. exists s. by split.
Qed.

Lemma sys_refines (w w' : World) (pk : string) (s : AbstractTurn) :
  all_ok w -> sys w w' -> represents w pk s -> turn_inv s ->
  exists s', rtc spec_step s s' /\ represents w' pk s'.
Proof.
  intros Hok Hsys Hrep Hinv.
  destruct (sys_effect _ _ Hok Hsys pk (represents_partition _ _ _ Hrep)) as [Hsame|_ _ Hstep|s' Hnone Hinit _].
  - exists s. split; [done|]. by eapply represents_same.
  - by apply Hstep.
  - destruct Hrep as [it [Hm ? ? ? ?]]. congruence.
Qed.

Lemma syses_ok (w w' : World) : all_ok w -> rtc sys w w' -> all_ok w'.
Proof. intros Hok Hsys. induction Hsys; eauto using sys_ok. Qed.

Lemma syses_refine (w w' : World) (pk : string) (s : AbstractTurn) :
  all_ok w -> rtc sys w w' -> represents w pk s -> turn_inv s ->
  exists s', rtc spec_step s s' /\ represents w' pk s'.
Proof.
  intros Hok Hsys. revert s. induction Hsys as [w|w w1 w2 Hsys1 Hsys IH]; intros s Hrep Hinv; [by exists s|].
  destruct (sys_refines _ _ _ _ Hok Hsys1 Hrep Hinv) as (s1 & Hs1 & Hrep1).
  destruct (IH (sys_ok _ _ Hok Hsys1) s1 Hrep1 (steps_inv _ _ Hinv Hs1)) as (s2 & Hs2 & Hrep2).
  exists s2. split; [by trans s1|done].
Qed.
End system.
