(* ===== verification/TurnPrograms.v ===== *)
(** * The programs of the turn control store under interference

    Every method of TurnStore.v, run against any service that keeps the contract while other processes make the writes of
    TurnSystem.v. [transition_exec] takes an execution of the shared transition loop apart: it either threw and wrote
    nothing, or committed once at one moment. [store_program_guarantees] shows that every method moves the table only
    along [sys]. *)

From S2P Require Import Prelude Json Types Service Retry Paging TurnCodec Grant TurnStore TurnSpec TurnRefine.
From S2P Require Import TurnSystem.
#[local] Open Scope Z_scope.
#[local] Open Scope cond_scope.
#[local] Open Scope prog_scope.

Section programs.
Context `{Collation} `{Service} (I : World -> World -> Prop).

(** ** Executions of the building blocks *)

Lemma exec_ret {A : Type} (a : A) w o w' : exec I (Ret a) w o w' <-> o = Ok a /\ rtc I w w'.
Proof. done. Qed.
Lemma exec_throw {A : Type} (e : exn) w (o : exn + A) w' : exec I (Throw e) w o w' <-> o = Err e /\ rtc I w w'.
Proof. done. Qed.

(** A program that, as the rest of the system sees it, does nothing. *)
Definition silent {A : Type} (p : prog A) : Prop := forall w o w', exec I p w o w' -> rtc I w w'.

Lemma silent_ret {A : Type} (a : A) : silent (Ret a).
Proof. by intros w o w' [_ ?]. Qed.
Lemma silent_throw {A : Type} (e : exn) : silent (A:=A) (Throw e).
Proof. by intros w o w' [_ ?]. Qed.
Lemma silent_bind {A B : Type} (p : prog A) (f : A -> prog B) :
  silent p -> (forall a, silent (f a)) -> silent (bind p f).
Proof.
  intros Hp Hf w o w' [(a & w1 & H1 & H2)|(e & -> & H1)]%exec_bind; [|by eapply Hp].
  trans w1; [by eapply Hp|by eapply Hf].
Qed.
Lemma silent_get (k : key) : silent (send (GetItem k)).
Proof.
  intros w [e|x] w' Hs.
  - by apply exec_send_fails in Hs as [? _].
  - apply exec_get in Hs as (w1 & ? & _ & ?). by trans w1.
Qed.

Lemma silent_decode_turn (it : item) : silent (decode_turn it).
Proof. unfold decode_turn. destruct (turnFromItem it); [apply silent_ret|apply silent_throw]. Qed.

Lemma silent_getTurn (tenantId turnId : string) : silent (getTurn tenantId turnId).
Proof.
  apply silent_bind; [apply silent_get|]. intros [it|]; [|apply silent_ret].
  apply silent_bind; [apply silent_decode_turn|intros; apply silent_ret].
Qed.

Lemma silent_rejection (tenantId turnId : string) (a : option string) : silent (rejection tenantId turnId a).
Proof.
  apply silent_bind; [apply silent_getTurn|]. intros [t|]; [|apply silent_ret].
  case_decide; apply silent_ret.
Qed.

(** A turn that was read is the one of the table at some moment of the read. *)
Lemma exec_getTurn (tenantId turnId : string) w t w' :
  exec I (getTurn tenantId turnId) w (Ok (Some t)) w' ->
  exists w1 it, rtc I w w1 /\ tbl w1 !! metaKey tenantId turnId = Some it /\ turnFromItem it = Some t /\ rtc I w1 w'.
Proof.
  intros [(o & w1 & (w2 & Hw2 & -> & Hw1)%exec_get & Hrest)|(e & [=] & _)]%exec_bind.
  destruct (tbl w2 !! metaKey tenantId turnId) as [it|] eqn:Hit; [|by destruct Hrest].
  apply exec_bind in Hrest as [(t' & w3 & Hd & [[= <-] Hw3])|(e & [=] & _)].
  unfold decode_turn in Hd. destruct (turnFromItem it) eqn:Ht; destruct Hd as [[= <-] Hd].
  exists w2, it. split_and!; try done. trans w1; [done|]. by trans w3.
Qed.

Lemma exec_null_when {A : Type} (p : prog A) w o w' :
  exec I (null_when_condition_fails p) w o w' ->
  (exists a, o = Ok (Some a) /\ exec I p w (Ok a) w') \/
  (o = Ok None /\ exec I p w (Err ConditionalCheckFailedException) w') \/
  (exists e, e <> ConditionalCheckFailedException /\ o = Err e /\ exec I p w (Err e) w').
Proof.
  intros [(x & -> & [(a & w1 & Hp & [[= ->] Hw])|(e & [=] & _)]%exec_bind)
         |(e & w1 & [(a & w2 & _ & [[=] _])|(e' & [= <-] & Hp)]%exec_bind & Hh)]%exec_catch.
  - left. exists a. split; [done|]. by eapply exec_others_r.
  - destruct e; destruct Hh as [-> Hw]; right; first [left; split; [done|]; by eapply exec_others_r
      | right; eexists; split_and!; [|done|by eapply exec_others_r]; done].
Qed.

(** An update that answers with the item it wrote, read back as a turn. *)
Lemma exec_update (k : key) (xs : list action) (c : cond) w o w' :
  exec I (null_when_condition_fails (let! it := retryTransient (send (UpdateItem k xs c)) in decode_turn it)) w o w' ->
  (exists e, o = Err e /\ rtc I w w') \/
  (o = Ok None /\ exists w1, rtc I w w1 /\ holds c (item_at w1 k) = false /\ rtc I w1 w') \/
  (exists w1 it, rtc I w w1 /\ holds c (item_at w1 k) = true /\ it = apply_actions xs (base_item k (tbl w1 !! k)) /\
     rtc I (with_tbl w1 (<[k := it]> (tbl w1))) w' /\
     o = match turnFromItem it with Some t => Ok (Some t) | None => Err (MalformedItem "turn") end).
Proof.
  assert (forall x, exec I (let! it := retryTransient (send (UpdateItem k xs c)) in decode_turn it) w x w' ->
    (exists e, x = Err e /\ rtc I w w' /\ (e = ConditionalCheckFailedException ->
       exists w1, rtc I w w1 /\ holds c (item_at w1 k) = false /\ rtc I w1 w')) \/
    (exists w1 it, rtc I w w1 /\ holds c (item_at w1 k) = true /\ it = apply_actions xs (base_item k (tbl w1 !! k)) /\
       rtc I (with_tbl w1 (<[k := it]> (tbl w1))) w' /\
       x = match turnFromItem it with Some t => Ok t | None => Err (MalformedItem "turn") end)) as Hexec.
  { intros x [(it & w1 & Hu & Hd)|(e & -> & Hu)]%exec_bind.
    - apply exec_retry_send in Hu as (w2 & w3 & Hw2 & (Hc & -> & ->) & Hw3). right.
      exists w2, (apply_actions xs (base_item k (tbl w2 !! k))).
      unfold decode_turn in Hd. destruct (turnFromItem _); destruct Hd as [-> Hd]; split_and!; try done; by trans w1.
    - apply exec_retry_send in Hu as (w2 & w3 & Hw2 & [-> [_ Hc]] & Hw3). left. exists e.
      split_and!; [done|by trans w2|]. intros ->. by exists w2. }
  intros [(t & -> & Hx%Hexec)|[[-> Hx%Hexec]|(e & Hne & -> & Hx%Hexec)]]%exec_null_when.
  - destruct Hx as [(e & [=] & _)|(w1 & it & ? & ? & ? & ? & Heq)]. right. right. exists w1, it.
    split_and!; try done. destruct (turnFromItem it); by simplify_eq.
  - destruct Hx as [(e & [= <-] & _ & Hc)|(w1 & it & ? & ? & ? & ? & Heq)].
    + right. left. split; [done|]. by apply Hc.
    + by destruct (turnFromItem it).
  - destruct Hx as [(e' & [= <-] & ? & _)|(w1 & it & ? & ? & ? & ? & Heq)].
    + left. by exists e.
    + right. right. exists w1, it. split_and!; try done. destruct (turnFromItem it); by simplify_eq.
Qed.

(** ** The transition loop *)

(** A transition commits: [current] was read, the caller's checks held of it, and the write went through later. *)
Record committed (request : Transition) (w : World) (current : Turn) (w1 w2 : World) : Prop := {
  com_read : exists w0 it, rtc I w w0 /\
    tbl w0 !! metaKey (Transition.tenantId request) (Transition.turnId request) = Some it /\
    turnFromItem it = Some current /\ rtc I w0 w1;
  com_owner : Turn.attemptId current = Transition.attemptId request;
  com_active : Turn.status current = Active;
  com_holds : forall h, Transition.holds request = Some h -> h current = true;
  com_write : contract (TransactWrite (transition_ops request current)) w1 (Ok tt) w2;
}.

(** What follows the commit of a transition. *)
Definition after_commit (request : Transition) (current : Turn) : prog TurnEvent :=
  (if Transition.terminal request then clearActivePointers current else Ret tt) ;;;
  Ret (transition_event request current).

Lemma after_commit_event request current w e w' :
  exec I (after_commit request current) w (Ok e) w' -> e = transition_event request current.
Proof. by intros [(? & ? & _ & [[= ->] _])|(? & [=] & _)]%exec_bind. Qed.

Lemma committed_others request w w0 current w1 w2 :
  rtc I w w0 -> committed request w0 current w1 w2 -> committed request w current w1 w2.
Proof.
  intros Hw [(w3 & it & ? & ? & ? & ?) ? ? ? ?]. constructor; try done. exists w3, it. split_and!; try done. by trans w0.
Qed.

Lemma exec_reject request w o w' :
  exec I (let! e := rejection (Transition.tenantId request) (Transition.turnId request)
                      (Transition.attemptId request) in Throw (A:=TurnEvent) e) w o w' ->
  exists er, o = Err er /\ rtc I w w'.
Proof.
  intros [(er & w1 & ? & [-> ?])|(er & -> & ?)]%exec_bind; exists er; (split; [done|]).
  - trans w1; [by eapply silent_rejection|done].
  - by eapply silent_rejection.
Qed.

Lemma transition_exec (request : Transition) (n : nat) w o w' :
  exec I (transition_loop request n) w o w' ->
  (exists er, o = Err er /\ rtc I w w') \/
  (exists current w1 w2, committed request w current w1 w2 /\ exec I (after_commit request current) w2 o w').
Proof.
  revert w. induction n as [|n IH]; intros w; cbn [transition_loop]; [intros [-> ?]; left; by eexists|].
  intros [(current & w1 & Hget & Hrest)|(er & -> & Hget)]%exec_bind; [|left; eexists; split; [done|by eapply silent_getTurn]].
  assert (rtc I w w1) as Hw1 by by eapply silent_getTurn.
  destruct current as [t|]; [|apply exec_reject in Hrest as (er & -> & ?); left; exists er; split; [done|by trans w1]].
  destruct (bool_decide _ || bool_decide _) eqn:Hown.
  { apply exec_reject in Hrest as (er & -> & ?). left. exists er. split; [done|by trans w1]. }
  destruct (match Transition.holds request with Some h => negb (h t) | None => false end) eqn:Hh.
  { destruct Hrest as [-> ?]. left. eexists. split; [done|by trans w1]. }
  apply orb_false_iff in Hown as [Ho%bool_decide_eq_false Ha%bool_decide_eq_false].
  apply exec_bind in Hrest as [(x & w2 & (y & [= <-] & Hsend)%exec_outcome_of & Hrest)|(er & -> & (y & [=] & _)%exec_outcome_of)].
  apply exec_retry_send in Hsend as (w3 & w4 & Hw3 & Hcon & Hw4). destruct x as [er|[]].
  - destruct Hcon as [-> _].
    assert (rtc I w w2) as Hw2 by (trans w1; [done|by trans w3]).
    destruct er; try (destruct Hrest as [-> ?]; left; eexists; split; [done|by trans w2]).
    destruct (IH _ Hrest) as [(er & -> & ?)|(cur & w5 & w6 & Hcom & ?)].
    + left. exists er. split; [done|by trans w2].
    + right. exists cur, w5, w6. split; [by eapply committed_others|done].
  - right. exists t, w3, w4. split; [|by eapply exec_others].
    apply exec_getTurn in Hget as (w5 & it & ? & ? & ? & ?). constructor.
    + exists w5, it. split_and!; try done. by trans w1.
    + apply dec_stable. naive_solver.
    + apply dec_stable. naive_solver.
    + intros h Hhr. rewrite Hhr in Hh. by destruct (h t).
    + done.
Qed.
Lemma replaceGrant_exec tenantId turnId grant body id x (n : nat) w o w' :
  exec I (replaceGrant_loop tenantId turnId grant body id x n) w o w' ->
  (exists er, o = Err er /\ rtc I w w') \/
  (exists t w0 it w1 w2, rtc I w w0 /\ tbl w0 !! metaKey tenantId turnId = Some it /\ turnFromItem it = Some t /\
     Turn.status t = Active /\ rtc I w0 w1 /\
     contract (TransactWrite (grant_ops tenantId turnId grant body id x t)) w1 (Ok tt) w2 /\
     o = Ok (grant_event t body id) /\ rtc I w2 w').
Proof.
  revert w. induction n as [|n IH]; intros w; cbn [replaceGrant_loop]; [intros [-> ?]; left; by eexists|].
  intros [(current & w1 & Hget & Hrest)|(er & -> & Hget)]%exec_bind; [|left; eexists; split; [done|by eapply silent_getTurn]].
  assert (rtc I w w1) as Hw1 by by eapply silent_getTurn.
  destruct current as [t|]; [|destruct Hrest as [-> ?]; left; eexists; split; [done|by trans w1]].
  destruct (bool_decide _) eqn:Ha; [destruct Hrest as [-> ?]; left; eexists; split; [done|by trans w1]|].
  apply bool_decide_eq_false in Ha.
  apply exec_bind in Hrest as [(y & w2 & (y' & [= <-] & Hsend)%exec_outcome_of & Hrest)|(er & -> & (y & [=] & _)%exec_outcome_of)].
  apply exec_retry_send in Hsend as (w3 & w4 & Hw3 & Hcon & Hw4). destruct y as [er|[]].
  - destruct Hcon as [-> _].
    assert (rtc I w w2) as Hw2 by (trans w1; [done|by trans w3]).
    destruct er; try (destruct Hrest as [-> ?]; left; eexists; split; [done|by trans w2]).
    destruct (IH _ Hrest) as [(er & -> & ?)|(t' & w5 & it & w6 & w7 & ? & ?)].
    + left. exists er. split; [done|by trans w2].
    + right. exists t', w5, it, w6, w7. split; [by trans w2|done].
  - destruct Hrest as [-> Hrest]. right.
    apply exec_getTurn in Hget as (w5 & it & ? & ? & ? & ?). exists t, w5, it, w3, w4.
    split_and!; try done; [apply dec_stable; naive_solver|by trans w1|by trans w2].
Qed.

(** ** Guarantees *)

Section guarantees.
Context (HI : forall w w', I w w' -> sys w w').

Lemma others_sys w w' : rtc I w w' -> rtc sys w w'.
Proof using HI. induction 1; [done|]. eapply rtc_l; [by apply HI|done]. Qed.

Lemma others_ok w w' : all_ok w -> rtc I w w' -> all_ok w'.
Proof using HI. intros Hok Hw%others_sys. by eapply syses_ok. Qed.

(** A program that moves the table only along [sys]. *)
Definition guarantees {A : Type} (p : prog A) : Prop :=
  forall w o w', all_ok w -> exec I p w o w' -> rtc sys w w'.

(** A request whose answer is such a move. *)
Definition safe_request {R : Type} (r : request R) : Prop :=
  forall w x w', all_ok w -> contract r w x w' -> rtc sys w w'.

Lemma silent_guarantees {A : Type} (p : prog A) : silent p -> guarantees p.
Proof using HI. intros Hp w o w' _ He. apply others_sys. by eapply Hp. Qed.

Lemma guarantees_bind {A B : Type} (p : prog A) (f : A -> prog B) :
  guarantees p -> (forall a, guarantees (f a)) -> guarantees (bind p f).
Proof using HI.
  intros Hp Hf w o w' Hok [(a & w1 & H1 & H2)|(e & -> & H1)]%exec_bind; [|by eapply Hp].
  assert (rtc sys w w1) by by eapply Hp. trans w1; [done|]. eapply Hf; [|done]. by eapply syses_ok.
Qed.

Lemma guarantees_catch {A : Type} (p : prog A) (h : exn -> prog A) :
  guarantees p -> (forall e, guarantees (h e)) -> guarantees (catch p h).
Proof using HI.
  intros Hp Hh w o w' Hok [(a & -> & H1)|(e & w1 & H1 & H2)]%exec_catch; [by eapply Hp|].
  assert (rtc sys w w1) by by eapply Hp. trans w1; [done|]. eapply Hh; [|done]. by eapply syses_ok.
Qed.

Lemma guarantees_ret {A : Type} (a : A) : guarantees (Ret a).
Proof using HI. apply silent_guarantees, silent_ret. Qed.
Lemma guarantees_throw {A : Type} (e : exn) : guarantees (A:=A) (Throw e).
Proof using HI. apply silent_guarantees, silent_throw. Qed.

Lemma guarantees_retry {R : Type} (r : request R) : safe_request r -> guarantees (retryTransient (send r)).
Proof using HI.
  intros Hr w o w' Hok (w1 & w2 & Hw1 & Hc & Hw2)%exec_retry_send.
  assert (all_ok w1) by by eapply others_ok. trans w1; [by apply others_sys|]. trans w2; [by eapply Hr|].
  by apply others_sys.
Qed.

Lemma guarantees_send {R : Type} (r : request R) : safe_request r -> guarantees (send r).
Proof using HI.
  intros Hr w o w' Hok (w1 & w2 & Hw1 & Hc%respond_contract & Hw2)%exec_send.
  assert (all_ok w1) by by eapply others_ok. trans w1; [by apply others_sys|]. trans w2; [by eapply Hr|].
  by apply others_sys.
Qed.

Lemma guarantees_for_each {A B : Type} (l : list A) (acc : B) (body : B -> A -> prog B) :
  (forall b a, guarantees (body b a)) -> guarantees (for_each l acc body).
Proof using HI.
  intros Hb. revert acc. induction l as [|a l IH]; intros acc; [apply guarantees_ret|].
  apply guarantees_bind; [apply Hb|apply IH].
Qed.

Lemma safe_query pk r f start : safe_request (Query pk r f start).
Proof. intros w [e|page] w' _; cbn; [by intros [-> _]|by intros [_ ->]]. Qed.

(** A write that touches no turn item. *)
Lemma safe_delete (k : key) (c : cond) : ~ turn_slot k.2 -> safe_request (DeleteItem k c).
Proof.
  intros Hk w [e|[]] w' _; cbn; [by intros [-> _]|]. intros [_ ->]. apply rtc_once, sys_frame.
  intros pk _ sk Hsk. cbn. rewrite lookup_delete_ne; [done|]. intros ->. by apply Hk.
Qed.

Lemma store_update_exists (xs : list action) (c : cond) : store_update xs c -> holds c ∅ = false.
Proof. by destruct 1. Qed.

Lemma safe_update (k : key) (xs : list action) (c : cond) :
  k.2 = "meta" -> store_update xs c -> safe_request (UpdateItem k xs c).
Proof.
  destruct k as [pk sk]. cbn. intros -> Hup w [e|it] w' Hok; cbn; [by intros [-> _]|].
  intros (Hc & -> & ->). unfold item_at in Hc. destruct (tbl w !! (pk, "meta")) as [it|] eqn:Hit; cbn in Hc.
  - apply rtc_once. by eapply sys_update.
  - by rewrite (store_update_exists _ _ Hup) in Hc.
Qed.

(** The identity of the turn at a key stays. *)
Definition same_identity (t t' : Turn) : Prop :=
  Turn.turnId t' = Turn.turnId t /\ Turn.tenantId t' = Turn.tenantId t /\
  Turn.channelId t' = Turn.channelId t /\ Turn.botId t' = Turn.botId t.

Lemma identity_stays w w' tenantId turnId it t :
  all_ok w -> rtc sys w w' -> tbl w !! metaKey tenantId turnId = Some it -> turnFromItem it = Some t ->
  exists it' t', tbl w' !! metaKey tenantId turnId = Some it' /\ turnFromItem it' = Some t' /\ same_identity t t' /\
    item_wf it' /\ reads it' t'.
Proof.
  intros Hok Hsys Hit Ht. pose proof (Hok (turnItemPartitionKey tenantId turnId)) as Hpk.
  unfold metaKey in *. rewrite Hit in Hpk. destruct Hpk as (s & Hrep & Hreach); [by eexists _, _|].
  destruct (syses_refine _ _ _ _ Hok Hsys Hrep (reachable_inv _ Hreach)) as (s' & Hs & it' & [Hm ? Hr _ _]).
  pose proof (represents_turn _ _ _ _ _ Hrep Hit Ht) as ->.
  exists it', (Abstract.turn s'). split_and!; try done; [by apply turnFromItem_reads|].
  apply steps_grow in Hs as (_ & _ & _ & _ & ? & ? & ? & ?). done.
Qed.

(** What a transition writes depends on the read turn only by its identity and its next sequence. *)
Lemma transition_ops_same request t t' :
  same_identity t t' -> Turn.nextEventSeq t' = Turn.nextEventSeq t -> transition_ops request t' = transition_ops request t.
Proof.
  intros (Hu & Ht & Hc & _) Hn. unfold transition_ops, transition_actions, transition_condition, transition_event.
  by rewrite Hu, Ht, Hc, Hn.
Qed.

Lemma transition_event_same request t t' :
  same_identity t t' -> Turn.nextEventSeq t' = Turn.nextEventSeq t -> transition_event request t' = transition_event request t.
Proof. intros (Hu & Ht & Hc & _) Hn. unfold transition_event. by rewrite Hu, Ht, Hc, Hn. Qed.

Lemma transact_first w o ops w' : contract (TransactWrite (o :: ops)) w (Ok tt) w' -> txop_holds w o = true.
Proof. by intros (_ & Hall%Forall_cons & _); destruct Hall. Qed.

(** The moment of a commit: the control record is owned, active and at the sequence that was read. *)
Lemma committed_at request w current w1 w2 :
  all_ok w -> committed request w current w1 w2 ->
  exists it t, tbl w1 !! metaKey (Transition.tenantId request) (Transition.turnId request) = Some it /\
    turnFromItem it = Some t /\ item_wf it /\ reads it t /\
    holds (transition_condition request t) it = true /\ same_identity current t /\
    Turn.nextEventSeq t = Turn.nextEventSeq current /\
    w2 = with_tbl w1 (foldl txop_write (tbl w1) (transition_ops request t)).
Proof using HI.
  intros Hok [(w0 & it0 & Hw0 & Hit0 & Ht0 & Hw1) Ho Ha Hh Hwr].
  assert (all_ok w0) as Hok0 by by eapply others_ok.
  destruct (identity_stays _ _ _ _ _ _ Hok0 (others_sys _ _ Hw1) Hit0 Ht0) as (it & t & Hit & Ht & Hid & Hwf & Hr).
  pose proof (transact_first _ _ _ _ Hwr) as Hc. unfold txop_holds in Hc. cbn [txop_key txop_cond] in Hc.
  unfold item_at in Hc. rewrite Hit in Hc. cbn [default] in Hc.
  destruct (transition_condition_owner it t Hwf Hr request current Hc) as (_ & _ & Hn & _).
  exists it, t. split_and!; try done.
  - unfold transition_condition in *. by rewrite Hn.
  - rewrite (transition_ops_same request current t) by done. by destruct Hwr as (_ & _ & ->).
Qed.

Lemma guarantees_clear (t : Turn) : guarantees (clearActivePointers t).
Proof using HI.
  apply guarantees_for_each. intros _ botId. apply guarantees_catch.
  - apply guarantees_retry, safe_delete. cbn. destruct botId; by apply not_slot.
  - intros []; first [apply guarantees_ret | apply guarantees_throw].
Qed.

Lemma guarantees_transition request : store_transition request -> guarantees (transition request).
Proof using HI.
  intros Hreq w o w' Hok [(er & -> & Hw)|(current & w1 & w2 & Hcom & Hafter)]%transition_exec; [by apply others_sys|].
  assert (rtc I w w1) as Hw1.
  { destruct (com_read _ _ _ _ _ Hcom) as (w0 & ? & ? & _ & _ & ?). by trans w0. }
  destruct (committed_at _ _ _ _ _ Hok Hcom) as (it & t & Hit & Ht & _ & _ & Hc & _ & _ & ->).
  assert (all_ok w1) as Hok1 by by eapply others_ok.
  assert (sys w1 (with_tbl w1 (foldl txop_write (tbl w1) (transition_ops request t)))) as Hsys by by eapply sys_transition.
  trans w1; [by apply others_sys|]. eapply rtc_l; [exact Hsys|].
  eapply (guarantees_bind (if Transition.terminal request then clearActivePointers current else Ret tt));
    [| |by eapply sys_ok|exact Hafter].
  - destruct (Transition.terminal request); [apply guarantees_clear|apply guarantees_ret].
  - intros. apply guarantees_ret.
Qed.

(** What follows a commit adds no write of the turn, and returns the event. *)
Lemma after_commit_guarantees request current : guarantees (after_commit request current).
Proof using HI.
  apply guarantees_bind; [|intros; apply guarantees_ret].
  destruct (Transition.terminal request); [apply guarantees_clear|apply guarantees_ret].
Qed.

(** The transition of a turn of the table, as a step of the machine. *)
Lemma represented_step request w1 it t :
  all_ok w1 -> tbl w1 !! metaKey (Transition.tenantId request) (Transition.turnId request) = Some it ->
  turnFromItem it = Some t -> store_transition request -> holds (transition_condition request t) it = true ->
  let pk := turnItemPartitionKey (Transition.tenantId request) (Transition.turnId request) in
  exists log t', represents w1 pk (Abstract.mk t log) /\ reachable (Abstract.mk t log) /\
    spec_step (Abstract.mk t log) (Abstract.mk t' (log ++ [transition_event request t])) /\
    represents (with_tbl w1 (foldl txop_write (tbl w1) (transition_ops request t))) pk
      (Abstract.mk t' (log ++ [transition_event request t])).
Proof using Type.
  intros Hok Hit Ht Hreq Hc pk. pose proof (Hok pk) as Hpk. unfold metaKey in Hit. fold pk in Hit. rewrite Hit in Hpk.
  destruct Hpk as ([t0 log] & Hrep & Hreach); [by eexists _, _|].
  pose proof (represents_turn _ _ _ _ _ Hrep Hit Ht) as Heq. cbn in Heq. subst t0.
  destruct (represents_reads _ _ _ _ Hrep Hit) as [Hwf Hr].
  destruct (transition_refines it t log Hwf Hr request Hreq Hc) as (Hwf' & t' & Hr' & Hstep).
  exists log, t'. split_and!; try done. rewrite (transition_ops_write _ _ _ it) by done.
  assert (turnItemPartitionKey (Turn.tenantId t) (Turn.turnId t) = pk) as -> by by destruct Hrep as [? []].
  apply step_ids in Hstep as [? ?].
  eapply (represents_logged w1 pk t t' log _ _ _ _ (fun m => m)); try done. by apply reachable_inv.
Qed.

Lemma grant_ops_same tenantId turnId g body id x t t' :
  same_identity t t' -> Turn.nextEventSeq t' = Turn.nextEventSeq t ->
  grant_ops tenantId turnId g body id x t' = grant_ops tenantId turnId g body id x t.
Proof.
  intros (Hu & Ht & Hc & _) Hn. unfold grant_ops, grant_event. by rewrite Hu, Ht, Hc, Hn.
Qed.

Lemma guarantees_replaceGrant tenantId turnId g body id x : guarantees (replaceGrant tenantId turnId g body id x).
Proof using HI.
  intros w o w' Hok [(er & -> & Hw)|(cur & w0 & it0 & w1 & w2 & Hw0 & Hit0 & Ht0 & _ & Hw1 & Hwr & -> & Hw2)]%replaceGrant_exec;
    [by apply others_sys|].
  assert (all_ok w0) as Hok0 by by eapply others_ok.
  destruct (identity_stays _ _ _ _ _ _ Hok0 (others_sys _ _ Hw1) Hit0 Ht0) as (it & t & Hit & Ht & Hid & Hwf & Hr).
  pose proof (transact_first _ _ _ _ Hwr) as Hc. unfold txop_holds in Hc. cbn [txop_key txop_cond] in Hc.
  unfold item_at in Hc. rewrite Hit in Hc. cbn [default] in Hc.
  assert (Turn.nextEventSeq t = Turn.nextEventSeq cur) as Hn.
  { unfold status_active, default in Hc. cbn [holds from_option Datatypes.id] in Hc. rewrite andb_true_iff, !bool_decide_eq_true in Hc.
    destruct Hc as [_ Hseq]. by rewrite (number_reads _ _ _ _ _ Hseq (r_next _ _ Hr)). }
  destruct Hwr as (_ & _ & ->). rewrite <- (grant_ops_same _ _ _ _ _ _ _ _ Hid Hn) in Hw2.
  trans w1; [apply others_sys; by trans w0|]. eapply rtc_l; [|by apply others_sys].
  eapply sys_grant; [done..|]. by rewrite Hn.
Qed.

Lemma guarantees_null_when {A : Type} (p : prog A) : guarantees p -> guarantees (null_when_condition_fails p).
Proof using HI.
  intros Hp. apply guarantees_catch; [apply guarantees_bind; [done|intros; apply guarantees_ret]|].
  intros []; first [apply guarantees_ret | apply guarantees_throw].
Qed.

Lemma guarantees_update (k : key) (xs : list action) (c : cond) :
  k.2 = "meta" -> store_update xs c ->
  guarantees (null_when_condition_fails (let! it := retryTransient (send (UpdateItem k xs c)) in decode_turn it)).
Proof using HI.
  intros Hk Hup. apply guarantees_null_when, guarantees_bind; [by apply guarantees_retry, safe_update|].
  intros it. apply silent_guarantees, silent_decode_turn.
Qed.

Lemma guarantees_fenced {A : Type} tenantId turnId a (p : prog A) : guarantees p -> guarantees (fenced tenantId turnId a p).
Proof using HI.
  intros Hp. apply guarantees_catch; [apply guarantees_bind; [done|intros; apply guarantees_ret]|].
  intros []; try apply guarantees_throw. apply guarantees_bind; [|intros; apply guarantees_throw].
  apply silent_guarantees, silent_rejection.
Qed.

Lemma guarantees_recordLogicalEnqueue tenantId turnId id : guarantees (recordLogicalEnqueueOnTurn tenantId turnId id).
Proof using HI.
  apply guarantees_bind.
  - apply guarantees_null_when, guarantees_retry, safe_update; [done|constructor].
  - intros [it|]; [apply guarantees_ret|]. apply guarantees_bind; [apply silent_guarantees, silent_get|].
    intros [it|]; [apply guarantees_ret|apply guarantees_throw].
Qed.

Lemma guarantees_query_pages {B : Type} (decode : item -> exn + B) pk r f start fuel :
  guarantees (query_pages decode pk r f start fuel).
Proof using HI.
  revert start. induction fuel as [|fuel IH]; intros start; [apply guarantees_throw|].
  apply guarantees_bind; [apply guarantees_send, safe_query|]. intros page. apply guarantees_bind.
  - apply guarantees_for_each. intros es it. destruct (decode it); [apply guarantees_throw|apply guarantees_ret].
  - intros es. destruct page.2; [|apply guarantees_ret]. apply guarantees_bind; [apply IH|intros; apply guarantees_ret].
Qed.
End guarantees.
End programs.

(** ** Updates as steps of the machine *)

Section updates.
Context `{Collation} `{Service} (I : World -> World -> Prop) (HI : forall w w', I w w' -> sys w w').

(** An update that went through was one step of the turn, and answered with the turn after it. *)
Lemma update_commits tenantId turnId xs c w w1 it0 :
  let k := metaKey tenantId turnId in let pk := turnItemPartitionKey tenantId turnId in
  all_ok w -> rtc I w w1 -> store_update xs c -> holds c (item_at w1 k) = true ->
  it0 = apply_actions xs (base_item k (tbl w1 !! k)) ->
  exists it t t' log, tbl w1 !! k = Some it /\ it0 = apply_actions xs it /\ item_wf it /\ reads it t /\
    represents w1 pk (Abstract.mk t log) /\ reachable (Abstract.mk t log) /\ holds c it = true /\
    turnFromItem it0 = Some t' /\ spec_step (Abstract.mk t log) (Abstract.mk t' log) /\ reads it0 t' /\
    let w2 := with_tbl w1 (<[k := it0]> (tbl w1)) in represents w2 pk (Abstract.mk t' log) /\ sys w1 w2.
Proof using HI.
  intros k pk Hok Hw1 Hup Hc Heq. assert (all_ok w1) as Hok1 by by eapply others_ok.
  unfold item_at in Hc. destruct (tbl w1 !! k) as [it|] eqn:Hit; cbn in Hc, Heq;
    [|by rewrite (store_update_exists _ _ Hup) in Hc].
  pose proof (Hok1 pk) as Hpk. assert (tbl w1 !! (pk, "meta") = Some it) as Hit' by done. rewrite Hit' in Hpk.
  destruct Hpk as ([t log] & Hrep & Hreach); [by eexists _, _|].
  destruct (represents_reads _ _ _ _ Hrep Hit') as [Hwf Hr].
  destruct (update_refines it t log Hwf Hr xs c Hup Hc) as (Hwf' & t' & Hr' & Hstep). subst it0.
  exists it, t, t', log. split_and!; try done; [by apply turnFromItem_reads|cbv zeta; split].
  - pose proof (step_ids _ _ Hstep) as [? ?]. by eapply represents_changed.
  - by eapply sys_update.
Qed.

(** An update whose condition failed found no turn, or a turn of which the condition does not hold. *)
Lemma update_refused tenantId turnId c w w1 :
  let k := metaKey tenantId turnId in let pk := turnItemPartitionKey tenantId turnId in
  all_ok w -> rtc I w w1 -> holds c (item_at w1 k) = false ->
  tbl w1 !! k = None \/
  exists it t log, tbl w1 !! k = Some it /\ item_wf it /\ reads it t /\ holds c it = false /\
    represents w1 pk (Abstract.mk t log) /\ reachable (Abstract.mk t log).
Proof using HI.
  intros k pk Hok Hw1 Hc. assert (all_ok w1) as Hok1 by by eapply others_ok. unfold item_at in Hc.
  destruct (tbl w1 !! k) as [it|] eqn:Hit; [right|by left]. cbn in Hc.
  pose proof (Hok1 pk) as Hpk. assert (tbl w1 !! (pk, "meta") = Some it) as Hit' by done. rewrite Hit' in Hpk.
  destruct Hpk as ([t log] & Hrep & Hreach); [by eexists _, _|].
  destruct (represents_reads _ _ _ _ Hrep Hit') as [Hwf Hr]. exists it, t, log. by split_and!.
Qed.
End updates.

(** ** All methods of the store *)

(** The methods of [DynamoTurnControlStore]. An attempt has a name, a gate has a name, and the events that say how a turn
    ended are left to the methods that end it. *)
Inductive store_program `{Collation} : forall {A : Type}, prog A -> Prop :=
| prog_getTurn tenantId turnId : store_program (getTurn tenantId turnId)
| prog_claimTurn tenantId turnId a claimedBy now lease deadline :
    a <> EmptyString -> store_program (claimTurn tenantId turnId a claimedBy now lease deadline)
| prog_renewTurn tenantId turnId a lease deadline : store_program (renewTurn tenantId turnId a lease deadline)
| prog_recordStorageFence tenantId turnId a fence : store_program (recordStorageFence tenantId turnId a fence)
| prog_beginClosing tenantId turnId a : store_program (beginClosing tenantId turnId a)
| prog_appendEvent tenantId turnId a d id x :
    ending_kind (Draft.kind d) = false -> store_program (appendEvent tenantId turnId a d id x)
| prog_completeTurn tenantId turnId a seq body id x : store_program (completeTurn tenantId turnId a seq body id x)
| prog_failTurn tenantId turnId a reason id x : store_program (failTurn tenantId turnId a reason id x)
| prog_parkTurn tenantId turnId a gate tool now id x :
    gate <> EmptyString -> store_program (parkTurn tenantId turnId a gate tool now id x)
| prog_resumeTurn tenantId turnId : store_program (resumeTurn tenantId turnId)
| prog_reconcileTurn tenantId turnId a reason id x : store_program (reconcileTurn tenantId turnId a reason id x)
| prog_recoverExpiredTurn tenantId turnId observed now deadline :
    store_program (recoverExpiredTurn tenantId turnId observed now deadline)
| prog_failStaleTurn tenantId turnId observed condition now reason id x :
    store_program (failStaleTurn tenantId turnId observed condition now reason id x)
| prog_relinquishTurn tenantId turnId a id x : store_program (relinquishTurn tenantId turnId a id x)
| prog_recordLogicalEnqueue tenantId turnId id : store_program (recordLogicalEnqueue tenantId turnId id)
| prog_listEvents pages tenantId turnId afterSeq : store_program (listEvents pages tenantId turnId afterSeq)
| prog_getGrant tenantId turnId : store_program (getGrant tenantId turnId)
| prog_replaceGrant tenantId turnId g body id x : store_program (replaceGrant tenantId turnId g body id x)
| prog_pointedTurn tenantId channelId pointer botId : store_program (pointedTurn tenantId channelId pointer botId).

Section store.
Context `{Collation} `{Service} (I : World -> World -> Prop) (HI : forall w w', I w w' -> sys w w').

Lemma store_program_guarantees {A : Type} (p : prog A) : store_program p -> guarantees I p.
Proof using HI.
  destruct 1;
    try (by apply (guarantees_update I HI); [done|constructor]);
    try (by apply (guarantees_transition I HI); constructor).
  - apply (silent_guarantees I HI), silent_getTurn.
  - by apply (guarantees_fenced I HI), (guarantees_retry I HI), safe_update; [done|econstructor].
  - by apply (guarantees_fenced I HI), (guarantees_retry I HI), safe_update; [done|econstructor].
  - apply (guarantees_catch I HI).
    + apply (guarantees_bind I HI); [apply (guarantees_transition I HI); constructor|].
      intros. by apply guarantees_ret.
    + intros []; by (apply guarantees_ret || apply guarantees_throw).
  - by apply guarantees_recordLogicalEnqueue.
  - by apply guarantees_query_pages.
  - apply (silent_guarantees I HI), silent_bind; [apply silent_get|]. intros [it|]; [|apply silent_ret].
    destruct (decodeGrant it); [apply silent_ret|apply silent_throw].
  - by apply guarantees_replaceGrant.
  - apply (silent_guarantees I HI), silent_bind; [apply silent_get|]. intros o.
    destruct (o ≫= _); [apply silent_getTurn|apply silent_ret].
Qed.
End store.
