(* ===== verification/Mailbox.v ===== *)
(** * The mailbox of a bot session

    src/conversation/src/pi/mailbox.ts: the sequence counter of a channel, and the inbound messages of one bot on one
    channel, one item per message, ordered by sequence. *)

From S2P Require Import Prelude Json Types Service Retry Paging TurnCodec.
From stdpp Require Import sorting.
From Stdlib Require Import Sorted.
#[local] Open Scope Z_scope.
#[local] Open Scope cond_scope.
#[local] Open Scope prog_scope.

Module MailboxItem.
Record MailboxItem : Type := mk {
  tenantId : string;
  botId : string;
  channelId : string;
  seq : Z;
  messageId : string;
  authorKind : string;
  authorId : string;
  addressedToBotId : option string;
  body : string;
  createdAt : string;
}.
End MailboxItem.
Abbreviation MailboxItem := MailboxItem.MailboxItem.

Definition mailboxPartitionKey (tenantId botId channelId : string) : string :=
  "MB#" +:+ tenantId +:+ "#" +:+ botId +:+ "#" +:+ channelId.

Definition mailboxSortKey (seq : Z) : string := padded seq.

(** Allocate the next message sequence of a channel. *)
Definition allocateSeq (tenantId channelId : string) : prog Z :=
  let! attributes := send (UpdateItem (tenantId +:+ "#channel#" +:+ channelId, "meta")
    [INCREMENT "next_seq" 1 1] CTrue) in
  match required_number attributes "next_seq" with
  | None => Throw (JsError ("seq allocation returned no value for channel " +:+ channelId))
  | Some updated => Ret (updated - 1)
  end.

Definition mailboxItemAttributes (m : MailboxItem) : item :=
  list_to_map [
    ("pk", AS (mailboxPartitionKey (MailboxItem.tenantId m) (MailboxItem.botId m) (MailboxItem.channelId m)));
    ("sk", AS (mailboxSortKey (MailboxItem.seq m)));
    ("tenant_id", AS (MailboxItem.tenantId m));
    ("bot_id", AS (MailboxItem.botId m));
    ("channel_id", AS (MailboxItem.channelId m));
    ("seq", AN (MailboxItem.seq m));
    ("message_id", AS (MailboxItem.messageId m));
    ("author_kind", AS (MailboxItem.authorKind m));
    ("author_id", AS (MailboxItem.authorId m));
    ("addressed_to_bot_id", AS (default "" (MailboxItem.addressedToBotId m)));
    ("body", AS (MailboxItem.body m));
    ("created_at", AS (MailboxItem.createdAt m))].

(** The slot is free or already holds this very message. *)
Definition MAILBOX_PUT_CONDITION (messageId : string) : cond :=
  AttrNotExists "sk" OR AttrEq "message_id" (AS messageId).

Definition mailbox_taken (seq : Z) : exn :=
  JsError ("mailbox seq " +:+ dec seq +:+ " already holds a different message").

Definition put (m : MailboxItem) : prog unit :=
  catch (send (PutItem (mailboxItemAttributes m) (MAILBOX_PUT_CONDITION (MailboxItem.messageId m))))
    (fun error => match error with
                  | ConditionalCheckFailedException => Throw (mailbox_taken (MailboxItem.seq m))
                  | _ => Throw error
                  end).

(** One listed item. A sequence that is not there reads as [NaN] in the source, which no item this program writes has. *)
Definition mailbox_of_item (tenantId botId channelId : string) (raw : item) : exn + MailboxItem :=
  let text name := default "" (required_string raw name) in
  let addressed := text "addressed_to_bot_id" in
  match required_number raw "seq" with
  | None => Err (MalformedItem "mailbox item")
  | Some seq =>
      Ok (MailboxItem.mk tenantId botId channelId seq (text "message_id") (text "author_kind") (text "author_id")
            (if decide (addressed = "") then None else Some addressed) (text "body") (text "created_at"))
  end.

Definition mailbox_list (pages : nat) (tenantId botId channelId : string) (afterSeq : Z) : prog (list MailboxItem) :=
  query_pages (mailbox_of_item tenantId botId channelId) (mailboxPartitionKey tenantId botId channelId)
    (Above (mailboxSortKey afterSeq)) CTrue None pages.

Definition remove (m : MailboxItem) : prog unit :=
  send (DeleteItem
    (mailboxPartitionKey (MailboxItem.tenantId m) (MailboxItem.botId m) (MailboxItem.channelId m),
     mailboxSortKey (MailboxItem.seq m)) CTrue).

(** Hand every item to the handler in order, deleting each one only after its handler resolved. *)
Definition drain (pages : nat) (tenantId botId channelId : string) (handler : MailboxItem -> prog unit) : prog Z :=
  let! items := mailbox_list pages tenantId botId channelId 0 in
  for_each items 0 (fun drained m =>
    handler m ;;; remove m ;;; Ret (drained + 1)).

(** ** Lemmas *)

Lemma mailboxItem_key (m : MailboxItem) :
  item_key (mailboxItemAttributes m) =
  Some (mailboxPartitionKey (MailboxItem.tenantId m) (MailboxItem.botId m) (MailboxItem.channelId m),
        mailboxSortKey (MailboxItem.seq m)).
Proof. done. Qed.

(** A message that names its addressee, or has none, reads back as it was put. *)
Lemma mailbox_of_item_attributes (m : MailboxItem) :
  MailboxItem.addressedToBotId m <> Some "" ->
  mailbox_of_item (MailboxItem.tenantId m) (MailboxItem.botId m) (MailboxItem.channelId m) (mailboxItemAttributes m) =
  Ok m.
Proof.
  intros Ha. unfold mailbox_of_item.
  change (required_number (mailboxItemAttributes m) "seq") with (Some (MailboxItem.seq m)).
  change (required_string (mailboxItemAttributes m) "addressed_to_bot_id")
    with (Some (default "" (MailboxItem.addressedToBotId m))).
  destruct m as [te b c n i k u [a|] bo cr]; [|reflexivity].
  assert (a <> "") as Hne by (intros ->; by apply Ha). change (default "" (MailboxItem.addressedToBotId _)) with a.
  rewrite decide_False by done. reflexivity.
Qed.

(** ** Listing *)

(** Every item of a mailbox is that of a message of this mailbox, under the message's key, with a sequence of at most ten
    digits and no empty addressee. *)
Record mailbox_entry (tenantId botId channelId sk : string) (it : item) (m : MailboxItem) : Prop := {
  entry_item : it = mailboxItemAttributes m;
  entry_tenant : MailboxItem.tenantId m = tenantId;
  entry_bot : MailboxItem.botId m = botId;
  entry_channel : MailboxItem.channelId m = channelId;
  entry_sk : sk = mailboxSortKey (MailboxItem.seq m);
  entry_seq : 0 <= MailboxItem.seq m < 10 ^ 10;
  entry_addressee : MailboxItem.addressedToBotId m <> Some "";
}.

Definition mailbox_ok (w : World) (tenantId botId channelId : string) : Prop :=
  forall sk it, tbl w !! (mailboxPartitionKey tenantId botId channelId, sk) = Some it ->
    exists m, mailbox_entry tenantId botId channelId sk it m.

(** The messages of a mailbox. *)
Definition in_mailbox (w : World) (m : MailboxItem) : Prop :=
  tbl w !! (mailboxPartitionKey (MailboxItem.tenantId m) (MailboxItem.botId m) (MailboxItem.channelId m),
            mailboxSortKey (MailboxItem.seq m)) = Some (mailboxItemAttributes m).

Lemma mailboxSortKey_ltb (n m : Z) :
  0 <= n < 10 ^ 10 -> 0 <= m < 10 ^ 10 -> String.ltb (mailboxSortKey n) (mailboxSortKey m) = true <-> n < m.
Proof.
  intros Hn Hm. pose proof (turnEventSortKey_compare n m Hn Hm) as Hc. unfold turnEventSortKey in Hc.
  rewrite compare_app in Hc. unfold mailboxSortKey. by rewrite ltb_compare, Hc, Z.compare_lt_iff.
Qed.

(** Decoding the items of entries gives the entries. *)
Lemma decode_entries tenantId botId channelId (ks : list (string * item)) (ms : list MailboxItem) :
  Forall2 (fun k m => mailbox_entry tenantId botId channelId k.1 k.2 m) ks ms ->
  decode_all (mailbox_of_item tenantId botId channelId) ks.*2 = Ok ms.
Proof.
  induction 1 as [|[sk it] m ks ms [Hit <- <- <- _ _ Ha] _ IH]; [done|]. cbn in Hit. subst it.
  cbn [fmap list_fmap fst snd decode_all].
  rewrite mailbox_of_item_attributes by done. by rewrite IH.
Qed.

Lemma entries_of w tenantId botId channelId r f start :
  mailbox_ok w tenantId botId channelId ->
  exists ms, Forall2 (fun k m => mailbox_entry tenantId botId channelId k.1 k.2 m)
               (select w (mailboxPartitionKey tenantId botId channelId) r f start) ms.
Proof.
  intros Hok.
  assert (forall k, k ∈ select w (mailboxPartitionKey tenantId botId channelId) r f start ->
    exists m, mailbox_entry tenantId botId channelId k.1 k.2 m) as Hall.
  { intros [sk it] [(Hit & _) _]%elem_of_select. by apply Hok in Hit. }
  induction (select w _ r f start) as [|k ks IH]; [by exists []|].
  destruct (Hall k) as [m Hm]; [by left|]. destruct IH as [ms Hms]; [intros k' Hk'; apply Hall; by right|].
  exists (m :: ms). by constructor.
Qed.

Lemma entries_sorted tenantId botId channelId ks ms :
  Forall2 (fun k m => mailbox_entry tenantId botId channelId k.1 k.2 m) ks ms ->
  StronglySorted sk_lt ks -> StronglySorted (fun a b => MailboxItem.seq a < MailboxItem.seq b) ms.
Proof.
  induction 1 as [|k m ks ms Hm Hms IH]; [constructor|]. intros Hs. apply Sorted.StronglySorted_inv in Hs as [Hs Hall].
  constructor; [by apply IH|]. clear IH Hs. induction Hms as [|k' m' ks ms Hm' _ IH]; constructor.
  - apply Forall_cons in Hall as [Hlt _]. unfold sk_lt in Hlt. destruct Hm, Hm'. subst.
    rewrite entry_sk0, entry_sk1, mailboxSortKey_ltb in Hlt; done.
  - apply Forall_cons in Hall as [_ Hall]. by apply IH.
Qed.

(** The messages of a quiet mailbox after a sequence, as a list: each of them once, in the order of their sequences. *)
Definition listing (w : World) (tenantId botId channelId : string) (afterSeq : Z) (ms : list MailboxItem) : Prop :=
  StronglySorted (fun a b => MailboxItem.seq a < MailboxItem.seq b) ms /\
  forall m, m ∈ ms <->
    in_mailbox w m /\ MailboxItem.tenantId m = tenantId /\ MailboxItem.botId m = botId /\
    MailboxItem.channelId m = channelId /\ 0 <= MailboxItem.seq m < 10 ^ 10 /\
    MailboxItem.addressedToBotId m <> Some "" /\ afterSeq < MailboxItem.seq m.

Lemma mailboxItemAttributes_inj m m' :
  MailboxItem.addressedToBotId m <> Some "" -> MailboxItem.addressedToBotId m' <> Some "" ->
  MailboxItem.tenantId m = MailboxItem.tenantId m' -> MailboxItem.botId m = MailboxItem.botId m' ->
  MailboxItem.channelId m = MailboxItem.channelId m' -> mailboxItemAttributes m = mailboxItemAttributes m' -> m = m'.
Proof.
  intros H1%mailbox_of_item_attributes H2%mailbox_of_item_attributes E1 E2 E3 Heq.
  rewrite E1, E2, E3, Heq in H1. congruence.
Qed.

Lemma mailbox_listing w tenantId botId channelId afterSeq :
  mailbox_ok w tenantId botId channelId -> 0 <= afterSeq < 10 ^ 10 ->
  exists ms, listing w tenantId botId channelId afterSeq ms /\
    decode_all (mailbox_of_item tenantId botId channelId)
      (select w (mailboxPartitionKey tenantId botId channelId) (Above (mailboxSortKey afterSeq)) CTrue None).*2 = Ok ms.
Proof.
  intros Hok Hseq. destruct (entries_of w tenantId botId channelId (Above (mailboxSortKey afterSeq)) CTrue None Hok) as [ms Hms].
  exists ms. split; [|by apply decode_entries]. split; [by eapply entries_sorted, select_strictly_sorted|].
  intros m. split.
  - intros Hm. apply list_elem_of_lookup in Hm as [i Hi].
    destruct (Forall2_lookup_r _ _ _ _ _ Hms Hi) as ([sk it] & Hk & [Hit <- <- <- Hsk ? ?]).
    cbn in Hit, Hsk. subst sk it.
    apply list_elem_of_lookup_2, elem_of_select in Hk as [(Hin & _ & Hr & _) _]. cbn in Hr.
    split_and!; try (done || lia). by apply mailboxSortKey_ltb.
  - intros (Hin & <- & <- & <- & Hs & Ha & Hlt).
    assert ((mailboxSortKey (MailboxItem.seq m), mailboxItemAttributes m) ∈
      select w (mailboxPartitionKey (MailboxItem.tenantId m) (MailboxItem.botId m) (MailboxItem.channelId m))
        (Above (mailboxSortKey afterSeq)) CTrue None) as Hsel.
    { apply elem_of_select. split; [|done]. split_and!; try done. by apply mailboxSortKey_ltb. }
    apply list_elem_of_lookup in Hsel as [i Hi]. destruct (Forall2_lookup_l _ _ _ _ _ Hms Hi) as (m' & Hm' & [Hit ? ? ? ? ? ?]).
    cbn in *. assert (m = m') as -> by by apply mailboxItemAttributes_inj. by eapply list_elem_of_lookup_2.
Qed.

(** ** Sequences *)

(** An allocation returns the counter and moves it on. *)
Lemma allocateSeq_exec `{Service} (I : World -> World -> Prop) tenantId channelId w v w' :
  let k := (tenantId +:+ "#channel#" +:+ channelId, "meta") in
  let next w := match item_at w k !! "next_seq" with Some (AN n) => n | _ => 1 end in
  exec I (allocateSeq tenantId channelId) w (Ok v) w' ->
  exists w1 w2, rtc I w w1 /\ v = next w1 /\ next w2 = v + 1 /\ rtc I w2 w'.
Proof.
  intros k next [(it & w1 & (w2 & w3 & Hw2 & (_ & -> & ->)%respond_contract & Hw3)%exec_send & Hrest)|(e & [=] & _)]%exec_bind.
  fold k in Hw3, Hrest. assert (apply_actions [INCREMENT "next_seq" 1 1] (base_item k (tbl w2 !! k)) !! "next_seq" =
    Some (AN (next w2 + 1))) as Hn.
  { unfold next, item_at, apply_actions. cbn [foldl apply_action].
    destruct (tbl w2 !! k) as [it|]; cbn [base_item default from_option]; [|done]. unfold base_item, default, id. cbn.
    destruct (it !! "next_seq") as [[]|]; by rewrite lookup_insert_eq. }
  unfold required_number in Hrest. rewrite Hn in Hrest. destruct Hrest as [[= ->] Hw'].
  exists w2, (with_tbl w2 (<[k := apply_actions [INCREMENT "next_seq" 1 1] (base_item k (tbl w2 !! k))]> (tbl w2))).
  split_and!; [done|lia| |by trans w1].
  unfold next at 1, item_at. cbn [tbl with_tbl]. rewrite lookup_insert_eq. unfold default, id. cbn [from_option].
  rewrite Hn. lia.
Qed.

(** ** Draining *)

Section drain.
Context `{Service} (I : World -> World -> Prop).
Context (tenantId botId channelId : string) (handler : MailboxItem -> prog unit).
Abbreviation pk := (mailboxPartitionKey tenantId botId channelId).

(** [handled m]: what the handler leaves behind when it resolved for [m], which nothing undoes. *)
Context (handled : MailboxItem -> World -> Prop).
Context (Hquiet : quiet I pk).
Context (Hhandler_quiet : forall m w o w', exec I (handler m) w o w' ->
  forall sk, tbl w' !! (pk, sk) = tbl w !! (pk, sk)).
Context (Hhandled : forall m w w', exec I (handler m) w (Ok tt) w' -> handled m w').
Context (Hstable_others : forall m w w', I w w' -> handled m w -> handled m w').
Context (Hstable_handler : forall m m' w o w', exec I (handler m') w o w' -> handled m w -> handled m w').
Context (Hstable_remove : forall m w sk, handled m w -> handled m (with_tbl w (delete (pk, sk) (tbl w)))).

Lemma handled_others m w w' : rtc I w w' -> handled m w -> handled m w'.
Proof using Hstable_others. induction 1; eauto. Qed.

(** The mailbox after the first messages were removed. *)
Definition without (removed : list MailboxItem) (w w' : World) : Prop :=
  forall sk, tbl w' !! (pk, sk) =
    if decide (sk ∈ mailboxSortKey ∘ MailboxItem.seq <$> removed) then None else tbl w !! (pk, sk).

Lemma without_same removed w w1 w2 :
  (forall sk, tbl w2 !! (pk, sk) = tbl w1 !! (pk, sk)) -> without removed w w1 -> without removed w w2.
Proof using Type. intros Hs Hw sk. by rewrite Hs. Qed.

Lemma drain_loop (ms : list MailboxItem) (n : Z) w o w' :
  Forall (fun m => MailboxItem.tenantId m = tenantId /\ MailboxItem.botId m = botId /\ MailboxItem.channelId m = channelId) ms ->
  exec I (for_each ms n (fun drained m => handler m ;;; remove m ;;; Ret (drained + 1))) w o w' ->
  exists removed rest, ms = removed ++ rest /\ without removed w w' /\
    Forall (fun m => handled m w') removed /\
    (forall m, handled m w -> handled m w') /\
    match o with Ok k => rest = [] /\ k = n + Z.of_nat (length removed) | Err _ => rest <> [] end.
Proof using All.
  intros Hms. revert n w. induction Hms as [|m ms Hm Hms IH]; intros n w; cbn [for_each].
  { intros [-> Hw]. exists [], []. split_and!; try done.
    - intros sk. cbn. rewrite decide_False by set_solver. by eapply quiet_others.
    - intros m. by apply handled_others.
    - cbn. lia. }
  destruct Hm as (Ht & Hb & Hc).
  intros [(n' & w1 & Hone & Hrest)|(e & -> & Hone)]%exec_bind.
  - apply exec_bind in Hone as [([] & w2 & Hh & Hone)|(e & [=] & _)].
    apply exec_bind in Hone as [([] & w3 & Hr & [[= ->] Hw3])|(e & [=] & _)].
    apply exec_send in Hr as (w4 & w5 & Hw4 & [_ ->]%respond_contract & Hw5). rewrite Ht, Hb, Hc in Hw5.
    destruct (IH _ _ Hrest) as (removed & rest & -> & Hwo & Hall & Hkeep & Ho).
    assert (forall m', handled m' w2 -> handled m' w1) as Hk2.
    { intros m' Hm'. eapply handled_others; [by trans w3|]. apply Hstable_remove. by eapply handled_others. }
    exists (m :: removed), rest. split_and!; try done.
    + intros sk. rewrite Hwo. cbn. rewrite (quiet_others _ _ _ _ sk Hquiet Hw3), (quiet_others _ _ _ _ sk Hquiet Hw5). cbn.
      destruct (decide (sk = mailboxSortKey (MailboxItem.seq m))) as [->|Hne].
      * rewrite lookup_delete_eq. rewrite (decide_True _ _ (P := _ ∈ _ :: _)) by by left. by destruct (decide _).
      * rewrite lookup_delete_ne by congruence.
        rewrite (quiet_others _ _ _ _ sk Hquiet Hw4), (Hhandler_quiet _ _ _ _ Hh sk).
        by destruct (decide (sk ∈ _)), (decide (sk ∈ _ :: _)) as [Hin|]; set_solver.
    + constructor; [|done]. by eapply Hkeep, Hk2, Hhandled.
    + intros m' Hm'. apply Hkeep, Hk2. by eapply Hstable_handler.
    + destruct o; [done|]. destruct Ho as [-> ->]. split; [done|]. cbn. lia.
  - exists [], (m :: ms). apply exec_bind in Hone as [([] & w2 & Hh & Hone)|(e' & [= <-] & Hh)].
    + apply exec_bind in Hone as [([] & w3 & _ & [[=] _])|(e' & [= <-] & [Hw _]%exec_send_fails)].
      split_and!; try done.
      * intros sk. cbn. rewrite decide_False by set_solver.
        by rewrite (quiet_others _ _ _ _ sk Hquiet Hw), (Hhandler_quiet _ _ _ _ Hh sk).
      * intros m' Hm'. eapply handled_others; [done|]. by eapply Hstable_handler.
    + split_and!; try done.
      * intros sk. cbn. rewrite decide_False by set_solver. by apply (Hhandler_quiet _ _ _ _ Hh sk).
      * intros m' Hm'. by eapply Hstable_handler.
Qed.
End drain.
