(* ===== verification/Admission.v ===== *)
(** * Admitting a message to a turn

    [DynamoTurnAdmission] of src/conversation/src/store/turn-admission-store.ts: look up the open turn of a bot on a
    channel, start a turn with its record, its first event, its pointers and its grant in one transaction, or hand a
    message to a turn that is still active and not closing. *)

From S2P Require Import Prelude Json Dates Types Service Retry Paging TurnCodec Grant TurnStore Turns TurnSpec.
From S2P Require Import TurnRefine TurnSystem TurnPrograms Mailbox.
#[local] Open Scope Z_scope.
#[local] Open Scope cond_scope.
#[local] Open Scope prog_scope.



Module OpenTurnState.
Record OpenTurnState : Type := mk { pointerTurnId : string; active : bool; closing : bool }.
End OpenTurnState.
Abbreviation OpenTurnState := OpenTurnState.OpenTurnState.

Module StartTurnRequest.
Record StartTurnRequest : Type := mk {
  tenantId : string;
  channelId : string;
  botId : string;
  turnId : string;
  promptMessageSeq : Z;
  promptAuthorId : string;
  grant : option TaskCapabilityGrant;
  createdAt : Z;
  startedEventId : string;
  expectedPointerTurnId : option string;
}.
End StartTurnRequest.
Abbreviation StartTurnRequest := StartTurnRequest.StartTurnRequest.

Definition activeTurnPointerKey (tenantId channelId botId : string) : key :=
  turnPointerKey tenantId channelId PointerActive (Some botId).

Definition pointerItem (k : key) (r : StartTurnRequest) : item :=
  list_to_map [
    ("pk", AS k.1); ("sk", AS k.2);
    ("tenant_id", AS (StartTurnRequest.tenantId r)); ("channel_id", AS (StartTurnRequest.channelId r));
    ("bot_id", AS (StartTurnRequest.botId r)); ("turn_id", AS (StartTurnRequest.turnId r))].

Definition openTurn (tenantId channelId botId : string) : prog (option OpenTurnState) :=
  let! pointer := send (GetItem (activeTurnPointerKey tenantId channelId botId)) in
  match (pointer ≫= fun it => required_string it "turn_id") with
  | None => Ret None
  | Some pointerTurnId =>
      let! turn := send (GetItem (metaKey tenantId pointerTurnId)) in
      Ret (Some (OpenTurnState.mk pointerTurnId
        (bool_decide ((turn ≫= fun it => required_string it "status") = Some "active"))
        (bool_decide ((turn ≫= fun it => it !! "closing") = Some (ABOOL true)))))
  end.

(** The control record of a new turn. *)
Definition start_item (r : StartTurnRequest) : item :=
  list_to_map [
    ("pk", AS (turnItemPartitionKey (StartTurnRequest.tenantId r) (StartTurnRequest.turnId r)));
    ("sk", AS "meta");
    ("tenant_id", AS (StartTurnRequest.tenantId r));
    ("turn_id", AS (StartTurnRequest.turnId r));
    ("channel_id", AS (StartTurnRequest.channelId r));
    ("bot_id", AS (StartTurnRequest.botId r));
    ("status", ACTIVE_STATUS);
    ("prompt_message_seq", AN (StartTurnRequest.promptMessageSeq r));
    ("prompt_author_id", AS (StartTurnRequest.promptAuthorId r));
    ("attempt", AN 0);
    ("next_event_seq", AN 2);
    ("recovery_attempts", AN 0);
    ("created_at", AS (formatIsoDateTime (StartTurnRequest.createdAt r)))].

Definition started_event (r : StartTurnRequest) : TurnEvent :=
  TurnEvent.mk (StartTurnRequest.startedEventId r) (StartTurnRequest.tenantId r) (StartTurnRequest.turnId r)
    (StartTurnRequest.channelId r) 1 (Draft.only TurnStarted).

Section admission.
Context `{Collation}.

Definition start_ops (r : StartTurnRequest) : list txop :=
  let tenantId := StartTurnRequest.tenantId r in
  let channelId := StartTurnRequest.channelId r in
  let botId := StartTurnRequest.botId r in
  let put_pointer k c := TPut (pointerItem k r) c in
  match StartTurnRequest.grant r with
  | None => []
  | Some g => [TPut (encodeGrant tenantId (StartTurnRequest.turnId r) g) CTrue]
  end ++
  [TPut (start_item r) (AttrNotExists "pk");
   put_pointer (activeTurnPointerKey tenantId channelId botId)
     (match StartTurnRequest.expectedPointerTurnId r with
      | None => AttrNotExists "pk"
      | Some expected => AttrEq "turn_id" (AS expected)
      end);
   put_pointer (turnPointerKey tenantId channelId PointerLatest (Some botId)) CTrue;
   put_pointer (turnPointerKey tenantId channelId PointerActive None) CTrue;
   put_pointer (turnPointerKey tenantId channelId PointerLatest None) CTrue;
   TPut (turnEventItem (started_event r) (StartTurnRequest.createdAt r + TURN_EVENT_TTL_SECONDS * 1000))
     (AttrNotExists "pk")].

Definition startTurn (r : StartTurnRequest) : prog bool :=
  catch (retryTransient (send (TransactWrite (start_ops r))) ;;; Ret true)
    (fun error => match error with TransactionCanceledException _ => Ret false | _ => Throw error end).

(** [recordLogicalEnqueue] is that of the turn control store. *)
Definition admission_recordLogicalEnqueue := recordLogicalEnqueueOnTurn.

Definition steer_ops (turnId : string) (m : MailboxItem) : list txop :=
  [TCheck (metaKey (MailboxItem.tenantId m) turnId) (status_active AND AttrNotExists "closing");
   TPut (mailboxItemAttributes m) (MAILBOX_PUT_CONDITION (MailboxItem.messageId m))].

Definition steerTurn (turnId : string) (m : MailboxItem) : prog bool :=
  catch (retryTransient (send (TransactWrite (steer_ops turnId m))) ;;; Ret true)
    (fun error => match error with
                  | TransactionCanceledException reasons =>
                      if bool_decide (reasons !! 0%nat <> Some CONDITION_FAILED) &&
                         bool_decide (reasons !! 1%nat = Some CONDITION_FAILED)
                      then Throw (mailbox_taken (MailboxItem.seq m))
                      else Ret false
                  | _ => Throw error
                  end).

(** ** The start of a turn is a start of the machine *)

Lemma pointer_not_slot tenantId channelId p botId : ~ turn_slot (turnPointerKey tenantId channelId p botId).2.
Proof. destruct p, botId; cbn; by apply not_slot. Qed.

(** The state of the machine a request starts. *)
Definition started (r : StartTurnRequest) : AbstractTurn :=
  let t := fresh_turn (StartTurnRequest.tenantId r) (StartTurnRequest.turnId r) (StartTurnRequest.channelId r)
             (StartTurnRequest.botId r) (StartTurnRequest.promptMessageSeq r)
             (text_or_null (StartTurnRequest.promptAuthorId r)) in
  Abstract.mk t [started_event r].

Lemma started_initial r : spec_initial (started r).
Proof. constructor. Qed.

Lemma start_item_wf r : item_wf (start_item r).
Proof.
  constructor; try (by left); first [by eexists | by right; eexists | left; reflexivity].
Qed.

Lemma start_item_reads r : reads (start_item r) (Abstract.turn (started r)).
Proof. constructor; reflexivity. Qed.

(** The items of a start that are not the turn's own. *)
Definition start_pointers (r : StartTurnRequest) (m : gmap key item) : gmap key item :=
  let tenantId := StartTurnRequest.tenantId r in
  let channelId := StartTurnRequest.channelId r in
  let botId := StartTurnRequest.botId r in
  foldl (fun m k => <[k := pointerItem k r]> m) m
    [activeTurnPointerKey tenantId channelId botId; turnPointerKey tenantId channelId PointerLatest (Some botId);
     turnPointerKey tenantId channelId PointerActive None; turnPointerKey tenantId channelId PointerLatest None].

Definition start_grant (r : StartTurnRequest) (m : gmap key item) : gmap key item :=
  match StartTurnRequest.grant r with
  | None => m
  | Some g => <[(turnItemPartitionKey (StartTurnRequest.tenantId r) (StartTurnRequest.turnId r), TURN_GRANT_SORT_KEY) :=
                 encodeGrant (StartTurnRequest.tenantId r) (StartTurnRequest.turnId r) g]> m
  end.

Definition start_key (r : StartTurnRequest) : key :=
  metaKey (StartTurnRequest.tenantId r) (StartTurnRequest.turnId r).

Lemma start_ops_write (m : gmap key item) (r : StartTurnRequest) :
  foldl txop_write m (start_ops r) =
  <[((start_key r).1, turnEventSortKey 1) :=
      turnEventItem (started_event r) (StartTurnRequest.createdAt r + TURN_EVENT_TTL_SECONDS * 1000)]>
    (start_pointers r (<[start_key r := start_item r]> (start_grant r m))).
Proof.
  unfold start_ops, start_grant.
  assert (forall k, item_key (pointerItem k r) = Some k) as Hp by (by intros []).
  assert (item_key (start_item r) = Some (start_key r)) as Hs by done.
  assert (forall g, item_key (encodeGrant (StartTurnRequest.tenantId r) (StartTurnRequest.turnId r) g) =
    Some ((start_key r).1, TURN_GRANT_SORT_KEY)) as Hg by done.
  destruct (StartTurnRequest.grant r); cbn [app foldl txop_write]; rewrite ?Hg, Hs, !Hp, turnEventItem_key; done.
Qed.

Lemma start_pointers_slot r m pk sk : turn_slot sk -> start_pointers r m !! (pk, sk) = m !! (pk, sk).
Proof.
  intros Hsk. unfold start_pointers, activeTurnPointerKey. cbn [foldl].
  assert (forall p b, turnPointerKey (StartTurnRequest.tenantId r) (StartTurnRequest.channelId r) p b <> (pk, sk)) as Hne.
  { intros p b Heq. eapply (pointer_not_slot _ _ p b). rewrite Heq. done. }
  by rewrite !lookup_insert_ne by apply Hne.
Qed.

Lemma start_grant_slot r m pk sk : turn_slot sk -> start_grant r m !! (pk, sk) = m !! (pk, sk).
Proof. intros Hsk. unfold start_grant. destruct (StartTurnRequest.grant r); [by apply grant_key_slot|done]. Qed.

(** The conditions of a start: the turn is new, and the bot's pointer names the expected turn. *)
Lemma start_conditions (w w' : World) (r : StartTurnRequest) :
  contract (TransactWrite (start_ops r)) w (Ok tt) w' ->
  item_at w (start_key r) !! "pk" = None /\
  holds (match StartTurnRequest.expectedPointerTurnId r with
         | None => AttrNotExists "pk" | Some expected => AttrEq "turn_id" (AS expected) end)
    (item_at w (activeTurnPointerKey (StartTurnRequest.tenantId r) (StartTurnRequest.channelId r)
                  (StartTurnRequest.botId r))) = true /\
  w' = with_tbl w (foldl txop_write (tbl w) (start_ops r)).
Proof.
  intros (_ & Hall & ->). unfold start_ops in Hall. rewrite Forall_app in Hall. destruct Hall as [_ Hall].
  rewrite !Forall_cons in Hall. destruct Hall as (H1 & H2 & _). unfold txop_holds in H1, H2.
  split_and!; [|exact H2|done]. apply bool_decide_eq_true in H1. exact H1.
Qed.

Lemma start_represents (w w' : World) (r : StartTurnRequest) :
  all_ok w -> contract (TransactWrite (start_ops r)) w (Ok tt) w' ->
  tbl w !! start_key r = None /\ represents w' (start_key r).1 (started r) /\ sys w w'.
Proof.
  intros Hok Hcon. destruct (start_conditions _ _ _ Hcon) as (Hpk & _ & ->).
  assert (turn_partition (start_key r).1) as Hpart by (by eexists _, _).
  pose proof (Hok _ Hpart) as Hw. assert (tbl w !! start_key r = None) as Hnone.
  { unfold item_at in Hpk. destruct (tbl w !! start_key r) as [it|] eqn:Hit; [|done].
    change ((start_key r).1, "meta") with (start_key r) in Hw. rewrite Hit in Hw. destruct Hw as (s & Hrep & _).
    destruct (represents_reads _ _ _ _ Hrep Hit) as [[[v Hv] _ _ _ _ _ _ _] _]. cbn in Hpk. congruence. }
  change ((start_key r).1, "meta") with (start_key r) in Hw. rewrite Hnone in Hw.
  assert (represents (with_tbl w (foldl txop_write (tbl w) (start_ops r))) (start_key r).1 (started r)) as Hrep.
  { rewrite start_ops_write. exists (start_item r). constructor; cbn [tbl with_tbl].
    - rewrite lookup_insert_ne by apply evt_meta_ne. rewrite start_pointers_slot by apply slot_meta.
      apply lookup_insert_eq.
    - apply start_item_wf.
    - apply start_item_reads.
    - done.
    - intros sk it Hsk. destruct (decide (sk = turnEventSortKey 1)) as [->|Hne].
      + rewrite lookup_insert_eq. intros [= <-]. eexists 1, _, _. by split_and!.
      + rewrite lookup_insert_ne by congruence. rewrite start_pointers_slot by by right. unfold start_key, metaKey.
        rewrite lookup_insert_ne by by apply meta_ne_prefixed.
        rewrite start_grant_slot by by right. by rewrite Hw. }
  split_and!; [done..|]. eapply sys_start; [exact Hnone|apply started_initial|exact Hrep|].
  intros pk' Hne _ sk Hsk. rewrite start_ops_write. cbn [tbl with_tbl].
  rewrite lookup_insert_ne by (intros Heq%(f_equal fst); by apply Hne). rewrite start_pointers_slot by done.
  rewrite lookup_insert_ne by (intros Heq%(f_equal fst); by apply Hne). by rewrite start_grant_slot.
Qed.

(** Every pointer of a start names the new turn. *)
Lemma start_pointed (w1 : World) (r : StartTurnRequest) p (b : bool) :
  (tbl (with_tbl w1 (foldl txop_write (tbl w1) (start_ops r))) !!
     turnPointerKey (StartTurnRequest.tenantId r) (StartTurnRequest.channelId r) p
       (if b then Some (StartTurnRequest.botId r) else None)) ≫= (fun it => required_string it "turn_id") =
  Some (StartTurnRequest.turnId r).
Proof.
  cbn [tbl with_tbl]. rewrite start_ops_write.
  set (k := turnPointerKey _ _ _ _).
  rewrite lookup_insert_ne.
  2:{ intros Heq. apply (pointer_not_slot (StartTurnRequest.tenantId r) (StartTurnRequest.channelId r) p
      (if b then Some (StartTurnRequest.botId r) else None)). fold k. rewrite <- Heq. apply slot_event. }
  unfold start_pointers, activeTurnPointerKey. cbn [foldl].
  assert (forall (m : gmap key item) k', (exists it, m !! k = Some it /\ required_string it "turn_id" = Some (StartTurnRequest.turnId r)) \/ k' = k ->
    exists it, <[k' := pointerItem k' r]> m !! k = Some it /\ required_string it "turn_id" = Some (StartTurnRequest.turnId r)) as Hput.
  { intros m k' Hm. destruct (decide (k' = k)) as [->|Hne].
    - exists (pointerItem k r). by rewrite lookup_insert_eq.
    - destruct Hm as [(it & Hit & Ht)|?]; [|done]. exists it. by rewrite lookup_insert_ne. }
  match goal with |- ?m !! k ≫= _ = _ => assert (exists it, m !! k = Some it /\ required_string it "turn_id" = Some (StartTurnRequest.turnId r)) as (it & -> & Ht) end; [|done].
  destruct p, b; subst k; repeat first [apply Hput; right; reflexivity | apply Hput; left].
Qed.

(** ** Steering *)

Lemma mailbox_not_slot (seq : Z) : 0 <= seq -> ~ turn_slot (mailboxSortKey seq).
Proof.
  intros Hseq. pose proof (read_digits_padded seq Hseq) as Hd. unfold mailboxSortKey. apply not_slot.
  - intros Heq. by rewrite Heq in Hd.
  - destruct (starts_with EVENT_SORT_KEY_PREFIX (padded seq)) eqn:E; [|done]. apply starts_with_inv in E as [t Heq].
    by rewrite Heq in Hd.
Qed.

Lemma steer_contract (w w' : World) (turnId : string) (m : MailboxItem) :
  contract (TransactWrite (steer_ops turnId m)) w (Ok tt) w' ->
  holds (status_active AND AttrNotExists "closing") (item_at w (metaKey (MailboxItem.tenantId m) turnId)) = true /\
  w' = with_tbl w (<[(mailboxPartitionKey (MailboxItem.tenantId m) (MailboxItem.botId m) (MailboxItem.channelId m),
                     mailboxSortKey (MailboxItem.seq m)) := mailboxItemAttributes m]> (tbl w)).
Proof. intros (_ & Hall & ->). apply Forall_cons in Hall as [H1 _]. split; [exact H1|done]. Qed.

Lemma steer_sys (w w' : World) (turnId : string) (m : MailboxItem) :
  0 <= MailboxItem.seq m -> contract (TransactWrite (steer_ops turnId m)) w (Ok tt) w' -> sys w w'.
Proof.
  intros Hseq [_ ->]%steer_contract. apply sys_frame. intros pk _ sk Hsk. cbn.
  apply lookup_insert_ne. intros Heq%(f_equal snd). cbn in Heq. subst sk. by eapply mailbox_not_slot.
Qed.

(** ** A closing turn stays closing *)

Definition closing_at (w : World) (k : key) : Prop :=
  exists it, tbl w !! k = Some it /\ it !! "closing" = Some (ABOOL true).

Lemma apply_actions_keep (xs : list action) (it : item) (n : string) (v : attr) :
  (forall x, x ∈ xs -> x = SET n v \/
     match x with SET a _ | ADD a _ | REMOVE a | INCREMENT a _ _ => a <> n end) ->
  it !! n = Some v -> apply_actions xs it !! n = Some v.
Proof.
  unfold apply_actions. revert it. induction xs as [|x xs IH]; intros it Hxs Hit; [done|]. cbn [foldl].
  apply IH; [intros y Hy; apply Hxs; by right|].
  destruct (Hxs x) as [->|Hne]; [by left|by cbn; rewrite lookup_insert_eq|].
  destruct x as [a u|a u|a|a first step]; cbn [apply_action]; try (rewrite lookup_insert_ne || rewrite lookup_delete_ne; done).
  - destruct u, (it !! a) as [[]|]; try done; by rewrite lookup_insert_ne.
  - destruct (it !! a) as [[]|]; by rewrite lookup_insert_ne.
Qed.

(** Whether no action of a list touches an attribute. *)
Definition untouched (n : string) (xs : list action) : bool :=
  forallb (fun x => match x with SET a _ | ADD a _ | REMOVE a | INCREMENT a _ _ => negb (String.eqb a n) end) xs.

Lemma untouched_keep (xs : list action) (it : item) (n : string) (v : attr) :
  untouched n xs = true -> it !! n = Some v -> apply_actions xs it !! n = Some v.
Proof.
  intros Hxs. apply apply_actions_keep. intros x Hx%list_elem_of_In. right.
  unfold untouched in Hxs. rewrite List.forallb_forall in Hxs. specialize (Hxs x Hx).
  destruct x; apply negb_true_iff, String.eqb_neq in Hxs; done.
Qed.

Lemma update_closing (xs : list action) (c : cond) (it : item) :
  store_update xs c -> it !! "closing" = Some (ABOOL true) -> apply_actions xs it !! "closing" = Some (ABOOL true).
Proof.
  destruct 1 as [a by_ now lease dl Ha|a lease dl|a fence|a|id| |ac rec now dl];
    try (apply untouched_keep; by destruct by_ || done).
  apply apply_actions_keep. intros x [->|?]%elem_of_cons; [by left|set_solver].
Qed.

Lemma transition_closing (request : Transition) (t : Turn) (it : item) :
  store_transition request -> it !! "closing" = Some (ABOOL true) ->
  apply_actions (transition_actions request t) it !! "closing" = Some (ABOOL true).
Proof. destruct 1; apply untouched_keep; done. Qed.

Lemma sys_closing (w w' : World) (tenantId turnId : string) :
  all_ok w -> sys w w' -> closing_at w (metaKey tenantId turnId) -> closing_at w' (metaKey tenantId turnId).
Proof.
  intros Hok Hsys (it & Hit & Hcl). unfold metaKey in *. set (pk := turnItemPartitionKey tenantId turnId) in *.
  assert (turn_partition pk) as Hpart by by eexists _, _.
  destruct Hsys as [pk' it' xs c Hit' Hup Hc|request it' t Hit' Ht Hreq Hc|te u it' t g body id x Hit' Ht Hc
                   |pk' s w' Hnone Hinit Hrep Hsame|pk' sk Hsk|w' Hsame].
  - destruct (decide (pk' = pk)) as [->|]; [|exists it; cbn; by rewrite lookup_insert_ne by congruence].
    assert (it' = it) as -> by congruence. exists (apply_actions xs it). cbn. rewrite lookup_insert_eq. split; [done|]. by eapply update_closing.
  - erewrite transition_ops_write by done. destruct (decide ((pk, "meta") = metaKey (Transition.tenantId request) (Transition.turnId request))) as [Heq|].
    + rewrite <- Heq in *. assert (it' = it) as -> by congruence. exists (apply_actions (transition_actions request t) it). cbn.
      rewrite lookup_insert_ne by apply evt_meta_ne. rewrite lookup_insert_eq. split; [done|]. by apply transition_closing.
    + exists it. cbn. rewrite lookup_insert_ne by apply evt_meta_ne. by rewrite lookup_insert_ne.
  - erewrite grant_ops_write by done. destruct (decide ((pk, "meta") = metaKey te u)) as [Heq|].
    + rewrite <- Heq in *. assert (it' = it) as -> by congruence. eexists. cbn.
      rewrite lookup_insert_ne by apply evt_meta_ne. rewrite grant_key_slot by apply slot_meta.
      rewrite lookup_insert_eq. split; [done|]. by rewrite lookup_insert_ne.
    + exists it. cbn. rewrite lookup_insert_ne by apply evt_meta_ne. rewrite grant_key_slot by apply slot_meta.
      by rewrite lookup_insert_ne.
  - destruct (decide (pk = pk')) as [->|]; [congruence|]. exists it. by rewrite Hsame by (done || apply slot_meta).
  - exists it. cbn. by rewrite lookup_delete_ne by by apply meta_ne_prefixed.
  - exists it. by rewrite Hsame by (done || apply slot_meta).
Qed.

Lemma syses_closing (w w' : World) (tenantId turnId : string) :
  all_ok w -> rtc sys w w' -> closing_at w (metaKey tenantId turnId) -> closing_at w' (metaKey tenantId turnId).
Proof. intros Hok. induction 1; eauto using sys_ok, sys_closing. Qed.

(** ** Executions *)

Section programs.
Context `{Service} (I : World -> World -> Prop).

(** A start either goes through at one moment, or leaves the table to the others. *)
Lemma startTurn_exec (r : StartTurnRequest) w o w' :
  exec I (startTurn r) w o w' ->
  (o = Ok true /\ exists w1 w2, rtc I w w1 /\ contract (TransactWrite (start_ops r)) w1 (Ok tt) w2 /\ rtc I w2 w') \/
  ((o = Ok false \/ exists e, o = Err e) /\ rtc I w w').
Proof.
  intros [(b & -> & Hp)|(e & w1 & Hp & Hh)]%exec_catch.
  - apply exec_bind in Hp as [([] & w1 & (w2 & w3 & ? & ? & ?)%exec_retry_send & [[= ->] Hw])|(e & [=] & _)].
    left. split; [done|]. exists w2, w3. split_and!; try done. by trans w1.
  - apply exec_bind in Hp as [([] & w2 & _ & [[=] _])|(e' & [= <-] & (w2 & w3 & ? & [-> _] & ?)%exec_retry_send)].
    right. assert (rtc I w w1) by by trans w2.
    destruct e; destruct Hh as [-> Hw]; (split; [eauto|by trans w1]).
Qed.

Lemma steerTurn_exec (turnId : string) (m : MailboxItem) w o w' :
  exec I (steerTurn turnId m) w o w' ->
  (o = Ok true /\ exists w1 w2, rtc I w w1 /\ contract (TransactWrite (steer_ops turnId m)) w1 (Ok tt) w2 /\ rtc I w2 w') \/
  ((o = Ok false \/ exists e, o = Err e) /\ rtc I w w').
Proof.
  intros [(b & -> & Hp)|(e & w1 & Hp & Hh)]%exec_catch.
  - apply exec_bind in Hp as [([] & w1 & (w2 & w3 & ? & ? & ?)%exec_retry_send & [[= ->] Hw])|(e & [=] & _)].
    left. split; [done|]. exists w2, w3. split_and!; try done. by trans w1.
  - apply exec_bind in Hp as [([] & w2 & _ & [[=] _])|(e' & [= <-] & (w2 & w3 & ? & [-> _] & ?)%exec_retry_send)].
    right. assert (rtc I w w1) by by trans w2.
    destruct e; try (destruct Hh as [-> Hw]; (split; [eauto|by trans w1])).
    destruct (bool_decide _ && bool_decide _); destruct Hh as [-> Hw]; (split; [eauto|by trans w1]).
Qed.

Context (HI : forall w w', I w w' -> sys w w').

(** When [beginClosing] returned, the turn is closing. *)
Lemma beginClosing_exec tenantId turnId a w w' :
  all_ok w -> exec I (beginClosing tenantId turnId a) w (Ok tt) w' -> all_ok w' /\ closing_at w' (metaKey tenantId turnId).
Proof using HI.
  intros Hok Hex. assert (all_ok w') as Hok'.
  { eapply syses_ok; [done|]. eapply (store_program_guarantees I HI); [constructor|done|exact Hex]. }
  split; [done|].
  destruct (proj1 (exec_catch _ _ _ _ _ _) Hex) as [(a' & _ & Hp)|(e & w1 & _ & Hh)].
  - destruct (proj1 (exec_bind _ _ _ _ _ _) Hp) as [(it & w1 & Hu & [_ Hw'])|(e & [=] & _)].
    destruct (exec_retry_send _ _ _ _ _ Hu) as (w2 & w3 & Hw2 & (Hc & -> & ->) & Hw3).
    assert (all_ok w2) as Hok2 by exact (others_ok I HI _ _ Hok Hw2).
    unfold item_at in Hc. destruct (tbl w2 !! metaKey tenantId turnId) as [it|] eqn:Hit;
      [cbn [default] in Hc|exfalso; cbn [default] in Hc; change (holds (owned_by a) ∅ = true) in Hc; by rewrite (store_update_exists _ _ (up_closing a)) in Hc].
    eapply syses_closing; [|apply (others_sys I HI); trans w1; [exact Hw3|exact Hw']|].
    + eapply sys_ok; [exact Hok2|]. eapply sys_update; [exact Hit|apply (up_closing a)|exact Hc].
    + eexists. cbn [tbl with_tbl]. rewrite lookup_insert_eq. split; [done|]. cbn. by rewrite lookup_insert_eq.
  - destruct e; try by destruct Hh.
    destruct (proj1 (exec_bind _ _ _ _ _ _) Hh) as [(er & w2 & _ & [[=] _])|(er & [=] & _)].
Qed.

Lemma guarantees_startTurn r : guarantees I (startTurn r).
Proof using HI.
  intros w o w' Hok [(-> & w1 & w2 & Hw1 & Hc & Hw2)|[_ Hw]]%startTurn_exec; [|by eapply others_sys].
  assert (all_ok w1) by by eapply others_ok. trans w1; [by eapply others_sys|].
  eapply rtc_l; [by eapply start_represents|by eapply others_sys].
Qed.

Lemma guarantees_steerTurn turnId m : 0 <= MailboxItem.seq m -> guarantees I (steerTurn turnId m).
Proof using HI.
  intros Hseq w o w' Hok [(-> & w1 & w2 & Hw1 & Hc & Hw2)|[_ Hw]]%steerTurn_exec; [|by eapply others_sys].
  trans w1; [by eapply others_sys|]. eapply rtc_l; [by eapply steer_sys|by eapply others_sys].
Qed.

Lemma guarantees_openTurn tenantId channelId botId : guarantees I (openTurn tenantId channelId botId).
Proof using HI.
  apply (silent_guarantees I HI), silent_bind; [apply silent_get|]. intros o. destruct (o ≫= _); [|apply silent_ret].
  apply silent_bind; [apply silent_get|intros; apply silent_ret].
Qed.
End programs.
End admission.
