(* ===== verification/Actions.v ===== *)
(** * Computer actions

    The durable record of one computer tool call: its codec (src/conversation/src/store/codecs/action.ts), its store
    (src/conversation/src/store/action-store.ts) and the functions over it (src/conversation/src/domain/actions.ts). *)

From S2P Require Import Prelude Json Types Service Retry Paging TurnCodec TurnStore.
From stdpp Require Import sorting.
#[local] Open Scope Z_scope.
#[local] Open Scope cond_scope.
#[local] Open Scope prog_scope.

(** ** Data *)

Inductive ComputerActionStatus : Type := Requested | Claimed | Done.

#[export] Instance action_status_eq_dec : EqDecision ComputerActionStatus.
Proof. solve_decision. Defined.

Definition action_status_text (s : ComputerActionStatus) : string :=
  match s with Requested => "requested" | Claimed => "claimed" | Done => "done" end.

Definition action_status_of_text (s : string) : option ComputerActionStatus :=
  if decide (s = "requested") then Some Requested
  else if decide (s = "claimed") then Some Claimed
  else if decide (s = "done") then Some Done
  else None.

Module Envelope.
Record ActionEnvelope : Type := mk {
  tool : string;
  idempotent : bool;
  path : option string;
  cwd : option string;
  origin : option string;
}.
End Envelope.
Abbreviation ActionEnvelope := Envelope.ActionEnvelope.

(** [arguments] lists the properties of the object in their order. *)
Module Action.
Record ComputerAction : Type := mk {
  actionId : string;
  tenantId : string;
  computerId : string;
  turnId : string;
  channelId : string;
  botId : string;
  userId : option string;
  callId : string;
  toolName : string;
  arguments : list (string * string);
  gate : string;
  envelope : ActionEnvelope;
  status : ComputerActionStatus;
  claimedBy : option string;
  leaseExpiresAt : option Z;
  result : option string;
  resultIsError : bool;
  createdAt : Z;
  completedAt : option Z;
}.
End Action.
Abbreviation ComputerAction := Action.ComputerAction.

Definition computerActionKey (tenantId actionId : string) : key := (tenantId +:+ "#computer#actions", "act#" +:+ actionId).

Definition turnActionIndexKey (tenantId turnId callId : string) : key :=
  (tenantId +:+ "#turn#" +:+ turnId, "act#" +:+ callId).

(** ** Codec *)

Definition envelope_json (e : ActionEnvelope) : json :=
  let opt name (o : option string) := match o with Some s => [(name, JStr s)] | None => [] end in
  JObj ([("tool", JStr (Envelope.tool e)); ("idempotent", JBool (Envelope.idempotent e))] ++
        opt "path" (Envelope.path e) ++ opt "cwd" (Envelope.cwd e) ++ opt "origin" (Envelope.origin e)).

Definition as_bool (j : json) : option bool := match j with JBool b => Some b | _ => None end.

(** A property that is absent, or a text. *)
Definition optional_text (l : list (string * json)) (name : string) : option (option string) :=
  match field l name with None => Some None | Some j => Some <$> as_text j end.

Definition envelope_of_json (j : json) : option ActionEnvelope :=
  l ← as_object j;
  tool ← field l "tool" ≫= as_text;
  idempotent ← field l "idempotent" ≫= as_bool;
  path ← optional_text l "path";
  cwd ← optional_text l "cwd";
  origin ← optional_text l "origin";
  Some (Envelope.mk tool idempotent path cwd origin).

(** The properties of an object whose values are all texts, in their order. *)
Definition text_fields (l : list (string * json)) : option (list (string * string)) :=
  mapM (fun kx => v ← as_text kx.2; Some (kx.1, v)) l.

Definition encodeAction (a : ComputerAction) : item :=
  let k := computerActionKey (Action.tenantId a) (Action.actionId a) in
  let base : item := list_to_map [
    ("pk", AS k.1); ("sk", AS k.2);
    ("action_id", AS (Action.actionId a));
    ("tenant_id", AS (Action.tenantId a));
    ("computer_id", AS (Action.computerId a));
    ("turn_id", AS (Action.turnId a));
    ("channel_id", AS (Action.channelId a));
    ("bot_id", AS (Action.botId a));
    ("call_id", AS (Action.callId a));
    ("tool_name", AS (Action.toolName a));
    ("arguments", AS (stringify (text_object (Action.arguments a))));
    ("gate", AS (Action.gate a));
    ("envelope", AS (stringify (envelope_json (Action.envelope a))));
    ("status", AS (action_status_text (Action.status a)));
    ("result_is_error", ABOOL (Action.resultIsError a));
    ("created_at", AN (epochSeconds (Action.createdAt a)))] in
  let base := put_if "user_id" AS (Action.userId a) base in
  let base := put_if "claimed_by" AS (Action.claimedBy a) base in
  let base := put_if "lease_expires_at" (AN ∘ epochSeconds) (Action.leaseExpiresAt a) base in
  let base := put_if "result" AS (Action.result a) base in
  put_if "completed_at" (AN ∘ epochSeconds) (Action.completedAt a) base.

Definition decodeAction (it : item) : option ComputerAction :=
  actionId ← required_string it "action_id";
  tenantId ← required_string it "tenant_id";
  computerId ← required_string it "computer_id";
  turnId ← required_string it "turn_id";
  channelId ← required_string it "channel_id";
  botId ← required_string it "bot_id";
  callId ← required_string it "call_id";
  toolName ← required_string it "tool_name";
  arguments ← ((required_string it "arguments" ≫= parse_json) ≫= as_object) ≫= text_fields;
  gate ← required_string it "gate";
  envelope ← (required_string it "envelope" ≫= parse_json) ≫= envelope_of_json;
  status ← required_string it "status" ≫= action_status_of_text;
  Some {|
    Action.actionId := actionId;
    Action.tenantId := tenantId;
    Action.computerId := computerId;
    Action.turnId := turnId;
    Action.channelId := channelId;
    Action.botId := botId;
    Action.userId := optionalString it "user_id";
    Action.callId := callId;
    Action.toolName := toolName;
    Action.arguments := arguments;
    Action.gate := gate;
    Action.envelope := envelope;
    Action.status := status;
    Action.claimedBy := optionalString it "claimed_by";
    Action.leaseExpiresAt := optionalDate it "lease_expires_at";
    Action.result := optionalString it "result";
    Action.resultIsError := default false (optionalFlag it "result_is_error");
    Action.createdAt := default 0 (optionalDate it "created_at");
    Action.completedAt := optionalDate it "completed_at";
  |}.

Definition encodeActionIndex (a : ComputerAction) : item :=
  let k := turnActionIndexKey (Action.tenantId a) (Action.turnId a) (Action.callId a) in
  list_to_map [
    ("pk", AS k.1); ("sk", AS k.2);
    ("action_id", AS (Action.actionId a));
    ("tenant_id", AS (Action.tenantId a));
    ("turn_id", AS (Action.turnId a));
    ("call_id", AS (Action.callId a))].

(** ** The store *)

Definition decode_action (it : item) : exn + ComputerAction :=
  match decodeAction it with Some a => Ok a | None => Err (MalformedItem "computer action") end.

(** The action of an item, or the error of reading a malformed one. *)
Definition read_action (it : item) : prog ComputerAction :=
  match decode_action it with Ok a => Ret a | Err e => Throw e end.

Definition action_get (tenantId actionId : string) : prog (option ComputerAction) :=
  let! response := send (GetItem (computerActionKey tenantId actionId)) in
  match response with
  | None => Ret None
  | Some it => let! a := read_action it in Ret (Some a)
  end.

Definition getByCall (tenantId turnId callId : string) : prog (option ComputerAction) :=
  let! index := send (GetItem (turnActionIndexKey tenantId turnId callId)) in
  match (index ≫= fun it => required_string it "action_id") with
  | None => Ret None
  | Some actionId => action_get tenantId actionId
  end.

Definition create_ops (a : ComputerAction) : list txop :=
  [TPut (encodeActionIndex a) (AttrNotExists "pk"); TPut (encodeAction a) CTrue].

Definition createIfAbsent (a : ComputerAction) : prog (ComputerAction * bool) :=
  let! outcome := outcome_of (retryTransient (send (TransactWrite (create_ops a)))) in
  match outcome with
  | Ok _ => Ret (a, true)
  | Err (TransactionCanceledException _) =>
      let! existing := getByCall (Action.tenantId a) (Action.turnId a) (Action.callId a) in
      match existing with
      | None => Throw (JsError ("Computer action for call " +:+ stringify (JStr (Action.callId a))
                        +:+ " could not be created or found."))
      | Some e => Ret (e, false)
      end
  | Err error => Throw error
  end.

Section listing.
Context `{Collation}.

(** Oldest first, ties by identifier. *)
Definition action_le (l r : ComputerAction) : Prop :=
  Action.createdAt l < Action.createdAt r \/
  (Action.createdAt l = Action.createdAt r /\ locale_le (Action.actionId l) (Action.actionId r)).

#[export] Instance action_le_dec (l r : ComputerAction) : Decision (action_le l r).
Proof. unfold action_le. apply _. Defined.

Definition by_age (l : list ComputerAction) : list ComputerAction := merge_sort action_le l.

Definition listOpen (pages : nat) (tenantId : string) : prog (list ComputerAction) :=
  let! actions := query_pages decode_action (tenantId +:+ "#computer#actions") (BeginsWith "act#")
                    (AttrNe "status" (AS "done")) None pages in
  Ret (by_age actions).

(** The actions the index items of a page name. *)
Definition indexed_actions (tenantId : string) (its : list item) (acc : list ComputerAction) : prog (list ComputerAction) :=
  for_each its acc (fun acc it =>
    match required_string it "action_id" with
    | None => Throw (MalformedItem "computer action index")
    | Some actionId =>
        let! a := action_get tenantId actionId in
        Ret (match a with Some a => acc ++ [a] | None => acc end)
    end).

Fixpoint turn_action_pages (tenantId turnId : string) (start : option key) (acc : list ComputerAction) (fuel : nat)
  : prog (list ComputerAction) :=
  match fuel with
  | O => Throw TOO_MANY_PAGES
  | S fuel' =>
      let! page := send (Query (turnItemPartitionKey tenantId turnId) (BeginsWith "act#") CTrue start) in
      let! acc' := indexed_actions tenantId page.1 acc in
      match page.2 with
      | None => Ret acc'
      | Some next => turn_action_pages tenantId turnId (Some next) acc' fuel'
      end
  end.

Definition listForTurn (pages : nat) (tenantId turnId : string) : prog (list ComputerAction) :=
  let! actions := turn_action_pages tenantId turnId None [] pages in
  Ret (by_age actions).
End listing.

(** One conditional update of an action that exists. *)
Definition action_update (tenantId actionId : string) (xs : list action) (c : cond) : prog (option ComputerAction) :=
  null_when_condition_fails (
    let! attributes := send (UpdateItem (computerActionKey tenantId actionId) xs (AttrExists "pk" AND c)) in
    read_action attributes).

(** [#status = :claimed AND claimed_by = :worker]. *)
Definition held_by (workerId : string) : cond := AttrEq "status" (AS "claimed") AND AttrEq "claimed_by" (AS workerId).

Definition action_claim (tenantId actionId workerId : string) (leaseExpiresAt : Z) : prog (option ComputerAction) :=
  action_update tenantId actionId
    [SET "status" (AS "claimed"); SET "claimed_by" (AS workerId); SET "lease_expires_at" (AN (epochSeconds leaseExpiresAt))]
    (AttrEq "status" (AS "requested")).

Definition action_complete (tenantId actionId : string) (workerId : option string) (result : string)
    (resultIsError : bool) (now : Z) : prog (option ComputerAction) :=
  action_update tenantId actionId
    [SET "status" (AS "done"); SET "result" (AS result); SET "result_is_error" (ABOOL resultIsError);
     SET "completed_at" (AN (epochSeconds now)); REMOVE "lease_expires_at"]
    (match workerId with Some worker => held_by worker | None => AttrNe "status" (AS "done") end).

Definition action_renew (tenantId actionId workerId : string) (leaseExpiresAt : Z) : prog (option ComputerAction) :=
  action_update tenantId actionId [SET "lease_expires_at" (AN (epochSeconds leaseExpiresAt))] (held_by workerId).

Definition action_release (tenantId actionId : string) : prog (option ComputerAction) :=
  action_update tenantId actionId
    [SET "status" (AS "requested"); REMOVE "claimed_by"; REMOVE "lease_expires_at"]
    (AttrEq "status" (AS "claimed")).

(** ** The functions over the store *)

Definition ACTION_LEASE_SECONDS : Z := 60.
Definition WORKSPACE_GATE : string := "workspace".
Definition BROWSER_GATE : string := "browser".
Definition INTERRUPTED_ACTION_RESULT : string :=
  "The computer was lost while this tool ran, and it may have partially run.".

Definition BROWSE_ACTION_KIND : string := "browse".
Definition REQUEST_COMPUTER_CAPABILITY_ACTION_KIND : string := "request_computer_capability".
Definition BROWSER_ACTION_KINDS : list string := [BROWSE_ACTION_KIND; REQUEST_COMPUTER_CAPABILITY_ACTION_KIND].

Definition gateForComputerTool (toolName : string) : string :=
  if decide (toolName ∈ BROWSER_ACTION_KINDS) then BROWSER_GATE else WORKSPACE_GATE.

(** The value of an argument. *)
Definition argument (arguments : list (string * string)) (name : string) : option string :=
  (list_to_map (reverse arguments) : gmap string string) !! name.

Definition envelopeForCall (toolName : string) (arguments : list (string * string)) : ActionEnvelope :=
  Envelope.mk toolName
    (bool_decide (toolName = "read_workspace") || bool_decide (toolName ∈ BROWSER_ACTION_KINDS))
    (argument arguments "path")
    (if decide (toolName = "run_terminal") then
       let cwd := trim (default "/workspace" (argument arguments "cwd")) in
       Some (if decide (cwd = "") then "/workspace" else cwd)
     else None)
    (argument arguments "url").

Module ActionRequest.
Record ActionRequest : Type := mk {
  tenantId : string;
  computerId : string;
  turnId : string;
  channelId : string;
  botId : string;
  userId : option string;
  callId : string;
  toolName : string;
  arguments : list (string * string);
}.
End ActionRequest.
Abbreviation ActionRequest := ActionRequest.ActionRequest.

(** The action a request proposes. *)
Definition proposed_action (r : ActionRequest) (actionId : string) (createdAt : Z) : ComputerAction :=
  {|
    Action.actionId := actionId;
    Action.tenantId := ActionRequest.tenantId r;
    Action.computerId := ActionRequest.computerId r;
    Action.turnId := ActionRequest.turnId r;
    Action.channelId := ActionRequest.channelId r;
    Action.botId := ActionRequest.botId r;
    Action.userId := ActionRequest.userId r;
    Action.callId := ActionRequest.callId r;
    Action.toolName := ActionRequest.toolName r;
    Action.arguments := ActionRequest.arguments r;
    Action.gate := gateForComputerTool (ActionRequest.toolName r);
    Action.envelope := envelopeForCall (ActionRequest.toolName r) (ActionRequest.arguments r);
    Action.status := Requested;
    Action.claimedBy := None;
    Action.leaseExpiresAt := None;
    Action.result := None;
    Action.resultIsError := false;
    Action.createdAt := createdAt;
    Action.completedAt := None;
  |}.

Definition requestComputerAction (r : ActionRequest) : prog ComputerAction :=
  let! actionId := send NextId in
  let! createdAt := send ClockNow in
  let! stored := createIfAbsent (proposed_action r actionId createdAt) in
  Ret stored.1.

Definition computerActionForCall (tenantId turnId callId : string) : prog (option ComputerAction) :=
  getByCall tenantId turnId callId.

(** Whether a worker holds an action under a lease that is live at [now]. *)
Definition lease_live (now : Z) (a : ComputerAction) : bool :=
  bool_decide (Action.status a = Claimed) &&
  match Action.leaseExpiresAt a with None => false | Some l => now <? l end.

Definition not_claimed (actionId workerId : string) : exn :=
  ComputerActionNotClaimedError ("Computer action " +:+ pythonRepr actionId +:+ " is not claimed by worker "
    +:+ pythonRepr workerId +:+ ".").

Definition no_such_action (actionId : string) : exn :=
  ComputerActionNotFoundError ("Computer action " +:+ pythonRepr actionId +:+ " does not exist.").

Section functions.
Context `{Collation}.

(** Claim the first requested action that can be claimed. *)
Fixpoint claim_first (tenantId workerId : string) (now : Z) (refuseAction : ComputerAction -> option exn)
    (open : list ComputerAction) : prog (option ComputerAction) :=
  match open with
  | [] => Ret None
  | a :: open' =>
      if decide (Action.status a = Requested) then
        match refuseAction a with
        | Some error => Throw error
        | None =>
            let! claimed := action_claim tenantId (Action.actionId a) workerId (now + ACTION_LEASE_SECONDS * 1000) in
            match claimed with
            | Some c => Ret (Some c)
            | None => claim_first tenantId workerId now refuseAction open'
            end
        end
      else claim_first tenantId workerId now refuseAction open'
  end.

(** [refuseAction] is the error it throws for an action, if any. *)
Definition claimNextComputerAction (pages : nat) (tenantId workerId : string)
    (refuseAction : ComputerAction -> option exn) : prog (option ComputerAction) :=
  let! now := send ClockNow in
  let! open := listOpen pages tenantId in
  match List.find (lease_live now) open with
  | Some a => Ret (if decide (Action.claimedBy a = Some workerId) then Some a else None)
  | None => claim_first tenantId workerId now refuseAction open
  end.

Definition renewComputerAction (tenantId actionId workerId : string) : prog ComputerAction :=
  let! existing := action_get tenantId actionId in
  match existing with
  | None => Throw (no_such_action actionId)
  | Some _ =>
      let! now := send ClockNow in
      let! renewed := action_renew tenantId actionId workerId (now + ACTION_LEASE_SECONDS * 1000) in
      match renewed with
      | None => Throw (not_claimed actionId workerId)
      | Some a => Ret a
      end
  end.

Definition completeComputerAction (tenantId actionId workerId result : string) (isError : bool)
  : prog (ComputerAction * bool) :=
  let! existing := action_get tenantId actionId in
  match existing with
  | None => Throw (no_such_action actionId)
  | Some e =>
      if decide (Action.status e = Done) then Ret (e, false)
      else
        let! now := send ClockNow in
        let! done := action_complete tenantId actionId (Some workerId) result isError now in
        match done with
        | Some a => Ret (a, true)
        | None =>
            let! current := action_get tenantId actionId in
            match current with
            | Some c => if decide (Action.status c = Done) then Ret (c, false) else Throw (not_claimed actionId workerId)
            | None => Throw (not_claimed actionId workerId)
            end
        end
  end.

(** Whether a claimed action has a lease that ran out by [now]. *)
Definition lease_lost (now : Z) (a : ComputerAction) : bool :=
  bool_decide (Action.status a = Claimed) &&
  match Action.leaseExpiresAt a with None => false | Some l => l <=? now end.

Definition expireLostComputerActions (pages : nat) (tenantId : string) : prog (list ComputerAction) :=
  let! now := send ClockNow in
  let! open := listOpen pages tenantId in
  for_each open [] (fun changed a =>
    if lease_lost now a then
      let! settled :=
        if Envelope.idempotent (Action.envelope a) then action_release tenantId (Action.actionId a)
        else action_complete tenantId (Action.actionId a) None INTERRUPTED_ACTION_RESULT true now in
      Ret (match settled with Some s => changed ++ [s] | None => changed end)
    else Ret changed).

Definition answerComputerActionOnOwnAccount (a : ComputerAction) (result : string) (isError : bool)
  : prog (option ComputerAction) :=
  let! now := send ClockNow in
  action_complete (Action.tenantId a) (Action.actionId a) None result isError now.
End functions.
