(* ===== verification/ActionSystem.v ===== *)
(** * The life of a computer action

    The machine of one action ([act_step]), the atomic writes of the action store as seen by all actions ([act_sys]), and
    that every function of Actions.v moves the table only along them. The first answer wins because a done action has no
    step; a tool that may not run twice is claimed at most once because only an idempotent action goes back to
    requested. *)

From S2P Require Import Prelude Json Types Service Retry Paging TurnCodec TurnStore TurnSpec TurnRefine TurnSystem.
From S2P Require Import TurnPrograms Actions.
From coqutil Require Import Datatypes.RecordSetters.
Import DoubleBraceUpdate.
#[local] Open Scope Z_scope.
#[local] Open Scope cond_scope.
#[local] Open Scope prog_scope.

(** ** The machine *)

Definition answered_action (a : ComputerAction) (result : string) (isError : bool) (now : Z) : ComputerAction :=
  a {{ Action.status := Done; Action.result := text_or_null result; Action.resultIsError := isError;
       Action.completedAt := Some (stored_moment now); Action.leaseExpiresAt := None }}.

Inductive act_step (a : ComputerAction) : ComputerAction -> Prop :=
| act_claim worker lease :
    Action.status a = Requested ->
    act_step a (a {{ Action.status := Claimed; Action.claimedBy := text_or_null worker;
                     Action.leaseExpiresAt := Some (stored_moment lease) }})
| act_renew worker lease :
    Action.status a = Claimed -> Action.claimedBy a = text_or_null worker ->
    act_step a (a {{ Action.leaseExpiresAt := Some (stored_moment lease) }})
| act_answer worker result isError now :
    Action.status a = Claimed -> Action.claimedBy a = text_or_null worker ->
    act_step a (answered_action a result isError now)
| act_answer_own result isError now :
    Action.status a <> Done -> act_step a (answered_action a result isError now)
| act_release :
    Action.status a = Claimed -> Envelope.idempotent (Action.envelope a) = true ->
    act_step a (a {{ Action.status := Requested; Action.claimedBy := None; Action.leaseExpiresAt := None }}).

(** Compute the fields of an updated action. *)
Ltac act_fields :=
  cbv [apply_update constant answered_action Action.actionId Action.tenantId Action.computerId Action.turnId
       Action.channelId Action.botId Action.userId Action.callId Action.toolName Action.arguments Action.gate
       Action.envelope Action.status Action.claimedBy Action.leaseExpiresAt Action.result Action.resultIsError
       Action.createdAt Action.completedAt] in *.

(** What an action is about never changes. *)
Definition same_call (a a' : ComputerAction) : Prop :=
  Action.actionId a' = Action.actionId a /\ Action.tenantId a' = Action.tenantId a /\
  Action.turnId a' = Action.turnId a /\ Action.callId a' = Action.callId a /\
  Action.toolName a' = Action.toolName a /\ Action.arguments a' = Action.arguments a /\
  Action.envelope a' = Action.envelope a /\ Action.userId a' = Action.userId a.

#[export] Instance same_call_preorder : PreOrder same_call.
Proof. split; [by intros a|]. intros x y z. unfold same_call. intuition congruence. Qed.

Lemma act_step_same_call a a' : act_step a a' -> same_call a a'.
Proof. destruct a. destruct 1; done. Qed.

Lemma act_steps_same_call a a' : rtc act_step a a' -> same_call a a'.
Proof. induction 1; [done|]. etrans; [by apply act_step_same_call|done]. Qed.

Lemma act_done_final a a' : Action.status a = Done -> rtc act_step a a' -> a' = a.
Proof.
  intros Hd Hs. induction Hs as [|a a1 a2 Hstep Hs IH]; [done|]. destruct Hstep; congruence.
Qed.

(** An action that may not run twice never goes back to requested. *)
Lemma act_not_requested_again a a' :
  Envelope.idempotent (Action.envelope a) = false -> Action.status a <> Requested -> rtc act_step a a' ->
  Action.status a' <> Requested.
Proof.
  intros Hi Hr Hs. revert Hi Hr. induction Hs as [|a a1 a2 Hstep Hs IH]; intros Hi Hr; [done|].
  pose proof (act_step_same_call _ _ Hstep) as (_ & _ & _ & _ & _ & _ & He & _).
  apply IH; [by rewrite He|]. destruct a. destruct Hstep; act_fields; congruence.
Qed.

(** ** Items *)

Record action_reads (it : item) (a : ComputerAction) : Prop := {
  ar_actionId : required_string it "action_id" = Some (Action.actionId a);
  ar_tenantId : required_string it "tenant_id" = Some (Action.tenantId a);
  ar_computerId : required_string it "computer_id" = Some (Action.computerId a);
  ar_turnId : required_string it "turn_id" = Some (Action.turnId a);
  ar_channelId : required_string it "channel_id" = Some (Action.channelId a);
  ar_botId : required_string it "bot_id" = Some (Action.botId a);
  ar_callId : required_string it "call_id" = Some (Action.callId a);
  ar_toolName : required_string it "tool_name" = Some (Action.toolName a);
  ar_arguments : ((required_string it "arguments" ≫= parse_json) ≫= as_object) ≫= text_fields = Some (Action.arguments a);
  ar_gate : required_string it "gate" = Some (Action.gate a);
  ar_envelope : (required_string it "envelope" ≫= parse_json) ≫= envelope_of_json = Some (Action.envelope a);
  ar_status : required_string it "status" = Some (action_status_text (Action.status a));
  ar_userId : optionalString it "user_id" = Action.userId a;
  ar_claimedBy : optionalString it "claimed_by" = Action.claimedBy a;
  ar_lease : optionalDate it "lease_expires_at" = Action.leaseExpiresAt a;
  ar_result : optionalString it "result" = Action.result a;
  ar_isError : default false (optionalFlag it "result_is_error") = Action.resultIsError a;
  ar_createdAt : default 0 (optionalDate it "created_at") = Action.createdAt a;
  ar_completedAt : optionalDate it "completed_at" = Action.completedAt a;
}.

Lemma action_status_of_text_inv s st : action_status_of_text s = Some st -> s = action_status_text st.
Proof. unfold action_status_of_text. repeat case_decide; by intros [= <-]. Qed.

Lemma action_status_of_text_text st : action_status_of_text (action_status_text st) = Some st.
Proof. by destruct st. Qed.

Lemma bind_Some_1 {A B : Type} (f : A -> option B) (o : option A) b :
  o ≫= f = Some b -> exists a, o = Some a /\ f a = Some b.
Proof. intros (a & ? & ?)%bind_Some. eauto. Qed.

Lemma decodeAction_reads (it : item) (a : ComputerAction) : decodeAction it = Some a <-> action_reads it a.
Proof.
  split.
  - intros Ha. unfold decodeAction in Ha.
    repeat (apply bind_Some_1 in Ha as (? & ? & Ha)). injection Ha as <-.
    match goal with H : required_string it "status" ≫= _ = Some _ |- _ =>
      apply bind_Some_1 in H as (? & ? & ->%action_status_of_text_inv) end.
    constructor; act_fields; first [assumption | reflexivity | idtac].
  - intros []. unfold decodeAction.
    rewrite ar_actionId0, ar_tenantId0, ar_computerId0, ar_turnId0, ar_channelId0, ar_botId0, ar_callId0, ar_toolName0.
    cbn [mbind option_bind]. rewrite ar_arguments0. cbn [mbind option_bind]. rewrite ar_gate0. cbn [mbind option_bind].
    rewrite ar_envelope0. cbn [mbind option_bind]. rewrite ar_status0. cbn [mbind option_bind].
    rewrite action_status_of_text_text. cbn [mbind option_bind]. destruct a. act_fields. by subst.
Qed.

(** ** The writes *)

(** The conditional updates of an action, with what they do to it. The store releases whatever is claimed; its caller
    releases only idempotent actions. *)
Inductive act_write : list action -> cond -> Prop :=
| aw_claim worker lease :
    act_write [SET "status" (AS "claimed"); SET "claimed_by" (AS worker); SET "lease_expires_at" (AN (epochSeconds lease))]
      (AttrEq "status" (AS "requested"))
| aw_renew worker lease : act_write [SET "lease_expires_at" (AN (epochSeconds lease))] (held_by worker)
| aw_complete worker result isError now :
    act_write
      [SET "status" (AS "done"); SET "result" (AS result); SET "result_is_error" (ABOOL isError);
       SET "completed_at" (AN (epochSeconds now)); REMOVE "lease_expires_at"]
      (match worker with Some worker => held_by worker | None => AttrNe "status" (AS "done") end).

Definition release_actions : list action := [SET "status" (AS "requested"); REMOVE "claimed_by"; REMOVE "lease_expires_at"].

Lemma optionalFlag_insert_ne (it : item) n m v : n <> m -> optionalFlag (<[n := v]> it) m = optionalFlag it m.
Proof. intros. unfold optionalFlag. by rewrite lookup_insert_ne. Qed.
Lemma optionalFlag_delete_ne (it : item) n m : n <> m -> optionalFlag (delete n it) m = optionalFlag it m.
Proof. intros. unfold optionalFlag. by rewrite lookup_delete_ne. Qed.
Lemma optionalFlag_insert_eq (it : item) n b : optionalFlag (<[n := ABOOL b]> it) n = Some b.
Proof. unfold optionalFlag. by rewrite lookup_insert_eq. Qed.
#[export] Hint Rewrite optionalFlag_insert_ne optionalFlag_delete_ne using done : item.
#[export] Hint Rewrite optionalFlag_insert_eq : item.

Section writes.
Context (it : item) (a : ComputerAction) (Hr : action_reads it a).

Lemma reads_status (st : ComputerActionStatus) : it !! "status" = Some (AS (action_status_text st)) <-> Action.status a = st.
Proof using Hr.
  pose proof (ar_status _ _ Hr) as Hs. unfold required_string in Hs.
  destruct (it !! "status") as [[s| | | | | | |]|]; simplify_eq. split; [intros [= Heq]|by intros ->].
  by destruct (Action.status a), st.
Qed.

Lemma reads_worker (w : string) : it !! "claimed_by" = Some (AS w) -> Action.claimedBy a = text_or_null w.
Proof using Hr. intros Hw. rewrite <- (ar_claimedBy _ _ Hr). unfold optionalString. by rewrite Hw. Qed.

Lemma held_reads (w : string) : holds (held_by w) it = true -> Action.status a = Claimed /\ Action.claimedBy a = text_or_null w.
Proof using Hr.
  unfold held_by. cbn [holds]. rewrite andb_true_iff, !bool_decide_eq_true. intros [Hs Hw].
  split; [by apply (reads_status Claimed)|by apply reads_worker].
Qed.

(** The fields of an action after a write. *)
Ltac act_goal Hstep :=
  eexists; split; [exact Hstep|]; unfold apply_actions; cbn [foldl apply_action];
  destruct a, Hr; act_fields; constructor; act_fields; autorewrite with item; first [assumption | reflexivity].

Lemma act_write_refines (xs : list action) (c : cond) :
  act_write xs c -> holds c it = true -> exists a', act_step a a' /\ action_reads (apply_actions xs it) a'.
Proof using Hr.
  destruct 1 as [worker lease|worker lease|[worker|] result isError now]; intros Hc.
  - cbn [holds] in Hc. apply bool_decide_eq_true, (reads_status Requested) in Hc.
    pose proof (act_claim a worker lease Hc) as Hstep. act_goal Hstep.
  - apply held_reads in Hc as [Hs Hw]. pose proof (act_renew a worker lease Hs Hw) as Hstep. act_goal Hstep.
  - apply held_reads in Hc as [Hs Hw]. pose proof (act_answer a worker result isError now Hs Hw) as Hstep. act_goal Hstep.
  - cbn [holds] in Hc. apply bool_decide_eq_true in Hc.
    assert (Action.status a <> Done) as Hs by by rewrite <- (reads_status Done).
    pose proof (act_answer_own a result isError now Hs) as Hstep. act_goal Hstep.
Qed.

Lemma release_refines :
  holds (AttrEq "status" (AS "claimed")) it = true -> Envelope.idempotent (Action.envelope a) = true ->
  exists a', act_step a a' /\ action_reads (apply_actions release_actions it) a'.
Proof using Hr.
  intros Hc Hi. cbn [holds] in Hc. apply bool_decide_eq_true, (reads_status Claimed) in Hc.
  pose proof (act_release a Hc Hi) as Hstep. unfold release_actions. act_goal Hstep.
Qed.
End writes.

(** ** The table *)

(** The record of an action, and the index entry of a call. *)
Definition action_at (w : World) (tenantId actionId : string) (a : ComputerAction) : Prop :=
  exists it, tbl w !! computerActionKey tenantId actionId = Some it /\ action_reads it a /\
    Action.tenantId a = tenantId /\ Action.actionId a = actionId.

Definition indexed (w : World) (tenantId turnId callId actionId : string) : Prop :=
  exists it, tbl w !! turnActionIndexKey tenantId turnId callId = Some it /\ is_Some (it !! "pk") /\
    required_string it "action_id" = Some actionId.

(** Identifiers do not contain the separator of the keys. *)
Definition plain (s : string) : Prop := string_has (Ascii.ascii_of_nat 35) s = false.

Inductive act_sys (w : World) : World -> Prop :=
| as_update tenantId actionId it a it' a' :
    plain tenantId -> tbl w !! computerActionKey tenantId actionId = Some it -> action_reads it a -> action_reads it' a' -> act_step a a' ->
    act_sys w (with_tbl w (<[computerActionKey tenantId actionId := it']> (tbl w)))
| as_create a :
    plain (Action.tenantId a) ->
    item_at w (turnActionIndexKey (Action.tenantId a) (Action.turnId a) (Action.callId a)) !! "pk" = None ->
    tbl w !! computerActionKey (Action.tenantId a) (Action.actionId a) = None ->
    act_sys w (with_tbl w (foldl txop_write (tbl w) (create_ops a)))
| as_frame w' :
    (forall t i, tbl w' !! computerActionKey t i = tbl w !! computerActionKey t i) ->
    (forall t u c, tbl w' !! turnActionIndexKey t u c = tbl w !! turnActionIndexKey t u c) ->
    act_sys w w'.

Lemma create_ops_write (m : gmap key item) (a : ComputerAction) :
  foldl txop_write m (create_ops a) =
  <[computerActionKey (Action.tenantId a) (Action.actionId a) := encodeAction a]>
    (<[turnActionIndexKey (Action.tenantId a) (Action.turnId a) (Action.callId a) := encodeActionIndex a]> m).
Proof.
  unfold create_ops. cbn [foldl txop_write].
  assert (item_key (encodeActionIndex a) = Some (turnActionIndexKey (Action.tenantId a) (Action.turnId a) (Action.callId a))) as -> by done.
  assert (item_key (encodeAction a) = Some (computerActionKey (Action.tenantId a) (Action.actionId a))) as ->; [|done].
  unfold item_key, encodeAction. by rewrite !lookup_put_if_ne by done.
Qed.

(** *** Keys *)

Lemma plain_app_inj (t t' r r' : string) :
  plain t -> plain t' -> t +:+ String (Ascii.ascii_of_nat 35) r = t' +:+ String (Ascii.ascii_of_nat 35) r' -> t = t' /\ r = r'.
Proof.
  unfold plain. revert t'. induction t as [|x t IH]; intros [|x' t']; cbn [string_has]; rewrite ?string_app_cons, ?string_app_nil.
  - by intros _ _ [= ->].
  - intros _ [Hx _]%orb_false_iff [= Heq _]. by rewrite bool_decide_eq_false in Hx.
  - intros [Hx _]%orb_false_iff _ [= Heq _]. rewrite bool_decide_eq_false in Hx. by destruct Hx.
  - intros [_ Ht]%orb_false_iff [_ Ht']%orb_false_iff [= -> Heq]. destruct (IH _ Ht Ht' Heq) as [-> ->]. done.
Qed.

Lemma string_app_inj_r (a b s : string) : a +:+ s = b +:+ s -> a = b.
Proof.
  revert b. induction a as [|x a IH]; intros [|y b]; rewrite ?string_app_cons, ?string_app_nil; [done| | |].
  - intros Heq%(f_equal String.length). cbn in Heq. rewrite string_length_app in Heq. lia.
  - intros Heq%(f_equal String.length). cbn in Heq. rewrite string_length_app in Heq. lia.
  - intros [= -> Heq]. f_equal. by apply IH.
Qed.

Lemma computerActionKey_inj t i t' i' : computerActionKey t i = computerActionKey t' i' -> t = t' /\ i = i'.
Proof.
  intros Heq. split; [apply (f_equal fst) in Heq|apply (f_equal snd) in Heq]; cbn [fst snd computerActionKey] in Heq.
  - by apply string_app_inj_r in Heq.
  - by apply string_app_inj_l in Heq.
Qed.

Lemma turnActionIndexKey_inj t u c t' u' c' :
  plain t -> plain t' -> turnActionIndexKey t u c = turnActionIndexKey t' u' c' -> t = t' /\ u = u' /\ c = c'.
Proof.
  intros Ht Ht' Heq. pose proof (f_equal fst Heq) as H1. pose proof (f_equal snd Heq) as H2. cbn [fst snd turnActionIndexKey] in *.
  apply string_app_inj_l in H2. rewrite !string_app_cons in H1.
  destruct (plain_app_inj _ _ _ _ Ht Ht' H1) as [-> H3]. by apply (string_app_inj_l "turn#") in H3.
Qed.

Lemma record_not_index t i t' u c : plain t -> plain t' -> computerActionKey t i <> turnActionIndexKey t' u c.
Proof.
  intros Ht Ht' Heq%(f_equal fst). cbn [fst computerActionKey turnActionIndexKey] in Heq. rewrite !string_app_cons in Heq.
  by destruct (plain_app_inj _ _ _ _ Ht Ht' Heq) as [_ ?].
Qed.

(** *** What a write leaves *)

(** An action as it reads back: moments in whole seconds, empty texts absent. *)
Definition stored_action (a : ComputerAction) : ComputerAction :=
  a {{ Action.userId := Action.userId a ≫= text_or_null;
       Action.claimedBy := Action.claimedBy a ≫= text_or_null;
       Action.leaseExpiresAt := stored_moment <$> Action.leaseExpiresAt a;
       Action.result := Action.result a ≫= text_or_null;
       Action.createdAt := stored_moment (Action.createdAt a);
       Action.completedAt := stored_moment <$> Action.completedAt a }}.

Lemma envelope_of_json_json (e : ActionEnvelope) : envelope_of_json (envelope_json e) = Some e.
Proof. by destruct e as [t i [p|] [c|] [o|]]. Qed.

Lemma text_fields_object (l : list (string * string)) :
  (as_object (text_object l)) ≫= text_fields = Some l.
Proof. cbn. apply mapM_fmap_inv. by intros []. Qed.

Lemma optionalString_put (it : item) (n : string) (o : option string) :
  it !! n = AS <$> o -> optionalString it n = o ≫= text_or_null.
Proof. unfold optionalString. intros ->. by destruct o. Qed.

Lemma optionalDate_put (it : item) (n : string) (o : option Z) :
  it !! n = (AN ∘ epochSeconds) <$> o -> optionalDate it n = stored_moment <$> o.
Proof. unfold optionalDate, optionalNumber, required_number. intros ->. by destruct o. Qed.

#[local] Arguments stringify : simpl never.

Lemma encodeAction_reads (a : ComputerAction) : action_reads (encodeAction a) (stored_action a).
Proof.
  assert (forall n s, encodeAction a !! n = Some (AS s) -> required_string (encodeAction a) n = Some s) as Hs.
  { intros n s Hn. unfold required_string. by rewrite Hn. }
  constructor;
    try (apply Hs; unfold encodeAction; lookup_item; destruct a; reflexivity).
  - rewrite (Hs "arguments" (stringify (text_object (Action.arguments a)))) by (unfold encodeAction; lookup_item; reflexivity).
    cbn [mbind option_bind]. rewrite parse_stringify. cbn [mbind option_bind].
    rewrite text_fields_object. by destruct a.
  - rewrite (Hs "envelope" (stringify (envelope_json (Action.envelope a)))) by (unfold encodeAction; lookup_item; reflexivity).
    cbn [mbind option_bind]. rewrite parse_stringify. cbn [mbind option_bind].
    rewrite envelope_of_json_json. by destruct a.
  - rewrite (optionalString_put _ "user_id" (Action.userId a)) by (unfold encodeAction; by lookup_item). by destruct a.
  - rewrite (optionalString_put _ "claimed_by" (Action.claimedBy a)) by (unfold encodeAction; by lookup_item). by destruct a.
  - rewrite (optionalDate_put _ "lease_expires_at" (Action.leaseExpiresAt a)) by (unfold encodeAction; by lookup_item). by destruct a.
  - rewrite (optionalString_put _ "result" (Action.result a)) by (unfold encodeAction; by lookup_item). by destruct a.
  - assert (optionalFlag (encodeAction a) "result_is_error" = Some (Action.resultIsError a)) as ->; [|by destruct a].
    unfold optionalFlag, encodeAction. lookup_item. reflexivity.
  - assert (optionalDate (encodeAction a) "created_at" = Some (stored_moment (Action.createdAt a))) as ->; [|by destruct a].
    unfold optionalDate, optionalNumber, required_number, encodeAction. lookup_item. reflexivity.
  - rewrite (optionalDate_put _ "completed_at" (Action.completedAt a)) by (unfold encodeAction; by lookup_item). by destruct a.
Qed.

Lemma encodeAction_key (a : ComputerAction) :
  item_key (encodeAction a) = Some (computerActionKey (Action.tenantId a) (Action.actionId a)).
Proof. unfold item_key, encodeAction. by rewrite !lookup_put_if_ne by done. Qed.

(** ** One write, seen from one action and from one call *)

Section system.

Lemma act_sys_action w w' t i a :
  plain t -> act_sys w w' -> action_at w t i a -> exists a', rtc act_step a a' /\ action_at w' t i a'.
Proof.
  intros Ht Hsys (it & Hit & Hr & Hten & Hid).
  destruct Hsys as [t' i' it0 a0 it' a' Ht' Hit0 Hr0 Hr' Hstep|b Hb Hidx Hrec|w' Hframe _].
  - destruct (decide (computerActionKey t' i' = computerActionKey t i)) as [Heq|Hne].
    + rewrite Heq in *. simplify_eq. assert (a0 = a) as ->.
      { apply decodeAction_reads in Hr, Hr0. congruence. }
      exists a'. split; [by apply rtc_once|]. apply act_step_same_call in Hstep as (? & ? & _).
      exists it'. cbn. rewrite lookup_insert_eq. split_and!; congruence.
    + exists a. split; [done|]. exists it. cbn. by rewrite lookup_insert_ne.
  - exists a. split; [done|]. exists it. cbn [tbl with_tbl]. rewrite create_ops_write.
    rewrite lookup_insert_ne by (intros Heq; rewrite Heq in *; congruence).
    rewrite lookup_insert_ne by (intros Heq; symmetry in Heq; by eapply record_not_index in Heq). done.
  - exists a. split; [done|]. exists it. by rewrite Hframe.
Qed.

Lemma act_sys_index w w' t u c i : plain t -> act_sys w w' -> indexed w t u c i -> indexed w' t u c i.
Proof.
  intros Ht Hsys (it & Hit & Hpk & Hid).
  destruct Hsys as [t' i' it0 a0 it' a' Ht' Hit0 Hr0 Hr' Hstep|b Hb Hidx Hrec|w' _ Hframe].
  - exists it. cbn. by rewrite lookup_insert_ne by by apply record_not_index.
  - exists it. cbn [tbl with_tbl]. rewrite create_ops_write.
    rewrite lookup_insert_ne by by apply record_not_index. rewrite lookup_insert_ne; [done|].
    intros Heq. rewrite Heq in Hidx. unfold item_at in Hidx. rewrite Hit in Hidx. cbn in Hidx.
    destruct Hpk as [? Hpk]. congruence.
  - exists it. by rewrite Hframe.
Qed.

Lemma act_syses_action w w' t i a :
  plain t -> rtc act_sys w w' -> action_at w t i a -> exists a', rtc act_step a a' /\ action_at w' t i a'.
Proof.
  intros Ht Hsys. revert a. induction Hsys as [w|w w1 w2 H1 Hsys IH]; intros a Ha; [by exists a|].
  destruct (act_sys_action _ _ _ _ _ Ht H1 Ha) as (a1 & Hs1 & Ha1). destruct (IH _ Ha1) as (a2 & Hs2 & Ha2).
  exists a2. split; [by trans a1|done].
Qed.

Lemma act_syses_index w w' t u c i : plain t -> rtc act_sys w w' -> indexed w t u c i -> indexed w' t u c i.
Proof. intros Ht. induction 1; eauto using act_sys_index. Qed.

Lemma action_at_inj w t i a a' : action_at w t i a -> action_at w t i a' -> a = a'.
Proof.
  intros (it & Hit & Hr & _) (it' & Hit' & Hr' & _). simplify_eq. apply decodeAction_reads in Hr, Hr'. congruence.
Qed.

(** Every record of an action reads as the action of its key, and every index entry names a record of its call. *)
Record acts_ok (w : World) : Prop := {
  ok_records : forall t i it, plain t -> tbl w !! computerActionKey t i = Some it -> exists a, action_at w t i a;
  ok_calls : forall t u c it, plain t -> tbl w !! turnActionIndexKey t u c = Some it ->
    exists i a, indexed w t u c i /\ action_at w t i a /\ Action.turnId a = u /\ Action.callId a = c;
}.

Lemma stored_same_call a : Action.userId a <> Some "" -> same_call a (stored_action a).
Proof. destruct a as [? ? ? ? ? ? [u|]]; unfold same_call; act_fields; cbn; [|done]. intros Hu. by rewrite text_or_null_ne by congruence. Qed.

Lemma created_at w a :
  let w' := with_tbl w (foldl txop_write (tbl w) (create_ops a)) in
  plain (Action.tenantId a) ->
  action_at w' (Action.tenantId a) (Action.actionId a) (stored_action a) /\
  indexed w' (Action.tenantId a) (Action.turnId a) (Action.callId a) (Action.actionId a).
Proof.
  intros w' Hp. subst w'. split.
  - exists (encodeAction a). cbn [tbl with_tbl]. rewrite create_ops_write, lookup_insert_eq.
    split_and!; [done|apply encodeAction_reads|by destruct a..].
  - exists (encodeActionIndex a). cbn [tbl with_tbl]. rewrite create_ops_write.
    rewrite lookup_insert_ne by by apply record_not_index. by rewrite lookup_insert_eq.
Qed.

Lemma act_sys_ok w w' : acts_ok w -> act_sys w w' -> acts_ok w'.
Proof.
  intros [Hrec Hcall] Hsys.
  assert (forall t i a, plain t -> action_at w t i a ->
    exists a', action_at w' t i a' /\ Action.turnId a' = Action.turnId a /\ Action.callId a' = Action.callId a) as Hkeep.
  { intros t i a Ht Ha. destruct (act_sys_action _ _ _ _ _ Ht Hsys Ha) as (a' & Hs & Ha').
    apply act_steps_same_call in Hs as (_ & _ & ? & ? & _). eauto. }
  assert (forall t u c it, plain t -> tbl w !! turnActionIndexKey t u c = Some it ->
    exists i a, indexed w' t u c i /\ action_at w' t i a /\ Action.turnId a = u /\ Action.callId a = c) as Hcalls.
  { intros t u c it Ht Hit. destruct (Hcall _ _ _ _ Ht Hit) as (i & a & Hi & Ha & <- & <-).
    destruct (Hkeep _ _ _ Ht Ha) as (a' & Ha' & Hu & Hc). exists i, a'. split_and!; try done.
    by eapply act_sys_index. }
  destruct Hsys as [t' i' it0 a0 it' a' Ht' Hit0 Hr0 Hr' Hstep|b Hb Hidx Hnone|w' Hf1 Hf2].
  - constructor.
    + intros t i it Ht Hit. destruct (decide (computerActionKey t' i' = computerActionKey t i)) as [Heq|Hne].
      * rewrite Heq in *. destruct (Hrec _ _ _ Ht Hit0) as (a & Ha). destruct (Hkeep _ _ _ Ht Ha) as (? & ? & _). eauto.
      * cbn in Hit. rewrite lookup_insert_ne in Hit by done. destruct (Hrec _ _ _ Ht Hit) as (a & Ha).
        destruct (Hkeep _ _ _ Ht Ha) as (? & ? & _). eauto.
    + intros t u c it Ht Hit. cbn in Hit. rewrite lookup_insert_ne in Hit by by apply record_not_index. by eapply Hcalls.
  - destruct (created_at w b Hb) as [Ha Hi]. cbn [tbl with_tbl] in *. constructor.
    + intros t i it Ht Hit. destruct (decide (computerActionKey (Action.tenantId b) (Action.actionId b) = computerActionKey t i)) as [Heq|Hne].
      * apply computerActionKey_inj in Heq as [<- <-]. eauto.
      * cbn [tbl with_tbl] in Hit. rewrite create_ops_write, lookup_insert_ne in Hit by done.
        rewrite lookup_insert_ne in Hit by (intros Heq; symmetry in Heq; by eapply record_not_index in Heq).
        destruct (Hrec _ _ _ Ht Hit) as (a & Ha'). destruct (Hkeep _ _ _ Ht Ha') as (? & ? & _). eauto.
    + intros t u c it Ht Hit.
      destruct (decide (turnActionIndexKey (Action.tenantId b) (Action.turnId b) (Action.callId b) = turnActionIndexKey t u c)) as [Heq|Hne].
      * apply turnActionIndexKey_inj in Heq as (<- & <- & <-); [|done..]. exists (Action.actionId b), (stored_action b).
        split_and!; try done; by destruct b.
      * cbn [tbl with_tbl] in Hit. rewrite create_ops_write, lookup_insert_ne in Hit by by apply record_not_index.
        rewrite lookup_insert_ne in Hit by done. by eapply Hcalls.
  - constructor.
    + intros t i it Ht Hit. rewrite Hf1 in Hit. destruct (Hrec _ _ _ Ht Hit) as (a & Ha).
      destruct (Hkeep _ _ _ Ht Ha) as (? & ? & _). eauto.
    + intros t u c it Ht Hit. rewrite Hf2 in Hit. by eapply Hcalls.
Qed.

Lemma act_syses_ok w w' : acts_ok w -> rtc act_sys w w' -> acts_ok w'.
Proof. intros Hok. induction 1; eauto using act_sys_ok. Qed.
End system.
