(* ===== verification/ActionPrograms.v ===== *)
(** * The functions over computer actions under interference

    Executions of the functions of Actions.v while other processes make the writes of ActionSystem.v. *)

From S2P Require Import Prelude Json Types Service Retry Paging TurnCodec TurnStore TurnSpec TurnRefine TurnSystem.
From S2P Require Import TurnPrograms Actions ActionSystem.
From stdpp Require Import sorting.
#[local] Open Scope Z_scope.
#[local] Open Scope cond_scope.
#[local] Open Scope prog_scope.

Section programs.
Context `{Service} (I : World -> World -> Prop).

(** ** Reads *)

Lemma exec_read_action it w o w' : exec I (read_action it) w o w' -> o = decode_action it /\ rtc I w w'.
Proof. unfold read_action. destruct (decode_action it); by intros [-> ?]. Qed.

Lemma silent_action_get t i : silent I (action_get t i).
Proof.
  apply silent_bind; [apply silent_get|]. intros [it|]; [|apply silent_ret].
  apply silent_bind; [|intros; apply silent_ret]. intros w o w' [_ ?]%exec_read_action. done.
Qed.

(** What a read returned is the record at some moment of the read. *)
Lemma exec_action_get t i w o w' :
  exec I (action_get t i) w (Ok o) w' ->
  exists w1, rtc I w w1 /\ rtc I w1 w' /\
    match o with
    | None => tbl w1 !! computerActionKey t i = None
    | Some a => exists it, tbl w1 !! computerActionKey t i = Some it /\ action_reads it a
    end.
Proof.
  intros [(x & w1 & (w2 & Hw2 & -> & Hw1)%exec_get & Hrest)|(e & [=] & _)]%exec_bind.
  exists w2. destruct (tbl w2 !! computerActionKey t i) as [it|] eqn:Hit.
  - apply exec_bind in Hrest as [(a & w3 & [Ha Hw3]%exec_read_action & [[= ->] Hw'])|(e & [=] & _)].
    unfold decode_action in Ha. destruct (decodeAction it) eqn:Hd; simplify_eq.
    split_and!; [done|trans w1; [done|by trans w3]|]. exists it. split; [done|]. by apply decodeAction_reads.
  - destruct Hrest as [[= ->] Hw']. split_and!; try done. by trans w1.
Qed.

Lemma silent_getByCall t u c : silent I (getByCall t u c).
Proof.
  apply silent_bind; [apply silent_get|]. intros o. destruct (o ≫= _); [apply silent_action_get|apply silent_ret].
Qed.

(** ** Updates *)

Lemma action_update_exec t i xs c w o w' :
  exec I (action_update t i xs c) w o w' ->
  (exists e, o = Err e /\ rtc I w w') \/
  (o = Ok None /\ exists w1, rtc I w w1 /\
     holds (AttrExists "pk" AND c) (item_at w1 (computerActionKey t i)) = false /\ rtc I w1 w') \/
  (exists w1 it it', rtc I w w1 /\ tbl w1 !! computerActionKey t i = Some it /\ holds c it = true /\
     it' = apply_actions xs it /\
     rtc I (with_tbl w1 (<[computerActionKey t i := it']> (tbl w1))) w' /\
     o = match decode_action it' with Ok a => Ok (Some a) | Err e => Err e end).
Proof.
  unfold action_update. intros Hex.
  assert (forall x, exec I (let! attributes := send (UpdateItem (computerActionKey t i) xs (AttrExists "pk" AND c)) in
                            read_action attributes) w x w' ->
    (exists e, x = Err e /\ rtc I w w' /\ (e = ConditionalCheckFailedException -> exists w1, rtc I w w1 /\
        holds (AttrExists "pk" AND c) (item_at w1 (computerActionKey t i)) = false /\ rtc I w1 w')) \/
    (exists w1 it it', rtc I w w1 /\ tbl w1 !! computerActionKey t i = Some it /\ holds c it = true /\
       it' = apply_actions xs it /\
       rtc I (with_tbl w1 (<[computerActionKey t i := it']> (tbl w1))) w' /\ x = decode_action it')) as Hx.
  { intros x [(it & w1 & Hu & [-> Hd]%exec_read_action)|(e & -> & Hu)]%exec_bind.
    - apply exec_send in Hu as (w2 & w3 & Hw2 & (Hc & -> & ->)%respond_contract & Hw3). right.
      unfold item_at in Hc. cbn [holds] in Hc. rewrite andb_true_iff in Hc. destruct Hc as [Hpk Hc].
      destruct (tbl w2 !! computerActionKey t i) as [it0|] eqn:Hit; [|by apply bool_decide_eq_true in Hpk as [? Hpk]].
      exists w2, it0, (apply_actions xs it0). cbn in Hc, Hw3. split_and!; try done. by trans w1.
    - apply exec_send in Hu as (w2 & w3 & Hw2 & [-> [_ Hc]]%respond_contract & Hw3). left. exists e.
      split_and!; [done|by trans w2|]. intros ->. by exists w2. }
  apply exec_null_when in Hex as [(a & -> & Hp%Hx)|[[-> Hp%Hx]|(e & Hne & -> & Hp%Hx)]].
  - destruct Hp as [(e & [=] & _)|(w1 & it & it' & ? & ? & ? & ? & ? & Heq)]. right. right. exists w1, it, it'.
    split_and!; try done. by rewrite <- Heq.
  - destruct Hp as [(e & [= <-] & _ & Hc)|(w1 & it & it' & ? & ? & ? & ? & ? & Heq)].
    + right. left. split; [done|]. by apply Hc.
    + unfold decode_action in Heq. by destruct (decodeAction it').
  - destruct Hp as [(e' & [= <-] & ? & _)|(w1 & it & it' & ? & ? & ? & ? & ? & Heq)]; [left; by exists e|].
    right. right. exists w1, it, it'. split_and!; try done. by rewrite <- Heq.
Qed.

(** ** Guarantees *)

Section guarantees.
Context (HI : forall w w', I w w' -> act_sys w w').

Lemma act_others w w' : rtc I w w' -> rtc act_sys w w'.
Proof using HI. induction 1; [done|]. eapply rtc_l; [by apply HI|done]. Qed.

(** A committed update of an action that exists: one step of its machine. *)
Lemma act_update_commit t i xs c w1 it :
  plain t -> acts_ok w1 -> act_write xs c -> tbl w1 !! computerActionKey t i = Some it -> holds c it = true ->
  exists a a', action_at w1 t i a /\ act_step a a' /\ decode_action (apply_actions xs it) = Ok a' /\
    let w2 := with_tbl w1 (<[computerActionKey t i := apply_actions xs it]> (tbl w1)) in
    act_sys w1 w2 /\ action_at w2 t i a'.
Proof.
  intros Ht Hok Hw Hit Hc. destruct (ok_records _ Hok _ _ _ Ht Hit) as (a & it0 & Hit0 & Hr & Hten & Hid).
  assert (it0 = it) as -> by congruence. destruct (act_write_refines it a Hr xs c Hw Hc) as (a' & Hstep & Hr').
  exists a, a'. split_and!; [by exists it|done| |cbv zeta; split].
  - unfold decode_action. apply decodeAction_reads in Hr'. by rewrite Hr'.
  - by eapply as_update.
  - exists (apply_actions xs it). cbn. rewrite lookup_insert_eq. split_and!; try done;
      apply act_step_same_call in Hstep as (? & ? & _); congruence.
Qed.

(** An update of the store, by outcome. *)
Lemma act_write_exec t i xs c w o w' :
  plain t -> acts_ok w -> act_write xs c -> exec I (action_update t i xs c) w o w' ->
  rtc act_sys w w' /\
  match o with
  | Err _ => rtc I w w'
  | Ok None => exists w1, rtc I w w1 /\ holds (AttrExists "pk" AND c) (item_at w1 (computerActionKey t i)) = false /\ rtc I w1 w'
  | Ok (Some a') => exists w1 a w2, rtc I w w1 /\ action_at w1 t i a /\ act_step a a' /\ act_sys w1 w2 /\
      action_at w2 t i a' /\ rtc I w2 w' /\ holds c (item_at w1 (computerActionKey t i)) = true /\
      action_reads (apply_actions xs (item_at w1 (computerActionKey t i))) a'
  end.
Proof using HI.
  intros Ht Hok Hw [(e & -> & Hx)|[[-> (w1 & Hw1 & Hc & Hw2)]|(w1 & it & it' & Hw1 & Hit & Hc & -> & Hw2 & ->)]]%action_update_exec.
  - split; [by apply act_others|done].
  - split; [apply act_others; by trans w1|]. by exists w1.
  - assert (acts_ok w1) as Hok1 by (eapply act_syses_ok; [done|by apply act_others]).
    destruct (act_update_commit _ _ _ _ _ _ Ht Hok1 Hw Hit Hc) as (a & a' & Ha & Hstep & -> & Hsys & Ha').
    split; [trans w1; [by apply act_others|]; eapply rtc_l; [done|by apply act_others]|].
    exists w1, a, (with_tbl w1 (<[computerActionKey t i := apply_actions xs it]> (tbl w1))).
    unfold item_at. rewrite Hit. split_and!; try done.
    destruct Ha' as (it' & Hit' & Hr' & _). cbn in Hit'. rewrite lookup_insert_eq in Hit'. by simplify_eq.
Qed.

Lemma act_ok_others w w' : acts_ok w -> rtc I w w' -> acts_ok w'.
Proof using HI. intros Hok Hw. eapply act_syses_ok; [done|by apply act_others]. Qed.

(** A release of an action that was seen to be idempotent is a step, too. *)
Lemma release_exec t i a0 w o w' :
  plain t -> acts_ok w -> action_at w t i a0 -> Envelope.idempotent (Action.envelope a0) = true ->
  exec I (action_release t i) w o w' ->
  rtc act_sys w w' /\
  forall a', o = Ok (Some a') -> exists w1 a w2, rtc I w w1 /\ action_at w1 t i a /\ Action.status a = Claimed /\
    Action.status a' = Requested /\ act_sys w1 w2 /\ action_at w2 t i a' /\ rtc I w2 w'.
Proof using HI.
  intros Ht Hok Ha0 Hi [(e & -> & Hx)|[[-> (w1 & Hw1 & Hc & Hw2)]|(w1 & it & it' & Hw1 & Hit & Hc & -> & Hw2 & ->)]]%action_update_exec.
  - split; [by apply act_others|done].
  - split; [apply act_others; by trans w1|done].
  - assert (acts_ok w1) as Hok1 by by eapply act_ok_others.
    destruct (act_syses_action _ _ _ _ _ Ht (act_others _ _ Hw1) Ha0) as (a & Hs & Ha).
    apply act_steps_same_call in Hs as (_ & _ & _ & _ & _ & _ & He & _).
    destruct Ha as (it0 & Hit0 & Hr & Hten & Hid). assert (it0 = it) as -> by congruence.
    pose proof Hc as Hst. cbn [holds] in Hst. apply bool_decide_eq_true, (reads_status it a Hr Claimed) in Hst.
    destruct (release_refines it a Hr Hc) as (a' & Hstep & Hr'); [by rewrite He|].
    assert (act_sys w1 (with_tbl w1 (<[computerActionKey t i := apply_actions release_actions it]> (tbl w1)))) as Hsys
      by by eapply as_update.
    change (apply_actions [_; _; _] it) with (apply_actions release_actions it) in *.
    split; [trans w1; [by apply act_others|]; eapply rtc_l; [done|by apply act_others]|].
    unfold decode_action. pose proof (proj2 (decodeAction_reads _ _) Hr') as ->. intros a2 [= <-].
    exists w1, a, (with_tbl w1 (<[computerActionKey t i := apply_actions release_actions it]> (tbl w1))).
    split_and!; try done; [by exists it| |].
    + pose proof (ar_status _ _ Hr') as Hs'. unfold release_actions, apply_actions in Hs'. cbn [foldl apply_action] in Hs'.
      autorewrite with item in Hs'. by destruct (Action.status a').
    + eexists. cbn. rewrite lookup_insert_eq. split_and!; [done|done|..];
        apply act_step_same_call in Hstep as (? & ? & _); congruence.
Qed.

(** ** Creating *)

(** The identifier of a new action is not used by anybody else. *)
Definition unused (a : ComputerAction) (w : World) : Prop :=
  tbl w !! computerActionKey (Action.tenantId a) (Action.actionId a) = None /\
  forall w1 w2, I w1 w2 -> tbl w1 !! computerActionKey (Action.tenantId a) (Action.actionId a) = None ->
    tbl w2 !! computerActionKey (Action.tenantId a) (Action.actionId a) = None.

Lemma unused_others a w w' : unused a w -> rtc I w w' -> unused a w'.
Proof using Type. intros [Hn Hu]. induction 1; [done|]. eauto. Qed.

Lemma exec_getByCall t u c w w' o :
  plain t -> acts_ok w -> exec I (getByCall t u c) w (Ok o) w' ->
  match o with
  | None => True
  | Some a => exists w1, rtc I w w1 /\ rtc I w1 w' /\ indexed w1 t u c (Action.actionId a) /\
      action_at w1 t (Action.actionId a) a /\ Action.turnId a = u /\ Action.callId a = c
  end.
Proof using HI.
  intros Ht Hok [(x & w1 & (w2 & Hw2 & -> & Hw1)%exec_get & Hrest)|(e & [=] & _)]%exec_bind.
  destruct (tbl w2 !! turnActionIndexKey t u c) as [it|] eqn:Hit; [|by destruct Hrest as [[= ->] _]].
  assert (acts_ok w2) as Hok2 by by eapply act_ok_others.
  destruct (ok_calls _ Hok2 _ _ _ _ Ht Hit) as (i & a & Hidx & Ha & <- & <-).
  destruct Hidx as (it' & Hit' & Hpk & Hi). assert (it' = it) as -> by congruence. cbn [mbind option_bind] in Hrest.
  rewrite Hi in Hrest. destruct o as [r|]; [|done]. apply exec_action_get in Hrest as (w3 & Hw3 & Hw' & it2 & Hit2 & Hr2).
  destruct (act_syses_action w2 w3 t i a Ht) as (a2 & Hs & it3 & Hit3 & Hr3 & Hten & Hid); [apply act_others; by trans w1|done|].
  assert (it3 = it2) as -> by congruence. assert (a2 = r) as ->.
  { apply decodeAction_reads in Hr2, Hr3. congruence. }
  apply act_steps_same_call in Hs as (_ & _ & Hu & Hc & _). subst i.
  exists w3. split_and!; try done; [trans w2; [done|]; by trans w1| |by exists it2].
  eapply (act_syses_index w2); [done|apply act_others; by trans w1|]. by exists it.
Qed.

Lemma createIfAbsent_exec a w r w' :
  plain (Action.tenantId a) -> acts_ok w -> unused a w ->
  exec I (createIfAbsent a) w (Ok r) w' ->
  rtc act_sys w w' /\
  exists w1, rtc act_sys w w1 /\ rtc I w1 w' /\
    indexed w1 (Action.tenantId a) (Action.turnId a) (Action.callId a) (Action.actionId r.1) /\
    if r.2 then r.1 = a /\ action_at w1 (Action.tenantId a) (Action.actionId a) (stored_action a) /\
                exists w0, rtc I w w0 /\
                  item_at w0 (turnActionIndexKey (Action.tenantId a) (Action.turnId a) (Action.callId a)) !! "pk" = None
    else action_at w1 (Action.tenantId a) (Action.actionId r.1) r.1 /\
         Action.turnId r.1 = Action.turnId a /\ Action.callId r.1 = Action.callId a /\ rtc I w w'.
Proof using HI.
  intros Ht Hok Hun [(x & w1 & (y & [= <-] & Hsend)%exec_outcome_of & Hrest)|(er & [=] & _)]%exec_bind.
  apply exec_retry_send in Hsend as (w2 & w3 & Hw2 & Hcon & Hw3). destruct x as [er|[]].
  - destruct Hcon as [-> _]. assert (rtc I w w1) as Hw1 by by trans w2.
    destruct er; try (destruct Hrest as [? _]; done).
    apply exec_bind in Hrest as [(o & w4 & Hget & Hrest)|(er & [=] & _)]. destruct o as [e|]; [|by destruct Hrest].
    destruct Hrest as [[= ->] Hw4].
    apply (exec_getByCall _ _ _ _ _ (Some e) Ht) in Hget as (w5 & Hw5 & Hw54 & Hidx & Ha & Hu & Hc); [|by eapply act_ok_others].
    assert (rtc I w w') as Hww by (trans w1; [done|]; trans w5; [done|]; by trans w4).
    split; [by apply act_others|]. exists w5. cbn [fst snd]. split_and!; try done; [apply act_others; by trans w1|by trans w4].
  - destruct Hrest as [[= ->] Hw1]. destruct Hcon as (_ & Hall & ->).
    apply Forall_cons in Hall as [Hidx _]. unfold txop_holds in Hidx. cbn [txop_key txop_cond] in Hidx.
    assert (item_key (encodeActionIndex a) = Some (turnActionIndexKey (Action.tenantId a) (Action.turnId a) (Action.callId a))) as Hk by done.
    rewrite Hk in Hidx. cbn [holds] in Hidx. apply bool_decide_eq_true in Hidx.
    destruct (unused_others _ _ _ Hun Hw2) as [Hnone _].
    assert (act_sys w2 (with_tbl w2 (foldl txop_write (tbl w2) (create_ops a)))) as Hsys by by apply as_create.
    destruct (created_at w2 a Ht) as [Ha Hi].
    split; [trans w2; [by apply act_others|]; eapply rtc_l; [done|]; apply act_others; by trans w1|].
    eexists. cbn [fst snd]. split_and!; [|by trans w1|exact Hi|done|exact Ha|by exists w2].
    eapply rtc_r; [by apply act_others|done].
Qed.

(** ** Answering *)

(** An action read at some moment, in terms of the table's actions. *)
Lemma exec_action_get_at t i w a w' :
  plain t -> acts_ok w -> exec I (action_get t i) w (Ok (Some a)) w' ->
  exists w1, rtc I w w1 /\ rtc I w1 w' /\ action_at w1 t i a.
Proof using HI.
  intros Ht Hok (w1 & Hw1 & Hw' & it & Hit & Hr)%exec_action_get. exists w1. split_and!; try done.
  destruct (ok_records w1 (act_ok_others _ _ Hok Hw1) _ _ _ Ht Hit) as (a' & Ha').
  assert (a' = a) as ->; [|done]. destruct Ha' as (it' & Hit' & Hr' & _). simplify_eq.
  apply decodeAction_reads in Hr, Hr'. congruence.
Qed.

(** A done action is the same at every later moment. *)
Lemma done_stays t i a w w' : plain t -> rtc act_sys w w' -> action_at w t i a -> Action.status a = Done -> action_at w' t i a.
Proof using Type.
  intros Ht Hsys Ha Hd. destruct (act_syses_action _ _ _ _ _ Ht Hsys Ha) as (a' & Hs & Ha').
  by apply (act_done_final _ _ Hd) in Hs as ->.
Qed.

Lemma exec_clock {A : Type} (k : Z -> prog A) w o w' :
  exec I (let! now := send ClockNow in k now) w o w' ->
  (exists e, o = Err e /\ rtc I w w') \/ exists now w1, rtc I w w1 /\ exec I (k now) w1 o w'.
Proof using Type.
  intros [(now & w1 & (w2 & w3 & Hw2 & Hc%respond_contract & Hw3)%exec_send & Hk)|(e & -> & [Hw _]%exec_send_fails)]%exec_bind.
  - cbn in Hc. subst w3. right. exists now, w1. split; [by trans w2|done].
  - left. by exists e.
Qed.

(** What a completed action reads as. *)
Lemma done_reads it result isError now a :
  action_reads (apply_actions
    [SET "status" (AS "done"); SET "result" (AS result); SET "result_is_error" (ABOOL isError);
     SET "completed_at" (AN (epochSeconds now)); REMOVE "lease_expires_at"] it) a ->
  Action.status a = Done /\ Action.result a = text_or_null result /\ Action.resultIsError a = isError.
Proof using Type.
  intros Hr. pose proof (ar_status _ _ Hr) as Hs. pose proof (ar_result _ _ Hr) as Hres.
  pose proof (ar_isError _ _ Hr) as He. unfold apply_actions in *. cbn [foldl apply_action] in *.
  autorewrite with item in *. split_and!; [by destruct (Action.status a)|done|done].
Qed.

Lemma completeComputerAction_exec t i worker result isError w o w' :
  plain t -> acts_ok w -> exec I (completeComputerAction t i worker result isError) w o w' ->
  rtc act_sys w w' /\
  match o with
  | Err _ => rtc I w w'
  | Ok (a, recorded) => action_at w' t i a /\ Action.status a = Done /\
      if recorded then Action.result a = text_or_null result /\ Action.resultIsError a = isError /\
                       exists w1 a0, rtc I w w1 /\ action_at w1 t i a0 /\ Action.status a0 = Claimed /\
                         Action.claimedBy a0 = text_or_null worker
      else rtc I w w'
  end.
Proof using HI.
  intros Ht Hok [(x & w1 & Hget & Hrest)|(e & -> & Hget%silent_action_get)]%exec_bind; [|split; [by apply act_others|done]].
  assert (rtc I w w1) as Hw1 by by eapply silent_action_get.
  assert (acts_ok w1) as Hok1 by by eapply act_ok_others.
  destruct x as [e|]; [|destruct Hrest as [-> ?]; assert (rtc I w w') by (by trans w1); split; [by apply act_others|done]].
  destruct (exec_action_get_at _ _ _ _ _ Ht Hok Hget) as (w2 & Hw2 & Hw21 & He).
  destruct (decide (Action.status e = Done)) as [Hd|Hnd].
  { destruct Hrest as [-> Hw']. assert (rtc I w w') by (by trans w1). split; [by apply act_others|].
    split_and!; try done. eapply done_stays; [done|apply act_others; by trans w1|done..]. }
  apply exec_clock in Hrest as [(er & -> & Hw')|(now & w3 & Hw3 & Hrest)];
    [assert (rtc I w w') by (by trans w1); split; [by apply act_others|done]|].
  assert (acts_ok w3) as Hok3 by by eapply act_ok_others. assert (rtc I w w3) as Hww3 by by trans w1.
  apply exec_bind in Hrest as [(x & w4 & Hc & Hrest)|(er & -> & Hc)].
  - apply act_write_exec in Hc as [Hsys Hc]; [|done|done|apply (aw_complete (Some worker))].
    assert (rtc act_sys w w4) as Hww4 by (trans w3; [by apply act_others|done]). destruct x as [a|].
    + destruct Hrest as [-> Hw']. split; [trans w4; [done|by apply act_others]|].
      destruct Hc as (w5 & a0 & w6 & Hw5 & Ha0 & Hstep & Hs56 & Ha & Hw64 & Hh & Hra).
      assert (Action.status a0 = Claimed /\ Action.claimedBy a0 = text_or_null worker) as [Hcl Hby].
      { destruct Ha0 as (it & Hit & Hr & _). unfold item_at in Hh. rewrite Hit in Hh. by apply (held_reads it). }
      assert (Action.status a = Done /\ Action.result a = text_or_null result /\ Action.resultIsError a = isError) as (Hd & Hres & Herr).
      { by apply done_reads in Hra. }
      split_and!; try done; [eapply done_stays; [done| |exact Ha|done]; apply act_others; by trans w4|].
      exists w5, a0. split_and!; try done. by trans w3.
    + destruct Hc as (w5 & Hw5 & _ & Hw54). assert (rtc I w w4) as Hi4 by (trans w3; [done|]; by trans w5).
      assert (acts_ok w4) as Hok4 by by apply (act_ok_others w).
      apply exec_bind in Hrest as [(x & w6 & Hget2 & Hrest)|(er & -> & Hget2%silent_action_get)];
        [|assert (rtc I w w') by (by trans w4); split; [by apply act_others|done]].
      assert (rtc I w w6) as Hi6 by (trans w4; [done|by eapply silent_action_get]). destruct x as [c|].
      * destruct (exec_action_get_at _ _ _ _ _ Ht Hok4 Hget2) as (w7 & Hw7 & Hw76 & Hca).
        destruct (decide (Action.status c = Done)) as [Hd|_]; destruct Hrest as [-> Hw'];
          (assert (rtc I w w') by (by trans w6); split; [by apply act_others|]); [|done].
        split_and!; try done. eapply done_stays; [done|apply act_others; by trans w6|done..].
      * destruct Hrest as [-> Hw']. assert (rtc I w w') by (by trans w6). split; [by apply act_others|done].
  - apply act_write_exec in Hc as [Hsys Hc]; [|done|done|apply (aw_complete (Some worker))].
    assert (rtc I w w') by (by trans w3). split; [by apply act_others|done].
Qed.

(** ** Listing, claiming and expiring *)

Context `{Collation}.

(** Every listed action was open at some moment of the listing. *)
Lemma listOpen_exec pages t w o w' :
  plain t -> acts_ok w -> exec I (listOpen pages t) w o w' ->
  rtc I w w' /\
  forall open a, o = Ok open -> a ∈ open ->
    exists w1, rtc I w w1 /\ rtc I w1 w' /\ action_at w1 t (Action.actionId a) a /\ Action.status a <> Done.
Proof using HI.
  intros Ht Hok [(l & w1 & [Hw1 Hl]%query_pages_elem & [-> Hw'])|(e & -> & [Hw _]%query_pages_elem)]%exec_bind; [|done].
  split; [by trans w1|]. intros open a [= <-] Ha. unfold by_age in Ha.
  assert (a ∈ l) as Hal by by rewrite merge_sort_Permutation in Ha.
  destruct (Hl l a eq_refl Hal) as (w2 & [pk sk] & it & Hw2 & Hw21 & (Hit & Hpk & Hsk & Hst) & Hd). cbn [fst snd in_range] in Hpk, Hsk. subst pk.
  apply starts_with_inv in Hsk as [i ->]. change (_, "act#" +:+ i) with (computerActionKey t i) in Hit.
  assert (acts_ok w2) as Hok2 by by apply (act_ok_others w).
  destruct (ok_records _ Hok2 _ _ _ Ht Hit) as (a' & it' & Hit' & Hr & Hten & Hid). assert (it' = it) as -> by congruence.
  unfold decode_action in Hd. pose proof (proj2 (decodeAction_reads _ _) Hr) as Hdec. rewrite Hdec in Hd. simplify_eq.
  exists w2. split_and!; try done; [by trans w1|by exists it|].
  cbn [holds] in Hst. apply bool_decide_eq_true in Hst. by rewrite <- (reads_status it a Hr Done).
Qed.

Lemma claimed_reads it worker lease a :
  action_reads (apply_actions [SET "status" (AS "claimed"); SET "claimed_by" (AS worker);
    SET "lease_expires_at" (AN (epochSeconds lease))] it) a ->
  Action.status a = Claimed /\ Action.claimedBy a = text_or_null worker /\ Action.leaseExpiresAt a = Some (stored_moment lease).
Proof using Type.
  intros Hr. pose proof (ar_status _ _ Hr) as Hs. pose proof (ar_claimedBy _ _ Hr) as Hc.
  pose proof (ar_lease _ _ Hr) as Hl. unfold apply_actions in *. cbn [foldl apply_action] in *.
  autorewrite with item in *. split_and!; [by destruct (Action.status a)|done|done].
Qed.

(** A successful claim takes an action that was requested at that moment. *)
Definition claimed_by (t worker : string) (w : World) (a : ComputerAction) (w' : World) : Prop :=
  exists w1 a0 w2, rtc act_sys w w1 /\ action_at w1 t (Action.actionId a) a0 /\ Action.status a0 = Requested /\
    act_sys w1 w2 /\ action_at w2 t (Action.actionId a) a /\ rtc act_sys w2 w' /\
    Action.status a = Claimed /\ Action.claimedBy a = text_or_null worker.

Lemma action_claim_exec t i worker lease w o w' :
  plain t -> acts_ok w -> exec I (action_claim t i worker lease) w o w' ->
  rtc act_sys w w' /\ forall a, o = Ok (Some a) -> claimed_by t worker w a w' /\ Action.actionId a = i.
Proof using HI.
  intros Ht Hok Hex. apply act_write_exec in Hex as [Hsys Ho]; [|done|done|constructor]. split; [done|]. intros a ->.
  destruct Ho as (w1 & a0 & w2 & Hw1 & Ha0 & _ & Hs & Ha & Hw2 & Hh & Hra).
  assert (Action.actionId a = i) as <- by (by destruct Ha as (? & _ & _ & _ & ?)). split; [|done].
  apply claimed_reads in Hra as (? & ? & _). exists w1, a0, w2. split_and!; try done; [by apply act_others| |by apply act_others].
  destruct Ha0 as (it & Hit & Hr & _). unfold item_at in Hh. rewrite Hit in Hh. cbn [holds] in Hh.
  apply bool_decide_eq_true in Hh. by apply (reads_status it a0 Hr Requested).
Qed.

Lemma claimed_by_earlier t worker w0 w a w' : rtc act_sys w0 w -> claimed_by t worker w a w' -> claimed_by t worker w0 a w'.
Proof using Type. intros Hw (w1 & a0 & w2 & ? & ?). exists w1, a0, w2. split; [by trans w|done]. Qed.

Lemma claimed_by_later t worker w a w' w1 : claimed_by t worker w a w' -> rtc act_sys w' w1 -> claimed_by t worker w a w1.
Proof using Type.
  intros (w2 & a0 & w3 & ? & ? & ? & ? & ? & ? & ?) Hw. exists w2, a0, w3. split_and!; try done; [by trans w'|naive_solver..].
Qed.

Lemma claim_first_exec t worker now refuse open w o w' :
  plain t -> acts_ok w -> exec I (claim_first t worker now refuse open) w o w' ->
  rtc act_sys w w' /\ forall a, o = Ok (Some a) -> claimed_by t worker w a w'.
Proof using HI.
  intros Ht. revert w. induction open as [|b open IH]; intros w Hok; cbn [claim_first].
  { intros [-> Hw]. split; [by apply act_others|done]. }
  destruct (decide (Action.status b = Requested)); [|by apply IH].
  destruct (refuse b); [intros [-> Hw]; split; [by apply act_others|done]|].
  intros [(x & w1 & [Hs Hc]%action_claim_exec & Hrest)|(er & -> & [Hs _]%action_claim_exec)]%exec_bind; try done.
  destruct x as [c|].
  - destruct Hrest as [-> Hw']. apply act_others in Hw'. split; [by trans w1|]. intros a [= <-].
    destruct (Hc c eq_refl) as [Hcl _]. by eapply claimed_by_later.
  - assert (acts_ok w1) as Hok1 by by eapply act_syses_ok. destruct (IH _ Hok1 Hrest) as [Hs' Hc'].
    split; [by trans w1|]. intros a Ha. eapply claimed_by_earlier; [done|by apply Hc'].
Qed.

(** What settling one lost action leaves. *)
Definition settled_action (a : ComputerAction) : Prop :=
  if Envelope.idempotent (Action.envelope a) then Action.status a = Requested
  else Action.status a = Done /\ Action.result a = Some INTERRUPTED_ACTION_RESULT /\ Action.resultIsError a = true.

Definition settled_of (t : string) (a : ComputerAction) : Prop := settled_action a /\ Action.tenantId a = t.

Lemma settle_exec t a now w o w' :
  plain t -> acts_ok w -> (exists w0, rtc act_sys w0 w /\ action_at w0 t (Action.actionId a) a) ->
  exec I (if Envelope.idempotent (Action.envelope a) then action_release t (Action.actionId a)
          else action_complete t (Action.actionId a) None INTERRUPTED_ACTION_RESULT true now) w o w' ->
  rtc act_sys w w' /\ forall a', o = Ok (Some a') -> settled_of t a'.
Proof using HI.
  intros Ht Hok (w0 & Hw0 & Ha) Hex. destruct (act_syses_action _ _ _ _ _ Ht Hw0 Ha) as (a1 & Hs1 & Ha1).
  apply act_steps_same_call in Hs1 as (_ & _ & _ & _ & _ & _ & He1 & _).
  destruct (Envelope.idempotent (Action.envelope a)) eqn:Hi.
  - destruct (release_exec t _ a1 _ _ _ Ht Hok Ha1 ltac:(by rewrite He1) Hex) as [Hs Ho]. split; [done|]. intros a' ->.
    destruct (Ho a' eq_refl) as (w1 & a2 & w2 & Hw1 & Ha2 & _ & Hst & Hsys & Ha' & _).
    destruct (act_syses_action w w2 t (Action.actionId a) a1 Ht) as (a3 & Hs3 & Ha3).
    { eapply rtc_r; [by apply act_others|done]. } { done. }
    rewrite (action_at_inj _ _ _ _ _ Ha' Ha3) in *. apply act_steps_same_call in Hs3 as (_ & _ & _ & _ & _ & _ & He3 & _).
    split; [|by destruct Ha3 as (? & _ & _ & ? & _)]. unfold settled_action. by rewrite He3, He1, Hi.
  - apply act_write_exec in Hex as [Hs Ho]; [|done|done|apply (aw_complete None)]. split; [done|]. intros a' ->.
    destruct Ho as (w1 & a2 & w2 & Hw1 & Ha2 & Hstep & Hsys & Ha' & _ & _ & Hra).
    apply done_reads in Hra as (? & Hres & ?).
    destruct (act_syses_action w w2 t (Action.actionId a) a1 Ht) as (a3 & Hs3 & Ha3).
    { eapply rtc_r; [by apply act_others|done]. } { done. }
    rewrite (action_at_inj _ _ _ _ _ Ha' Ha3) in *. apply act_steps_same_call in Hs3 as (_ & _ & _ & _ & _ & _ & He3 & _).
    split; [|by destruct Ha3 as (? & _ & _ & ? & _)]. unfold settled_action. by rewrite He3, He1, Hi.
Qed.

Lemma expireLost_exec pages t w o w' :
  plain t -> acts_ok w -> exec I (expireLostComputerActions pages t) w o w' ->
  rtc act_sys w w' /\ forall changed, o = Ok changed -> Forall (settled_of t) changed.
Proof using HI.
  intros Ht Hok [(e & -> & Hw)|(now & w1 & Hw1 & Hrest)]%exec_clock; [split; [by apply act_others|done]|].
  assert (acts_ok w1) as Hok1 by by apply (act_ok_others w).
  apply exec_bind in Hrest as [(open & w2 & [Hw2 Hopen]%listOpen_exec & Hloop)|(e & -> & [Hw2 _]%listOpen_exec)]; try done;
    [|split; [apply act_others; by trans w1|done]].
  assert (forall a, a ∈ open -> exists w0, rtc act_sys w0 w2 /\ action_at w0 t (Action.actionId a) a) as Hseen.
  { intros a Ha. destruct (Hopen open a eq_refl Ha) as (w3 & _ & Hw32 & Hat & _). exists w3. split; [by apply act_others|done]. }
  assert (acts_ok w2) as Hok2 by by apply (act_ok_others w1).
  assert (forall l acc wa o wb, (forall a, a ∈ l -> a ∈ open) -> rtc act_sys w2 wa -> Forall (settled_of t) acc ->
    exec I (for_each l acc (fun changed a => if lease_lost now a then
      let! settled := if Envelope.idempotent (Action.envelope a) then action_release t (Action.actionId a)
        else action_complete t (Action.actionId a) None INTERRUPTED_ACTION_RESULT true now in
      Ret (match settled with Some s => changed ++ [s] | None => changed end) else Ret changed)) wa o wb ->
    rtc act_sys w2 wb /\ forall changed, o = Ok changed -> Forall (settled_of t) changed) as Hgen.
  { clear Hloop o w'. induction l as [|a l IH]; intros acc wa o wb Hl Hwa Hacc; cbn [for_each].
    { intros [-> Hw]. split; [trans wa; [done|by apply act_others]|]. by intros ? [= <-]. }
    intros [(acc' & wc & Hone & Hrest)|(e & -> & Hone)]%exec_bind.
    - destruct (lease_lost now a).
      + apply exec_bind in Hone as [(st & wd & Hst & [[= ->] Hwc])|(e & [=] & _)].
        apply settle_exec in Hst as [Hs Hset]; [|done|by eapply act_syses_ok|].
        2:{ destruct (Hseen a) as (w0 & ? & ?); [set_solver|]. exists w0. split; [by trans w2|done]. }
        eapply IH; [set_solver| | |exact Hrest].
        * trans wa; [done|]. trans wd; [done|by apply act_others].
        * destruct st; [|done]. apply Forall_app. split; [done|]. apply Forall_singleton. by apply Hset.
      + destruct Hone as [[= ->] Hwc]. eapply IH; [set_solver| |done|exact Hrest]. trans wa; [done|by apply act_others].
    - destruct (lease_lost now a); [|by destruct Hone].
      apply exec_bind in Hone as [(st & wd & Hst & [[=] _])|(e' & [= <-] & Hst)].
      apply settle_exec in Hst as [Hs _]; [|done|by eapply act_syses_ok|].
      2:{ destruct (Hseen a) as (w0 & ? & ?); [set_solver|]. exists w0. split; [by trans w2|done]. }
      split; [by trans wa|done]. }
  destruct (Hgen open [] w2 o w' (fun _ H => H) (rtc_refl _ _) (Forall_nil_2 _) Hloop) as [Hs Hset].
  split; [|done]. trans w2; [|done]. apply act_others. by trans w1.
Qed.
End guarantees.
End programs.
