(* ===== verification/Probes.v ===== *)
(** * Probes, parking and handing a turn on

    src/conversation/src/turn/probes.ts, src/conversation/src/turn/park.ts and src/conversation/src/turn/yield.ts: the
    programs that make sure a turn whose owner vanished, or that waits for its computer, is looked at again.

    The choice and start of a computer host is the interface [HostRouting] (src/conversation/src/domain/computers.ts and
    workers.ts implement it over the worker registry); whether the conversation already holds an answer is [turnAnswered]
    (it is read from the session storage of Pi). An armed [FaultPlan] crashes the process at a boundary: [crashes]. Delays
    are computed in milliseconds, exactly. *)

From S2P Require Import Prelude Json Types Service Retry Paging TurnCodec TurnStore Turns Actions.
#[local] Open Scope Z_scope.
#[local] Open Scope prog_scope.

Definition MAXIMUM_PROBE_DELAY_SECONDS : Z := 900.
Definition WAITING_LIMIT_SECONDS : Z := 15 * 60.
Definition DEFAULT_MAXIMUM_RECOVERY_ATTEMPTS : Z := 1.
Definition RECOVERY_EXHAUSTED_REASON : string := "recovery attempts exhausted".
Definition COMPUTER_UNAVAILABLE_REASON : string := "computer unavailable".

Definition logicalEnqueueId (turnId : string) (recoveryAttempt : option Z) : string :=
  match recoveryAttempt with
  | None => turnId +:+ "#initial"
  | Some n => turnId +:+ "#recovery-" +:+ dec n
  end.

Definition finalizeEnqueueId (turnId : string) : string := turnId +:+ "#finalize".
Definition yieldEnqueueId (turnId : string) (attempt : Z) : string := turnId +:+ "#yield-" +:+ dec attempt.
Definition resumeEnqueueId (turnId actionId : string) : string := turnId +:+ "#resume-" +:+ actionId.

(** [Math.min(900, Math.max(1, Math.ceil(seconds)))] of a time in milliseconds. *)
Definition clampDelay (milliseconds : Z) : Z :=
  Z.min MAXIMUM_PROBE_DELAY_SECONDS (Z.max 1 ((milliseconds + 999) / 1000)).

Definition runJobFor (t : Turn) : TurnRunJob :=
  RunJob.mk (Turn.tenantId t) (Turn.channelId t) (Turn.botId t) (Turn.turnId t) ["cpu"].

Definition armProbe (t : Turn) (delayMilliseconds : Z) : prog unit :=
  send (SendProbe (Probe.mk (Turn.tenantId t) (Turn.turnId t) (Turn.attempt t)) (clampDelay delayMilliseconds)).

(** What parking needs of the worker registry. *)
Class HostRouting : Type := {
  ensureHostForParkedTurn : Turn -> prog bool;
  ensureComputer : string -> prog string;
  computerIsStopped : string -> prog bool;
}.

Section probes.
Context `{Collation} `{HostRouting}.
Context (crashes : string -> string -> bool) (turnAnswered : Turn -> prog bool) (maximumRecoveryAttempts : Z) (pages : nat).

Definition maybeCrash (boundary window : string) : prog unit :=
  if crashes boundary window then Throw (JsError ("simulated crash " +:+ boundary +:+ " " +:+ window)) else Ret tt.

(** Publish a run job at most once per identifier: record the identifier on the turn, then send. *)
Definition requestLogicalEnqueue (job : TurnRunJob) (enqueueId : string) : prog bool :=
  maybeCrash "logical_enqueue" "before" ;;;
  let! fresh := recordLogicalEnqueue (RunJob.tenantId job) (RunJob.turnId job) enqueueId in
  if (fresh : bool) then
    maybeCrash "logical_enqueue" "after" ;;;
    send (EnqueueRun job) ;;;
    Ret true
  else Ret false.

Definition resumeRecovery (t : Turn) : prog unit :=
  requestLogicalEnqueue (runJobFor t) (logicalEnqueueId (Turn.turnId t) (Some (Turn.recoveryAttempts t))) ;;;
  armProbe t (TURN_DEADLINE_SECONDS * 1000).

Definition handleUnownedTurn (t : Turn) : prog unit :=
  if Turn.recoveryAttempts t <? maximumRecoveryAttempts then
    maybeCrash "deadline_recovery" "before" ;;;
    let! recovered := turns_recoverExpiredTurn t in
    match recovered with
    | None => Ret tt
    | Some r => maybeCrash "deadline_recovery" "after" ;;; resumeRecovery r
    end
  else
    let! answered := turnAnswered t in
    let! requested :=
      if (answered : bool) then requestLogicalEnqueue (runJobFor t) (finalizeEnqueueId (Turn.turnId t)) else Ret false in
    if (requested : bool) then armProbe t (TURN_DEADLINE_SECONDS * 1000)
    else turns_failStaleTurn t LeaseExpired RECOVERY_EXHAUSTED_REASON ;;; Ret tt.

(** ** Parking *)

Definition resumeTurnForAction (tenantId turnId actionId : string) : prog bool :=
  let! cleared := clearWaiting tenantId turnId in
  match cleared with
  | None => Ret false
  | Some t =>
      requestLogicalEnqueue (runJobFor t) (resumeEnqueueId turnId actionId) ;;;
      armProbe t (TURN_DEADLINE_SECONDS * 1000) ;;;
      Ret true
  end.

(** The requested actions whose turn is still parked on them, oldest first. *)
Definition parkedWork (tenantId : string) : prog (list (ComputerAction * Turn)) :=
  let! open := listOpen pages tenantId in
  for_each open [] (fun work a =>
    if decide (Action.status a <> Requested) then Ret work
    else
      let! turn := getTurn tenantId (Action.turnId a) in
      match turn with
      | None => Ret work
      | Some t =>
          if bool_decide (Turn.status t <> Active) || bool_decide (Turn.waitingFor t = None) then Ret work
          else if decide ((PendingComputerTool.actionId <$> Turn.pendingComputerTool t) = Some (Action.actionId a))
          then Ret (work ++ [(a, t)])
          else Ret work
      end).

Definition startOwnerForParkedTurns (tenantId : string) : prog (list string) :=
  let! work := parkedWork tenantId in
  for_each work [] (fun started at_ =>
    let! starting := ensureHostForParkedTurn at_.2 in
    Ret (if (starting : bool) then started ++ [Turn.turnId at_.2] else started)).

(** A tool call: its identifier, its tool and its arguments. *)
Record ComputerToolCall : Type := mkCall {
  call_id : string;
  call_tool : string;
  call_arguments : list (string * string);
}.

Definition parkOnComputerAction (turn : Turn) (attemptId : string) (call : ComputerToolCall) : prog ComputerAction :=
  let! computerId := ensureComputer (Turn.tenantId turn) in
  maybeCrash "computer_action" "before" ;;;
  let! a := requestComputerAction (ActionRequest.mk (Turn.tenantId turn) computerId (Turn.turnId turn)
              (Turn.channelId turn) (Turn.botId turn) (Turn.promptAuthorId turn) (call_id call) (call_tool call)
              (call_arguments call)) in
  maybeCrash "computer_action" "after" ;;;
  maybeCrash "computer_park" "before" ;;;
  releaseForWaiting (Turn.tenantId turn) (Turn.turnId turn) attemptId (Action.gate a)
    (PendingComputerTool.mk (Action.actionId a) (Action.toolName a) (list_to_map (reverse (Action.arguments a)))) ;;;
  maybeCrash "computer_park" "after" ;;;
  ensureHostForParkedTurn turn ;;;
  let! current := action_get (Turn.tenantId turn) (Action.actionId a) in
  (if decide ((Action.status <$> current) = Some Done)
   then resumeTurnForAction (Turn.tenantId turn) (Turn.turnId turn) (Action.actionId a) ;;; Ret tt
   else Ret tt) ;;;
  Ret (default a current).

Definition resumeWaitingTurn (tenantId turnId : string) : prog Turn :=
  let! t := turns_getTurn tenantId turnId in
  if decide (Turn.status t <> Active) then
    Throw (TurnTerminalError ("Turn " +:+ stringify (JStr turnId) +:+ " is not active."))
  else
    match Turn.waitingFor t with
    | None => Throw (TurnNotWaitingError ("Turn " +:+ stringify (JStr turnId) +:+ " is not waiting on a readiness gate."))
    | Some gate =>
        let! stopped := computerIsStopped tenantId in
        if (stopped : bool) then
          Throw (ComputerNotReadyError ("Organization computer for tenant " +:+ stringify (JStr tenantId)
                   +:+ " is still stopped; turn " +:+ stringify (JStr turnId) +:+ " remains waiting on "
                   +:+ stringify (JStr gate) +:+ "."))
        else
          resumeTurnForAction tenantId turnId
            (match Turn.pendingComputerTool t with
             | Some tool => PendingComputerTool.actionId tool
             | None => "resume-" +:+ dec (default 0 (Turn.waitingSince t))
             end) ;;;
          Ret t
    end.

Definition settleParkedTurn (turn : Turn) : prog bool :=
  match Turn.pendingComputerTool turn with
  | None => Ret false
  | Some pending =>
      let! changes := expireLostComputerActions pages (Turn.tenantId turn) in
      let! resumed := for_each changes false (fun resumed changed =>
        if decide (Action.status changed = Done) then
          let! r := resumeTurnForAction (Action.tenantId changed) (Action.turnId changed) (Action.actionId changed) in
          Ret (if (r : bool) then resumed || bool_decide (Action.turnId changed = Turn.turnId turn) else resumed)
        else Ret resumed) in
      if (resumed : bool) then Ret true
      else
        let! a := action_get (Turn.tenantId turn) (PendingComputerTool.actionId pending) in
        match a with
        | Some a =>
            match Action.status a with
            | Done => resumeTurnForAction (Turn.tenantId turn) (Turn.turnId turn) (Action.actionId a)
            | Requested => ensureHostForParkedTurn turn ;;; Ret false
            | Claimed => Ret false
            end
        | None => Ret false
        end
  end.

(** ** The probe *)

(** Whether a recovered turn nobody holds has not been given its next run. *)
Definition recovery_unrequested (t : Turn) : bool :=
  bool_decide (Turn.attemptId t = None) && (0 <? Turn.recoveryAttempts t) &&
  bool_decide (logicalEnqueueId (Turn.turnId t) (Some (Turn.recoveryAttempts t)) ∉ Turn.logicalEnqueueIds t).

(** [turn.leaseExpiresAt ?? turn.deadlineAt]. *)
Definition ownedUntil (t : Turn) : option Z :=
  match Turn.leaseExpiresAt t with Some l => Some l | None => Turn.deadlineAt t end.

(** How long a waiting turn may still wait, in milliseconds. *)
Definition waiting_remaining (t : Turn) (now : Z) : Z :=
  let since := match Turn.waitingSince t with Some s => s | None => default now (Turn.deadlineAt t) end in
  WAITING_LIMIT_SECONDS * 1000 - (now - since).

Definition handleProbe (m : TurnProbeMessage) : prog unit :=
  let! turn := getTurn (Probe.tenantId m) (Probe.turnId m) in
  match turn with
  | None => Ret tt
  | Some t =>
      if decide (Turn.status t <> Active) then Ret tt
      else
        let superseded := Probe.expectAttempt m <? Turn.attempt t in
        let! now := send ClockNow in
        match Turn.waitingFor t with
        | Some _ =>
            if superseded then Ret tt
            else
              let! settled := settleParkedTurn t in
              if (settled : bool) then Ret tt
              else
                if waiting_remaining t now <=? 0 then
                  turns_failStaleTurn t StillWaiting COMPUTER_UNAVAILABLE_REASON ;;; Ret tt
                else armProbe t (Z.min (waiting_remaining t now) (ATTEMPT_LEASE_SECONDS * 1000))
        | None =>
            if recovery_unrequested t then resumeRecovery t
            else
              match ownedUntil t with
              | Some until =>
                  if now <? until then if superseded then Ret tt else armProbe t (until - now)
                  else handleUnownedTurn t
              | None => handleUnownedTurn t
              end
        end
  end.

(** ** Handing a turn on *)

Definition yieldAttempt (tenantId turnId attemptId : string) : prog unit :=
  let! t := turns_getTurn tenantId turnId in
  turns_relinquishTurn tenantId turnId attemptId ;;;
  requestLogicalEnqueue (runJobFor t) (yieldEnqueueId turnId (Turn.attempt t)) ;;;
  armProbe t (TURN_DEADLINE_SECONDS * 1000).

Definition parkAttempt (tenantId turnId attemptId gate : string) (tool : PendingComputerTool) : prog unit :=
  releaseForWaiting tenantId turnId attemptId gate tool ;;;
  let! t := turns_getTurn tenantId turnId in
  armProbe t (ATTEMPT_LEASE_SECONDS * 1000).

End probes.
