(* ===== verification/Demo.v ===== *)
(** * A concrete system

    A collation, an empty table and a table with one started turn, on which the theorems of the development are applied. *)

From S2P Require Import Prelude Json Types Service Retry Paging TurnCodec Grant TurnStore Turns TurnSpec TurnRefine.
From S2P Require Import TurnSystem TurnPrograms Mailbox Admission Actions ActionSystem.
#[local] Open Scope Z_scope.

#[export] Instance byte_collation : Collation := {| locale_le := String.le; locale_dec := _ |}.

(** Nobody else is about. *)
Definition alone (w w' : World) : Prop := False.

Lemma alone_sys w w' : alone w w' -> sys w w'.
Proof. done. Qed.
Lemma alone_act w w' : alone w w' -> act_sys w w'.
Proof. done. Qed.
Lemma alone_rtc w w' : rtc alone w w' -> w' = w.
Proof. by destruct 1 as [|? ? ? []]. Qed.
Lemma alone_quiet pk : quiet alone pk.
Proof. by intros w w' sk []. Qed.

Definition empty_world : World := World.mk ∅ [] [] [].

Lemma empty_ok : all_ok empty_world.
Proof. intros pk _. cbn. rewrite lookup_empty. intros sk _. apply lookup_empty. Qed.

Lemma empty_acts_ok : acts_ok empty_world.
Proof. constructor; cbn; intros *; rewrite lookup_empty; done. Qed.

Definition demo_request : StartTurnRequest :=
  StartTurnRequest.mk "acme" "general" "helper" "t1" 7 "ann" None 1000000 "e1" None.

Definition demo_world : World := with_tbl empty_world (foldl txop_write ∅ (start_ops demo_request)).

Lemma demo_contract : contract (TransactWrite (start_ops demo_request)) empty_world (inr tt) demo_world.
Proof.
  split; [|split; [|done]].
  - apply (bool_decide_unpack _). vm_compute. done.
  - apply (bool_decide_unpack _). vm_compute. done.
Qed.

Lemma demo_represents :
  all_ok demo_world /\ represents demo_world (turnItemPartitionKey "acme" "t1") (started demo_request).
Proof.
  destruct (start_represents _ _ _ empty_ok demo_contract) as (_ & Hrep & Hsys).
  split; [by eapply sys_ok; [apply empty_ok|]|done].
Qed.

Lemma demo_reachable : reachable (started demo_request).
Proof. exists (started demo_request). split; [apply started_initial|done]. Qed.

(** The local service at one second past 1970-01-01T00:16:40Z. *)
Definition demo_local : Local := mkLocal 1001000 0.

(** A run of the local service, with nobody else about, is an execution. *)
Lemma run_exec_to {A : Type} (p : prog A) (l : Local) (w : World) (o : exn + A) :
  (run p l w).1 = o -> exec (H:=local_service) alone p w o (run p l w).2.
Proof. intros <-. apply run_exec. Qed.

(** The local service with its clock standing at a moment. *)
Definition clock_respond (now : Z) {R : Type} (r : request R) (w : World) (x : exn + R) (w' : World) : Prop :=
  exists l, local_now l = now /\ (handle r l w).1 = (x, w').

Lemma clock_respond_contract (now : Z) {R : Type} (r : request R) (w : World) (x : exn + R) (w' : World) :
  clock_respond now r w x w' -> contract r w x w'.
Proof. intros (l & _ & Hl). pose proof (handle_contract r l w) as Hc. by rewrite Hl in Hc. Qed.

Definition clock_service (now : Z) : Service :=
  {| respond := @clock_respond now; respond_contract := @clock_respond_contract now |}.

Lemma handle_now {R : Type} (r : request R) (l : Local) (w : World) : local_now (handle r l w).2 = local_now l.
Proof.
  destruct r; cbn; repeat (case_match; cbn); done.
Qed.

Lemma run_exec_at {A : Type} (p : prog A) (l : Local) (w : World) (o : exn + A) :
  (run p l w).1 = o -> exec (H:=clock_service (local_now l)) alone p w o (run p l w).2.
Proof.
  intros <-. revert l w. induction p as [a|e|R r k IH]; intros l w; cbn [run exec].
  - split; [done|apply rtc_refl].
  - split; [done|apply rtc_refl].
  - pose proof (handle_now r l w) as Hnow. destruct (handle r l w) as [[x w'] l'] eqn:E. exists w, x, w'.
    split; [apply rtc_refl|]. split; [exists l; by rewrite E|]. cbn in Hnow. rewrite <- Hnow. apply IH.
Qed.

(** The turn after a run of a method of the store: represented, and read from the table. *)
Lemma run_represents {A : Type} (p : prog A) (l : Local) (w : World) (pk : string) (s : AbstractTurn) (t : Turn) :
  store_program p -> all_ok w -> represents w pk s -> reachable s ->
  (tbl (run p l w).2 !! (pk, "meta")) ≫= turnFromItem = Some t ->
  all_ok (run p l w).2 /\ exists s', represents (run p l w).2 pk s' /\ reachable s' /\ Abstract.turn s' = t.
Proof.
  intros Hp Hok Hrep Hreach Ht.
  pose proof (store_program_guarantees (H0:=local_service) alone alone_sys p Hp w _ _ Hok (run_exec p l w alone)) as Hsys.
  split; [by eapply syses_ok|].
  destruct (syses_refine _ _ _ _ Hok Hsys Hrep (reachable_inv _ Hreach)) as (s' & Hs & Hrep').
  exists s'. split_and!; [done|destruct Hreach as (s0 & ? & ?); exists s0; split; [done|by trans s]|].
  destruct (tbl (run p l w).2 !! (pk, "meta")) as [it|] eqn:Hit; [|done]. symmetry. by eapply represents_turn.
Qed.

Definition demo_pk : string := turnItemPartitionKey "acme" "t1".
Definition demo_claim : prog (option Turn) := claimTurn "acme" "t1" "a1" (Some "worker") 1001000 1061000 1121000.
Definition demo_claimed : World := (run demo_claim demo_local demo_world).2.
Definition demo_complete : prog TurnEvent := completeTurn "acme" "t1" "a1" 8 "hello" "e2" 87401000.
Definition demo_done : World := (run demo_complete demo_local demo_claimed).2.

(** The turn a table holds in the partition of the demonstration. *)
Definition demo_turn (w : World) : option Turn := (tbl w !! (demo_pk, "meta")) ≫= turnFromItem.

Lemma demo_claimed_turn :
  exists t, demo_turn demo_claimed = Some t /\ Turn.attemptId t = Some "a1" /\ Turn.attempt t = 1 /\
    Turn.leaseExpiresAt t = Some 1061000 /\ Turn.status t = Active.
Proof. eexists. split; [vm_compute; reflexivity|]. by vm_compute. Qed.

Lemma demo_done_turn :
  exists t, demo_turn demo_done = Some t /\ Turn.attemptId t = Some "a1" /\ Turn.status t = Completed /\
    Turn.nextEventSeq t = 3.
Proof. eexists. split; [vm_compute; reflexivity|]. by vm_compute. Qed.

Lemma demo_claimed_ok :
  all_ok demo_claimed /\ exists s, represents demo_claimed demo_pk s /\ reachable s /\
    Turn.attemptId (Abstract.turn s) = Some "a1" /\ Turn.attempt (Abstract.turn s) = 1 /\
    Turn.leaseExpiresAt (Abstract.turn s) = Some 1061000 /\ Turn.status (Abstract.turn s) = Active.
Proof.
  destruct demo_represents as [Hok Hrep].
  destruct demo_claimed_turn as (t & Ht & Hrest).
  destruct (run_represents demo_claim demo_local demo_world demo_pk (started demo_request) t) as [Hok' (s & Hrep' & Hreach' & <-)];
    [by apply prog_claimTurn|exact Hok|exact Hrep|apply demo_reachable|exact Ht|].
  split; [exact Hok'|]. exists s. split; [exact Hrep'|]. split; [exact Hreach'|exact Hrest].
Qed.

Lemma demo_done_ok :
  all_ok demo_done /\ exists s, represents demo_done demo_pk s /\ reachable s /\
    Turn.attemptId (Abstract.turn s) = Some "a1" /\ Turn.status (Abstract.turn s) = Completed /\
    Turn.nextEventSeq (Abstract.turn s) = 3.
Proof.
  destruct demo_claimed_ok as [Hok (s & Hrep & Hreach & _)].
  destruct demo_done_turn as (t & Ht & Hrest).
  destruct (run_represents demo_complete demo_local demo_claimed demo_pk s t) as [Hok' (s' & Hrep' & Hreach' & <-)];
    [apply prog_completeTurn|exact Hok|exact Hrep|exact Hreach|exact Ht|].
  split; [exact Hok'|]. exists s'. split; [exact Hrep'|]. split; [exact Hreach'|exact Hrest].
Qed.

(** Both events of the completed turn are in the table. *)
Lemma demo_done_events :
  is_Some (tbl demo_done !! (demo_pk, turnEventSortKey 1)) /\ is_Some (tbl demo_done !! (demo_pk, turnEventSortKey 2)).
Proof. apply (bool_decide_unpack _). vm_compute. exact Logic.I. Qed.

Lemma demo_done_unexpired s : turn_inv s -> Turn.nextEventSeq (Abstract.turn s) = 3 ->
  Z.of_nat (length (Abstract.log s)) = 2 /\
  (forall n e, 0 < n -> Abstract.log s !! Z.to_nat (n - 1) = Some e -> is_Some (tbl demo_done !! (demo_pk, turnEventSortKey n))).
Proof.
  intros Hinv Hn. destruct (inv_numbered _ Hinv) as [Hlen _]. split; [lia|]. intros n e Hpos He%lookup_lt_Some.
  assert (n = 1 \/ n = 2) as [-> | ->] by lia; apply demo_done_events.
Qed.
