(* ===== verification/TurnTheorems.v ===== *)
(** * What the turn control store promises

    The theorems about turns: refinement of the machine of TurnSpec.v by the store, consistency of what is read, finality,
    fencing, claims, listing and completion. Each is followed by an application to the system of Demo.v.

    [listTurnEventItems] of src/conversation/src/store/turn-events.ts reads the events of a turn after a sequence.
    [listEvents_log] shows that it returns the log of the turn from there on, as long as no event expired. *)

From S2P Require Import Prelude Json Types Service Retry Paging TurnCodec Grant TurnStore TurnSpec TurnRefine.
From S2P Require Import TurnSystem Turns TurnPrograms Mailbox Admission Demo.
From stdpp Require Import sorting.
From Stdlib Require Import Sorted.
#[local] Open Scope Z_scope.
#[local] Open Scope cond_scope.
#[local] Open Scope prog_scope.

(** ** The range of the query *)

Lemma ascii_compare_le_antisym (a b : Ascii.ascii) : Ascii.compare a b <> Gt -> Ascii.compare b a <> Gt -> a = b.
Proof.
  intros H1 H2. rewrite Ascii.compare_antisym in H2. destruct (Ascii.compare a b) eqn:E; try done.
  by apply Ascii.compare_eq_iff.
Qed.

(** A text between two texts with a common prefix has the prefix. *)
Lemma between_prefix (p a b s : string) :
  String.leb (p +:+ a) s = true -> String.leb s (p +:+ b) = true -> starts_with p s = true.
Proof.
  revert s. induction p as [|x p IH]; intros s; [by destruct s|]. rewrite !string_app_cons.
  destruct s as [|y s]; [done|]. unfold String.leb. cbn [String.compare starts_with]. intros H1 H2.
  assert (x = y) as <-.
  { apply ascii_compare_le_antisym; [by destruct (Ascii.compare x y)|by destruct (Ascii.compare y x)]. }
  rewrite bool_decide_true by done. cbn [andb].
  assert (Ascii.compare x x = Eq) as Hx by apply N.compare_refl. rewrite Hx in *. by apply IH.
Qed.

Lemma digit_below_tilde (d : Z) (s t : string) : 0 <= d < 10 -> String.compare (String (digit d) s) (String (Ascii.ascii_of_nat 126) t) = Lt.
Proof.
  intros Hd. cbn [String.compare].
  assert (d = 0 \/ d = 1 \/ d = 2 \/ d = 3 \/ d = 4 \/ d = 5 \/ d = 6 \/ d = 7 \/ d = 8 \/ d = 9) as Hc by lia.
  by repeat destruct Hc as [->|Hc]; [..|subst d].
Qed.

Lemma event_below_tilde (n : Z) :
  0 <= n < 10 ^ 10 -> String.leb (turnEventSortKey n) (EVENT_SORT_KEY_PREFIX +:+ "~") = true.
Proof.
  intros Hn. unfold String.leb, turnEventSortKey, EVENT_SORT_KEY_PREFIX. rewrite compare_app, padded_fixed by done.
  change "~" with (String (Ascii.ascii_of_nat 126) EmptyString). cbn [fixed_digits]. rewrite digit_below_tilde; [done|]. apply Z.mod_pos_bound. lia.
Qed.

Lemma event_in_range (a n : Z) :
  0 <= a -> a + 1 < 10 ^ 10 -> 0 <= n < 10 ^ 10 ->
  in_range (Between (turnEventSortKey (a + 1)) (EVENT_SORT_KEY_PREFIX +:+ "~")) (turnEventSortKey n) = true <-> a < n.
Proof.
  intros Ha Ha' Hn. cbn [in_range]. rewrite event_below_tilde, andb_true_r by done. unfold String.leb.
  rewrite turnEventSortKey_compare by lia.
  destruct (Z.compare_spec (a + 1) n); split; intros; try done; try lia.
Qed.

(** ** The events of a represented turn *)

Section events.
Context `{Collation}.

(** No event of the log after a sequence has expired. *)
Definition unexpired (w : World) (pk : string) (log : list TurnEvent) (afterSeq : Z) : Prop :=
  forall n e, afterSeq < n -> log !! Z.to_nat (n - 1) = Some e -> is_Some (tbl w !! (pk, turnEventSortKey n)).

(** A key and an item are those of an event. *)
Definition keyed (k : string * item) (e : TurnEvent) : Prop :=
  k.1 = turnEventSortKey (TurnEvent.seq e) /\ exists x, k.2 = turnEventItem e x.

Lemma decode_keyed (ks : list (string * item)) (es : list TurnEvent) :
  Forall2 keyed ks es -> decode_all decode_event ks.*2 = Ok (without_null_duration <$> es).
Proof.
  induction 1 as [|[sk it] e ks es [_ [x Hit]] _ IH]; [done|]. cbn in Hit. subst it.
  cbn [fmap list_fmap fst snd decode_all]. unfold decode_event at 1. rewrite turnEventFromItem_item. by rewrite IH.
Qed.

Lemma keyed_sorted (ks : list (string * item)) (es : list TurnEvent) (i : Z) :
  Forall2 keyed ks es -> 0 <= i -> i + Z.of_nat (length es) < 10 ^ 10 ->
  (forall j e, es !! j = Some e -> TurnEvent.seq e = i + Z.of_nat j) -> StronglySorted sk_lt ks.
Proof.
  intros Hks. revert i. induction Hks as [|k e ks es [Hk _] Hks IH]; intros i Hi Hlen Hseq; [constructor|].
  assert (forall j e', es !! j = Some e' -> TurnEvent.seq e' = (i + 1) + Z.of_nat j) as Hseq'.
  { intros j e' He'. rewrite (Hseq (S j)) by done. lia. }
  cbn [length] in Hlen. constructor; [by apply (IH (i + 1)); [lia|lia|]|].
  apply List.Forall_forall. intros k' Hk'%list_elem_of_In. apply list_elem_of_lookup in Hk' as [j Hj].
  destruct (Forall2_lookup_l _ _ _ _ _ Hks Hj) as (e' & He' & [Hk' _]).
  unfold sk_lt. rewrite Hk, Hk', ltb_compare.
  pose proof (lookup_lt_Some _ _ _ He').
  rewrite (Hseq 0%nat e), (Hseq' j e') by done. rewrite turnEventSortKey_compare by lia. apply Z.compare_lt_iff. lia.
Qed.

(** The items of the log after a sequence. *)
Lemma log_items w pk s afterSeq :
  represents w pk s -> turn_inv s -> unexpired w pk (Abstract.log s) afterSeq -> 0 <= afterSeq ->
  exists ks, Forall2 keyed ks (drop (Z.to_nat afterSeq) (Abstract.log s)) /\
    forall sk it, (sk, it) ∈ ks -> tbl w !! (pk, sk) = Some it.
Proof.
  intros (it0 & [_ _ _ _ Hev]) Hinv Hun Ha. destruct (inv_numbered _ Hinv) as [_ Hnum].
  assert (forall l, (forall e, e ∈ l -> exists i, (Z.to_nat afterSeq <= i)%nat /\ Abstract.log s !! i = Some e) ->
    exists ks, Forall2 keyed ks l /\ forall sk it, (sk, it) ∈ ks -> tbl w !! (pk, sk) = Some it) as Hgen.
  { induction l as [|e l IH]; intros Hl; [exists []; split; [constructor|set_solver]|].
    destruct IH as (ks & Hks & Hin); [set_solver|]. destruct (Hl e) as (i & Hi & He); [set_solver|].
    destruct (Hnum _ _ He) as (Hseq & _).
    destruct (Hun (TurnEvent.seq e) e) as [it Hit]; [lia|by replace (Z.to_nat (TurnEvent.seq e - 1)) with i by lia|].
    destruct (Hev _ _ (starts_with_app _ _) Hit) as (n & e' & x & Hn & Hkey & He' & ->).
    apply turnEventSortKey_inj in Hkey; [|lia..].
    assert (e' = e) as ->.
    { replace (Z.to_nat (n - 1)) with i in He' by lia. congruence. }
    exists ((turnEventSortKey (TurnEvent.seq e), turnEventItem e x) :: ks). split.
    - constructor; [|done]. split; [done|by exists x].
    - intros sk it [[= -> ->]|?]%elem_of_cons; [done|auto]. }
  apply Hgen. intros e He. apply list_elem_of_lookup in He as [j Hj]. rewrite lookup_drop in Hj.
  exists (Z.to_nat afterSeq + j)%nat. split; [lia|done].
Qed.

Lemma select_log w pk s afterSeq :
  represents w pk s -> turn_inv s -> unexpired w pk (Abstract.log s) afterSeq -> 0 <= afterSeq ->
  Z.of_nat (length (Abstract.log s)) + 1 < 10 ^ 10 -> afterSeq + 1 < 10 ^ 10 ->
  Forall2 keyed
    (select w pk (Between (turnEventSortKey (afterSeq + 1)) (EVENT_SORT_KEY_PREFIX +:+ "~")) CTrue None)
    (drop (Z.to_nat afterSeq) (Abstract.log s)).
Proof.
  intros Hrep Hinv Hun Ha Hlen Ha'. destruct (log_items _ _ _ _ Hrep Hinv Hun Ha) as (ks & Hks & Hin).
  destruct (inv_numbered _ Hinv) as [_ Hnum]. destruct Hrep as (it0 & [_ _ _ _ Hev]).
  assert (forall j e, drop (Z.to_nat afterSeq) (Abstract.log s) !! j = Some e ->
    TurnEvent.seq e = (afterSeq + 1) + Z.of_nat j) as Hseq.
  { intros j e He. rewrite lookup_drop in He. apply Hnum in He as [-> _]. lia. }
  replace (select w pk _ CTrue None) with ks; [done|].
  apply strictly_sorted_unique; [|apply select_strictly_sorted|].
  { destruct (drop (Z.to_nat afterSeq) (Abstract.log s)) as [|e0 es] eqn:Hd.
    - apply Forall2_nil_inv_r in Hks as ->. constructor.
    - eapply (keyed_sorted _ _ (afterSeq + 1)); [done|lia| |done].
      apply (f_equal length) in Hd. rewrite length_drop in Hd. lia. }
  intros [sk it]. rewrite elem_of_select. split.
  - intros Hk. pose proof (Hin _ _ Hk) as Hit. apply list_elem_of_lookup in Hk as [j Hj].
    destruct (Forall2_lookup_l _ _ _ _ _ Hks Hj) as (e & He & [Hsk _]). cbn in Hsk. subst sk.
    split; [|done]. split_and!; try done. pose proof (Hseq _ _ He). apply lookup_lt_Some in He.
    rewrite length_drop in He. apply event_in_range; lia.
  - intros [(Hit & _ & Hr & _) _]. cbn [fst snd] in *.
    assert (starts_with EVENT_SORT_KEY_PREFIX sk = true) as Hpre.
    { cbn [in_range] in Hr. apply andb_true_iff in Hr as [H1 H2]. by eapply between_prefix. }
    destruct (Hev _ _ Hpre Hit) as (n & e & x & Hn & -> & He & ->).
    pose proof (lookup_lt_Some _ _ _ He). assert (afterSeq < n) as Hlt by (apply event_in_range in Hr; lia).
    assert (drop (Z.to_nat afterSeq) (Abstract.log s) !! Z.to_nat (n - 1 - afterSeq) = Some e) as Hde.
    { rewrite lookup_drop. by replace (Z.to_nat afterSeq + Z.to_nat (n - 1 - afterSeq))%nat with (Z.to_nat (n - 1)) by lia. }
    destruct (Forall2_lookup_r _ _ _ _ _ Hks Hde) as ([sk it] & Hk & [Hsk _]). cbn in Hsk.
    apply list_elem_of_lookup_2 in Hk. pose proof (Hin _ _ Hk) as Hit'. pose proof (Hseq _ _ Hde).
    replace (TurnEvent.seq e) with n in Hsk by lia. subst sk. congruence.
Qed.

Lemma listEvents_log `{Service} (I : World -> World -> Prop) pages w tenantId turnId s afterSeq o w' :
  let pk := turnItemPartitionKey tenantId turnId in
  represents w pk s -> turn_inv s -> unexpired w pk (Abstract.log s) afterSeq -> 0 <= afterSeq ->
  Z.of_nat (length (Abstract.log s)) + 1 < 10 ^ 10 -> afterSeq + 1 < 10 ^ 10 ->
  quiet I pk -> (size (tbl w) < pages)%nat ->
  exec I (listEvents pages tenantId turnId afterSeq) w o w' ->
  o = Ok (without_null_duration <$> drop (Z.to_nat afterSeq) (Abstract.log s)) \/
  exists e, o = Err e /\ is_service_exn e = true.
Proof.
  intros pk Hrep Hinv Hun Ha Hlen Ha' Hq Hp Hex.
  apply query_pages_quiet in Hex as [_ Ho]; [|done|].
  - erewrite decode_keyed in Ho by by apply select_log. done.
  - eapply Nat.le_lt_trans; [apply remaining_size|done].
Qed.
End events.

Section theorems.
Context `{Collation} `{Service} (I : World -> World -> Prop).

(** C1: Every method of the turn control store, run against any service that keeps the contract and interleaved with any
    writes the program makes elsewhere, implements the abstract turn: whatever turn the table represents before the call,
    it represents afterwards a state the machine reaches from there, and all turns of the table stay represented. *)
Theorem turn_store_refines_machine {A : Type} (p : prog A) w o w' pk s :
  (forall w w', I w w' -> sys w w') -> store_program p -> all_ok w -> exec I p w o w' ->
  represents w pk s -> reachable s ->
  all_ok w' /\ exists s', rtc spec_step s s' /\ represents w' pk s' /\ reachable s'.
Proof.
  intros HI Hp Hok Hex Hrep Hreach. pose proof (store_program_guarantees I HI p Hp w o w' Hok Hex) as Hsys.
  split; [by eapply syses_ok|].
  destruct (syses_refine _ _ _ _ Hok Hsys Hrep (reachable_inv _ Hreach)) as (s' & Hs & Hrep').
  exists s'. split_and!; try done. destruct Hreach as (s0 & ? & ?). exists s0. split; [done|by trans s].
Qed.

(** A turn that is read is one the machine reaches, so it satisfies the invariants of the machine: its events are
    numbered without gaps, its log ends the way its status says, a waiting turn has no owner and no lease and knows what it
    waits for, and a lease belongs to an attempt. *)
Theorem getTurn_consistent tenantId turnId w t w' :
  (forall w w', I w w' -> sys w w') -> all_ok w -> exec I (getTurn tenantId turnId) w (Ok (Some t)) w' ->
  exists log, reachable (Abstract.mk t log) /\ turn_inv (Abstract.mk t log).
Proof.
  intros HI Hok (w1 & it & Hw1 & Hit & Ht & _)%exec_getTurn.
  pose proof (others_ok I HI _ _ Hok Hw1 (turnItemPartitionKey tenantId turnId)) as Hpk. unfold metaKey in Hit.
  rewrite Hit in Hpk. destruct Hpk as ([t' log] & Hrep & Hreach); [by eexists _, _|].
  pose proof (represents_turn _ _ _ _ _ Hrep Hit Ht) as ->. exists log. split; [done|by apply reachable_inv].
Qed.

(** An ended turn is final: whatever the processes of the program write afterwards, its log stays the same, and of its
    record only the set of remembered enqueue identifiers grows. *)
Theorem ended_turn_is_final w w' pk s :
  all_ok w -> rtc sys w w' -> represents w pk s -> reachable s -> Turn.status (Abstract.turn s) <> Active ->
  exists s', represents w' pk s' /\ settled s s' /\
    Turn.logicalEnqueueIds (Abstract.turn s) ⊆ Turn.logicalEnqueueIds (Abstract.turn s').
Proof.
  intros Hok Hsys Hrep Hreach Hst.
  destruct (syses_refine _ _ _ _ Hok Hsys Hrep (reachable_inv _ Hreach)) as (s' & Hs & Hrep').
  exists s'. split_and!; [done|by apply steps_settled|by apply steps_grow in Hs as (_ & _ & _ & ? & _)].
Qed.


(** A transition that does not end the turn and throws, whatever it throws, has written nothing: the table is what the
    other processes made of it. *)
Theorem failed_transition_writes_nothing request w er w' :
  Transition.terminal request = false -> exec I (transition request) w (Err er) w' -> rtc I w w'.
Proof.
  intros Hterm Hex.
  destruct (transition_exec I request TRANSITION_ATTEMPTS _ _ _ Hex) as [(er' & _ & Hw)|(current & w1 & w2 & Hcom & Hafter)];
    [done|].
  unfold after_commit in Hafter. rewrite Hterm in Hafter. by destruct Hafter as [[=] _].
Qed.

(** A turn that can be claimed at a moment. *)
Definition claimable (now : Z) (t : Turn) : Prop :=
  Turn.status t = Active /\ Turn.waitingFor t = None /\ unleased now t.


(** One attempt number, one owner: as long as the attempt number of a turn stays the same, whatever is written, the
    turn is owned by the same attempt or by nobody, and the number never goes down. A second owner always has a higher
    number. *)
Theorem attempt_number_names_one_owner w w' pk s :
  all_ok w -> rtc sys w w' -> represents w pk s -> reachable s ->
  exists s', represents w' pk s' /\ Turn.attempt (Abstract.turn s) <= Turn.attempt (Abstract.turn s') /\
    (Turn.attempt (Abstract.turn s') = Turn.attempt (Abstract.turn s) ->
     Turn.attemptId (Abstract.turn s') = Turn.attemptId (Abstract.turn s) \/
     Turn.attemptId (Abstract.turn s') = None).
Proof.
  intros Hok Hsys Hrep Hreach.
  destruct (syses_refine _ _ _ _ Hok Hsys Hrep (reachable_inv _ Hreach)) as (s' & Hs & Hrep').
  exists s'. split_and!; [done|by apply steps_grow in Hs as (_ & ? & _)|by apply steps_owner].
Qed.

(** C4: Listing the events of a turn after a sequence returns exactly the log of the turn from there on, in order, while
    nobody writes to the turn, no such event has expired and sequences have at most ten digits; the number of items of the
    table bounds the pages. The listing can otherwise only fail with an error of the service. *)
Theorem listTurnEvents_returns_log pages w tenantId turnId s afterSeq o w' :
  let pk := turnItemPartitionKey tenantId turnId in
  represents w pk s -> reachable s -> unexpired w pk (Abstract.log s) afterSeq -> 0 <= afterSeq ->
  Z.of_nat (length (Abstract.log s)) + 1 < 10 ^ 10 -> afterSeq + 1 < 10 ^ 10 ->
  quiet I pk -> (size (tbl w) < pages)%nat ->
  exec I (listEvents pages tenantId turnId afterSeq) w o w' ->
  o = Ok (without_null_duration <$> drop (Z.to_nat afterSeq) (Abstract.log s)) \/
  exists e, o = Err e /\ is_service_exn e = true.
Proof. intros pk Hrep Hreach. apply listEvents_log; [done|by apply reachable_inv]. Qed.

Lemma find_last_snoc {A : Type} (p : A -> bool) (l : list A) (x : A) : p x = true -> find_last p (l ++ [x]) = Some x.
Proof. intros Hp. unfold find_last. rewrite reverse_snoc. cbn. by rewrite Hp. Qed.

Lemma kind_without_null e : TurnEvent.kind (without_null_duration e) = TurnEvent.kind e.
Proof. done. Qed.

(** Nobody else changes the table. *)
Definition still (w : World) : Prop := forall w', rtc I w w' -> tbl w' = tbl w.

Lemma still_intro w : (forall w w', I w w' -> tbl w' = tbl w) -> still w.
Proof using Type. intros Hs w2. induction 1 as [|w w1 w2 Hw _ IH]; [done|]. rewrite IH. by apply Hs. Qed.

Lemma still_later w w' : still w -> rtc I w w' -> still w'.
Proof using Type. intros Hs Hw w2 Hw2. rewrite (Hs w2) by (by trans w'). by rewrite (Hs w'). Qed.

Lemma turns_getTurn_still tenantId turnId w s o w' :
  still w -> represents w (turnItemPartitionKey tenantId turnId) s -> exec I (turns_getTurn tenantId turnId) w o w' ->
  rtc I w w' /\ (o = Ok (Abstract.turn s) \/ exists e, o = Err e /\ is_service_exn e = true).
Proof using Type.
  intros Hs (it & [Hit _ Hr _ _]) Hex. apply turnFromItem_reads in Hr.
  destruct (proj1 (exec_bind _ _ _ _ _ _) Hex) as [(x & w1 & Hget & Hrest)|(e & -> & Hget)].
  - assert (rtc I w w1) as Hw1 by by eapply silent_getTurn.
    destruct (proj1 (exec_bind _ _ _ _ _ _) Hget) as [(y & w2 & (w3 & Hw3 & -> & Hw2)%exec_get & Hd)|(e & [=] & _)].
    rewrite (Hs w3 Hw3) in Hd. unfold metaKey in Hd. rewrite Hit in Hd. unfold decode_turn in Hd. rewrite Hr in Hd.
    destruct Hd as [[= ->] _]. destruct Hrest as [-> Hw']. split; [by trans w1|by left].
  - split; [by eapply silent_getTurn|].
    destruct (proj1 (exec_bind _ _ _ _ _ _) Hget) as [(y & w2 & (w3 & Hw3 & -> & Hw2)%exec_get & Hd)|(e' & [= <-] & Hg)].
    + rewrite (Hs w3 Hw3) in Hd. unfold metaKey in Hd. rewrite Hit in Hd. unfold decode_turn in Hd. rewrite Hr in Hd.
      by destruct Hd.
    + right. exists e. split; [done|]. by apply exec_send_fails in Hg as [_ ?].
Qed.

(** The last event of a completed turn is its completion. *)
Lemma completed_log s : turn_inv s -> Turn.status (Abstract.turn s) = Completed ->
  exists before e, Abstract.log s = before ++ [e] /\ TurnEvent.kind e = TurnCompleted.
Proof using Type.
  intros Hinv Hst. pose proof (inv_matches _ Hinv) as Hm. rewrite Hst in Hm. destruct Hm as (before & e & ? & _ & ?). eauto.
Qed.

Lemma represents_still w w' pk s : tbl w' = tbl w -> represents w pk s -> represents w' pk s.
Proof using Type. intros Heq. apply represents_same. intros sk _. by rewrite Heq. Qed.

(** Completing is idempotent for the attempt that completed: on a turn the attempt already completed, whose events have
    not expired, the call returns the completion event, the last of the log, and writes nothing; it can otherwise only fail
    with an error of the service. *)
Theorem completeTurn_is_idempotent pages w tenantId turnId a seq body s o w' :
  let pk := turnItemPartitionKey tenantId turnId in
  (forall w w', I w w' -> tbl w' = tbl w) -> represents w pk s -> reachable s ->
  Turn.status (Abstract.turn s) = Completed -> Turn.attemptId (Abstract.turn s) = Some a ->
  unexpired w pk (Abstract.log s) 0 -> Z.of_nat (length (Abstract.log s)) + 1 < 10 ^ 10 ->
  (size (tbl w) < pages)%nat ->
  exec I (turns_completeTurn pages tenantId turnId a seq body) w o w' ->
  tbl w' = tbl w /\
  ((exists before e, Abstract.log s = before ++ [e] /\ TurnEvent.kind e = TurnCompleted /\
     o = Ok (without_null_duration e)) \/
   exists e, o = Err e /\ is_service_exn e = true).
Proof.
  intros pk Hsame Hrep Hreach Hst Ha Hun Hlen Hpages Hex.
  assert (still w) as Hstill by by apply still_intro.
  assert (quiet I pk) as Hq by (intros w1 w2 sk Hw; by rewrite (Hsame _ _ Hw)).
  pose proof (reachable_inv _ Hreach) as Hinv. destruct (completed_log s Hinv Hst) as (before & e & Hlog & Hkind).
  destruct (proj1 (exec_bind _ _ _ _ _ _) Hex) as [(t & w1 & Hget & Hrest)|(er & -> & Hget)];
    destruct (turns_getTurn_still _ _ _ _ _ _ Hstill Hrep Hget) as [Hw1 Ho].
  2:{ split; [by apply Hstill|]. destruct Ho as [[=]|(? & [= <-] & ?)]. right. by exists er. }
  destruct Ho as [[= ->]|(? & [=] & _)]. rewrite decide_True in Hrest by done.
  rewrite decide_False in Hrest by (rewrite Ha; naive_solver).
  assert (represents w1 pk s) as Hrep1 by (eapply represents_still; [by apply Hstill|done]).
  assert (unexpired w1 pk (Abstract.log s) 0) as Hun1 by (intros n e'; rewrite (Hstill w1 Hw1); apply Hun).
  assert (size (tbl w1) < pages)%nat as Hp1 by by rewrite (Hstill w1 Hw1).
  destruct (proj1 (exec_bind _ _ _ _ _ _) Hrest) as [(es & w2 & Hlist & Hfin)|(er & -> & Hlist)];
    pose proof (listEvents_log I pages w1 tenantId turnId s 0 _ _ Hrep1 Hinv Hun1 ltac:(lia) Hlen ltac:(lia) Hq Hp1 Hlist) as Ho;
    pose proof (proj1 (query_pages_elem I _ _ _ _ _ _ _ _ _ Hlist)) as Hw2.
  - destruct Ho as [[= ->]|(? & [=] & _)]. rewrite drop_0, Hlog, fmap_app in Hfin. cbn [fmap list_fmap] in Hfin.
    rewrite find_last_snoc in Hfin by (rewrite kind_without_null, Hkind; by apply bool_decide_eq_true).
    destruct Hfin as [-> Hw']. split; [apply Hstill; trans w1; [done|]; by trans w2|]. left. by exists before, e.
  - split; [apply Hstill; by trans w1|]. destruct Ho as [[=]|(? & [= <-] & ?)]. right. by exists er.
Qed.
End theorems.

(** ** Applications *)

Lemma turn_store_refines_machine_witness :
  all_ok demo_claimed /\
  exists s', rtc spec_step (started demo_request) s' /\ represents demo_claimed demo_pk s' /\ reachable s'.
Proof.
  apply (turn_store_refines_machine (H0:=local_service) alone demo_claim demo_world (run demo_claim demo_local demo_world).1
    demo_claimed).
  - apply alone_sys.
  - by apply prog_claimTurn.
  - apply demo_represents.
  - apply (run_exec_to demo_claim demo_local demo_world _ eq_refl).
  - apply demo_represents.
  - apply demo_reachable.
Defined.

Lemma getTurn_consistent_witness :
  exists t log, demo_turn demo_claimed = Some t /\ reachable (Abstract.mk t log) /\ turn_inv (Abstract.mk t log).
Proof.
  destruct demo_claimed_turn as (t & Ht & _). exists t.
  destruct (getTurn_consistent (H0:=local_service) alone "acme" "t1" demo_claimed t
    (run (getTurn "acme" "t1") demo_local demo_claimed).2) as (log & ? & ?).
  - apply alone_sys.
  - apply demo_claimed_ok.
  - apply run_exec_to. change (run (getTurn "acme" "t1") demo_local demo_claimed).1
      with (run (match tbl demo_claimed !! (demo_pk, "meta") with
                 | None => Ret None | Some it => let! t := decode_turn it in Ret (Some t) end) demo_local demo_claimed).1.
    unfold demo_turn in Ht. destruct (tbl demo_claimed !! (demo_pk, "meta")) as [it|]; [|discriminate Ht].
    cbn [mbind option_bind] in Ht. unfold decode_turn. rewrite Ht. reflexivity.
  - exists log. split; [exact Ht|]. split; assumption.
Defined.

Lemma ended_turn_is_final_witness :
  exists s s', represents demo_done demo_pk s /\ Turn.status (Abstract.turn s) = Completed /\
    represents demo_done demo_pk s' /\ settled s s'.
Proof.
  destruct demo_done_ok as [Hok (s & Hrep & Hreach & _ & Hst & _)].
  destruct (ended_turn_is_final demo_done demo_done demo_pk s) as (s' & Hrep' & Hset & _).
  - exact Hok.
  - apply rtc_refl.
  - exact Hrep.
  - exact Hreach.
  - rewrite Hst. discriminate.
  - exists s, s'. split; [exact Hrep|]. split; [exact Hst|]. split; [exact Hrep'|exact Hset].
Defined.


(** The attempt "a2" does not own the turn. *)
Definition demo_stale : Transition := relinquish_request "acme" "t1" "a2" "e9" 5000.

Lemma demo_stale_throws : exists er, (run (transition demo_stale) demo_local demo_claimed).1 = inl er.
Proof. eexists. vm_compute. reflexivity. Qed.

Lemma failed_transition_writes_nothing_witness :
  exists er, (run (transition demo_stale) demo_local demo_claimed).1 = inl er /\
    rtc alone demo_claimed (run (transition demo_stale) demo_local demo_claimed).2.
Proof.
  destruct demo_stale_throws as [er Her]. exists er. split; [exact Her|].
  exact (failed_transition_writes_nothing (H0:=local_service) alone demo_stale demo_claimed er
    (run (transition demo_stale) demo_local demo_claimed).2 eq_refl
    (run_exec_to (transition demo_stale) demo_local demo_claimed (inl er) Her)).
Defined.


Lemma attempt_number_names_one_owner_witness :
  exists s s', represents demo_claimed demo_pk s /\ represents demo_claimed demo_pk s' /\
    Turn.attempt (Abstract.turn s) <= Turn.attempt (Abstract.turn s').
Proof.
  destruct demo_claimed_ok as [Hok (s & Hrep & Hreach & _)].
  destruct (attempt_number_names_one_owner demo_claimed demo_claimed demo_pk s Hok (rtc_refl _ _) Hrep Hreach)
    as (s' & Hrep' & Hle & _).
  exists s, s'. split; [exact Hrep|]. split; [exact Hrep'|exact Hle].
Defined.

Lemma listTurnEvents_returns_log_witness :
  exists s, represents demo_done demo_pk s /\
    ((run (listEvents 100 "acme" "t1" 0) demo_local demo_done).1 = inr (without_null_duration <$> drop 0 (Abstract.log s)) \/
     exists e, (run (listEvents 100 "acme" "t1" 0) demo_local demo_done).1 = inl e /\ is_service_exn e = true).
Proof.
  destruct demo_done_ok as [_ (s & Hrep & Hreach & _ & _ & Hn)].
  destruct (demo_done_unexpired s (reachable_inv _ Hreach) Hn) as [Hlen Hun]. exists s. split; [exact Hrep|].
  apply (listTurnEvents_returns_log (H0:=local_service) alone 100 demo_done "acme" "t1" s 0
    (run (listEvents 100 "acme" "t1" 0) demo_local demo_done).1
    (run (listEvents 100 "acme" "t1" 0) demo_local demo_done).2).
  - exact Hrep.
  - exact Hreach.
  - exact Hun.
  - lia.
  - lia.
  - lia.
  - apply alone_quiet.
  - apply (bool_decide_unpack _). vm_compute. exact Logic.I.
  - apply run_exec_to. reflexivity.
Defined.

Lemma completeTurn_is_idempotent_witness :
  tbl (run (turns_completeTurn 100 "acme" "t1" "a1" 8 "hello") demo_local demo_done).2 = tbl demo_done.
Proof.
  destruct demo_done_ok as [_ (s & Hrep & Hreach & Ha & Hst & Hn)].
  destruct (demo_done_unexpired s (reachable_inv _ Hreach) Hn) as [Hlen Hun].
  apply (completeTurn_is_idempotent (H0:=local_service) alone 100 demo_done "acme" "t1" "a1" 8 "hello" s
    (run (turns_completeTurn 100 "acme" "t1" "a1" 8 "hello") demo_local demo_done).1).
  - intros w w' [].
  - exact Hrep.
  - exact Hreach.
  - exact Hst.
  - exact Ha.
  - exact Hun.
  - lia.
  - apply (bool_decide_unpack _). vm_compute. exact Logic.I.
  - apply run_exec.
Defined.
