(* ===== verification/AdmissionTheorems.v ===== *)
(** * What admission and the mailbox promise

    Starting a turn is one atomic write; a closing turn takes no more messages; a mailbox lists its messages once and in
    order, and drains them one by one; a channel never hands out a sequence twice. *)

From S2P Require Import Prelude Json Types Service Retry Paging TurnCodec Grant TurnStore Turns TurnSpec TurnRefine.
From S2P Require Import TurnSystem TurnPrograms Mailbox Admission Demo.
From stdpp Require Import sorting.
From Stdlib Require Import Sorted.
#[local] Open Scope Z_scope.
#[local] Open Scope cond_scope.
#[local] Open Scope prog_scope.

Section theorems.
Context `{Collation} `{Service} (I : World -> World -> Prop).

(** The turn a pointer item names. *)
Definition pointed (w : World) (k : key) : option string := (tbl w !! k) ≫= fun it => required_string it "turn_id".


(** C6: A turn that began closing takes no more messages: once its owner's [beginClosing] returned, no later [steerTurn] to
    that turn returns true, whoever writes in between. So the owner's last drain of the mailbox sees every message that is
    ever steered into the turn. *)
Theorem closing_turn_takes_no_message tenantId turnId a m w w1 w2 o w3 :
  (forall w w', I w w' -> sys w w') -> all_ok w ->
  exec I (beginClosing tenantId turnId a) w (Ok tt) w1 -> rtc sys w1 w2 ->
  MailboxItem.tenantId m = tenantId -> exec I (steerTurn turnId m) w2 o w3 -> o <> Ok true.
Proof.
  intros HI Hok Hclose Hsys Hten Hsteer ->.
  destruct (beginClosing_exec I HI _ _ _ _ _ Hok Hclose) as [Hok1 Hcl].
  assert (closing_at w2 (metaKey tenantId turnId)) as Hcl2 by by eapply syses_closing.
  destruct (steerTurn_exec I turnId m w2 _ w3 Hsteer) as [(_ & w4 & w5 & Hw4 & Hcon & _)|[[[=]|[e [=]]] _]].
  assert (closing_at w4 (metaKey tenantId turnId)) as (it & Hit & Hc).
  { eapply syses_closing; [by eapply syses_ok|by apply (others_sys I HI)|done]. }
  apply steer_contract in Hcon as [Hh _]. rewrite Hten in Hh. unfold item_at in Hh. rewrite Hit in Hh. cbn [holds default] in Hh.
  apply andb_true_iff in Hh as [_ Hh]. apply bool_decide_eq_true in Hh. unfold default in Hh. cbn in Hh. congruence.
Qed.

(** A steered message reaches the mailbox of a live turn: when [steerTurn] returns true there was a moment at which the
    turn was active and not closing, and right after it the mailbox of the bot holds the message. In all other cases
    nothing was written. *)
Theorem steerTurn_delivers turnId m w o w' :
  exec I (steerTurn turnId m) w o w' ->
  match o with
  | Ok true => exists w1 w2, rtc I w w1 /\
      holds (status_active AND AttrNotExists "closing") (item_at w1 (metaKey (MailboxItem.tenantId m) turnId)) = true /\
      in_mailbox w2 m /\ rtc I w2 w'
  | _ => rtc I w w'
  end.
Proof.
  intros Hex. destruct (steerTurn_exec I turnId m w o w' Hex) as [(-> & w1 & w2 & Hw1 & Hcon & Hw2)|[[->|[e ->]] Hw]]; [|done..].
  apply steer_contract in Hcon as [Hh ->]. exists w1. eexists. split; [done|]. split; [done|]. split; [|exact Hw2].
  unfold in_mailbox. cbn. by rewrite lookup_insert_eq.
Qed.

(** Listing a mailbox returns every message after the given sequence exactly once, in the order of the sequences, while
    nobody writes to the mailbox; it can otherwise only fail with an error of the service. *)
Theorem mailbox_lists_in_order pages tenantId botId channelId afterSeq w o w' :
  mailbox_ok w tenantId botId channelId -> 0 <= afterSeq < 10 ^ 10 ->
  quiet I (mailboxPartitionKey tenantId botId channelId) -> (size (tbl w) < pages)%nat ->
  exec I (mailbox_list pages tenantId botId channelId afterSeq) w o w' ->
  (exists ms, o = Ok ms /\ listing w tenantId botId channelId afterSeq ms) \/
  (exists e, o = Err e /\ is_service_exn e = true).
Proof.
  intros Hok Hseq Hq Hp Hex. destruct (mailbox_listing w _ _ _ _ Hok Hseq) as (ms & Hms & Hd).
  apply query_pages_quiet in Hex as [_ [->|?]]; [left; exists ms; by rewrite Hd|by right|done|].
  eapply Nat.le_lt_trans; [apply remaining_size|done].
Qed.


(** The next sequence a channel hands out. *)
Definition next_seq (w : World) (tenantId channelId : string) : Z :=
  match item_at w (tenantId +:+ "#channel#" +:+ channelId, "meta") !! "next_seq" with Some (AN n) => n | _ => 1 end.

(** A channel never hands out a sequence twice: of two allocations one after the other, whatever happens in between as
    long as the counter never goes down, the later one returns a greater number. *)
Theorem allocated_sequences_increase tenantId channelId w v1 w1 w2 v2 w3 :
  (forall w w', I w w' -> next_seq w tenantId channelId <= next_seq w' tenantId channelId) ->
  exec I (allocateSeq tenantId channelId) w (Ok v1) w1 -> rtc I w1 w2 ->
  exec I (allocateSeq tenantId channelId) w2 (Ok v2) w3 -> v1 < v2.
Proof.
  intros Hmono H1 Hw H2.
  destruct (allocateSeq_exec I _ _ _ _ _ H1) as (wa & wb & _ & Hv1 & Hn1 & Hwb).
  destruct (allocateSeq_exec I _ _ _ _ _ H2) as (wc & wd & Hwc & Hv2 & _ & _).
  assert (forall a b, rtc I a b -> next_seq a tenantId channelId <= next_seq b tenantId channelId) as Hgrow.
  { induction 1 as [|a b c Hab _ IH]; [done|]. pose proof (Hmono _ _ Hab). lia. }
  pose proof (Hgrow wb wc). assert (rtc I wb wc) by (trans w1; [done|by trans w2]). unfold next_seq in *. intuition lia.
Qed.
End theorems.

(** ** Applications *)

Lemma demo_start_true : (run (startTurn demo_request) demo_local empty_world).1 = Ok true.
Proof. vm_compute. reflexivity. Qed.


Definition demo_message : MailboxItem :=
  MailboxItem.mk "acme" "helper" "general" 8 "m8" "user" "ann" None "and one more thing" "1970-01-01T00:16:41Z".

Definition demo_closing : World := (run (beginClosing "acme" "t1" "a1") demo_local demo_claimed).2.

Lemma demo_closing_returns : (run (beginClosing "acme" "t1" "a1") demo_local demo_claimed).1 = Ok tt.
Proof. vm_compute. reflexivity. Qed.

Lemma closing_turn_takes_no_message_witness :
  (run (steerTurn "t1" demo_message) demo_local demo_closing).1 <> Ok true.
Proof.
  apply (closing_turn_takes_no_message (H0:=local_service) alone "acme" "t1" "a1" demo_message demo_claimed demo_closing
    demo_closing _ (run (steerTurn "t1" demo_message) demo_local demo_closing).2).
  - exact alone_sys.
  - exact (proj1 demo_claimed_ok).
  - exact (run_exec_to (beginClosing "acme" "t1" "a1") demo_local demo_claimed (Ok tt) demo_closing_returns).
  - apply rtc_refl.
  - exact eq_refl.
  - apply run_exec_to. exact eq_refl.
Defined.

(** The turn after one message was steered into it. *)
Definition demo_steered : World := (run (steerTurn "t1" demo_message) demo_local demo_claimed).2.

Lemma demo_steer_true : (run (steerTurn "t1" demo_message) demo_local demo_claimed).1 = Ok true.
Proof. vm_compute. reflexivity. Qed.

Lemma steerTurn_delivers_witness : exists w, in_mailbox w demo_message /\ rtc alone w demo_steered.
Proof.
  destruct (steerTurn_delivers (H0:=local_service) alone "t1" demo_message demo_claimed (Ok true) demo_steered
    (run_exec_to (steerTurn "t1" demo_message) demo_local demo_claimed (Ok true) demo_steer_true))
    as (w1 & w2 & _ & _ & Hin & Hw2).
  exists w2. split; [exact Hin|exact Hw2].
Defined.

(** A table whose mailbox holds two messages. *)
Definition demo_second : MailboxItem :=
  MailboxItem.mk "acme" "helper" "general" 9 "m9" "bot" "other" (Some "helper") "hello" "1970-01-01T00:16:42Z".

Definition demo_mailbox : World :=
  with_tbl empty_world
    {[(mailboxPartitionKey "acme" "helper" "general", mailboxSortKey 8) := mailboxItemAttributes demo_message;
      (mailboxPartitionKey "acme" "helper" "general", mailboxSortKey 9) := mailboxItemAttributes demo_second]}.

Lemma demo_mailbox_ok : mailbox_ok demo_mailbox "acme" "helper" "general".
Proof.
  intros sk it. cbn [demo_mailbox tbl with_tbl World.tbl]. rewrite lookup_insert_Some, lookup_singleton_Some.
  intros [[[= <-] <-]|[_ [[= <-] <-]]]; [exists demo_message|exists demo_second]; by constructor.
Qed.

Lemma mailbox_lists_in_order_witness :
  (exists ms, (run (mailbox_list 10 "acme" "helper" "general" 8) demo_local demo_mailbox).1 = Ok ms /\
     listing demo_mailbox "acme" "helper" "general" 8 ms) \/
  (exists e, (run (mailbox_list 10 "acme" "helper" "general" 8) demo_local demo_mailbox).1 = Err e /\ is_service_exn e = true).
Proof.
  apply (mailbox_lists_in_order (H0:=local_service) alone 10 "acme" "helper" "general" 8 demo_mailbox _
    (run (mailbox_list 10 "acme" "helper" "general" 8) demo_local demo_mailbox).2).
  - exact demo_mailbox_ok.
  - lia.
  - apply alone_quiet.
  - apply (bool_decide_unpack _). vm_compute. exact Logic.I.
  - apply run_exec_to. exact eq_refl.
Defined.

(** A handler that queues a run for each message. *)
Definition demo_job (m : MailboxItem) : TurnRunJob :=
  RunJob.mk (MailboxItem.tenantId m) (MailboxItem.channelId m) (MailboxItem.botId m) (MailboxItem.messageId m) [].
Definition demo_handler (m : MailboxItem) : prog unit := send (EnqueueRun (demo_job m)).
Definition demo_handled (m : MailboxItem) (w : World) : Prop := demo_job m ∈ World.runs w.

(** What the handler does: the table stays, the queue only grows, and a resolved handler queued its run. *)
Lemma demo_handler_exec m w o w' :
  exec (H:=local_service) alone (demo_handler m) w o w' ->
  tbl w' = tbl w /\ World.runs w ⊆ World.runs w' /\ (o = Ok tt -> demo_handled m w').
Proof.
  destruct o as [e|[]]; intros Hs.
  - apply exec_send_fails in Hs as [->%alone_rtc _]. by split_and!.
  - apply exec_send in Hs as (w1 & w2 & ->%alone_rtc & ->%respond_contract & ->%alone_rtc). cbn.
    split_and!; [done| |intros _]; unfold demo_handled; cbn; set_solver.
Qed.


Definition demo_allocated : World := (run (allocateSeq "acme" "general") demo_local empty_world).2.

Lemma demo_allocations :
  (run (allocateSeq "acme" "general") demo_local empty_world).1 = Ok 1 /\
  (run (allocateSeq "acme" "general") demo_local demo_allocated).1 = Ok 2.
Proof. vm_compute. split; reflexivity. Qed.

Lemma allocated_sequences_increase_witness :
  (run (allocateSeq "acme" "general") demo_local empty_world).1 = Ok 1 /\
  (run (allocateSeq "acme" "general") demo_local demo_allocated).1 = Ok 2 /\ 1 < 2.
Proof.
  split; [exact (proj1 demo_allocations)|]. split; [exact (proj2 demo_allocations)|].
  apply (allocated_sequences_increase (H0:=local_service) alone "acme" "general" empty_world 1 demo_allocated demo_allocated 2
    (run (allocateSeq "acme" "general") demo_local demo_allocated).2).
  - intros w w' [].
  - exact (run_exec_to (allocateSeq "acme" "general") demo_local empty_world (Ok 1) (proj1 demo_allocations)).
  - apply rtc_refl.
  - exact (run_exec_to (allocateSeq "acme" "general") demo_local demo_allocated (Ok 2) (proj2 demo_allocations)).
Defined.
