(* ===== verification/ActionTheorems.v ===== *)
(** * What the computer actions promise

    One action per call, one answer per action, at most one worker for an action that may not run twice, one live action at
    a time, and lost actions settled. *)

From S2P Require Import Prelude Json Types Service Retry Paging TurnCodec TurnStore TurnSpec TurnRefine Actions.
From S2P Require Import ActionSystem ActionPrograms Demo.
From stdpp Require Import sorting.
From coqutil Require Import Datatypes.RecordSetters.
Import DoubleBraceUpdate.
#[local] Open Scope Z_scope.
#[local] Open Scope cond_scope.
#[local] Open Scope prog_scope.

(** ** The worker of an action that may not run twice *)

Lemma act_worker_stays a a' :
  Envelope.idempotent (Action.envelope a) = false -> Action.status a <> Requested -> rtc act_step a a' ->
  Action.status a' <> Requested /\ Action.claimedBy a' = Action.claimedBy a.
Proof.
  intros Hi Hs Hsteps. split; [by eapply act_not_requested_again|].
  revert Hi Hs. induction Hsteps as [|a1 a2 a3 Hstep _ IH]; intros Hi Hs; [done|].
  pose proof (act_step_same_call _ _ Hstep) as (_ & _ & _ & _ & _ & _ & He & _).
  assert (Action.status a2 <> Requested) as Hs2 by (eapply act_not_requested_again; [exact Hi|done|by apply rtc_once]).
  rewrite (IH ltac:(by rewrite He) Hs2). destruct a1. destruct Hstep; act_fields; congruence.
Qed.

Section theorems.
Context `{Collation} `{Service} (I : World -> World -> Prop).

(** What [claimNextComputerAction] hands to a worker: an action it just claimed, or one it holds. *)
Lemma claimNext_exec pages t worker refuse w a w' :
  (forall w w', I w w' -> act_sys w w') -> plain t -> acts_ok w ->
  exec I (claimNextComputerAction pages t worker refuse) w (Ok (Some a)) w' ->
  exists w1, rtc act_sys w w1 /\ rtc act_sys w1 w' /\ action_at w1 t (Action.actionId a) a /\
    Action.status a = Claimed /\ (Action.claimedBy a = text_or_null worker \/ Action.claimedBy a = Some worker).
Proof.
  intros HI Ht Hok [(e & [=] & _)|(now & w1 & Hw1 & Hrest)]%exec_clock.
  assert (acts_ok w1) as Hok1 by by apply (act_ok_others I HI w).
  apply exec_bind in Hrest as [(open & w2 & Hopen & Hrest)|(e & [=] & _)].
  apply (listOpen_exec I HI) in Hopen as [Hw2 Hopen]; [|done..].
  destruct (List.find (lease_live now) open) as [b|] eqn:Hfind.
  - destruct Hrest as [Heq Hw']. injection Heq as Heq. destruct (decide (Action.claimedBy b = Some worker)) as [Hb|]; [|done].
    injection Heq as ->. apply List.find_some in Hfind as [Hin%list_elem_of_In Hl].
    destruct (Hopen open b eq_refl Hin) as (w3 & Hw3 & Hw32 & Hat & _). exists w3.
    unfold lease_live in Hl. apply andb_true_iff in Hl as [Hl%bool_decide_eq_true _].
    split_and!; [apply (act_others I HI); by trans w1|apply (act_others I HI); by trans w2|done|done|by right].
  - assert (acts_ok w2) as Hok2 by by apply (act_ok_others I HI w1).
    apply (claim_first_exec I HI) in Hrest as [Hs Hc]; [|done..].
    destruct (Hc a eq_refl) as (w3 & a0 & w4 & Hw3 & _ & _ & Hs34 & Hat & Hw4 & Hst & Hby).
    exists w4. split_and!; try done; [|by left].
    trans w2; [apply (act_others I HI); by trans w1|]. by eapply rtc_r.
Qed.


(** A call has one action: of two requests to create the action of the same call, the later one creates nothing and
    returns an action with the same identifier, whatever identifier it proposed. So a call that is requested again after a
    crash does not run again. *)
Theorem call_has_one_action a b w r w1 w2 r' w3 :
  (forall w w', I w w' -> act_sys w w') -> acts_ok w -> plain (Action.tenantId a) ->
  Action.tenantId b = Action.tenantId a -> Action.turnId b = Action.turnId a -> Action.callId b = Action.callId a ->
  unused I a w -> unused I b w2 ->
  exec I (createIfAbsent a) w (Ok r) w1 -> rtc act_sys w1 w2 -> exec I (createIfAbsent b) w2 (Ok r') w3 ->
  Action.actionId r'.1 = Action.actionId r.1 /\ r'.2 = false.
Proof.
  intros HI Hok Ht Hbt Hbu Hbc Hua Hub H1 Hw H2.
  destruct (createIfAbsent_exec I HI a w r w1 Ht Hok Hua H1) as (Hs1 & wa & Hwa & Hwa1 & Hidx & _).
  assert (acts_ok w2) as Hok2 by (eapply act_syses_ok; [exact Hok|by trans w1]).
  destruct (createIfAbsent_exec I HI b w2 r' w3 ltac:(by rewrite Hbt) Hok2 Hub H2) as (Hs2 & wb & Hwb & Hwb1 & Hidx' & Hr').
  rewrite Hbt, Hbu, Hbc in *.
  assert (indexed w2 (Action.tenantId a) (Action.turnId a) (Action.callId a) (Action.actionId r.1)) as Hidx2.
  { eapply (act_syses_index wa); [done| |done]. trans w1; [by apply (act_others I HI)|done]. }
  split.
  - destruct (act_syses_index w2 wb _ _ _ _ Ht Hwb Hidx2) as (it & Hit & _ & Hi).
    destruct Hidx' as (it' & Hit' & _ & Hi'). congruence.
  - destruct r'.2; [|done]. destruct Hr' as (_ & _ & w0 & Hw0 & Hnone).
    destruct (act_syses_index w2 w0 _ _ _ _ Ht ltac:(by apply (act_others I HI)) Hidx2) as (it & Hit & [v Hv] & _).
    unfold item_at in Hnone. rewrite Hit in Hnone. cbn in Hnone. congruence.
Qed.


(** While nobody writes to the actions, the open ones are all listed, or the service fails. *)
Lemma listOpen_all pages t w o w' :
  plain t -> acts_ok w -> quiet I (t +:+ "#computer#actions") ->
  (remaining w (t +:+ "#computer#actions") (BeginsWith "act#") None < pages)%nat ->
  exec I (listOpen pages t) w o w' ->
  match o with
  | Ok open => forall i b, action_at w t i b -> Action.status b <> Done -> b ∈ open
  | Err e => is_service_exn e = true
  end.
Proof.
  intros Ht Hok Hq Hrem Hex.
  pose proof (decode_all_complete decode_action
    (select w (t +:+ "#computer#actions") (BeginsWith "act#") (AttrNe "status" (AS "done")) None).*2) as Hall.
  apply exec_bind in Hex as [(l & w1 & Hl & [-> _])|(e & -> & Hl)];
    apply (query_pages_quiet I decode_action) in Hl as [_ [Hl|(e' & [=] & He)]]; try done; [| |by subst].
  - rewrite <- Hl in Hall. intros i b (it & Hit & Hr & _) Hd. unfold by_age. rewrite merge_sort_Permutation.
    apply (Hall it); [|unfold decode_action; by rewrite (proj2 (decodeAction_reads _ _) Hr)].
    apply list_elem_of_fmap. exists ("act#" +:+ i, it). split; [done|]. apply elem_of_select.
    split; [|done]. split; [done|]. split; [done|]. split; [apply starts_with_app|].
    cbn [holds]. apply bool_decide_eq_true. intros Hs. by apply (reads_status it b Hr Done) in Hs.
  - rewrite <- Hl in Hall. destruct Hall as (it & [[sk it'] [-> Hin]]%list_elem_of_fmap & Hd).
    apply elem_of_select in Hin as [(Hit & _ & Hsk & _) _]. cbn [fst snd in_range] in *. exfalso.
    apply starts_with_inv in Hsk as [i ->]. change (_, "act#" +:+ i) with (computerActionKey t i) in Hit.
    destruct (ok_records _ Hok _ _ _ Ht Hit) as (a & it2 & Hit2 & Hr & _). assert (it2 = it') as -> by congruence.
    unfold decode_action in Hd. by rewrite (proj2 (decodeAction_reads _ _) Hr) in Hd.
Qed.

(** A computer runs one action at a time: while an action is claimed under a lease that is still live by the clock,
    [claimNextComputerAction] writes nothing; it returns nothing, or an action the asking worker itself holds. *)
Theorem one_live_action_at_a_time pages t worker refuse i b lease w o w' :
  (forall w w', I w w' -> act_sys w w') ->
  plain t -> acts_ok w -> quiet I (t +:+ "#computer#actions") -> (size (tbl w) < pages)%nat ->
  action_at w t i b -> Action.status b = Claimed -> Action.leaseExpiresAt b = Some lease ->
  (forall w now w', respond ClockNow w (Ok now) w' -> now < lease) ->
  exec I (claimNextComputerAction pages t worker refuse) w o w' ->
  rtc I w w' /\
  match o with
  | Ok None => True
  | Ok (Some a) => Action.claimedBy a = Some worker /\ Action.status a = Claimed
  | Err e => is_service_exn e = true
  end.
Proof.
  intros HI Ht Hok Hq Hp Hb Hst Hl Hclock Hex.
  apply exec_bind in Hex as [(now & w1 & Hnow & Hex)|(e & -> & [Hw He]%exec_send_fails)]; [|done].
  apply exec_send in Hnow as (w2 & w3 & Hw2 & Hnow & Hw3). pose proof (Hclock _ _ _ Hnow) as Hlt.
  apply respond_contract in Hnow. cbn in Hnow. subst w3. assert (rtc I w w1) as Hw1 by by trans w2.
  assert (forall sk, tbl w1 !! (t +:+ "#computer#actions", sk) = tbl w !! (t +:+ "#computer#actions", sk)) as Hsame
    by (intros sk; by apply (quiet_others I)).
  assert (acts_ok w1) as Hok1 by by apply (act_ok_others I HI w).
  assert (remaining w1 (t +:+ "#computer#actions") (BeginsWith "act#") None < pages)%nat as Hrem.
  { unfold remaining. rewrite (select_quiet w w1) by done. eapply Nat.le_lt_trans; [apply remaining_size|done]. }
  assert (action_at w1 t i b) as Hb1.
  { destruct Hb as (it & Hit & ?). exists it. split; [|done]. unfold computerActionKey in *. by rewrite Hsame. }
  apply exec_bind in Hex as [(open & w4 & Hopen & Hex)|(e & -> & Hopen)];
    pose proof (listOpen_all _ _ _ _ _ Ht Hok1 Hq Hrem Hopen) as Hall;
    apply (listOpen_exec I HI) in Hopen as [Hw4 _]; try done; [|split; [by trans w1|done]].
  assert (lease_live now b = true) as Hlive.
  { unfold lease_live. rewrite Hl, bool_decide_true by done. by apply Z.ltb_lt. }
  destruct (List.find (lease_live now) open) as [a|] eqn:Hfind.
  - destruct Hex as [-> Hw']. split; [trans w1; [done|by trans w4]|]. apply List.find_some in Hfind as [_ Hf].
    destruct (decide (Action.claimedBy a = Some worker)); [|done]. split; [done|].
    unfold lease_live in Hf. by apply andb_true_iff in Hf as [Hf%bool_decide_eq_true _].
  - assert (b ∈ open) as Hin%list_elem_of_In by (eapply Hall; [done|by rewrite Hst]).
    by rewrite (List.find_none _ _ Hfind b Hin) in Hlive.
Qed.

(** ** Settling lost actions, while nobody else writes to them *)

Section settling.
Context (t : string) (Hq : quiet I (t +:+ "#computer#actions")).

Lemma update_quiet i xs c w o w' :
  exec I (action_update t i xs c) w o w' ->
  (forall j, j <> i -> tbl w' !! computerActionKey t j = tbl w !! computerActionKey t j) /\
  match o with
  | Err _ => True
  | Ok None => tbl w' !! computerActionKey t i = tbl w !! computerActionKey t i /\
      holds (AttrExists "pk" AND c) (item_at w (computerActionKey t i)) = false
  | Ok (Some a) => exists it, tbl w !! computerActionKey t i = Some it /\ holds c it = true /\
      tbl w' !! computerActionKey t i = Some (apply_actions xs it) /\ action_reads (apply_actions xs it) a
  end.
Proof using Hq.
  unfold computerActionKey.
  intros [(e & -> & Hw)|[[-> (w1 & Hw1 & Hc & Hw2)]|(w1 & it & it' & Hw1 & Hit & Hc & -> & Hw2 & ->)]]%action_update_exec.
  - split; [intros j _; by apply (quiet_others I)|done].
  - split; [intros j _; apply (quiet_others I); [done|by trans w1]|].
    split; [apply (quiet_others I); [done|by trans w1]|]. unfold item_at, computerActionKey in *.
    by rewrite (quiet_others I _ _ _ _ Hq Hw1) in Hc.
  - unfold computerActionKey in *. rewrite (quiet_others I _ _ _ _ Hq Hw1) in Hit. split.
    + intros j Hj. rewrite (quiet_others I _ _ _ _ Hq Hw2). cbn [tbl with_tbl].
      rewrite lookup_insert_ne by (intros [= Heq%string_app_inj_l]; done). by apply (quiet_others I).
    + unfold decode_action. destruct (decodeAction (apply_actions xs it)) as [a|] eqn:Hd; [|done].
      exists it. split_and!; try done; [|by apply decodeAction_reads].
      rewrite (quiet_others I _ _ _ _ Hq Hw2). cbn [tbl with_tbl]. by rewrite lookup_insert_eq.
Qed.

(** One round of [expireLostComputerActions]. *)
Definition settle_one (now : Z) (changed : list ComputerAction) (a : ComputerAction) : prog (list ComputerAction) :=
  if lease_lost now a then
    let! settled :=
      if Envelope.idempotent (Action.envelope a) then action_release t (Action.actionId a)
      else action_complete t (Action.actionId a) None INTERRUPTED_ACTION_RESULT true now in
    Ret (match settled with Some s => changed ++ [s] | None => changed end)
  else Ret changed.

Context (now : Z) (i : string) (b : ComputerAction) (it : item).
Context (Hr : action_reads it b) (Hi : Action.actionId b = i) (Hpk : is_Some (it !! "pk")).
Context (Hst : Action.status b = Claimed) (Hlost : lease_lost now b = true).

(** The action was settled, and is among those that are returned. *)
Definition settled_in (w : World) (changed : list ComputerAction) : Prop :=
  exists it' b', tbl w !! computerActionKey t i = Some it' /\ action_reads it' b' /\ same_call b b' /\
    settled_action b' /\ b' ∈ changed.

Definition due (w : World) (changed : list ComputerAction) : Prop :=
  tbl w !! computerActionKey t i = Some it \/ settled_in w changed.

(** Whoever reads the outcome of a step of the machine reads that step. *)
Lemma step_same_call xs a : (exists a', act_step b a' /\ action_reads (apply_actions xs it) a') ->
  action_reads (apply_actions xs it) a -> same_call b a.
Proof using Type.
  intros (a' & Hstep & Ha') Ha. apply decodeAction_reads in Ha, Ha'. assert (a' = a) as -> by congruence.
  by apply act_step_same_call.
Qed.

Lemma settle_due changed changed' w w' :
  tbl w !! computerActionKey t i = Some it ->
  exec I (settle_one now changed b) w (Ok changed') w' -> settled_in w' changed'.
Proof using Hq Hr Hi Hpk Hst Hlost.
  intros Hit Hex. unfold settle_one in Hex. rewrite Hlost in Hex.
  apply exec_bind in Hex as [(o & w1 & Hset & [[= ->] Hw])|(e & [=] & _)]. unfold settled_in.
  assert (tbl w' !! computerActionKey t i = tbl w1 !! computerActionKey t i) as -> by by apply (quiet_others I).
  assert (holds (AttrEq "status" (AS "claimed")) it = true) as Hcl.
  { cbn [holds]. apply bool_decide_eq_true. by apply (reads_status it b Hr Claimed). }
  assert (holds (AttrExists "pk") it = true) as Hpk' by by apply bool_decide_eq_true.
  rewrite Hi in Hset. destruct (Envelope.idempotent (Action.envelope b)) eqn:Hid.
  - apply update_quiet in Hset as [_ Hset]. destruct o as [a|].
    2:{ destruct Hset as [_ Hno]. unfold item_at in Hno. rewrite Hit in Hno.
        change (holds (AttrExists "pk") it && holds (AttrEq "status" (AS "claimed")) it = false) in Hno. by rewrite Hpk', Hcl in Hno. }
    destruct Hset as (it0 & Hit0 & _ & Hw1 & Ha). assert (it0 = it) as -> by congruence.
    pose proof (step_same_call release_actions a (release_refines it b Hr Hcl Hid) Ha) as Hsame.
    exists (apply_actions release_actions it), a. split_and!; [done|done|done| |apply elem_of_app; right; by apply list_elem_of_singleton].
    unfold settled_action. destruct Hsame as (_ & _ & _ & _ & _ & _ & -> & _). rewrite Hid.
    pose proof (ar_status _ _ Ha) as Hs. unfold apply_actions in Hs. cbn [foldl apply_action] in Hs.
    autorewrite with item in Hs. by destruct (Action.status a).
  - assert (holds (AttrNe "status" (AS "done")) it = true) as Hnd.
    { cbn [holds]. apply bool_decide_eq_true. intros Hd. apply (reads_status it b Hr Done) in Hd. congruence. }
    apply update_quiet in Hset as [_ Hset]. destruct o as [a|].
    2:{ destruct Hset as [_ Hno]. unfold item_at in Hno. rewrite Hit in Hno.
        change (holds (AttrExists "pk") it && holds (AttrNe "status" (AS "done")) it = false) in Hno. by rewrite Hpk', Hnd in Hno. }
    destruct Hset as (it0 & Hit0 & _ & Hw1 & Ha). assert (it0 = it) as -> by congruence.
    pose proof (step_same_call _ a (act_write_refines it b Hr _ _ (aw_complete None INTERRUPTED_ACTION_RESULT true now) Hnd) Ha) as Hsame.
    eexists _, a. split_and!; [done|done|done| |apply elem_of_app; right; by apply list_elem_of_singleton].
    unfold settled_action. destruct Hsame as (_ & _ & _ & _ & _ & _ & -> & _). rewrite Hid. by apply done_reads in Ha.
Qed.

(** A settled action is left alone, and so is every other action. *)
Lemma settle_kept changed changed' a w w' :
  exec I (settle_one now changed a) w (Ok changed') w' ->
  (Action.actionId a = i -> a = b) -> settled_in w changed -> settled_in w' changed'.
Proof using All.
  intros Hex Hab (it' & b' & Hit & Hr' & Hsame & Hset & Hin). unfold settle_one in Hex.
  assert (tbl w' !! computerActionKey t i = tbl w !! computerActionKey t i -> (exists l, changed' = changed ++ l) ->
    settled_in w' changed') as Hkeep.
  { intros Heq [l ->]. exists it', b'. rewrite Heq. split_and!; try done. set_solver. }
  destruct (lease_lost now a) eqn:Hl.
  2:{ destruct Hex as [[= ->] Hw]. apply Hkeep; [by apply (quiet_others I)|]. exists []. by rewrite app_nil_r. }
  apply exec_bind in Hex as [(o & w1 & Hex & [[= ->] Hw])|(e & [=] & _)].
  assert (tbl w' !! computerActionKey t i = tbl w1 !! computerActionKey t i) as Hw1 by by apply (quiet_others I).
  assert (exists l, match o with Some s => changed ++ [s] | None => changed end = changed ++ l) as Hext.
  { destruct o; [by eexists|]. exists []. by rewrite app_nil_r. }
  apply Hkeep; [|done]. rewrite Hw1. clear Hkeep Hw1 Hw Hext. destruct (decide (Action.actionId a = i)) as [Heq|Hne].
  - rewrite Heq in Hex. pose proof (Hab Heq) as ->. unfold settled_action in Hset.
    destruct Hsame as (_ & _ & _ & _ & _ & _ & He & _). rewrite He in Hset.
    destruct (Envelope.idempotent (Action.envelope b)); apply update_quiet in Hex as [_ Hex];
      (destruct o; [exfalso|by destruct Hex]); destruct Hex as (it0 & Hit0 & Hc & _);
      assert (it0 = it') as -> by congruence; cbn [holds] in Hc; apply bool_decide_eq_true in Hc.
    + apply (reads_status it' b' Hr' Claimed) in Hc. congruence.
    + destruct Hset as [Hd _]. by apply (reads_status it' b' Hr' Done) in Hd.
  - destruct (Envelope.idempotent (Action.envelope a)); apply update_quiet in Hex as [Hex _]; by apply Hex.
Qed.

Lemma settle_loop l changed changed' w w' :
  (forall a, a ∈ l -> Action.actionId a = i -> a = b) -> due w changed ->
  exec I (for_each l changed (settle_one now)) w (Ok changed') w' ->
  due w' changed' /\ (b ∈ l -> settled_in w' changed').
Proof using All.
  revert changed w. induction l as [|a l IH]; intros changed w Hl Hdue; cbn [for_each].
  { intros [[= ->] Hw]. split; [|set_solver].
    assert (tbl w' !! computerActionKey t i = tbl w !! computerActionKey t i) as Heq by by apply (quiet_others I).
    unfold due, settled_in in *. by rewrite Heq. }
  intros [(c1 & w1 & Hone & Hrest)|(e & [=] & _)]%exec_bind.
  assert (forall a, a ∈ l -> Action.actionId a = i -> a = b) as Hl' by (intros; apply Hl; [by right|done]).
  assert (settled_in w1 c1 -> due w' changed' /\ (b ∈ a :: l -> settled_in w' changed')) as Hdone.
  { clear IH Hone Hdue Hl. intros Hs. enough (settled_in w' changed') by (split; [by right|done]).
    revert c1 w1 Hrest Hs. induction l as [|x l IH]; intros c1 w1; cbn [for_each].
    - intros [[= ->] Hw] (it' & b' & ? & ?). exists it', b'. split; [|done].
      assert (tbl w' !! computerActionKey t i = tbl w1 !! computerActionKey t i) as -> by by apply (quiet_others I). done.
    - intros [(c2 & w2 & Hone & Hrest)|(e & [=] & _)]%exec_bind Hs.
      eapply IH; [intros; apply Hl'; [by right|done]|done|]. eapply settle_kept; [exact Hone|apply Hl'; by left|done]. }
  destruct Hdue as [Hit|Hs]; [|apply Hdone; eapply settle_kept; [exact Hone|apply Hl; by left|done]].
  destruct (decide (Action.actionId a = i)) as [Heq|Hne].
  - assert (a = b) as -> by (apply Hl; [by left|done]). by apply Hdone, (settle_due changed c1 w w1).
  - assert (due w1 c1) as Hdue.
    { left. rewrite <- Hit. unfold settle_one in Hone. destruct (lease_lost now a).
      - apply exec_bind in Hone as [(o & w2 & Hex & [_ Hw])|(e & [=] & _)].
        assert (tbl w1 !! computerActionKey t i = tbl w2 !! computerActionKey t i) as -> by by apply (quiet_others I).
        destruct (Envelope.idempotent (Action.envelope a)); apply update_quiet in Hex as [Hex _]; by apply Hex.
      - destruct Hone as [_ Hw]. by apply (quiet_others I). }
    destruct (IH c1 w1 Hl' Hdue Hrest) as [Hd Hb]. split; [done|]. intros [<-|Hin]%elem_of_cons; [done|by apply Hb].
Qed.
End settling.

End theorems.

(** A computer action survives its item: what [decodeAction] reads of the item [encodeAction] makes is the action itself,
    arguments and envelope through JSON included, with moments at the resolution of seconds and empty texts as null. *)
Theorem action_codec_round_trip a : decodeAction (encodeAction a) = Some (stored_action a).
Proof. apply decodeAction_reads, encodeAction_reads. Qed.

(** ** Applications *)

(** A call of the terminal, which may not run twice. *)
Definition demo_call (actionId : string) : ComputerAction :=
  proposed_action (ActionRequest.mk "acme" "c1" "t1" "general" "helper" (Some "ann") "call1" "run_terminal" []) actionId 1000000.

Definition demo_create : prog (ComputerAction * bool) := createIfAbsent (demo_call "x1").
Definition demo_take : prog (option ComputerAction) := claimNextComputerAction 10 "acme" "worker" (fun _ => None).
Definition demo_answer (result : string) : prog (ComputerAction * bool) := completeComputerAction "acme" "x1" "worker" result false.

Definition demo_created : World := (run demo_create demo_local empty_world).2.
Definition demo_taken : World := (run demo_take demo_local demo_created).2.
Definition demo_answered : World := (run (demo_answer "ok") demo_local demo_taken).2.

Lemma demo_create_returns : (run demo_create demo_local empty_world).1 = Ok (demo_call "x1", true).
Proof. vm_compute. reflexivity. Qed.

(** The action the worker took. *)
Definition demo_held : ComputerAction :=
  (demo_call "x1") {{ Action.status := Claimed; Action.claimedBy := Some "worker"; Action.leaseExpiresAt := Some 1061000 }}.

Lemma demo_take_returns : (run demo_take demo_local demo_created).1 = Ok (Some demo_held).
Proof. vm_compute. reflexivity. Qed.

Lemma demo_unused i w : tbl w !! computerActionKey "acme" i = None -> unused alone (demo_call i) w.
Proof. intros Hn. split; [exact Hn|intros w1 w2 []]. Qed.

Lemma demo_acme : plain "acme".
Proof. reflexivity. Qed.

Lemma demo_create_exec : exec (H:=clock_service 1001000) alone demo_create empty_world (Ok (demo_call "x1", true)) demo_created.
Proof. apply (run_exec_at demo_create demo_local empty_world). exact demo_create_returns. Qed.

Lemma demo_created_ok : acts_ok demo_created.
Proof.
  destruct (createIfAbsent_exec (H:=clock_service 1001000) alone alone_act (demo_call "x1") empty_world _ _ demo_acme
    empty_acts_ok (demo_unused _ _ (lookup_empty _)) demo_create_exec) as [Hs _].
  exact (act_syses_ok _ _ empty_acts_ok Hs).
Qed.

Lemma demo_take_exec : exec (H:=clock_service 1001000) alone demo_take demo_created (Ok (Some demo_held)) demo_taken.
Proof. apply (run_exec_at demo_take demo_local demo_created). exact demo_take_returns. Qed.

Lemma demo_taken_ok : acts_ok demo_taken.
Proof.
  destruct (claimNext_exec (H0:=clock_service 1001000) alone 10 "acme" "worker" (fun _ => None) demo_created demo_held
    demo_taken alone_act demo_acme demo_created_ok demo_take_exec) as (w1 & Hw1 & Hw2 & _).
  exact (act_syses_ok _ _ (act_syses_ok _ _ demo_created_ok Hw1) Hw2).
Qed.

(** The two answers of the worker: the first is recorded, the second gets the first one back. *)
Definition demo_final : ComputerAction :=
  (demo_call "x1") {{ Action.status := Done; Action.claimedBy := Some "worker"; Action.result := Some "ok";
                      Action.completedAt := Some 1001000 }}.

Lemma demo_answers :
  (run (demo_answer "ok") demo_local demo_taken).1 = Ok (demo_final, true) /\
  (run (demo_answer "again") demo_local demo_answered).1 = Ok (demo_final, false).
Proof. vm_compute. split; reflexivity. Qed.


Lemma demo_created_next : tbl demo_created !! computerActionKey "acme" "x2" = None.
Proof. vm_compute. reflexivity. Qed.

Lemma demo_second_create :
  exists r, (run (createIfAbsent (demo_call "x2")) demo_local demo_created).1 = Ok r.
Proof. eexists. vm_compute. reflexivity. Qed.

Lemma call_has_one_action_witness :
  exists r, (run (createIfAbsent (demo_call "x2")) demo_local demo_created).1 = Ok r /\
    Action.actionId r.1 = "x1" /\ r.2 = false.
Proof.
  destruct demo_second_create as [r Hr]. exists r. split; [exact Hr|].
  apply (call_has_one_action (H0:=clock_service 1001000) alone (demo_call "x1") (demo_call "x2") empty_world
    (demo_call "x1", true) demo_created demo_created r (run (createIfAbsent (demo_call "x2")) demo_local demo_created).2).
  - exact alone_act.
  - exact empty_acts_ok.
  - exact demo_acme.
  - exact eq_refl.
  - exact eq_refl.
  - exact eq_refl.
  - exact (demo_unused "x1" empty_world (lookup_empty _)).
  - exact (demo_unused "x2" demo_created demo_created_next).
  - exact demo_create_exec.
  - apply rtc_refl.
  - exact (run_exec_at (createIfAbsent (demo_call "x2")) demo_local demo_created _ Hr).
Defined.

Lemma demo_take_again : (run demo_take demo_local demo_taken).1 = Ok (Some demo_held).
Proof. vm_compute. reflexivity. Qed.


(** The item of the action the worker took. *)
Lemma demo_taken_item :
  (tbl demo_taken !! computerActionKey "acme" "x1") ≫= decodeAction = Some demo_held /\
  is_Some ((tbl demo_taken !! computerActionKey "acme" "x1") ≫= (fun it => it !! "pk")).
Proof. split; [vm_compute; reflexivity|]. apply (bool_decide_unpack _). vm_compute. exact Logic.I. Qed.

Lemma demo_taken_at :
  exists it, tbl demo_taken !! computerActionKey "acme" "x1" = Some it /\ action_reads it demo_held /\ is_Some (it !! "pk").
Proof.
  destruct demo_taken_item as [Hd Hpk]. destruct (tbl demo_taken !! computerActionKey "acme" "x1") as [it|]; [|discriminate Hd].
  exists it. split; [exact eq_refl|]. split; [exact (proj1 (decodeAction_reads _ _) Hd)|exact Hpk].
Qed.

Lemma demo_taken_size : (size (tbl demo_taken) < 10)%nat.
Proof. apply (bool_decide_unpack _). vm_compute. exact Logic.I. Qed.

Definition demo_other_take : prog (option ComputerAction) := claimNextComputerAction 10 "acme" "other" (fun _ => None).

Lemma one_live_action_at_a_time_witness :
  rtc alone demo_taken (run demo_other_take demo_local demo_taken).2 /\
  match (run demo_other_take demo_local demo_taken).1 with
  | Ok None => True
  | Ok (Some a) => Action.claimedBy a = Some "other" /\ Action.status a = Claimed
  | Err e => is_service_exn e = true
  end.
Proof.
  destruct demo_taken_at as (it & Hit & Hr & _).
  apply (one_live_action_at_a_time (H0:=clock_service 1001000) alone 10 "acme" "other" (fun _ => None) "x1" demo_held 1061000
    demo_taken).
  - exact alone_act.
  - exact demo_acme.
  - exact demo_taken_ok.
  - apply alone_quiet.
  - exact demo_taken_size.
  - exists it. split; [exact Hit|]. split; [exact Hr|]. split; exact eq_refl.
  - exact eq_refl.
  - exact eq_refl.
  - intros w now w' (l & Hl & Heq). cbn in Heq. injection Heq as <- _. rewrite Hl. lia.
  - exact (run_exec_at demo_other_take demo_local demo_taken _ eq_refl).
Defined.

(** Forty seconds after the lease ran out. *)
Definition demo_later : Local := mkLocal 1101000 0.
Definition demo_expire : prog (list ComputerAction) := expireLostComputerActions 10 "acme".

Lemma demo_expire_returns : exists changed, (run demo_expire demo_later demo_taken).1 = Ok changed.
Proof. eexists. vm_compute. reflexivity. Qed.

