(* ===== verification/ProbeTheorems.v ===== *)
(** * What the probes promise

    A run is published at most once per enqueue identifier; a probe moves turns only along the machine; and a probe that
    returns leaves the turn watched, unless the turn ended, changed hands or was failed.

    Every program of Probes.v moves the table only along the writes of TurnSystem.v, so the invariants of turns hold under
    any interleaving of owners, probes, hosts and the web; and a run job is published at most once per identifier. *)

From S2P Require Import Prelude Json Types Service Retry Paging TurnCodec Grant TurnStore Turns TurnSpec TurnRefine.
From S2P Require Import TurnSystem TurnPrograms Actions Probes ActionSystem ActionPrograms Mailbox Admission Demo.
#[local] Open Scope Z_scope.
#[local] Open Scope cond_scope.
#[local] Open Scope prog_scope.

Section guarantees.
Context `{Collation} `{Service} (I : World -> World -> Prop) (HI : forall w w', I w w' -> sys w w').

(** ** Requests that touch no turn item *)

Lemma frame_sys (w w' : World) : tbl w' = tbl w -> sys w w'.
Proof. intros Heq. apply sys_frame. intros pk _ sk _. by rewrite Heq. Qed.

(** A request that leaves the table as it is. *)
Lemma safe_same_table {R : Type} (r : request R) :
  (forall w v w', contract r w (Ok v) w' -> tbl w' = tbl w) -> safe_request r.
Proof.
  intros Hr w [e|v] w' _ Hc; [by destruct Hc as [-> _]|]. apply rtc_once, frame_sys. by eapply Hr.
Qed.

Lemma safe_clock : safe_request ClockNow.
Proof. apply safe_same_table. by intros w v w' ->. Qed.
Lemma safe_next_id : safe_request NextId.
Proof. apply safe_same_table. by intros w v w' ->. Qed.
Lemma safe_enqueue (j : TurnRunJob) : safe_request (EnqueueRun j).
Proof. apply safe_same_table. by intros w v w' ->. Qed.
Lemma safe_probe m d : safe_request (SendProbe m d).
Proof. apply safe_same_table. by intros w v w' ->. Qed.

Lemma act_key_not_slot (i : string) : ~ turn_slot ("act#" +:+ i).
Proof. by apply not_slot. Qed.

Lemma safe_action_update t i xs c : safe_request (UpdateItem (computerActionKey t i) xs c).
Proof.
  intros w [e|it] w' _ Hc; [by destruct Hc as [-> _]|]. destruct Hc as (_ & _ & ->). apply rtc_once, sys_frame.
  intros pk _ sk Hsk. cbn [tbl with_tbl]. apply lookup_insert_ne. intros Heq%(f_equal snd). cbn [snd computerActionKey] in Heq.
  subst sk. by apply act_key_not_slot in Hsk.
Qed.

Lemma safe_create a : safe_request (TransactWrite (create_ops a)).
Proof.
  intros w [e|[]] w' _ Hc; [by destruct Hc as [-> _]|]. destruct Hc as (_ & _ & ->). apply rtc_once, sys_frame.
  intros pk _ sk Hsk. cbn [tbl with_tbl create_ops foldl txop_write].
  assert (item_key (encodeActionIndex a) = Some (turnActionIndexKey (Action.tenantId a) (Action.turnId a) (Action.callId a))) as -> by done.
  assert (item_key (encodeAction a) = Some (computerActionKey (Action.tenantId a) (Action.actionId a))) as ->.
  { unfold item_key, encodeAction. by rewrite !lookup_put_if_ne by done. }
  rewrite !lookup_insert_ne; [done|..]; intros Heq%(f_equal snd); cbn [snd computerActionKey turnActionIndexKey] in Heq;
    subst sk; by apply act_key_not_slot in Hsk.
Qed.

(** ** The functions of turns and actions *)

Lemma guarantees_with {A B : Type} (r : request B) (k : B -> prog A) :
  safe_request r -> (forall b, guarantees I (k b)) -> guarantees I (let! b := send r in k b).
Proof using HI. intros Hr Hk. apply (guarantees_bind I HI); [by apply guarantees_send|done]. Qed.

Lemma guarantees_with_event {A : Type} (k : string -> Z -> prog A) :
  (forall id x, guarantees I (k id x)) -> guarantees I (with_event k).
Proof using HI.
  intros Hk. apply guarantees_with; [apply safe_next_id|]. intros id. apply guarantees_with; [apply safe_clock|]. auto.
Qed.

Lemma guarantees_turns_getTurn t u : guarantees I (turns_getTurn t u).
Proof using HI.
  apply (guarantees_bind I HI); [apply (silent_guarantees I HI), silent_getTurn|].
  intros [x|]; [by apply guarantees_ret|by apply guarantees_throw].
Qed.

Lemma guarantees_releaseForWaiting t u a gate tool : gate <> "" -> guarantees I (releaseForWaiting t u a gate tool).
Proof using HI.
  intros Hg. apply guarantees_with; [apply safe_clock|]. intros now. apply guarantees_with_event. intros id x.
  apply (guarantees_transition I HI). by constructor.
Qed.

Lemma guarantees_relinquish t u a : guarantees I (turns_relinquishTurn t u a).
Proof using HI. apply guarantees_with_event. intros. apply (guarantees_transition I HI). constructor. Qed.

Lemma guarantees_turns_failStale t c reason : guarantees I (turns_failStaleTurn t c reason).
Proof using HI.
  apply guarantees_with; [apply safe_clock|]. intros now. apply guarantees_with; [apply safe_next_id|]. intros id.
  apply (store_program_guarantees I HI). constructor.
Qed.

Lemma guarantees_turns_recover t : guarantees I (turns_recoverExpiredTurn t).
Proof using HI.
  apply guarantees_with; [apply safe_clock|]. intros now. apply (store_program_guarantees I HI). constructor.
Qed.

Lemma guarantees_action_get t i : guarantees I (action_get t i).
Proof using HI.
  apply (guarantees_bind I HI); [apply (silent_guarantees I HI), silent_get|]. intros [it|]; [|by apply guarantees_ret].
  apply (guarantees_bind I HI); [|intros; by apply guarantees_ret]. unfold read_action.
  destruct (decode_action it); [by apply guarantees_throw|by apply guarantees_ret].
Qed.

Lemma guarantees_getByCall t u c : guarantees I (getByCall t u c).
Proof using HI.
  apply (guarantees_bind I HI); [apply (silent_guarantees I HI), silent_get|]. intros o.
  destruct (o ≫= _); [apply guarantees_action_get|by apply guarantees_ret].
Qed.

Lemma guarantees_outcome_retry {R : Type} (r : request R) : safe_request r -> guarantees I (outcome_of (retryTransient (send r))).
Proof using HI. intros Hr w o w' Hok (x & -> & Hex)%exec_outcome_of. by eapply (guarantees_retry I HI). Qed.

Lemma guarantees_requestComputerAction r : guarantees I (requestComputerAction r).
Proof using HI.
  apply guarantees_with; [apply safe_next_id|]. intros id. apply guarantees_with; [apply safe_clock|]. intros now.
  apply (guarantees_bind I HI); [|intros; by apply guarantees_ret].
  apply (guarantees_bind I HI); [apply guarantees_outcome_retry, safe_create|]. intros [e|[]]; [|by apply guarantees_ret].
  destruct e; try by apply guarantees_throw.
  apply (guarantees_bind I HI); [apply guarantees_getByCall|]. intros [a|]; [by apply guarantees_ret|by apply guarantees_throw].
Qed.

Lemma guarantees_action_update t i xs c : guarantees I (action_update t i xs c).
Proof using HI.
  apply (guarantees_null_when I HI). apply guarantees_with; [apply safe_action_update|]. intros it. unfold read_action.
  destruct (decode_action it); [by apply guarantees_throw|by apply guarantees_ret].
Qed.

Lemma guarantees_listOpen pages t : guarantees I (listOpen pages t).
Proof using HI. apply (guarantees_bind I HI); [by apply guarantees_query_pages|intros; by apply guarantees_ret]. Qed.

Lemma guarantees_expireLost pages t : guarantees I (expireLostComputerActions pages t).
Proof using HI.
  apply guarantees_with; [apply safe_clock|]. intros now. apply (guarantees_bind I HI); [apply guarantees_listOpen|]. intros open.
  apply (guarantees_for_each I HI). intros changed a. destruct (lease_lost now a); [|by apply guarantees_ret].
  apply (guarantees_bind I HI); [|intros; by apply guarantees_ret].
  destruct (Envelope.idempotent _); apply guarantees_action_update.
Qed.

(** ** The programs of probes *)

Context `{HostRouting} (crashes : string -> string -> bool) (turnAnswered : Turn -> prog bool)
  (maximumRecoveryAttempts : Z) (pages : nat).

(** What the worker registry and the session storage are relied on for: they leave the items of turns alone. *)
Context (Hhost : forall t, guarantees I (ensureHostForParkedTurn t)).
Context (Hanswered : forall t, guarantees I (turnAnswered t)).

Lemma guarantees_maybeCrash b win : guarantees I (maybeCrash crashes b win).
Proof using HI. unfold maybeCrash. destruct (crashes b win); [by apply guarantees_throw|by apply guarantees_ret]. Qed.

Lemma guarantees_armProbe t d : guarantees I (armProbe t d).
Proof using HI. apply (guarantees_send I HI), safe_probe. Qed.

Lemma guarantees_requestLogicalEnqueue job id : guarantees I (requestLogicalEnqueue crashes job id).
Proof using HI.
  apply (guarantees_bind I HI); [apply guarantees_maybeCrash|]. intros _.
  apply (guarantees_bind I HI); [by apply guarantees_recordLogicalEnqueue|]. intros []; [|by apply guarantees_ret].
  apply (guarantees_bind I HI); [apply guarantees_maybeCrash|]. intros _.
  apply (guarantees_bind I HI); [apply (guarantees_send I HI), safe_enqueue|intros; by apply guarantees_ret].
Qed.

Lemma guarantees_resumeRecovery t : guarantees I (resumeRecovery crashes t).
Proof using HI.
  apply (guarantees_bind I HI); [apply guarantees_requestLogicalEnqueue|intros; apply guarantees_armProbe].
Qed.

Lemma guarantees_handleUnowned t : guarantees I (handleUnownedTurn crashes turnAnswered maximumRecoveryAttempts t).
Proof using HI Hanswered.
  unfold handleUnownedTurn. destruct (_ <? _).
  - apply (guarantees_bind I HI); [apply guarantees_maybeCrash|]. intros _.
    apply (guarantees_bind I HI); [apply guarantees_turns_recover|]. intros [r|]; [|by apply guarantees_ret].
    apply (guarantees_bind I HI); [apply guarantees_maybeCrash|]. intros _. apply guarantees_resumeRecovery.
  - apply (guarantees_bind I HI); [apply Hanswered|]. intros b. apply (guarantees_bind I HI).
    + destruct b; [apply guarantees_requestLogicalEnqueue|by apply guarantees_ret].
    + intros []; [apply guarantees_armProbe|].
      apply (guarantees_bind I HI); [apply guarantees_turns_failStale|intros; by apply guarantees_ret].
Qed.

Lemma guarantees_resumeTurnForAction t u a : guarantees I (resumeTurnForAction crashes t u a).
Proof using HI.
  apply (guarantees_bind I HI); [apply (store_program_guarantees I HI); constructor|]. intros [x|]; [|by apply guarantees_ret].
  apply (guarantees_bind I HI); [apply guarantees_requestLogicalEnqueue|]. intros _.
  apply (guarantees_bind I HI); [apply guarantees_armProbe|intros; by apply guarantees_ret].
Qed.

Lemma guarantees_settle t : guarantees I (settleParkedTurn crashes pages t).
Proof using HI Hhost.
  unfold settleParkedTurn. destruct (Turn.pendingComputerTool t) as [p|]; [|by apply guarantees_ret].
  apply (guarantees_bind I HI); [apply guarantees_expireLost|]. intros changes. apply (guarantees_bind I HI).
  - apply (guarantees_for_each I HI). intros r a. case_decide; [|by apply guarantees_ret].
    apply (guarantees_bind I HI); [apply guarantees_resumeTurnForAction|intros; by apply guarantees_ret].
  - intros []; [by apply guarantees_ret|]. apply (guarantees_bind I HI); [apply guarantees_action_get|].
    intros [a|]; [|by apply guarantees_ret]. destruct (Action.status a); [|by apply guarantees_ret|apply guarantees_resumeTurnForAction].
    apply (guarantees_bind I HI); [apply Hhost|intros; by apply guarantees_ret].
Qed.

Lemma guarantees_handleProbe m : guarantees I (handleProbe crashes turnAnswered maximumRecoveryAttempts pages m).
Proof using HI Hhost Hanswered.
  apply (guarantees_bind I HI); [apply (silent_guarantees I HI), silent_getTurn|]. intros [t|]; [|by apply guarantees_ret].
  case_decide; [by apply guarantees_ret|]. apply guarantees_with; [apply safe_clock|]. intros now.
  destruct (Turn.waitingFor t) as [g|].
  - destruct (_ <? _); [by apply guarantees_ret|]. apply (guarantees_bind I HI); [apply guarantees_settle|].
    intros []; [by apply guarantees_ret|]. destruct (waiting_remaining t now <=? 0); [|apply guarantees_armProbe].
    apply (guarantees_bind I HI); [apply guarantees_turns_failStale|intros; by apply guarantees_ret].
  - destruct (recovery_unrequested t); [apply guarantees_resumeRecovery|].
    destruct (ownedUntil t) as [until|]; [|apply guarantees_handleUnowned].
    destruct (now <? until); [|apply guarantees_handleUnowned].
    destruct (Probe.expectAttempt m <? Turn.attempt t); [by apply guarantees_ret|apply guarantees_armProbe].
Qed.

Lemma guarantees_yieldAttempt t u a : guarantees I (yieldAttempt crashes t u a).
Proof using HI.
  apply (guarantees_bind I HI); [apply guarantees_turns_getTurn|]. intros x.
  apply (guarantees_bind I HI); [apply guarantees_relinquish|]. intros _.
  apply (guarantees_bind I HI); [apply guarantees_requestLogicalEnqueue|]. intros _. apply guarantees_armProbe.
Qed.

Lemma guarantees_parkAttempt t u a gate tool : gate <> "" -> guarantees I (parkAttempt t u a gate tool).
Proof using HI.
  intros Hg. apply (guarantees_bind I HI); [by apply guarantees_releaseForWaiting|]. intros _.
  apply (guarantees_bind I HI); [apply guarantees_turns_getTurn|]. intros x. apply guarantees_armProbe.
Qed.
End guarantees.

Section theorems.
Context `{Collation} `{Service} (I : World -> World -> Prop).
Context (HI : forall w w', I w w' -> sys w w').

(** ** Recording an enqueue *)

(** The turn of a table remembers an enqueue identifier. *)
Definition remembers (w : World) (pk enqueueId : string) : Prop :=
  exists s, represents w pk s /\ reachable s /\ enqueueId ∈ Turn.logicalEnqueueIds (Abstract.turn s).

Lemma remembers_stays w w' pk enqueueId : all_ok w -> rtc sys w w' -> remembers w pk enqueueId -> remembers w' pk enqueueId.
Proof using Type.
  intros Hok Hsys (s & Hrep & Hreach & Hid).
  destruct (syses_refine _ _ _ _ Hok Hsys Hrep (reachable_inv _ Hreach)) as (s' & Hs & Hrep').
  exists s'. split_and!; [done|destruct Hreach as (s0 & ? & ?); exists s0; split; [done|by trans s]|].
  apply steps_grow in Hs as (_ & _ & _ & Hsub & _). by apply Hsub.
Qed.

(** When an identifier was recorded, the turn had not remembered it, and remembers it from then on. *)
Lemma recordLogicalEnqueue_exec tenantId turnId enqueueId w w' :
  all_ok w -> exec I (recordLogicalEnqueue tenantId turnId enqueueId) w (Ok true) w' ->
  let pk := turnItemPartitionKey tenantId turnId in
  (exists w1, rtc I w w1 /\ ~ remembers w1 pk enqueueId) /\ all_ok w' /\ remembers w' pk enqueueId.
Proof using HI.
  intros Hok Hex pk. destruct (proj1 (exec_bind _ _ _ _ _ _) Hex) as [(o & w1 & Hu & Hrest)|(e & [=] & _)].
  destruct o as [it0|].
  2:{ exfalso. destruct (proj1 (exec_bind _ _ _ _ _ _) Hrest) as [([it|] & w2 & _ & [[=] _])|(e & [=] & _)]. }
  destruct Hrest as [_ Hw']. apply exec_null_when in Hu as [(it' & [= <-] & Hu)|[[[=] _]|(e & _ & [=] & _)]].
  destruct (exec_retry_send I _ _ _ _ Hu) as (w2 & w3 & Hw2 & (Hc & Heq & ->) & Hw3).
  destruct (update_commits I HI tenantId turnId _ _ w w2 it0 Hok Hw2 (up_enqueue enqueueId) Hc Heq)
    as (it & t & t' & log & Hit & -> & Hwf & Hr & Hrep & Hreach & Hh & Ht' & Hstep & Hr' & Hrep' & Hsys). fold pk in Hrep, Hrep'.
  pose proof (others_ok I HI _ _ Hok Hw2) as Hok2. pose proof (sys_ok _ _ Hok2 Hsys) as Hok3.
  assert (rtc sys (with_tbl w2 (<[metaKey tenantId turnId := apply_actions [ADD "logical_enqueue_ids" (ASS {[enqueueId]})] it]> (tbl w2))) w')
    as Hsys' by (apply (others_sys I HI); by trans w1).
  split_and!.
  - exists w2. split; [done|]. intros (s & Hs & _ & Hin). destruct (represents_reads _ _ _ _ Hs Hit) as [_ Hrs].
    pose proof (r_enqueues _ _ Hrs) as Hids. unfold string_set in Hids. cbn [holds] in Hh.
    rewrite andb_true_iff, orb_true_iff, bool_decide_eq_true in Hh. destruct Hh as [_ Hh].
    destruct (it !! "logical_enqueue_ids") as [[| | | | | |ss|]|]; try (rewrite <- Hids in Hin; by apply not_elem_of_empty in Hin).
    destruct Hh as [[=]|Hh]. apply negb_true_iff, bool_decide_eq_false in Hh. by rewrite <- Hids in Hin.
  - eapply syses_ok; [exact Hok3|done].
  - eapply (remembers_stays _ _ _ _ Hok3 Hsys'). exists (Abstract.mk t' log). split_and!; [done| |].
    + destruct Hreach as (s0 & ? & ?). exists s0. split; [done|]. by eapply rtc_r.
    + cbn. rewrite <- (r_enqueues _ _ Hr'). unfold string_set, apply_actions. cbn [foldl apply_action].
      destruct (wf_enqueues _ Hwf) as [E|[ss E]]; rewrite E, lookup_insert_eq; set_solver.
Qed.

Lemma requestLogicalEnqueue_exec crashes job enqueueId w w' :
  all_ok w -> exec I (requestLogicalEnqueue crashes job enqueueId) w (Ok true) w' ->
  let pk := turnItemPartitionKey (RunJob.tenantId job) (RunJob.turnId job) in
  (exists w1, rtc I w w1 /\ ~ remembers w1 pk enqueueId) /\ all_ok w' /\ remembers w' pk enqueueId /\
  exists w1, rtc sys w w1 /\ rtc sys (with_run w1 job) w'.
Proof using HI.
  intros Hok Hex pk. destruct (proj1 (exec_bind _ _ _ _ _ _) Hex) as [([] & w1 & Hc & Hex1)|(e & [=] & _)].
  assert (rtc I w w1) as Hw1.
  { unfold maybeCrash in Hc. destruct (crashes _ _); by destruct Hc. }
  destruct (proj1 (exec_bind _ _ _ _ _ _) Hex1) as [(b & w2 & Hrec & Hex2)|(e & [=] & _)].
  destruct b; [|by destruct Hex2].
  destruct (recordLogicalEnqueue_exec _ _ _ _ _ (others_ok I HI _ _ Hok Hw1) Hrec) as ((w3 & Hw3 & Hno) & Hok2 & Hrem).
  assert (rtc sys w1 w2) as Hs12.
  { eapply (guarantees_recordLogicalEnqueue I HI); [exact (others_ok I HI _ _ Hok Hw1)|exact Hrec]. }
  destruct (proj1 (exec_bind _ _ _ _ _ _) Hex2) as [([] & w4 & Hc2 & Hex3)|(e & [=] & _)].
  assert (rtc I w2 w4) as Hw4.
  { unfold maybeCrash in Hc2. destruct (crashes _ _); by destruct Hc2. }
  destruct (proj1 (exec_bind _ _ _ _ _ _) Hex3) as [([] & w5 & Hsend & [_ Hw5])|(e & [=] & _)].
  apply exec_send in Hsend as (w6 & w7 & Hw6 & ->%respond_contract & Hw7).
  assert (rtc sys w2 w6) as Hs26 by (apply (others_sys I HI); by trans w4).
  assert (rtc sys (with_run w6 job) w') as Hs6 by (apply (others_sys I HI); by trans w5).
  assert (rtc sys w2 w') as Hs2' by (trans w6; [done|]; apply (rtc_l _ _ (with_run w6 job)); [by apply frame_sys|done]).
  split_and!.
  - exists w3. split; [by trans w1|done].
  - eapply syses_ok; [exact Hok2|done].
  - eapply remembers_stays; [exact Hok2|done|done].
  - exists w6. split; [|done]. trans w1; [by apply (others_sys I HI)|]. by trans w2.
Qed.


(** ** Probes *)

Context `{HostRouting} (crashes : string -> string -> bool) (turnAnswered : Turn -> prog bool)
  (maximumRecoveryAttempts : Z) (pages : nat).
Context (Hhost : forall t, guarantees I (ensureHostForParkedTurn t)).
Context (Hanswered : forall t, guarantees I (turnAnswered t)).

(** A probe moves turns only along the machine: however [handleProbe] ends, crashed, failed or not, every turn the table
    represented before is afterwards in a state the machine reaches from there. In particular a probe never ends or reopens
    a turn in a way its owner could not see. *)
Theorem probe_moves_turns_along_machine m w o w' pk s :
  all_ok w -> exec I (handleProbe crashes turnAnswered maximumRecoveryAttempts pages m) w o w' ->
  represents w pk s -> reachable s ->
  all_ok w' /\ exists s', rtc spec_step s s' /\ represents w' pk s' /\ reachable s'.
Proof using HI Hhost Hanswered.
  intros Hok Hex Hrep Hreach.
  pose proof (guarantees_handleProbe I HI crashes turnAnswered maximumRecoveryAttempts pages Hhost Hanswered m w o w' Hok Hex) as Hsys.
  split; [by eapply syses_ok|].
  destruct (syses_refine _ _ _ _ Hok Hsys Hrep (reachable_inv _ Hreach)) as (s' & Hs & Hrep').
  exists s'. split_and!; try done. destruct Hreach as (s0 & ? & ?). exists s0. split; [done|by trans s].
Qed.

(** A probe of the turn of a partition was armed, with a delay the queue takes. *)
Definition armed (pk : string) (w w' : World) : Prop :=
  exists w1 m d, rtc sys w w1 /\ turnItemPartitionKey (Probe.tenantId m) (Probe.turnId m) = pk /\
    1 <= d <= MAXIMUM_PROBE_DELAY_SECONDS /\ rtc sys (with_probe w1 m d) w'.

Lemma clampDelay_bounds n : 1 <= clampDelay n <= MAXIMUM_PROBE_DELAY_SECONDS.
Proof using Type. unfold clampDelay, MAXIMUM_PROBE_DELAY_SECONDS. lia. Qed.

Lemma armProbe_armed t d w w' :
  exec I (armProbe t d) w (Ok tt) w' -> armed (turnItemPartitionKey (Turn.tenantId t) (Turn.turnId t)) w w'.
Proof using HI.
  intros (w1 & w2 & Hw1 & ->%respond_contract & Hw2)%exec_send. 
  eexists w1, (Probe.mk (Turn.tenantId t) (Turn.turnId t) (Turn.attempt t)), (clampDelay d). split; [by apply (others_sys I HI)|].
  split; [|split; [apply clampDelay_bounds|apply (others_sys I HI), Hw2]]. reflexivity.
Qed.

Lemma armed_earlier pk w0 w w' : rtc sys w0 w -> armed pk w w' -> armed pk w0 w'.
Proof using Type. intros Hw (w1 & m & d & ? & ?). exists w1, m, d. split; [by trans w|done]. Qed.
Lemma armed_later pk w w' w2 : armed pk w w' -> rtc sys w' w2 -> armed pk w w2.
Proof using Type. intros (w1 & m & d & ? & ? & ? & ?) Hw. exists w1, m, d. split_and!; try done; [naive_solver..|by trans w']. Qed.

Lemma guarantees_ok {A : Type} (p : prog A) w o w' : guarantees I p -> all_ok w -> exec I p w o w' -> rtc sys w w' /\ all_ok w'.
Proof using Type. intros Hp Hok Hex. pose proof (Hp _ _ _ Hok Hex). split; [done|by eapply syses_ok]. Qed.

Lemma resumeRecovery_armed t w w' :
  all_ok w -> exec I (resumeRecovery crashes t) w (Ok tt) w' ->
  armed (turnItemPartitionKey (Turn.tenantId t) (Turn.turnId t)) w w'.
Proof using HI.
  intros Hok Hex. destruct (proj1 (exec_bind _ _ _ _ _ _) Hex) as [(b & w1 & Hr & Ha)|(e & [=] & _)].
  eapply armed_earlier; [|eapply armProbe_armed, Ha]. by eapply (guarantees_requestLogicalEnqueue I HI).
Qed.

(** A resumed turn is watched. *)
Lemma resumeTurnForAction_armed tenantId turnId actionId w w' :
  all_ok w -> exec I (resumeTurnForAction crashes tenantId turnId actionId) w (Ok true) w' ->
  armed (turnItemPartitionKey tenantId turnId) w w'.
Proof using HI.
  intros Hok Hex. destruct (proj1 (exec_bind _ _ _ _ _ _) Hex) as [(o & w1 & Hclear & Hex1)|(e & [=] & _)].
  destruct o as [t|]; [|by destruct Hex1].
  assert (turnItemPartitionKey (Turn.tenantId t) (Turn.turnId t) = turnItemPartitionKey tenantId turnId /\ rtc sys w w1) as [Hpk Hs].
  { split; [|eapply (store_program_guarantees I HI); [apply prog_resumeTurn|exact Hok|exact Hclear]].
    destruct (exec_update I _ _ _ _ _ _ Hclear) as [(e & [=] & _)|[[[=] _]|(w2 & it & Hw2 & Hc & Heq & _ & Ho)]].
    destruct (update_commits I HI tenantId turnId _ _ w w2 it Hok Hw2 up_resume Hc Heq)
      as (it1 & t1 & t' & log & _ & _ & _ & _ & _ & _ & _ & Ht' & _ & _ & Hrep' & _).
    rewrite Ht' in Ho. injection Ho as ->. destruct Hrep' as [it2 Hby]. exact (rep_pk _ _ _ _ Hby). }
  assert (all_ok w1) as Hok1 by by eapply syses_ok.
  destruct (proj1 (exec_bind _ _ _ _ _ _) Hex1) as [(b & w2 & Hr & Hex2)|(e & [=] & _)].
  destruct (proj1 (exec_bind _ _ _ _ _ _) Hex2) as [([] & w3 & Ha & [_ Hw'])|(e & [=] & _)].
  rewrite <- Hpk. eapply armed_earlier; [exact Hs|]. eapply armed_earlier; [by eapply (guarantees_requestLogicalEnqueue I HI)|].
  eapply armed_later; [eapply armProbe_armed, Ha|by apply (others_sys I HI)].
Qed.

(** A parked turn that was settled is watched. *)
Lemma settleParkedTurn_armed t w w' :
  (forall w w', I w w' -> act_sys w w') -> plain (Turn.tenantId t) -> all_ok w -> acts_ok w ->
  exec I (settleParkedTurn crashes pages t) w (Ok true) w' ->
  armed (turnItemPartitionKey (Turn.tenantId t) (Turn.turnId t)) w w'.
Proof using HI Hhost.
  intros HA Ht Hok Hacts Hex. unfold settleParkedTurn in Hex. set (pk := turnItemPartitionKey _ _).
  destruct (Turn.pendingComputerTool t) as [pending|]; [|by destruct Hex].
  destruct (proj1 (exec_bind _ _ _ _ _ _) Hex) as [(changes & w1 & Hexp & Hex1)|(e & [=] & _)].
  destruct (guarantees_ok _ _ _ _ (guarantees_expireLost I HI pages (Turn.tenantId t)) Hok Hexp) as [Hs1 Hok1].
  destruct (expireLost_exec I HA pages (Turn.tenantId t) w _ w1 Ht Hacts Hexp) as [_ Hset]. specialize (Hset changes eq_refl).
  destruct (proj1 (exec_bind _ _ _ _ _ _) Hex1) as [(resumed & w2 & Hloop & Hex2)|(e & [=] & _)]. clear Hex Hex1.
  assert ((resumed = true -> armed pk w w2) /\ rtc sys w w2 /\ all_ok w2) as (Hres & Hs2 & Hok2).
  { assert (false = true -> armed pk w w1) as Hacc by done. revert Hacc Hs1 Hok1 Hset Hloop. clear Hexp.
    generalize false. revert w1. induction changes as [|a changes IH]; intros wa acc Hacc Hsa Hoka Hall; cbn [for_each].
    { intros [[= ->] Hw]. apply (others_sys I HI) in Hw. split_and!; [|by trans wa|by eapply syses_ok].
      intros Hr. eapply armed_later; [by apply Hacc|done]. }
    apply Forall_cons in Hall as [[_ Hten] Hall].
    intros [(acc' & wb & Hone & Hrest)|(e & [=] & _)]%exec_bind.
    case_decide; [|destruct Hone as [[= ->] Hw]; apply (others_sys I HI) in Hw].
    2:{ eapply IH; [|by trans wa|by eapply syses_ok|done|exact Hrest]. intros Hr. eapply armed_later; [by apply Hacc|done]. }
    destruct (proj1 (exec_bind _ _ _ _ _ _) Hone) as [(r & wc & Hr & [[= ->] Hw])|(e & [=] & _)].
    destruct (guarantees_ok _ _ _ _ (guarantees_resumeTurnForAction I HI crashes _ _ _) Hoka Hr) as [Hsc Hokc].
    apply (others_sys I HI) in Hw. eapply IH; [|trans wa; [done|by trans wc]|by eapply syses_ok|done|exact Hrest].
    assert (acc = true -> armed pk w wb) as Hold by (intros; eapply armed_later; [by apply Hacc|by trans wc]).
    destruct r; [|done]. intros [?|Heq%bool_decide_eq_true]%orb_true_iff; [by apply Hold|].
    eapply armed_later; [|exact Hw]. eapply armed_earlier; [exact Hsa|].
    subst pk. rewrite <- Heq, <- Hten. by eapply resumeTurnForAction_armed. }
  destruct resumed; [destruct Hex2 as [_ Hw]; eapply armed_later; [by apply Hres|by apply (others_sys I HI)]|].
  destruct (proj1 (exec_bind _ _ _ _ _ _) Hex2) as [(o & w3 & Hget & Hex3)|(e & [=] & _)].
  destruct (guarantees_ok _ _ _ _ (guarantees_action_get I HI _ _) Hok2 Hget) as [Hs3 Hok3].
  destruct o as [a|]; [|by destruct Hex3]. destruct (Action.status a); [|by destruct Hex3|].
  - by destruct (proj1 (exec_bind _ _ _ _ _ _) Hex3) as [(b & w4 & _ & [[=] _])|(e & [=] & _)].
  - eapply armed_earlier; [trans w2; [exact Hs2|exact Hs3]|]. by eapply resumeTurnForAction_armed.
Qed.

(** The turn a probe reads. *)
Lemma getTurn_represented tenantId turnId w t w' :
  all_ok w -> exec I (getTurn tenantId turnId) w (Ok (Some t)) w' ->
  exists w1 s, rtc sys w w1 /\ rtc sys w1 w' /\ represents w1 (turnItemPartitionKey tenantId turnId) s /\ Abstract.turn s = t /\
    turnItemPartitionKey (Turn.tenantId t) (Turn.turnId t) = turnItemPartitionKey tenantId turnId.
Proof using HI.
  intros Hok (w1 & it & Hw1 & Hit & Ht & Hw')%exec_getTurn.
  pose proof (others_ok I HI _ _ Hok Hw1 (turnItemPartitionKey tenantId turnId)) as Hpk. unfold metaKey in Hit.
  rewrite Hit in Hpk. destruct Hpk as (s & Hrep & Hreach); [by eexists _, _|].
  pose proof (represents_turn _ _ _ _ _ Hrep Hit Ht) as ->. exists w1, s.
  split_and!; [by apply (others_sys I HI)|by apply (others_sys I HI)|done|done|]. destruct Hrep as [? Hby]. exact (rep_pk _ _ _ _ Hby).
Qed.

Lemma getTurn_missing tenantId turnId w w' :
  exec I (getTurn tenantId turnId) w (Ok None) w' ->
  exists w1, rtc I w w1 /\ rtc I w1 w' /\ tbl w1 !! metaKey tenantId turnId = None.
Proof using Type.
  intros [(o & w1 & (w2 & Hw2 & -> & Hw1)%exec_get & Hrest)|(e & [=] & _)]%exec_bind.
  destruct (tbl w2 !! metaKey tenantId turnId) as [it|] eqn:Hit.
  - exfalso. destruct (proj1 (exec_bind _ _ _ _ _ _) Hrest) as [(x & w3 & _ & [[=] _])|(e & [=] & _)].
  - destruct Hrest as [_ Hw']. exists w2. split_and!; [done|by trans w1|done].
Qed.

(** How a probe can end without an error: the turn is gone; it ended, or a newer attempt has its own probe; a probe was armed;
    somebody else moved the turn on before it could be recovered; or the turn was to be failed, because it waited for its
    computer past the limit or because no recovery is left. *)
Inductive probe_outcome (m : TurnProbeMessage) (w w' : World) : Prop :=
| po_gone w1 :
    rtc sys w w1 -> rtc sys w1 w' -> tbl w1 !! metaKey (Probe.tenantId m) (Probe.turnId m) = None -> probe_outcome m w w'
| po_dropped w1 s :
    rtc sys w w1 -> rtc sys w1 w' -> represents w1 (turnItemPartitionKey (Probe.tenantId m) (Probe.turnId m)) s ->
    Turn.status (Abstract.turn s) <> Active \/ Probe.expectAttempt m < Turn.attempt (Abstract.turn s) -> probe_outcome m w w'
| po_armed : armed (turnItemPartitionKey (Probe.tenantId m) (Probe.turnId m)) w w' -> probe_outcome m w w'
| po_overtaken w1 s now w2 :
    rtc sys w w1 -> represents w1 (turnItemPartitionKey (Probe.tenantId m) (Probe.turnId m)) s ->
    rtc sys w1 w2 -> rtc sys w2 w' ->
    holds (recovery_condition (observationOf (Abstract.turn s)) (epochSeconds now))
      (item_at w2 (turnItemPartitionKey (Probe.tenantId m) (Probe.turnId m), "meta")) = false ->
    probe_outcome m w w'
| po_failed w1 s c reason o w2 w3 :
    rtc sys w w1 -> represents w1 (turnItemPartitionKey (Probe.tenantId m) (Probe.turnId m)) s -> rtc sys w1 w2 ->
    exec I (turns_failStaleTurn (Abstract.turn s) c reason) w2 (Ok o) w3 -> rtc sys w3 w' ->
    match c with
    | StillWaiting => is_Some (Turn.waitingFor (Abstract.turn s)) /\ reason = COMPUTER_UNAVAILABLE_REASON
    | LeaseExpired => Turn.waitingFor (Abstract.turn s) = None /\ reason = RECOVERY_EXHAUSTED_REASON /\
        maximumRecoveryAttempts <= Turn.recoveryAttempts (Abstract.turn s)
    end -> probe_outcome m w w'.

Section outcome.
Context (m : TurnProbeMessage) (w w0 : World) (s : AbstractTurn).
Abbreviation pk := (turnItemPartitionKey (Probe.tenantId m) (Probe.turnId m)).
Abbreviation t := (Abstract.turn s).
Context (Hw0 : rtc sys w w0) (Hrep : represents w0 pk s) (Hpk : turnItemPartitionKey (Turn.tenantId t) (Turn.turnId t) = pk).

Lemma armProbe_outcome d w1 w' : rtc sys w w1 -> exec I (armProbe t d) w1 (Ok tt) w' -> probe_outcome m w w'.
Proof using HI Hpk. intros Hw1 Ha. apply po_armed. eapply armed_earlier; [exact Hw1|]. rewrite <- Hpk. by eapply armProbe_armed. Qed.

Lemma handleUnowned_outcome w1 w' :
  rtc sys w0 w1 -> all_ok w1 -> Turn.waitingFor t = None ->
  exec I (handleUnownedTurn crashes turnAnswered maximumRecoveryAttempts t) w1 (Ok tt) w' -> probe_outcome m w w'.
Proof using HI Hanswered Hw0 Hrep Hpk.
  intros Hw1 Hok Hwait Hex. assert (rtc sys w w1) as Hww1 by by trans w0.
  unfold handleUnownedTurn in Hex. destruct (_ <? _) eqn:Hmax.
  - destruct (proj1 (exec_bind _ _ _ _ _ _) Hex) as [(u & w2 & Hc & Hex2)|(e & [=] & _)].
    destruct (guarantees_ok _ _ _ _ (guarantees_maybeCrash I HI crashes _ _) Hok Hc) as [Hs2 Hok2].
    destruct (proj1 (exec_bind _ _ _ _ _ _) Hex2) as [(r & w3 & Hrec & Hex3)|(e & [=] & _)].
    destruct (guarantees_ok _ _ _ _ (guarantees_turns_recover I HI t) Hok2 Hrec) as [Hs3 Hok3].
    destruct (exec_clock I _ _ _ _ Hrec) as [(e & [=] & _)|(now & w4 & Hw4 & Hupd)].
    pose proof (others_ok I HI _ _ Hok2 Hw4) as Hok4. apply (others_sys I HI) in Hw4.
    destruct (exec_update I _ _ _ _ _ _ Hupd) as [(e & [=] & _)|[[[= ->] (w5 & Hw5 & Hno & Hw53)]|(w5 & it & Hw5 & Hc5 & Heq & Hw53 & Ho)]].
    + destruct Hex3 as [_ Hw']. apply (po_overtaken m w w' w0 s now w5); try done.
      * trans w1; [done|]. trans w2; [done|]. trans w4; [done|]. by apply (others_sys I HI).
      * apply (others_sys I HI). by trans w3.
      * unfold metaKey in Hno. by rewrite Hpk in Hno.
    + destruct (update_commits I HI _ _ _ _ w4 w5 it Hok4 Hw5 (up_recover _ _ _ _) Hc5 Heq)
        as (it1 & t1 & t' & log & _ & _ & _ & _ & _ & _ & _ & Ht' & _ & _ & Hrep' & _).
      rewrite Ht' in Ho. injection Ho as ->. destruct Hrep' as [it2 Hby]. pose proof (rep_pk _ _ _ _ Hby) as Hpk'.
      cbn [Abstract.turn] in Hpk'. rewrite Hpk in Hpk'.
      destruct (proj1 (exec_bind _ _ _ _ _ _) Hex3) as [(u' & w6 & Hc6 & Hex6)|(e & [=] & _)].
      destruct (guarantees_ok _ _ _ _ (guarantees_maybeCrash I HI crashes _ _) Hok3 Hc6) as [Hs6 Hok6].
      apply po_armed. eapply (armed_earlier _ w w6); [trans w1; [done|]; trans w2; [done|]; by trans w3|].
      rewrite <- Hpk'. by eapply resumeRecovery_armed.
  - destruct (proj1 (exec_bind _ _ _ _ _ _) Hex) as [(b & w2 & Hans & Hex2)|(e & [=] & _)].
    destruct (guarantees_ok _ _ _ _ (Hanswered t) Hok Hans) as [Hs2 Hok2].
    destruct (proj1 (exec_bind _ _ _ _ _ _) Hex2) as [(r & w3 & Hreq & Hex3)|(e & [=] & _)].
    assert (rtc sys w2 w3) as Hs3.
    { destruct b; [by eapply (guarantees_requestLogicalEnqueue I HI)|]. destruct Hreq as [_ ?]. by apply (others_sys I HI). }
    assert (rtc sys w w3) as Hww3 by (trans w1; [done|by trans w2]).
    destruct r; [by eapply armProbe_outcome|].
    destruct (proj1 (exec_bind _ _ _ _ _ _) Hex3) as [(o & w4 & Hf & [_ Hw'])|(e & [=] & _)].
    apply (po_failed m w w' w0 s LeaseExpired RECOVERY_EXHAUSTED_REASON o w3 w4); try done.
    + trans w1; [done|by trans w2].
    + by apply (others_sys I HI).
    + split_and!; [done|done|]. by apply Z.ltb_ge in Hmax.
Qed.
End outcome.

End theorems.

(** ** Applications *)

Definition demo_job : TurnRunJob := RunJob.mk "acme" "general" "helper" "t1" ["cpu"].
Definition no_crash (boundary window : string) : bool := false.
Definition demo_enqueue : prog bool := requestLogicalEnqueue no_crash demo_job "t1#initial".
Definition demo_enqueued : World := (run demo_enqueue demo_local demo_world).2.

Lemma demo_enqueues :
  (run demo_enqueue demo_local demo_world).1 = Ok true /\ (run demo_enqueue demo_local demo_enqueued).1 = Ok false.
Proof. vm_compute. split; reflexivity. Qed.


(** A registry without hosts, and a conversation without an answer. *)
Definition no_hosts : HostRouting :=
  {| ensureHostForParkedTurn := fun _ => Ret false; ensureComputer := fun _ => Ret "c1"; computerIsStopped := fun _ => Ret true |}.
Definition no_answer (t : Turn) : prog bool := Ret false.
Definition demo_probe : TurnProbeMessage := Probe.mk "acme" "t1" 1.
Definition demo_handle : prog unit := handleProbe (H0:=no_hosts) no_crash no_answer 1 10 demo_probe.

(** Ten minutes after the claim: the lease is over, and no attempt was recovered so far. *)
Definition demo_probe_time : Local := mkLocal 1601000 0.

Lemma demo_hosts t : guarantees (H0:=local_service) alone (ensureHostForParkedTurn (HostRouting:=no_hosts) t).
Proof. by apply (guarantees_ret (H0:=local_service) alone alone_sys). Qed.
Lemma demo_answers_none t : guarantees (H0:=local_service) alone (no_answer t).
Proof. by apply (guarantees_ret (H0:=local_service) alone alone_sys). Qed.

Lemma demo_handle_returns : (run demo_handle demo_probe_time demo_claimed).1 = Ok tt.
Proof. vm_compute. reflexivity. Qed.

Lemma probe_moves_turns_along_machine_witness :
  exists s s', represents demo_claimed demo_pk s /\ rtc spec_step s s' /\
    represents (run demo_handle demo_probe_time demo_claimed).2 demo_pk s'.
Proof.
  destruct demo_claimed_ok as [Hok (s & Hrep & Hreach & _)].
  destruct (probe_moves_turns_along_machine (H0:=local_service) alone alone_sys (H1:=no_hosts) no_crash no_answer 1 10
    demo_hosts demo_answers_none demo_probe demo_claimed (Ok tt) (run demo_handle demo_probe_time demo_claimed).2 demo_pk s Hok
    (run_exec_to demo_handle demo_probe_time demo_claimed _ demo_handle_returns) Hrep Hreach) as [_ (s' & Hs & Hrep' & _)].
  exists s, s'. split; [exact Hrep|]. split; [exact Hs|exact Hrep'].
Defined.

(** No item of the table is that of a computer action. *)
Lemma no_actions_ok (w : World) :
  map_Forall (fun (k : key) (_ : item) => starts_with "act#" k.2 = false) (tbl w) -> acts_ok w.
Proof.
  intros Hall. constructor.
  - intros t i it _ Hit. by apply Hall in Hit.
  - intros t u c it _ Hit. by apply Hall in Hit.
Qed.

Lemma demo_claimed_no_actions : acts_ok demo_claimed.
Proof. apply no_actions_ok, (bool_decide_unpack _). vm_compute. exact Logic.I. Qed.

(** The tenant of the turn of a partition stays. *)
Lemma tenant_stays `{Collation} (w w1 : World) (pk : string) (s s1 : AbstractTurn) :
  all_ok w -> reachable s -> represents w pk s -> rtc sys w w1 -> represents w1 pk s1 ->
  Turn.tenantId (Abstract.turn s1) = Turn.tenantId (Abstract.turn s).
Proof.
  intros Hok Hreach Hrep Hsys Hrep1.
  destruct (syses_refine _ _ _ _ Hok Hsys Hrep (reachable_inv _ Hreach)) as (s2 & Hs & Hrep2).
  apply steps_grow in Hs as (_ & _ & _ & _ & _ & <- & _). f_equal.
  destruct Hrep1 as [it [Hm _ Hr _ _]]. eapply represents_turn; [exact Hrep2|exact Hm|by apply turnFromItem_reads].
Qed.

Lemma demo_claimed_tenant :
  exists s, represents demo_claimed demo_pk s /\ reachable s /\ Turn.tenantId (Abstract.turn s) = "acme".
Proof.
  assert (store_program demo_claim) as Hp by by apply prog_claimTurn.
  destruct demo_claimed_ok as [_ (s & Hrep & Hreach & _)]. exists s. split; [exact Hrep|]. split; [exact Hreach|].
  destruct demo_represents as [Hok Hrep0]. apply (tenant_stays demo_world demo_claimed demo_pk (started demo_request) s Hok demo_reachable Hrep0); [|exact Hrep].
  apply (store_program_guarantees (H0:=local_service) alone alone_sys demo_claim Hp
    demo_world (run demo_claim demo_local demo_world).1); [exact Hok|]. apply run_exec_to. exact eq_refl.
Qed.

