(* ===== verification/CodecTheorems.v ===== *)
(** * What the codecs and the retry loop promise

    Events and grants survive their items, the sort keys of events order them by sequence, a retried request makes every
    attempt it is allowed, and a moment is stored without its milliseconds. *)

From S2P Require Import Prelude Json Dates Types Service Retry TurnCodec Grant Demo.
From Stdlib Require Import QArith.
#[local] Open Scope Z_scope.
#[local] Open Scope prog_scope.

(** An event survives its item: what [turnEventFromItem] reads of the item [turnEventItem] makes is the event itself, its
    pending tool, arguments and texts through JSON included; of a tool duration only an explicit null is lost. *)
Theorem event_round_trip `{Collation} (e : TurnEvent) (expiresAt : Z) :
  turnEventFromItem (turnEventItem e expiresAt) = Some (without_null_duration e).
Proof. apply turnEventFromItem_item. Qed.

(** A capability grant survives its item, through the sorted compact JSON text it is stored as. *)
Theorem grant_round_trip (tenantId turnId : string) (g : TaskCapabilityGrant) :
  decodeGrant (encodeGrant tenantId turnId g) = Some g.
Proof. apply decode_encodeGrant. Qed.

(** The sort keys of events order as their sequences do, as long as sequences have at most ten digits; so a listing in key
    order is a listing in sequence order. *)
Theorem event_keys_order_by_sequence (n k : Z) :
  0 <= n < 10 ^ 10 -> 0 <= k < 10 ^ 10 -> String.compare (turnEventSortKey n) (turnEventSortKey k) = (n ?= k).
Proof. apply turnEventSortKey_compare. Qed.

Lemma event_keys_order_by_sequence_witness : String.compare (turnEventSortKey 9) (turnEventSortKey 10) = Lt.
Proof. apply (event_keys_order_by_sequence 9 10); lia. Defined.

(** A moment is stored without its milliseconds, whatever they are: the stored text is that of the whole second. *)
Theorem stored_time_has_no_milliseconds (date : Z) : formatIsoDateTime date = formatIsoDateTime (date / 1000 * 1000).
Proof.
  rewrite !formatIsoDateTime_seconds. unfold iso_seconds.
  replace (date / 1000 * 1000 / 86400000) with (date / 86400000); [by rewrite Z.div_mul|].
  replace 86400000 with (1000 * 86400) by lia. rewrite <- !Z.div_div by lia. by rewrite Z.div_mul.
Qed.

(** A retried call makes every attempt it is allowed: when it fails with a transient error, the operation was tried five
    times in a row and failed each time, all but the last with a transient error; the sleeping budget never cuts it short. *)
Theorem retry_uses_all_attempts `{Service} (I : World -> World -> Prop) {A : Type} (op : prog A) w e w' :
  fails_clean I op -> exec I (retryTransient op) w (Err e) w' -> isTransientDynamoError e = true -> failing I op 4 w e w'.
Proof. apply retry_makes_every_attempt. Qed.

(** A service that throttles every read, and draws the least delay. *)
Definition throttled : exn := ServiceException "ThrottlingException".

Definition throttled_respond {R : Type} (r : request R) (w : World) (x : exn + R) (w' : World) : Prop :=
  match r with
  | GetItem _ => x = Err throttled /\ w' = w
  | _ => local_respond r w x w'
  end.

Lemma throttled_contract {R : Type} (r : request R) (w : World) (x : exn + R) (w' : World) :
  throttled_respond r w x w' -> contract r w x w'.
Proof. destruct r; try apply local_respond_contract. intros [-> ->]. by cbn. Qed.

Definition throttled_service : Service := {| respond := @throttled_respond; respond_contract := @throttled_contract |}.

Definition throttled_read : prog (option item) := send (GetItem ("p", "s")).

Lemma throttled_read_fails w : exec (H:=throttled_service) alone throttled_read w (Err throttled) w.
Proof. exists w, (Err throttled), w. split; [apply rtc_refl|]. split; [split; reflexivity|]. split; [reflexivity|apply rtc_refl]. Qed.

Lemma throttled_loop options n attempt slept w :
  exec (H:=throttled_service) alone (retry_loop options throttled_read n attempt slept) w (Err throttled) w.
Proof.
  revert attempt slept. induction n as [|n IH]; intros attempt slept; cbn [retry_loop].
  - exists w, (Err throttled), w. split; [apply rtc_refl|]. split; [split; reflexivity|]. by split; [|apply rtc_refl].
  - exists w, (Err throttled), w. split; [apply rtc_refl|]. split; [split; reflexivity|].
    exists w, (Ok 0%Q), w. split; [apply rtc_refl|]. split; [exists (mkLocal 0 0); reflexivity|]. cbn [bind].
    case_match; [|by split; [|apply rtc_refl]].
    eexists w, (Ok tt), w. split; [apply rtc_refl|]. split; [exists (mkLocal 0 0); reflexivity|]. apply IH.
Qed.

Lemma retry_uses_all_attempts_witness : failing (H:=throttled_service) alone throttled_read 4 empty_world throttled empty_world.
Proof.
  apply (retry_uses_all_attempts (H:=throttled_service) alone throttled_read).
  - exact (send_fails_clean (H:=throttled_service) alone (GetItem ("p", "s"))).
  - apply throttled_loop.
  - reflexivity.
Defined.
