(* ===== verification/LiveFiles.v ===== *)
(** * Workspace paths and the hashes of trees

    The lexical rules of [src/host-protocol/src/live-file-rules.ts] for the paths a person names, the excluded names of
    [src/conversation/src/snapshot/exclusions.ts], the path functions of Node's [posix] that the snapshot code uses, and the
    text whose SHA-256 is the tree hash of a directory.

    A JavaScript string is its UTF-8 bytes. [slice(n)] is only taken at the length of a prefix of the string, where counting
    bytes and counting UTF-16 units agree; the length of a string that is compared with a bound is [utf16_length]. *)

From S2P Require Import Prelude Json.

#[local] Open Scope Z_scope.

(** ** Texts *)

Definition slash : Ascii.ascii := Ascii.ascii_of_nat 47.

(** [s.length]: one unit per code point, two for a code point outside the basic plane. *)
Fixpoint utf16_length (s : string) : Z :=
  match s with
  | EmptyString => 0
  | String c s' =>
      let b := code c in
      (if (128 <=? b) && (b <? 192) then 0 else if 240 <=? b then 2 else 1) + utf16_length s'
  end.

(** [parts.join(separator)]. *)
Fixpoint join (separator : string) (parts : list string) : string :=
  match parts with
  | [] => EmptyString
  | [p] => p
  | p :: rest => p +:+ separator +:+ join separator rest
  end.

(** The order of [left < right] on strings compares UTF-16 units: a code point outside the basic plane starts with a
    surrogate, which sorts before the code points U+E000 to U+FFFF, whose first bytes are 238 and 239. *)
Definition utf16_rank (c : Ascii.ascii) : Z :=
  let b := code c in if (b =? 238) || (b =? 239) then b + 16 else b.

Fixpoint utf16_compare (a b : string) : comparison :=
  match a, b with
  | EmptyString, EmptyString => Eq
  | EmptyString, _ => Lt
  | _, EmptyString => Gt
  | String c a', String d b' =>
      match Z.compare (utf16_rank c) (utf16_rank d) with
      | Eq => utf16_compare a' b'
      | r => r
      end
  end.

(** A stable sort, as [Array.prototype.sort] is: an element keeps its place before the later elements equal to it. *)
Section sort.
  Context {A : Type} (less : A -> A -> bool).

Fixpoint sort_insert (x : A) (l : list A) : list A :=
  match l with
  | [] => [x]
  | y :: l' => if less y x then y :: sort_insert x l' else x :: l
  end.

Definition stable_sort (l : list A) : list A := foldr sort_insert [] l.

Lemma sort_insert_perm (x : A) (l : list A) : sort_insert x l ≡ₚ x :: l.
Proof.
  induction l as [|y l IH]; cbn; [done|]. destruct (less y x); [|done]. rewrite IH. apply Permutation_swap.
Qed.

Lemma stable_sort_perm (l : list A) : stable_sort l ≡ₚ l.
Proof. induction l as [|x l IH]; cbn; [done|]. by rewrite sort_insert_perm, IH. Qed.

Lemma elem_of_stable_sort (x : A) (l : list A) : x ∈ stable_sort l <-> x ∈ l.
Proof. by rewrite stable_sort_perm. Qed.

Lemma length_stable_sort (l : list A) : length (stable_sort l) = length l.
Proof. by rewrite stable_sort_perm. Qed.
End sort.

(** ** The functions of [posix] *)

(** [posix.dirname] scans from the end: past trailing slashes, past the last segment, to the slash before it; the character
    at index 0 is not looked at. The string is reversed, so the scan reads it from the front. *)
Fixpoint dirname_scan (matchedSlash : bool) (r : string) : option string :=
  match r with
  | EmptyString | String _ EmptyString => None
  | String c r' =>
      if bool_decide (c = slash) then if matchedSlash then dirname_scan true r' else Some r'
      else dirname_scan false r'
  end.

Definition dirname (path : string) : string :=
  match path with
  | EmptyString => "."
  | _ =>
      let hasRoot := starts_with "/" path in
      match dirname_scan true (reverse_string path EmptyString) with
      | None => if hasRoot then "/" else "."
      | Some r =>
          let d := reverse_string r EmptyString in
          if hasRoot && (String.length d =? 1)%nat then "//" else d
      end
  end.

Fixpoint skip_slashes (r : string) : string :=
  match r with
  | String c r' => if bool_decide (c = slash) then skip_slashes r' else r
  | EmptyString => EmptyString
  end.

Fixpoint until_slash (r : string) : string :=
  match r with
  | String c r' => if bool_decide (c = slash) then EmptyString else String c (until_slash r')
  | EmptyString => EmptyString
  end.

(** [posix.basename]: the last segment, past trailing slashes. *)
Definition basename (path : string) : string :=
  reverse_string (until_slash (skip_slashes (reverse_string path EmptyString))) EmptyString.

(** *** Lemmas on directory names *)

Lemma dirname_scan_Some (matched : bool) (r d : string) :
  dirname_scan matched r = Some d -> d <> EmptyString /\ exists last, r = last +:+ String slash d /\ (matched = true -> last <> EmptyString).
Proof.
  revert matched. induction r as [|c r IH]; intros matched; [done|]. cbn [dirname_scan].
  destruct r as [|c' r']; [done|]. case_bool_decide as Hc; [destruct matched|].
  - intros (Hd & last & Hr & _)%IH. split; [done|]. exists (String c last). rewrite string_app_cons, <- Hr. by subst.
  - intros [= <-]. split; [done|]. exists EmptyString. by subst.
  - intros (Hd & last & Hr & _)%IH. split; [done|]. exists (String c last). rewrite string_app_cons, <- Hr. done.
Qed.

(** The directory name of a path is what is before a slash of it, or one of three short names. *)
Lemma dirname_cases (path : string) :
  (exists rest, path = dirname path +:+ "/" +:+ rest) \/ dirname path ∈ ["."; "/"; "//"].
Proof.
  destruct path as [|c path]; [right; left|]. unfold dirname. set (p := String c path).
  destruct (dirname_scan true (reverse_string p EmptyString)) as [r|] eqn:Hs; [|right; destruct (starts_with "/" p); set_solver].
  destruct (_ && _); [right; set_solver|]. left. apply dirname_scan_Some in Hs as (_ & last & Hr & _).
  apply (f_equal (fun s => reverse_string s EmptyString)) in Hr. rewrite reverse_string_twice, reverse_string_app in Hr.
  exists (reverse_string last EmptyString). rewrite Hr. cbn. rewrite reverse_string_acc. by rewrite string_app_cons.
Qed.

Lemma utf16_length_nonneg (s : string) : 0 <= utf16_length s.
Proof. induction s as [|c s IH]; cbn [utf16_length]; [lia|]. cases_goal; lia. Qed.

Lemma utf16_length_app (a b : string) : utf16_length (a +:+ b) = utf16_length a + utf16_length b.
Proof. induction a as [|c a IH]; [done|]. rewrite string_app_cons. cbn [utf16_length]. rewrite IH. lia. Qed.

Lemma dirname_utf16_length (path : string) : 2 < utf16_length (dirname path) -> utf16_length (dirname path) < utf16_length path.
Proof.
  intros H. destruct (dirname_cases path) as [[rest Hp]|Hd].
  - rewrite Hp at 2. rewrite !utf16_length_app. change (utf16_length "/") with 1. pose proof (utf16_length_nonneg rest). lia.
  - exfalso. rewrite !elem_of_cons, elem_of_nil in Hd. destruct Hd as [Hd|[Hd|[Hd|[]]]]; rewrite Hd in H; by vm_compute in H.
Qed.

Lemma dirname_length (path : string) : 2 < utf16_length (dirname path) -> (String.length (dirname path) < String.length path)%nat.
Proof.
  intros H. destruct (dirname_cases path) as [[rest Hp]|Hd].
  - rewrite Hp at 2. rewrite !string_length_app. cbn. lia.
  - exfalso. rewrite !elem_of_cons, elem_of_nil in Hd. destruct Hd as [Hd|[Hd|[Hd|[]]]]; rewrite Hd in H; by vm_compute in H.
Qed.

(** ** The rules of a workspace path *)

Definition LIVE_WORKSPACE_ROOT : string := "/workspace".
Definition LIVE_FILE_PATH_MAX_CHARACTERS : Z := 1024.

Inductive LivePathProblem : Type :=
| empty_path | too_long | nul | not_absolute | dot_dot | outside_workspace.

#[export] Instance LivePathProblem_eq_dec : EqDecision LivePathProblem.
Proof. solve_decision. Defined.

Definition normalizedSegmentsOf (raw : string) : list string :=
  filter (fun segment => segment <> EmptyString /\ segment <> ".") (split_char slash raw).

Definition normalizeLivePath (raw : string) : string := "/" +:+ join "/" (normalizedSegmentsOf raw).

Definition livePathProblem (raw : string) : option LivePathProblem :=
  if bool_decide (raw = EmptyString) then Some empty_path
  else if LIVE_FILE_PATH_MAX_CHARACTERS <? utf16_length raw then Some too_long
  else if string_has (Ascii.ascii_of_nat 0) raw then Some nul
  else if negb (starts_with "/" raw) then Some not_absolute
  else if bool_decide (".." ∈ split_char slash raw) then Some dot_dot
  else
    let normalized := "/" +:+ join "/" (normalizedSegmentsOf raw) in
    if bool_decide (normalized <> LIVE_WORKSPACE_ROOT) && negb (starts_with (LIVE_WORKSPACE_ROOT +:+ "/") normalized)
    then Some outside_workspace
    else None.

Definition livePathHasGitSegment (normalized : string) : bool := bool_decide (".git" ∈ split_char slash normalized).

Definition PACK_EXCLUDED_DIRECTORY_NAMES : list string :=
  ["node_modules"; ".next"; "dist"; "build"; "target"; ".venv"; "__pycache__"; ".cache"].

(** ** Tree hashes *)

Inductive LiveTreeDescendant : Type :=
| tree_file (relativePath : string) (size : Z)
| tree_symlink (relativePath : string) (target : string)
| tree_dir (relativePath : string).

Definition relativePath (d : LiveTreeDescendant) : string :=
  match d with tree_file p _ | tree_symlink p _ | tree_dir p => p end.

Definition tree_kind_text (d : LiveTreeDescendant) : string :=
  match d with tree_file _ _ => "file" | tree_symlink _ _ => "symlink" | tree_dir _ => "dir" end.

Definition tree_value_text (d : LiveTreeDescendant) : string :=
  match d with tree_file _ size => dec size | tree_symlink _ target => target | tree_dir _ => "0" end.

Definition nul_char : string := String (Ascii.ascii_of_nat 0) EmptyString.
Definition line_feed : string := String (Ascii.ascii_of_nat 10) EmptyString.

(** [compareUtf8Bytes]: the first byte that differs decides, then the length. *)
Fixpoint compareUtf8Bytes (left right : string) : Z :=
  match left, right with
  | String a left', String b right' =>
      let difference := code a - code b in
      if difference =? 0 then compareUtf8Bytes left' right' else difference
  | _, _ => Z.of_nat (String.length left) - Z.of_nat (String.length right)
  end.

Definition tree_line (d : LiveTreeDescendant) : string :=
  tree_kind_text d +:+ nul_char +:+ relativePath d +:+ nul_char +:+ tree_value_text d +:+ line_feed.

Definition treeHashInputOf (descendants : list LiveTreeDescendant) : string :=
  let keyed := stable_sort (fun left right => compareUtf8Bytes (relativePath left) (relativePath right) <? 0) descendants in
  join EmptyString (tree_line <$> keyed).

Definition symlinkHashInputOf (target : string) : string := "symlink" +:+ nul_char +:+ target.

(** SHA-256 of bytes, in lowercase hexadecimal, is the caller's. *)
Definition treeHashOf (sha256Hex : string -> string) (descendants : list LiveTreeDescendant) : string :=
  sha256Hex (treeHashInputOf descendants).

Definition symlinkHashOf (sha256Hex : string -> string) (target : string) : string := sha256Hex (symlinkHashInputOf target).

Example dirname_examples :
  dirname "/workspace/a/b.txt" = "/workspace/a" /\ dirname "/workspace" = "/" /\ dirname "a" = "." /\ dirname "/a//b/" = "/a/" /\
  basename "/workspace/a/b.txt" = "b.txt" /\ basename "/" = "" /\ basename "/a//b/" = "b".
Proof. repeat split; reflexivity. Qed.

Example livePathProblem_examples :
  livePathProblem "/workspace/./a//b" = None /\ normalizeLivePath "/workspace/./a//b/" = "/workspace/a/b" /\
  livePathProblem "/workspace/../etc" = Some dot_dot /\ livePathProblem "/workspaces" = Some outside_workspace /\
  livePathProblem "workspace" = Some not_absolute.
Proof. repeat split; reflexivity. Qed.
