(* ===== verification/Overlay.v ===== *)
(** * The edit overlay merged over the snapshot

    Models [src/conversation/src/snapshot/overlay-merge.ts], the entry types of [src/host-protocol/src/edit-overlay.ts] and
    the lookups of [src/conversation/src/snapshot/files.ts]. A computer that is off shows its last published snapshot; the
    edits members make meanwhile are entries of an overlay, and what every read and every judgement sees is the snapshot with
    the pending entries merged over it.

    The closures of [createEffectiveView] share the variables they capture; here these are the fields of [EffectiveView], and
    each closure is a function of it. Code that throws returns a sum. SHA-256 is a parameter. *)

From S2P Require Import Prelude Json Dates LiveFiles.
#[local] Open Scope Z_scope.

(** ** Code that may throw *)

#[export] Instance sum_ret {E : Type} : MRet (sum E) := fun A x => inr x.
#[export] Instance sum_bind {E : Type} : MBind (sum E) :=
  fun A B k m => match m with inl e => inl e | inr x => k x end.

Lemma bind_ok {E A B : Type} (m : E + A) (k : A -> E + B) (y : B) : m ≫= k = inr y <-> exists x, m = inr x /\ k x = inr y.
Proof. destruct m; cbn; [naive_solver|]. split; [eauto|]. by intros (? & [= ->] & ?). Qed.

(** ** Data *)

Inductive SnapshotEntryKind : Type := kind_file | kind_directory | kind_symlink.

#[export] Instance SnapshotEntryKind_eq_dec : EqDecision SnapshotEntryKind.
Proof. solve_decision. Defined.

Module SnapshotIndexEntry.
Record SnapshotIndexEntry : Type := mk {
  path : string;
  kind : SnapshotEntryKind;
  size : Z;
  mode : Z;
  mtime_ms : Z;
  sha256 : option string;
  link_target : option string;
  offset : option Z;
  length : option Z;
}.
End SnapshotIndexEntry.
Abbreviation SnapshotIndexEntry := SnapshotIndexEntry.SnapshotIndexEntry.

Module SnapshotNode.
Record SnapshotNode : Type := mk {
  path : string;
  kind : SnapshotEntryKind;
  size : Z;
  mode : Z;
  modifiedAtMilliseconds : Z;
  sha256 : option string;
  linkTarget : option string;
}.
End SnapshotNode.
Abbreviation SnapshotNode := SnapshotNode.SnapshotNode.

Record OverlaySnapshotView : Type := mkSnapshotView {
  get : string -> option SnapshotNode;
  children : string -> list SnapshotNode;
}.

Inductive conflict_reason : Type := changed | collision | not_empty | kind_mismatch.

Record OverlayConflict : Type := mkConflict { reason : conflict_reason; disk_sha256 : option string; found_at : string }.

Module PutEntry.
Record PutEntry : Type := mk {
  sha256 : string;
  size : Z;
  mode : string;
  base_sha256 : option string;
  from : option string;
  from_sha256 : option string;
}.
End PutEntry.
Abbreviation PutEntry := PutEntry.PutEntry.

Module DeleteEntry.
Record DeleteEntry : Type := mk {
  directory : bool;
  recursive : bool;
  base_sha256 : option string;
  tree_sha256 : option string;
}.
End DeleteEntry.
Abbreviation DeleteEntry := DeleteEntry.DeleteEntry.

Module MoveEntry.
Record MoveEntry : Type := mk {
  from : string;
  directory : bool;
  sha256 : option string;
  tree_sha256 : option string;
  size : Z;
  mode : string;
}.
End MoveEntry.
Abbreviation MoveEntry := MoveEntry.MoveEntry.

Inductive OverlayOperation : Type :=
| op_put (p : PutEntry)
| op_delete (d : DeleteEntry)
| op_mkdir (mode : string)
| op_move (m : MoveEntry).

Module OverlayEntry.
Record OverlayEntry : Type := mk {
  path : string;
  op : OverlayOperation;
  edited_by : string;
  edited_at : string;
  revision : Z;
  conflict : option OverlayConflict;
}.
End OverlayEntry.
Abbreviation OverlayEntry := OverlayEntry.OverlayEntry.

(** [("from" in entry && entry.from !== null) ? [entry.from] : []]. *)
Definition sources_of (entry : OverlayEntry) : list string :=
  match OverlayEntry.op entry with
  | op_put p => match PutEntry.from p with Some from => [from] | None => [] end
  | op_move m => [MoveEntry.from m]
  | _ => []
  end.

(** Where an entry stands against the snapshot: waiting to be applied, already in the snapshot, or in conflict with it. *)
Inductive OverlayEntryState : Type := pending | applied | conflict.

#[export] Instance OverlayEntryState_eq_dec : EqDecision OverlayEntryState.
Proof. solve_decision. Defined.

Inductive EffectiveSource : Type :=
| source_snapshot (path : string)
| source_blob (sha256 : string)
| source_none.

Inductive OverlayMark : Type := mark_none | mark_pending | mark_conflict.

Module EffectiveNode.
Record EffectiveNode : Type := mk {
  path : string;
  name : string;
  kind : SnapshotEntryKind;
  size : option Z;
  mode : string;
  sha256 : option string;
  linkTarget : option string;
  modifiedAt : option string;
  overlay : OverlayMark;
  mineSha256 : option string;
  source : EffectiveSource;
}.
End EffectiveNode.
Abbreviation EffectiveNode := EffectiveNode.EffectiveNode.

(** The variables the closures of [createEffectiveView] share. *)
Module EffectiveView.
Record EffectiveView : Type := mk {
  snapshot : OverlaySnapshotView;
  states : gmap string OverlayEntryState;
  pendingAt : list (string * OverlayEntry);
  conflictAt : gmap string OverlayEntry;
  hiddenLeaves : gset string;
  hiddenDirectories : list string;
  movedDirectories : list (string * string);
}.
End EffectiveView.
Abbreviation EffectiveView := EffectiveView.EffectiveView.
Import EffectiveView.

(** ** The snapshot's lookups *)

Record LoadedIndex : Type := mkLoadedIndex {
  byPath : gmap string SnapshotIndexEntry;
  childrenOf : gmap string (list SnapshotIndexEntry);
}.

Definition load_entry (index : LoadedIndex) (entry : SnapshotIndexEntry) : LoadedIndex :=
  let path := SnapshotIndexEntry.path entry in
  let parent := dirname path in
  mkLoadedIndex (<[path := entry]> (byPath index))
    (match childrenOf index !! parent with
     | None => <[parent := [entry]]> (childrenOf index)
     | Some siblings => <[parent := siblings ++ [entry]]> (childrenOf index)
     end).

Definition loadedIndexOf (entries : list SnapshotIndexEntry) : LoadedIndex :=
  foldl load_entry (mkLoadedIndex ∅ ∅) entries.

Definition OVERLAY_WORKSPACE_ROOT : string := "/workspace".

Definition nodeOf (entry : SnapshotIndexEntry) : SnapshotNode :=
  SnapshotNode.mk ("/" +:+ SnapshotIndexEntry.path entry) (SnapshotIndexEntry.kind entry) (SnapshotIndexEntry.size entry)
    (SnapshotIndexEntry.mode entry) (SnapshotIndexEntry.mtime_ms entry) (SnapshotIndexEntry.sha256 entry)
    (SnapshotIndexEntry.link_target entry).

Definition empty_root : SnapshotNode := SnapshotNode.mk OVERLAY_WORKSPACE_ROOT kind_directory 0 509 0 None None.

(** [0o775] is 509. *)
Definition snapshotViewOfIndex (loaded : option LoadedIndex) : OverlaySnapshotView :=
  match loaded with
  | None => mkSnapshotView (fun path => if bool_decide (path = OVERLAY_WORKSPACE_ROOT) then Some empty_root else None) (fun _ => [])
  | Some loaded =>
      mkSnapshotView
        (fun path => nodeOf <$> byPath loaded !! drop_string 1 path)
        (fun directoryPath => nodeOf <$> default [] (childrenOf loaded !! drop_string 1 directoryPath))
  end.

Definition isStrictlyUnder (path ancestor : string) : bool := starts_with (ancestor +:+ "/") path.
Definition isSameOrUnder (path ancestor : string) : bool := bool_decide (path = ancestor) || isStrictlyUnder path ancestor.

(** ** Walking a tree *)

Definition LIVE_FILE_TREE_MAX_ENTRIES : nat := 5000.
Definition LIVE_FILE_LISTING_MAX_ENTRIES : nat := 2000.

(** Why a walk, and the judgement that uses it, ends without a result. [walk_fuel] is no error of the code: it marks that
    the bound on the depth of the recursion was reached, and [walk_enough] shows that it never is. *)
Inductive walk_error : Type := OverlayTreeTooLargeError | walk_fuel.

Section walk.
  Context {A : Type} (children_at : string -> list A) (path_at : A -> string) (root : string)
    (describe : string -> A -> LiveTreeDescendant).

(** The loop of [walk] over the children of one directory; [visit] is the call of [walk] on a child directory. *)
Fixpoint walk_children (visit : string -> list LiveTreeDescendant -> walk_error + list LiveTreeDescendant) (l : list A)
    (found : list LiveTreeDescendant) : walk_error + list LiveTreeDescendant :=
  match l with
  | [] => inr found
  | child :: rest =>
      if (LIVE_FILE_TREE_MAX_ENTRIES <=? length found)%nat then inl OverlayTreeTooLargeError
      else
        let d := describe (drop_string (S (String.length root)) (path_at child)) child in
        let found := found ++ [d] in
        found ← (match d with tree_dir _ => visit (path_at child) found | _ => inr found end);
        walk_children visit rest found
  end.

Fixpoint walk (fuel : nat) (path : string) (found : list LiveTreeDescendant) : walk_error + list LiveTreeDescendant :=
  match fuel with
  | O => inl walk_fuel
  | S fuel' => walk_children (walk fuel') (children_at path) found
  end.

(** Every nested call has found one directory more, and no more than the limit are ever found. *)
Definition walk_tree : walk_error + list LiveTreeDescendant := walk (S LIVE_FILE_TREE_MAX_ENTRIES) root [].
End walk.
Arguments walk_tree : simpl never.

Section overlay.
  Context (sha256Hex : string -> string).

Definition hashOfLeafNode (node : SnapshotNode) : option string :=
  match SnapshotNode.kind node with
  | kind_file => SnapshotNode.sha256 node
  | kind_symlink => Some (symlinkHashOf sha256Hex (default EmptyString (SnapshotNode.linkTarget node)))
  | kind_directory => None
  end.

Definition describe_node (relativePath : string) (child : SnapshotNode) : LiveTreeDescendant :=
  match SnapshotNode.kind child with
  | kind_file => tree_file relativePath (SnapshotNode.size child)
  | kind_symlink => tree_symlink relativePath (default EmptyString (SnapshotNode.linkTarget child))
  | kind_directory => tree_dir relativePath
  end.

Definition snapshotDescendants (snapshot : OverlaySnapshotView) (directoryPath : string) : walk_error + list LiveTreeDescendant :=
  walk_tree (children snapshot) SnapshotNode.path directoryPath describe_node.

Definition snapshotTreeHash (snapshot : OverlaySnapshotView) (directoryPath : string) : walk_error + string :=
  found ← snapshotDescendants snapshot directoryPath; inr (treeHashOf sha256Hex found).

Definition hashOfSnapshotNode (snapshot : OverlaySnapshotView) (node : SnapshotNode) : walk_error + option string :=
  match SnapshotNode.kind node with
  | kind_directory => hash ← snapshotTreeHash snapshot (SnapshotNode.path node); inr (Some hash)
  | _ => inr (hashOfLeafNode node)
  end.

(** ** Where an entry stands *)

Definition DIRECTORY_MARK : string := nul_char +:+ "directory".

Definition comparableHash (node : option SnapshotNode) : option string :=
  match node with
  | None => None
  | Some node => match SnapshotNode.kind node with kind_directory => Some DIRECTORY_MARK | _ => hashOfLeafNode node end
  end.

Definition is_directory (node : SnapshotNode) : bool := bool_decide (SnapshotNode.kind node = kind_directory).

(** [matchesKept] of a move. *)
Definition matchesKept (snapshot : OverlaySnapshotView) (m : MoveEntry) (node : SnapshotNode) : walk_error + bool :=
  let kept := if MoveEntry.directory m then MoveEntry.tree_sha256 m else MoveEntry.sha256 m in
  if bool_decide (is_directory node = MoveEntry.directory m)
  then hash ← hashOfSnapshotNode snapshot node; inr (bool_decide (hash = kept))
  else inr false.

Definition put_state (snapshot : OverlaySnapshotView) (entry : OverlayEntry) (p : PutEntry) : OverlayEntryState :=
  let current := comparableHash (get snapshot (OverlayEntry.path entry)) in
  if bool_decide (current = Some (PutEntry.sha256 p)) then applied
  else if bool_decide (OverlayEntry.conflict entry <> None \/ current <> PutEntry.base_sha256 p) then conflict
  else match PutEntry.from p with
       | Some from => if bool_decide (comparableHash (get snapshot from) <> PutEntry.from_sha256 p) then conflict else pending
       | None => pending
       end.

Definition delete_state (snapshot : OverlaySnapshotView) (entry : OverlayEntry) (d : DeleteEntry) : walk_error + OverlayEntryState :=
  match get snapshot (OverlayEntry.path entry) with
  | None => inr applied
  | Some node =>
      if bool_decide (OverlayEntry.conflict entry <> None) then inr conflict
      else if negb (DeleteEntry.directory d) then
        inr (if negb (is_directory node) && bool_decide (hashOfLeafNode node = DeleteEntry.base_sha256 d) then pending else conflict)
      else if negb (is_directory node) then inr conflict
      else if DeleteEntry.recursive d then
        hash ← snapshotTreeHash snapshot (SnapshotNode.path node);
        inr (if bool_decide (Some hash = DeleteEntry.tree_sha256 d) then pending else conflict)
      else inr (match children snapshot (SnapshotNode.path node) with [] => pending | _ => conflict end)
  end.

Definition mkdir_state (snapshot : OverlaySnapshotView) (entry : OverlayEntry) : OverlayEntryState :=
  match get snapshot (OverlayEntry.path entry) with
  | Some node => if is_directory node then applied else conflict
  | None => if bool_decide (OverlayEntry.conflict entry <> None) then conflict else pending
  end.

Definition move_state (snapshot : OverlaySnapshotView) (entry : OverlayEntry) (m : MoveEntry) : walk_error + OverlayEntryState :=
  let source := get snapshot (MoveEntry.from m) in
  let target := get snapshot (OverlayEntry.path entry) in
  arrived ← (match target, source with Some target, None => matchesKept snapshot m target | _, _ => inr false end);
  if (arrived : bool) then inr applied
  else if bool_decide (OverlayEntry.conflict entry <> None) then inr conflict
  else
    waits ← (match source, target with Some source, None => matchesKept snapshot m source | _, _ => inr false end);
    inr (if (waits : bool) then pending else conflict).

Definition overlayEntryStateOf (entry : OverlayEntry) (snapshot : OverlaySnapshotView) : walk_error + OverlayEntryState :=
  match OverlayEntry.op entry with
  | op_put p => inr (put_state snapshot entry p)
  | op_delete d => delete_state snapshot entry d
  | op_mkdir _ => inr (mkdir_state snapshot entry)
  | op_move m => move_state snapshot entry m
  end.

(** ** The effective view *)

(** [n.toString(8)] for a number that is not negative; each round takes three bits, so the bits bound the rounds. *)
Fixpoint octal_go (fuel : nat) (n : Z) (acc : string) : string :=
  match fuel with
  | O => acc
  | S fuel' =>
      let acc' := String (digit (n mod 8)) acc in
      if n / 8 =? 0 then acc' else octal_go fuel' (n / 8) acc'
  end.

Definition octalModeOf (mode : Z) : string :=
  pad_start 3 (digit 0) (octal_go (S (Z.to_nat (Z.log2 mode))) mode EmptyString).

Definition isoOf (milliseconds : Z) : option string := if milliseconds <=? 0 then None else Some (toISOString milliseconds).

(** The body of the loop over the entries, for an entry whose state is known. *)
Definition merge_pending (view : EffectiveView) (entry : OverlayEntry) : EffectiveView :=
  let at_path := map_set (OverlayEntry.path entry) entry (pendingAt view) in
  match OverlayEntry.op entry with
  | op_delete d =>
      if DeleteEntry.directory d
      then mk (snapshot view) (states view) (pendingAt view) (conflictAt view) (hiddenLeaves view)
             (hiddenDirectories view ++ [OverlayEntry.path entry]) (movedDirectories view)
      else mk (snapshot view) (states view) (pendingAt view) (conflictAt view) (hiddenLeaves view ∪ {[OverlayEntry.path entry]})
             (hiddenDirectories view) (movedDirectories view)
  | op_put p =>
      let leaves := match PutEntry.from p with Some from => hiddenLeaves view ∪ {[from]} | None => hiddenLeaves view end in
      mk (snapshot view) (states view) at_path (conflictAt view) leaves (hiddenDirectories view) (movedDirectories view)
  | op_mkdir _ =>
      mk (snapshot view) (states view) at_path (conflictAt view) (hiddenLeaves view) (hiddenDirectories view) (movedDirectories view)
  | op_move m =>
      if MoveEntry.directory m
      then mk (snapshot view) (states view) at_path (conflictAt view) (hiddenLeaves view)
             (hiddenDirectories view ++ [MoveEntry.from m])
             (movedDirectories view ++ [(MoveEntry.from m, OverlayEntry.path entry)])
      else mk (snapshot view) (states view) at_path (conflictAt view) (hiddenLeaves view ∪ {[MoveEntry.from m]})
             (hiddenDirectories view) (movedDirectories view)
  end.

Definition merge_entry (view : EffectiveView) (entry : OverlayEntry) : walk_error + EffectiveView :=
  state ← overlayEntryStateOf entry (snapshot view);
  let view := mk (snapshot view) (<[OverlayEntry.path entry := state]> (states view)) (pendingAt view) (conflictAt view)
                (hiddenLeaves view) (hiddenDirectories view) (movedDirectories view) in
  inr match state with
      | conflict =>
          mk (snapshot view) (states view) (pendingAt view) (<[OverlayEntry.path entry := entry]> (conflictAt view))
            (hiddenLeaves view) (hiddenDirectories view) (movedDirectories view)
      | applied => view
      | pending => merge_pending view entry
      end.

Fixpoint merge_entries (view : EffectiveView) (entries : list OverlayEntry) : walk_error + EffectiveView :=
  match entries with
  | [] => inr view
  | entry :: rest => view ← merge_entry view entry; merge_entries view rest
  end.

Definition createEffectiveView (snapshot : OverlaySnapshotView) (entries : list OverlayEntry) : walk_error + EffectiveView :=
  merge_entries (mk snapshot ∅ [] ∅ ∅ [] []) entries.

Definition isHidden (view : EffectiveView) (path : string) : bool :=
  bool_decide (path ∈ hiddenLeaves view) || existsb (isSameOrUnder path) (hiddenDirectories view).

Definition translated (view : EffectiveView) (path : string) : option string :=
  match List.find (fun move => isStrictlyUnder path (snd move)) (movedDirectories view) with
  | None => None
  | Some (from, to) => Some (from +:+ drop_string (String.length to) path)
  end.

Definition nodeOfSnapshot (node : SnapshotNode) (asPath : string) (overlay : OverlayMark) (mineSha256 : option string) : EffectiveNode :=
  EffectiveNode.mk asPath (basename asPath) (SnapshotNode.kind node)
    (match SnapshotNode.kind node with kind_file => Some (SnapshotNode.size node) | _ => None end)
    (octalModeOf (SnapshotNode.mode node))
    (match SnapshotNode.kind node with kind_file => SnapshotNode.sha256 node | _ => None end)
    (match SnapshotNode.kind node with kind_symlink => SnapshotNode.linkTarget node | _ => None end)
    (isoOf (SnapshotNode.modifiedAtMilliseconds node)) overlay mineSha256 (source_snapshot (SnapshotNode.path node)).

Definition nodeOfEntry (view : EffectiveView) (entry : OverlayEntry) : option EffectiveNode :=
  let path := OverlayEntry.path entry in
  let node kind size mode sha256 linkTarget source :=
    Some (EffectiveNode.mk path (basename path) kind size mode sha256 linkTarget (Some (OverlayEntry.edited_at entry))
            mark_pending None source) in
  match OverlayEntry.op entry with
  | op_put p =>
      node kind_file (Some (PutEntry.size p)) (PutEntry.mode p) (Some (PutEntry.sha256 p)) None (source_blob (PutEntry.sha256 p))
  | op_mkdir mode => node kind_directory None mode None None source_none
  | op_move m =>
      let from := source_snapshot (MoveEntry.from m) in
      if MoveEntry.directory m then node kind_directory None (MoveEntry.mode m) None None from
      else match get (snapshot view) (MoveEntry.from m) with
           | Some source =>
               match SnapshotNode.kind source with
               | kind_symlink => node kind_symlink None (MoveEntry.mode m) None (SnapshotNode.linkTarget source) from
               | _ => node kind_file (Some (MoveEntry.size m)) (MoveEntry.mode m) (MoveEntry.sha256 m) None from
               end
           | None => node kind_file (Some (MoveEntry.size m)) (MoveEntry.mode m) (MoveEntry.sha256 m) None from
           end
  | op_delete _ => None
  end.

Definition lookup_node (view : EffectiveView) (path : string) : option EffectiveNode :=
  match map_get path (pendingAt view) with
  | Some entry => nodeOfEntry view entry
  | None =>
      match translated view path with
      | Some under => (fun node => nodeOfSnapshot node path mark_none None) <$> get (snapshot view) under
      | None =>
          if isHidden view path then None
          else match get (snapshot view) path with
               | None => None
               | Some node =>
                   Some match conflictAt view !! path with
                        | None => nodeOfSnapshot node path mark_none None
                        | Some conflicted =>
                            nodeOfSnapshot node path mark_conflict
                              (match OverlayEntry.op conflicted with op_put p => Some (PutEntry.sha256 p) | _ => None end)
                        end
               end
      end
  end.

(** Where the children of a directory are read in the snapshot, if they are. *)
Definition children_base (view : EffectiveView) (directoryPath : string) : option string :=
  let mapped := map_get directoryPath (pendingAt view) in
  let otherwise :=
    match translated view directoryPath with
    | Some under => Some under
    | None => if isHidden view directoryPath || bool_decide (is_Some mapped) then None else Some directoryPath
    end in
  match OverlayEntry.op <$> mapped with
  | Some (op_move m) => if MoveEntry.directory m then Some (MoveEntry.from m) else otherwise
  | _ => otherwise
  end.

Definition set_node (found : list (string * EffectiveNode)) (node : option EffectiveNode) : list (string * EffectiveNode) :=
  match node with Some node => map_set (EffectiveNode.name node) node found | None => found end.

Definition allChildren (view : EffectiveView) (directoryPath : string) : list EffectiveNode :=
  let found :=
    match children_base view directoryPath with
    | Some base =>
        foldl (fun found child => set_node found (lookup_node view (directoryPath +:+ "/" +:+ basename (SnapshotNode.path child))))
          [] (children (snapshot view) base)
    | None => []
    end in
  let found :=
    foldl (fun found '(path, entry) =>
             if bool_decide (dirname path <> directoryPath) then found else set_node found (nodeOfEntry view entry))
      found (pendingAt view) in
  snd <$> found.

Definition kind_rank (node : EffectiveNode) : Z := match EffectiveNode.kind node with kind_directory => 0 | _ => 1 end.

(** [left] sorts strictly before [right] in a listing: directories first, then by name. *)
Definition listed_before (left right : EffectiveNode) : bool :=
  if kind_rank left =? kind_rank right
  then bool_decide (utf16_compare (EffectiveNode.name left) (EffectiveNode.name right) = Lt)
  else kind_rank left <? kind_rank right.

Definition list_directory (view : EffectiveView) (directoryPath : string) (maxEntries : nat) : list EffectiveNode * bool :=
  let sorted := stable_sort listed_before (allChildren view directoryPath) in
  (take maxEntries sorted, (maxEntries <? length sorted)%nat).

Definition describe_effective (relativePath : string) (child : EffectiveNode) : LiveTreeDescendant :=
  match EffectiveNode.kind child with
  | kind_file => tree_file relativePath (default 0 (EffectiveNode.size child))
  | kind_symlink => tree_symlink relativePath (default EmptyString (EffectiveNode.linkTarget child))
  | kind_directory => tree_dir relativePath
  end.

Definition descendants (view : EffectiveView) (directoryPath : string) : walk_error + list LiveTreeDescendant :=
  walk_tree (allChildren view) EffectiveNode.path directoryPath describe_effective.

Definition hashOf (view : EffectiveView) (path : string) : walk_error + option string :=
  match lookup_node view path with
  | None => inr None
  | Some node =>
      match EffectiveNode.kind node with
      | kind_file => inr (EffectiveNode.sha256 node)
      | kind_symlink => inr (Some (symlinkHashOf sha256Hex (default EmptyString (EffectiveNode.linkTarget node))))
      | kind_directory => found ← descendants view path; inr (Some (treeHashOf sha256Hex found))
      end
  end.
End overlay.
