(* ===== verification/OverlayPlan.v ===== *)
(** * The write algebra of the edit overlay

    Models [src/conversation/src/domain/overlay-write-algebra.ts] whole: what a member's change (a put, a delete, a move or a
    mkdir) leaves of the overlay's entries, or why it is refused, judged against the effective view of Overlay.v; and the
    refinements of [overlayIndexSchema] in [src/host-protocol/src/edit-overlay.ts], the shape the stored index must have.

    [throw new Refused(..)] and a tree that is too large are values of [plan_error]; [planOverlayChange] turns them into plans
    where the source catches them. *)

From S2P Require Import Prelude Json LiveFiles Overlay.
Import EffectiveView.
#[local] Open Scope Z_scope.

(** ** Data *)

Inductive OverlayRefusalCode : Type :=
| path_refused | not_in_saved_copy | not_found | parent_missing | not_a_file | not_a_directory | already_exists
| precondition_failed | overlay_full | path_busy | directory_not_empty | owner_role_required | invalid_move
| too_many_entries | file_too_large.

#[export] Instance OverlayRefusalCode_eq_dec : EqDecision OverlayRefusalCode.
Proof. solve_decision. Defined.

Inductive Precondition : Type := if_match (sha256 : string) | if_none_match.

Inductive OverlayChangeRequest : Type :=
| request_put (path sha256 : string) (size : Z) (precondition : Precondition)
| request_delete (path : string) (recursive ownerRole : bool) (ifMatchSha256 : string)
| request_move (from to ifMatchSha256 : string)
| request_mkdir (path : string).

Module Changed.
Record Changed : Type := mk {
  entries : list OverlayEntry;
  path : string;
  created : bool;
  previousSha256 : option string;
  resultSha256 : option string;
  directory : bool;
  removed : Z;
}.
End Changed.
Abbreviation Changed := Changed.Changed.

(** [currentSha256] may be absent, null or a hash. *)
Inductive OverlayPlan : Type :=
| refused (code : OverlayRefusalCode) (message : string) (currentSha256 : option (option string))
| unchanged (created : bool) (sha256 previousSha256 : option string)
| plan_changed (c : Changed).

Record OverlayPlanInput : Type := mkInput {
  in_snapshot : OverlaySnapshotView;
  in_entries : list OverlayEntry;
  request : OverlayChangeRequest;
  editedBy : string;
  editedAt : string;
}.

Inductive plan_error : Type :=
| Refused (code : OverlayRefusalCode) (message : string) (currentSha256 : option (option string))
| walk_failed (e : walk_error).

Abbreviation judged := (sum plan_error).

Definition tree {A : Type} (m : walk_error + A) : judged A := match m with inl e => inl (walk_failed e) | inr x => inr x end.

(** [if (test) throw new Refused(code, message, current)]. *)
Definition refuse_if (test : bool) (code : OverlayRefusalCode) (message : string) (current : option (option string)) : judged unit :=
  if test then inl (Refused code message current) else inr tt.

Definition OVERLAY_INDEX_VERSION : Z := 1.
Definition OVERLAY_MAX_ENTRIES : Z := 100.
Definition OVERLAY_MAX_TOTAL_BYTES : Z := 8388608.
Definition OVERLAY_INDEX_MAX_BYTES : Z := 262144.
Definition LIVE_FILE_CONTENT_MAX_BYTES : Z := 262144.
Definition MKDIR_MODE : string := "775".
Definition DEFAULT_FILE_MODE : string := "664".

(** ** The rules of paths *)

Definition segmentsBelowRoot (path : string) : list string :=
  if bool_decide (path = OVERLAY_WORKSPACE_ROOT) then []
  else split_char slash (drop_string (S (String.length OVERLAY_WORKSPACE_ROOT)) path).

Definition requireOrdinaryPath (path : string) : judged unit :=
  refuse_if (bool_decide (path = OVERLAY_WORKSPACE_ROOT)) path_refused "The workspace root cannot be changed." None ;;
  refuse_if (livePathHasGitSegment path) path_refused "Paths inside .git are not edited." None ;;
  refuse_if (existsb (fun segment => bool_decide (segment ∈ PACK_EXCLUDED_DIRECTORY_NAMES)) (segmentsBelowRoot path))
    not_in_saved_copy "The saved copy never keeps files under this directory name." None.

Definition kind_at (view : EffectiveView) (path : string) : option SnapshotEntryKind := EffectiveNode.kind <$> lookup_node view path.

(** The loop over the ancestors of the parent. Each round takes a directory name, which is shorter, so the length bounds the
    rounds ([refuse_linked_enough]). *)
Fixpoint refuse_linked (fuel : nat) (view : EffectiveView) (ancestor : string) : judged unit :=
  match fuel with
  | O => inr tt
  | S fuel' =>
      if bool_decide (ancestor <> OVERLAY_WORKSPACE_ROOT) && (utf16_length OVERLAY_WORKSPACE_ROOT <? utf16_length ancestor) then
        refuse_if (bool_decide (kind_at view ancestor = Some kind_symlink)) path_refused "A link in the path is not followed." None ;;
        refuse_linked fuel' view (dirname ancestor)
      else inr tt
  end.

Definition requireUsableParent (view : EffectiveView) (path : string) : judged unit :=
  let parent := dirname path in
  refuse_linked (String.length parent) view parent ;;
  match lookup_node view parent with
  | None => inl (Refused parent_missing "The folder does not exist." None)
  | Some node =>
      refuse_if (bool_decide (EffectiveNode.kind node <> kind_directory)) not_a_directory "The parent is not a folder." None
  end.

(** ** Entries that exclude others *)

(** [covers] of the exclusive entries. *)
Definition exclusiveEntriesOf (entries : list OverlayEntry) (view : EffectiveView) : list (list string) :=
  flat_map (fun entry =>
    if bool_decide (states view !! OverlayEntry.path entry <> Some pending) then []
    else match OverlayEntry.op entry with
         | op_move m => if MoveEntry.directory m then [[OverlayEntry.path entry; MoveEntry.from m]] else []
         | op_delete d => if DeleteEntry.directory d && DeleteEntry.recursive d then [[OverlayEntry.path entry]] else []
         | _ => []
         end) entries.

Definition busy_message : string :=
  "A folder rename or delete that covers this path is waiting for the computer. Wait for it or discard it.".

Definition requireNotBusy (entries : list OverlayEntry) (view : EffectiveView) (paths : list string) : judged unit :=
  refuse_if
    (existsb (fun covers => existsb (fun path => existsb (fun cover => isSameOrUnder path cover) covers) paths)
       (exclusiveEntriesOf entries view))
    path_busy busy_message None.

Definition requireNoEntryInside (entries : list OverlayEntry) (paths : list string) : judged unit :=
  refuse_if
    (existsb (fun entry =>
       existsb (fun name => existsb (fun path => isSameOrUnder name path) paths) (OverlayEntry.path entry :: sources_of entry)) entries)
    path_busy "Another change is waiting inside this folder. Wait for it or discard it." None.

Definition requirePathFreeOfOtherEntries (entries : list OverlayEntry) (view : EffectiveView) (path : string) : judged unit :=
  refuse_if
    (existsb (fun entry =>
       let is_pending := bool_decide (states view !! OverlayEntry.path entry = Some pending) in
       (bool_decide (OverlayEntry.path entry = path) && is_pending) || (bool_decide (path ∈ sources_of entry) && is_pending)) entries)
    path_busy "Another change is already waiting at this path. Wait for it or discard it." None.

(** ** The serialized index and the caps *)

Definition json_opt (s : option string) : json := match s with Some s => JStr s | None => JNull end.

Definition reason_text (r : conflict_reason) : string :=
  match r with changed => "changed" | collision => "collision" | not_empty => "not_empty" | kind_mismatch => "kind_mismatch" end.

Definition conflict_json (c : option OverlayConflict) : json :=
  match c with
  | None => JNull
  | Some c => JObj [("reason", JStr (reason_text (reason c))); ("disk_sha256", json_opt (disk_sha256 c)); ("found_at", JStr (found_at c))]
  end.

Definition op_fields (op : OverlayOperation) : list (string * json) :=
  match op with
  | op_put p =>
      [("op", JStr "put"); ("sha256", JStr (PutEntry.sha256 p)); ("size", JNum (PutEntry.size p)); ("mode", JStr (PutEntry.mode p));
       ("base_sha256", json_opt (PutEntry.base_sha256 p)); ("from", json_opt (PutEntry.from p));
       ("from_sha256", json_opt (PutEntry.from_sha256 p))]
  | op_delete d =>
      [("op", JStr "delete"); ("directory", JBool (DeleteEntry.directory d)); ("recursive", JBool (DeleteEntry.recursive d));
       ("base_sha256", json_opt (DeleteEntry.base_sha256 d)); ("tree_sha256", json_opt (DeleteEntry.tree_sha256 d))]
  | op_mkdir mode => [("op", JStr "mkdir"); ("mode", JStr mode)]
  | op_move m =>
      [("op", JStr "move"); ("from", JStr (MoveEntry.from m)); ("directory", JBool (MoveEntry.directory m));
       ("sha256", json_opt (MoveEntry.sha256 m)); ("tree_sha256", json_opt (MoveEntry.tree_sha256 m));
       ("size", JNum (MoveEntry.size m)); ("mode", JStr (MoveEntry.mode m))]
  end.

(** The properties of an entry; their order, which depends on how the entry was made, does not change the length. *)
Definition entry_json (entry : OverlayEntry) : json :=
  JObj (op_fields (OverlayEntry.op entry) ++
        [("path", JStr (OverlayEntry.path entry)); ("edited_by", JStr (OverlayEntry.edited_by entry));
         ("edited_at", JStr (OverlayEntry.edited_at entry)); ("revision", JNum (OverlayEntry.revision entry));
         ("conflict", conflict_json (OverlayEntry.conflict entry))]).

Definition index_bytes (entries : list OverlayEntry) : Z :=
  Z.of_nat (String.length (stringify (JObj
    [("version", JNum OVERLAY_INDEX_VERSION); ("sealed", JNull); ("entries", JArr (entry_json <$> entries))]))).

Definition put_size (entry : OverlayEntry) : Z := match OverlayEntry.op entry with op_put p => PutEntry.size p | _ => 0 end.

Definition content_bytes (entries : list OverlayEntry) : Z := foldl (fun total entry => total + put_size entry) 0 entries.

(** What [overlayIndexSchema] refines of the entries of an index: how many there are, that their paths are unique, that a
    source is moved once and is not also an entry, and that the contents are not over the limit. *)
Definition overlayIndex_refinements (entries : list OverlayEntry) : bool :=
  let paths := OverlayEntry.path <$> entries in
  let sources := entries ≫= sources_of in
  (Z.of_nat (length entries) <=? OVERLAY_MAX_ENTRIES) && bool_decide (NoDup paths)
  && (bool_decide (NoDup sources) && forallb (fun source => negb (bool_decide (source ∈ paths))) sources)
  && (content_bytes entries <=? OVERLAY_MAX_TOTAL_BYTES).

Definition capsRefusal (entries : list OverlayEntry) : option OverlayPlan :=
  if (OVERLAY_MAX_ENTRIES <? Z.of_nat (length entries)) || (OVERLAY_MAX_TOTAL_BYTES <? content_bytes entries)
     || (OVERLAY_INDEX_MAX_BYTES <? index_bytes entries)
  then Some (refused overlay_full "The pending changes hold the most they can until the computer applies them." None)
  else None.

(** [capsRefusal(entries) ?? plan]. *)
Definition within_caps (c : Changed) : OverlayPlan :=
  match capsRefusal (Changed.entries c) with Some plan => plan | None => plan_changed c end.

(** ** Helpers of the plans *)

Definition entryAt (entries : list OverlayEntry) (path : string) : option OverlayEntry :=
  List.find (fun entry => bool_decide (OverlayEntry.path entry = path)) entries.

Definition without (entries : list OverlayEntry) (paths : list string) : list OverlayEntry :=
  List.filter (fun entry => negb (bool_decide (OverlayEntry.path entry ∈ paths))) entries.

Definition revisionAfter (existing : option OverlayEntry) : Z :=
  match existing with None => 1 | Some entry => OverlayEntry.revision entry + 1 end.

(** An entry with the stamp of the request. *)
Definition stamp (input : OverlayPlanInput) (path : string) (op : OverlayOperation) (revision : Z) : OverlayEntry :=
  OverlayEntry.mk path op (editedBy input) (editedAt input) revision None.

Definition deleteEntry (path : string) (directory recursive : bool) (base tree : option string) (input : OverlayPlanInput)
    (revision : Z) : OverlayEntry :=
  stamp input path (op_delete (DeleteEntry.mk directory recursive base tree)) revision.

(** The state of the entry at a path, when there is one. *)
Definition state_at (view : EffectiveView) (existing : option OverlayEntry) (path : string) : option OverlayEntryState :=
  match existing with None => None | Some _ => states view !! path end.

Definition entry_mode (entry : OverlayEntry) : option string :=
  match OverlayEntry.op entry with
  | op_put p => Some (PutEntry.mode p)
  | op_mkdir mode => Some mode
  | op_move m => Some (MoveEntry.mode m)
  | op_delete _ => None
  end.

Definition is_pending_folder_delete (existing : option OverlayEntry) (state : option OverlayEntryState) : bool :=
  match OverlayEntry.op <$> existing with
  | Some (op_delete d) => DeleteEntry.directory d && bool_decide (state = Some pending)
  | _ => false
  end.

Definition is_directory_node (node : option SnapshotNode) : bool :=
  match node with Some node => is_directory node | None => false end.

Section plans.
  Context (sha256Hex : string -> string).

(** ** Put *)

(** [base], [from] and [fromSha256] of the new entry. *)
Definition put_origin (existing : option OverlayEntry) (state : option OverlayEntryState) (snapshotHash : option string) :
    option string * option string * option string :=
  match OverlayEntry.op <$> existing with
  | Some (op_put p) =>
      if bool_decide (state = Some pending) then (PutEntry.base_sha256 p, PutEntry.from p, PutEntry.from_sha256 p)
      else (snapshotHash, None, None)
  | Some (op_move m) =>
      if bool_decide (state = Some pending) then (None, Some (MoveEntry.from m), MoveEntry.sha256 m) else (snapshotHash, None, None)
  | _ => (snapshotHash, None, None)
  end.

Definition put_mode (existing : option OverlayEntry) (state : option OverlayEntryState) (node : option EffectiveNode) : string :=
  match existing ≫= entry_mode with
  | Some mode =>
      if bool_decide (state <> Some conflict) then mode else default DEFAULT_FILE_MODE (EffectiveNode.mode <$> node)
  | None => default DEFAULT_FILE_MODE (EffectiveNode.mode <$> node)
  end.

Definition put_entry (input : OverlayPlanInput) (view : EffectiveView) (path sha256 : string) (size : Z) : OverlayEntry :=
  let existing := entryAt (in_entries input) path in
  let state := state_at view existing path in
  let snapshotHash := get (in_snapshot input) path ≫= hashOfLeafNode sha256Hex in
  let '(base, from, fromSha256) := put_origin existing state snapshotHash in
  stamp input path (op_put (PutEntry.mk sha256 size (put_mode existing state (lookup_node view path)) base from fromSha256))
    (revisionAfter existing).

Definition planPut (input : OverlayPlanInput) (view : EffectiveView) (path sha256 : string) (size : Z)
    (precondition : Precondition) : judged OverlayPlan :=
  requireOrdinaryPath path ;;
  refuse_if (LIVE_FILE_CONTENT_MAX_BYTES <? size) file_too_large "Content over 256 KiB is not edited here." None ;;
  requireNotBusy (in_entries input) view [path] ;;
  requireUsableParent view path ;;
  let node := lookup_node view path in
  refuse_if (bool_decide (kind_at view path = Some kind_symlink)) path_refused "A link is not edited." None ;;
  refuse_if (bool_decide (kind_at view path = Some kind_directory)) not_a_file "The path is a folder." None ;;
  refuse_if (LIVE_FILE_CONTENT_MAX_BYTES <? default 0 (node ≫= EffectiveNode.size)) file_too_large
    "A file over 256 KiB is not replaced here." None ;;
  let effectiveHash := node ≫= EffectiveNode.sha256 in
  (match precondition with
   | if_none_match => refuse_if (bool_decide (is_Some node)) already_exists "A file is already there." (Some effectiveHash)
   | if_match expected =>
       refuse_if (bool_decide (Some expected <> effectiveHash)) precondition_failed "The file changed since it was read." (Some effectiveHash)
   end) ;;
  let existing := entryAt (in_entries input) path in
  let state := state_at view existing path in
  refuse_if (is_pending_folder_delete existing state) path_busy
    "A folder delete is waiting at this path. Wait for it or discard it." None ;;
  if bool_decide (effectiveHash = Some sha256 /\ state <> Some conflict) then inr (unchanged false (Some sha256) effectiveHash)
  else
    requirePathFreeOfOtherEntries
      (List.filter (fun entry => bool_decide (OverlayEntry.path entry <> path)) (in_entries input)) view path ;;
    inr (within_caps (Changed.mk (without (in_entries input) [path] ++ [put_entry input view path sha256 size]) path
                        (bool_decide (node = None)) effectiveHash (Some sha256) false 0)).

(** ** Delete *)

Definition deleteOfSource (input : OverlayPlanInput) (region : string) (entry : OverlayEntry) : option OverlayEntry :=
  match OverlayEntry.op entry with
  | op_put p =>
      match PutEntry.from p with
      | Some from =>
          if isSameOrUnder from region then None else Some (deleteEntry from false false (PutEntry.from_sha256 p) None input 1)
      | None => None
      end
  | op_move m =>
      if isSameOrUnder (MoveEntry.from m) region then None
      else if negb (MoveEntry.directory m) then Some (deleteEntry (MoveEntry.from m) false false (MoveEntry.sha256 m) None input 1)
      else Some (deleteEntry (MoveEntry.from m) true true None (MoveEntry.tree_sha256 m) input 1)
  | _ => None
  end.

(** The entries a deleted file or link leaves. *)
Definition delete_leaf_entries (input : OverlayPlanInput) (view : EffectiveView) (path : string) (effectiveHash : option string) :
    list OverlayEntry :=
  let existing := entryAt (in_entries input) path in
  let remainder := without (in_entries input) [path] in
  let snapshot_delete :=
    let base := match get (in_snapshot input) path with None => effectiveHash | Some node => hashOfLeafNode sha256Hex node end in
    remainder ++ [deleteEntry path false false base None input (revisionAfter existing)] in
  if bool_decide (state_at view existing path = Some pending) then
    match OverlayEntry.op <$> existing with
    | Some (op_put p) =>
        match PutEntry.from p, PutEntry.base_sha256 p with
        | None, None => remainder
        | None, Some base => remainder ++ [deleteEntry path false false (Some base) None input (revisionAfter existing)]
        | Some from, _ => remainder ++ [deleteEntry from false false (PutEntry.from_sha256 p) None input 1]
        end
    | Some (op_move m) => remainder ++ [deleteEntry (MoveEntry.from m) false false (MoveEntry.sha256 m) None input 1]
    | _ => snapshot_delete
    end
  else snapshot_delete.

(** The entries a deleted folder leaves when neither the view nor the snapshot holds anything in it. *)
Definition delete_empty_entries (input : OverlayPlanInput) (view : EffectiveView) (path : string) : list OverlayEntry :=
  let existing := entryAt (in_entries input) path in
  let remainder := without (in_entries input) [path] in
  let folder_delete := remainder ++ [deleteEntry path true false None None input (revisionAfter existing)] in
  if bool_decide (state_at view existing path = Some pending) then
    match OverlayEntry.op <$> existing with Some (op_mkdir _) => remainder | _ => folder_delete end
  else folder_delete.

Definition movesOut (path : string) (entry : OverlayEntry) : bool :=
  existsb (fun from => isSameOrUnder from path) (sources_of entry) && negb (isSameOrUnder (OverlayEntry.path entry) path).

(** The rest of the plan for a folder that holds something, in the view or in the snapshot: the entries and how many paths go. *)
Definition delete_tree_entries (input : OverlayPlanInput) (view : EffectiveView) (path : string) : judged (list OverlayEntry * Z) :=
  refuse_if (existsb (movesOut path) (in_entries input)) path_busy
    "A change that takes a file out of this folder is waiting. Wait for it or discard it." None ;;
  let dropped := List.filter (fun entry => isSameOrUnder (OverlayEntry.path entry) path) (in_entries input) in
  let kept := List.filter (fun entry => negb (isSameOrUnder (OverlayEntry.path entry) path)) (in_entries input) in
  let sourceDeletes := omap (deleteOfSource input path) dropped in
  found ← tree (descendants view path);
  let removed := Z.of_nat (length found) + 1 in
  if negb (is_directory_node (get (in_snapshot input) path)) then inr (kept ++ sourceDeletes, removed)
  else
    hash ← tree (snapshotTreeHash sha256Hex (in_snapshot input) path);
    inr (kept ++ sourceDeletes ++
         [deleteEntry path true true None (Some hash) input (revisionAfter (entryAt (in_entries input) path))], removed).

Definition planDelete (input : OverlayPlanInput) (view : EffectiveView) (path : string) (recursive ownerRole : bool)
    (ifMatchSha256 : string) : judged OverlayPlan :=
  requireOrdinaryPath path ;;
  requireNotBusy (in_entries input) view [path] ;;
  match lookup_node view path with
  | None => inl (Refused not_found "Nothing is there." None)
  | Some node =>
      let isDirectory := bool_decide (EffectiveNode.kind node = kind_directory) in
      let nonEmpty := isDirectory && (0 <? length (fst (list_directory view path 1)))%nat in
      refuse_if (nonEmpty && negb recursive) directory_not_empty "The folder is not empty." None ;;
      refuse_if (nonEmpty && negb ownerRole) owner_role_required
        "Only an owner of the organization deletes a folder that is not empty." None ;;
      effectiveHash ← tree (hashOf sha256Hex view path);
      refuse_if (bool_decide (effectiveHash <> Some ifMatchSha256)) precondition_failed "It changed since it was read." (Some effectiveHash) ;;
      let finish entries removed :=
        within_caps (Changed.mk entries path false effectiveHash None isDirectory removed) in
      if negb isDirectory then inr (finish (delete_leaf_entries input view path effectiveHash) 1)
      else
        let snapshotHoldsChildren :=
          is_directory_node (get (in_snapshot input) path) && (0 <? length (children (in_snapshot input) path))%nat in
        if negb nonEmpty && negb snapshotHoldsChildren then inr (finish (delete_empty_entries input view path) 1)
        else
          left ← delete_tree_entries input view path;
          inr (finish (fst left) (snd left))
  end.

(** ** Move *)

(** The entry a file or link moved to [to] leaves, when it leaves one. *)
Definition move_leaf_entry (input : OverlayPlanInput) (view : EffectiveView) (source : EffectiveNode) (from to : string)
    (effectiveHash : option string) : option OverlayEntry :=
  let existing := entryAt (in_entries input) from in
  let moved :=
    Some (stamp input to (op_move (MoveEntry.mk from false effectiveHash None (default 0 (EffectiveNode.size source))
                                     (EffectiveNode.mode source))) 1) in
  let restamped op := Some (stamp input to op (revisionAfter existing)) in
  if bool_decide (state_at view existing from = Some pending) then
    match OverlayEntry.op <$> existing with
    | Some (op_put p) =>
        let with_origin base from' from_sha256 :=
          op_put (PutEntry.mk (PutEntry.sha256 p) (PutEntry.size p) (PutEntry.mode p) base from' from_sha256) in
        match PutEntry.from p, PutEntry.base_sha256 p with
        | None, None => restamped (op_put p)
        | None, Some base => restamped (with_origin None (Some from) (Some base))
        | Some origin, _ =>
            if bool_decide (to = origin) then
              if bool_decide (Some (PutEntry.sha256 p) = PutEntry.from_sha256 p) then None
              else restamped (with_origin (PutEntry.from_sha256 p) None None)
            else restamped (op_put p)
        end
    | Some (op_move m) => if bool_decide (to = MoveEntry.from m) then None else restamped (op_move m)
    | _ => moved
    end
  else moved.

Definition planMove (input : OverlayPlanInput) (view : EffectiveView) (from to ifMatchSha256 : string) : judged OverlayPlan :=
  requireOrdinaryPath from ;;
  requireOrdinaryPath to ;;
  refuse_if (isStrictlyUnder to from) invalid_move "A folder cannot be moved into itself." None ;;
  requireNotBusy (in_entries input) view [from; to] ;;
  match lookup_node view from with
  | None => inl (Refused not_found "Nothing is there." None)
  | Some source =>
      (match lookup_node view to with
       | Some _ => hash ← tree (hashOf sha256Hex view to); inl (Refused already_exists "Something is already at the new path." (Some hash))
       | None => inr tt
       end) ;;
      requireUsableParent view to ;;
      effectiveHash ← tree (hashOf sha256Hex view from);
      refuse_if (bool_decide (effectiveHash <> Some ifMatchSha256)) precondition_failed "It changed since it was read." (Some effectiveHash) ;;
      requirePathFreeOfOtherEntries
        (List.filter (fun entry => bool_decide (OverlayEntry.path entry <> from)) (in_entries input)) view to ;;
      let remainder := without (in_entries input) [from; to] in
      let isDirectory := bool_decide (EffectiveNode.kind source = kind_directory) in
      let finish entries :=
        within_caps (Changed.mk entries to false effectiveHash (if isDirectory then None else effectiveHash) isDirectory 0) in
      if isDirectory then
        requireNoEntryInside (in_entries input) [from; to] ;;
        hash ← tree (snapshotTreeHash sha256Hex (in_snapshot input) from);
        inr (finish (remainder ++ [stamp input to (op_move (MoveEntry.mk from true None (Some hash) 0 (EffectiveNode.mode source))) 1]))
      else inr (finish (remainder ++ option_list (move_leaf_entry input view source from to effectiveHash)))
  end.

(** ** Mkdir *)

Definition planMkdir (input : OverlayPlanInput) (view : EffectiveView) (path : string) : judged OverlayPlan :=
  if bool_decide (path = OVERLAY_WORKSPACE_ROOT) then inr (unchanged false None None)
  else
    requireOrdinaryPath path ;;
    requireNotBusy (in_entries input) view [path] ;;
    match lookup_node view path with
    | Some node =>
        if bool_decide (EffectiveNode.kind node = kind_directory) then inr (unchanged false None None)
        else hash ← tree (hashOf sha256Hex view path); inl (Refused already_exists "A file or link is already there." (Some hash))
    | None =>
        requireUsableParent view path ;;
        requirePathFreeOfOtherEntries (in_entries input) view path ;;
        let existing := entryAt (in_entries input) path in
        let entries := without (in_entries input) [path] ++ [stamp input path (op_mkdir MKDIR_MODE) (revisionAfter existing)] in
        inr (within_caps (Changed.mk entries path true None None true 0))
    end.

(** ** The algebra *)

Definition tree_too_large_message : string := "A directory with more than 5000 entries has no tree hash.".

Definition judge (input : OverlayPlanInput) (view : EffectiveView) : judged OverlayPlan :=
  match request input with
  | request_put path sha256 size precondition => planPut input view path sha256 size precondition
  | request_delete path recursive ownerRole ifMatchSha256 => planDelete input view path recursive ownerRole ifMatchSha256
  | request_move from to ifMatchSha256 => planMove input view from to ifMatchSha256
  | request_mkdir path => planMkdir input view path
  end.

(** The view is made outside the [try]: its error is the caller's. *)
Definition planOverlayChange (input : OverlayPlanInput) : walk_error + OverlayPlan :=
  view ← createEffectiveView sha256Hex (in_snapshot input) (in_entries input);
  match judge input view with
  | inr plan => inr plan
  | inl (Refused code message currentSha256) => inr (refused code message currentSha256)
  | inl (walk_failed OverlayTreeTooLargeError) => inr (refused too_many_entries tree_too_large_message None)
  | inl (walk_failed walk_fuel) => inl walk_fuel
  end.
End plans.
