(* ===== verification/OverlayFacts.v ===== *)
(** * Lemmas on the edit overlay

    The walk of a tree ends within its bound; the effective view in closed form; what the guards of the write algebra tell
    about the entries; and the invariant of the index that every plan keeps. *)

From S2P Require Import Prelude Json LiveFiles Overlay OverlayPlan.
Import EffectiveView.
#[local] Open Scope Z_scope.

(** ** The walk *)

Section walk.
  Context {A : Type} (children_at : string -> list A) (path_at : A -> string) (root : string)
    (describe : string -> A -> LiveTreeDescendant).

(** A walk that starts with room either finds more within the limit or meets the limit. *)
Definition bounded_walk (room : nat) (visit : string -> list LiveTreeDescendant -> walk_error + list LiveTreeDescendant) : Prop :=
  forall path found, (length found <= LIVE_FILE_TREE_MAX_ENTRIES < room + length found)%nat ->
    match visit path found with
    | inl e => e = OverlayTreeTooLargeError
    | inr found' => (length found <= length found' <= LIVE_FILE_TREE_MAX_ENTRIES)%nat
    end.

Lemma walk_children_bounded (room : nat) visit (l : list A) (found : list LiveTreeDescendant) :
  bounded_walk room visit -> (length found <= LIVE_FILE_TREE_MAX_ENTRIES < S room + length found)%nat ->
  match walk_children path_at root describe visit l found with
  | inl e => e = OverlayTreeTooLargeError
  | inr found' => (length found <= length found' <= LIVE_FILE_TREE_MAX_ENTRIES)%nat
  end.
Proof.
  intros Hvisit. revert found. induction l as [|child l IH]; intros found Hf; cbn [walk_children]; [lia|].
  destruct (Nat.leb_spec LIVE_FILE_TREE_MAX_ENTRIES (length found)) as [|Hroom]; [done|].
  set (d := describe _ _). assert (length (found ++ [d]) = S (length found)) as Hlen by (rewrite length_app; cbn; lia).
  assert (forall found', (S (length found) <= length found' <= LIVE_FILE_TREE_MAX_ENTRIES)%nat ->
    match walk_children path_at root describe visit l found' with
    | inl e => e = OverlayTreeTooLargeError
    | inr found'' => (length found <= length found'' <= LIVE_FILE_TREE_MAX_ENTRIES)%nat
    end) as Hrest.
  { intros found' Hf'. pose proof (IH found' ltac:(lia)) as H. destruct (walk_children _ _ _ _ _ _); [done|lia]. }
  destruct d; cbn; try (apply Hrest; lia).
  pose proof (Hvisit (path_at child) (found ++ [tree_dir relativePath]) ltac:(lia)) as Hv.
  destruct (visit _ _) as [e|found']; cbn; [done|]. apply Hrest. lia.
Qed.

Lemma walk_bounded (fuel : nat) : bounded_walk fuel (walk children_at path_at root describe fuel).
Proof.
  induction fuel as [|fuel IH]; intros path found Hf; cbn [walk]; [lia|].
  by apply (walk_children_bounded fuel).
Qed.

(** The bound on the depth is never reached: the only error of a walk is a tree that is too large. *)
Lemma walk_enough : walk_tree children_at path_at root describe <> inl walk_fuel.
Proof.
  pose proof (walk_bounded (S LIVE_FILE_TREE_MAX_ENTRIES) root [] ltac:(cbn [length]; lia)) as H.
  unfold walk_tree. intros Hw. by rewrite Hw in H.
Qed.
End walk.

(** ** States and the view *)

Section view.
  Context (sha256Hex : string -> string).

(** What a fallible definition never ends with. *)
Definition never_fuel {A : Type} (m : walk_error + A) : Prop := m <> inl walk_fuel.

Lemma never_fuel_ret {A : Type} (x : A) : never_fuel (inr x).
Proof. done. Qed.

Lemma never_fuel_bind {A B : Type} (m : walk_error + A) (k : A -> walk_error + B) :
  never_fuel m -> (forall x, never_fuel (k x)) -> never_fuel (m ≫= k).
Proof. destruct m as [[]|x]; cbn; intros H Hk; [done|by destruct H|apply Hk]. Qed.

Lemma snapshotTreeHash_fuel snapshot path : never_fuel (snapshotTreeHash sha256Hex snapshot path).
Proof. apply never_fuel_bind; [apply walk_enough|by intros]. Qed.

Lemma hashOfSnapshotNode_fuel snapshot node : never_fuel (hashOfSnapshotNode sha256Hex snapshot node).
Proof. unfold hashOfSnapshotNode. cases_goal; try done. apply never_fuel_bind; [apply snapshotTreeHash_fuel|by intros]. Qed.

Lemma matchesKept_fuel snapshot m node : never_fuel (matchesKept sha256Hex snapshot m node).
Proof. unfold matchesKept. destruct (bool_decide _); [|done]. apply never_fuel_bind; [apply hashOfSnapshotNode_fuel|by intros]. Qed.

Lemma overlayEntryStateOf_fuel entry snapshot : never_fuel (overlayEntryStateOf sha256Hex entry snapshot).
Proof.
  unfold overlayEntryStateOf. destruct (OverlayEntry.op entry) as [p|d|mode|m]; [done| |done|].
  - unfold delete_state. repeat case_match; try done. apply never_fuel_bind; [apply snapshotTreeHash_fuel|by intros].
  - unfold move_state. apply never_fuel_bind; [cases_goal; try done; apply matchesKept_fuel|].
    intros []; [done|]. destruct (bool_decide _); [done|].
    apply never_fuel_bind; [cases_goal; try done; apply matchesKept_fuel|by intros].
Qed.

Lemma merge_entries_fuel view entries : never_fuel (merge_entries sha256Hex view entries).
Proof.
  revert view. induction entries as [|entry entries IH]; intros view; cbn; [done|].
  apply never_fuel_bind; [|apply IH]. apply never_fuel_bind; [apply overlayEntryStateOf_fuel|by intros].
Qed.

Lemma hashOf_fuel view path : never_fuel (hashOf sha256Hex view path).
Proof. unfold hashOf. cases_goal; try done. apply never_fuel_bind; [apply walk_enough|by intros]. Qed.

(** An entry that waits to be applied. *)
Definition is_pending (snapshot : OverlaySnapshotView) (entry : OverlayEntry) : bool :=
  match overlayEntryStateOf sha256Hex entry snapshot with inr pending => true | _ => false end.

Definition is_delete (entry : OverlayEntry) : bool := match OverlayEntry.op entry with op_delete _ => true | _ => false end.

(** What a pending entry hides, and the folder it moves. *)
Definition hides_leaves (entry : OverlayEntry) : list string :=
  match OverlayEntry.op entry with
  | op_put p => option_list (PutEntry.from p)
  | op_delete d => if DeleteEntry.directory d then [] else [OverlayEntry.path entry]
  | op_mkdir _ => []
  | op_move m => if MoveEntry.directory m then [] else [MoveEntry.from m]
  end.

Definition hides_folders (entry : OverlayEntry) : list string :=
  match OverlayEntry.op entry with
  | op_delete d => if DeleteEntry.directory d then [OverlayEntry.path entry] else []
  | op_move m => if MoveEntry.directory m then [MoveEntry.from m] else []
  | _ => []
  end.

Definition moves_folders (entry : OverlayEntry) : list (string * string) :=
  match OverlayEntry.op entry with
  | op_move m => if MoveEntry.directory m then [(MoveEntry.from m, OverlayEntry.path entry)] else []
  | _ => []
  end.

Definition pending_entries (snapshot : OverlaySnapshotView) (entries : list OverlayEntry) : list OverlayEntry :=
  List.filter (is_pending snapshot) entries.

Definition shown_entries (snapshot : OverlaySnapshotView) (entries : list OverlayEntry) : list (string * OverlayEntry) :=
  (fun entry => (OverlayEntry.path entry, entry)) <$> List.filter (fun entry => negb (is_delete entry)) (pending_entries snapshot entries).

Lemma pending_entries_cons snapshot entry entries :
  pending_entries snapshot (entry :: entries) = pending_entries snapshot [entry] ++ pending_entries snapshot entries.
Proof. unfold pending_entries. cbn. by destruct (is_pending _ _). Qed.

Lemma shown_entries_cons snapshot entry entries :
  shown_entries snapshot (entry :: entries) = shown_entries snapshot [entry] ++ shown_entries snapshot entries.
Proof. unfold shown_entries. by rewrite pending_entries_cons, List.filter_app, fmap_app. Qed.

Lemma merge_entry_view (v v' : EffectiveView) (entry : OverlayEntry) :
  merge_entry sha256Hex v entry = inr v' -> OverlayEntry.path entry ∉ (pendingAt v).*1 ->
  let waiting := pending_entries (snapshot v) [entry] in
  snapshot v' = snapshot v /\
  pendingAt v' = pendingAt v ++ shown_entries (snapshot v) [entry] /\
  hiddenLeaves v' = hiddenLeaves v ∪ list_to_set (waiting ≫= hides_leaves) /\
  hiddenDirectories v' = hiddenDirectories v ++ (waiting ≫= hides_folders) /\
  movedDirectories v' = movedDirectories v ++ (waiting ≫= moves_folders) /\
  exists st, overlayEntryStateOf sha256Hex entry (snapshot v) = inr st /\ states v' = <[OverlayEntry.path entry := st]> (states v).
Proof.
  intros (st & Hst & [= <-])%bind_ok Hfresh. unfold shown_entries, pending_entries, is_pending. cbn [List.filter].
  rewrite Hst. destruct st; cbn [snapshot states].
  - unfold merge_pending, is_delete, hides_leaves, hides_folders, moves_folders. cbn [pendingAt].
    rewrite map_set_fresh by done. destruct (OverlayEntry.op entry) as [[????[?|]?]|[[]???]|?|[?[]????]] eqn:Hop; cbn;
      rewrite ?Hop; cbn; rewrite ?app_nil_r, ?union_empty_r_L; repeat split; eauto.
  - cbn. rewrite ?app_nil_r, ?union_empty_r_L. repeat split; eauto.
  - cbn. rewrite ?app_nil_r, ?union_empty_r_L. repeat split; eauto.
Qed.

(** The effective view in closed form. *)
Lemma merge_entries_view (v v' : EffectiveView) (entries : list OverlayEntry) :
  merge_entries sha256Hex v entries = inr v' -> NoDup (OverlayEntry.path <$> entries) ->
  (forall entry, entry ∈ entries -> OverlayEntry.path entry ∉ (pendingAt v).*1) ->
  let waiting := pending_entries (snapshot v) entries in
  snapshot v' = snapshot v /\
  pendingAt v' = pendingAt v ++ shown_entries (snapshot v) entries /\
  hiddenLeaves v' = hiddenLeaves v ∪ list_to_set (waiting ≫= hides_leaves) /\
  hiddenDirectories v' = hiddenDirectories v ++ (waiting ≫= hides_folders) /\
  movedDirectories v' = movedDirectories v ++ (waiting ≫= moves_folders) /\
  (forall p, p ∉ OverlayEntry.path <$> entries -> states v' !! p = states v !! p) /\
  (forall entry, entry ∈ entries ->
     exists st, overlayEntryStateOf sha256Hex entry (snapshot v) = inr st /\ states v' !! OverlayEntry.path entry = Some st).
Proof.
  revert v. induction entries as [|entry entries IH]; intros v Hm Hnd Hfresh.
  { injection Hm as <-. cbn. rewrite !app_nil_r, union_empty_r_L. repeat split; try done. by intros ? ?%elem_of_nil. }
  cbn in Hnd. apply NoDup_cons in Hnd as [Hne Hnd].
  cbn [merge_entries] in Hm. apply bind_ok in Hm as (v1 & Hm1 & Hm).
  apply merge_entry_view in Hm1 as (Hs & Hp & Hl & Hd & Hmv & st & Hst & Hstates); [|apply Hfresh; left].
  destruct (IH v1 Hm Hnd) as (Hs' & Hp' & Hl' & Hd' & Hmv' & Hout & Hin).
  { intros e He. rewrite Hp, fmap_app. apply not_elem_of_app. split; [apply Hfresh; by right|].
    intros (x & Hx & (y & -> & Hy%list_elem_of_In)%list_elem_of_fmap)%list_elem_of_fmap.
    apply filter_In in Hy as [Hy _]. apply filter_In in Hy as [[->|[]] _]. cbn in Hx.
    apply Hne. rewrite <- Hx. by apply list_elem_of_fmap_2. }
  cbn zeta. rewrite pending_entries_cons, shown_entries_cons, !bind_app, list_to_set_app_L.
  rewrite Hs in *. repeat split.
  - done.
  - by rewrite Hp', Hp, app_assoc.
  - by rewrite Hl', Hl, union_assoc_L.
  - by rewrite Hd', Hd, app_assoc.
  - by rewrite Hmv', Hmv, app_assoc.
  - intros p [Hpe Hps]%not_elem_of_cons. by rewrite Hout, Hstates, lookup_insert_ne by done.
  - intros e [->|He]%elem_of_cons; [|by apply Hin]. exists st. split; [done|].
    by rewrite Hout, Hstates, lookup_insert_eq by done.
Qed.

Lemma createEffectiveView_view (snap : OverlaySnapshotView) (entries : list OverlayEntry) (v : EffectiveView) :
  createEffectiveView sha256Hex snap entries = inr v -> NoDup (OverlayEntry.path <$> entries) ->
  let waiting := pending_entries snap entries in
  snapshot v = snap /\
  pendingAt v = shown_entries snap entries /\
  hiddenLeaves v = list_to_set (waiting ≫= hides_leaves) /\
  hiddenDirectories v = waiting ≫= hides_folders /\
  movedDirectories v = waiting ≫= moves_folders /\
  (forall entry, entry ∈ entries -> exists st,
     overlayEntryStateOf sha256Hex entry snap = inr st /\ states v !! OverlayEntry.path entry = Some st).
Proof.
  intros Hv Hnd. destruct (merge_entries_view _ _ _ Hv Hnd) as (? & ? & Hl & ? & ? & ? & ?); [set_solver|].
  cbn in *. by rewrite union_empty_l_L in Hl.
Qed.
End view.

(** ** The invariant of the index *)

Record index_ok (entries : list OverlayEntry) : Prop := mk_index_ok {
  paths_unique : NoDup (OverlayEntry.path <$> entries);
  sources_unique : NoDup (entries ≫= sources_of);
  sources_apart : forall source, source ∈ entries ≫= sources_of -> source ∉ OverlayEntry.path <$> entries;
}.

Lemma overlayIndex_refinements_iff (entries : list OverlayEntry) :
  overlayIndex_refinements entries = true <->
  Z.of_nat (length entries) <= OVERLAY_MAX_ENTRIES /\ index_ok entries /\ content_bytes entries <= OVERLAY_MAX_TOTAL_BYTES.
Proof.
  unfold overlayIndex_refinements. rewrite !andb_true_iff, !Z.leb_le, !bool_decide_eq_true, forallb_forall.
  split; intros H; deex.
  - repeat split; try done. intros s Hs%list_elem_of_In. specialize (H2 s Hs). by apply negb_true_iff, bool_decide_eq_false in H2.
  - destruct H0 as [Hp Hs Ha]. repeat split; try done. intros s Hin%list_elem_of_In. apply negb_true_iff, bool_decide_eq_false. auto.
Qed.

Lemma filter_sublist {A : Type} (f : A -> bool) (l : list A) : List.filter f l `sublist_of` l.
Proof. induction l as [|x l IH]; cbn; [done|]. destruct (f x); by constructor. Qed.

Lemma bind_sublist {A B : Type} (f : A -> list B) (k l : list A) : k `sublist_of` l -> (k ≫= f) `sublist_of` (l ≫= f).
Proof.
  induction 1 as [|x k l H IH|x k l H IH]; cbn; [done|by apply sublist_app|].
  transitivity (l ≫= f); [done|]. apply sublist_inserts_l. done.
Qed.

Lemma fmap_sublist {A B : Type} (f : A -> B) (k l : list A) : k `sublist_of` l -> (f <$> k) `sublist_of` (f <$> l).
Proof. induction 1; cbn; by constructor. Qed.

(** Two elements that yield the same thing are one, when what all of them yield has no duplicate. *)
Lemma bind_same {A B : Type} (f : A -> list B) (l : list A) (x y : A) (b : B) :
  NoDup (l ≫= f) -> x ∈ l -> y ∈ l -> b ∈ f x -> b ∈ f y -> x = y.
Proof.
  induction l as [|z l IH]; [by intros ? ?%elem_of_nil|]. cbn. intros (Hz & Hzl & Hl)%NoDup_app Hx Hy Hbx Hby.
  apply elem_of_cons in Hx as [->|Hx], Hy as [->|Hy]; [done| | |auto].
  - destruct (Hzl b Hbx). apply list_elem_of_bind. eauto.
  - destruct (Hzl b Hby). apply list_elem_of_bind. eauto.
Qed.

Lemma index_ok_sublist (kept entries : list OverlayEntry) : kept `sublist_of` entries -> index_ok entries -> index_ok kept.
Proof.
  intros Hk [Hp Hs Ha]. split.
  - eapply sublist_NoDup; [exact Hp|by apply fmap_sublist].
  - eapply sublist_NoDup; [exact Hs|by apply bind_sublist].
  - intros s H Hin. apply (Ha s); [eapply elem_of_sublist; [exact H|by apply bind_sublist]|].
    eapply elem_of_sublist; [exact Hin|by apply fmap_sublist].
Qed.

Lemma sources_of_NoDup (entry : OverlayEntry) : NoDup (sources_of entry).
Proof. unfold sources_of. cases_goal; repeat constructor; set_solver. Qed.

(** Adding one entry. *)
Lemma index_ok_snoc (kept : list OverlayEntry) (entry : OverlayEntry) :
  index_ok kept -> OverlayEntry.path entry ∉ OverlayEntry.path <$> kept -> OverlayEntry.path entry ∉ kept ≫= sources_of ->
  (forall source, source ∈ sources_of entry ->
     source <> OverlayEntry.path entry /\ source ∉ OverlayEntry.path <$> kept /\ source ∉ kept ≫= sources_of) ->
  index_ok (kept ++ [entry]).
Proof.
  intros [Hp Hs Ha] Hpath Hsrc Hnew. split; rewrite ?fmap_app, ?bind_app; cbn; rewrite ?app_nil_r.
  - apply NoDup_app. repeat split; [done| |by apply NoDup_singleton]. set_solver.
  - apply NoDup_app. repeat split; [done| |apply sources_of_NoDup]. intros s H1 H2. by apply Hnew in H2 as (_ & _ & []).
  - intros s [H|H]%elem_of_app; apply not_elem_of_app.
    + split; [by apply Ha|]. intros ->%list_elem_of_singleton. done.
    + apply Hnew in H as (Hne & Hnp & _). split; [done|]. by intros ->%list_elem_of_singleton.
Qed.

(** The entries a plan keeps. *)
Lemma elem_of_without (entry : OverlayEntry) (entries : list OverlayEntry) (paths : list string) :
  entry ∈ without entries paths <-> entry ∈ entries /\ OverlayEntry.path entry ∉ paths.
Proof.
  unfold without. rewrite !list_elem_of_In, filter_In, negb_true_iff, bool_decide_eq_false. by rewrite <- !list_elem_of_In.
Qed.

Lemma without_ok (entries : list OverlayEntry) (paths : list string) : index_ok entries -> index_ok (without entries paths).
Proof. apply index_ok_sublist, filter_sublist. Qed.

Lemma path_without (entries : list OverlayEntry) (paths : list string) (p : string) :
  p ∈ paths -> p ∉ OverlayEntry.path <$> without entries paths.
Proof. intros Hp (e & -> & [_ He]%elem_of_without)%list_elem_of_fmap. done. Qed.

Lemma path_not_without (entries : list OverlayEntry) (paths : list string) (p : string) :
  p ∉ OverlayEntry.path <$> entries -> p ∉ OverlayEntry.path <$> without entries paths.
Proof. intros Hp (e & -> & [He _]%elem_of_without)%list_elem_of_fmap. apply Hp. by apply list_elem_of_fmap_2. Qed.

(** A source of an entry that goes is no source of an entry that stays. *)
Lemma source_without (entries : list OverlayEntry) (paths : list string) (entry : OverlayEntry) (source : string) :
  index_ok entries -> entry ∈ entries -> OverlayEntry.path entry ∈ paths -> source ∈ sources_of entry ->
  source ∉ without entries paths ≫= sources_of.
Proof.
  intros [_ Hs _] He Hp Hsrc (e & Hse & [He' Hpe]%elem_of_without)%list_elem_of_bind.
  assert (e = entry) as -> by by eapply bind_same. done.
Qed.

Lemma source_not_path (entries : list OverlayEntry) (entry : OverlayEntry) (source : string) :
  index_ok entries -> entry ∈ entries -> source ∈ sources_of entry -> source ∉ OverlayEntry.path <$> entries.
Proof. intros Hok He Hs. apply (sources_apart _ Hok). apply list_elem_of_bind. eauto. Qed.

Lemma entryAt_Some (entries : list OverlayEntry) (path : string) (entry : OverlayEntry) :
  entryAt entries path = Some entry -> entry ∈ entries /\ OverlayEntry.path entry = path.
Proof. intros [Hin Hp]%List.find_some. apply bool_decide_eq_true in Hp. by rewrite list_elem_of_In. Qed.

Lemma entryAt_None (entries : list OverlayEntry) (path : string) :
  entryAt entries path = None -> path ∉ OverlayEntry.path <$> entries.
Proof.
  intros Hn (e & -> & He%list_elem_of_In)%list_elem_of_fmap. pose proof (List.find_none _ _ Hn e He) as H.
  by apply bool_decide_eq_false in H.
Qed.

(** ** What the guards tell *)

Lemma refuse_if_ok (test : bool) code message current : refuse_if test code message current = inr tt -> test = false.
Proof. by destruct test. Qed.

Lemma existsb_none {A : Type} (f : A -> bool) (l : list A) (x : A) : existsb f l = false -> x ∈ l -> f x = false.
Proof.
  intros Hf Hx%list_elem_of_In. destruct (f x) eqn:Hfx; [|done].
  enough (existsb f l = true) by congruence. apply existsb_exists. eauto.
Qed.

Lemma requireNoEntryInside_ok (entries : list OverlayEntry) (paths : list string) :
  requireNoEntryInside entries paths = inr tt -> forall entry name path,
  entry ∈ entries -> name ∈ OverlayEntry.path entry :: sources_of entry -> path ∈ paths -> isSameOrUnder name path = false.
Proof.
  intros Hg%refuse_if_ok entry name path He Hn Hp. pose proof (existsb_none _ _ _ Hg He) as H. cbn beta in H.
  pose proof (existsb_none _ _ _ H Hn) as H'. exact (existsb_none _ _ _ H' Hp).
Qed.

Lemma isSameOrUnder_refl (path : string) : isSameOrUnder path path = true.
Proof. unfold isSameOrUnder. by rewrite bool_decide_true. Qed.

(** The view of the entries of an index that is as it should be. *)
Section guards.
  Context (sha256Hex : string -> string) (snap : OverlaySnapshotView) (entries : list OverlayEntry) (view : EffectiveView)
    (Hview : createEffectiveView sha256Hex snap entries = inr view) (Hok : index_ok entries).

Lemma state_pending (entry : OverlayEntry) :
  entry ∈ entries -> states view !! OverlayEntry.path entry = Some pending <-> is_pending sha256Hex snap entry = true.
Proof using Hview Hok.
  intros He. destruct (createEffectiveView_view _ _ _ _ Hview (paths_unique _ Hok)) as (_ & _ & _ & _ & _ & Hst).
  destruct (Hst _ He) as (st & Hs & ->). unfold is_pending. rewrite Hs. by destruct st.
Qed.

Lemma elem_of_pending (entry : OverlayEntry) :
  entry ∈ pending_entries sha256Hex snap entries <-> entry ∈ entries /\ is_pending sha256Hex snap entry = true.
Proof using Type. unfold pending_entries. by rewrite !list_elem_of_In, filter_In. Qed.

Lemma elem_of_shown (path : string) (entry : OverlayEntry) :
  (path, entry) ∈ shown_entries sha256Hex snap entries <->
  path = OverlayEntry.path entry /\ entry ∈ entries /\ is_pending sha256Hex snap entry = true /\ is_delete entry = false.
Proof using Type.
  unfold shown_entries. rewrite list_elem_of_fmap. setoid_rewrite list_elem_of_In. setoid_rewrite filter_In.
  setoid_rewrite <- list_elem_of_In. setoid_rewrite elem_of_pending. setoid_rewrite negb_true_iff. naive_solver.
Qed.

Lemma requireNotBusy_ok (paths : list string) (entry : OverlayEntry) (path : string) :
  requireNotBusy entries view paths = inr tt -> path ∈ paths -> entry ∈ entries -> is_pending sha256Hex snap entry = true ->
  match OverlayEntry.op entry with
  | op_move m =>
      MoveEntry.directory m = true -> isSameOrUnder path (OverlayEntry.path entry) = false /\ isSameOrUnder path (MoveEntry.from m) = false
  | op_delete d =>
      DeleteEntry.directory d = true -> DeleteEntry.recursive d = true -> isSameOrUnder path (OverlayEntry.path entry) = false
  | _ => True
  end.
Proof using Hview Hok.
  intros Hg%refuse_if_ok Hp He Hst%(state_pending _ He).
  assert (forall covers, covers ∈ exclusiveEntriesOf entries view -> forall cover, cover ∈ covers -> isSameOrUnder path cover = false) as Hc.
  { intros covers Hcs cover Hc. pose proof (existsb_none _ _ _ Hg Hcs) as H. cbn beta in H.
    pose proof (existsb_none _ _ _ H Hp) as H'. exact (existsb_none _ _ _ H' Hc). }
  assert (forall covers, covers ∈ (match OverlayEntry.op entry with
         | op_move m => if MoveEntry.directory m then [[OverlayEntry.path entry; MoveEntry.from m]] else []
         | op_delete d => if DeleteEntry.directory d && DeleteEntry.recursive d then [[OverlayEntry.path entry]] else []
         | _ => [] end) -> covers ∈ exclusiveEntriesOf entries view) as Hin.
  { intros covers Hcs. unfold exclusiveEntriesOf. apply list_elem_of_In, in_flat_map. exists entry.
    rewrite <- !list_elem_of_In. split; [done|]. rewrite bool_decide_false by (intros []; done). done. }
  destruct (OverlayEntry.op entry) as [|d| |m]; try done.
  - intros Hd Hr. rewrite Hd, Hr in Hin. eapply Hc; [apply Hin; left|left].
  - intros Hd. rewrite Hd in Hin. split; eapply Hc; try (apply Hin; left); [left|right; left].
Qed.

Lemma requirePathFreeOfOtherEntries_ok (others : list OverlayEntry) (path : string) (entry : OverlayEntry) :
  requirePathFreeOfOtherEntries others view path = inr tt -> entry ∈ others -> entry ∈ entries ->
  is_pending sha256Hex snap entry = true -> OverlayEntry.path entry <> path /\ path ∉ sources_of entry.
Proof using Hview Hok.
  intros Hg%refuse_if_ok Ho He Hst%(state_pending _ He). pose proof (existsb_none _ _ _ Hg Ho) as H. cbn beta zeta in H.
  rewrite (bool_decide_true _ Hst), !andb_true_r in H. apply orb_false_iff in H as [H1 H2].
  by apply bool_decide_eq_false in H1, H2.
Qed.

(** No moved folder covers a path that is not busy. *)
Lemma not_translated (paths : list string) (path : string) :
  requireNotBusy entries view paths = inr tt -> path ∈ paths -> translated view path = None.
Proof using Hview Hok.
  intros Hb Hin. unfold translated. destruct (List.find _ _) as [[from to]|] eqn:Hf; [|done]. exfalso.
  apply List.find_some in Hf as [Hf%list_elem_of_In Hu].
  destruct (createEffectiveView_view _ _ _ _ Hview (paths_unique _ Hok)) as (_ & _ & _ & _ & Hmv & _). rewrite Hmv in Hf.
  apply list_elem_of_bind in Hf as (e & Hf & [He Hp]%elem_of_pending).
  pose proof (requireNotBusy_ok _ e path Hb Hin He Hp) as Hnb. unfold moves_folders in Hf.
  destruct (OverlayEntry.op e) as [| | |m]; try by apply elem_of_nil in Hf.
  destruct (MoveEntry.directory m); [|by apply elem_of_nil in Hf]. apply list_elem_of_singleton in Hf as [= -> ->].
  destruct (Hnb eq_refl) as [H _]. apply orb_false_iff in H as [_ H]. cbn in Hu. congruence.
Qed.
(** A path that shows is the source of no pending entry, unless a pending change of a folder covers it. *)
Lemma visible_not_source (paths : list string) (path : string) (node : EffectiveNode) (entry : OverlayEntry) :
  requireNotBusy entries view paths = inr tt -> path ∈ paths -> lookup_node view path = Some node ->
  entry ∈ entries -> is_pending sha256Hex snap entry = true -> path ∉ sources_of entry.
Proof using Hview Hok.
  intros Hbusy Hin Hl He Hst Hsrc.
  destruct (createEffectiveView_view _ _ _ _ Hview (paths_unique _ Hok)) as (Hs & Hp & Hhl & Hhd & Hmv & _).
  assert (path ∉ OverlayEntry.path <$> entries) as Hno by by eapply source_not_path.
  unfold lookup_node in Hl. destruct (map_get path (pendingAt view)) as [e|] eqn:Hg.
  { apply map_get_Some in Hg. rewrite Hp in Hg. apply elem_of_shown in Hg as (-> & He' & _).
    apply Hno. by apply list_elem_of_fmap_2. }
  rewrite (not_translated paths path Hbusy Hin) in Hl.
  enough (isHidden view path = true) as Hh by by rewrite Hh in Hl.
  pose proof (requireNotBusy_ok _ entry path Hbusy Hin He Hst) as H. unfold isHidden. rewrite Hhl, Hhd.
  apply orb_true_iff. left. apply bool_decide_eq_true. apply elem_of_list_to_set, list_elem_of_bind.
  exists entry. split; [|by apply elem_of_pending]. unfold hides_leaves, sources_of in *.
  destruct (OverlayEntry.op entry) as [p| | |m]; [|by apply elem_of_nil in Hsrc..|].
  - by destruct (PutEntry.from p).
  - destruct (MoveEntry.directory m); [|done]. apply list_elem_of_singleton in Hsrc as ->.
    destruct H as [_ H]; [done|]. by rewrite isSameOrUnder_refl in H.
Qed.
End guards.
