(* ===== verification/OverlayKeeps.v ===== *)
(** * Every plan keeps the index as its schema wants it

    One lemma per plan of the write algebra: the entries it leaves have unique paths, each source is moved once and no source
    is also an entry. The guards give this when every entry that moves a file is still waiting; OverlayTheorems.v shows what
    happens to an entry that is in conflict.

    What the overlay relies on of a snapshot ([snapshot_ok]), and that the lookups built from the index of a pack have it
    ([loaded_snapshot_ok]): the entries name each path once, and each path but the root's lies in a folder of the pack. *)

From S2P Require Import Prelude Json LiveFiles Overlay OverlayPlan OverlayFacts.
Import EffectiveView.
#[local] Open Scope Z_scope.

Abbreviation live path := (isSameOrUnder path OVERLAY_WORKSPACE_ROOT = true) (only parsing).

(** A node is found under its own path; the children of a folder are its nodes, each under its own name; and a folder with
    something below it has children. *)
Record snapshot_ok (snap : OverlaySnapshotView) : Prop := mk_snapshot_ok {
  node_path : forall path node, live path -> get snap path = Some node -> SnapshotNode.path node = path;
  child_path : forall directory child, live directory -> child ∈ children snap directory ->
    SnapshotNode.path child = directory +:+ "/" +:+ basename (SnapshotNode.path child) /\
    get snap (SnapshotNode.path child) = Some child;
  child_names : forall directory, live directory ->
    NoDup ((fun child => basename (SnapshotNode.path child)) <$> children snap directory);
  folder_holds : forall path node folder, live folder -> get snap path = Some node -> isStrictlyUnder path folder = true ->
    is_Some (get snap folder) -> children snap folder <> [];
}.

(** The entries of a pack's index. *)
Definition pack_ok (entries : list SnapshotIndexEntry) : Prop :=
  let paths := SnapshotIndexEntry.path <$> entries in
  NoDup paths /\
  Forall (fun path => path = "workspace" \/ (path = dirname path +:+ "/" +:+ basename path /\ dirname path ∈ paths)) paths.

#[export] Instance pack_ok_dec (entries : list SnapshotIndexEntry) : Decision (pack_ok entries).
Proof. unfold pack_ok. apply _. Defined.

(** ** Names *)

Lemma until_slash_stop (r s : string) : until_slash (r +:+ String slash s) = until_slash r.
Proof. induction r as [|c r IH]; [by vm_compute|]. rewrite string_app_cons. cbn [until_slash]. case_bool_decide; [done|]. by rewrite IH. Qed.

Lemma skip_slashes_stop (r : string) :
  skip_slashes (r +:+ "/") = EmptyString /\ skip_slashes r = EmptyString \/ skip_slashes (r +:+ "/") = skip_slashes r +:+ "/".
Proof.
  induction r as [|c r IH]; [by left|]. rewrite string_app_cons. cbn [skip_slashes]. case_bool_decide; [done|]. by right.
Qed.

Lemma basename_root (path : string) : basename ("/" +:+ path) = basename path.
Proof.
  unfold basename. rewrite reverse_string_app, (reverse_string_acc path).
  change (reverse_string "/" EmptyString) with "/". destruct (skip_slashes_stop (reverse_string path EmptyString)) as [[-> ->]| ->]; [done|].
  change "/" with (String slash EmptyString). by rewrite until_slash_stop.
Qed.

Lemma string_has_app (c : Ascii.ascii) (a b : string) : string_has c (a +:+ b) = string_has c a || string_has c b.
Proof. induction a as [|d a IH]; [done|]. rewrite string_app_cons. cbn. rewrite IH. by destruct (bool_decide _). Qed.

Lemma string_has_reverse (c : Ascii.ascii) (s acc : string) : string_has c (reverse_string s acc) = string_has c s || string_has c acc.
Proof. revert acc. induction s as [|d s IH]; intros acc; [done|]. cbn. rewrite IH. cbn. by destruct (bool_decide _), (string_has c s). Qed.

Lemma until_slash_none (r : string) : string_has slash (until_slash r) = false.
Proof. induction r as [|c r IH]; [done|]. cbn [until_slash]. case_bool_decide; [done|]. cbn. by rewrite bool_decide_false by congruence. Qed.

Lemma basename_no_slash (path : string) : string_has slash (basename path) = false.
Proof. unfold basename. rewrite string_has_reverse. by rewrite until_slash_none. Qed.

(** A slash before the last name of a path ends its directory name or a directory above it. *)
Lemma split_last (f t d b : string) :
  f +:+ String slash t = d +:+ String slash b -> string_has slash b = false -> f = d \/ exists t', d = f +:+ String slash t'.
Proof.
  revert d. induction f as [|c f IH]; intros [|c' d] Heq Hb.
  - by left.
  - rewrite string_app_nil, string_app_cons in Heq. injection Heq as <- _. right. by exists d.
  - rewrite string_app_nil, string_app_cons in Heq. injection Heq as -> <-. rewrite string_has_app in Hb. cbn in Hb.
    by rewrite orb_true_r in Hb.
  - rewrite !string_app_cons in Heq. injection Heq as <- Heq. destruct (IH d Heq Hb) as [->|[t' ->]]; [by left|right]. by exists t'.
Qed.
(** ** The lookups *)

Lemma loadedIndexOf_snoc (entries : list SnapshotIndexEntry) (entry : SnapshotIndexEntry) :
  loadedIndexOf (entries ++ [entry]) = load_entry (loadedIndexOf entries) entry.
Proof. unfold loadedIndexOf. by rewrite foldl_app. Qed.

Lemma byPath_loaded (entries : list SnapshotIndexEntry) (path : string) (entry : SnapshotIndexEntry) :
  NoDup (SnapshotIndexEntry.path <$> entries) ->
  byPath (loadedIndexOf entries) !! path = Some entry <-> entry ∈ entries /\ SnapshotIndexEntry.path entry = path.
Proof.
  revert entry. induction entries as [|e entries IH] using rev_ind; intros entry Hnd.
  { cbn. rewrite lookup_empty, elem_of_nil. naive_solver. }
  rewrite fmap_app in Hnd. apply NoDup_app in Hnd as (Hnd & Hd & _). rewrite loadedIndexOf_snoc. cbn.
  rewrite elem_of_app, list_elem_of_singleton. destruct (decide (SnapshotIndexEntry.path e = path)) as [<-|Hne].
  - rewrite lookup_insert_eq. split; [intros [= ->]; auto|]. intros [[He| ->] Hp]; [|done]. exfalso.
    apply (Hd (SnapshotIndexEntry.path entry)); [by apply list_elem_of_fmap_2|]. rewrite Hp. left.
  - rewrite lookup_insert_ne, IH by done. naive_solver.
Qed.

Lemma childrenOf_loaded (entries : list SnapshotIndexEntry) (directory : string) :
  default [] (childrenOf (loadedIndexOf entries) !! directory) =
  filter (fun entry => dirname (SnapshotIndexEntry.path entry) = directory) entries.
Proof.
  induction entries as [|e entries IH] using rev_ind; [done|]. rewrite loadedIndexOf_snoc, filter_app, <- IH.
  destruct (decide (dirname (SnapshotIndexEntry.path e) = directory)) as [<-|Hne].
  - rewrite filter_cons_True by done. cbn. destruct (childrenOf _ !! _) as [siblings|]; by rewrite lookup_insert_eq.
  - rewrite filter_cons_False by done. rewrite app_nil_r. cbn. destruct (childrenOf _ !! dirname _) as [siblings|]; by rewrite lookup_insert_ne.
Qed.

(** A path of the workspace without its first slash. *)
Lemma live_drop (path : string) : live path -> path = "/" +:+ drop_string 1 path.
Proof.
  unfold isSameOrUnder, isStrictlyUnder. intros [->%bool_decide_eq_true|[t ->]%starts_with_inv]%orb_true_iff; done.
Qed.

Section loaded.
  Context (entries : list SnapshotIndexEntry) (Hpack : pack_ok entries).
Let snap := snapshotViewOfIndex (Some (loadedIndexOf entries)).

Lemma get_loaded (path : string) (node : SnapshotNode) :
  get snap path = Some node <->
  exists entry, entry ∈ entries /\ SnapshotIndexEntry.path entry = drop_string 1 path /\ node = nodeOf entry.
Proof using Hpack.
  unfold snap. cbn. rewrite fmap_Some. setoid_rewrite byPath_loaded; [|apply Hpack]. naive_solver.
Qed.

Lemma children_loaded (directory : string) (node : SnapshotNode) :
  node ∈ children snap directory <->
  exists entry, entry ∈ entries /\ dirname (SnapshotIndexEntry.path entry) = drop_string 1 directory /\ node = nodeOf entry.
Proof using Type.
  unfold snap. cbn [children snapshotViewOfIndex]. rewrite childrenOf_loaded, list_elem_of_fmap. setoid_rewrite list_elem_of_filter. naive_solver.
Qed.

(** An entry in a folder of the workspace has the folder's path and its own name. *)
Lemma child_entry (directory : string) (entry : SnapshotIndexEntry) :
  live directory -> entry ∈ entries -> dirname (SnapshotIndexEntry.path entry) = drop_string 1 directory ->
  SnapshotNode.path (nodeOf entry) = directory +:+ "/" +:+ basename (SnapshotNode.path (nodeOf entry)).
Proof using Hpack.
  intros Hl He Hd. destruct Hpack as [_ Hf]. rewrite Forall_forall in Hf.
  destruct (Hf (SnapshotIndexEntry.path entry)) as [Hr|[Hp _]]; [by apply list_elem_of_fmap_2| |].
  - rewrite Hr in Hd. change (dirname "workspace") with "." in Hd. exfalso.
    unfold isSameOrUnder, isStrictlyUnder in Hl. apply orb_true_iff in Hl as [->%bool_decide_eq_true|[t ->]%starts_with_inv]; done.
  - change (SnapshotNode.path (nodeOf entry)) with ("/" +:+ SnapshotIndexEntry.path entry).
    rewrite basename_root. rewrite Hp at 1. rewrite Hd. rewrite (live_drop directory Hl) at 2. by rewrite !string_app_assoc.
Qed.

Lemma below_folder (n : nat) (path folder : string) :
  (String.length path <= n)%nat -> path ∈ SnapshotIndexEntry.path <$> entries -> starts_with (folder +:+ "/") path = true ->
  live ("/" +:+ folder) -> exists entry, entry ∈ entries /\ dirname (SnapshotIndexEntry.path entry) = folder.
Proof using Hpack.
  revert path. induction n as [|n IH]; intros path Hlen Hin Hs Hl; pose proof Hs as [t Ht]%starts_with_inv.
  { rewrite Ht, !string_length_app in Hlen. cbn in Hlen. lia. }
  destruct Hpack as [_ Hf]. rewrite Forall_forall in Hf. destruct (Hf path Hin) as [Hr|[Hp Hd]].
  - exfalso. rewrite Hr in Ht. unfold isSameOrUnder, isStrictlyUnder in Hl.
    apply orb_true_iff in Hl as [Hl%bool_decide_eq_true|[u Hu]%starts_with_inv].
    + change OVERLAY_WORKSPACE_ROOT with ("/" +:+ "workspace") in Hl. apply string_app_inj_l in Hl as ->. done.
    + change (OVERLAY_WORKSPACE_ROOT +:+ "/") with ("/" +:+ "workspace/") in Hu. rewrite string_app_assoc in Hu.
      apply string_app_inj_l in Hu as ->. done.
  - pose proof (f_equal String.length Hp) as Hl2. rewrite !string_length_app in Hl2. cbn [String.length] in Hl2.
    rewrite Ht in Hp at 1. rewrite string_app_assoc in Hp. change "/" with (String slash EmptyString) in Hp.
    rewrite !string_app_cons in Hp. apply split_last in Hp as [->|[t' Ht']]; [..|apply basename_no_slash].
    + apply list_elem_of_fmap in Hin as (e & -> & He). by exists e.
    + apply (IH (dirname path)); [|done| |done].
      * lia.
      * rewrite Ht'. change (String slash t') with ("/" +:+ t'). rewrite <- string_app_assoc. apply starts_with_app.
Qed.

(** The lookups of a pack's index are those of a tree. *)
Lemma loaded_snapshot_ok : snapshot_ok snap.
Proof using Hpack.
  split.
  - intros path node Hl (e & _ & Hp & ->)%get_loaded. rewrite (live_drop path Hl). cbn. by rewrite Hp.
  - intros directory child Hl (e & He & Hd & ->)%children_loaded. split; [by apply child_entry|].
    apply get_loaded. by exists e.
  - intros directory Hl. unfold snap. cbn [children snapshotViewOfIndex]. rewrite childrenOf_loaded, <- list_fmap_compose.
    apply NoDup_fmap_2_strong.
    + intros e1 e2 [Hd1 H1]%list_elem_of_filter [Hd2 H2]%list_elem_of_filter Heq. cbn beta in Heq.
      pose proof (child_entry directory e1 Hl H1 Hd1) as Hp1. pose proof (child_entry directory e2 Hl H2 Hd2) as Hp2.
      unfold compose in Heq. rewrite Heq, <- Hp2 in Hp1. apply (string_app_inj_l "/") in Hp1.
      destruct Hpack as [Hnd _].
      pose proof (proj2 (byPath_loaded _ _ e1 Hnd) (conj H1 Hp1)) as Hb1.
      pose proof (proj2 (byPath_loaded _ _ e2 Hnd) (conj H2 eq_refl)) as Hb2. congruence.
    + apply NoDup_filter. destruct Hpack as [Hnd _]. by eapply NoDup_fmap_1.
  - intros path node folder Hl (e & He & Hp & _)%get_loaded Hu _ Hn.
    destruct (below_folder (String.length (SnapshotIndexEntry.path e)) (SnapshotIndexEntry.path e) (drop_string 1 folder)) as (e' & He' & Hd').
    + done.
    + by apply list_elem_of_fmap_2.
    + rewrite Hp. unfold isStrictlyUnder in Hu. rewrite (live_drop folder Hl) in Hu. apply starts_with_inv in Hu as [t ->].
      rewrite !string_app_assoc.
      change (drop_string 1 ("/" +:+ (drop_string 1 folder +:+ "/" +:+ t))) with (drop_string 1 folder +:+ "/" +:+ t).
      rewrite <- string_app_assoc. apply starts_with_app.
    + by rewrite <- live_drop.
    + assert (nodeOf e' ∈ children snap folder) as Hin by (apply children_loaded; eauto). rewrite Hn in Hin. by apply elem_of_nil in Hin.
Qed.
End loaded.

(** Split a run of guards that all passed. *)
Ltac judged_inv H :=
  repeat match type of H with
         | (_ ≫= _) = inr _ => let x := fresh "x" in let Hx := fresh "Hg" in apply bind_ok in H as (x & Hx & H); match type of x with unit => destruct x | _ => idtac end
         end.

Lemma within_caps_inv (c c' : Changed) : within_caps c = plan_changed c' -> c' = c /\ capsRefusal (Changed.entries c) = None.
Proof. unfold within_caps. unfold capsRefusal. destruct (_ || _); [done|]. by intros [= ->]. Qed.

(** Adding entries that have no source. *)
Lemma index_ok_app (kept added : list OverlayEntry) :
  index_ok kept -> NoDup (OverlayEntry.path <$> added) ->
  (forall entry, entry ∈ added -> sources_of entry = [] /\
     OverlayEntry.path entry ∉ OverlayEntry.path <$> kept /\ OverlayEntry.path entry ∉ kept ≫= sources_of) ->
  index_ok (kept ++ added).
Proof.
  revert kept. induction added as [|entry added IH]; intros kept Hk Hnd Hadd; [by rewrite app_nil_r|].
  cbn in Hnd. apply NoDup_cons in Hnd as [Hne Hnd]. destruct (Hadd entry) as (Hs & Hp & Hps); [left|].
  change (entry :: added) with ([entry] ++ added). rewrite app_assoc. apply IH; [|done|].
  - apply index_ok_snoc; [done..|]. rewrite Hs. by intros ? ?%elem_of_nil.
  - intros e He. destruct (Hadd e) as (Hse & Hpe & Hpse); [by right|]. rewrite fmap_app, bind_app. cbn. rewrite Hs, !app_nil_r.
    repeat split; [done| |done]. apply not_elem_of_app. split; [done|]. intros Heq%list_elem_of_singleton.
    apply Hne. rewrite <- Heq. by apply list_elem_of_fmap_2.
Qed.

Section keeps.
  Context (sha256Hex : string -> string) (input : OverlayPlanInput) (view : EffectiveView)
    (Hview : createEffectiveView sha256Hex (in_snapshot input) (in_entries input) = inr view) (Hok : index_ok (in_entries input))
    (Hwait : forall entry, entry ∈ in_entries input -> sources_of entry <> [] -> is_pending sha256Hex (in_snapshot input) entry = true).

Lemma waits (entry : OverlayEntry) (source : string) :
  entry ∈ in_entries input -> source ∈ sources_of entry -> is_pending sha256Hex (in_snapshot input) entry = true.
Proof using Hwait. intros He Hs. apply Hwait; [done|]. intros Hn. rewrite Hn in Hs. by apply elem_of_nil in Hs. Qed.

Lemma not_source_without (paths : list string) (path : string) :
  (forall entry, entry ∈ in_entries input -> OverlayEntry.path entry ∉ paths -> is_pending sha256Hex (in_snapshot input) entry = true ->
     path ∉ sources_of entry) ->
  path ∉ without (in_entries input) paths ≫= sources_of.
Proof using Hwait.
  intros H (e & Hs & [He Hp]%elem_of_without)%list_elem_of_bind. by eapply H; [| |eapply waits|].
Qed.

(** A path that shows, or that has an entry, is no source. *)
Lemma shown_not_source (asked : list string) (path : string) (node : EffectiveNode) (paths : list string) :
  requireNotBusy (in_entries input) view asked = inr tt -> path ∈ asked -> lookup_node view path = Some node ->
  path ∉ without (in_entries input) paths ≫= sources_of.
Proof using All.
  intros Hb Ha Hl. apply not_source_without. intros e He _ Hp. by eapply visible_not_source.
Qed.

Lemma put_sources (path sha256 : string) (size : Z) (source : string) :
  source ∈ sources_of (put_entry sha256Hex input view path sha256 size) ->
  exists existing, entryAt (in_entries input) path = Some existing /\ source ∈ sources_of existing.
Proof using Type.
  unfold put_entry, put_origin. destruct (entryAt _ _) as [existing|]; cbn; [|by intros ?%elem_of_nil].
  unfold sources_of. intros Hs. exists existing. split; [done|].
  destruct (OverlayEntry.op existing) as [p|d|mode|m]; cbn in Hs; try by apply elem_of_nil in Hs.
  all: destruct (bool_decide _); cbn in Hs; [done|by apply elem_of_nil in Hs].
Qed.

Lemma put_path (path sha256 : string) (size : Z) : OverlayEntry.path (put_entry sha256Hex input view path sha256 size) = path.
Proof using Type. unfold put_entry. by destruct (put_origin _ _ _) as [[??]?]. Qed.

Lemma planPut_keeps (path sha256 : string) (size : Z) (precondition : Precondition) (c : Changed) :
  planPut sha256Hex input view path sha256 size precondition = inr (plan_changed c) -> index_ok (Changed.entries c).
Proof using All.
  intros H. unfold planPut in H. judged_inv H. case_bool_decide; [done|]. judged_inv H.
  injection H as [-> _]%within_caps_inv. cbn. apply index_ok_snoc; rewrite ?put_path.
  - by apply without_ok.
  - apply path_without. left.
  - apply not_source_without. intros e He Hp Hst.
    eapply (requirePathFreeOfOtherEntries_ok _ _ _ _ Hview Hok); [eassumption| |exact He|exact Hst].
    apply list_elem_of_In, filter_In. rewrite <- list_elem_of_In, bool_decide_eq_true. set_solver.
  - intros s (e & He & Hs)%put_sources. apply entryAt_Some in He as [He Hpe].
    pose proof (source_not_path _ _ _ Hok He Hs) as Hns. repeat split.
    + intros ->. apply Hns. rewrite <- Hpe. by apply list_elem_of_fmap_2.
    + by apply path_not_without.
    + eapply source_without; [done|exact He| |done]. rewrite Hpe. left.
Qed.

(** A delete entry at the path itself, in the place of the entry that was there. *)
Lemma delete_here_keeps (path : string) (node : EffectiveNode) (directory recursive : bool) (base tree : option string) (revision : Z) :
  requireNotBusy (in_entries input) view [path] = inr tt -> lookup_node view path = Some node ->
  index_ok (without (in_entries input) [path] ++ [deleteEntry path directory recursive base tree input revision]).
Proof using All.
  intros Hb Hl. apply index_ok_snoc; cbn.
  - by apply without_ok.
  - apply path_without. left.
  - eapply shown_not_source; [exact Hb|left|exact Hl].
  - by intros ? ?%elem_of_nil.
Qed.

(** A delete entry at the source of the entry that was at the path. *)
Lemma delete_source_keeps (path source : string) (existing : OverlayEntry) (base : option string) (revision : Z) :
  entryAt (in_entries input) path = Some existing -> source ∈ sources_of existing ->
  index_ok (without (in_entries input) [path] ++ [deleteEntry source false false base None input revision]).
Proof using Hok.
  intros [He <-]%entryAt_Some Hs. apply index_ok_snoc; cbn.
  - by apply without_ok.
  - apply path_not_without. by eapply source_not_path.
  - eapply source_without; [done|exact He|left|done].
  - by intros ? ?%elem_of_nil.
Qed.

Lemma delete_leaf_keeps (path : string) (node : EffectiveNode) (effectiveHash : option string) :
  requireNotBusy (in_entries input) view [path] = inr tt -> lookup_node view path = Some node ->
  index_ok (delete_leaf_entries sha256Hex input view path effectiveHash).
Proof using All.
  intros Hb Hl. unfold delete_leaf_entries.
  pose proof (fun base revision => delete_here_keeps path node false false base None revision Hb Hl) as Hhere.
  case_bool_decide; [|apply Hhere]. destruct (entryAt _ _) as [existing|] eqn:Hat; [|apply Hhere]. cbn.
  destruct (OverlayEntry.op existing) as [p|d|mode|m] eqn:Hop; try apply Hhere.
  - destruct (PutEntry.from p) eqn:Hf.
    + apply (delete_source_keeps _ _ existing); [done|]. unfold sources_of. rewrite Hop, Hf. left.
    + destruct (PutEntry.base_sha256 p); [apply Hhere|by apply without_ok].
  - apply (delete_source_keeps _ _ existing); [done|]. unfold sources_of. rewrite Hop. left.
Qed.

Lemma delete_empty_keeps (path : string) (node : EffectiveNode) :
  requireNotBusy (in_entries input) view [path] = inr tt -> lookup_node view path = Some node ->
  index_ok (delete_empty_entries input view path).
Proof using All.
  intros Hb Hl. unfold delete_empty_entries.
  pose proof (fun revision => delete_here_keeps path node true false None None revision Hb Hl) as Hhere.
  case_bool_decide; [|apply Hhere]. destruct (OverlayEntry.op <$> _) as [[]|]; try apply Hhere. by apply without_ok.
Qed.

Lemma deleteOfSource_inv (region : string) (entry delete : OverlayEntry) :
  deleteOfSource input region entry = Some delete ->
  OverlayEntry.path delete ∈ sources_of entry /\ isSameOrUnder (OverlayEntry.path delete) region = false /\ sources_of delete = [].
Proof using Type.
  unfold deleteOfSource, sources_of. intros H. cases_in H; cbn; repeat split; try done; left.
Qed.

Lemma source_deletes_sublist (region : string) (dropped : list OverlayEntry) :
  (OverlayEntry.path <$> omap (deleteOfSource input region) dropped) `sublist_of` (dropped ≫= sources_of).
Proof using Type.
  induction dropped as [|entry dropped IH]; [done|]. cbn. destruct (deleteOfSource input region entry) as [d|] eqn:Hd.
  - apply deleteOfSource_inv in Hd as (Hs & _). cbn. change (?x :: ?l) with ([x] ++ l). apply sublist_app; [|done].
    by apply singleton_sublist_l.
  - by apply sublist_inserts_l.
Qed.

(** The entries a recursive delete leaves: those outside the folder, a delete for each source outside it, and the delete of
    the folder. *)
Lemma delete_tree_keeps (path : string) (left : list OverlayEntry * Z) :
  delete_tree_entries sha256Hex input view path = inr left -> index_ok left.1.
Proof using Hok.
  intros H. unfold delete_tree_entries in H. judged_inv H. apply refuse_if_ok in Hg.
  set (dropped := List.filter (fun entry => isSameOrUnder (OverlayEntry.path entry) path) (in_entries input)) in H.
  set (kept := List.filter (fun entry => negb (isSameOrUnder (OverlayEntry.path entry) path)) (in_entries input)) in H.
  assert (index_ok kept) as Hkept by (apply (index_ok_sublist _ (in_entries input)); [apply filter_sublist|done]).
  assert (forall e, e ∈ kept <-> e ∈ in_entries input /\ isSameOrUnder (OverlayEntry.path e) path = false) as Hk.
  { intros e. unfold kept. rewrite !list_elem_of_In, filter_In, negb_true_iff. by rewrite <- list_elem_of_In. }
  assert (forall e, e ∈ dropped <-> e ∈ in_entries input /\ isSameOrUnder (OverlayEntry.path e) path = true) as Hdr.
  { intros e. unfold dropped. rewrite !list_elem_of_In, filter_In. by rewrite <- list_elem_of_In. }
  pose proof (sources_unique _ Hok) as Hsu.
  assert (NoDup (OverlayEntry.path <$> omap (deleteOfSource input path) dropped)) as Hnd.
  { eapply sublist_NoDup; [|apply source_deletes_sublist]. eapply sublist_NoDup; [exact Hsu|apply bind_sublist, filter_sublist]. }
  assert (forall d, d ∈ omap (deleteOfSource input path) dropped ->
    isSameOrUnder (OverlayEntry.path d) path = false /\ sources_of d = [] /\
    OverlayEntry.path d ∉ OverlayEntry.path <$> kept /\ OverlayEntry.path d ∉ kept ≫= sources_of) as Hds.
  { intros d (e & [He Hu]%Hdr & (Hs & Hr & Hn)%deleteOfSource_inv)%list_elem_of_omap. repeat split; try done.
    - intros (k & Hpk & [Hke _]%Hk)%list_elem_of_fmap. eapply (source_not_path _ e); [exact Hok|exact He|exact Hs|].
      rewrite Hpk. by apply list_elem_of_fmap_2.
    - intros (k & Hsk & [Hke Hku]%Hk)%list_elem_of_bind. assert (e = k) as -> by by eapply bind_same. congruence. }
  assert (path ∉ OverlayEntry.path <$> kept /\ path ∉ kept ≫= sources_of) as [Hp1 Hp2].
  { split.
    - intros (k & -> & [_ Hku]%Hk)%list_elem_of_fmap. by rewrite isSameOrUnder_refl in Hku.
    - intros (k & Hsk & [Hke Hku]%Hk)%list_elem_of_bind. pose proof (existsb_none _ _ _ Hg Hke) as Hm. unfold movesOut in Hm.
      rewrite Hku, andb_true_r in Hm. pose proof (existsb_none _ _ _ Hm Hsk) as Hf. cbn beta in Hf.
      by rewrite isSameOrUnder_refl in Hf. }
  destruct (negb _); [|judged_inv H]; injection H as <-; cbn; apply index_ok_app; try done.
  - intros d Hd. by apply Hds.
  - rewrite fmap_app. apply NoDup_app. repeat split; [done| |by apply NoDup_singleton].
    intros p (d & -> & Hd)%list_elem_of_fmap Hp%list_elem_of_singleton. apply Hds in Hd as [Hd _]. rewrite Hp in Hd. cbn in Hd.
    by rewrite isSameOrUnder_refl in Hd.
  - intros d [Hd| ->%list_elem_of_singleton]%elem_of_app; [by apply Hds|done].
Qed.

Lemma planDelete_keeps (path : string) (recursive ownerRole : bool) (ifMatchSha256 : string) (c : Changed) :
  planDelete sha256Hex input view path recursive ownerRole ifMatchSha256 = inr (plan_changed c) -> index_ok (Changed.entries c).
Proof using All.
  intros H. unfold planDelete in H. judged_inv H. destruct (lookup_node view path) as [node|] eqn:Hl; [|done]. judged_inv H.
  destruct (negb (bool_decide _)).
  { injection H as [-> _]%within_caps_inv. by eapply delete_leaf_keeps. }
  destruct (negb _ && _).
  { injection H as [-> _]%within_caps_inv. by eapply delete_empty_keeps. }
  judged_inv H. injection H as [-> _]%within_caps_inv. by eapply delete_tree_keeps.
Qed.

Lemma planMkdir_keeps (path : string) (c : Changed) :
  planMkdir sha256Hex input view path = inr (plan_changed c) -> index_ok (Changed.entries c).
Proof using All.
  intros H. unfold planMkdir in H. case_bool_decide; [done|]. judged_inv H. destruct (lookup_node view path).
  { case_bool_decide; [done|]. by judged_inv H. }
  judged_inv H. injection H as [-> _]%within_caps_inv. apply index_ok_snoc; cbn.
  - by apply without_ok.
  - apply path_without. left.
  - apply not_source_without. intros e He _ Hst. by eapply (requirePathFreeOfOtherEntries_ok _ _ _ _ Hview Hok).
  - by intros ? ?%elem_of_nil.
Qed.

(** The entry a moved file or link leaves takes its source from the entry that was there, or moves the path itself. *)
Lemma move_leaf_inv (source : EffectiveNode) (from to : string) (effectiveHash : option string) (entry : OverlayEntry) :
  move_leaf_entry input view source from to effectiveHash = Some entry ->
  OverlayEntry.path entry = to /\
  forall origin, origin ∈ sources_of entry ->
    origin = from \/ (origin <> to /\ exists existing, entryAt (in_entries input) from = Some existing /\ origin ∈ sources_of existing).
Proof using Type.
  unfold move_leaf_entry. case_bool_decide as Hst.
  2:{ intros [= <-]. split; [done|]. intros origin ->%list_elem_of_singleton. by left. }
  destruct (entryAt (in_entries input) from) as [existing|] eqn:Hat; cbn in *; [|done].
  destruct (OverlayEntry.op existing) as [p|d|mode|m] eqn:Hop; cbn.
  - destruct (PutEntry.from p) as [o|] eqn:Hf; [|destruct (PutEntry.base_sha256 p)].
    + case_bool_decide as Hto; [case_bool_decide; [done|]|].
      * intros [= <-]. split; [done|]. by intros ? ?%elem_of_nil.
      * intros [= <-]. split; [done|]. unfold sources_of. cbn. rewrite Hf. intros origin ->%list_elem_of_singleton.
        right. split; [done|]. exists existing. split; [done|]. rewrite Hop, Hf. left.
    + intros [= <-]. split; [done|]. intros origin ->%list_elem_of_singleton. by left.
    + intros [= <-]. split; [done|]. unfold sources_of. cbn. rewrite Hf. by intros ? ?%elem_of_nil.
  - intros [= <-]. split; [done|]. intros origin ->%list_elem_of_singleton. by left.
  - intros [= <-]. split; [done|]. intros origin ->%list_elem_of_singleton. by left.
  - case_bool_decide as Hto; [done|]. intros [= <-]. split; [done|]. intros origin ->%list_elem_of_singleton.
    right. split; [done|]. exists existing. split; [done|]. unfold sources_of. rewrite Hop. left.
Qed.

Lemma planMove_keeps (from to ifMatchSha256 : string) (c : Changed) :
  planMove sha256Hex input view from to ifMatchSha256 = inr (plan_changed c) -> index_ok (Changed.entries c).
Proof using All.
  intros H. unfold planMove in H. judged_inv H. destruct (lookup_node view from) as [source|] eqn:Hl; [|done]. judged_inv H.
  assert (from <> to) as Hne. { intros ->. rewrite Hl in Hg3. by judged_inv Hg3. }
  set (remainder := without (in_entries input) [from; to]) in H.
  assert (index_ok remainder) as Hr by by apply without_ok.
  assert (from ∉ remainder ≫= sources_of) as Hfrom by (eapply shown_not_source; [exact Hg2|left|exact Hl]).
  assert (to ∉ remainder ≫= sources_of) as Hto.
  { apply not_source_without. intros e He Hp Hst.
    eapply (requirePathFreeOfOtherEntries_ok _ _ _ _ Hview Hok); [exact Hg7| |exact He|exact Hst].
    apply list_elem_of_In, filter_In. rewrite <- list_elem_of_In, bool_decide_eq_true. set_solver. }
  assert (forall p, p ∈ [from; to] -> p ∉ OverlayEntry.path <$> remainder) as Hgone by (intros; by apply path_without).
  destruct (bool_decide (EffectiveNode.kind source = kind_directory)).
  - judged_inv H. injection H as [-> _]%within_caps_inv. cbn. apply index_ok_snoc; cbn; [done|apply Hgone; right; left|done|].
    intros s ->%list_elem_of_singleton. repeat split; [done|apply Hgone; left|done].
  - injection H as [-> _]%within_caps_inv. cbn. destruct (move_leaf_entry _ _ _ _ _ _) as [entry|] eqn:He; cbn; [|by rewrite app_nil_r].
    apply move_leaf_inv in He as [Hp Hs]. apply index_ok_snoc; rewrite ?Hp; [done|apply Hgone; right; left|done|].
    intros s [->|(Hst & e & He & Hse)]%Hs; [repeat split; [done|apply Hgone; left|done]|].
    apply entryAt_Some in He as [He Hpe]. repeat split; [done| |].
    + apply path_not_without. by eapply source_not_path.
    + eapply source_without; [done|exact He| |done]. rewrite Hpe. left.
Qed.

Lemma judge_keeps (c : Changed) : judge sha256Hex input view = inr (plan_changed c) -> index_ok (Changed.entries c).
Proof using All.
  unfold judge. destruct (request input); eauto using planPut_keeps, planDelete_keeps, planMove_keeps, planMkdir_keeps.
Qed.
End keeps.

(** ** The caps and the bound on walks *)

Lemma planOverlayChange_changed (sha256Hex : string -> string) (input : OverlayPlanInput) (c : Changed) :
  planOverlayChange sha256Hex input = inr (plan_changed c) ->
  exists view, createEffectiveView sha256Hex (in_snapshot input) (in_entries input) = inr view /\
    judge sha256Hex input view = inr (plan_changed c).
Proof.
  intros (view & Hv & H)%bind_ok. exists view. split; [done|].
  destruct (judge sha256Hex input view) as [[? ? ?|[]]|plan]; by simplify_eq.
Qed.

Lemma judge_caps (sha256Hex : string -> string) (input : OverlayPlanInput) (view : EffectiveView) (c : Changed) :
  judge sha256Hex input view = inr (plan_changed c) -> capsRefusal (Changed.entries c) = None.
Proof.
  unfold judge. destruct (request input) as [path hash size pre|path recursive owner m|from to m|path]; intros H.
  - unfold planPut in H. judged_inv H. case_bool_decide; [done|]. judged_inv H. by injection H as [-> ?]%within_caps_inv.
  - unfold planDelete in H. judged_inv H. destruct (lookup_node view path); [|done]. judged_inv H.
    destruct (negb (bool_decide _)); [by injection H as [-> ?]%within_caps_inv|].
    destruct (negb _ && _); [by injection H as [-> ?]%within_caps_inv|]. judged_inv H. by injection H as [-> ?]%within_caps_inv.
  - unfold planMove in H. judged_inv H. destruct (lookup_node view from); [|done]. judged_inv H.
    destruct (bool_decide (EffectiveNode.kind _ = kind_directory)); judged_inv H; by injection H as [-> ?]%within_caps_inv.
  - unfold planMkdir in H. case_bool_decide; [done|]. judged_inv H. destruct (lookup_node view path).
    + case_bool_decide; [done|]. by judged_inv H.
    + judged_inv H. by injection H as [-> ?]%within_caps_inv.
Qed.
