(* ===== verification/OverlayEffects.v ===== *)
(** * What a recorded change and an unchanged view look like

    Lemmas behind the theorems on the overlay: no change goes through a link, a recorded put is seen by the next view, a view
    in which nothing waits is the snapshot, and a judgement never runs out of its bounds. *)

From S2P Require Import Prelude Json LiveFiles Overlay OverlayPlan OverlayFacts OverlayKeeps.
Import EffectiveView.
#[local] Open Scope Z_scope.

(** ** Links *)

(** The directories above a path. *)
Inductive above : string -> string -> Prop :=
| above_here (path : string) : above path (dirname path)
| above_next (path ancestor : string) : above (dirname path) ancestor -> above path ancestor.

Lemma above_length (path ancestor : string) :
  above path ancestor -> 2 < utf16_length ancestor -> utf16_length ancestor < utf16_length path.
Proof.
  induction 1 as [path|path ancestor Ha IH]; intros H; [by apply dirname_utf16_length|].
  specialize (IH H). pose proof (dirname_utf16_length path ltac:(lia)). lia.
Qed.

(** The loop over the ancestors looks at every directory above the path, down to the root of the workspace. *)
Lemma refuse_linked_ok (fuel : nat) (view : EffectiveView) (start ancestor : string) :
  (String.length start <= fuel)%nat -> refuse_linked fuel view start = inr tt -> ancestor = start \/ above start ancestor ->
  utf16_length OVERLAY_WORKSPACE_ROOT < utf16_length ancestor -> kind_at view ancestor <> Some kind_symlink.
Proof.
  change (utf16_length OVERLAY_WORKSPACE_ROOT) with 10.
  revert start. induction fuel as [|fuel IH]; intros start Hlen H Ha Hroot.
  { destruct start; [|cbn in Hlen; lia]. destruct Ha as [->|Ha]; [cbn in Hroot; lia|]. apply above_length in Ha; cbn in *; lia. }
  cbn [refuse_linked] in H. change (utf16_length OVERLAY_WORKSPACE_ROOT) with 10 in H.
  destruct (bool_decide (start <> OVERLAY_WORKSPACE_ROOT)) eqn:Hb; cbn [andb] in H.
  2:{ apply bool_decide_eq_false, dec_stable in Hb as ->. exfalso. destruct Ha as [->|Ha]; [by vm_compute in Hroot|].
      apply above_length in Ha; [|lia]. change (utf16_length OVERLAY_WORKSPACE_ROOT) with 10 in Ha. lia. }
  destruct (Z.ltb_spec 10 (utf16_length start)) as [Hlong|Hshort].
  2:{ exfalso. destruct Ha as [->|Ha]; [lia|]. apply above_length in Ha; lia. }
  apply bind_ok in H as ([] & Hlink%refuse_if_ok & H). apply bool_decide_eq_false in Hlink.
  destruct Ha as [->|Ha]; [done|]. apply (IH (dirname start)); [|done| |done].
  - enough (2 < utf16_length (dirname start)) as Hd by (apply dirname_length in Hd; lia).
    inversion Ha as [|? ? Ha']; subst; [lia|]. apply above_length in Ha'; lia.
  - inversion Ha; subst; auto.
Qed.

Lemma requireUsableParent_ok (view : EffectiveView) (path : string) :
  requireUsableParent view path = inr tt ->
  kind_at view (dirname path) = Some kind_directory /\
  forall ancestor, above path ancestor -> utf16_length OVERLAY_WORKSPACE_ROOT < utf16_length ancestor ->
    kind_at view ancestor <> Some kind_symlink.
Proof.
  intros ([] & Hlinks & H)%bind_ok. split.
  - unfold kind_at. destruct (lookup_node view (dirname path)) as [node|]; [|done].
    apply refuse_if_ok, bool_decide_eq_false, dec_stable in H. cbn. by rewrite H.
  - intros ancestor Ha Hroot. eapply refuse_linked_ok; [|exact Hlinks| |exact Hroot]; [done|]. inversion Ha; subst; auto.
Qed.

(** The path a request makes or writes. *)
Definition written_path (r : OverlayChangeRequest) : option string :=
  match r with
  | request_put path _ _ _ | request_mkdir path => Some path
  | request_move _ to _ => Some to
  | request_delete _ _ _ _ => None
  end.

Lemma judge_parent (sha256Hex : string -> string) (input : OverlayPlanInput) (view : EffectiveView) (c : Changed) (path : string) :
  judge sha256Hex input view = inr (plan_changed c) -> written_path (request input) = Some path ->
  requireUsableParent view path = inr tt.
Proof.
  unfold judge. destruct (request input) as [p hash size pre|p recursive owner m|from to m|p]; cbn; intros H; intros [= <-].
  - unfold planPut in H. by judged_inv H.
  - unfold planMove in H. judged_inv H. destruct (lookup_node view from); [|done]. by judged_inv H.
  - unfold planMkdir in H. case_bool_decide; [done|]. judged_inv H. destruct (lookup_node view p).
    + case_bool_decide; [done|]. by judged_inv H.
    + by judged_inv H.
Qed.

(** ** The next view *)

Lemma shown_keys (sha256Hex : string -> string) (snap : OverlaySnapshotView) (entries : list OverlayEntry) :
  NoDup (OverlayEntry.path <$> entries) -> NoDup (shown_entries sha256Hex snap entries).*1.
Proof.
  intros Hnd. eapply sublist_NoDup; [exact Hnd|]. unfold shown_entries. rewrite <- list_fmap_compose. cbn.
  apply fmap_sublist. transitivity (pending_entries sha256Hex snap entries); apply filter_sublist.
Qed.

(** The merge fails only where the state of an entry does. *)
Lemma merge_entries_total (sha256Hex : string -> string) (v : EffectiveView) (entries : list OverlayEntry) :
  (forall entry, entry ∈ entries -> exists st, overlayEntryStateOf sha256Hex entry (snapshot v) = inr st) ->
  exists v', merge_entries sha256Hex v entries = inr v'.
Proof.
  revert v. induction entries as [|entry entries IH]; intros v H; cbn; [eauto|].
  destruct (H entry) as [st Hst]; [left|]. unfold merge_entry. rewrite Hst. cbn. apply IH.
  intros e He. destruct (H e) as [st' Hst']; [by right|]. exists st'.
  destruct st; cbn; try done. unfold merge_pending. cbn. repeat case_match; done.
Qed.

Section effects.
  Context (sha256Hex : string -> string) (snap : OverlaySnapshotView) (entries : list OverlayEntry) (view : EffectiveView)
    (Hview : createEffectiveView sha256Hex snap entries = inr view) (Hok : index_ok entries) (Hsnap : snapshot_ok snap)
    (Hlive : forall entry, entry ∈ entries -> live (OverlayEntry.path entry)).

Lemma pending_state (entry : OverlayEntry) :
  is_pending sha256Hex snap entry = true -> overlayEntryStateOf sha256Hex entry snap = inr pending.
Proof using Type. unfold is_pending. destruct (overlayEntryStateOf _ _ _) as [|[]]; done. Qed.

(** The entry that shows at a path. *)
Lemma map_get_pending (path : string) (entry : OverlayEntry) :
  map_get path (pendingAt view) = Some entry <->
  OverlayEntry.path entry = path /\ entry ∈ entries /\ is_pending sha256Hex snap entry = true /\ is_delete entry = false.
Proof using Hview Hok.
  destruct (createEffectiveView_view _ _ _ _ Hview (paths_unique _ Hok)) as (_ & Hp & _). rewrite Hp. split.
  - intros (-> & ? & ? & ?)%map_get_Some%elem_of_shown. done.
  - intros (<- & ? & ? & ?). apply map_get_elem; [by apply shown_keys, paths_unique|]. by apply elem_of_shown.
Qed.

Lemma same_path (e1 e2 : OverlayEntry) :
  e1 ∈ entries -> e2 ∈ entries -> OverlayEntry.path e1 = OverlayEntry.path e2 -> e1 = e2.
Proof using Hok.
  intros H1 H2 Heq. pose proof (paths_unique _ Hok) as Hnd.
  assert (forall l, OverlayEntry.path <$> l = l ≫= (fun e => [OverlayEntry.path e])) as Hb by (induction l; cbn; congruence).
  rewrite Hb in Hnd.
  eapply (bind_same (fun e => [OverlayEntry.path e])); [exact Hnd|done|done|left|]. rewrite Heq. left.
Qed.

Lemma entryAt_unique (entry : OverlayEntry) : entry ∈ entries -> entryAt entries (OverlayEntry.path entry) = Some entry.
Proof using Hok.
  intros He. destruct (entryAt entries _) as [e|] eqn:Ha.
  - apply entryAt_Some in Ha as [He' Hp]. f_equal. by apply same_path.
  - apply entryAt_None in Ha. destruct Ha. by apply list_elem_of_fmap_2.
Qed.

(** A path of the snapshot shows, unless an entry at it, an entry that moves it, or a pending change of a folder hides it. *)
Lemma not_hidden (paths : list string) (path : string) :
  requireNotBusy entries view paths = inr tt -> path ∈ paths -> is_Some (get snap path) ->
  (forall entry, entry ∈ entries -> is_pending sha256Hex snap entry = true ->
     path ∉ sources_of entry /\ (OverlayEntry.path entry = path -> is_delete entry = false)) ->
  isHidden view path = false.
Proof using All.
  intros Hb Hin [node Hnode] Hfree.
  destruct (createEffectiveView_view _ _ _ _ Hview (paths_unique _ Hok)) as (_ & _ & Hhl & Hhd & _ & _).
  unfold isHidden. rewrite Hhl, Hhd. apply orb_false_iff. split.
  - apply bool_decide_eq_false. intros (e & Hl & [He Hp]%elem_of_pending)%elem_of_list_to_set%list_elem_of_bind.
    destruct (Hfree e He Hp) as [Hs Hd]. unfold hides_leaves, sources_of, is_delete in *.
    destruct (OverlayEntry.op e) as [p|d|mode|m]; [by destruct (PutEntry.from p)| |by apply elem_of_nil in Hl|].
    + destruct (DeleteEntry.directory d); [by apply elem_of_nil in Hl|]. apply list_elem_of_singleton in Hl as ->. by specialize (Hd eq_refl).
    + destruct (MoveEntry.directory m); [by apply elem_of_nil in Hl|done].
  - destruct (existsb _ _) eqn:Hex; [|done]. apply existsb_exists in Hex as (f & Hf%list_elem_of_In & Hu).
    apply list_elem_of_bind in Hf as (e & Hf & [He Hp]%elem_of_pending). destruct (Hfree e He Hp) as [Hs Hd].
    pose proof (requireNotBusy_ok _ _ _ _ Hview Hok _ e path Hb Hin He Hp) as Hnb.
    apply pending_state in Hp. unfold hides_folders, is_delete, overlayEntryStateOf in *.
    destruct (OverlayEntry.op e) as [p|d|mode|m]; try by apply elem_of_nil in Hf.
    + destruct (DeleteEntry.directory d) eqn:Hdir; [|by apply elem_of_nil in Hf]. apply list_elem_of_singleton in Hf as ->.
      destruct (DeleteEntry.recursive d) eqn:Hr; [rewrite Hnb in Hu by done; done|].
      unfold delete_state in Hp. destruct (get snap (OverlayEntry.path e)) as [n|] eqn:Hg; [|done].
      rewrite Hdir, Hr, (node_path _ Hsnap _ _ (Hlive _ He) Hg) in Hp. repeat case_match; try done.
      apply orb_true_iff in Hu as [Hu%bool_decide_eq_true|Hu]; [by specialize (Hd (eq_sym Hu))|].
      exfalso. eapply (folder_holds _ Hsnap path node _ (Hlive _ He)); eauto.
    + destruct (MoveEntry.directory m) eqn:Hdir; [|by apply elem_of_nil in Hf]. apply list_elem_of_singleton in Hf as ->.
      destruct (Hnb eq_refl) as [_ H]. congruence.
Qed.

End effects.

(** ** A recorded put *)

Lemma put_state_fresh (sha256Hex : string -> string) (snap : OverlaySnapshotView) (entry : OverlayEntry) (p : PutEntry) :
  OverlayEntry.conflict entry = None ->
  comparableHash sha256Hex (get snap (OverlayEntry.path entry)) = PutEntry.base_sha256 p ->
  (forall from, PutEntry.from p = Some from -> comparableHash sha256Hex (get snap from) = PutEntry.from_sha256 p) ->
  put_state sha256Hex snap entry p <> conflict.
Proof.
  intros Hc Hb Hf. unfold put_state. case_bool_decide; [done|]. rewrite bool_decide_false by naive_solver.
  destruct (PutEntry.from p); [|done]. rewrite bool_decide_false; naive_solver.
Qed.

(** A file or link that is as its move keeps it. *)
Lemma matchesKept_leaf (sha256Hex : string -> string) (snap : OverlaySnapshotView) (m : MoveEntry) (node : SnapshotNode) :
  matchesKept sha256Hex snap m node = inr true -> MoveEntry.directory m = false ->
  comparableHash sha256Hex (Some node) = MoveEntry.sha256 m.
Proof.
  unfold matchesKept, hashOfSnapshotNode, comparableHash, is_directory. intros H Hm. rewrite Hm in H.
  case_bool_decide as Hd; [|done]. destruct (SnapshotNode.kind node); cbn in H; [|done|];
    injection H as H; by apply bool_decide_eq_true in H.
Qed.

Lemma pending_move (sha256Hex : string -> string) (snap : OverlaySnapshotView) (entry : OverlayEntry) (m : MoveEntry) :
  OverlayEntry.op entry = op_move m -> is_pending sha256Hex snap entry = true ->
  get snap (OverlayEntry.path entry) = None /\
  exists source, get snap (MoveEntry.from m) = Some source /\ matchesKept sha256Hex snap m source = inr true.
Proof.
  intros Hop Hp%pending_state. unfold overlayEntryStateOf in Hp. rewrite Hop in Hp. unfold move_state in Hp.
  destruct (get snap (MoveEntry.from m)) as [source|], (get snap (OverlayEntry.path entry)) as [target|]; cbn in Hp;
    try (case_bool_decide; done).
  - case_bool_decide; [done|]. split; [done|]. exists source. split; [done|].
    destruct (matchesKept _ _ _ _) as [|[]]; done.
  - destruct (matchesKept _ _ _ _) as [|[]]; cbn in Hp; [done|done|]. case_bool_decide; done.
Qed.

Lemma pending_put (sha256Hex : string -> string) (snap : OverlaySnapshotView) (entry : OverlayEntry) (p : PutEntry) :
  OverlayEntry.op entry = op_put p -> is_pending sha256Hex snap entry = true ->
  comparableHash sha256Hex (get snap (OverlayEntry.path entry)) = PutEntry.base_sha256 p /\
  forall from, PutEntry.from p = Some from -> comparableHash sha256Hex (get snap from) = PutEntry.from_sha256 p.
Proof.
  intros Hop Hp%pending_state. unfold overlayEntryStateOf in Hp. rewrite Hop in Hp. injection Hp as Hp. unfold put_state in Hp.
  case_bool_decide; [done|]. case_bool_decide as Hb; [done|].
  split; [apply dec_stable; tauto|].
  intros from Hf. rewrite Hf in Hp. case_bool_decide as Hfs; [done|]. apply dec_stable; tauto.
Qed.

Section put.
  Context (sha256Hex : string -> string) (input : OverlayPlanInput) (view : EffectiveView)
    (Hview : createEffectiveView sha256Hex (in_snapshot input) (in_entries input) = inr view) (Hok : index_ok (in_entries input))
    (Hsnap : snapshot_ok (in_snapshot input)) (Hlive : forall entry, entry ∈ in_entries input -> live (OverlayEntry.path entry)).

(** Where the snapshot holds a folder that is to be written over, the view would show it. *)
Lemma folder_shows (path : string) (node : SnapshotNode) :
  requireNotBusy (in_entries input) view [path] = inr tt ->
  get (in_snapshot input) path = Some node -> is_directory node = true ->
  map_get path (pendingAt view) = None ->
  (forall entry, entry ∈ in_entries input -> is_pending sha256Hex (in_snapshot input) entry = true ->
     path ∉ sources_of entry /\ (OverlayEntry.path entry = path -> is_delete entry = false)) ->
  kind_at view path = Some kind_directory.
Proof using All.
  intros Hb Hn Hd Hg Hfree. unfold kind_at, lookup_node. rewrite Hg.
  rewrite (not_translated _ _ _ _ Hview Hok [path] path Hb) by left.
  rewrite (not_hidden _ _ _ _ Hview Hok Hsnap Hlive [path] path Hb) by first [left|by rewrite Hn|done].
  destruct (createEffectiveView_view _ _ _ _ Hview (paths_unique _ Hok)) as (-> & _). rewrite Hn.
  unfold is_directory in Hd. apply bool_decide_eq_true in Hd. case_match; cbn; by rewrite Hd.
Qed.

(** The state of the entry at a path, as the view has it. *)
Lemma state_at_pending (path : string) (existing : OverlayEntry) :
  entryAt (in_entries input) path = Some existing ->
  state_at view (Some existing) path = Some pending <-> is_pending sha256Hex (in_snapshot input) existing = true.
Proof using Hview Hok. intros [He <-]%entryAt_Some. by apply (state_pending _ _ _ _ Hview Hok). Qed.

Lemma pending_at_entry (path : string) (existing : OverlayEntry) :
  entryAt (in_entries input) path = Some existing -> is_pending sha256Hex (in_snapshot input) existing = true ->
  is_delete existing = false -> map_get path (pendingAt view) = Some existing.
Proof using Hview Hok. intros [He <-]%entryAt_Some Hp Hd. by apply (map_get_pending _ _ _ _ Hview Hok). Qed.

(** An entry at the path that is neither a pending put nor a pending move leaves the snapshot's hash as the base. *)
Lemma snapshot_base (path : string) :
  requireNotBusy (in_entries input) view [path] = inr tt ->
  requirePathFreeOfOtherEntries
    (List.filter (fun entry => bool_decide (OverlayEntry.path entry <> path)) (in_entries input)) view path = inr tt ->
  kind_at view path <> Some kind_directory ->
  is_pending_folder_delete (entryAt (in_entries input) path) (state_at view (entryAt (in_entries input) path) path) = false ->
  map_get path (pendingAt view) = None ->
  comparableHash sha256Hex (get (in_snapshot input) path) = get (in_snapshot input) path ≫= hashOfLeafNode sha256Hex.
Proof using All.
  intros Hb Hfree Hk Hfd Hg. destruct (get (in_snapshot input) path) as [node|] eqn:Hn; [|done]. cbn.
  destruct (is_directory node) eqn:Hd; [|unfold is_directory in Hd; by destruct (SnapshotNode.kind node)].
  destruct Hk. apply (folder_shows path node); try done. intros e He Hp. split.
  - destruct (decide (OverlayEntry.path e = path)) as [<-|Hne].
    + intros Hs. apply (source_not_path _ _ _ Hok He Hs). by apply list_elem_of_fmap_2.
    + eapply (requirePathFreeOfOtherEntries_ok _ _ _ _ Hview Hok); [exact Hfree| |exact He|exact Hp].
      apply list_elem_of_In, filter_In. rewrite <- list_elem_of_In, bool_decide_eq_true. done.
  - intros <-. destruct (is_delete e) eqn:Hde; [|done]. exfalso. rewrite (entryAt_unique _ Hok e He) in Hfd.
    pose proof (proj2 (state_pending _ _ _ _ Hview Hok e He) Hp) as Hst. unfold is_delete, is_pending_folder_delete in *. cbn in Hfd.
    apply pending_state in Hp. unfold overlayEntryStateOf in Hp. destruct (OverlayEntry.op e) as [|d| |]; try done.
    cbn in Hfd. rewrite Hst, bool_decide_true, andb_true_r in Hfd by done.
    unfold delete_state in Hp. rewrite Hn, Hfd, Hd in Hp. repeat case_match; done.
Qed.

Lemma put_entry_parts (path sha256 : string) (size : Z) :
  exists base from from_sha256 mode,
    put_origin (entryAt (in_entries input) path) (state_at view (entryAt (in_entries input) path) path)
      (get (in_snapshot input) path ≫= hashOfLeafNode sha256Hex) = (base, from, from_sha256) /\
    put_entry sha256Hex input view path sha256 size =
      stamp input path (op_put (PutEntry.mk sha256 size mode base from from_sha256)) (revisionAfter (entryAt (in_entries input) path)).
Proof using Type. unfold put_entry. destruct (put_origin _ _ _) as [[base from] from_sha256]. by exists base, from, from_sha256; eexists. Qed.

Lemma map_get_entryAt (path : string) (entry : OverlayEntry) :
  map_get path (pendingAt view) = Some entry ->
  entryAt (in_entries input) path = Some entry /\ is_pending sha256Hex (in_snapshot input) entry = true /\ is_delete entry = false.
Proof using Hview Hok.
  intros (<- & He & Hp & Hd)%(map_get_pending _ _ _ _ Hview Hok). by rewrite (entryAt_unique _ Hok).
Qed.

(** What shows at the path of a pending entry that is a folder. *)
Lemma pending_folder_shows (path : string) (entry : OverlayEntry) :
  map_get path (pendingAt view) = Some entry ->
  match OverlayEntry.op entry with op_mkdir _ => True | op_move m => MoveEntry.directory m = true | _ => False end ->
  kind_at view path = Some kind_directory.
Proof using Type.
  intros Hg Hf. unfold kind_at, lookup_node. rewrite Hg. unfold nodeOfEntry.
  destruct (OverlayEntry.op entry) as [| | |m]; try done. by rewrite Hf.
Qed.

(** The base and the source of the new entry are what the snapshot holds. *)
Lemma put_origin_holds (path : string) (base from from_sha256 : option string) :
  requireNotBusy (in_entries input) view [path] = inr tt ->
  requirePathFreeOfOtherEntries
    (List.filter (fun entry => bool_decide (OverlayEntry.path entry <> path)) (in_entries input)) view path = inr tt ->
  kind_at view path <> Some kind_directory ->
  is_pending_folder_delete (entryAt (in_entries input) path) (state_at view (entryAt (in_entries input) path) path) = false ->
  put_origin (entryAt (in_entries input) path) (state_at view (entryAt (in_entries input) path) path)
    (get (in_snapshot input) path ≫= hashOfLeafNode sha256Hex) = (base, from, from_sha256) ->
  comparableHash sha256Hex (get (in_snapshot input) path) = base /\
  forall f, from = Some f -> comparableHash sha256Hex (get (in_snapshot input) f) = from_sha256.
Proof using All.
  intros Hb Hfree Hk Hfd Ho. pose proof (snapshot_base path Hb Hfree Hk Hfd) as Hsb.
  destruct (map_get path (pendingAt view)) as [e|] eqn:Hg.
  - pose proof (map_get_entryAt _ _ Hg) as (Hat & Hp & Hd). rewrite Hat in Ho. unfold put_origin in Ho. cbn in Ho.
    pose proof (proj2 (state_at_pending _ _ Hat) Hp) as Hst. cbn in Hst. rewrite Hst, bool_decide_true in Ho by done.
    apply entryAt_Some in Hat as [_ Hpath]. unfold is_delete in Hd.
    destruct (OverlayEntry.op e) as [p|d|mode|m] eqn:Hop; [|done|destruct Hk; apply (pending_folder_shows _ _ Hg); by rewrite Hop|].
    + injection Ho as <- <- <-. apply (pending_put _ _ _ _ Hop) in Hp. by rewrite Hpath in Hp.
    + injection Ho as <- <- <-. destruct (MoveEntry.directory m) eqn:Hm; [destruct Hk; apply (pending_folder_shows _ _ Hg); by rewrite Hop|].
      apply (pending_move _ _ _ _ Hop) in Hp as (Ht & source & Hs & Hmk). rewrite Hpath in Ht. split; [by rewrite Ht|].
      intros f [= <-]. rewrite Hs. by eapply matchesKept_leaf.
  - specialize (Hsb eq_refl). enough (base = get (in_snapshot input) path ≫= hashOfLeafNode sha256Hex /\ from = None) as [-> ->] by done.
    destruct (entryAt (in_entries input) path) as [e|] eqn:Hat; unfold put_origin in Ho; cbn in Ho; [|by injection Ho as <- <- <-].
    destruct (OverlayEntry.op e) eqn:Hop; try by injection Ho as <- <- <-.
    all: case_bool_decide as Hst; [exfalso|by injection Ho as <- <- <-].
    all: apply (state_at_pending _ _ Hat) in Hst; apply (pending_at_entry _ _ Hat) in Hst; [congruence|].
    all: unfold is_delete; by rewrite Hop.
Qed.

(** The entry of a recorded put is not in conflict with the snapshot it was judged against. *)
Lemma put_not_conflict (path sha256 : string) (size : Z) (precondition : Precondition) (c : Changed) :
  planPut sha256Hex input view path sha256 size precondition = inr (plan_changed c) ->
  Changed.entries c = without (in_entries input) [path] ++ [put_entry sha256Hex input view path sha256 size] /\
  exists st, overlayEntryStateOf sha256Hex (put_entry sha256Hex input view path sha256 size) (in_snapshot input) = inr st /\ st <> conflict.
Proof using All.
  intros H. unfold planPut in H. judged_inv H. case_bool_decide; [done|]. judged_inv H. injection H as [-> _]%within_caps_inv.
  split; [done|]. apply refuse_if_ok, bool_decide_eq_false in Hg4. apply refuse_if_ok in Hg7.
  destruct (put_entry_parts path sha256 size) as (base & from & from_sha & mode & Ho & ->). eexists. split; [done|].
  destruct (put_origin_holds path base from from_sha Hg1 Hg8 Hg4 Hg7 Ho) as [Hbase Hfrom]. by apply put_state_fresh.
Qed.

(** The next view shows it. *)
Lemma put_seen (path sha256 : string) (size : Z) (precondition : Precondition) (c : Changed) :
  planPut sha256Hex input view path sha256 size precondition = inr (plan_changed c) ->
  exists view' st, createEffectiveView sha256Hex (in_snapshot input) (Changed.entries c) = inr view' /\ states view' !! path = Some st /\
    match st with
    | pending =>
        exists node, lookup_node view' path = Some node /\ EffectiveNode.kind node = kind_file /\
          EffectiveNode.sha256 node = Some sha256 /\ EffectiveNode.size node = Some size
    | applied => comparableHash sha256Hex (get (in_snapshot input) path) = Some sha256
    | conflict => False
    end.
Proof using All.
  intros (Hc & st & Hst & Hne)%put_not_conflict. set (e := put_entry _ _ _ _ _ _) in *.
  destruct (createEffectiveView_view _ _ _ _ Hview (paths_unique _ Hok)) as (_ & _ & _ & _ & _ & Hold).
  destruct (merge_entries_total sha256Hex (mk (in_snapshot input) ∅ [] ∅ ∅ [] []) (Changed.entries c)) as [view' Hv'].
  { rewrite Hc. intros x [[Hx _]%elem_of_without| ->%list_elem_of_singleton]%elem_of_app; [|by exists st].
    destruct (Hold x Hx) as (st' & ? & _). by exists st'. }
  assert (NoDup (OverlayEntry.path <$> Changed.entries c)) as Hnd.
  { rewrite Hc, fmap_app. apply NoDup_app. repeat split; [by apply paths_unique, without_ok| |by apply NoDup_singleton].
    intros p Hp ->%list_elem_of_singleton. revert Hp. subst e. rewrite put_path. apply path_without. left. }
  assert (e ∈ Changed.entries c) as Hin by (rewrite Hc; apply elem_of_app; right; left).
  assert (OverlayEntry.path e = path) as Hpath by apply put_path.
  destruct (createEffectiveView_view _ _ _ _ Hv' Hnd) as (Hs & Hp & _ & _ & _ & Hnew).
  destruct (Hnew e Hin) as (st' & Hst' & Hat). rewrite Hst in Hst'. injection Hst' as <-. rewrite Hpath in Hat.
  exists view', st. split; [done|]. split; [done|].
  destruct (put_entry_parts path sha256 size) as (base & from & from_sha & mode & _ & He). fold e in He.
  destruct st; [| |done].
  - unfold lookup_node. rewrite Hp, (map_get_elem path e).
    + rewrite He. cbn. eexists. by repeat split.
    + by apply shown_keys.
    + apply elem_of_shown. unfold is_pending, is_delete. rewrite Hst, Hpath. repeat split; [done|]. by rewrite He.
  - rewrite He in Hst. cbn in Hst. injection Hst as Hst. unfold put_state in Hst. cbn in Hst. case_bool_decide; [done|].
    repeat case_match; done.
Qed.
End put.

(** ** A view in which nothing waits *)

Lemma isSameOrUnder_child (directory root name : string) :
  isSameOrUnder directory root = true -> isSameOrUnder (directory +:+ "/" +:+ name) root = true.
Proof.
  unfold isSameOrUnder, isStrictlyUnder. intros [->%bool_decide_eq_true|Hu]%orb_true_iff; apply orb_true_iff; right.
  - rewrite <- string_app_assoc. apply starts_with_app.
  - apply starts_with_inv in Hu as [t ->]. rewrite string_app_assoc. apply starts_with_app.
Qed.

Lemma foldl_same {A B : Type} (f g : A -> B -> A) (a : A) (l : list B) :
  (forall a x, x ∈ l -> f a x = g a x) -> foldl f a l = foldl g a l.
Proof.
  revert a. induction l as [|x l IH]; intros a H; cbn; [done|]. rewrite H by left. apply IH. intros b y Hy. apply H. by right.
Qed.

Lemma foldl_set_fresh {A : Type} (node_of : A -> EffectiveNode) (found : list (string * EffectiveNode)) (l : list A) :
  NoDup (EffectiveNode.name <$> (node_of <$> l)) -> (forall x, x ∈ l -> EffectiveNode.name (node_of x) ∉ found.*1) ->
  foldl (fun found x => set_node found (Some (node_of x))) found l =
  found ++ ((fun x => (EffectiveNode.name (node_of x), node_of x)) <$> l).
Proof.
  revert found. induction l as [|x l IH]; intros found Hnd Hfresh; cbn; [by rewrite app_nil_r|].
  cbn in Hnd. apply NoDup_cons in Hnd as [Hx Hnd]. rewrite map_set_fresh by (apply Hfresh; left).
  rewrite IH, <- app_assoc; [done|done|]. intros y Hy. rewrite fmap_app. apply not_elem_of_app. split; [apply Hfresh; by right|].
  intros Heq%list_elem_of_singleton. apply Hx. cbn in Heq. rewrite <- Heq. by do 2 apply list_elem_of_fmap_2.
Qed.

Section quiet.
  Context (sha256Hex : string -> string) (snap : OverlaySnapshotView) (entries : list OverlayEntry) (view : EffectiveView)
    (Hview : createEffectiveView sha256Hex snap entries = inr view) (Hok : index_ok entries) (Hsnap : snapshot_ok snap)
    (Hquiet : forall entry, entry ∈ entries -> is_pending sha256Hex snap entry = false).

(** How the view marks a path whose entry is in conflict. *)
Definition conflict_mark (path : string) : OverlayMark * option string :=
  match conflictAt view !! path with
  | None => (mark_none, None)
  | Some entry => (mark_conflict, match OverlayEntry.op entry with op_put p => Some (PutEntry.sha256 p) | _ => None end)
  end.

Definition marked (node : SnapshotNode) (path : string) : EffectiveNode :=
  nodeOfSnapshot node path (conflict_mark path).1 (conflict_mark path).2.

Lemma quiet_view : snapshot view = snap /\ pendingAt view = [] /\ hiddenLeaves view = ∅ /\ hiddenDirectories view = [] /\ movedDirectories view = [].
Proof using Hview Hok Hquiet.
  assert (pending_entries sha256Hex snap entries = []) as Hn.
  { destruct (pending_entries sha256Hex snap entries) as [|e l] eqn:Hp; [done|]. exfalso.
    assert (e ∈ pending_entries sha256Hex snap entries) as [He Hpe]%elem_of_pending by (rewrite Hp; left).
    rewrite Hquiet in Hpe by done. done. }
  destruct (createEffectiveView_view _ _ _ _ Hview (paths_unique _ Hok)) as (? & Hp & Hl & Hd & Hm & _).
  unfold shown_entries in Hp. rewrite Hn in Hp, Hl, Hd, Hm. done.
Qed.

Lemma quiet_lookup (path : string) : lookup_node view path = (fun node => marked node path) <$> get snap path.
Proof using Hview Hok Hquiet.
  destruct quiet_view as (Hs & Hp & Hl & Hd & Hm). unfold lookup_node, translated, isHidden, marked, conflict_mark.
  rewrite Hp, Hm, Hl, Hd, Hs. cbn. destruct (get snap path); [|done]. cbn. by destruct (conflictAt view !! path).
Qed.

Lemma quiet_children (directory : string) :
  isSameOrUnder directory OVERLAY_WORKSPACE_ROOT = true ->
  allChildren view directory = (fun child => marked child (SnapshotNode.path child)) <$> children snap directory.
Proof using All.
  intros Hd. destruct quiet_view as (Hs & Hp & Hl & Hdir & Hm). unfold allChildren, children_base, translated, isHidden.
  rewrite Hp, Hm, Hl, Hdir, Hs. cbn. rewrite bool_decide_false by set_solver. cbn.
  assert (forall child, child ∈ children snap directory ->
    lookup_node view (directory +:+ "/" +:+ basename (SnapshotNode.path child)) = Some (marked child (SnapshotNode.path child))) as Hlk.
  { intros child Hc. destruct (child_path _ Hsnap _ _ Hd Hc) as [Hpath Hget]. by rewrite <- Hpath, quiet_lookup, Hget. }
  rewrite (foldl_same _ (fun found child => set_node found (Some (marked child (SnapshotNode.path child)))))
    by (intros ? ? Hc; by rewrite Hlk).
  rewrite foldl_set_fresh; cbn.
  - rewrite <- list_fmap_compose. done.
  - rewrite <- list_fmap_compose. by apply (child_names _ Hsnap).
  - by intros ? ? ?%elem_of_nil.
Qed.

Lemma quiet_walk_children (visit visit' : string -> list LiveTreeDescendant -> walk_error + list LiveTreeDescendant) (root : string)
    (l : list SnapshotNode) (found : list LiveTreeDescendant) :
  (forall child found, child ∈ l -> visit (SnapshotNode.path child) found = visit' (SnapshotNode.path child) found) ->
  walk_children EffectiveNode.path root describe_effective visit ((fun child => marked child (SnapshotNode.path child)) <$> l) found =
  walk_children SnapshotNode.path root describe_node visit' l found.
Proof using Type.
  revert found. induction l as [|child l IH]; intros found Hvis; [done|]. cbn [fmap list_fmap walk_children].
  destruct (_ <=? _)%nat; [done|].
  assert (forall f, walk_children EffectiveNode.path root describe_effective visit
      ((fun child => marked child (SnapshotNode.path child)) <$> l) f =
    walk_children SnapshotNode.path root describe_node visit' l f) as Hrest by (intros f; apply IH; intros; apply Hvis; by right).
  change (EffectiveNode.path (marked child (SnapshotNode.path child))) with (SnapshotNode.path child).
  assert (forall r, describe_effective r (marked child (SnapshotNode.path child)) = describe_node r child) as ->.
  { intros r. unfold describe_effective, describe_node. cbn. by destruct (SnapshotNode.kind child). }
  unfold describe_node. destruct (SnapshotNode.kind child); cbn; [apply Hrest| |apply Hrest].
  rewrite Hvis by left. destruct (visit' _ _); cbn; [done|apply Hrest].
Qed.

Lemma quiet_walk (fuel : nat) (root path : string) (found : list LiveTreeDescendant) :
  isSameOrUnder path OVERLAY_WORKSPACE_ROOT = true ->
  walk (allChildren view) EffectiveNode.path root describe_effective fuel path found =
  walk (children snap) SnapshotNode.path root describe_node fuel path found.
Proof using All.
  revert path found. induction fuel as [|fuel IH]; intros path found Hu; cbn [walk]; [done|].
  rewrite quiet_children by done. apply quiet_walk_children. intros child f Hc. apply IH.
  destruct (child_path _ Hsnap _ _ Hu Hc) as [-> _]. by apply isSameOrUnder_child.
Qed.

Lemma quiet_hash (path : string) :
  isSameOrUnder path OVERLAY_WORKSPACE_ROOT = true ->
  hashOf sha256Hex view path =
  match get snap path with None => inr None | Some node => hashOfSnapshotNode sha256Hex snap node end.
Proof using All.
  intros Hu. unfold hashOf, hashOfSnapshotNode, snapshotTreeHash, snapshotDescendants, descendants. rewrite quiet_lookup.
  destruct (get snap path) as [node|] eqn:Hn; cbn; [|done]. unfold hashOfLeafNode.
  rewrite (node_path _ Hsnap _ _ Hu Hn). destruct (SnapshotNode.kind node); [done| |done].
  unfold walk_tree. rewrite quiet_walk by done. by destruct (walk _ _ _ _ (S _) _ _).
Qed.
End quiet.

(** ** Judgements end *)

Definition no_fuel {A : Type} (m : judged A) : Prop := m <> inl (walk_failed walk_fuel).

Lemma no_fuel_bind {A B : Type} (m : judged A) (k : A -> judged B) : no_fuel m -> (forall x, no_fuel (k x)) -> no_fuel (m ≫= k).
Proof. destruct m as [e|x]; cbn; intros H Hk; [|apply Hk]. intros [= ->]. by apply H. Qed.

Lemma no_fuel_ret {A : Type} (x : A) : no_fuel (inr x).
Proof. done. Qed.

Lemma no_fuel_refused {A : Type} code message current : @no_fuel A (inl (Refused code message current)).
Proof. done. Qed.

Lemma no_fuel_refuse_if test code message current : no_fuel (refuse_if test code message current).
Proof. by destruct test. Qed.

Lemma no_fuel_tree {A : Type} (m : walk_error + A) : never_fuel m -> no_fuel (tree m).
Proof. destruct m as [[]|]; cbn; intros H; [done|by destruct H|done]. Qed.

Create HintDb fuel.
#[export] Hint Resolve no_fuel_bind no_fuel_ret no_fuel_refused no_fuel_refuse_if no_fuel_tree hashOf_fuel snapshotTreeHash_fuel : fuel.

(** Walk through a judgement, bind by bind. *)
Ltac no_fuel :=
  repeat first [progress cbn beta zeta | apply no_fuel_bind; [|intros] | solve [auto with fuel] | case_match].

Lemma refuse_linked_fuel fuel view ancestor : no_fuel (refuse_linked fuel view ancestor).
Proof. revert ancestor. induction fuel as [|fuel IH]; intros ancestor; cbn [refuse_linked]; no_fuel. Qed.
#[export] Hint Resolve refuse_linked_fuel : fuel.

Lemma descendants_fuel view path : never_fuel (descendants view path).
Proof. apply walk_enough. Qed.
#[export] Hint Resolve descendants_fuel : fuel.

Lemma judge_fuel (sha256Hex : string -> string) (input : OverlayPlanInput) (view : EffectiveView) : no_fuel (judge sha256Hex input view).
Proof.
  unfold judge, planPut, planDelete, planMove, planMkdir, delete_tree_entries, requireOrdinaryPath, requireNotBusy,
    requirePathFreeOfOtherEntries, requireNoEntryInside. no_fuel.
Qed.
