(* ===== verification/OverlayTheorems.v ===== *)
(** * Theorems on the edit overlay

    What a member's change does to the overlay of a computer that is off: the index stays as its schema wants it and within
    its caps, a change takes effect on what it was judged against, and the judgement ends. The last part shows what an entry
    in conflict does to the index. *)

From S2P Require Import Prelude Json LiveFiles Overlay OverlayPlan OverlayFacts OverlayKeeps OverlayEffects.
Import EffectiveView.
#[local] Open Scope Z_scope.

(** ** The index *)


(** ** What a change is judged against *)

(** The test a recorded change has passed: the version the member saw is the one that shows, and a folder that is not empty is
    deleted only recursively and by an owner. *)
Definition preconditions_met (sha256Hex : string -> string) (view : EffectiveView) (r : OverlayChangeRequest) : Prop :=
  match r with
  | request_put path _ _ (if_match expected) => lookup_node view path ≫= EffectiveNode.sha256 = Some expected
  | request_put path _ _ if_none_match => lookup_node view path = None
  | request_delete path recursive ownerRole expected =>
      hashOf sha256Hex view path = inr (Some expected) /\
      (kind_at view path = Some kind_directory -> allChildren view path <> [] -> recursive = true /\ ownerRole = true)
  | request_move from to expected => hashOf sha256Hex view from = inr (Some expected) /\ lookup_node view to = None
  | request_mkdir path => lookup_node view path = None
  end.

Lemma tree_ok {A : Type} (m : walk_error + A) (x : A) : tree m = inr x -> m = inr x.
Proof. destruct m; by intros [= ->]. Qed.

Lemma listed_none (view : EffectiveView) (path : string) :
  (0 <? length (fst (list_directory view path 1)))%nat = false -> allChildren view path = [].
Proof.
  unfold list_directory. cbn [fst]. intros H%Nat.ltb_ge. rewrite length_take, length_stable_sort in H.
  destruct (allChildren view path); [done|cbn in H; lia].
Qed.

(** C17: no change is recorded over a version the member has not seen: a put replaces the file with the hash it names or creates
    what is not there, a delete and a move take the hash they name, a move and a mkdir go where nothing is, and a folder that is
    not empty is deleted only recursively and by an owner of the organization. *)
Theorem recorded_change_met_preconditions (sha256Hex : string -> string) (input : OverlayPlanInput) (c : Changed) :
  planOverlayChange sha256Hex input = inr (plan_changed c) ->
  exists view, createEffectiveView sha256Hex (in_snapshot input) (in_entries input) = inr view /\
    preconditions_met sha256Hex view (request input).
Proof.
  intros (view & Hv & H)%planOverlayChange_changed. exists view. split; [done|]. unfold judge in H.
  destruct (request input) as [path hash size [expected|]|path recursive owner m|from to m|path]; cbn [preconditions_met].
  - unfold planPut in H. judged_inv H. by apply refuse_if_ok, bool_decide_eq_false, dec_stable in Hg6.
  - unfold planPut in H. judged_inv H. apply refuse_if_ok, bool_decide_eq_false in Hg6. by apply eq_None_not_Some.
  - unfold planDelete, kind_at in *. judged_inv H. destruct (lookup_node view path) as [node|]; [|done]. judged_inv H.
    apply refuse_if_ok, bool_decide_eq_false, dec_stable in Hg4. apply tree_ok in Hg3. subst. split; [done|].
    cbn. intros [= Hk] Hne. apply refuse_if_ok in Hg1, Hg2. rewrite bool_decide_true in Hg1, Hg2 by done. cbn [andb] in Hg1, Hg2.
    destruct (0 <? length (fst (list_directory view path 1)))%nat eqn:Hl; [|by apply listed_none in Hl].
    by destruct recursive, owner.
  - unfold planMove in H. judged_inv H. destruct (lookup_node view from) as [source|]; [|done]. judged_inv H.
    apply refuse_if_ok, bool_decide_eq_false, dec_stable in Hg6. apply tree_ok in Hg5. subst. split; [done|].
    destruct (lookup_node view to); [|done]. by judged_inv Hg3.
  - unfold planMkdir in H. case_bool_decide; [done|]. judged_inv H. destruct (lookup_node view path); [|done].
    case_bool_decide; [done|]. by judged_inv H.
Qed.

(** no change is made through a link: where a recorded put, move or mkdir writes, the parent shows as a folder and no
    directory above it, below the root of the workspace, shows as a symbolic link. *)
Theorem no_change_through_link (sha256Hex : string -> string) (input : OverlayPlanInput) (c : Changed) (path : string) :
  planOverlayChange sha256Hex input = inr (plan_changed c) -> written_path (request input) = Some path ->
  exists view, createEffectiveView sha256Hex (in_snapshot input) (in_entries input) = inr view /\
    kind_at view (dirname path) = Some kind_directory /\
    forall ancestor, above path ancestor -> utf16_length OVERLAY_WORKSPACE_ROOT < utf16_length ancestor ->
      kind_at view ancestor <> Some kind_symlink.
Proof.
  intros (view & Hv & H)%planOverlayChange_changed Hp. exists view. split; [done|].
  by eapply requireUsableParent_ok, judge_parent.
Qed.

(** a recorded put takes effect: against the same snapshot the new entry is not in conflict, and the next view shows the
    written file with its hash and size at the path, unless the snapshot already holds that hash there. *)
Theorem recorded_put_takes_effect (sha256Hex : string -> string) (input : OverlayPlanInput) (c : Changed) (path sha256 : string)
    (size : Z) (precondition : Precondition) :
  snapshot_ok (in_snapshot input) -> overlayIndex_refinements (in_entries input) = true ->
  (forall entry, entry ∈ in_entries input -> live (OverlayEntry.path entry)) ->
  request input = request_put path sha256 size precondition ->
  planOverlayChange sha256Hex input = inr (plan_changed c) ->
  exists view st, createEffectiveView sha256Hex (in_snapshot input) (Changed.entries c) = inr view /\ states view !! path = Some st /\
    match st with
    | pending =>
        exists node, lookup_node view path = Some node /\ EffectiveNode.kind node = kind_file /\
          EffectiveNode.sha256 node = Some sha256 /\ EffectiveNode.size node = Some size
    | applied => comparableHash sha256Hex (get (in_snapshot input) path) = Some sha256
    | conflict => False
    end.
Proof.
  intros Hs (_ & Hok & _)%overlayIndex_refinements_iff Hlive Hr (view & Hv & Hj)%planOverlayChange_changed.
  unfold judge in Hj. rewrite Hr in Hj. by eapply put_seen.
Qed.

(** C18: an overlay in which nothing waits shows the snapshot: every path looks up to the snapshot's node, marked where an entry
    is in conflict, and every path of the workspace, folders included, has the snapshot's hash. *)
Theorem quiet_view_is_snapshot (sha256Hex : string -> string) (snap : OverlaySnapshotView) (entries : list OverlayEntry) (view : EffectiveView) :
  createEffectiveView sha256Hex snap entries = inr view -> overlayIndex_refinements entries = true -> snapshot_ok snap ->
  (forall entry, entry ∈ entries -> overlayEntryStateOf sha256Hex entry snap <> inr pending) ->
  (forall path, lookup_node view path = (fun node => marked view node path) <$> get snap path) /\
  (forall path, live path ->
     hashOf sha256Hex view path = match get snap path with None => inr None | Some node => hashOfSnapshotNode sha256Hex snap node end).
Proof.
  intros Hv (_ & Hok & _)%overlayIndex_refinements_iff Hs Hq.
  assert (forall entry, entry ∈ entries -> is_pending sha256Hex snap entry = false) as Hq'.
  { intros e He. specialize (Hq e He). unfold is_pending. destruct (overlayEntryStateOf _ _ _) as [|[]]; done. }
  split; [by eapply quiet_lookup|by eapply quiet_hash].
Qed.

(** C19: the judgement of a change ends with a plan. The bounds of the walks are never reached; the one error that is left is that
    the state of an entry already in the overlay needs the hash of a tree that is too large. *)
Theorem planOverlayChange_ends (sha256Hex : string -> string) (input : OverlayPlanInput) :
  match createEffectiveView sha256Hex (in_snapshot input) (in_entries input) with
  | inl e => planOverlayChange sha256Hex input = inl e /\ e = OverlayTreeTooLargeError
  | inr _ => exists plan, planOverlayChange sha256Hex input = inr plan
  end.
Proof.
  unfold planOverlayChange. pose proof (merge_entries_fuel sha256Hex (mk (in_snapshot input) ∅ [] ∅ ∅ [] []) (in_entries input)) as Hm.
  fold (createEffectiveView sha256Hex (in_snapshot input) (in_entries input)) in Hm.
  destruct (createEffectiveView _ _ _) as [[]|view]; cbn; [done|by destruct Hm|].
  pose proof (judge_fuel sha256Hex input view) as Hj. destruct (judge _ _ _) as [[? ? ?|[]]|plan]; eauto. by destruct Hj.
Qed.

(** ** Concrete overlays *)

Definition demo_hash (s : string) : string := s.

Definition pack_entry (path : string) (kind : SnapshotEntryKind) (sha256 : option string) : SnapshotIndexEntry :=
  SnapshotIndexEntry.mk path kind 3 436 0 sha256 None None None.

(** A workspace with a file, a folder and a file in it. *)
Definition demo_pack : list SnapshotIndexEntry :=
  [pack_entry "workspace" kind_directory None; pack_entry "workspace/a.txt" kind_file (Some "aa");
   pack_entry "workspace/d" kind_directory None; pack_entry "workspace/d/b.txt" kind_file (Some "bb")].

Definition demo_snapshot : OverlaySnapshotView := snapshotViewOfIndex (Some (loadedIndexOf demo_pack)).

Definition demo_input (entries : list OverlayEntry) (r : OverlayChangeRequest) : OverlayPlanInput :=
  mkInput demo_snapshot entries r "user-1" "2026-01-01T00:00:00Z".

Definition demo_put : OverlayChangeRequest := request_put "/workspace/d/b.txt" "cc" 4 (if_match "bb").
Definition demo_delete : OverlayChangeRequest :=
  request_delete "/workspace/d" true true (treeHashOf demo_hash [tree_file "b.txt" 3]).

(** The pending move of the file to another name. *)
Definition demo_move (conflict : option OverlayConflict) : OverlayEntry :=
  OverlayEntry.mk "/workspace/z.txt" (op_move (MoveEntry.mk "/workspace/a.txt" false (Some "aa") None 3 "664")) "user-1"
    "2026-01-01T00:00:00Z" 1 conflict.

Definition changed_of (input : OverlayPlanInput) : option Changed :=
  match planOverlayChange demo_hash input with inr (plan_changed c) => Some c | _ => None end.

Lemma changed_of_plan (input : OverlayPlanInput) (c : Changed) :
  changed_of input = Some c -> planOverlayChange demo_hash input = inr (plan_changed c).
Proof. unfold changed_of. destruct (planOverlayChange _ _) as [|[]]; congruence. Qed.

(** The change a demo request leaves. *)
Definition demo_changed (input : OverlayPlanInput) : Changed :=
  default (Changed.mk [] "" false None None false 0) (changed_of input).

Lemma demo_changed_plan (input : OverlayPlanInput) :
  bool_decide (is_Some (changed_of input)) = true -> planOverlayChange demo_hash input = inr (plan_changed (demo_changed input)).
Proof.
  intros [c Hc]%bool_decide_eq_true. unfold demo_changed. rewrite Hc. by apply changed_of_plan.
Qed.

Lemma demo_pack_ok : pack_ok demo_pack.
Proof. apply (bool_decide_eq_true_1 (pack_ok demo_pack)). by vm_compute. Qed.

Lemma demo_move_waits (entry : OverlayEntry) :
  entry ∈ [demo_move None] -> overlayEntryStateOf demo_hash entry demo_snapshot = inr pending /\ live (OverlayEntry.path entry).
Proof. intros ->%list_elem_of_singleton. by vm_compute. Qed.


Lemma recorded_change_met_preconditions_witness :
  exists view, createEffectiveView demo_hash demo_snapshot [] = inr view /\ preconditions_met demo_hash view demo_delete.
Proof.
  apply (recorded_change_met_preconditions demo_hash (demo_input [] demo_delete) (demo_changed (demo_input [] demo_delete))).
  apply demo_changed_plan. by vm_compute.
Defined.

Lemma no_change_through_link_witness :
  exists view, createEffectiveView demo_hash demo_snapshot [] = inr view /\ kind_at view "/workspace/d" = Some kind_directory /\
    forall ancestor, above "/workspace/d/b.txt" ancestor -> utf16_length OVERLAY_WORKSPACE_ROOT < utf16_length ancestor ->
      kind_at view ancestor <> Some kind_symlink.
Proof.
  apply (no_change_through_link demo_hash (demo_input [] demo_put) (demo_changed (demo_input [] demo_put)) "/workspace/d/b.txt"); [|done].
  apply demo_changed_plan. by vm_compute.
Defined.

Lemma recorded_put_takes_effect_witness :
  exists view st, createEffectiveView demo_hash demo_snapshot (Changed.entries (demo_changed (demo_input [demo_move None] demo_put))) = inr view /\
    states view !! "/workspace/d/b.txt" = Some st /\
    match st with
    | pending =>
        exists node, lookup_node view "/workspace/d/b.txt" = Some node /\ EffectiveNode.kind node = kind_file /\
          EffectiveNode.sha256 node = Some "cc" /\ EffectiveNode.size node = Some 4
    | applied => comparableHash demo_hash (get demo_snapshot "/workspace/d/b.txt") = Some "cc"
    | conflict => False
    end.
Proof.
  apply (recorded_put_takes_effect demo_hash (demo_input [demo_move None] demo_put) (demo_changed (demo_input [demo_move None] demo_put)) "/workspace/d/b.txt" "cc" 4 (if_match "bb")).
  - exact (loaded_snapshot_ok demo_pack demo_pack_ok).
  - by vm_compute.
  - intros e He. by apply demo_move_waits.
  - done.
  - apply demo_changed_plan. by vm_compute.
Defined.

Definition demo_conflict : OverlayConflict := mkConflict collision None "2026-01-01T00:00:00Z".

Definition demo_quiet_view : EffectiveView :=
  match createEffectiveView demo_hash demo_snapshot [demo_move (Some demo_conflict)] with inr view => view | inl _ => mk demo_snapshot ∅ [] ∅ ∅ [] [] end.

Lemma quiet_view_is_snapshot_witness :
  hashOf demo_hash demo_quiet_view "/workspace/d" = inr (Some (treeHashOf demo_hash [tree_file "b.txt" 3])).
Proof.
  etransitivity.
  - apply (quiet_view_is_snapshot demo_hash demo_snapshot [demo_move (Some demo_conflict)] demo_quiet_view).
    + reflexivity.
    + by vm_compute.
    + exact (loaded_snapshot_ok demo_pack demo_pack_ok).
    + intros e ->%list_elem_of_singleton. by vm_compute.
    + by vm_compute.
  - by vm_compute.
Defined.

(** ** An entry in conflict *)

Definition demo_overwrite : OverlayPlanInput :=
  demo_input [demo_move (Some demo_conflict)] (request_put "/workspace/a.txt" "cc" 4 (if_match "aa")).

(** an index that the schema accepts becomes one that it refuses: with a move in conflict from a path, that path shows, and a
    put at it is recorded beside the move, whose source is then also an entry. Every later read of the index fails. *)
Theorem put_at_conflicted_source_breaks_index :
  overlayIndex_refinements (in_entries demo_overwrite) = true /\
  exists c, planOverlayChange demo_hash demo_overwrite = inr (plan_changed c) /\ overlayIndex_refinements (Changed.entries c) = false.
Proof.
  split; [by vm_compute|]. exists (demo_changed demo_overwrite). split; [apply demo_changed_plan|]; by vm_compute.
Qed.

(** A folder that grew past the limit after a recursive delete of it was recorded. *)
Definition grown_snapshot : OverlaySnapshotView :=
  mkSnapshotView
    (fun path => Some (SnapshotNode.mk path kind_directory 0 509 0 None None))
    (fun path => if bool_decide (path = "/workspace/d") then replicate 5001 (SnapshotNode.mk "/workspace/d/f" kind_file 0 436 0 (Some "ff") None) else []).

Definition grown_input : OverlayPlanInput :=
  mkInput grown_snapshot
    [OverlayEntry.mk "/workspace/d" (op_delete (DeleteEntry.mk true true None (Some "tt"))) "user-1" "2026-01-01T00:00:00Z" 1 None]
    (request_mkdir "/workspace/e") "user-1" "2026-01-01T00:00:00Z".

(** The judgement of a change at an unrelated path then throws instead of answering [too_many_entries]. *)
Theorem grown_folder_error_escapes : planOverlayChange demo_hash grown_input = inl OverlayTreeTooLargeError.
Proof. by vm_compute. Qed.
