(* ===== verification/Interaction.v ===== *)
(** * Programs that call services

    An [async] function awaits one call after another; between two calls other processes act. A [program] is the tree of its
    calls and of what it does with each answer, for any type of calls [request] and any type of errors [error]. [exec] runs it
    in a world that a service answers from and that others change. *)

From S2P Require Import Prelude.

Section programs.
  Context {request : Type -> Type} {error : Type}.

#[warnings="-register-all"]
Inductive program (A : Type) : Type :=
| Return (a : A)
| Raise (e : error)
| Call {R : Type} (r : request R) (k : error + R -> program A).
#[global] Arguments Return {A} a.
#[global] Arguments Raise {A} e.
#[global] Arguments Call {A R} r k.

#[global] Instance program_ret : MRet program := fun A a => Return a.

Fixpoint program_bind_ {A B : Type} (f : A -> program B) (p : program A) : program B :=
  match p with
  | Return a => f a
  | Raise e => Raise e
  | Call r k => Call r (fun x => program_bind_ f (k x))
  end.
#[global] Instance program_bind : MBind program := @program_bind_.

(** [try { p } catch (error) { h(error) }]. *)
Fixpoint rescue {A : Type} (p : program A) (h : error -> program A) : program A :=
  match p with
  | Return a => Return a
  | Raise e => h e
  | Call r k => Call r (fun x => rescue (k x) h)
  end.

(** [await call]. *)
Definition call {R : Type} (r : request R) : program R := Call r (fun x => match x with inl e => Raise e | inr v => Return v end).

(** [for (const a of l) await body(a)]. *)
Definition for_all {A : Type} (body : A -> program unit) (l : list A) : program unit :=
  foldr (fun a rest => body a ≫= fun _ => rest) (Return tt) l.
End programs.
Arguments program request error A : clear implicits.

(** ** Execution under interference *)

Section exec.
  Context {request : Type -> Type} {error world : Type} (respond : forall R, request R -> world -> error + R -> world -> Prop)
    (interference : world -> world -> Prop).

Abbreviation others := (rtc interference).

(** [exec p w o w']: started in [w], the program ends with outcome [o] in [w'], others acting before each call and at the end. *)
Fixpoint exec {A : Type} (p : program request error A) (w : world) (o : error + A) (w' : world) : Prop :=
  match p with
  | Return a => o = inr a /\ others w w'
  | Raise e => o = inl e /\ others w w'
  | Call r k => exists w1 x w2, others w w1 /\ respond _ r w1 x w2 /\ exec (k x) w2 o w'
  end.

Lemma exec_after_others {A : Type} (p : program request error A) (w w1 : world) (o : error + A) (w' : world) :
  others w w1 -> exec p w1 o w' -> exec p w o w'.
Proof using Type.
  intros Hw. destruct p as [a|e|R r k]; cbn; [intros [-> ?]; split; [done|]; by trans w1..|].
  intros (w2 & x & w3 & ? & ? & ?). exists w2, x, w3. split; [by trans w1|done].
Qed.

Lemma program_exec_bind {A B : Type} (p : program request error A) (f : A -> program request error B) (w : world) (o : error + B) (w' : world) :
  exec (p ≫= f) w o w' ->
  (exists a w1, exec p w (inr a) w1 /\ exec (f a) w1 o w') \/ (exists e, o = inl e /\ exec p w (inl e) w').
Proof using Type.
  revert w. induction p as [a|e|R r k IH]; intros w H.
  - left. exists a, w. split; [by split|done].
  - destruct H as [-> ?]. right. by exists e.
  - destruct H as (w1 & x & w2 & ? & ? & [(a & w3 & ? & ?)|(e & -> & ?)]%IH).
    + left. exists a, w3. split; [by exists w1, x, w2|done].
    + right. exists e. split; [done|by exists w1, x, w2].
Qed.

Lemma exec_bind_inr {A B : Type} (p : program request error A) (f : A -> program request error B) (w : world) (b : B) (w' : world) :
  exec (p ≫= f) w (inr b) w' -> exists a w1, exec p w (inr a) w1 /\ exec (f a) w1 (inr b) w'.
Proof using Type. intros [H|(? & [=] & _)]%program_exec_bind. done. Qed.

Lemma exec_rescue {A : Type} (p : program request error A) (h : error -> program request error A) (w : world) (o : error + A) (w' : world) :
  exec (rescue p h) w o w' ->
  (exists a, o = inr a /\ exec p w (inr a) w') \/ (exists e w1, exec p w (inl e) w1 /\ exec (h e) w1 o w').
Proof using Type.
  revert w. induction p as [a|e|R r k IH]; intros w H.
  - destruct H as [-> ?]. left. by exists a.
  - right. exists e, w. split; [by split|done].
  - destruct H as (w1 & x & w2 & ? & ? & [(a & -> & ?)|(e & w3 & ? & ?)]%IH).
    + left. exists a. split; [done|by exists w1, x, w2].
    + right. exists e, w3. split; [by exists w1, x, w2|done].
Qed.

Lemma exec_call {R : Type} (r : request R) (w : world) (o : error + R) (w' : world) :
  exec (call r) w o w' -> exists w1 w2, others w w1 /\ respond _ r w1 o w2 /\ others w2 w'.
Proof using Type. intros (w1 & [e|v] & w2 & ? & ? & [-> ?]); by exists w1, w2. Qed.

(** A relation that every call and every other process keeps to. *)
Lemma exec_keeps {A : Type} (P : world -> world -> Prop) (p : program request error A) (w : world) (o : error + A) (w' : world) :
  Reflexive P -> Transitive P -> (forall w1 w2, interference w1 w2 -> P w1 w2) ->
  (forall R (r : request R) w1 x w2, respond _ r w1 x w2 -> P w1 w2) -> exec p w o w' -> P w w'.
Proof using Type.
  intros Hr Ht Hi Hc. assert (forall w1 w2, others w1 w2 -> P w1 w2) as Ho by (induction 1; [done|etrans; eauto]).
  revert w. induction p as [a|e|R r k IH]; intros w; cbn; [intros [_ ?]; by apply Ho..|].
  intros (w1 & x & w2 & ? & ? & ?). trans w1; [by apply Ho|]. trans w2; [by eapply Hc|]. by eapply IH.
Qed.
End exec.

(** ** What holds throughout a program *)

Section through.
  Context {request : Type -> Type} {error world : Type} (respond : forall R, request R -> world -> error + R -> world -> Prop)
    (interference : world -> world -> Prop) (P : world -> Prop) (others_keep : forall w w', interference w w' -> P w -> P w').

(** [P] holds in the end, whatever the outcome, and a result satisfies [Q]. *)
Definition through {A : Type} (p : program request error A) (Q : A -> Prop) : Prop :=
  forall w o w', P w -> exec respond interference p w o w' -> P w' /\ match o with inr a => Q a | inl _ => True end.

Lemma through_others (w w' : world) : rtc interference w w' -> P w -> P w'.
Proof using others_keep. induction 1; eauto. Qed.

Lemma through_return {A : Type} (a : A) (Q : A -> Prop) : Q a -> through (mret a) Q.
Proof using others_keep. intros HQ w o w' HP [-> Ho]. split; [by eapply through_others|done]. Qed.

Lemma through_raise {A : Type} (e : error) (Q : A -> Prop) : through (Raise e) Q.
Proof using others_keep. intros w o w' HP [-> Ho]. split; [by eapply through_others|done]. Qed.

Lemma through_call {R : Type} (r : request R) (Q : R -> Prop) :
  (forall w x w', P w -> respond R r w x w' -> P w' /\ match x with inr v => Q v | inl _ => True end) -> through (call r) Q.
Proof using others_keep.
  intros Hr w o w' HP (w1 & w2 & H1 & Hc & H2)%exec_call. destruct (Hr w1 o w2) as [HP2 HQ]; [by eapply through_others|done|].
  split; [by eapply through_others|done].
Qed.

Lemma through_bind {A B : Type} (p : program request error A) (f : A -> program request error B) (Q : A -> Prop) (R : B -> Prop) :
  through p Q -> (forall a, Q a -> through (f a) R) -> through (p ≫= f) R.
Proof using Type.
  intros Hp Hf w o w' HP [(a & w1 & H1 & H2)|(e & -> & H)]%program_exec_bind.
  - destruct (Hp _ _ _ HP H1) as [HP1 Ha]. by eapply Hf.
  - by destruct (Hp _ _ _ HP H).
Qed.

Lemma through_rescue {A : Type} (p : program request error A) (h : error -> program request error A) (Q : A -> Prop) :
  through p Q -> (forall e, through (h e) Q) -> through (rescue p h) Q.
Proof using Type.
  intros Hp Hh w o w' HP [(a & -> & H)|(e & w1 & H1 & H2)]%exec_rescue; [exact (Hp _ _ _ HP H)|].
  destruct (Hp _ _ _ HP H1) as [HP1 _]. exact (Hh e _ _ _ HP1 H2).
Qed.
End through.

(** ** Running on a deterministic service *)

Section run.
  Context {request : Type -> Type} {error world : Type} (respond : forall R, request R -> world -> error + R -> world -> Prop)
    (handler : forall R, request R -> world -> (error + R) * world)
    (handler_ok : forall R (r : request R) w, respond R r w (handler R r w).1 (handler R r w).2).

Fixpoint run_program {A : Type} (p : program request error A) (w : world) : (error + A) * world :=
  match p with
  | Return a => (inr a, w)
  | Raise e => (inl e, w)
  | Call r k => let '(x, w') := handler _ r w in run_program (k x) w'
  end.

Lemma run_program_exec {A : Type} (interference : world -> world -> Prop) (p : program request error A) (w : world) :
  exec respond interference p w (run_program p w).1 (run_program p w).2.
Proof using handler_ok.
  revert w. induction p as [a|e|R r k IH]; intros w; cbn [run_program exec]; [split; [done|apply rtc_refl]..|].
  pose proof (handler_ok R r w) as Hc. destruct (handler R r w) as [x w'].
  exists w, x, w'. split; [apply rtc_refl|]. split; [done|apply IH].
Qed.
End run.
