(* ===== verification/OverlayService.v ===== *)
(** * The edit overlay service

    Models [src/conversation/src/domain/edit-overlay.ts] and the contract of [src/conversation/src/snapshot/overlay-store.ts]:
    what the Front Door does with the edits a member makes while the computer is off, and what it does for the owner that takes
    them over. The overlay of a computer is one index, replaced only by compare-and-swap, and one blob per edited content.

    The stored text of an index stands for the index it was serialized from; a stored text that is no index is [text_body]. An
    entity tag is an answer of the store: [etag_of] is any function that tells bodies apart. The snapshot reader
    ([loadOverlaySnapshotView]) is one call, as are the clock, the source of identifiers and the audit trail. A failed call may
    or may not have had its effect. *)

From S2P Require Import Prelude Json Dates Computers LiveFiles Overlay OverlayPlan Interaction.
#[local] Open Scope Z_scope.

(** ** Data *)

Module Seal.
Record OverlaySeal : Type := mk { owner_id : string; generation : Z; sealed_at : string; snapshot_generation : Z }.
End Seal.
Abbreviation OverlaySeal := Seal.OverlaySeal.

Module Index.
Record OverlayIndex : Type := mk { version : Z; sealed : option OverlaySeal; entries : list OverlayEntry }.
End Index.
Abbreviation OverlayIndex := Index.OverlayIndex.

Definition OVERLAY_CAS_ATTEMPTS : nat := 3.
Definition OVERLAY_SEAL_RETRY_AFTER_MILLISECONDS : Z := 2000.
Definition OVERLAY_STOPPING_RETRY_AFTER_MILLISECONDS : Z := 5000.
Definition OVERLAY_INDEX_OBJECT : string := "overlay/index.json".
Definition overlayBlobObject (sha256 : string) : string := "overlay/blobs/" +:+ sha256.

Inductive stored_body : Type := index_body (index : OverlayIndex) | text_body (text : string).

Definition OverlayLocation : Type := string * string.

Inductive OverlayDomainRefusalCode : Type :=
| algebra_code (code : OverlayRefusalCode)
| computer_starting | computer_stopping | content_too_large | audit_unavailable | overlay_unavailable | overlay_contended
| snapshot_not_indexed | corrupt_snapshot.

Inductive overlay_exn : Type :=
| EditOverlayRefusal (code : OverlayDomainRefusalCode) (message : string) (currentSha256 : option (option string)) (retryAfterMs : option Z)
| OwnerRefusal (code message : string)
| ComputerNotFoundError (message : string)
| TreeTooLarge (e : walk_error)
| StoreError (name : string).

(** A refusal without a hash or a retry time. *)
Definition refusal (code : OverlayDomainRefusalCode) (message : string) : overlay_exn := EditOverlayRefusal code message None None.

(** The code of an audit record: that of a refusal, or ["failed"] for any other error. *)
Inductive AuditErrorCode : Type := code_of (code : OverlayDomainRefusalCode) | code_failed.

Inductive OverlayAuditOperation : Type := audit_write | audit_create | audit_discard | audit_apply | audit_delete | audit_move | audit_mkdir.
Inductive OverlayAuditOutcome : Type := outcome_pending | outcome_ok | outcome_conflict | outcome_refused | outcome_failed | outcome_unknown.

Module Audit.
Record OverlayAuditRecord : Type := mk {
  operationId : string;
  tenantId : string;
  computerId : string;
  userId : string;
  operation : OverlayAuditOperation;
  path : string;
  toPath : option string;
  recursive : option bool;
  ownerId : option string;
  outcome : OverlayAuditOutcome;
  errorCode : option AuditErrorCode;
  sha256Before : option (option string);
  sha256After : option string;
  treeSha256Before : option string;
  bytes : option Z;
  secretName : option bool;
  at_ : string;
}.
End Audit.
Abbreviation OverlayAuditRecord := Audit.OverlayAuditRecord.

Record OverlayAuditFinish : Type := mkFinish {
  finish_outcome : OverlayAuditOutcome;
  finish_errorCode : option AuditErrorCode;
  finish_removed : option Z;
  finishedAt : string;
}.

Inductive OverlayMemberChange : Type :=
| member_put (path content : string) (precondition : Precondition)
| member_delete (path : string) (recursive ownerRole : bool) (ifMatchSha256 : string)
| member_move (from to ifMatchSha256 : string)
| member_mkdir (path : string).

Module Outcome.
Record OverlayChangeOutcome : Type := mk {
  operationId : option string;
  changed : bool;
  path : string;
  created : bool;
  directory : bool;
  sha256 : option string;
  previousSha256 : option string;
  size : option Z;
  revision : option Z;
  removed : Z;
  modifiedAt : string;
}.
End Outcome.
Abbreviation OverlayChangeOutcome := Outcome.OverlayChangeOutcome.

Record OwnerIdentity : Type := mkOwner { owner_tenantId : string; owner_ownerId : string; owner_startGeneration : Z }.

Record OverlayEntryReference : Type := mkReference { ref_path : string; ref_revision : Z }.
Record ConflictReference : Type := mkConflictReference {
  conflict_entry : OverlayEntryReference;
  conflict_why : conflict_reason;
  conflict_disk_sha256 : option string;
}.

(** ** Names that look like secrets *)

Definition ends_with (suffix s : string) : bool := starts_with (reverse_string suffix EmptyString) (reverse_string s EmptyString).

(** A line terminator, which [.] of a pattern does not match: a line feed, a carriage return, U+2028 or U+2029. *)
Fixpoint has_line_terminator (s : string) : bool :=
  match s with
  | EmptyString => false
  | String c s' =>
      (code c =? 10) || (code c =? 13) ||
      match s with
      | String a (String b (String d _)) => (code a =? 226) && (code b =? 128) && ((code d =? 168) || (code d =? 169))
      | _ => false
      end || has_line_terminator s'
  end.

(** What is left of a text after a prefix. *)
Fixpoint after_prefix (prefix s : string) : option string :=
  match prefix, s with
  | EmptyString, _ => Some s
  | String c prefix', String d s' => if bool_decide (c = d) then after_prefix prefix' s' else None
  | _, EmptyString => None
  end.

(** The patterns of names. *)
Definition secret_name (name : string) : bool :=
  bool_decide (name ∈ [".env"; "credentials"; ".netrc"; ".npmrc"; ".git-credentials"]) ||
  match after_prefix ".env." name with Some rest => negb (bool_decide (rest = EmptyString)) && negb (has_line_terminator rest) | None => false end ||
  ends_with ".pem" name || ends_with ".key" name || ends_with ".p12" name || ends_with ".pfx" name ||
  starts_with "id_rsa" name || starts_with "id_ed25519" name.

(** [toLowerCase] is that of the language, on all of Unicode. *)
Definition looksLikeSecretFile (toLowerCase : string -> string) (path : string) : bool :=
  let segments := split_char slash (toLowerCase path) in
  if existsb (fun segment => bool_decide (segment ∈ [".ssh"; ".aws"])) (removelast segments) then true
  else secret_name (default EmptyString (last segments)).

(** ** What the schema of an index checks *)

Definition is_identifier (s : string) : bool := (1 <=? utf16_length s) && (utf16_length s <=? 256).

Fixpoint all_chars (p : Ascii.ascii -> bool) (s : string) : bool :=
  match s with EmptyString => true | String c s' => p c && all_chars p s' end.

Definition in_chars (low high : Z) (c : Ascii.ascii) : bool := (low <=? code c) && (code c <=? high).

(** [/^[0-9a-f]{64}$/]. *)
Definition is_sha256Hex (s : string) : bool :=
  (String.length s =? 64)%nat && all_chars (fun c => in_chars 48 57 c || in_chars 97 102 c) s.

(** [/^[0-7]{3,4}$/]. *)
Definition is_mode (s : string) : bool :=
  ((String.length s =? 3)%nat || (String.length s =? 4)%nat) && all_chars (in_chars 48 55) s.

Definition is_livePath (s : string) : bool := bool_decide (livePathProblem s = None).

(** [schema.nullable()]. *)
Definition nullable (p : string -> bool) (s : option string) : bool := match s with None => true | Some s => p s end.

Section schema.
  (** [z.iso.datetime()]. *)
  Context (timestamp : string -> bool).

Definition overlayConflictSchema (c : OverlayConflict) : bool := nullable is_sha256Hex (disk_sha256 c) && timestamp (found_at c).

Definition overlayEntrySchema (entry : OverlayEntry) : bool :=
  is_livePath (OverlayEntry.path entry) && is_identifier (OverlayEntry.edited_by entry) && timestamp (OverlayEntry.edited_at entry) &&
  (0 <? OverlayEntry.revision entry) &&
  match OverlayEntry.conflict entry with None => true | Some c => overlayConflictSchema c end &&
  match OverlayEntry.op entry with
  | op_put p =>
      is_sha256Hex (PutEntry.sha256 p) && (0 <=? PutEntry.size p) && (PutEntry.size p <=? 262144) && is_mode (PutEntry.mode p) &&
      nullable is_sha256Hex (PutEntry.base_sha256 p) && nullable is_livePath (PutEntry.from p) &&
      nullable is_sha256Hex (PutEntry.from_sha256 p)
  | op_delete d => nullable is_sha256Hex (DeleteEntry.base_sha256 d) && nullable is_sha256Hex (DeleteEntry.tree_sha256 d)
  | op_mkdir mode => is_mode mode
  | op_move m =>
      is_livePath (MoveEntry.from m) && nullable is_sha256Hex (MoveEntry.sha256 m) && nullable is_sha256Hex (MoveEntry.tree_sha256 m) &&
      (0 <=? MoveEntry.size m) && is_mode (MoveEntry.mode m)
  end.

Definition overlaySealSchema (s : OverlaySeal) : bool :=
  is_identifier (Seal.owner_id s) && (0 <? Seal.generation s) && timestamp (Seal.sealed_at s) && (0 <=? Seal.snapshot_generation s).

Definition overlayIndexSchema (index : OverlayIndex) : bool :=
  (Index.version index =? OVERLAY_INDEX_VERSION) &&
  match Index.sealed index with None => true | Some s => overlaySealSchema s end &&
  forallb overlayEntrySchema (Index.entries index) && overlayIndex_refinements (Index.entries index).
End schema.

(** ** Calls *)

Section calls.
  Context {etag : Type}.

#[warnings="-register-all"]
Inductive overlay_call : Type -> Type :=
| GetComputer (tenantId : string) : overlay_call (option Computer)
| GetWorker (tenantId workerId : string) : overlay_call (option Worker)
| GetObject (location : OverlayLocation) (key : string) : overlay_call (option (stored_body * etag))
| PutIfAbsent (location : OverlayLocation) (key : string) (body : stored_body) : overlay_call bool
| PutIfMatch (location : OverlayLocation) (key : string) (body : stored_body) (tag : etag) : overlay_call bool
| DeleteObject (location : OverlayLocation) (key : string) : overlay_call unit
| LoadSnapshot (location : OverlayLocation) : overlay_call OverlaySnapshotView
| AuditBegin (record : OverlayAuditRecord) : overlay_call unit
| AuditFinish (operationId : string) (finish : OverlayAuditFinish) : overlay_call unit
| Now : overlay_call Z
| NextId : overlay_call string.
End calls.
Arguments overlay_call etag _ : clear implicits.

(** ** Operations *)

Section service.
  Context {etag : Type} (timestamp : string -> bool) (sha256Hex toLowerCase : string -> string)
    (heartbeatTimeoutSeconds : Z).

Abbreviation prog := (program (overlay_call etag) overlay_exn).

Definition locationOf (computer : Computer) : OverlayLocation := (Computer.tenantId computer, Computer.computerId computer).

Definition requireComputer (tenantId : string) : prog Computer :=
  computer ← call (GetComputer tenantId);
  match computer with
  | None => Raise (ComputerNotFoundError ("Organization " +:+ tenantId +:+ " has no computer."))
  | Some computer => mret computer
  end.

Definition storeCall {A : Type} (run : prog A) : prog A :=
  rescue run (fun e => match e with
    | EditOverlayRefusal _ _ _ _ | OwnerRefusal _ _ => Raise e
    | _ => Raise (refusal overlay_unavailable "The saved edits cannot be reached right now.")
    end).

Definition EMPTY_INDEX : OverlayIndex := Index.mk OVERLAY_INDEX_VERSION None [].

Definition readOverlayState (location : OverlayLocation) : prog (OverlayIndex * option etag) :=
  read ← storeCall (call (GetObject location OVERLAY_INDEX_OBJECT));
  match read with
  | None => mret (EMPTY_INDEX, None)
  | Some (index_body index, tag) =>
      if overlayIndexSchema timestamp index then mret (index, Some tag)
      else Raise (refusal overlay_unavailable "The saved edits cannot be read.")
  | Some (text_body _, _) => Raise (refusal overlay_unavailable "The saved edits cannot be read.")
  end.

(** [createEffectiveView] and [overlayEntryStateOf] may throw. *)
Definition or_throw {A : Type} (r : walk_error + A) : prog A := match r with inl e => Raise (TreeTooLarge e) | inr x => mret x end.

(** The index and the snapshot are read side by side; neither writes. *)
Definition loadEffectiveOverlayView (tenantId : string) : prog (EffectiveView * OverlayIndex * OverlaySnapshotView) :=
  computer ← requireComputer tenantId;
  '(index, _) ← readOverlayState (locationOf computer);
  snapshot ← call (LoadSnapshot (locationOf computer));
  view ← or_throw (createEffectiveView sha256Hex snapshot (Index.entries index));
  mret (view, index, snapshot).

Definition readOverlayBlobBytes (location : OverlayLocation) (sha256 : string) : prog string :=
  read ← storeCall (call (GetObject location (overlayBlobObject sha256)));
  match read with
  | Some (text_body text, _) =>
      if bool_decide (sha256Hex text <> sha256) then Raise (refusal corrupt_snapshot "A saved edit does not match its record.")
      else mret text
  | _ => Raise (refusal corrupt_snapshot "A saved edit does not match its record.")
  end.

Definition sealBinds (index : OverlayIndex) (computer : Computer) (worker : option Worker) (now timeoutSeconds : Z) : bool :=
  match Index.sealed index with
  | None => false
  | Some seal =>
      bool_decide (Computer.ownerId computer = Some (Seal.owner_id seal)) &&
      bool_decide (Computer.ownerGeneration computer = Some (Seal.generation seal)) &&
      liveOwnerOf computer worker now timeoutSeconds
  end.

Definition refuseWhileSealed (tenantId : string) (index : OverlayIndex) : prog unit :=
  match Index.sealed index with
  | None => mret tt
  | Some _ =>
      computer ← requireComputer tenantId;
      worker ← match Computer.ownerId computer with None => mret None | Some ownerId => call (GetWorker tenantId ownerId) end;
      now ← call Now;
      if negb (sealBinds index computer worker now heartbeatTimeoutSeconds) then mret tt
      else if bool_decide ((worker ≫= Worker.pollState) = Some "stopping") || bool_decide (is_Some (Computer.ownerStopApprovedAt computer))
      then Raise (EditOverlayRefusal computer_stopping "The computer is stopping; try again in a moment." None
                    (Some OVERLAY_STOPPING_RETRY_AFTER_MILLISECONDS))
      else Raise (EditOverlayRefusal computer_starting "The computer is starting; try again in a moment." None
                    (Some OVERLAY_SEAL_RETRY_AFTER_MILLISECONDS))
  end.

Definition swapIndex (location : OverlayLocation) (tag : option etag) (entries : list OverlayEntry) (sealed : option OverlaySeal) : prog bool :=
  let body := index_body (Index.mk OVERLAY_INDEX_VERSION sealed entries) in
  storeCall (match tag with
    | None => call (PutIfAbsent location OVERLAY_INDEX_OBJECT body)
    | Some tag => call (PutIfMatch location OVERLAY_INDEX_OBJECT body tag)
    end).

(** The hashes of the blobs of puts, each once, in the order of a [Set]. *)
Definition blobHashesOf (entries : list OverlayEntry) : list string :=
  foldl (fun found h => if bool_decide (h ∈ found) then found else found ++ [h]) []
    (entries ≫= fun entry => match OverlayEntry.op entry with op_put p => [PutEntry.sha256 p] | _ => [] end).

(** A blob that cannot be deleted is logged. *)
Definition deleteUnreferencedBlobs (location : OverlayLocation) (before after : list OverlayEntry) : prog unit :=
  let still := blobHashesOf after in
  for_all (fun sha256 => if bool_decide (sha256 ∈ still) then mret tt
                         else rescue (call (DeleteObject location (overlayBlobObject sha256))) (fun _ => mret tt))
    (blobHashesOf before).

Definition beginAudit (record : OverlayAuditRecord) : prog unit :=
  rescue (call (AuditBegin record))
    (fun _ => Raise (refusal audit_unavailable "The record of this change cannot be kept right now, so nothing was changed.")).

(** The time of the finish is read inside the [try]. *)
Definition finishAudit (operationId : string) (outcome : OverlayAuditOutcome) (errorCode : option AuditErrorCode)
    (removed : option Z) : prog unit :=
  rescue (now ← call Now; call (AuditFinish operationId (mkFinish outcome errorCode removed (toISOString now)))) (fun _ => mret tt).

(** What the records of one operation share. *)
Record AuditBase : Type := mkBase {
  base_operationId : string;
  base_tenantId : string;
  base_computerId : string;
  base_userId : string;
  base_at : string;
}.

Definition auditRecordFor (base : AuditBase) (change : OverlayMemberChange) (plan : option Changed) (outcome : OverlayAuditOutcome)
    (errorCode : option AuditErrorCode) : OverlayAuditRecord :=
  let record operation path toPath recursive sha256Before sha256After treeSha256Before bytes secretName :=
    Audit.mk (base_operationId base) (base_tenantId base) (base_computerId base) (base_userId base) operation path toPath recursive None
      outcome errorCode sha256Before sha256After treeSha256Before bytes secretName (base_at base) in
  match change with
  | member_put path content precondition =>
      record (match precondition with if_none_match => audit_create | if_match _ => audit_write end) path None None
        (Some (match precondition with if_match sha256 => Some sha256 | if_none_match => None end))
        (Some (sha256Hex content)) None (Some (Z.of_nat (String.length content))) (Some (looksLikeSecretFile toLowerCase path))
  | member_delete path recursive _ ifMatchSha256 =>
      let tree := match plan with Some c => Changed.directory c | None => false end in
      record audit_delete path None (Some recursive) (if tree then None else Some (Some ifMatchSha256)) None
        (if tree then Some ifMatchSha256 else None) None (Some (looksLikeSecretFile toLowerCase path))
  | member_move from to ifMatchSha256 => record audit_move from (Some to) None (Some (Some ifMatchSha256)) None None None None
  | member_mkdir path => record audit_mkdir path None None None None None None None
  end.

(** *** A member's change *)

(** The hash, the size and the content of the blob of a put. *)
Record Blob : Type := mkBlob { blob_sha256 : string; blob_size : Z; blob_content : string }.

Definition algebra_request (change : OverlayMemberChange) (blob : option Blob) : OverlayChangeRequest :=
  match change with
  | member_put path content precondition =>
      request_put path (match blob with Some b => blob_sha256 b | None => sha256Hex content end)
        (match blob with Some b => blob_size b | None => Z.of_nat (String.length content) end) precondition
  | member_delete path recursive ownerRole ifMatchSha256 => request_delete path recursive ownerRole ifMatchSha256
  | member_move from to ifMatchSha256 => request_move from to ifMatchSha256
  | member_mkdir path => request_mkdir path
  end.

Definition change_path (change : OverlayMemberChange) : string :=
  match change with member_put path _ _ | member_delete path _ _ _ | member_move _ path _ | member_mkdir path => path end.

Definition is_mkdir (change : OverlayMemberChange) : bool := match change with member_mkdir _ => true | _ => false end.
Definition is_delete (change : OverlayMemberChange) : bool := match change with member_delete _ _ _ _ => true | _ => false end.

(** The code of an error for the audit trail. *)
Definition error_code (e : overlay_exn) : option AuditErrorCode :=
  Some (match e with EditOverlayRefusal code _ _ _ => code_of code | _ => code_failed end).

(** [if (begun) await finishAudit(...)]. *)
Definition finish_begun (begun : bool) (operationId : string) (outcome : OverlayAuditOutcome) (errorCode : option AuditErrorCode)
    : prog unit :=
  if begun then finishAudit operationId outcome errorCode None else mret tt.

(** A writer that meets a seal that binds ends its audit record and gives up. *)
Definition refuse_sealed (begun : bool) (operationId tenantId : string) (index : OverlayIndex) : prog unit :=
  rescue (refuseWhileSealed tenantId index) (fun e => finish_begun begun operationId outcome_failed (error_code e) ;; Raise e).

Definition contended (message : string) : overlay_exn := EditOverlayRefusal overlay_contended message None (Some 1000).
Definition others_save : string := "Other changes are being saved at the same moment; try again.".
Definition being_changed : string := "The overlay is being changed at the same moment; try again.".

Section change.
  Context (location : OverlayLocation) (base : AuditBase) (snapshot : OverlaySnapshotView) (change : OverlayMemberChange) (blob : option Blob).

Definition changed_outcome (plan : Changed) : OverlayChangeOutcome :=
  let entry := entryAt (Changed.entries plan) (Changed.path plan) in
  Outcome.mk (Some (base_operationId base)) true (Changed.path plan) (Changed.created plan) (Changed.directory plan)
    (Changed.resultSha256 plan) (Changed.previousSha256 plan)
    (match OverlayEntry.op <$> entry with Some (op_put p) => Some (PutEntry.size p) | _ => blob_size <$> blob end)
    (OverlayEntry.revision <$> entry) (Changed.removed plan) (base_at base).

Fixpoint change_loop (attempts : nat) (begun blobStored : bool) : prog OverlayChangeOutcome :=
  match attempts with
  | O =>
      finish_begun begun (base_operationId base) outcome_failed (Some (code_of overlay_contended)) ;;
      Raise (contended others_save)
  | S attempts' =>
      '(index, tag) ← readOverlayState location;
      refuse_sealed begun (base_operationId base) (base_tenantId base) index ;;
      plan ← or_throw (planOverlayChange sha256Hex
                (mkInput snapshot (Index.entries index) (algebra_request change blob) (base_userId base) (base_at base)));
      match plan with
      | refused code message currentSha256 =>
          (if begun then finishAudit (base_operationId base) outcome_refused (Some (code_of (algebra_code code))) None
           else rescue (call (AuditBegin (auditRecordFor base change None outcome_refused (Some (code_of (algebra_code code)))))) (fun _ => mret tt)) ;;
          Raise (EditOverlayRefusal (algebra_code code) message currentSha256 None)
      | unchanged created sha256 previousSha256 =>
          finish_begun begun (base_operationId base) outcome_ok None ;;
          mret (Outcome.mk (if begun then Some (base_operationId base) else None) false (change_path change) created (is_mkdir change)
                  sha256 previousSha256 (blob_size <$> blob) None 0 (base_at base))
      | plan_changed plan =>
          (if begun then mret tt else beginAudit (auditRecordFor base change (Some plan) outcome_pending None)) ;;
          (match blob with
           | Some b => if blobStored then mret tt
                       else storeCall (call (PutIfAbsent location (overlayBlobObject (blob_sha256 b)) (text_body (blob_content b)))) ;; mret tt
           | None => mret tt
           end) ;;
          swapped ← swapIndex location tag (Changed.entries plan) None;
          if (swapped : bool) then
            finishAudit (base_operationId base) outcome_ok None (if is_delete change then Some (Changed.removed plan) else None) ;;
            deleteUnreferencedBlobs location (Index.entries index) (Changed.entries plan) ;;
            mret (changed_outcome plan)
          else change_loop attempts' true (bool_decide (is_Some blob))
      end
  end.
End change.

Definition changeOverlay (tenantId userId : string) (change : OverlayMemberChange) : prog OverlayChangeOutcome :=
  computer ← requireComputer tenantId;
  let location := locationOf computer in
  now ← call Now;
  id ← call NextId;
  let at_ := toISOString now in
  snapshot ← call (LoadSnapshot location);
  blob ← match change with
         | member_put _ content _ =>
             if LIVE_FILE_CONTENT_MAX_BYTES <? Z.of_nat (String.length content)
             then Raise (refusal content_too_large "Content over 256 KiB is not saved here.")
             else mret (Some (mkBlob (sha256Hex content) (Z.of_nat (String.length content)) content))
         | _ => mret None
         end;
  change_loop location (mkBase ("fop-" +:+ id) (Computer.tenantId computer) (Computer.computerId computer) userId at_) snapshot change blob
    OVERLAY_CAS_ATTEMPTS false false.

(** *** Dropping a change *)

Fixpoint discard_loop (location : OverlayLocation) (base : AuditBase) (path : string) (revision : Z) (attempts : nat) (begun : bool) : prog unit :=
  match attempts with
  | O => finishAudit (base_operationId base) outcome_failed (Some (code_of overlay_contended)) None ;; Raise (contended others_save)
  | S attempts' =>
      '(index, tag) ← readOverlayState location;
      refuse_sealed begun (base_operationId base) (base_tenantId base) index ;;
      let gone :=
        finish_begun begun (base_operationId base) outcome_refused (Some (code_of (algebra_code precondition_failed))) ;;
        Raise (refusal (algebra_code precondition_failed) "That change is no longer waiting, or it changed since it was shown.") in
      match entryAt (Index.entries index) path with
      | None => gone
      | Some entry =>
          if negb (OverlayEntry.revision entry =? revision) then gone
          else
            (if begun then mret tt
             else beginAudit (Audit.mk (base_operationId base) (base_tenantId base) (base_computerId base) (base_userId base) audit_discard
                    path None None None outcome_pending None
                    (Some (match OverlayEntry.op entry with op_put p => Some (PutEntry.sha256 p) | _ => None end)) None None None None
                    (base_at base))) ;;
            let remaining := without (Index.entries index) [path] in
            swapped ← swapIndex location tag remaining None;
            if (swapped : bool) then
              finishAudit (base_operationId base) outcome_ok None None ;;
              deleteUnreferencedBlobs location (Index.entries index) remaining
            else discard_loop location base path revision attempts' true
      end
  end.

Definition discardOverlayEntry (tenantId userId path : string) (revision : Z) : prog unit :=
  computer ← requireComputer tenantId;
  id ← call NextId;
  now ← call Now;
  discard_loop (locationOf computer)
    (mkBase ("fop-" +:+ id) (Computer.tenantId computer) (Computer.computerId computer) userId (toISOString now)) path revision
    OVERLAY_CAS_ATTEMPTS false.

Definition listOverlayEntries (tenantId : string) : prog (list (OverlayEntry * OverlayEntryState)) :=
  '(view, index, _) ← loadEffectiveOverlayView tenantId;
  mret ((fun entry => (entry, default pending (EffectiveView.states view !! OverlayEntry.path entry))) <$> Index.entries index).

(** *** The owner *)

Definition holds_seal (owner : OwnerIdentity) (seal : OverlaySeal) : bool :=
  bool_decide (Seal.owner_id seal = owner_ownerId owner) && (Seal.generation seal =? owner_startGeneration owner).

Fixpoint seal_loop (computer : Computer) (owner : OwnerIdentity) (attempts : nat) : prog (list OverlayEntry) :=
  match attempts with
  | O => Raise (contended being_changed)
  | S attempts' =>
      '(index, tag) ← readOverlayState (locationOf computer);
      if match Index.sealed index with Some seal => holds_seal owner seal | None => false end then mret (Index.entries index)
      else
        now ← call Now;
        let seal := Seal.mk (owner_ownerId owner) (owner_startGeneration owner) (toISOString now) (Computer.snapshotGeneration computer) in
        swapped ← swapIndex (locationOf computer) tag (Index.entries index) (Some seal);
        if (swapped : bool) then mret (Index.entries index) else seal_loop computer owner attempts'
  end.

Definition sealOverlay (owner : OwnerIdentity) : prog (list OverlayEntry) :=
  computer ← requireComputer (owner_tenantId owner);
  seal_loop computer owner OVERLAY_CAS_ATTEMPTS.

(** The entry of an index a reference names. *)
Definition matching (entries : list OverlayEntry) (reference : OverlayEntryReference) : option OverlayEntry :=
  List.find (fun entry => bool_decide (OverlayEntry.path entry = ref_path reference) && (OverlayEntry.revision entry =? ref_revision reference))
    entries.

(** The named entries that are cleared: those in the snapshot, when no publish is on record. *)
Fixpoint entries_to_clear (entries : list OverlayEntry) (snapshot : option OverlaySnapshotView) (references : list OverlayEntryReference) :
    walk_error + list OverlayEntry :=
  match references with
  | [] => inr []
  | reference :: references' =>
      match matching entries reference with
      | None => entries_to_clear entries snapshot references'
      | Some entry =>
          is_applied ← match snapshot with
                       | None => inr true
                       | Some snapshot => state ← overlayEntryStateOf sha256Hex entry snapshot; inr (bool_decide (state = applied))
                       end;
          rest ← entries_to_clear entries snapshot references';
          inr (if (is_applied : bool) then entry :: rest else rest)
      end
  end.

Definition entries_to_flag (entries toClear : list OverlayEntry) (conflicts : list ConflictReference) : list (OverlayEntry * ConflictReference) :=
  conflicts ≫= fun reference =>
    match matching entries (conflict_entry reference) with
    | None => []
    | Some entry => if bool_decide (OverlayEntry.path entry ∈ OverlayEntry.path <$> toClear) then [] else [(entry, reference)]
    end.

(** The index after a clear: what is cleared is dropped, what is in conflict is flagged; the last report of a path wins. *)
Definition cleared_entries (entries toClear : list OverlayEntry) (toFlag : list (OverlayEntry * ConflictReference)) (at_ : string) :
    list OverlayEntry :=
  (fun entry =>
     match last (List.filter (fun er => bool_decide (OverlayEntry.path er.1 = OverlayEntry.path entry)) toFlag) with
     | None => entry
     | Some er =>
         OverlayEntry.mk (OverlayEntry.path entry) (OverlayEntry.op entry) (OverlayEntry.edited_by entry) (OverlayEntry.edited_at entry)
           (OverlayEntry.revision entry) (Some (mkConflict (conflict_why er.2) (conflict_disk_sha256 er.2) at_))
     end) <$> without entries (OverlayEntry.path <$> toClear).

Definition auditKey (entry : OverlayEntry) : string := OverlayEntry.path entry +:+ "#" +:+ dec (OverlayEntry.revision entry).

(** One audit record per entry, begun once over all attempts. *)
Fixpoint begin_audits (owner : OwnerIdentity) (computerId at_ : string) (auditIds : list (string * string)) (entries : list OverlayEntry) :
    prog (list (string * string)) :=
  match entries with
  | [] => mret auditIds
  | entry :: entries' =>
      match map_get (auditKey entry) auditIds with
      | Some _ => begin_audits owner computerId at_ auditIds entries'
      | None =>
          id ← call NextId;
          let operationId := "fop-" +:+ id in
          beginAudit (Audit.mk operationId (owner_tenantId owner) computerId (OverlayEntry.edited_by entry) audit_apply
            (OverlayEntry.path entry) None None (Some (owner_ownerId owner)) outcome_pending None None
            (match OverlayEntry.op entry with op_put p => Some (PutEntry.sha256 p) | _ => None end) None None None at_) ;;
          begin_audits owner computerId at_ (map_set (auditKey entry) operationId auditIds) entries'
      end
  end.

Definition not_sealed : overlay_exn := OwnerRefusal "overlay_not_sealed" "the overlay is not sealed by this owner".

Fixpoint clear_loop (location : OverlayLocation) (owner : OwnerIdentity) (cleared : list OverlayEntryReference)
    (conflicts : list ConflictReference) (auditIds : list (string * string)) (attempts : nat) : prog Z :=
  match attempts with
  | O => Raise (contended being_changed)
  | S attempts' =>
      '(index, tag) ← readOverlayState location;
      match Index.sealed index with
      | None => Raise not_sealed
      | Some seal =>
          if negb (holds_seal owner seal) then Raise not_sealed
          else
            computer ← requireComputer (owner_tenantId owner);
            snapshot ← (if Seal.snapshot_generation seal <? Computer.snapshotGeneration computer then mret None
                        else s ← call (LoadSnapshot location); mret (Some s));
            toClear ← or_throw (entries_to_clear (Index.entries index) snapshot cleared);
            let toFlag := entries_to_flag (Index.entries index) toClear conflicts in
            if bool_decide (toClear = []) && bool_decide (toFlag = []) then mret (Z.of_nat (length (Index.entries index)))
            else
              now ← call Now;
              let at_ := toISOString now in
              auditIds' ← begin_audits owner location.2 at_ auditIds (toClear ++ toFlag.*1);
              let next := cleared_entries (Index.entries index) toClear toFlag at_ in
              swapped ← swapIndex location tag next (Some seal);
              if (swapped : bool) then
                for_all (fun entry =>
                  match map_get (auditKey entry) auditIds' with
                  | None => mret tt
                  | Some operationId =>
                      finishAudit operationId
                        (if bool_decide (OverlayEntry.path entry ∈ OverlayEntry.path <$> toClear) then outcome_ok else outcome_conflict) None None
                  end) (toClear ++ toFlag.*1) ;;
                deleteUnreferencedBlobs location (Index.entries index) next ;;
                mret (Z.of_nat (length next))
              else clear_loop location owner cleared conflicts auditIds' attempts'
      end
  end.

Definition clearOverlay (owner : OwnerIdentity) (cleared : list OverlayEntryReference) (conflicts : list ConflictReference) : prog Z :=
  computer ← requireComputer (owner_tenantId owner);
  clear_loop (owner_tenantId owner, Computer.computerId computer) owner cleared conflicts [] OVERLAY_CAS_ATTEMPTS.

Fixpoint unseal_loop (location : OverlayLocation) (owner : OwnerIdentity) (attempts : nat) : prog unit :=
  match attempts with
  | O => mret tt
  | S attempts' =>
      '(index, tag) ← readOverlayState location;
      if match Index.sealed index with Some seal => holds_seal owner seal | None => false end then
        swapped ← swapIndex location tag (Index.entries index) None;
        if (swapped : bool) then mret tt else unseal_loop location owner attempts'
      else mret tt
  end.

(** A failure is logged. *)
Definition unsealOverlay (owner : OwnerIdentity) : prog unit :=
  rescue (computer ← requireComputer (owner_tenantId owner); unseal_loop (locationOf computer) owner OVERLAY_CAS_ATTEMPTS) (fun _ => mret tt).
End service.
