(* ===== verification/OverlaySystem.v ===== *)
(** * How the index of an overlay moves

    The abstract machine of an index ([overlay_step]) has one step per operation, each taken on the index as it is at that
    moment. Every operation of the service, whatever fails and whoever else acts between its calls, moves the index only along
    these steps ([operations_move]).

    What the calls of the overlay service may answer ([contract]): reads answer what is stored, a conditional put writes only
    when its condition holds, and a call that fails may or may not have had its effect. [handle] is one service that keeps the
    contract and never fails, [round] lets two programs take turns on it. *)

From S2P Require Import Prelude Json Dates Computers Overlay OverlayPlan Interaction OverlayService LiveFiles.
From coqutil Require Import Datatypes.RecordSetters.
Import DoubleBraceUpdate.
#[local] Open Scope Z_scope.

#[export] Instance conflict_reason_eq_dec : EqDecision conflict_reason.
Proof. solve_decision. Defined.

#[export] Instance OverlayConflict_eq_dec : EqDecision OverlayConflict.
Proof. solve_decision. Defined.

#[export] Instance PutEntry_eq_dec : EqDecision PutEntry.
Proof. solve_decision. Defined.

#[export] Instance DeleteEntry_eq_dec : EqDecision DeleteEntry.
Proof. solve_decision. Defined.

#[export] Instance MoveEntry_eq_dec : EqDecision MoveEntry.
Proof. solve_decision. Defined.

#[export] Instance OverlayOperation_eq_dec : EqDecision OverlayOperation.
Proof. solve_decision. Defined.

#[export] Instance OverlayEntry_eq_dec : EqDecision OverlayEntry.
Proof. solve_decision. Defined.

#[export] Instance OverlaySeal_eq_dec : EqDecision OverlaySeal.
Proof. solve_decision. Defined.

#[export] Instance OverlayIndex_eq_dec : EqDecision OverlayIndex.
Proof. solve_decision. Defined.

#[export] Instance stored_body_eq_dec : EqDecision stored_body.
Proof. solve_decision. Defined.

(** A call of the audit trail. *)
Inductive audit_call : Type := audit_begun (record : OverlayAuditRecord) | audit_finished (operationId : string) (finish : OverlayAuditFinish).

Record World : Type := mkWorld {
  computers : gmap string Computer;
  workers : gmap (string * string) Worker;
  objects : gmap (OverlayLocation * string) stored_body;
  snapshots : OverlayLocation -> OverlaySnapshotView;
  audits : list audit_call;
  clock : Z;
}.

Definition index_at (location : OverlayLocation) (w : World) : option stored_body := objects w !! (location, OVERLAY_INDEX_OBJECT).

Section contract.
  Context {etag : Type} (etag_of : stored_body -> etag).

Definition answered {R : Type} (r : overlay_call etag R) (w : World) : R -> World -> Prop :=
  match r in overlay_call _ R return R -> World -> Prop with
  | GetComputer tenantId => fun v w' => v = computers w !! tenantId /\ w' = w
  | GetWorker tenantId workerId => fun v w' => v = workers w !! (tenantId, workerId) /\ w' = w
  | GetObject location key => fun v w' => v = (fun body => (body, etag_of body)) <$> objects w !! (location, key) /\ w' = w
  | PutIfAbsent location key body => fun written w' =>
      if written : bool then objects w !! (location, key) = None /\ w' = w {{ objects := <[(location, key) := body]> (objects w) }} else w' = w
  | PutIfMatch location key body tag => fun written w' =>
      if written : bool
      then (etag_of <$> objects w !! (location, key)) = Some tag /\ w' = w {{ objects := <[(location, key) := body]> (objects w) }}
      else w' = w
  | DeleteObject location key => fun _ w' => w' = w {{ objects := delete (location, key) (objects w) }}
  | LoadSnapshot location => fun v w' => v = snapshots w location /\ w' = w
  | AuditBegin record => fun _ w' => w' = w {{ audits := audits w ++ [audit_begun record] }}
  | AuditFinish id finish => fun _ w' => w' = w {{ audits := audits w ++ [audit_finished id finish] }}
  | Now => fun v w' => v = clock w /\ w' = w
  | NextId => fun _ w' => w' = w
  end.

(** Reading the clock and making an identifier do not fail. *)
Definition may_fail {R : Type} (r : overlay_call etag R) : bool := match r with Now | NextId => false | _ => true end.

(** The store itself never answers that a change is refused or that the owner is; the snapshot reader may. *)
Definition contract (R : Type) (r : overlay_call etag R) (w : World) (x : overlay_exn + R) (w' : World) : Prop :=
  match x with
  | inr v => answered r w v w'
  | inl e => may_fail r = true /\ (w' = w \/ exists v, answered r w v w')
  end.

(** ** A service that never fails *)

Context `{EqDecision etag}.

Definition handle {R : Type} (r : overlay_call etag R) (ids : Z) (w : World) : R * World * Z :=
  match r in overlay_call _ R return R * World * Z with
  | GetComputer tenantId => (computers w !! tenantId, w, ids)
  | GetWorker tenantId workerId => (workers w !! (tenantId, workerId), w, ids)
  | GetObject location key => ((fun body => (body, etag_of body)) <$> objects w !! (location, key), w, ids)
  | PutIfAbsent location key body =>
      match objects w !! (location, key) with
      | None => (true, w {{ objects := <[(location, key) := body]> (objects w) }}, ids)
      | Some _ => (false, w, ids)
      end
  | PutIfMatch location key body tag =>
      if bool_decide ((etag_of <$> objects w !! (location, key)) = Some tag)
      then (true, w {{ objects := <[(location, key) := body]> (objects w) }}, ids)
      else (false, w, ids)
  | DeleteObject location key => (tt, w {{ objects := delete (location, key) (objects w) }}, ids)
  | LoadSnapshot location => (snapshots w location, w, ids)
  | AuditBegin record => (tt, w {{ audits := audits w ++ [audit_begun record] }}, ids)
  | AuditFinish id finish => (tt, w {{ audits := audits w ++ [audit_finished id finish] }}, ids)
  | Now => (clock w, w, ids)
  | NextId => (dec ids, w, ids + 1)
  end.

Lemma overlay_handle_contract {R : Type} (r : overlay_call etag R) (ids : Z) (w : World) :
  contract R r w (inr (handle r ids w).1.1) (handle r ids w).1.2.
Proof using Type.
  destruct r; cbn; try done.
  - by destruct (objects w !! _) eqn:?.
  - case_bool_decide; done.
Qed.

(** *** Taking turns *)

Abbreviation prog := (program (overlay_call etag) overlay_exn).

(** One call of a program, or nothing when it ended. *)
Definition round {A : Type} (p : prog A) (ids : Z) (w : World) : prog A * Z * World :=
  match p with
  | Call r k => let '(v, w', ids') := handle r ids w in (k (inr v), ids', w')
  | _ => (p, ids, w)
  end.

(** Two programs make their calls in the order of the schedule: [true] is a call of the first. *)
Fixpoint take_turns {A B : Type} (schedule : list bool) (p : prog A) (q : prog B) (ids : Z) (w : World) : prog A * prog B * World :=
  match schedule with
  | [] => (p, q, w)
  | true :: schedule' => let '(p', ids', w') := round p ids w in take_turns schedule' p' q ids' w'
  | false :: schedule' => let '(q', ids', w') := round q ids w in take_turns schedule' p q' ids' w'
  end.

(** A program alone, to its end. *)
Fixpoint finish {A : Type} (p : prog A) (ids : Z) (w : World) : (overlay_exn + A) * World :=
  match p with
  | Return a => (inr a, w)
  | Raise e => (inl e, w)
  | Call r k => let '(v, w', ids') := handle r ids w in finish (k (inr v)) ids' w'
  end.

Lemma finish_exec {A : Type} (interference : World -> World -> Prop) (p : prog A) (ids : Z) (w : World) :
  exec contract interference p w (finish p ids w).1 (finish p ids w).2.
Proof using Type.
  revert ids w. induction p as [a|e|R r k IH]; intros ids w; cbn [finish exec]; [split; [done|apply rtc_refl]..|].
  pose proof (overlay_handle_contract r ids w) as Hc. destruct (handle r ids w) as [[v w'] ids'].
  exists w, (inr v), w'. split; [apply rtc_refl|]. split; [done|apply IH].
Qed.
End contract.

Section machine.
  Context (timestamp : string -> bool) (sha256Hex toLowerCase : string -> string).

(** What is stored reads as an index: nothing stored is an empty one. *)
Definition reads (stored : option stored_body) (index : OverlayIndex) : Prop :=
  match stored with
  | None => index = EMPTY_INDEX
  | Some body => body = index_body index /\ overlayIndexSchema timestamp index = true
  end.

Definition store_index (sealed : option OverlaySeal) (entries : list OverlayEntry) : option stored_body :=
  Some (index_body (Index.mk OVERLAY_INDEX_VERSION sealed entries)).

(** A clear by the holder of the seal: it drops entries it names and flags others. *)
Definition clear_allowed (seal : OverlaySeal) (entries next : list OverlayEntry) : Prop :=
  exists snapshot cleared conflicts at_ toClear,
    entries_to_clear sha256Hex entries snapshot cleared = inr toClear /\
    next = cleared_entries entries toClear (entries_to_flag entries toClear conflicts) at_.

Inductive overlay_step (stored : option stored_body) : option stored_body -> Prop :=
| step_change (index : OverlayIndex) (input : OverlayPlanInput) (plan : Changed) :
    reads stored index -> in_entries input = Index.entries index -> planOverlayChange sha256Hex input = inr (plan_changed plan) ->
    overlay_step stored (store_index None (Changed.entries plan))
| step_discard (index : OverlayIndex) (entry : OverlayEntry) :
    reads stored index -> entryAt (Index.entries index) (OverlayEntry.path entry) = Some entry ->
    overlay_step stored (store_index None (without (Index.entries index) [OverlayEntry.path entry]))
| step_seal (index : OverlayIndex) (seal : OverlaySeal) :
    reads stored index -> Index.sealed index <> Some seal -> overlay_step stored (store_index (Some seal) (Index.entries index))
| step_clear (index : OverlayIndex) (seal : OverlaySeal) (next : list OverlayEntry) :
    reads stored index -> Index.sealed index = Some seal -> clear_allowed seal (Index.entries index) next ->
    overlay_step stored (store_index (Some seal) next)
| step_unseal (index : OverlayIndex) (seal : OverlaySeal) :
    reads stored index -> Index.sealed index = Some seal -> overlay_step stored (store_index None (Index.entries index)).

(** The indexes of all computers move along the machine. *)
Definition moves (w w' : World) : Prop := forall location, rtc overlay_step (index_at location w) (index_at location w').

#[export] Instance moves_reflexive : Reflexive moves.
Proof. intros w location. apply rtc_refl. Qed.

#[export] Instance moves_transitive : Transitive moves.
Proof. intros w1 w2 w3 H1 H2 location. by trans (index_at location w2). Qed.

Context {etag : Type} (etag_of : stored_body -> etag) `{!Inj (=) (=) etag_of} (heartbeatTimeoutSeconds : Z).
Context (interference : World -> World -> Prop) (interference_moves : forall w w', interference w w' -> moves w w').

Abbreviation prog := (program (overlay_call etag) overlay_exn).
Abbreviation run := (exec (contract etag_of) interference).

Lemma others_move (w w' : World) : rtc interference w w' -> moves w w'.
Proof using interference_moves. induction 1; [done|]. etrans; [by apply interference_moves|done]. Qed.

(** ** Programs that keep to the machine *)

Definition keeps {A : Type} (p : prog A) : Prop := forall w o w', run p w o w' -> moves w w'.
Definition gives {A : Type} (p : prog A) (Q : A -> Prop) : Prop := forall w a w', run p w (inr a) w' -> Q a.

Lemma keeps_return {A : Type} (a : A) : keeps (mret a : prog A).
Proof using interference_moves. intros w o w' [_ H]. by apply others_move. Qed.

Lemma keeps_raise {A : Type} (e : overlay_exn) : keeps (Raise e : prog A).
Proof using interference_moves. intros w o w' [_ H]. by apply others_move. Qed.

Lemma keeps_bind {A B : Type} (Q : A -> Prop) (p : prog A) (f : A -> prog B) :
  keeps p -> gives p Q -> (forall a, Q a -> keeps (f a)) -> keeps (p ≫= f).
Proof using Type.
  intros Hp Hg Hf w o w' [(a & w1 & H1 & H2)|(e & -> & H)]%program_exec_bind; [|by eapply Hp].
  trans w1; [by eapply Hp|]. eapply Hf; [|done]. by eapply Hg.
Qed.

Lemma keeps_then {A B : Type} (p : prog A) (f : A -> prog B) : keeps p -> (forall a, keeps (f a)) -> keeps (p ≫= f).
Proof using Type. intros Hp Hf. apply (keeps_bind (fun _ => True)); [done|by intros ? ? ? _|auto]. Qed.

Lemma keeps_rescue {A : Type} (p : prog A) (h : overlay_exn -> prog A) : keeps p -> (forall e, keeps (h e)) -> keeps (rescue p h).
Proof using Type.
  intros Hp Hh w o w' [(a & -> & H)|(e & w1 & H1 & H2)]%exec_rescue; [by eapply Hp|].
  trans w1; [by eapply Hp|by eapply Hh].
Qed.

(** A call that is not a write of an index. *)
Definition quiet {R : Type} (r : overlay_call etag R) : Prop :=
  match r with
  | PutIfAbsent _ key _ | PutIfMatch _ key _ _ | DeleteObject _ key => key <> OVERLAY_INDEX_OBJECT
  | _ => True
  end.

Lemma answered_quiet {R : Type} (r : overlay_call etag R) (w : World) (v : R) (w' : World) :
  quiet r -> answered etag_of r w v w' -> forall location, index_at location w' = index_at location w.
Proof using Type.
  assert (forall location location' key body, key <> OVERLAY_INDEX_OBJECT ->
    index_at location (w {{ objects := <[(location', key) := body]> (objects w) }}) = index_at location w) as Hput.
  { intros. unfold index_at. cbn. apply lookup_insert_ne. congruence. }
  intros Hq Ha location. destruct r; cbn in Hq, Ha; try (destruct Ha as [_ ->]; done); try (rewrite Ha; done).
  - destruct v; [destruct Ha as [_ ->]; by apply Hput|by rewrite Ha].
  - destruct v; [destruct Ha as [_ ->]; by apply Hput|by rewrite Ha].
  - rewrite Ha. unfold index_at. cbn. apply lookup_delete_ne. congruence.
Qed.

Lemma keeps_quiet {R : Type} (r : overlay_call etag R) : quiet r -> keeps (call r).
Proof using interference_moves.
  intros Hq w o w' (w1 & w2 & H1 & Hc & H2)%exec_call. trans w1; [by apply others_move|]. trans w2; [|by apply others_move].
  assert (forall v, answered etag_of r w1 v w2 -> moves w1 w2) as Ha.
  { intros v Ha location. by rewrite (answered_quiet r w1 v w2 Hq Ha). }
  destruct o as [e|v]; cbn in Hc; [destruct Hc as [_ [->|[v Hv]]]; [done|by eapply Ha]|by eapply Ha].
Qed.

Lemma storeCall_inr {A : Type} (p : prog A) (w : World) (a : A) (w' : World) : run (storeCall p) w (inr a) w' -> run p w (inr a) w'.
Proof using Type.
  intros [(b & [= ->] & H)|(e & w1 & H1 & H2)]%exec_rescue; [done|]. exfalso. by destruct e, H2.
Qed.

Lemma keeps_storeCall {A : Type} (p : prog A) : keeps p -> keeps (storeCall p).
Proof using interference_moves. intros Hp. apply keeps_rescue; [done|]. intros []; apply keeps_raise. Qed.

Lemma gives_call {R : Type} (r : overlay_call etag R) (Q : R -> Prop) :
  (forall w v w', answered etag_of r w v w' -> Q v) -> gives (call r) Q.
Proof using Type. intros HQ w v w' (w1 & w2 & _ & Hc & _)%exec_call. by eapply HQ. Qed.

Lemma gives_bind {A B : Type} (P : A -> Prop) (Q : B -> Prop) (p : prog A) (f : A -> prog B) :
  gives p P -> (forall a, P a -> gives (f a) Q) -> gives (p ≫= f) Q.
Proof using Type.
  intros Hp Hf w b w' [(a & w1 & H1 & H2)|(e & [=] & _)]%program_exec_bind. eapply Hf; [|done]. by eapply Hp.
Qed.

Lemma keeps_for_all {A : Type} (body : A -> prog unit) (l : list A) : (forall a, keeps (body a)) -> keeps (for_all body l).
Proof using interference_moves. intros Hb. induction l as [|a l IH]; cbn; [apply keeps_return|]. by apply keeps_then. Qed.

(** ** Reading and swapping the index *)

(** What a read of the index says of what is stored: the tag is that of a body that reads as the index. *)
Definition read_ok (read : OverlayIndex * option etag) : Prop :=
  match read.2 with
  | None => read.1 = EMPTY_INDEX
  | Some tag => tag = etag_of (index_body read.1) /\ overlayIndexSchema timestamp read.1 = true
  end.

Lemma readOverlayState_ok (location : OverlayLocation) : gives (readOverlayState timestamp location) read_ok.
Proof using Type.
  apply (gives_bind (fun v => match v with Some (body, tag) => tag = etag_of body | None => True end)).
  - intros w v w' H%storeCall_inr. revert w v w' H. apply gives_call. intros w v w' [-> _].
    by destruct (objects w !! _).
  - intros [[[index|text] tag]|] Htag.
    + destruct (overlayIndexSchema _ _) eqn:Hs; [|by intros w a w' []]. intros w a w' [[= ->] _]. by split.
    + by intros w a w' [].
    + by intros w a w' [[= ->] _].
Qed.

Definition put_index (location : OverlayLocation) (tag : option etag) (body : stored_body) : overlay_call etag bool :=
  match tag with
  | None => PutIfAbsent location OVERLAY_INDEX_OBJECT body
  | Some tag => PutIfMatch location OVERLAY_INDEX_OBJECT body tag
  end.

Lemma swapIndex_eq (location : OverlayLocation) (tag : option etag) (entries : list OverlayEntry) (sealed : option OverlaySeal) :
  swapIndex location tag entries sealed = storeCall (call (put_index location tag (index_body (Index.mk OVERLAY_INDEX_VERSION sealed entries)))).
Proof using Type. by destruct tag. Qed.

(** A put of the index that is answered wrote over exactly what was read, or wrote nothing. *)
Lemma put_index_answered (location : OverlayLocation) (index : OverlayIndex) (tag : option etag) (body : stored_body) (w w' : World) (v : bool) :
  read_ok (index, tag) -> answered etag_of (put_index location tag body) w v w' ->
  if v then reads (index_at location w) index /\ index_at location w' = Some body /\
            (forall other, other <> location -> index_at other w' = index_at other w)
  else w' = w.
Proof using Inj0.
  assert (forall other, other <> location ->
    index_at other (w {{ objects := <[(location, OVERLAY_INDEX_OBJECT) := body]> (objects w) }}) = index_at other w) as Hne.
  { intros other Ho. unfold index_at. cbn. apply lookup_insert_ne. congruence. }
  intros Hr Ha. unfold read_ok in Hr. cbn in Hr. destruct tag as [tag|]; cbn in Ha; destruct v; try done; destruct Ha as [Hs ->].
  - split; [|split; [unfold index_at; cbn; apply lookup_insert_eq|done]]. unfold index_at.
    destruct (objects w !! _) as [stored|]; [|done]. destruct Hr as [-> Hs']. injection Hs as Hs%Inj0. by subst.
  - split; [|split; [unfold index_at; cbn; apply lookup_insert_eq|done]]. unfold index_at. by rewrite Hs.
Qed.

(** A swap that the machine allows on what was read. *)
Section swap.
  Context (location : OverlayLocation) (index : OverlayIndex) (tag : option etag) (entries : list OverlayEntry) (sealed : option OverlaySeal)
    (read : read_ok (index, tag))
    (allowed : forall stored, reads stored index -> overlay_step stored (store_index sealed entries)).

Lemma put_index_moves (w w' : World) (v : bool) :
  answered etag_of (put_index location tag (index_body (Index.mk OVERLAY_INDEX_VERSION sealed entries))) w v w' -> moves w w'.
Proof using read allowed Inj0.
  intros Ha%(put_index_answered location index tag); [|done]. destruct v; [|by subst]. destruct Ha as (Hr & Hw & Hne).
  intros other. destruct (decide (other = location)) as [->|Ho]; [|by rewrite Hne].
  rewrite Hw. apply rtc_once. by apply allowed.
Qed.

Lemma keeps_swapIndex : keeps (swapIndex location tag entries sealed).
Proof using read allowed Inj0 interference_moves.
  rewrite swapIndex_eq. apply keeps_storeCall. intros w o w' (w1 & w2 & H1 & Hc & H2)%exec_call.
  trans w1; [by apply others_move|]. trans w2; [|by apply others_move].
  destruct o as [e|v]; cbn in Hc; [destruct Hc as [_ [->|[v Hv]]]; [done|]|]; by eapply put_index_moves.
Qed.

(** A swap that reports success was taken on what was read. *)
Lemma swapIndex_true (w w' : World) :
  run (swapIndex location tag entries sealed) w (inr true) w' ->
  exists stored, rtc overlay_step (index_at location w) stored /\ reads stored index /\
    rtc overlay_step (store_index sealed entries) (index_at location w').
Proof using read allowed Inj0 interference_moves.
  rewrite swapIndex_eq. intros (w1 & w2 & H1 & Hc & H2)%storeCall_inr%exec_call.
  apply (put_index_answered location index tag) in Hc; [|done]. destruct Hc as (Hr & Hw & _). exists (index_at location w1).
  split; [by apply others_move|]. split; [done|]. unfold store_index. rewrite <- Hw. by apply others_move.
Qed.
End swap.

(** ** Parts of the operations *)

#[local] Hint Resolve keeps_return keeps_raise keeps_quiet keeps_storeCall keeps_for_all : overlay.
#[local] Hint Extern 1 (quiet _) => done : overlay.

Ltac keep :=
  repeat first
    [ solve [auto with overlay]
    | apply keeps_rescue; [|intros ?]
    | apply keeps_for_all; intros ?
    | apply keeps_then; [|intros ?]
    | match goal with |- keeps (match ?x with _ => _ end) => destruct x end ].

Lemma keeps_requireComputer (tenantId : string) : keeps (requireComputer tenantId).
Proof using interference_moves. unfold requireComputer. keep. Qed.

Lemma keeps_readOverlayState (location : OverlayLocation) : keeps (readOverlayState timestamp location).
Proof using interference_moves. unfold readOverlayState. keep. Qed.

Lemma keeps_or_throw {A : Type} (r : walk_error + A) : keeps (or_throw r).
Proof using interference_moves. unfold or_throw. keep. Qed.

Lemma keeps_finishAudit (id : string) (outcome : OverlayAuditOutcome) (code : option AuditErrorCode) (removed : option Z) :
  keeps (finishAudit id outcome code removed).
Proof using interference_moves. unfold finishAudit. keep. Qed.

Lemma keeps_beginAudit (record : OverlayAuditRecord) : keeps (beginAudit record).
Proof using interference_moves. unfold beginAudit. keep. Qed.

#[local] Hint Resolve keeps_requireComputer keeps_readOverlayState keeps_or_throw keeps_finishAudit keeps_beginAudit : overlay.

Lemma keeps_finish_begun (begun : bool) (id : string) (outcome : OverlayAuditOutcome) (code : option AuditErrorCode) :
  keeps (finish_begun begun id outcome code).
Proof using interference_moves. unfold finish_begun. keep. Qed.

#[local] Hint Resolve keeps_finish_begun : overlay.

Lemma keeps_refuse_sealed (begun : bool) (id tenantId : string) (index : OverlayIndex) :
  keeps (refuse_sealed heartbeatTimeoutSeconds begun id tenantId index).
Proof using interference_moves. unfold refuse_sealed, refuseWhileSealed. keep. Qed.

Lemma blob_is_not_index (sha256 : string) : overlayBlobObject sha256 <> OVERLAY_INDEX_OBJECT.
Proof using Type. unfold overlayBlobObject, OVERLAY_INDEX_OBJECT. done. Qed.

#[local] Hint Extern 1 (quiet _) => apply blob_is_not_index : overlay.

Lemma keeps_deleteUnreferencedBlobs (location : OverlayLocation) (before after : list OverlayEntry) :
  keeps (deleteUnreferencedBlobs location before after).
Proof using interference_moves. unfold deleteUnreferencedBlobs. apply keeps_for_all. intros h. keep. Qed.

#[local] Hint Resolve keeps_refuse_sealed keeps_deleteUnreferencedBlobs : overlay.

(** A round of an operation: read the index, then go on with what was read. *)
Lemma keeps_round {A : Type} (location : OverlayLocation) (f : OverlayIndex * option etag -> prog A) :
  (forall index tag, read_ok (index, tag) -> keeps (f (index, tag))) -> keeps (readOverlayState timestamp location ≫= f).
Proof using interference_moves.
  intros Hf. apply (keeps_bind read_ok); [auto with overlay|apply readOverlayState_ok|]. intros [index tag]. apply Hf.
Qed.

(** A judgement that did not throw. *)
Lemma keeps_judged {A B : Type} (r : walk_error + A) (f : A -> prog B) : (forall a, r = inr a -> keeps (f a)) -> keeps (or_throw r ≫= f).
Proof using interference_moves. intros Hf. destruct r as [e|a]; [apply (keeps_raise (TreeTooLarge e))|by apply Hf]. Qed.

(** What a change does before its swap: the record of the audit trail and the blob. *)
Lemma keeps_bool_audit (begun : bool) (record : OverlayAuditRecord) : keeps (if begun then mret tt else beginAudit record).
Proof using interference_moves. keep. Qed.

Lemma keeps_blob (location : OverlayLocation) (blob : option Blob) (blobStored : bool) :
  keeps (match blob with
         | Some b => if blobStored then mret tt
                     else storeCall (call (PutIfAbsent location (overlayBlobObject (blob_sha256 b)) (text_body (blob_content b)))) ;; mret tt
         | None => mret tt
         end).
Proof using interference_moves. keep. Qed.

(** ** Operations *)

Lemma keeps_change_loop (location : OverlayLocation) (base : AuditBase) (snapshot : OverlaySnapshotView) (change : OverlayMemberChange)
    (blob : option Blob) (attempts : nat) (begun blobStored : bool) :
  keeps (change_loop timestamp sha256Hex toLowerCase heartbeatTimeoutSeconds location base snapshot change blob attempts begun blobStored).
Proof using interference_moves Inj0.
  revert begun blobStored. induction attempts as [|attempts IH]; intros begun blobStored; cbn [change_loop]; [keep|].
  apply keeps_round. intros index tag Hread. apply keeps_then; [auto with overlay|intros _].
  apply keeps_judged. intros plan Hplan.
  destruct plan as [code message current|created sha previous|plan]; [keep..|].
  apply keeps_then; [keep|intros _]. apply keeps_then; [keep|intros _].
  apply keeps_then; [|intros []; keep]. apply (keeps_swapIndex _ index); [done|].
  intros stored Hs. eapply step_change; [exact Hs| |exact Hplan]. done.
Qed.

(** What is reported as changed was recorded, on the index as it was at a moment of the call. *)
Definition recorded (location : OverlayLocation) (base : AuditBase) (snapshot : OverlaySnapshotView) (change : OverlayMemberChange)
    (blob : option Blob) (w w' : World) (out : OverlayChangeOutcome) : Prop :=
  exists stored index plan,
    rtc overlay_step (index_at location w) stored /\ reads stored index /\
    planOverlayChange sha256Hex
      (mkInput snapshot (Index.entries index) (algebra_request sha256Hex change blob) (base_userId base) (base_at base)) = inr (plan_changed plan) /\
    rtc overlay_step (store_index None (Changed.entries plan)) (index_at location w') /\
    out = changed_outcome base blob plan.

Lemma recorded_later (location : OverlayLocation) (base : AuditBase) (snapshot : OverlaySnapshotView) (change : OverlayMemberChange)
    (blob : option Blob) (w w1 w2 w' : World) (out : OverlayChangeOutcome) :
  moves w w1 -> recorded location base snapshot change blob w1 w2 out -> moves w2 w' -> recorded location base snapshot change blob w w' out.
Proof using Type.
  intros H1 (stored & index & plan & Hs & Hr & Hp & He & Ho) H2. exists stored, index, plan.
  split; [by trans (index_at location w1)|]. split; [done|]. split; [done|]. split; [by trans (index_at location w2)|done].
Qed.

Lemma change_loop_recorded (location : OverlayLocation) (base : AuditBase) (snapshot : OverlaySnapshotView) (change : OverlayMemberChange)
    (blob : option Blob) (attempts : nat) (begun blobStored : bool) (w w' : World) (out : OverlayChangeOutcome) :
  run (change_loop timestamp sha256Hex toLowerCase heartbeatTimeoutSeconds location base snapshot change blob attempts begun blobStored) w
    (inr out) w' ->
  Outcome.changed out = true -> recorded location base snapshot change blob w w' out.
Proof using interference_moves Inj0.
  intros H Hch. revert begun blobStored w H. induction attempts as [|attempts IH]; intros begun blobStored w; cbn [change_loop].
  { by intros (? & ? & _ & [])%exec_bind_inr. }
  intros ([index tag] & w1 & Hread & H)%exec_bind_inr. pose proof (readOverlayState_ok _ _ _ _ Hread) as Hok.
  apply keeps_readOverlayState in Hread. apply exec_bind_inr in H as ([] & w2 & Href & H). apply keeps_refuse_sealed in Href.
  apply exec_bind_inr in H as (plan & w3 & Hplan & H). destruct (planOverlayChange _ _) as [e|plan'] eqn:Hp; [by destruct Hplan|].
  destruct Hplan as [[= ->] Ho%others_move]. destruct plan' as [code message current|created sha previous|plan].
  { by apply exec_bind_inr in H as (? & ? & _ & []). }
  { apply exec_bind_inr in H as (? & ? & _ & [[= ->] _]). done. }
  apply exec_bind_inr in H as ([] & w4 & Ha & H). apply (keeps_bool_audit _ _) in Ha.
  apply exec_bind_inr in H as ([] & w5 & Hb & H). apply keeps_blob in Hb.
  apply exec_bind_inr in H as (swapped & w6 & Hsw & H).
  assert (moves w w5) as Hw5 by (repeat (etrans; [eassumption|]); done).
  assert (forall stored, reads stored index -> overlay_step stored (store_index None (Changed.entries plan))) as Hallow.
  { intros stored Hs. eapply step_change; [exact Hs| |exact Hp]. done. }
  destruct swapped.
  - apply (swapIndex_true _ index) in Hsw as (stored & H1 & H2 & H3); [|done..].
    apply exec_bind_inr in H as ([] & w7 & Hf%keeps_finishAudit & H). apply exec_bind_inr in H as ([] & w8 & Hd%keeps_deleteUnreferencedBlobs & H).
    destruct H as [[= ->] He%others_move]. apply (recorded_later _ _ _ _ _ w w5 w6); [done| |by trans w7; [|trans w8]].
    by exists stored, index, plan.
  - apply IH in H. apply (recorded_later _ _ _ _ _ w w6 w'); [|done|done]. trans w5; [done|]. by eapply keeps_swapIndex.
Qed.

Lemma keeps_changeOverlay (tenantId userId : string) (change : OverlayMemberChange) :
  keeps (changeOverlay timestamp sha256Hex toLowerCase heartbeatTimeoutSeconds tenantId userId change).
Proof using interference_moves Inj0.
  unfold changeOverlay. pose proof keeps_change_loop. keep.
Qed.

Lemma entryAt_path (entries : list OverlayEntry) (path : string) (entry : OverlayEntry) :
  entryAt entries path = Some entry -> OverlayEntry.path entry = path.
Proof using Type. unfold entryAt. by intros [_ ?%bool_decide_eq_true]%find_some. Qed.

Lemma keeps_discard_loop (location : OverlayLocation) (base : AuditBase) (path : string) (revision : Z) (attempts : nat) (begun : bool) :
  keeps (discard_loop timestamp heartbeatTimeoutSeconds location base path revision attempts begun).
Proof using interference_moves Inj0.
  revert begun. induction attempts as [|attempts IH]; intros begun; cbn [discard_loop]; [keep|].
  apply keeps_round. intros index tag Hread. apply keeps_then; [auto with overlay|intros _].
  destruct (entryAt _ path) as [entry|] eqn:He; [|keep]. destruct (negb _); [keep|]. apply keeps_then; [keep|intros _].
  apply keeps_then; [|intros []; keep]. apply (keeps_swapIndex _ index); [done|].
  intros stored Hs. pose proof (entryAt_path _ _ _ He) as <-. by apply (step_discard stored index).
Qed.

Lemma keeps_discard (tenantId userId path : string) (revision : Z) :
  keeps (discardOverlayEntry timestamp heartbeatTimeoutSeconds tenantId userId path revision).
Proof using interference_moves Inj0. unfold discardOverlayEntry. pose proof keeps_discard_loop. keep. Qed.

Lemma keeps_list (tenantId : string) : keeps (listOverlayEntries timestamp sha256Hex tenantId).
Proof using interference_moves. unfold listOverlayEntries, loadEffectiveOverlayView. keep. Qed.

Lemma keeps_seal (owner : OwnerIdentity) : keeps (sealOverlay timestamp owner).
Proof using interference_moves Inj0.
  unfold sealOverlay. apply keeps_then; [keep|intros computer]. generalize OVERLAY_CAS_ATTEMPTS as attempts.
  induction attempts as [|attempts IH]; cbn [seal_loop]; [keep|].
  apply keeps_round. intros index tag Hread. destruct (match Index.sealed index with Some _ => _ | None => _ end) eqn:Hh; [keep|].
  apply keeps_then; [keep|intros now]. apply keeps_then; [|intros []; keep]. apply (keeps_swapIndex _ index); [done|].
  intros stored Hs. apply step_seal; [done|]. intros He. rewrite He in Hh. unfold holds_seal in Hh. cbn in Hh.
  by rewrite bool_decide_eq_true_2, Z.eqb_refl in Hh.
Qed.

Lemma keeps_begin_audits (owner : OwnerIdentity) (computerId at_ : string) (entries : list OverlayEntry) (ids : list (string * string)) :
  keeps (begin_audits owner computerId at_ ids entries).
Proof using interference_moves. revert ids. induction entries as [|entry entries IH]; intros ids; cbn [begin_audits]; keep. Qed.

#[local] Hint Resolve keeps_begin_audits : overlay.

Lemma keeps_clear (owner : OwnerIdentity) (cleared : list OverlayEntryReference) (conflicts : list ConflictReference) :
  keeps (clearOverlay timestamp sha256Hex owner cleared conflicts).
Proof using interference_moves Inj0.
  unfold clearOverlay. apply keeps_then; [keep|intros computer]. generalize OVERLAY_CAS_ATTEMPTS as attempts, (@nil (string * string)) as ids.
  induction attempts as [|attempts IH]; intros ids; cbn [clear_loop]; [keep|].
  apply keeps_round. intros index tag Hread. destruct (Index.sealed index) as [seal|] eqn:Hseal; [|keep].
  destruct (negb _); [keep|]. apply keeps_then; [keep|intros c]. apply keeps_then; [keep|intros snapshot].
  apply keeps_judged. intros toClear Hc.
  destruct (_ && _); [keep|]. apply keeps_then; [keep|intros now]. apply keeps_then; [keep|intros ids'].
  apply keeps_then; [|intros []; keep]. apply (keeps_swapIndex _ index); [done|].
  intros stored Hs. eapply step_clear; [done..|]. by eexists _, _, _, _, _.
Qed.

Lemma keeps_unseal (owner : OwnerIdentity) : keeps (unsealOverlay timestamp owner).
Proof using interference_moves Inj0.
  unfold unsealOverlay. apply keeps_rescue; [|keep]. apply keeps_then; [keep|intros computer]. generalize OVERLAY_CAS_ATTEMPTS as attempts.
  induction attempts as [|attempts IH]; cbn [unseal_loop]; [keep|].
  apply keeps_round. intros index tag Hread. destruct (Index.sealed index) as [seal|] eqn:Hseal; [|keep].
  destruct (holds_seal _ _); [|keep]. apply keeps_then; [|intros []; keep]. apply (keeps_swapIndex _ index); [done|].
  intros stored Hs. by eapply step_unseal.
Qed.
End machine.
