(* ===== verification/OverlayServiceTheorems.v ===== *)
(** * Theorems on the edit overlay service

    Every operation moves the index only along the machine; what is reported as changed was recorded; while a live owner holds
    the seal nobody else writes. The last part shows two orders of calls in which an edit is lost. *)

From Stdlib Require Import FunctionalExtensionality.
From S2P Require Import Prelude Json Dates Computers LiveFiles Overlay OverlayPlan Interaction OverlayService OverlaySystem.
From coqutil Require Import Datatypes.RecordSetters.
Import DoubleBraceUpdate.
#[local] Open Scope Z_scope.

(** The operations of the service. *)
Inductive operation : Type :=
| do_change (tenantId userId : string) (change : OverlayMemberChange)
| do_discard (tenantId userId path : string) (revision : Z)
| do_list (tenantId : string)
| do_seal (owner : OwnerIdentity)
| do_clear (owner : OwnerIdentity) (cleared : list OverlayEntryReference) (conflicts : list ConflictReference)
| do_unseal (owner : OwnerIdentity).

Section theorems.
  Context {etag : Type} (timestamp : string -> bool) (sha256Hex toLowerCase : string -> string) (heartbeatTimeoutSeconds : Z).

Abbreviation prog := (program (overlay_call etag) overlay_exn).

Definition perform (op : operation) : prog unit :=
  match op with
  | do_change tenantId userId change =>
      changeOverlay timestamp sha256Hex toLowerCase heartbeatTimeoutSeconds tenantId userId change ;; mret tt
  | do_discard tenantId userId path revision => discardOverlayEntry timestamp heartbeatTimeoutSeconds tenantId userId path revision
  | do_list tenantId => listOverlayEntries timestamp sha256Hex tenantId ;; mret tt
  | do_seal owner => sealOverlay timestamp owner ;; mret tt
  | do_clear owner cleared conflicts => clearOverlay timestamp sha256Hex owner cleared conflicts ;; mret tt
  | do_unseal owner => unsealOverlay timestamp owner
  end.

Context (etag_of : stored_body -> etag) (interference : World -> World -> Prop).

Abbreviation run := (exec (contract etag_of) interference).
Abbreviation step := (overlay_step timestamp sha256Hex).

(** C25: every operation of the service, whatever calls fail and whatever the other operations do between its calls, moves the
    index of every computer only along the machine: each write is a judgement of the index as it is at that moment, so no edit
    that another writer recorded meanwhile is overwritten. *)
Theorem overlay_service_refines_machine (op : operation) (w w' : World) (o : overlay_exn + unit) :
  Inj (=) (=) etag_of ->
  (forall w1 w2, interference w1 w2 -> moves timestamp sha256Hex w1 w2) ->
  run (perform op) w o w' -> moves timestamp sha256Hex w w'.
Proof using Type.
  intros Hinj Hi. revert w o w'. change (keeps timestamp sha256Hex etag_of interference (perform op)).
  destruct op; cbn [perform]; repeat first
    [ apply keeps_return; assumption
    | apply keeps_changeOverlay; assumption | apply keeps_discard; assumption | apply keeps_list; assumption
    | apply keeps_seal; assumption | apply keeps_clear; assumption | apply keeps_unseal; assumption
    | apply keeps_then; [|intros ?] ].
Qed.

(** ** What is reported as changed *)

(** a change that is reported as changed was recorded: at a moment of the call the index read as [index], the plan of the
    member's request on that index was the change, and from then on the index was the plan's, and then whatever others made
    of it. *)
Theorem reported_change_was_recorded (tenantId userId : string) (change : OverlayMemberChange) (w w' : World) (out : OverlayChangeOutcome) :
  Inj (=) (=) etag_of ->
  (forall w1 w2, interference w1 w2 -> moves timestamp sha256Hex w1 w2) ->
  run (changeOverlay timestamp sha256Hex toLowerCase heartbeatTimeoutSeconds tenantId userId change) w (inr out) w' ->
  Outcome.changed out = true ->
  exists location stored index input plan,
    rtc step (index_at location w) stored /\ reads timestamp stored index /\
    in_entries input = Index.entries index /\ request input = algebra_request sha256Hex change None /\ editedBy input = userId /\
    planOverlayChange sha256Hex input = inr (plan_changed plan) /\
    rtc step (store_index None (Changed.entries plan)) (index_at location w') /\
    Outcome.path out = Changed.path plan /\ Outcome.sha256 out = Changed.resultSha256 plan /\
    Outcome.revision out = OverlayEntry.revision <$> entryAt (Changed.entries plan) (Changed.path plan).
Proof using Type.
  intros Hinj Hi H Hch. unfold changeOverlay in H.
  apply exec_bind_inr in H as (computer & w1 & H1 & H). apply exec_bind_inr in H as (now & w2 & H2 & H).
  apply exec_bind_inr in H as (id & w3 & H3 & H). apply exec_bind_inr in H as (snapshot & w4 & H4 & H).
  apply exec_bind_inr in H as (blob & w5 & H5 & H).
  assert (moves timestamp sha256Hex w w5) as Hw.
  { apply (keeps_requireComputer _ _ _ _ Hi) in H1. apply (keeps_quiet _ _ _ _ Hi) in H2, H3, H4; [|done..].
    assert (moves timestamp sha256Hex w4 w5) as H6.
    { destruct change; [destruct (_ <? _); [by destruct H5|]|..]; destruct H5 as [_ H5]; by apply (others_move _ _ _ Hi). }
    repeat (etrans; [eassumption|]). done. }
  assert (algebra_request sha256Hex change blob = algebra_request sha256Hex change None) as Hblob.
  { destruct change; [destruct (_ <? _); [by destruct H5|]|..]; destruct H5 as [[= ->] _]; done. }
  apply change_loop_recorded in H as (stored & index & plan & Hs & Hr & Hp & He & ->); [|done..].
  do 3 eexists. eexists (mkInput snapshot (Index.entries index) _ userId _), plan. rewrite Hblob in Hp.
  split; [by etrans; [apply Hw|exact Hs]|]. split; [exact Hr|]. split; [done|]. split; [reflexivity|]. split; [done|].
  split; [exact Hp|]. split; [exact He|]. done.
Qed.

(** ** While a live owner holds the seal *)

Section sealed.
  Context (tenantId : string) (location : OverlayLocation) (index : OverlayIndex) (seal : OverlaySeal) (limit : Z)
    (is_sealed : Index.sealed index = Some seal).

(** The index is there, and the owner that sealed it is the computer's owner and is alive up to [limit]. *)
Record sealed_by_live_owner (w : World) : Prop := mk_sealed {
  sealed_index : index_at location w = Some (index_body index);
  sealed_computer : exists computer, computers w !! tenantId = Some computer /\ locationOf computer = location /\
    Computer.tenantId computer = tenantId /\ Computer.ownerId computer = Some (Seal.owner_id seal) /\
    Computer.ownerGeneration computer = Some (Seal.generation seal) /\ Computer.hostStartGeneration computer = Seal.generation seal;
  sealed_worker : exists worker, workers w !! (tenantId, Seal.owner_id seal) = Some worker /\ Worker.workerId worker = Seal.owner_id seal /\
    Worker.computerId worker = Some location.2 /\ limit - Worker.lastHeartbeatAt worker <= heartbeatTimeoutSeconds * 1000;
  sealed_clock : clock w <= limit;
}.

Context (others_keep : forall w w', interference w w' -> sealed_by_live_owner w -> sealed_by_live_owner w').

Abbreviation during := (through (contract etag_of) interference sealed_by_live_owner).

(** A call that only reads. *)
Definition only_reads {R : Type} (r : overlay_call etag R) : bool :=
  match r with GetComputer _ | GetWorker _ _ | GetObject _ _ | LoadSnapshot _ | Now | NextId => true | _ => false end.

Lemma during_read {R : Type} (r : overlay_call etag R) (Q : R -> Prop) :
  only_reads r = true -> (forall w v, sealed_by_live_owner w -> answered etag_of r w v w -> Q v) -> during (call r) Q.
Proof using others_keep.
  intros Hr HQ. apply through_call; [done|]. intros w x w' HP Hc.
  assert (forall v, answered etag_of r w v w' -> w' = w) as Hw by (clear -Hr; intros v Ha; destruct r; naive_solver).
  destruct x as [e|v]; cbn in Hc.
  - destruct Hc as [_ [->|[v Hv]]]; [done|]. by rewrite (Hw _ Hv).
  - rewrite (Hw _ Hc) in Hc |- *. split; [done|]. by eapply HQ.
Qed.

Lemma during_requireComputer :
  during (requireComputer tenantId) (fun computer => locationOf computer = location /\ Computer.tenantId computer = tenantId /\
    Computer.ownerId computer = Some (Seal.owner_id seal) /\ Computer.ownerGeneration computer = Some (Seal.generation seal) /\
    Computer.hostStartGeneration computer = Seal.generation seal).
Proof using others_keep.
  unfold requireComputer. eapply through_bind.
  - apply (during_read _ (fun o => exists computer, o = Some computer /\ locationOf computer = location /\ Computer.tenantId computer = tenantId /\
      Computer.ownerId computer = Some (Seal.owner_id seal) /\ Computer.ownerGeneration computer = Some (Seal.generation seal) /\
      Computer.hostStartGeneration computer = Seal.generation seal)); [done|].
    intros w v [_ (computer & Hc & H) _ _] [-> _]. by exists computer.
  - intros o (computer & -> & H). by apply through_return.
Qed.

Lemma during_refuse : during (refuseWhileSealed heartbeatTimeoutSeconds tenantId index) (fun _ => False).
Proof using others_keep is_sealed.
  unfold refuseWhileSealed. rewrite is_sealed. eapply through_bind; [apply during_requireComputer|].
  intros computer (Hl & Ht & Ho & Hg & Hs). rewrite Ho. eapply through_bind.
  - apply (during_read _ (fun o => exists worker, o = Some worker /\ Worker.workerId worker = Seal.owner_id seal /\
      Worker.computerId worker = Some location.2 /\ limit - Worker.lastHeartbeatAt worker <= heartbeatTimeoutSeconds * 1000)); [done|].
    intros w v [_ _ (worker & Hw & H) _] [-> _]. by exists worker.
  - intros o (worker & -> & Hid & Hc & Hb). eapply through_bind.
    + apply (during_read _ (fun now => now <= limit)); [done|]. intros w v [_ _ _ Hcl] [-> _]. done.
    + intros now Hnow. assert (sealBinds index computer (Some worker) now heartbeatTimeoutSeconds = true) as ->.
      { unfold sealBinds, liveOwnerOf. rewrite is_sealed, Ho, Hg, Hs, Hid, Hc. rewrite <- Hl. cbn.
        rewrite !bool_decide_eq_true_2 by done. cbn in Hnow |- *. apply Z.leb_le. lia. }
      cbn [negb]. destruct (_ || _); by apply through_raise.
Qed.

Lemma during_readOverlayState : Inj (=) (=) etag_of -> during (readOverlayState timestamp location) (fun read => read.1 = index).
Proof using others_keep.
  intros Hinj. unfold readOverlayState, storeCall. eapply through_bind.
  - apply through_rescue.
    + apply (during_read _ (fun read => exists tag, read = Some (index_body index, tag))); [done|].
      intros w v [Hi _ _ _] [-> _]. unfold index_at in Hi. rewrite Hi. by eexists.
    + intros []; by apply through_raise.
  - intros read (tag & ->). destruct (overlayIndexSchema _ _); [by apply through_return|by apply through_raise].
Qed.

Lemma during_refuse_sealed (id : string) (A : Type) (Q : A -> Prop) (f : unit -> prog A) :
  during (refuse_sealed heartbeatTimeoutSeconds false id tenantId index ≫= f) Q.
Proof using others_keep is_sealed.
  eapply through_bind; [|intros ? Hf; exact (False_ind _ Hf)]. unfold refuse_sealed. apply through_rescue; [apply during_refuse|].
  intros e. cbn [finish_begun]. eapply through_bind; [by apply (through_return _ _ _ others_keep tt (fun _ => True))|].
  intros _ _. by apply through_raise.
Qed.
End sealed.

(** C26: while the owner that sealed the overlay is alive, a member can neither change it nor drop a change: the call ends with an
    error and the index is as it was. *)
Theorem sealed_overlay_waits_for_owner (op : operation) (tenantId : string) (location : OverlayLocation) (index : OverlayIndex)
    (seal : OverlaySeal) (limit : Z) (w w' : World) (o : overlay_exn + unit) :
  Inj (=) (=) etag_of -> Index.sealed index = Some seal ->
  (forall w1 w2, interference w1 w2 ->
     sealed_by_live_owner tenantId location index seal limit w1 -> sealed_by_live_owner tenantId location index seal limit w2) ->
  (exists userId, (exists change, op = do_change tenantId userId change) \/ exists path revision, op = do_discard tenantId userId path revision) ->
  sealed_by_live_owner tenantId location index seal limit w ->
  run (perform op) w o w' ->
  (exists e, o = inl e) /\ index_at location w' = Some (index_body index).
Proof using Type.
  intros Hinj Hseal Hi (userId & Hop) HP H.
  assert (through (contract etag_of) interference (sealed_by_live_owner tenantId location index seal limit) (perform op) (fun _ => False)) as Ht.
  { destruct Hop as [[change ->]|(path & revision & ->)]; cbn [perform].
    - eapply (through_bind _ _ _ _ _ (fun _ => False)); [|done]. unfold changeOverlay.
      eapply through_bind; [by eapply during_requireComputer|]. intros computer (Hl & Ht & _). rewrite Hl.
      eapply through_bind; [by apply (during_read _ _ _ _ _ Hi _ (fun _ => True))|]. intros now _.
      eapply through_bind; [by apply (during_read _ _ _ _ _ Hi _ (fun _ => True))|]. intros id _.
      eapply through_bind; [by apply (during_read _ _ _ _ _ Hi _ (fun _ => True))|]. intros snapshot _.
      eapply (through_bind _ _ _ _ _ (fun _ => True)).
      { destruct change; [destruct (_ <? _); [by apply through_raise|]|..]; by apply through_return. }
      intros blob _. cbn [change_loop OVERLAY_CAS_ATTEMPTS]. eapply through_bind; [by eapply during_readOverlayState|].
      intros [i tag] Hx. cbn in Hx. subst i. cbn [base_tenantId]. rewrite Ht. by eapply during_refuse_sealed.
    - unfold discardOverlayEntry. eapply through_bind; [by eapply during_requireComputer|]. intros computer (Hl & Ht & _). rewrite Hl.
      eapply through_bind; [by apply (during_read _ _ _ _ _ Hi _ (fun _ => True))|]. intros id _.
      eapply through_bind; [by apply (during_read _ _ _ _ _ Hi _ (fun _ => True))|]. intros now _.
      cbn [discard_loop OVERLAY_CAS_ATTEMPTS]. eapply through_bind; [by eapply during_readOverlayState|].
      intros [i tag] Hx. cbn in Hx. subst i. cbn [base_tenantId]. rewrite Ht. by eapply during_refuse_sealed. }
  destruct (Ht w o w' HP H) as [[Hx _ _ _] Ho]. split; [|done]. destruct o as [e|[]]; [by exists e|done].
Qed.
End theorems.

(** ** Edits that are lost *)

Definition hello_sha256 : string := "2cf24dba5fb0a30e26e83b2ac5b9e29e1b161e5c1fa7425e73043362938b9824".
Definition draft_sha256 : string := "7743ce348d9284d677a185f33295b92266cc435a5b5f775029b300066d26693a".
Definition epoch_text : string := "1970-01-01T00:00:00.000Z".

Definition demo_computer : Computer :=
  (newComputerRecord "acme" "c1") {{ Computer.hostStartGeneration := 1; Computer.snapshotGeneration := 1 }}.
Definition demo_location : OverlayLocation := ("acme", "c1").

Definition demo_put (path sha256 : string) : OverlayEntry :=
  OverlayEntry.mk path (op_put (PutEntry.mk sha256 5 DEFAULT_FILE_MODE None None None)) "ann" epoch_text 1 None.

(** A computer that was never published, with one waiting edit and its blob. *)
Definition demo_world (sha256 : string) : World :=
  mkWorld {["acme" := demo_computer]} ∅
    (<[(demo_location, OVERLAY_INDEX_OBJECT) := index_body (Index.mk OVERLAY_INDEX_VERSION None [demo_put "/workspace/a" sha256])]>
     {[(demo_location, overlayBlobObject sha256) := text_body "hello"]})
    (fun _ => snapshotViewOfIndex None) [] 0.

Section lost.
  Context (timestamp : string -> bool) (sha256Hex toLowerCase : string -> string)
    (epoch_is_timestamp : timestamp epoch_text = true) (hello_hash : sha256Hex "hello" = hello_sha256).

(** A function at one point. *)
Lemma at_point {B : Type} (f : string -> B) (x : string) (y : B) : f x = y -> f = fun s => if bool_decide (s = x) then y else f s.
Proof using Type. intros H. apply functional_extensionality. intros s. case_bool_decide as Hs; congruence. Qed.

(** The discard swaps the index; the put finds its content already stored; the discard deletes the content; the put swaps. *)
Definition lossy_schedule : list bool := replicate 6 false ++ replicate 7 true ++ replicate 3 false ++ replicate 3 true.

(** A saved edit can lose its content. One member drops the waiting edit that holds a content while another saves the same
    content at another path: both calls succeed, the index then names a blob that is gone, and reading the saved file fails. *)
Theorem saved_content_can_be_lost :
  match take_turns id lossy_schedule
          (changeOverlay timestamp sha256Hex toLowerCase 60 "acme" "bob" (member_put "/workspace/b" "hello" if_none_match))
          (discardOverlayEntry timestamp 60 "acme" "ann" "/workspace/a" 1) 0 (demo_world hello_sha256) with
  | (Return out, Return tt, w) =>
      Outcome.changed out = true /\ Outcome.path out = "/workspace/b" /\ Outcome.sha256 out = Some hello_sha256 /\
      fst (finish id (readOverlayBlobBytes sha256Hex demo_location hello_sha256) 0 w) =
        inl (refusal corrupt_snapshot "A saved edit does not match its record.")
  | _ => False
  end.
Proof using epoch_is_timestamp hello_hash.
  rewrite (at_point timestamp _ _ epoch_is_timestamp), (at_point sha256Hex _ _ hello_hash). vm_compute. done.
Qed.

(** a member who drops a change by the revision that was shown can drop another change: after the shown one is dropped and a
    new text is saved at the path, the new change has the revision of the old one again, and the late request drops it. *)
Theorem stale_discard_drops_new_change :
  let '(dropped, w1) := finish id (discardOverlayEntry timestamp 60 "acme" "bob" "/workspace/a" 1) 0 (demo_world draft_sha256) in
  let '(saved, w2) := finish id (changeOverlay timestamp sha256Hex toLowerCase 60 "acme" "bob" (member_put "/workspace/a" "hello" if_none_match)) 1 w1 in
  let '(late, w3) := finish id (discardOverlayEntry timestamp 60 "acme" "ann" "/workspace/a" 1) 2 w2 in
  dropped = inr tt /\
  match saved with inr out => Outcome.changed out = true /\ Outcome.sha256 out = Some hello_sha256 /\ Outcome.revision out = Some 1 | inl _ => False end /\
  late = inr tt /\ index_at demo_location w3 = store_index None [].
Proof using epoch_is_timestamp hello_hash.
  rewrite (at_point timestamp _ _ epoch_is_timestamp), (at_point sha256Hex _ _ hello_hash). vm_compute. done.
Qed.
End lost.

(** ** Witnesses *)

Definition demo_hash (s : string) : string := if bool_decide (s = "hello") then hello_sha256 else draft_sha256.
Definition demo_timestamp (s : string) : bool := starts_with "19" s.

Lemma saved_content_can_be_lost_witness :
  demo_timestamp epoch_text = true /\
  match take_turns id lossy_schedule
          (changeOverlay demo_timestamp demo_hash id 60 "acme" "bob" (member_put "/workspace/b" "hello" if_none_match))
          (discardOverlayEntry demo_timestamp 60 "acme" "ann" "/workspace/a" 1) 0 (demo_world hello_sha256) with
  | (Return out, Return tt, w) => Outcome.changed out = true
  | _ => False
  end.
Proof.
  split; [reflexivity|]. pose proof (saved_content_can_be_lost demo_timestamp demo_hash id eq_refl eq_refl) as H.
  destruct (take_turns _ _ _ _ _ _) as [[[out| |] [[]| |]] w]; [apply H|destruct H..].
Defined.

Lemma stale_discard_drops_new_change_witness :
  let '(dropped, w1) := finish id (discardOverlayEntry demo_timestamp 60 "acme" "bob" "/workspace/a" 1) 0 (demo_world draft_sha256) in
  let '(saved, w2) := finish id (changeOverlay demo_timestamp demo_hash id 60 "acme" "bob" (member_put "/workspace/a" "hello" if_none_match)) 1 w1 in
  let '(late, w3) := finish id (discardOverlayEntry demo_timestamp 60 "acme" "ann" "/workspace/a" 1) 2 w2 in
  dropped = inr tt /\
  match saved with inr out => Outcome.changed out = true /\ Outcome.sha256 out = Some hello_sha256 /\ Outcome.revision out = Some 1 | inl _ => False end /\
  late = inr tt /\ index_at demo_location w3 = store_index None [].
Proof. exact (stale_discard_drops_new_change demo_timestamp demo_hash id eq_refl eq_refl). Defined.

(** A put, with nobody else at work. *)
Definition demo_change : program (overlay_call stored_body) overlay_exn OverlayChangeOutcome :=
  changeOverlay demo_timestamp demo_hash id 60 "acme" "bob" (member_put "/workspace/b" "hello" if_none_match).

Definition nobody (w w' : World) : Prop := False.

Lemma overlay_service_refines_machine_witness :
  moves demo_timestamp demo_hash (demo_world draft_sha256)
    (finish id (perform demo_timestamp demo_hash id 60 (do_change "acme" "bob" (member_put "/workspace/b" "hello" if_none_match))) 0
       (demo_world draft_sha256)).2.
Proof.
  apply (overlay_service_refines_machine demo_timestamp demo_hash id 60 id nobody
           (do_change "acme" "bob" (member_put "/workspace/b" "hello" if_none_match)) _ _
           (finish id (perform demo_timestamp demo_hash id 60 (do_change "acme" "bob" (member_put "/workspace/b" "hello" if_none_match))) 0
              (demo_world draft_sha256)).1).
  - by intros ? ?.
  - intros ? ? [].
  - apply finish_exec.
Defined.

Definition demo_out : OverlayChangeOutcome :=
  match fst (finish id demo_change 0 (demo_world draft_sha256)) with
  | inr out => out
  | inl _ => Outcome.mk None false "" false false None None None None 0 ""
  end.

Lemma reported_change_was_recorded_witness :
  Outcome.changed demo_out = true /\
  exists location stored index input plan,
    rtc (overlay_step demo_timestamp demo_hash) (index_at location (demo_world draft_sha256)) stored /\ reads demo_timestamp stored index /\
    in_entries input = Index.entries index /\
    request input = algebra_request demo_hash (member_put "/workspace/b" "hello" if_none_match) None /\ editedBy input = "bob" /\
    planOverlayChange demo_hash input = inr (plan_changed plan) /\
    rtc (overlay_step demo_timestamp demo_hash) (store_index None (Changed.entries plan))
      (index_at location (finish id demo_change 0 (demo_world draft_sha256)).2) /\
    Outcome.path demo_out = Changed.path plan /\ Outcome.sha256 demo_out = Changed.resultSha256 plan /\
    Outcome.revision demo_out = OverlayEntry.revision <$> entryAt (Changed.entries plan) (Changed.path plan).
Proof.
  split; [vm_compute; reflexivity|].
  apply (reported_change_was_recorded demo_timestamp demo_hash id 60 id nobody "acme" "bob" (member_put "/workspace/b" "hello" if_none_match)).
  - by intros ? ?.
  - intros ? ? [].
  - assert (fst (finish id demo_change 0 (demo_world draft_sha256)) = inr demo_out) as H by (vm_compute; reflexivity).
    rewrite <- H. apply finish_exec.
  - vm_compute. reflexivity.
Defined.

(** A computer whose owner sealed the overlay and is alive. *)
Definition demo_owned : Computer := demo_computer {{ Computer.ownerId := Some "o1"; Computer.ownerGeneration := Some 1 }}.
Definition demo_owner : Worker := Worker.mk "o1" "acme" "fargate" ["computer"] "" 0 (Some "c1") None None None None.
Definition demo_seal : OverlaySeal := Seal.mk "o1" 1 epoch_text 1.
Definition demo_sealed_index : OverlayIndex := Index.mk OVERLAY_INDEX_VERSION (Some demo_seal) [demo_put "/workspace/a" draft_sha256].
Definition demo_sealed_world : World :=
  mkWorld {["acme" := demo_owned]} {[("acme", "o1") := demo_owner]}
    {[(demo_location, OVERLAY_INDEX_OBJECT) := index_body demo_sealed_index]} (fun _ => snapshotViewOfIndex None) [] 0.

Lemma sealed_overlay_waits_for_owner_witness :
  let op := do_discard "acme" "ann" "/workspace/a" 1 in
  (exists e, (finish id (perform demo_timestamp demo_hash id 60 op) 0 demo_sealed_world).1 = inl e) /\
  index_at demo_location (finish id (perform demo_timestamp demo_hash id 60 op) 0 demo_sealed_world).2 = Some (index_body demo_sealed_index).
Proof.
  apply (sealed_overlay_waits_for_owner demo_timestamp demo_hash id 60 id nobody (do_discard "acme" "ann" "/workspace/a" 1) "acme" demo_location
           demo_sealed_index demo_seal 5 demo_sealed_world).
  - by intros ? ?.
  - reflexivity.
  - intros ? ? [].
  - exists "ann". right. by exists "/workspace/a", 1.
  - split; [reflexivity|by exists demo_owned
           |by exists demo_owner|done].
  - apply finish_exec.
Defined.
