(* ===== verification/Policy.v ===== *)
(** * The capability policy

    Models the policy kernel of [src/conversation/src/policy]: the policy of one turn with its grant, denials, browser contexts
    and binding controls ([capability-policy.ts]), the ceilings of members ([ceiling.ts], [authorization-ceiling.ts],
    [domain/roles.ts]), unattended actions ([overnight.ts]), and the sinks that every model-requested operation passes
    ([sinks.ts]).

    A [CapabilityPolicy] is a mutable object: its methods are programs of [policyM], which pass its state and may throw. A
    browser context is an object the policy and the caller share: it is named by its position in [contexts]. A property that
    may be absent or null is an option. A plain object that is read as a table is an association list in the order of its
    properties, whose names are not those of [Object.prototype]. [parse_url] stands for the [URL] parser of the platform: it
    gives the protocol and the host name, or nothing where the constructor throws. *)

From S2P Require Import Prelude Json LiveFiles Service Grant.
From coqutil Require Import Datatypes.RecordSetters.
Import DoubleBraceUpdate.
#[local] Open Scope Z_scope.

(** ** Vocabulary *)

Inductive ApprovalDecision : Type := ALLOW | DENY | REQUIRE_APPROVAL.

#[export] Instance ApprovalDecision_eq_dec : EqDecision ApprovalDecision.
Proof. solve_decision. Defined.

Definition ApprovedOriginFetch : string := "approved_origin_fetch".
Definition StructuredSend : string := "structured_send".
Definition FileTransfer : string := "file_transfer".

Inductive BindingControl : Type := StructuredConnector | ImmutableApproval | HumanTakeover | UnboundStop.

#[export] Instance BindingControl_eq_dec : EqDecision BindingControl.
Proof. solve_decision. Defined.

Inductive BrowserContextKind : Type := Untrusted | Privileged.

Definition V1_POLICY_EXCLUSIONS : list string :=
  ["snapshot_cookie_integrity"; "bot_to_bot_channel_injection"; "approval_fatigue"; "prompt_data_separation_as_boundary";
   "generic_browser_click_binding"; "local_device_execution_isolation"; "bot_as_security_boundary"].

(** A property of a table. *)
Abbreviation table := (list (string * string)).

Definition property (t : table) (name : string) : option string := map_get name t.

(** [table[key] ?? key]. *)
Definition alias (t : table) (key : string) : string := default key (property t key).

Definition CONSEQUENTIAL_BROWSER_ALIASES : table :=
  [("send", "send"); ("publish", "publish"); ("purchase", "purchase"); ("delete", "delete"); ("change production", "production_change")].

Definition SECRET_ENTRY_ACTIONS : list string := ["password"; "passkey"; "one_time_code"].

Definition CONSEQUENTIAL_ACTION_TYPES : list string := ["send"; "publish"; "purchase"; "delete"; "production_change"].

(** [if (value)] for a text that may be absent. *)
Definition truthy (s : option string) : option string :=
  match s with Some EmptyString | None => None | Some s => Some s end.

Module Request.
Record RequestedCapability : Type := mk {
  tool : string;
  origin : option string;
  recipient : option string;
  filePath : option string;
  egressClass : option string;
}.
End Request.
Abbreviation RequestedCapability := Request.RequestedCapability.

Record CapabilityDenial : Type := mkDenial { denial_reason : string; denied_request : RequestedCapability; recordedAt : Z }.

Record HouseholdCredential : Type := mkCredential { credential_kind : string; credential_name : string; credential_value : string }.

Module Context.
Record PolicyBrowserContext : Type := mk {
  kind : BrowserContextKind;
  pageUrl : string;
  namedSession : option string;
  storagePartition : string;
  cookies : list (string * string);
}.
End Context.
Abbreviation PolicyBrowserContext := Context.PolicyBrowserContext.

Module Operation.
Record BoundConnectorOperation : Type := mk { actionType : string; destination : string; payload : string; approved : bool }.
End Operation.
Abbreviation BoundConnectorOperation := Operation.BoundConnectorOperation.

Module Overnight.
Record OvernightGatedResult : Type := mk {
  executed : bool;
  turn_status : string;
  reason : option string;
  completion_evidence : option string;
}.
End Overnight.
Abbreviation OvernightGatedResult := Overnight.OvernightGatedResult.

(** A result that did not execute, and one that did. *)
Definition blocked (reason : string) : OvernightGatedResult := Overnight.mk false "blocked" (Some reason) None.
Definition completed (evidence : option string) : OvernightGatedResult := Overnight.mk true "completed" None evidence.

(** ** The policy of a turn *)

Module Policy.
Record CapabilityPolicy : Type := mk {
  grant : option TaskCapabilityGrant;
  credentials : list (string * HouseholdCredential);
  denials : list CapabilityDenial;
  egress_blocked : list RequestedCapability;
  unblocked_egress : list RequestedCapability;
  contexts : list PolicyBrowserContext;
  last_decision : option ApprovalDecision;
  last_binding : option BindingControl;
  last_overnight : option OvernightGatedResult;
  bound_operation : option BoundConnectorOperation;
  recorded_exclusions : gset string;
  injection_followed_by_model : bool;
  takeover_waiting : bool;
}.
End Policy.
Abbreviation CapabilityPolicy := Policy.CapabilityPolicy.

Definition new_policy : CapabilityPolicy := Policy.mk None [] [] [] [] [] None None None None ∅ false false.

Inductive policy_error : Type :=
| InvalidUrl
| CapabilitySinkDenied (message : string)
| CapabilitySinkApprovalRequired (message : string)
| PolicyError (message : string).

(** A method of the policy: the state it leaves and its result or what it throws. *)
Definition policyM (A : Type) : Type := CapabilityPolicy -> (policy_error + A) * CapabilityPolicy.

#[export] Instance policyM_ret : MRet policyM := fun A x p => (inr x, p).
#[export] Instance policyM_bind : MBind policyM :=
  fun A B k m p => match m p with (inl e, p') => (inl e, p') | (inr x, p') => k x p' end.

Definition throw {A : Type} (e : policy_error) : policyM A := fun p => (inl e, p).
Definition read_policy : policyM CapabilityPolicy := fun p => (inr p, p).
Definition modify (f : CapabilityPolicy -> CapabilityPolicy) : policyM unit := fun p => (inr tt, f p).

(** [try { m } catch (error) { handler }]. *)
Definition try_catch {A : Type} (m : policyM A) (handler : policy_error -> policyM A) : policyM A :=
  fun p => match m p with (inl e, p') => handler e p' | r => r end.

Definition setGrant (grant : TaskCapabilityGrant) : policyM unit := modify (fun p => p {{ Policy.grant := Some grant }}).

Definition addCredential (credential : HouseholdCredential) : policyM unit :=
  modify (fun p => p {{ Policy.credentials := map_set (credential_name credential) credential (Policy.credentials p) }}).

(** Open a context and name it by its position. *)
Definition open_context (context : PolicyBrowserContext) : policyM nat :=
  p ← read_policy;
  modify (fun p => p {{ Policy.contexts := Policy.contexts p ++ [context] }}) ;;
  mret (length (Policy.contexts p)).

Definition openUntrusted (pageUrl : string) : policyM nat := open_context (Context.mk Untrusted pageUrl None "untrusted" []).

Definition openPrivileged (pageUrl service : string) : policyM nat :=
  open_context (Context.mk Privileged pageUrl (Some service) ("privileged:" +:+ service) []).

Definition contextMayUse (p : CapabilityPolicy) (context : PolicyBrowserContext) (name : string) : bool :=
  match map_get name (Policy.credentials p) with
  | None => false
  | Some credential =>
      if bool_decide (credential_kind credential <> "browser_session") then false
      else bool_decide (Context.namedSession context = Some name)
  end.

Definition workspaceSecretReadable (p : CapabilityPolicy) (context : PolicyBrowserContext) (path : string) : bool :=
  match Context.kind context with
  | Untrusted => false
  | Privileged =>
      existsb (fun kv => bool_decide (credential_kind kv.2 = "workspace_secret") && bool_decide (credential_value kv.2 = path))
        (Policy.credentials p)
  end.

(** [context.cookies.set(name, value)] on the shared context. *)
Definition writeCookie (context : nat) (name value : string) : policyM unit :=
  modify (fun p => p {{ Policy.contexts :=
    alter (fun c => c {{ Context.cookies := map_set name value (Context.cookies c) }}) context (Policy.contexts p) }}).

Definition cookieInContext (p : CapabilityPolicy) (context : nat) (name : string) : option string :=
  c ← Policy.contexts p !! context; map_get name (Context.cookies c).

Definition modelVisibleToolResult (context : PolicyBrowserContext) : string :=
  stringify (JObj
    [("kind", JStr (match Context.kind context with Untrusted => "untrusted" | Privileged => "privileged" end));
     ("pageUrl", JStr (Context.pageUrl context));
     ("session", match Context.namedSession context with Some s => JStr s | None => JNull end);
     ("cookieNames", JArr ((fun kv => JStr kv.1) <$> Context.cookies context))]).

(** [text.includes(part)]. *)
Fixpoint includes (part text : string) : bool :=
  starts_with part text || match text with EmptyString => false | String _ text' => includes part text' end.

Definition modelVisibleSecrets (p : CapabilityPolicy) (context : PolicyBrowserContext) : list string :=
  let visible := modelVisibleToolResult context in
  let candidates := ((fun kv => credential_value kv.2) <$> Policy.credentials p) ++ (snd <$> Context.cookies context) in
  List.filter (fun secret => negb (bool_decide (secret = EmptyString)) && includes secret visible) candidates.

Definition is_consequential (tool : string) : bool := bool_decide (tool ∈ CONSEQUENTIAL_ACTION_TYPES).

(** [scope.replace(/\/$/, "")]. *)
Definition without_last_slash (scope : string) : string :=
  match reverse_string scope EmptyString with
  | String c r => if bool_decide (c = slash) then reverse_string r EmptyString else scope
  | EmptyString => scope
  end.

Definition fileInScopes (path : string) (scopes : gset string) : bool :=
  existsb (fun scope => bool_decide (path = scope) || starts_with (without_last_slash scope +:+ "/") path) (elements scopes).

Definition householdConversationGrant : TaskCapabilityGrant :=
  Grant.mk {["read_workspace"; "write_workspace"; "edit_workspace"; "run_terminal"]} ∅ ∅ {["/workspace"]} {[ApprovedOriginFetch]} ∅.

(** [raw.split(",").map((part) => part.trim()).filter((part) => part.length > 0)] as a set. *)
Definition grant_field (rows : table) (fieldName : string) : gset string :=
  list_to_set (List.filter (fun part => negb (bool_decide (part = EmptyString)))
    (trim <$> split_char (Ascii.ascii_of_nat 44) (default EmptyString (property rows fieldName)))).

Definition parseGrantTable (rows : table) : TaskCapabilityGrant :=
  Grant.mk (grant_field rows "tools") (grant_field rows "origins") (grant_field rows "recipients") (grant_field rows "file_scopes")
    (grant_field rows "egress_classes") (grant_field rows "ingest_classes").

Definition deny (now : Z) (reason : string) (request : RequestedCapability) : policyM ApprovalDecision :=
  modify (fun p => p {{ Policy.denials := Policy.denials p ++ [mkDenial reason request now] }}) ;;
  (if bool_decide (is_Some (truthy (Request.origin request)) \/ is_Some (truthy (Request.recipient request)) \/
                   is_Some (truthy (Request.egressClass request)))
   then modify (fun p => p {{ Policy.egress_blocked := Policy.egress_blocked p ++ [request] }})
   else mret tt) ;;
  modify (fun p => p {{ Policy.last_decision := Some DENY }}) ;;
  mret DENY.

Definition json_text (s : string) : string := stringify (JStr s).

Section policy.
  Context (parse_url : string -> option (string * string)).

Definition originFromUrl (url : string) : option string :=
  let urlWithScheme := if includes "://" url then url else "https://" +:+ url in
  '(protocol, hostname) ← parse_url urlWithScheme;
  Some (protocol +:+ "//" +:+ hostname).

(** The origin of a request that names one; [new URL] may throw. *)
Definition request_origin (request : RequestedCapability) : policyM (option string) :=
  match truthy (Request.origin request) with
  | None => mret None
  | Some url => match originFromUrl url with Some origin => mret (Some origin) | None => throw InvalidUrl end
  end.

(** Whether a text that is there is outside a set. *)
Definition outside (value : option string) (allowed : gset string) : bool :=
  match value with Some v => bool_decide (v ∉ allowed) | None => false end.

Definition auditEgressOutsideGrant (request : RequestedCapability) (grant : TaskCapabilityGrant) : policyM unit :=
  origin ← request_origin request;
  if outside origin (Grant.origins grant) || outside (truthy (Request.recipient request)) (Grant.recipients grant) ||
     outside (truthy (Request.egressClass request)) (Grant.egressClasses grant)
  then modify (fun p => p {{ Policy.unblocked_egress := Policy.unblocked_egress p ++ [request] }})
  else mret tt.

Definition evaluate (now : Z) (request : RequestedCapability) : policyM ApprovalDecision :=
  p ← read_policy;
  match Policy.grant p with
  | None => deny now "no task grant" request
  | Some grant =>
      if bool_decide (Request.tool request ∉ Grant.tools grant)
      then deny now ("tool " +:+ json_text (Request.tool request) +:+ " is not granted") request
      else
        origin ← request_origin request;
        if outside origin (Grant.origins grant)
        then deny now ("origin " +:+ json_text (default EmptyString origin) +:+ " is not granted") request
        else if outside (truthy (Request.recipient request)) (Grant.recipients grant)
        then deny now ("recipient " +:+ json_text (default EmptyString (Request.recipient request)) +:+ " is not granted") request
        else if match truthy (Request.filePath request) with Some path => negb (fileInScopes path (Grant.fileScopes grant)) | None => false end
        then deny now ("file " +:+ json_text (default EmptyString (Request.filePath request)) +:+ " is outside granted scopes") request
        else if outside (truthy (Request.egressClass request)) (Grant.egressClasses grant)
        then deny now ("egress class " +:+ json_text (default EmptyString (Request.egressClass request)) +:+ " is not granted") request
        else if is_consequential (Request.tool request)
        then
          auditEgressOutsideGrant request grant ;;
          modify (fun p => p {{ Policy.last_decision := Some REQUIRE_APPROVAL; Policy.last_binding := Some ImmutableApproval }}) ;;
          mret REQUIRE_APPROVAL
        else
          auditEgressOutsideGrant request grant ;;
          modify (fun p => p {{ Policy.last_decision := Some ALLOW }}) ;;
          mret ALLOW
  end.

Definition requestPrivilegedSession (now : Z) (context : PolicyBrowserContext) (service : string) : policyM ApprovalDecision :=
  let request := Request.mk "use_session" (Some (Context.pageUrl context)) None None None in
  if bool_decide (Context.namedSession context <> Some service)
  then deny now "a context is bound to its one named session, and an untrusted context has none" request
  else modify (fun p => p {{ Policy.last_decision := Some ALLOW }}) ;; mret ALLOW.

Definition requireTakeover : policyM BindingControl :=
  modify (fun p => p {{ Policy.last_binding := Some HumanTakeover; Policy.takeover_waiting := true;
                        Policy.last_overnight := Some (blocked "waiting_for_human_takeover") }}) ;;
  mret HumanTakeover.

Definition unknown_exclusion (exclusion : string) : policy_error := PolicyError ("unknown v1 exclusion " +:+ json_text exclusion).

Definition recordExclusion (exclusion : string) : policyM unit :=
  if bool_decide (exclusion ∉ V1_POLICY_EXCLUSIONS) then throw (unknown_exclusion exclusion)
  else modify (fun p => p {{ Policy.recorded_exclusions := Policy.recorded_exclusions p ∪ {[exclusion]} }}).

Definition requiredBindingForBrowserAction (action : string) (structuredConnector takeoverControl approved : bool) : policyM BindingControl :=
  let actionType := alias CONSEQUENTIAL_BROWSER_ALIASES action in
  if takeoverControl || bool_decide (actionType ∈ SECRET_ENTRY_ACTIONS) then requireTakeover
  else if negb structuredConnector && is_consequential actionType then
    modify (fun p => p {{ Policy.last_binding := Some UnboundStop;
                          Policy.last_overnight := Some (blocked "user_controlled_completion_required") }}) ;;
    recordExclusion "generic_browser_click_binding" ;;
    mret UnboundStop
  else if structuredConnector && negb approved then
    modify (fun p => p {{ Policy.last_binding := Some ImmutableApproval;
                          Policy.last_overnight := Some (blocked "immutable_approval_required") }}) ;;
    mret ImmutableApproval
  else
    modify (fun p => p {{ Policy.last_binding := Some StructuredConnector }}) ;;
    mret StructuredConnector.

Definition bindConnector (actionType destination payload : string) : policyM unit :=
  modify (fun p => p {{ Policy.bound_operation := Some (Operation.mk actionType destination payload false) }}).

Definition approveBoundOperation : policyM unit :=
  p ← read_policy;
  match Policy.bound_operation p with
  | None => throw (PolicyError "no bound connector operation")
  | Some o =>
      modify (fun p => p {{ Policy.bound_operation :=
        Some (Operation.mk (Operation.actionType o) (Operation.destination o) (Operation.payload o) true) }})
  end.

Definition executeBoundConnector (evidence : string) : policyM OvernightGatedResult :=
  p ← read_policy;
  let refuse actionType :=
    requiredBindingForBrowserAction actionType true false false ;;
    p ← read_policy;
    match Policy.last_overnight p with
    | None => throw (PolicyError "last_overnight not set")
    | Some result => mret result
    end in
  match Policy.bound_operation p with
  | None => refuse "send"
  | Some o =>
      if negb (Operation.approved o) then refuse (Operation.actionType o)
      else
        let result := completed (Some evidence) in
        modify (fun p => p {{ Policy.last_overnight := Some result; Policy.last_binding := Some StructuredConnector }}) ;;
        mret result
  end.

Definition markInjectionFollowedByModel : policyM unit :=
  modify (fun p => p {{ Policy.injection_followed_by_model := true }}) ;;
  recordExclusion "prompt_data_separation_as_boundary".

Definition sink_denial_is_control (p : CapabilityPolicy) : bool :=
  Policy.injection_followed_by_model p && bool_decide (Policy.last_decision p = Some DENY) && negb (bool_decide (Policy.denials p = [])).

Definition prompt_wording_is_boundary (p : CapabilityPolicy) : bool :=
  Policy.injection_followed_by_model p && bool_decide (Policy.last_decision p <> Some DENY).

(** ** The probes of the gaps of version 1 *)

Definition probeGrantForOrigin (origin : string) : TaskCapabilityGrant := Grant.mk {["browse"]} {[origin]} ∅ ∅ ∅ ∅.

Definition probe_request : RequestedCapability := Request.mk "browse" (Some "https://probe.example/page") None None None.
Definition probe_send : RequestedCapability := Request.mk "send" None (Some "probe@example.com") None (Some StructuredSend).

(** [evaluate] does not read the attribution, so both requests are the same. *)
Definition probeDecisionDiffersByAttribution (now : Z) : policyM bool :=
  setGrant (probeGrantForOrigin "https://probe.example") ;;
  first ← evaluate now probe_request;
  second ← evaluate now probe_request;
  mret (bool_decide (first <> second)).

(** At most 25 evaluations of a send, until one needs no approval. *)
Fixpoint approval_fatigue_probe (now : Z) (attempts : nat) : policyM bool :=
  match attempts with
  | O => mret false
  | S attempts' =>
      decision ← evaluate now probe_send;
      if bool_decide (decision <> REQUIRE_APPROVAL) then mret true else approval_fatigue_probe now attempts'
  end.

Definition probe_of (now : Z) (exclusion : string) : policyM bool :=
  if bool_decide (exclusion = "snapshot_cookie_integrity") then
    context ← openUntrusted "https://probe.example";
    writeCookie context "probe" "genuine" ;;
    writeCookie context "probe" "tampered" ;;
    p ← read_policy;
    mret (bool_decide (cookieInContext p context "probe" <> Some "tampered"))
  else if bool_decide (exclusion = "generic_browser_click_binding") then
    binding ← requiredBindingForBrowserAction "send" false false false;
    mret (bool_decide (binding <> UnboundStop))
  else if bool_decide (exclusion = "approval_fatigue") then
    setGrant (Grant.mk {["send"]} ∅ {["probe@example.com"]} ∅ {[StructuredSend]} ∅) ;;
    approval_fatigue_probe now 25
  else if bool_decide (exclusion = "prompt_data_separation_as_boundary") then
    setGrant (Grant.mk ∅ ∅ ∅ ∅ ∅ ∅) ;;
    markInjectionFollowedByModel ;;
    evaluate now probe_send ;;
    p ← read_policy;
    mret (prompt_wording_is_boundary p)
  else if bool_decide (exclusion = "local_device_execution_isolation") then
    setGrant (probeGrantForOrigin "http://127.0.0.1") ;;
    decision ← evaluate now (Request.mk "browse" (Some "http://127.0.0.1:9222/json") None None None);
    mret (bool_decide (decision <> ALLOW))
  else if bool_decide (exclusion ∈ ["bot_to_bot_channel_injection"; "bot_as_security_boundary"]) then
    probeDecisionDiffersByAttribution now
  else throw (PolicyError ("no enforcement probe for v1 exclusion " +:+ json_text exclusion)).

(** The probe runs on a policy of its own. *)
Definition workerClaimsEnforced (now : Z) (exclusion : string) : policy_error + bool :=
  if bool_decide (exclusion ∉ V1_POLICY_EXCLUSIONS) then inl (unknown_exclusion exclusion)
  else fst (probe_of now exclusion new_policy).

Definition reviewExclusion (now : Z) (exclusion : string) : policyM unit :=
  match workerClaimsEnforced now exclusion with
  | inl e => throw e
  | inr true => mret tt
  | inr false => recordExclusion exclusion
  end.

End policy.
