(* ===== verification/PolicySinks.v ===== *)
(** * Ceilings, approvals and sinks

    Models the standing of members ([policy/ceiling.ts], [policy/authorization-ceiling.ts], [domain/roles.ts]), unattended
    actions ([policy/overnight.ts]), approvals bound to one reviewed operation ([policy/approval-binding.ts]) and the sinks
    that combine them ([policy/sinks.ts]).

    The approvals and proposals of a tenant are a finite map from their identifiers: [createApproval] of the store is
    conditional on the identifier being free, and nothing replaces an item. *)

From S2P Require Import Prelude Json LiveFiles Grant Policy.
From coqutil Require Import Datatypes.RecordSetters.
Import DoubleBraceUpdate.
#[local] Open Scope Z_scope.

(** ** Ceilings *)

Module Ceiling.
Record Ceiling : Type := mk {
  actionTypes : gset string;
  origins : gset string;
  recipients : gset string;
  fileScopes : gset string;
  egressClasses : gset string;
  ingestClasses : gset string;
  spendLimit : option Z;
}.
End Ceiling.
Abbreviation Ceiling := Ceiling.Ceiling.

Definition clipSpendLimit (left right : option Z) : option Z :=
  match left, right with
  | None, _ => right
  | _, None => left
  | Some l, Some r => Some (Z.min l r)
  end.

(** [new Set([...set].filter((x) => bound.has(x)))]. *)
Definition clip_set (s bound : gset string) : gset string := filter (fun x => x ∈ bound) s.

Definition clip_ceiling (c ceiling : Ceiling) : Ceiling :=
  Ceiling.mk (clip_set (Ceiling.actionTypes c) (Ceiling.actionTypes ceiling)) (clip_set (Ceiling.origins c) (Ceiling.origins ceiling))
    (clip_set (Ceiling.recipients c) (Ceiling.recipients ceiling)) (clip_set (Ceiling.fileScopes c) (Ceiling.fileScopes ceiling))
    (clip_set (Ceiling.egressClasses c) (Ceiling.egressClasses ceiling)) (clip_set (Ceiling.ingestClasses c) (Ceiling.ingestClasses ceiling))
    (clipSpendLimit (Ceiling.spendLimit c) (Ceiling.spendLimit ceiling)).

Definition clip (g : TaskCapabilityGrant) (ceiling : Ceiling) : TaskCapabilityGrant :=
  Grant.mk (clip_set (Grant.tools g) (Ceiling.actionTypes ceiling)) (clip_set (Grant.origins g) (Ceiling.origins ceiling))
    (clip_set (Grant.recipients g) (Ceiling.recipients ceiling)) (clip_set (Grant.fileScopes g) (Ceiling.fileScopes ceiling))
    (clip_set (Grant.egressClasses g) (Ceiling.egressClasses ceiling)) (clip_set (Grant.ingestClasses g) (Ceiling.ingestClasses ceiling)).

Definition setsEqual (a b : gset string) : bool :=
  if negb (size a =? size b)%nat then false else forallb (fun x => bool_decide (x ∈ b)) (elements a).

Definition grantExceedsCeiling (g : TaskCapabilityGrant) (ceiling : Ceiling) : bool :=
  let clipped := clip g ceiling in
  negb (setsEqual (Grant.tools clipped) (Grant.tools g)) || negb (setsEqual (Grant.origins clipped) (Grant.origins g)) ||
  negb (setsEqual (Grant.recipients clipped) (Grant.recipients g)) || negb (setsEqual (Grant.fileScopes clipped) (Grant.fileScopes g)) ||
  negb (setsEqual (Grant.egressClasses clipped) (Grant.egressClasses g)) ||
  negb (setsEqual (Grant.ingestClasses clipped) (Grant.ingestClasses g)).

(** *** The standing of a role *)

Inductive MemberRole : Type := role_owner | role_member.

Definition consequential_types : gset string := list_to_set CONSEQUENTIAL_ACTION_TYPES.

Definition MEMBER_EXCLUDED_ACTION_TYPES : list string := ["purchase"; "production_change"].

Definition ceilingForMemberRole (role : MemberRole) : Ceiling :=
  match role with
  | role_owner => Ceiling.mk consequential_types ∅ ∅ ∅ ∅ ∅ None
  | role_member => Ceiling.mk (filter (fun t => t ∉ MEMBER_EXCLUDED_ACTION_TYPES) consequential_types) ∅ ∅ ∅ ∅ ∅ None
  end.

(** *** The standing of a member *)

Record MemberAuthorityCeiling : Type := mkAuthority { grantCeiling : Ceiling; structuredArgumentBindings : table }.

Record MemberStanding : Type := mkStanding { roleActionTypes : gset string; perActionCeiling : option MemberAuthorityCeiling }.

Definition owner_standing : MemberStanding := mkStanding (Ceiling.actionTypes (ceilingForMemberRole role_owner)) None.

Definition STRUCTURED_ARGUMENT_ALIASES : table :=
  [("recipient", "destination"); ("destination", "destination"); ("body", "payload"); ("payload", "payload")].

Definition CONNECTION_STANDING_ACTION_TYPE : string := "connection".

Definition emptyOrSingle (value : option string) : gset string := match truthy value with Some v => {[v]} | None => ∅ end.

Definition taskGrantForRequestedCapability (request : RequestedCapability) : TaskCapabilityGrant :=
  Grant.mk (emptyOrSingle (Some (Request.tool request))) (emptyOrSingle (Request.origin request)) (emptyOrSingle (Request.recipient request))
    (emptyOrSingle (Request.filePath request)) (emptyOrSingle (Request.egressClass request)) ∅.

Definition normalizeStructuredArguments (arguments_ : table) : table :=
  foldl (fun normalized kv => map_set (alias STRUCTURED_ARGUMENT_ALIASES kv.1) kv.2 normalized) [] arguments_.

(** [Object.fromEntries]: a later pair replaces an earlier one with its key. *)
Definition fromEntries (pairs : table) : table := foldl (fun t kv => map_set kv.1 kv.2 t) [] pairs.

Definition egressForAction (actionType : string) : option string :=
  if bool_decide (actionType = "send") then Some StructuredSend
  else if is_consequential actionType then Some FileTransfer
  else None.

Definition taskGrantForStructuredArguments (actionType : string) (arguments_ : table) : TaskCapabilityGrant :=
  let normalized := normalizeStructuredArguments arguments_ in
  Grant.mk (if is_consequential actionType then {[actionType]} else ∅) ∅ (emptyOrSingle (property normalized "destination")) ∅
    (emptyOrSingle (egressForAction actionType)) ∅.

Definition structuredBindingsWithinCeilingBindings (attempted ceilingBindings : table) : bool :=
  match ceilingBindings with
  | [] => true
  | _ =>
      let normalizedAttempted := normalizeStructuredArguments attempted in
      forallb (fun kv => bool_decide (property normalizedAttempted kv.1 = Some kv.2)) (normalizeStructuredArguments ceilingBindings)
  end.

Definition sortedPairs (arguments_ : table) : table :=
  stable_sort (fun l r => bool_decide (utf16_compare l.1 r.1 = Lt)) arguments_.

Definition memberAuthorityCeilingFromStructuredArguments (actionType : string) (arguments_ : table) : MemberAuthorityCeiling :=
  if bool_decide (actionType = CONNECTION_STANDING_ACTION_TYPE)
  then mkAuthority (Ceiling.mk {[CONNECTION_STANDING_ACTION_TYPE]} ∅ ∅ ∅ ∅ ∅ None) (sortedPairs arguments_)
  else
    let normalized := normalizeStructuredArguments arguments_ in
    mkAuthority
      (Ceiling.mk {[actionType]} ∅ (emptyOrSingle (property normalized "destination")) ∅ (emptyOrSingle (egressForAction actionType)) ∅ None)
      (sortedPairs arguments_).

Definition grantExceedsMemberAuthorityCeiling (g : TaskCapabilityGrant) (memberCeiling : option MemberAuthorityCeiling) : bool :=
  match memberCeiling with None => false | Some m => grantExceedsCeiling g (grantCeiling m) end.

(** Whether attempted bindings are outside the bindings of a ceiling that has some. *)
Definition bindings_exceed (attempted : table) (m : MemberAuthorityCeiling) : bool :=
  match structuredArgumentBindings m with
  | [] => false
  | bindings => negb (structuredBindingsWithinCeilingBindings attempted (fromEntries bindings))
  end.

Definition requestExceedsMemberStanding (request : RequestedCapability) (standing : MemberStanding) (structuredArguments : option table) : bool :=
  if is_consequential (Request.tool request) && bool_decide (Request.tool request ∉ roleActionTypes standing) then true
  else match perActionCeiling standing with
       | None => false
       | Some perAction =>
           if grantExceedsMemberAuthorityCeiling (taskGrantForRequestedCapability request) (Some perAction) then true
           else match structuredArguments with
                | None | Some [] => false
                | Some arguments_ => bindings_exceed arguments_ perAction
                end
       end.

Definition autoReviewRuleExceedsMemberAuthorityCeiling (actionType : string) (argumentBindings : table)
    (memberCeiling : option MemberAuthorityCeiling) : bool :=
  match memberCeiling with
  | None => false
  | Some m =>
      if grantExceedsMemberAuthorityCeiling (taskGrantForStructuredArguments actionType argumentBindings) (Some m) then true
      else bindings_exceed argumentBindings m
  end.

Definition connectionProposalExceedsMemberAuthorityCeiling (channelName receivingTenantId : string)
    (memberCeiling : option MemberAuthorityCeiling) : bool :=
  match memberCeiling with
  | None => true
  | Some m =>
      negb (structuredBindingsWithinCeilingBindings [("channel", channelName); ("receiving_tenant", receivingTenantId)]
              (fromEntries (structuredArgumentBindings m)))
  end.

Definition memberAuthorityCeilingFromGrantTable (rows : table) : MemberAuthorityCeiling :=
  let g := parseGrantTable rows in
  mkAuthority (Ceiling.mk (Grant.tools g) (Grant.origins g) (Grant.recipients g) (Grant.fileScopes g) (Grant.egressClasses g)
                 (Grant.ingestClasses g) None) [].

(** The store's ceilings are a parameter: [memberAuthorityCeilingFor]. *)
Definition grantReplaceExceedsActingMemberStanding (g : TaskCapabilityGrant) (roleActionTypes : gset string)
    (grantBoundsCeiling : option MemberAuthorityCeiling) (memberAuthorityCeilingFor : string -> option MemberAuthorityCeiling) : bool :=
  let consequential := List.filter is_consequential (elements (Grant.tools g)) in
  if negb (forallb (fun tool => bool_decide (tool ∈ roleActionTypes)) consequential) then true
  else if grantExceedsMemberAuthorityCeiling g grantBoundsCeiling then true
  else existsb (fun tool => grantExceedsMemberAuthorityCeiling g (memberAuthorityCeilingFor tool)) consequential.

(** ** Approvals bound to one operation *)

Module Structured.
Record StructuredConsequentialOperation : Type := mk { actionType : string; destination : string; payload : string }.
End Structured.
Abbreviation StructuredConsequentialOperation := Structured.StructuredConsequentialOperation.

#[export] Instance Structured_eq_dec : EqDecision StructuredConsequentialOperation.
Proof. solve_decision. Defined.

Inductive ActorKind : Type := actor_human | actor_bot.

#[export] Instance ActorKind_eq_dec : EqDecision ActorKind.
Proof. solve_decision. Defined.

Record AuthorizationIdentity : Type := mkIdentity { actor_kind : ActorKind; actorId : string }.

Inductive ApprovalKind : Type := approval_proposal | approval_approval.

#[export] Instance ApprovalKind_eq_dec : EqDecision ApprovalKind.
Proof. solve_decision. Defined.

Record ApprovalItem : Type := mkApproval {
  approval_kind : ApprovalKind;
  approval_operation : StructuredConsequentialOperation;
  approver : option AuthorizationIdentity;
}.

Record BoundExecutionResult : Type := mkBound {
  bound_executed : bool;
  bound_reason : option string;
  completionEvidence : option string;
  requiresNewApproval : bool;
}.

Record ApprovedOperation : Type := mkApproved {
  approvalId : string;
  approved_operation : StructuredConsequentialOperation;
  approved_by : AuthorizationIdentity;
}.

(** The approvals of one tenant. *)
Abbreviation approvals := (gmap string ApprovalItem).

Definition taskGrantForStructuredOperation (o : StructuredConsequentialOperation) : TaskCapabilityGrant :=
  taskGrantForStructuredArguments (Structured.actionType o)
    [("destination", Structured.destination o); ("payload", Structured.payload o)].

Definition structuredOperationExceedsMemberAuthorityCeiling (o : StructuredConsequentialOperation)
    (memberCeiling : option MemberAuthorityCeiling) : bool :=
  match memberCeiling with
  | None => false
  | Some m =>
      if grantExceedsMemberAuthorityCeiling (taskGrantForStructuredOperation o) (Some m) then true
      else bindings_exceed [("destination", Structured.destination o); ("payload", Structured.payload o)] m
  end.

(** [PolicyStore.createApproval]: the put is conditional on the key being free. *)
Definition createApproval (store : approvals) (id : string) (item : ApprovalItem) : policy_error + approvals :=
  match store !! id with
  | Some _ => inl (PolicyError ("The approval " +:+ json_text id +:+ " already exists."))
  | None => inr (<[id := item]> store)
  end.

(** [proposalId] is the identifier the source of identifiers gave. *)
Definition proposeStructuredOperation (store : approvals) (proposalId : string) (o : StructuredConsequentialOperation) :
    policy_error + approvals :=
  if negb (is_consequential (Structured.actionType o))
  then inl (PolicyError ("Action type " +:+ json_text (Structured.actionType o) +:+ " is not consequential."))
  else createApproval store proposalId (mkApproval approval_proposal o None).

Definition KERNEL_HUMAN_AUTHOR : string := "kernel".

Definition approveOperation (store : approvals) (newId proposalId : string) (o : StructuredConsequentialOperation)
    (by_ : option AuthorizationIdentity) : policy_error + (approvals * ApprovedOperation) :=
  match store !! proposalId with
  | Some stored =>
      if bool_decide (approval_kind stored <> approval_proposal \/ approval_operation stored <> o)
      then inl (PolicyError ("Unknown or stale proposal " +:+ json_text proposalId +:+ "."))
      else
        let resolvedApprover := default (mkIdentity actor_human KERNEL_HUMAN_AUTHOR) by_ in
        match createApproval store newId (mkApproval approval_approval (approval_operation stored) (Some resolvedApprover)) with
        | inl _ => inl (PolicyError ("Approval " +:+ json_text newId +:+ " already exists."))
        | inr store' => inr (store', mkApproved newId (approval_operation stored) resolvedApprover)
        end
  | None => inl (PolicyError ("Unknown or stale proposal " +:+ json_text proposalId +:+ "."))
  end.

Definition DESTINATION_CHANGED : string := "destination_changed".
Definition PAYLOAD_CHANGED : string := "payload_changed".
Definition NOT_APPROVED : string := "not_approved".

Definition notExecuted (reason : string) : BoundExecutionResult := mkBound false (Some reason) None true.

Definition executeApprovedOperation (store : approvals) (approval : ApprovedOperation) (attempted : StructuredConsequentialOperation)
    (evidence : string) : BoundExecutionResult :=
  match store !! approvalId approval with
  | Some stored =>
      let bound := approval_operation stored in
      if bool_decide (approval_kind stored <> approval_approval \/ bound <> approved_operation approval) then notExecuted NOT_APPROVED
      else if bool_decide (Structured.actionType attempted <> Structured.actionType bound) then notExecuted NOT_APPROVED
      else if bool_decide (Structured.destination attempted <> Structured.destination bound) then notExecuted DESTINATION_CHANGED
      else if bool_decide (Structured.payload attempted <> Structured.payload bound) then notExecuted PAYLOAD_CHANGED
      else mkBound true None (Some evidence) false
  | None => notExecuted NOT_APPROVED
  end.

(** ** Unattended actions *)

Inductive AutoReviewRuleKind : Type := RequireApproval | AlwaysAllow | NeverAllow.

#[export] Instance AutoReviewRuleKind_eq_dec : EqDecision AutoReviewRuleKind.
Proof. solve_decision. Defined.

Module Rule.
Record AutoReviewRule : Type := mk {
  ruleId : string;
  kind : AutoReviewRuleKind;
  actionType : string;
  tenantId : string;
  userId : option string;
  argumentBindings : table;
  creator : AuthorizationIdentity;
}.
End Rule.
Abbreviation AutoReviewRule := Rule.AutoReviewRule.

Definition WAITING_FOR_HUMAN : string := "waiting_for_human".
Definition USER_CONTROLLED_COMPLETION_REQUIRED : string := "user_controlled_completion_required".
Definition CHANNEL_BROWSER : string := "browser".

Definition bindingsEqual (bindings arguments_ : table) : bool :=
  let bound := fromEntries bindings in
  (length bound =? length arguments_)%nat && forallb (fun kv => bool_decide (Some kv.2 = property arguments_ kv.1)) bound.

(** A rule a human made beforehand for exactly this operation. *)
Definition rule_matches (actionType tenantId : string) (userId : option string) (arguments_ : table) (rule : AutoReviewRule) : bool :=
  bool_decide (Rule.kind rule = AlwaysAllow) && bool_decide (actor_kind (Rule.creator rule) = actor_human) &&
  bool_decide (Rule.actionType rule = actionType) && bool_decide (Rule.tenantId rule = tenantId) &&
  (bool_decide (Rule.userId rule = None) || bool_decide (Rule.userId rule = userId)) &&
  (0 <? length (Rule.argumentBindings rule))%nat && bindingsEqual (Rule.argumentBindings rule) arguments_.

Definition resolveUnattendedGatedAction (actionType : string) (arguments_ : table) (channel : string) (rules : list AutoReviewRule)
    (tenantId : string) (userId : option string) (completionEvidence : string) : OvernightGatedResult :=
  if negb (is_consequential actionType) then completed None
  else if bool_decide (channel = CHANNEL_BROWSER) then blocked USER_CONTROLLED_COMPLETION_REQUIRED
  else if (0 <? length (List.filter (rule_matches actionType tenantId userId arguments_) rules))%nat then completed (Some completionEvidence)
  else blocked WAITING_FOR_HUMAN.

Definition BROWSER_ACTION_ALIASES : table :=
  [("send", "send"); ("publish", "publish"); ("purchase", "purchase"); ("delete", "delete"); ("change production", "production_change")].

Definition resolveUnboundAuthenticatedBrowserAction (action : string) (structuredConnector takeoverControl : bool) :
    policy_error + OvernightGatedResult :=
  if structuredConnector || takeoverControl then inl (PolicyError "binding control is present; this path is for unbound actions")
  else inr (if negb (is_consequential (alias BROWSER_ACTION_ALIASES action)) then completed None
            else blocked USER_CONTROLLED_COMPLETION_REQUIRED).

(** [PolicyControl.evaluateAction], on the rules of the tenant. *)
Definition evaluateAction (rules : list AutoReviewRule) (actionType tenantId : string) (userId : option string) : ApprovalDecision :=
  let matching := List.filter (fun rule =>
    bool_decide (Rule.actionType rule = actionType) && bool_decide (Rule.tenantId rule = tenantId) &&
    (bool_decide (Rule.userId rule = None) || bool_decide (Rule.userId rule = userId))) rules in
  let some_rule kind := existsb (fun rule => bool_decide (Rule.kind rule = kind)) matching in
  if some_rule NeverAllow then DENY
  else if some_rule RequireApproval then REQUIRE_APPROVAL
  else if some_rule AlwaysAllow then ALLOW
  else if is_consequential actionType then REQUIRE_APPROVAL
  else ALLOW.

(** ** Sinks *)

Definition MEMBER_STANDING_DENIAL : string := "exceeds member authority standing".

Definition structuredActionRequest (actionType : string) (arguments_ : table) : RequestedCapability :=
  let recipient := match property arguments_ "recipient" with Some r => Some r | None => property arguments_ "destination" end in
  let egressClass :=
    if bool_decide (actionType = "send") then Some StructuredSend
    else if bool_decide (actionType ∈ ["publish"; "purchase"; "delete"; "production_change"]) then Some FileTransfer
    else None in
  Request.mk actionType (property arguments_ "origin") recipient (property arguments_ "file_path") egressClass.

Section sinks.
  Context (parse_url : string -> option (string * string)) (now : Z).

Definition denyIfExceedsMemberStanding (request : RequestedCapability) (memberStanding : MemberStanding) (structuredArguments : option table) :
    policyM unit :=
  if requestExceedsMemberStanding request memberStanding structuredArguments
  then deny now MEMBER_STANDING_DENIAL request ;; throw (CapabilitySinkDenied MEMBER_STANDING_DENIAL)
  else mret tt.

(** The reason of the last denial. *)
Definition last_reason (p : CapabilityPolicy) : string :=
  match last (Policy.denials p) with Some d => denial_reason d | None => "denied" end.

(** What [requireAllow] and [requireGranted] begin with: throw on a denial, or give the decision. *)
Definition granted_decision (request : RequestedCapability) (memberStanding : MemberStanding) (structuredArguments : option table) :
    policyM ApprovalDecision :=
  denyIfExceedsMemberStanding request memberStanding structuredArguments ;;
  decision ← evaluate parse_url now request;
  if bool_decide (decision = DENY) then p ← read_policy; throw (CapabilitySinkDenied (last_reason p))
  else mret decision.

Definition requireGranted (request : RequestedCapability) (memberStanding : MemberStanding) (structuredArguments : option table) : policyM unit :=
  granted_decision request memberStanding structuredArguments ;; mret tt.

Definition requireAllow (request : RequestedCapability) (memberStanding : MemberStanding) (structuredArguments : option table) : policyM unit :=
  decision ← granted_decision request memberStanding structuredArguments;
  if bool_decide (decision = REQUIRE_APPROVAL) then throw (CapabilitySinkApprovalRequired "immutable approval required")
  else mret tt.

Definition gatedReadWorkspace (path : string) (memberStanding : MemberStanding) : policyM unit :=
  requireAllow (Request.mk "read_workspace" None None (Some path) (Some ApprovedOriginFetch)) memberStanding None.

Definition gatedWriteWorkspace (path : string) (memberStanding : MemberStanding) : policyM unit :=
  requireAllow (Request.mk "write_workspace" None None (Some path) None) memberStanding None.

Definition gatedRunTerminal (command cwd : string) (memberStanding : MemberStanding) : policyM unit :=
  requireAllow (Request.mk "run_terminal" None None (Some cwd) None) memberStanding None.

Definition gatedBrowseOrigin (url : string) (memberStanding : MemberStanding) : policyM unit :=
  requireAllow (Request.mk "browse" (Some url) None None (Some ApprovedOriginFetch)) memberStanding None.

Definition gatedStructuredSend (recipient payload : string) (memberStanding : MemberStanding) : policyM unit :=
  requireGranted (Request.mk "send" None (Some recipient) None (Some StructuredSend)) memberStanding
    (Some [("recipient", recipient); ("body", payload)]) ;;
  bindConnector "send" recipient payload.

Definition openUntrustedBrowserContext (pageUrl : string) (memberStanding : MemberStanding) : policyM nat :=
  gatedBrowseOrigin pageUrl memberStanding ;; openUntrusted pageUrl.

Definition openPrivilegedBrowserContext (pageUrl service : string) (memberStanding : MemberStanding) : policyM nat :=
  gatedBrowseOrigin pageUrl memberStanding ;; openPrivileged pageUrl service.

Definition gatedBrowserSession (context : PolicyBrowserContext) (service : string) (session : option string) : policyM (option string) :=
  p ← read_policy;
  if bool_decide (is_Some session) && negb (contextMayUse p context service)
  then throw (CapabilitySinkDenied ("context cannot use browser session " +:+ json_text service))
  else match truthy session with
       | Some s => mret (Some s)
       | None =>
           match map_get service (Policy.credentials p) with
           | None => mret None
           | Some credential =>
               if bool_decide (credential_kind credential <> "browser_session") then mret None
               else if negb (contextMayUse p context service) then mret None
               else mret (Some (credential_value credential))
           end
       end.

Definition attemptAuthenticatedBrowserActionAtSink (action : string) (structuredConnector takeoverControl : bool) : policyM OvernightGatedResult :=
  if structuredConnector then throw (PolicyError "a structured connector binds through the approval path, not this one")
  else
    requiredBindingForBrowserAction action false takeoverControl false ;;
    p ← read_policy;
    match Policy.last_overnight p with
    | Some result => mret result
    | None => mret (if negb (is_consequential action) then completed None else blocked "user_controlled_completion_required")
    end.

Definition resolveUnattendedGatedActionAtSink (actionType : string) (arguments_ : table) (channel : string) (rules : list AutoReviewRule)
    (tenantId : string) (memberStanding : MemberStanding) (userId : option string) (completionEvidence : string) : policyM OvernightGatedResult :=
  let request := structuredActionRequest actionType arguments_ in
  let continue_ :=
    if bool_decide (channel = CHANNEL_BROWSER) && is_consequential actionType
    then attemptAuthenticatedBrowserActionAtSink actionType false false
    else mret (resolveUnattendedGatedAction actionType arguments_ channel rules tenantId userId completionEvidence) in
  refused ← try_catch (denyIfExceedsMemberStanding request memberStanding (Some arguments_) ;; mret None)
              (fun e => match e with CapabilitySinkDenied message => mret (Some message) | _ => throw e end);
  match (refused : option string) with
  | Some message => mret (blocked message)
  | None =>
      p ← read_policy;
      match Policy.grant p with
      | None =>
          if is_consequential actionType then evaluate parse_url now request ;; mret (blocked "no task grant") else continue_
      | Some _ =>
          decision ← evaluate parse_url now request;
          if bool_decide (decision = DENY) then p ← read_policy; mret (blocked (last_reason p)) else continue_
      end
  end.

(** The gate's answer is a function of the approvals it reads. *)
Definition executeApprovedOperationAtSink (store : approvals) (approval : ApprovedOperation) (attempted : StructuredConsequentialOperation)
    (evidence : string) (memberStanding : MemberStanding) : policyM BoundExecutionResult :=
  let request := Request.mk (Structured.actionType attempted) None (Some (Structured.destination attempted)) None (Some StructuredSend) in
  let structuredArguments := [("destination", Structured.destination attempted); ("payload", Structured.payload attempted)] in
  refused ← try_catch (requireGranted request memberStanding (Some structuredArguments) ;; mret None)
              (fun e => match e with CapabilitySinkDenied message => mret (Some message) | _ => throw e end);
  match (refused : option string) with
  | Some message => mret (mkBound false (Some message) None true)
  | None =>
      let result := executeApprovedOperation store approval attempted evidence in
      (if bound_executed result
       then
         bindConnector (Structured.actionType attempted) (Structured.destination attempted) (Structured.payload attempted) ;;
         approveBoundOperation ;;
         executeBoundConnector evidence ;;
         mret tt
       else mret tt) ;;
      mret result
  end.
End sinks.
