(* ===== verification/PolicyTheorems.v ===== *)
(** * Theorems on the policy

    What passes a sink: only what the task's grant and the member's standing both hold, and an action with consequences only
    as a human approved it or ruled it beforehand. Ceilings are intersections. The gaps version 1 names are not claimed as
    enforced. The last part shows an approved action that no sink executes.

    Clipping to a ceiling is the meet of what is asked and what may be given; and what a ceiling made for one reviewed operation
    holds, against what the sink that carries out approved operations asks of it. *)

From S2P Require Import Prelude Json LiveFiles Grant Policy PolicySinks.
From coqutil Require Import Datatypes.RecordSetters.
Import DoubleBraceUpdate.
#[local] Open Scope Z_scope.

(** ** Programs of the policy *)

Lemma policy_bind {A B : Type} (m : policyM A) (k : A -> policyM B) (p : CapabilityPolicy) :
  (m ≫= k) p = match m p with (inl e, p') => (inl e, p') | (inr x, p') => k x p' end.
Proof. reflexivity. Qed.

Lemma bind_inr {A B : Type} (m : policyM A) (k : A -> policyM B) (p p' : CapabilityPolicy) (b : B) :
  (m ≫= k) p = (inr b, p') <-> exists a p1, m p = (inr a, p1) /\ k a p1 = (inr b, p').
Proof.
  rewrite policy_bind. destruct (m p) as [[e|a] p1]; [naive_solver|]. split; [eauto|]. by intros (? & ? & [= <- <-] & ?).
Qed.

(** ** What a grant holds *)

Lemma outside_false (value : option string) (allowed : gset string) :
  outside value allowed = false <-> forall v, value = Some v -> v ∈ allowed.
Proof.
  unfold outside. destruct value as [v|]; [|naive_solver]. rewrite bool_decide_eq_false. split; [intros H ? [= <-]|intros H].
  - by apply dec_stable.
  - intros Hn. apply Hn. by apply H.
Qed.

Lemma outside_true (value : option string) (allowed : gset string) :
  outside value allowed = true -> exists v, value = Some v /\ v ∉ allowed.
Proof. unfold outside. destruct value as [v|]; [|done]. intros ?%bool_decide_eq_true. eauto. Qed.

(** A denial is recorded and blocks; nothing else of the policy that matters changes. *)
Lemma deny_ok (now : Z) (reason : string) (request : RequestedCapability) (p : CapabilityPolicy) :
  exists p', deny now reason request p = (inr DENY, p') /\ Policy.grant p' = Policy.grant p /\
    Policy.unblocked_egress p' = Policy.unblocked_egress p /\ Policy.denials p' = Policy.denials p ++ [mkDenial reason request now].
Proof. unfold deny. rewrite policy_bind. cbn. case_bool_decide; cbn; eauto. Qed.

Section grants.
  Context (parse_url : string -> option (string * string)).

(** The request is for what the grant holds, field by field. *)
Record within_grant (g : TaskCapabilityGrant) (request : RequestedCapability) : Prop := mk_within {
  within_tool : Request.tool request ∈ Grant.tools g;
  within_origin : forall url, truthy (Request.origin request) = Some url ->
    exists origin, originFromUrl parse_url url = Some origin /\ origin ∈ Grant.origins g;
  within_recipient : forall recipient, truthy (Request.recipient request) = Some recipient -> recipient ∈ Grant.recipients g;
  within_file : forall path, truthy (Request.filePath request) = Some path -> fileInScopes path (Grant.fileScopes g) = true;
  within_egress : forall class, truthy (Request.egressClass request) = Some class -> class ∈ Grant.egressClasses g;
}.

(** The origin of a request is read without touching the policy. *)
Lemma request_origin_cases (request : RequestedCapability) :
  (exists url, truthy (Request.origin request) = Some url /\ originFromUrl parse_url url = None /\
     forall p, request_origin parse_url request p = (inl InvalidUrl, p)) \/
  exists origin, (forall p, request_origin parse_url request p = (inr origin, p)) /\
    forall allowed, outside origin allowed = false <->
      forall url, truthy (Request.origin request) = Some url -> exists o, originFromUrl parse_url url = Some o /\ o ∈ allowed.
Proof.
  unfold request_origin. destruct (truthy (Request.origin request)) as [url|].
  2:{ right. exists None. split; [done|]. intros allowed. rewrite outside_false. naive_solver. }
  destruct (originFromUrl parse_url url) as [origin|] eqn:Ho; [right|left; by exists url].
  exists (Some origin). split; [done|]. intros allowed. rewrite outside_false. split.
  - intros H u [= <-]. rewrite Ho. eauto.
  - intros H v [= <-]. destruct (H url eq_refl) as (o & Ho' & Hin). congruence.
Qed.

(** What an evaluation decides, and what it leaves of the policy. *)
Definition decided (now : Z) (request : RequestedCapability) (p : CapabilityPolicy) (r : policy_error + ApprovalDecision) (p' : CapabilityPolicy) : Prop :=
  Policy.grant p' = Policy.grant p /\ Policy.unblocked_egress p' = Policy.unblocked_egress p /\
  match r with
  | inl e => e = InvalidUrl /\ ~ (exists g, Policy.grant p = Some g /\ within_grant g request)
  | inr DENY =>
      (exists reason, Policy.denials p' = Policy.denials p ++ [mkDenial reason request now]) /\
      ~ (exists g, Policy.grant p = Some g /\ within_grant g request)
  | inr d =>
      d = (if is_consequential (Request.tool request) then REQUIRE_APPROVAL else ALLOW) /\ Policy.denials p' = Policy.denials p /\
      exists g, Policy.grant p = Some g /\ within_grant g request
  end.

Lemma decided_deny (now : Z) (reason : string) (request : RequestedCapability) (p : CapabilityPolicy) :
  ~ (exists g, Policy.grant p = Some g /\ within_grant g request) ->
  decided now request p (deny now reason request p).1 (deny now reason request p).2.
Proof.
  intros Hn. destruct (deny_ok now reason request p) as (p' & -> & ? & ? & ?). cbn. unfold decided. eauto 6.
Qed.

Lemma evaluate_decides (now : Z) (request : RequestedCapability) (p : CapabilityPolicy) :
  decided now request p (evaluate parse_url now request p).1 (evaluate parse_url now request p).2.
Proof.
  unfold evaluate. rewrite policy_bind. cbn [read_policy].
  destruct (Policy.grant p) as [g|] eqn:Hg; [|apply decided_deny; naive_solver].
  assert (forall P : Prop, (forall g', Some g = Some g' -> within_grant g' request -> P) -> ~ P ->
    ~ exists g', Policy.grant p = Some g' /\ within_grant g' request) as Hno by (rewrite Hg; naive_solver).
  case_bool_decide as Ht; [apply decided_deny, (Hno (Request.tool request ∈ Grant.tools g)); [by intros ? [= <-] []|done]|].
  rewrite policy_bind.
  destruct (request_origin_cases request) as [(url & Hu & Ho & Hr)|(origin & Hr & Hout)]; rewrite Hr.
  { cbn. split; [done|]. split; [done|]. split; [done|]. rewrite Hg. intros (g' & [= <-] & Hw).
    destruct (within_origin _ _ Hw url Hu) as (o & Ho' & _). congruence. }
  destruct (outside origin (Grant.origins g)) eqn:Ho.
  { apply decided_deny. rewrite Hg. intros (g' & [= <-] & Hw). pose proof (proj2 (Hout _) (within_origin _ _ Hw)). congruence. }
  destruct (outside _ (Grant.recipients g)) eqn:Hrec.
  { apply decided_deny. rewrite Hg. intros (g' & [= <-] & Hw). pose proof (proj2 (outside_false _ _) (within_recipient _ _ Hw)). congruence. }
  destruct (match truthy (Request.filePath request) with Some path => _ | None => _ end) eqn:Hfile.
  { apply decided_deny. rewrite Hg. intros (g' & [= <-] & Hw). destruct (truthy (Request.filePath request)) as [path|] eqn:Hp; [|done].
    rewrite (within_file _ _ Hw path Hp) in Hfile. done. }
  destruct (outside _ (Grant.egressClasses g)) eqn:Heg.
  { apply decided_deny. rewrite Hg. intros (g' & [= <-] & Hw). pose proof (proj2 (outside_false _ _) (within_egress _ _ Hw)). congruence. }
  assert (within_grant g request) as Hw.
  { split; [done|by apply Hout|by apply outside_false| |by apply outside_false].
    intros path Hp. rewrite Hp in Hfile. by apply negb_false_iff in Hfile. }
  assert (auditEgressOutsideGrant parse_url request g p = (inr tt, p)) as Ha.
  { unfold auditEgressOutsideGrant. by rewrite policy_bind, Hr, Ho, Hrec, Heg. }
  destruct (is_consequential _) eqn:Hc; rewrite policy_bind, Ha, policy_bind; unfold modify, decided; rewrite Hc; cbn; eauto 8.
Qed.
End grants.

(** ** Sinks *)

Section sinks.
  Context (parse_url : string -> option (string * string)) (now : Z).

Lemma denyIfExceeds_ok (request : RequestedCapability) (standing : MemberStanding) (arguments_ : option table) (p : CapabilityPolicy) :
  if requestExceedsMemberStanding request standing arguments_
  then exists p', denyIfExceedsMemberStanding now request standing arguments_ p = (inl (CapabilitySinkDenied MEMBER_STANDING_DENIAL), p') /\
         Policy.grant p' = Policy.grant p /\ Policy.unblocked_egress p' = Policy.unblocked_egress p
  else denyIfExceedsMemberStanding now request standing arguments_ p = (inr tt, p).
Proof using Type.
  unfold denyIfExceedsMemberStanding. destruct (requestExceedsMemberStanding _ _ _); [|done]. rewrite policy_bind.
  destruct (deny_ok now MEMBER_STANDING_DENIAL request p) as (p' & -> & ? & ? & _). by exists p'.
Qed.

(** The decision a sink goes on with is not a denial and is the decision of the evaluation. *)
Lemma granted_decision_ok (request : RequestedCapability) (standing : MemberStanding) (arguments_ : option table) (p : CapabilityPolicy) :
  exists r p', granted_decision parse_url now request standing arguments_ p = (r, p') /\
    Policy.grant p' = Policy.grant p /\ Policy.unblocked_egress p' = Policy.unblocked_egress p /\
    match r with
    | inl e =>
        (exists message, e = CapabilitySinkDenied message) \/ e = InvalidUrl
    | inr d => d = (if is_consequential (Request.tool request) then REQUIRE_APPROVAL else ALLOW)
    end /\
    ((exists d, r = inr d) <->
     requestExceedsMemberStanding request standing arguments_ = false /\ exists g, Policy.grant p = Some g /\ within_grant parse_url g request).
Proof using Type.
  unfold granted_decision. rewrite policy_bind. pose proof (denyIfExceeds_ok request standing arguments_ p) as Hd.
  destruct (requestExceedsMemberStanding _ _ _).
  { destruct Hd as (p' & -> & Hg & Hu). exists (inl (CapabilitySinkDenied MEMBER_STANDING_DENIAL)), p'. naive_solver. }
  rewrite Hd, policy_bind. pose proof (evaluate_decides parse_url now request p) as He.
  destruct (evaluate parse_url now request p) as [r p']. cbn in He. destruct He as (Hg & Hu & Hr).
  destruct r as [e|d].
  { destruct Hr as [-> Hn]. exists (inl InvalidUrl), p'. naive_solver. }
  case_bool_decide as Hdeny.
  - subst d. destruct Hr as [_ Hn]. exists (inl (CapabilitySinkDenied (last_reason p'))), p'. naive_solver.
  - exists (inr d), p'. destruct d; naive_solver.
Qed.

(** C20: a sink lets an operation pass exactly when it is within the task's grant in every field and within the acting member's
    standing, and has no consequences that need an approval. And no evaluation ever lets egress outside the grant through. *)
Theorem sink_passes_only_granted (request : RequestedCapability) (standing : MemberStanding) (arguments_ : option table) (p : CapabilityPolicy) :
  (fst (requireAllow parse_url now request standing arguments_ p) = inr tt <->
   requestExceedsMemberStanding request standing arguments_ = false /\ is_consequential (Request.tool request) = false /\
   exists g, Policy.grant p = Some g /\ within_grant parse_url g request) /\
  Policy.unblocked_egress (snd (requireAllow parse_url now request standing arguments_ p)) = Policy.unblocked_egress p.
Proof using Type.
  unfold requireAllow. rewrite policy_bind.
  destruct (granted_decision_ok request standing arguments_ p) as (r & p' & -> & _ & Hu & Hr & Hiff).
  destruct r as [e|d]; cbn.
  { split; [|done]. split; [done|]. intros (Hs & _ & Hg). destruct (proj2 Hiff (conj Hs Hg)) as [d ?]. done. }
  subst d. destruct (is_consequential _); cbn; (split; [|done]); [naive_solver|].
  split; [|done]. intros _. destruct (proj1 Hiff) as [Hs Hg]; eauto.
Qed.

(** ** Unattended actions *)

Lemma alias_consequential (action : string) : is_consequential action = true -> alias CONSEQUENTIAL_BROWSER_ALIASES action = action.
Proof using Type.
  unfold is_consequential. intros H%bool_decide_eq_true. unfold CONSEQUENTIAL_ACTION_TYPES in H.
  repeat (apply elem_of_cons in H as [->|H]; [reflexivity|]). by apply elem_of_nil in H.
Qed.

(** A browser never carries out an action with consequences. *)
Lemma browser_blocks (action : string) (p p' : CapabilityPolicy) (r : OvernightGatedResult) :
  is_consequential action = true -> attemptAuthenticatedBrowserActionAtSink action false false p = (inr r, p') ->
  Overnight.executed r = false.
Proof using Type.
  intros Hc. unfold attemptAuthenticatedBrowserActionAtSink, requiredBindingForBrowserAction. rewrite alias_consequential by done.
  rewrite Hc. cbn [negb andb orb]. case_bool_decide; cbn; by intros [= <- _].
Qed.

Lemma resolve_executes (actionType : string) (arguments_ : table) (channel : string) (rules : list AutoReviewRule)
    (tenantId : string) (userId : option string) (evidence : string) :
  is_consequential actionType = true ->
  Overnight.executed (resolveUnattendedGatedAction actionType arguments_ channel rules tenantId userId evidence) = true ->
  channel <> CHANNEL_BROWSER /\ exists rule, rule ∈ rules /\ rule_matches actionType tenantId userId arguments_ rule = true.
Proof using Type.
  intros Hc. unfold resolveUnattendedGatedAction. rewrite Hc. cbn [negb]. case_bool_decide; [done|].
  destruct (List.filter _ rules) as [|rule l] eqn:Hf; [done|]. intros _. split; [done|]. exists rule.
  rewrite list_elem_of_In. apply filter_In. rewrite Hf. by left.
Qed.
End sinks.

(** ** Tables *)

Lemma map_set_keys {V : Type} (k : string) (v : V) (m : list (string * V)) : NoDup m.*1 -> NoDup (map_set k v m).*1.
Proof.
  destruct (decide (k ∈ m.*1)) as [Hin|Hout].
  - assert ((map_set k v m).*1 = m.*1) as ->; [|done]. clear -Hin.
    induction m as [|[k' v'] m IH]; cbn in *; [by apply elem_of_nil in Hin|]. case_bool_decide; cbn; [done|]. f_equal. apply IH. set_solver.
  - intros Hnd. rewrite map_set_fresh by done. rewrite fmap_app. apply NoDup_app. repeat split; [done| |by apply NoDup_singleton].
    set_solver.
Qed.

Lemma fromEntries_keys (pairs : table) : NoDup (fromEntries pairs).*1.
Proof.
  unfold fromEntries. assert (forall t : table, NoDup t.*1 -> NoDup (foldl (fun t kv => map_set kv.1 kv.2 t) t pairs).*1) as H.
  { induction pairs as [|kv pairs IH]; intros t Ht; cbn; [done|]. apply IH. by apply map_set_keys. }
  apply H. constructor.
Qed.

(** Equal bindings bind the same arguments to the same values. *)
Lemma bindingsEqual_ok (bindings arguments_ : table) :
  NoDup arguments_.*1 -> bindingsEqual bindings arguments_ = true ->
  forall k, property (fromEntries bindings) k = property arguments_ k.
Proof.
  intros Hnd [Hlen%Nat.eqb_eq Hall]%andb_prop. pose proof (fromEntries_keys bindings) as Hb. set (bound := fromEntries bindings) in *.
  assert (forall k v, (k, v) ∈ bound -> property arguments_ k = Some v) as Hin.
  { intros k v Hkv%list_elem_of_In. pose proof (proj1 (forallb_forall _ _) Hall _ Hkv) as H. cbn in H.
    by apply bool_decide_eq_true in H. }
  assert (forall k, k ∈ arguments_.*1 -> k ∈ bound.*1) as Hsub.
  { intros k. rewrite !list_elem_of_In. revert k. apply NoDup_length_incl.
    - by apply NoDup_ListNoDup.
    - rewrite !length_fmap. lia.
    - intros k. rewrite <- !list_elem_of_In. intros ([k' v] & -> & Hkv)%list_elem_of_fmap. cbn.
      apply Hin, map_get_Some in Hkv. by apply (list_elem_of_fmap_2 fst _ (k', v)). }
  intros k. unfold property. destruct (map_get k bound) as [v|] eqn:Hg.
  - apply map_get_Some in Hg. symmetry. by apply Hin.
  - symmetry. apply map_get_None. apply map_get_None in Hg. auto.
Qed.

(** With nobody at the screen, a sink carries out an action with consequences only over a structured channel, only within the
    task's grant and the member's standing, and only when a human made an always-allow rule that binds exactly its arguments. *)
Lemma unattended_sink_ok (parse_url : string -> option (string * string)) (now : Z) (actionType : string)
    (arguments_ : table) (channel : string) (rules : list AutoReviewRule) (tenantId : string) (standing : MemberStanding)
    (userId : option string) (evidence : string) (p p' : CapabilityPolicy) (r : OvernightGatedResult) :
  is_consequential actionType = true -> NoDup arguments_.*1 ->
  resolveUnattendedGatedActionAtSink parse_url now actionType arguments_ channel rules tenantId standing userId evidence p = (inr r, p') ->
  Overnight.executed r = true ->
  channel <> CHANNEL_BROWSER /\
  requestExceedsMemberStanding (structuredActionRequest actionType arguments_) standing (Some arguments_) = false /\
  (exists g, Policy.grant p = Some g /\ within_grant parse_url g (structuredActionRequest actionType arguments_)) /\
  exists rule, rule ∈ rules /\ Rule.kind rule = AlwaysAllow /\ actor_kind (Rule.creator rule) = actor_human /\
    Rule.actionType rule = actionType /\ Rule.tenantId rule = tenantId /\ (Rule.userId rule = None \/ Rule.userId rule = userId) /\
    forall k, property (fromEntries (Rule.argumentBindings rule)) k = property arguments_ k.
Proof.
  intros Hc Hnd H Hex. unfold resolveUnattendedGatedActionAtSink in H. apply bind_inr in H as (refused & p1 & Ht & H).
  unfold try_catch in Ht. rewrite policy_bind in Ht.
  pose proof (denyIfExceeds_ok now (structuredActionRequest actionType arguments_) standing (Some arguments_) p) as Hd.
  destruct (requestExceedsMemberStanding _ _ _).
  { destruct Hd as (p2 & Hd & _). rewrite Hd in Ht. injection Ht as <- <-. injection H as <- _. done. }
  rewrite Hd in Ht. injection Ht as <- <-. rewrite policy_bind in H. cbn [read_policy] in H. rewrite Hc in H. cbn [andb] in H.
  destruct (Policy.grant p) as [g|] eqn:Hg.
  2:{ apply bind_inr in H as (? & ? & _ & H). injection H as <- _. done. }
  apply bind_inr in H as (d & p1 & He & H). pose proof (evaluate_decides parse_url now (structuredActionRequest actionType arguments_) p) as Hev.
  rewrite He in Hev. destruct Hev as (_ & _ & Hdec). case_bool_decide as Hdeny; [injection H as <- _; done|].
  assert (exists g, Policy.grant p = Some g /\ within_grant parse_url g (structuredActionRequest actionType arguments_)) as Hw
    by (destruct d; [apply Hdec|done|apply Hdec]).
  destruct (bool_decide (channel = CHANNEL_BROWSER)) eqn:Hch.
  { apply browser_blocks in H; [congruence|done]. }
  injection H as <- _. apply resolve_executes in Hex as (Hnb & rule & Hin & Hm); [|done]. rewrite Hg in Hw.
  split; [done|]. split; [done|]. split; [done|]. exists rule. unfold rule_matches in Hm.
  apply andb_prop in Hm as [Hm Hb]. rewrite !andb_true_iff, orb_true_iff, !bool_decide_eq_true in Hm.
  deex. repeat split; try done. by apply bindingsEqual_ok.
Qed.

(** ** Approvals *)

(** What changes the approvals of a tenant: proposing and approving. *)
Inductive gate_step (store : approvals) : approvals -> Prop :=
| step_propose (id : string) (o : StructuredConsequentialOperation) (store' : approvals) :
    proposeStructuredOperation store id o = inr store' -> gate_step store store'
| step_approve (id proposalId : string) (o : StructuredConsequentialOperation) (by_ : option AuthorizationIdentity) (store' : approvals)
    (approval : ApprovedOperation) :
    approveOperation store id proposalId o by_ = inr (store', approval) -> gate_step store store'.

(** Every approval is of an operation that was proposed, and every proposal is of an action with consequences. *)
Definition approvals_ok (store : approvals) : Prop :=
  forall id item, store !! id = Some item ->
    is_consequential (Structured.actionType (approval_operation item)) = true /\
    exists pid proposal, store !! pid = Some proposal /\ approval_kind proposal = approval_proposal /\
      approval_operation proposal = approval_operation item.

Lemma createApproval_ok (store store' : approvals) (id : string) (item : ApprovalItem) :
  createApproval store id item = inr store' -> store !! id = None /\ store' = <[id := item]> store.
Proof. unfold createApproval. destruct (store !! id); [done|]. by intros [= <-]. Qed.

(** No step changes an item that is there. *)
Lemma gate_step_keeps (store store' : approvals) (id : string) (item : ApprovalItem) :
  gate_step store store' -> store !! id = Some item -> store' !! id = Some item.
Proof.
  assert (forall nid new store1, createApproval store nid new = inr store1 -> store !! id = Some item -> store1 !! id = Some item) as Hc.
  { intros nid new store1 [Hn ->]%createApproval_ok Hi. rewrite lookup_insert_ne; [done|]. congruence. }
  intros [nid o store1 H|nid pid o by_ store1 approval H].
  - unfold proposeStructuredOperation in H. destruct (negb _); [done|]. eauto.
  - unfold approveOperation in H. destruct (store !! pid); [|done]. case_bool_decide; [done|].
    destruct (createApproval _ _ _) eqn:Hcr; [done|]. injection H as <- _. eauto.
Qed.

Lemma gate_step_ok (store store' : approvals) : gate_step store store' -> approvals_ok store -> approvals_ok store'.
Proof.
  intros Hstep Hok. pose proof (fun id item => gate_step_keeps store store' id item Hstep) as Hkeep.
  assert (forall nid new, createApproval store nid new = inr store' ->
    is_consequential (Structured.actionType (approval_operation new)) = true ->
    (approval_kind new = approval_proposal \/
     exists pid proposal, store !! pid = Some proposal /\ approval_kind proposal = approval_proposal /\
       approval_operation proposal = approval_operation new) -> approvals_ok store') as Hnew.
  { intros nid new Hcr Hc Hp id item Hi. pose proof Hcr as [Hn ->]%createApproval_ok.
    destruct (decide (id = nid)) as [->|Hne].
    - rewrite lookup_insert_eq in Hi. injection Hi as <-. split; [done|]. destruct Hp as [Hp|(pid & proposal & Hs & ?)].
      + exists nid, new. by rewrite lookup_insert_eq.
      + exists pid, proposal. split; [by apply Hkeep|done].
    - rewrite lookup_insert_ne in Hi by done. destruct (Hok id item Hi) as (? & pid & proposal & Hs & ?). split; [done|].
      exists pid, proposal. split; [by apply Hkeep|done]. }
  destruct Hstep as [nid o store1 H|nid pid o by_ store1 approval H].
  - unfold proposeStructuredOperation in H. destruct (is_consequential _) eqn:Hc; [|done]. eapply Hnew; [exact H|done|by left].
  - unfold approveOperation in H. destruct (store !! pid) as [stored|] eqn:Hs; [|done]. case_bool_decide as Hst; [done|].
    destruct (createApproval _ _ _) eqn:Hcr; [done|]. injection H as <- _. eapply Hnew; [exact Hcr| |].
    + exact (proj1 (Hok pid stored Hs)).
    + right. exists pid, stored. split; [done|]. split; [|done]. apply dec_stable. tauto.
Qed.

Lemma gate_steps_ok (store : approvals) : rtc gate_step ∅ store -> approvals_ok store.
Proof.
  assert (approvals_ok ∅) as H0 by (intros id item H; by rewrite lookup_empty in H).
  intros H. remember (∅ : approvals) as s eqn:E. clear E. induction H; eauto using gate_step_ok.
Qed.

(** An approval carries out the operation it is stored with. *)
Lemma executeApprovedOperation_executes (store : approvals) (approval : ApprovedOperation) (attempted : StructuredConsequentialOperation)
    (evidence : string) :
  bound_executed (executeApprovedOperation store approval attempted evidence) = true ->
  executeApprovedOperation store approval attempted evidence = mkBound true None (Some evidence) false /\
  exists item, store !! approvalId approval = Some item /\ approval_kind item = approval_approval /\ approval_operation item = attempted.
Proof.
  unfold executeApprovedOperation. destruct (store !! approvalId approval) as [item|]; [|done].
  do 4 (case_bool_decide; [done|]). intros _. split; [done|]. exists item. split; [done|].
  split; [apply dec_stable; tauto|]. destruct (approval_operation item), attempted; cbn in *. f_equal; symmetry; first [done|by apply dec_stable].
Qed.

(** The result a sink gives once the request passed, and the operation it leaves bound. *)
Lemma executeAtSink_cases (parse_url : string -> option (string * string)) (now : Z) (store : approvals) (approval : ApprovedOperation)
    (attempted : StructuredConsequentialOperation) (evidence : string) (standing : MemberStanding) (p p' : CapabilityPolicy)
    (r : BoundExecutionResult) :
  let request := Request.mk (Structured.actionType attempted) None (Some (Structured.destination attempted)) None (Some StructuredSend) in
  let arguments_ := [("destination", Structured.destination attempted); ("payload", Structured.payload attempted)] in
  executeApprovedOperationAtSink parse_url now store approval attempted evidence standing p = (inr r, p') ->
  bound_executed r = true ->
  r = executeApprovedOperation store approval attempted evidence /\
  requestExceedsMemberStanding request standing (Some arguments_) = false /\
  (exists g, Policy.grant p = Some g /\ within_grant parse_url g request) /\
  Policy.bound_operation p' =
    Some (Operation.mk (Structured.actionType attempted) (Structured.destination attempted) (Structured.payload attempted) true).
Proof.
  intros request arguments_ H Hex. unfold executeApprovedOperationAtSink in H. fold request arguments_ in H.
  apply bind_inr in H as (refused & p1 & Ht & H). unfold try_catch, requireGranted in Ht. rewrite !policy_bind in Ht.
  destruct (granted_decision_ok parse_url now request standing (Some arguments_) p) as (d & p2 & Hd & _ & _ & _ & Hiff).
  rewrite Hd in Ht. destruct d as [e|d].
  { destruct e; cbn in Ht; try done. injection Ht as <- <-. injection H as <- _. done. }
  injection Ht as <- <-. cbn zeta in H. apply bind_inr in H as ([] & p3 & Hb & H). injection H as <- <-. rewrite Hex in Hb.
  destruct (proj1 Hiff (ex_intro _ d eq_refl)) as [Hs Hg].
  split; [done|]. split; [done|]. split; [done|]. cbv -[executeApprovedOperation] in Hb. by injection Hb as <-.
Qed.

(** C24: what a sink carries out on an approval is, in its action, its destination and its payload, the operation the stored
    approval was given for, which is one that was proposed and has consequences; it is within the task's grant and the acting
    member's standing; and it is the operation the connector is left bound to. *)
Theorem approved_operation_executes_as_reviewed (parse_url : string -> option (string * string)) (now : Z) (store : approvals)
    (approval : ApprovedOperation) (attempted : StructuredConsequentialOperation) (evidence : string) (standing : MemberStanding)
    (p p' : CapabilityPolicy) (r : BoundExecutionResult) :
  rtc gate_step ∅ store ->
  executeApprovedOperationAtSink parse_url now store approval attempted evidence standing p = (inr r, p') -> bound_executed r = true ->
  let request := Request.mk (Structured.actionType attempted) None (Some (Structured.destination attempted)) None (Some StructuredSend) in
  r = mkBound true None (Some evidence) false /\
  (exists item, store !! approvalId approval = Some item /\ approval_kind item = approval_approval /\ approval_operation item = attempted) /\
  (exists pid proposal, store !! pid = Some proposal /\ approval_kind proposal = approval_proposal /\ approval_operation proposal = attempted) /\
  is_consequential (Structured.actionType attempted) = true /\
  requestExceedsMemberStanding request standing
    (Some [("destination", Structured.destination attempted); ("payload", Structured.payload attempted)]) = false /\
  (exists g, Policy.grant p = Some g /\ within_grant parse_url g request) /\
  Policy.bound_operation p' =
    Some (Operation.mk (Structured.actionType attempted) (Structured.destination attempted) (Structured.payload attempted) true).
Proof.
  intros Hsteps H Hex. destruct (executeAtSink_cases _ _ _ _ _ _ _ _ _ _ H Hex) as (-> & Hs & Hg & Hb).
  destruct (executeApprovedOperation_executes _ _ _ _ Hex) as (-> & item & Hi & Hk & Ho).
  destruct (gate_steps_ok store Hsteps _ _ Hi) as (Hc & pid & proposal & Hp & Hpk & Hpo). rewrite Ho in Hc, Hpo.
  cbn zeta. split; [done|]. split; [by exists item|]. split; [by exists pid, proposal|]. done.
Qed.

(** ** The gaps of version 1 *)

Lemma evaluate_probe (parse_url : string -> option (string * string)) (now : Z) (url origin : string) (p : CapabilityPolicy) :
  originFromUrl parse_url url = Some origin -> truthy (Some url) = Some url -> Policy.grant p = Some (probeGrantForOrigin origin) ->
  evaluate parse_url now (Request.mk "browse" (Some url) None None None) p = (inr ALLOW, p {{ Policy.last_decision := Some ALLOW }}).
Proof.
  intros Ho Hu Hg. set (request := Request.mk "browse" (Some url) None None None).
  assert (within_grant parse_url (probeGrantForOrigin origin) request) as Hw.
  { split; cbn -[truthy probeGrantForOrigin]; try done. intros u. rewrite Hu. intros [= <-]. exists origin. split; [done|]. cbn. set_solver. }
  assert (request_origin parse_url request p = (inr (Some origin), p)) as Hr.
  { unfold request_origin. cbn [Request.origin request]. by rewrite Hu, Ho. }
  assert (outside (Some origin) {[origin]} = false) as Hout by (apply outside_false; intros ? [= <-]; set_solver).
  unfold evaluate, auditEgressOutsideGrant. rewrite policy_bind. cbn [read_policy]. rewrite Hg.
  case_bool_decide as Ht; [by destruct Ht; apply Hw|]. rewrite policy_bind, Hr. cbn [probeGrantForOrigin Grant.origins]. rewrite Hout.
  change (outside (truthy (Request.recipient request)) _) with false. change (outside (truthy (Request.egressClass request)) _) with false.
  change (is_consequential _) with false. cbn [truthy Request.filePath request]. by rewrite !policy_bind, Hr, Hout.
Qed.

(** Each gap that version 1 names is found open by the probe that checks it: no probe of a named gap throws or reports that
    the policy enforces it, so reviewing the gap records it. *)
Theorem named_gaps_are_open (parse_url : string -> option (string * string)) (now : Z) (exclusion : string) (p : CapabilityPolicy) :
  parse_url "https://probe.example/page" = Some ("https:", "probe.example") ->
  parse_url "http://127.0.0.1:9222/json" = Some ("http:", "127.0.0.1") ->
  exclusion ∈ V1_POLICY_EXCLUSIONS ->
  workerClaimsEnforced parse_url now exclusion = inr false /\
  reviewExclusion parse_url now exclusion p = (inr tt, p {{ Policy.recorded_exclusions := Policy.recorded_exclusions p ∪ {[exclusion]} }}).
Proof.
  intros Hp Hl Hin.
  assert (workerClaimsEnforced parse_url now exclusion = inr false) as Hw.
  { unfold V1_POLICY_EXCLUSIONS in Hin.
    assert (originFromUrl parse_url "https://probe.example/page" = Some "https://probe.example") as Hpo.
    { unfold originFromUrl. change (includes _ _) with true. cbn match. by rewrite Hp. }
    assert (originFromUrl parse_url "http://127.0.0.1:9222/json" = Some "http://127.0.0.1") as Hlo.
    { unfold originFromUrl. change (includes _ _) with true. cbn match. by rewrite Hl. }
    assert (fst (probeDecisionDiffersByAttribution parse_url now new_policy) = inr false) as Hd.
    { unfold probeDecisionDiffersByAttribution, probe_request. rewrite !policy_bind. unfold setGrant, modify.
      rewrite policy_bind, (evaluate_probe _ _ _ _ _ Hpo) by done. by rewrite policy_bind, (evaluate_probe _ _ _ _ _ Hpo) by done. }
    assert (fst (probe_of parse_url now "local_device_execution_isolation" new_policy) = inr false) as Hi.
    { unfold probe_of. rewrite !bool_decide_eq_false_2, bool_decide_eq_true_2, !policy_bind by done. unfold setGrant, modify.
      by rewrite policy_bind, (evaluate_probe _ _ _ _ _ Hlo) by done. }
    repeat (apply elem_of_cons in Hin as [->|Hin]; [first [exact Hd|exact Hi|vm_compute; reflexivity]|]). by apply elem_of_nil in Hin. }
  split; [done|]. unfold reviewExclusion. rewrite Hw. unfold recordExclusion. case_bool_decide; [done|]. reflexivity.
Qed.

(** ** Witnesses *)

(** A parser that knows the two addresses the probes use. *)
Definition demo_parse_url (url : string) : option (string * string) :=
  if bool_decide (url = "https://probe.example/page") then Some ("https:", "probe.example")
  else if bool_decide (url = "http://127.0.0.1:9222/json") then Some ("http:", "127.0.0.1")
  else None.

Lemma named_gaps_are_open_witness :
  workerClaimsEnforced demo_parse_url 7 "approval_fatigue" = inr false /\
  reviewExclusion demo_parse_url 7 "approval_fatigue" new_policy =
    (inr tt, new_policy {{ Policy.recorded_exclusions := Policy.recorded_exclusions new_policy ∪ {["approval_fatigue"]} }}).
Proof.
  apply (named_gaps_are_open demo_parse_url 7 "approval_fatigue" new_policy); [reflexivity|reflexivity|].
  unfold V1_POLICY_EXCLUSIONS. set_solver.
Defined.

(** A turn that may send to one address. *)
Definition demo_send_policy : CapabilityPolicy :=
  new_policy {{ Policy.grant := Some (Grant.mk {["send"]} ∅ {["bob"]} ∅ {[StructuredSend]} ∅) }}.

Definition demo_arguments : table := [("recipient", "bob"); ("body", "hello")].

Definition demo_rule : AutoReviewRule :=
  Rule.mk "r1" AlwaysAllow "send" "acme" None [("body", "hello"); ("recipient", "bob")] (mkIdentity actor_human "ann").

Definition demo_operation : StructuredConsequentialOperation := Structured.mk "send" "bob" "hello".

(** What proposing, and then approving, leaves. *)
Definition demo_proposed : approvals := <["p1" := mkApproval approval_proposal demo_operation None]> ∅.
Definition demo_approval : ApprovedOperation := mkApproved "a1" demo_operation (mkIdentity actor_human KERNEL_HUMAN_AUTHOR).
Definition demo_approved : approvals :=
  <["a1" := mkApproval approval_approval demo_operation (Some (mkIdentity actor_human KERNEL_HUMAN_AUTHOR))]> demo_proposed.

Lemma demo_gate_steps : rtc gate_step ∅ demo_approved.
Proof.
  eapply rtc_l; [apply (step_propose ∅ "p1" demo_operation demo_proposed); reflexivity|].
  eapply rtc_l; [apply (step_approve demo_proposed "a1" "p1" demo_operation None demo_approved demo_approval); reflexivity|]. apply rtc_refl.
Qed.

Definition demo_execution : (policy_error + BoundExecutionResult) * CapabilityPolicy :=
  executeApprovedOperationAtSink demo_parse_url 7 demo_approved demo_approval demo_operation "receipt" owner_standing demo_send_policy.

Lemma approved_operation_executes_as_reviewed_witness :
  Policy.bound_operation (snd demo_execution) = Some (Operation.mk "send" "bob" "hello" true).
Proof.
  apply (approved_operation_executes_as_reviewed demo_parse_url 7 demo_approved demo_approval demo_operation "receipt" owner_standing
           demo_send_policy (snd demo_execution) (mkBound true None (Some "receipt") false)).
  - exact demo_gate_steps.
  - assert (fst demo_execution = inr (mkBound true None (Some "receipt") false)) as H by (vm_compute; reflexivity).
    rewrite <- H. apply surjective_pairing.
  - reflexivity.
Defined.

(** A browser that was stopped at an action with consequences gives that result again for a harmless action after it. *)
Lemma stopped_result_is_returned_again :
  let stopped := attemptAuthenticatedBrowserActionAtSink "send" false false new_policy in
  fst (attemptAuthenticatedBrowserActionAtSink "scroll" false false new_policy) = inr (completed None) /\
  fst (attemptAuthenticatedBrowserActionAtSink "scroll" false false (snd stopped)) = inr (blocked "user_controlled_completion_required").
Proof. vm_compute. split; reflexivity. Qed.

(** ** The order of grants and ceilings *)

Definition grant_below (g h : TaskCapabilityGrant) : Prop :=
  Grant.tools g ⊆ Grant.tools h /\ Grant.origins g ⊆ Grant.origins h /\ Grant.recipients g ⊆ Grant.recipients h /\
  Grant.fileScopes g ⊆ Grant.fileScopes h /\ Grant.egressClasses g ⊆ Grant.egressClasses h /\
  Grant.ingestClasses g ⊆ Grant.ingestClasses h.

(** The sets of a ceiling, as a grant has them. *)
Definition ceiling_grant (c : Ceiling) : TaskCapabilityGrant :=
  Grant.mk (Ceiling.actionTypes c) (Ceiling.origins c) (Ceiling.recipients c) (Ceiling.fileScopes c) (Ceiling.egressClasses c)
    (Ceiling.ingestClasses c).

Definition within_ceiling (g : TaskCapabilityGrant) (c : Ceiling) : Prop := grant_below g (ceiling_grant c).

Lemma elem_of_clip_set (x : string) (s bound : gset string) : x ∈ clip_set s bound <-> x ∈ s /\ x ∈ bound.
Proof. unfold clip_set. rewrite elem_of_filter. tauto. Qed.

#[export] Instance set_unfold_clip_set (x : string) (s bound : gset string) (P Q : Prop) :
  SetUnfoldElemOf x s P -> SetUnfoldElemOf x bound Q -> SetUnfoldElemOf x (clip_set s bound) (P /\ Q).
Proof. intros [HP] [HQ]. constructor. rewrite elem_of_clip_set, HP, HQ. done. Qed.

Lemma setsEqual_true (a b : gset string) : setsEqual a b = true <-> a = b.
Proof.
  unfold setsEqual. destruct (Nat.eqb_spec (size a) (size b)) as [Hs|Hs]; cbn [negb].
  - rewrite forallb_forall. split; [|intros -> x Hx; apply bool_decide_eq_true; by apply elem_of_elements, list_elem_of_In].
    intros Hall. apply set_subseteq_size_eq; [|lia]. intros x Hx. apply elem_of_elements, list_elem_of_In, Hall in Hx.
    by apply bool_decide_eq_true in Hx.
  - split; [done|]. by intros ->.
Qed.

Lemma clipped_equal (s bound : gset string) : setsEqual (clip_set s bound) s = true <-> s ⊆ bound.
Proof. rewrite setsEqual_true. split; [intros <-; set_solver|intros H; set_solver]. Qed.

Lemma grantExceedsCeiling_false (g : TaskCapabilityGrant) (c : Ceiling) : grantExceedsCeiling g c = false <-> within_ceiling g c.
Proof.
  unfold grantExceedsCeiling, within_ceiling, grant_below. cbn. rewrite !orb_false_iff, !negb_false_iff, !clipped_equal. tauto.
Qed.

(** clipping a grant to a ceiling gives the greatest grant that is below both; a grant exceeds a ceiling exactly when some
    field of it is outside; and a grant is within two ceilings clipped together exactly when it is within each. *)
Theorem clip_is_meet (g : TaskCapabilityGrant) (c d : Ceiling) :
  (grantExceedsCeiling g c = false <-> within_ceiling g c) /\
  (forall h, grant_below h (clip g c) <-> grant_below h g /\ within_ceiling h c) /\
  (forall h, within_ceiling h (clip_ceiling c d) <-> within_ceiling h c /\ within_ceiling h d).
Proof.
  split; [apply grantExceedsCeiling_false|]. unfold within_ceiling, grant_below, ceiling_grant, clip, clip_ceiling.
  assert (forall h s t : gset string, h ⊆ clip_set s t <-> h ⊆ s /\ h ⊆ t) as Hc by set_solver.
  split; intros h; cbn; rewrite !Hc; tauto.
Qed.

(** ** A ceiling for one operation *)

(** The actions with consequences whose egress is a file transfer. *)
Definition transfer_actions : list string := ["publish"; "purchase"; "delete"; "production_change"].

Lemma egress_of_transfer (action : string) : action ∈ transfer_actions -> egressForAction action = Some FileTransfer /\ is_consequential action = true.
Proof.
  intros H. unfold transfer_actions in H. repeat (apply elem_of_cons in H as [->|H]; [by split|]). by apply elem_of_nil in H.
Qed.

Lemma operation_within_own_ceiling (action d payload : string) :
  action ∈ transfer_actions ->
  structuredOperationExceedsMemberAuthorityCeiling (Structured.mk action d payload)
    (Some (memberAuthorityCeilingFromStructuredArguments action [("destination", d); ("payload", payload)])) = false.
Proof.
  intros Ha. destruct (egress_of_transfer action Ha) as [He Hc].
  unfold structuredOperationExceedsMemberAuthorityCeiling, memberAuthorityCeilingFromStructuredArguments.
  case_bool_decide as Hcon; [subst; by vm_compute in He|]. cbn zeta.
  replace (grantExceedsMemberAuthorityCeiling _ _) with false.
  - set (t := [("destination", d); ("payload", payload)]). assert (sortedPairs t = t) as Hs by done.
    assert (fromEntries t = t) as Hf by done. assert (normalizeStructuredArguments t = t) as Hn by done.
    unfold bindings_exceed, structuredBindingsWithinCeilingBindings. cbn [structuredArgumentBindings]. rewrite Hs. cbn [t].
    fold t. rewrite Hf. cbn [t]. fold t. rewrite Hn. cbn. by rewrite !bool_decide_eq_true_2.
  - symmetry. apply grantExceedsCeiling_false. unfold within_ceiling, grant_below, taskGrantForStructuredOperation, taskGrantForStructuredArguments.
    cbn -[emptyOrSingle egressForAction is_consequential]. rewrite Hc. set_solver.
Qed.

Lemma sink_exceeds_ceiling (action d payload : string) (roles : gset string) :
  action ∈ transfer_actions ->
  requestExceedsMemberStanding (Request.mk action None (Some d) None (Some StructuredSend))
    (mkStanding roles (Some (memberAuthorityCeilingFromStructuredArguments action [("destination", d); ("payload", payload)])))
    (Some [("destination", d); ("payload", payload)]) = true.
Proof.
  intros Ha. destruct (egress_of_transfer action Ha) as [He Hc]. unfold requestExceedsMemberStanding. cbn [perActionCeiling].
  destruct (_ && _); [done|]. replace (grantExceedsMemberAuthorityCeiling _ _) with true; [done|]. symmetry. apply not_false_is_true.
  intros H%grantExceedsCeiling_false. destruct H as (_ & _ & _ & _ & H & _). revert H.
  unfold memberAuthorityCeilingFromStructuredArguments.
  case_bool_decide as Hcon; [subst; by vm_compute in He|]. cbn -[emptyOrSingle egressForAction].
  rewrite He. intros H. assert (StructuredSend ∈ emptyOrSingle (Some FileTransfer)) as Hin; [apply H; cbn; set_solver|].
  cbn in Hin. by apply elem_of_singleton in Hin.
Qed.

(** a member whose authority was made for exactly one reviewed publish, purchase, delete or production change is within that
    authority when the operation is reviewed, and yet no approval of it is ever carried out for that member: the sink asks for the
    egress class of a send whatever the action is, which that authority does not hold. *)
Theorem approved_transfer_never_executes (parse_url : string -> option (string * string)) (now : Z) (store : approvals)
    (approval : ApprovedOperation) (action d payload evidence : string) (roles : gset string) (p : CapabilityPolicy) :
  action ∈ transfer_actions ->
  let operation := Structured.mk action d payload in
  let authority := Some (memberAuthorityCeilingFromStructuredArguments action [("destination", d); ("payload", payload)]) in
  structuredOperationExceedsMemberAuthorityCeiling operation authority = false /\
  fst (executeApprovedOperationAtSink parse_url now store approval operation evidence (mkStanding roles authority) p) =
    inr (mkBound false (Some MEMBER_STANDING_DENIAL) None true).
Proof.
  intros Ha operation authority. split; [by apply operation_within_own_ceiling|].
  unfold executeApprovedOperationAtSink. rewrite policy_bind. unfold try_catch, requireGranted, granted_decision. rewrite !policy_bind.
  cbn [Structured.actionType Structured.destination Structured.payload operation].
  pose proof (denyIfExceeds_ok now (Request.mk action None (Some d) None (Some StructuredSend)) (mkStanding roles authority)
    (Some [("destination", d); ("payload", payload)]) p) as Hd.
  unfold authority in Hd. rewrite sink_exceeds_ceiling in Hd by done. destruct Hd as (p' & Hd & _). fold authority in Hd. by rewrite Hd.
Qed.

Lemma approved_transfer_never_executes_witness :
  fst (executeApprovedOperationAtSink (fun _ => None) 0 ∅ (mkApproved "a" (Structured.mk "delete" "file" "") (mkIdentity actor_human "u"))
         (Structured.mk "delete" "file" "") "done"
         (mkStanding (Ceiling.actionTypes (ceilingForMemberRole role_owner))
            (Some (memberAuthorityCeilingFromStructuredArguments "delete" [("destination", "file"); ("payload", "")])))
         new_policy) = inr (mkBound false (Some MEMBER_STANDING_DENIAL) None true).
Proof.
  apply (approved_transfer_never_executes (fun _ => None) 0 ∅ (mkApproved "a" (Structured.mk "delete" "file" "") (mkIdentity actor_human "u"))
           "delete" "file" "" "done" _ new_policy).
  unfold transfer_actions. set_solver.
Defined.
