(* ===== verification/PolicyControl.v ===== *)
(** * Policy control

    Models [src/conversation/src/policy/policy-control.ts] and [src/conversation/src/policy/connections.ts]: the rules, the
    approvals, the standing of members and the connections of every tenant, over the interface of the policy store
    ([src/conversation/src/store/policy-store.ts]) and of the messaging store.

    A method is a program of store calls. A capability policy is an object of the process: what a method does with one between
    two awaits is one call, [OnPolicy]. Items of the approval gate are never replaced, so reading a proposal and creating an
    approval is one call as well. *)

From S2P Require Import Prelude Json LiveFiles Grant Policy PolicySinks Interaction.
From coqutil Require Import Datatypes.RecordSetters.
Import DoubleBraceUpdate.
#[local] Open Scope Z_scope.

(** ** Connections *)

Definition CONNECTION_PERMISSION_READ : string := "read".

Inductive ConnectionProposalStatus : Type := Authorized | Refused | PendingEscalation | Blocked.

#[export] Instance ConnectionProposalStatus_eq_dec : EqDecision ConnectionProposalStatus.
Proof. solve_decision. Defined.

Module Proposal.
Record ConnectionProposal : Type := mk {
  proposalId : string;
  grantingTenantId : string;
  receivingTenantId : string;
  channelId : string;
  channelName : string;
  permission : string;
  proposerUserId : string;
}.
End Proposal.
Abbreviation ConnectionProposal := Proposal.ConnectionProposal.

Module Connection.
Record AuthorizedConnection : Type := mk {
  connectionId : string;
  grantingTenantId : string;
  receivingTenantId : string;
  channelId : string;
  channelName : string;
  permission : string;
  clippedByUserId : string;
  createdAt : Z;
}.
End Connection.
Abbreviation AuthorizedConnection := Connection.AuthorizedConnection.

Record ConnectionProposalRoute : Type := mkRoute {
  route_proposalId : string;
  route_status : ConnectionProposalStatus;
  route_escalationTargetUserId : option string;
}.

Record ConnectionProposalResult : Type := mkResult {
  result_proposal : ConnectionProposal;
  result_route : option ConnectionProposalRoute;
  result_authorized : option AuthorizedConnection;
  result_refused : bool;
}.

Module Record_.
Record ConnectionRecord : Type := mk {
  proposal : ConnectionProposal;
  status : option ConnectionProposalStatus;
  escalationTargetUserId : option string;
  authorized : option AuthorizedConnection;
}.
End Record_.
Abbreviation ConnectionRecord := Record_.ConnectionRecord.

Definition connectionArgumentBindings (channelName receivingTenantId : string) : table :=
  [("channel", channelName); ("receiving_tenant", receivingTenantId)].

Inductive control_error : Type :=
| PolicyItemAlreadyExistsError (message : string)
| PolicyItemNotFoundError (message : string)
| PolicyThrew (e : policy_error)
| InvalidConnectionTargetError (message : string)
| MemberStandingRequiredError (message : string)
| ControlError (message : string)
| StoreFailed (name : string).

(** [`'${value}'`]. *)
Definition quoted (value : string) : string := "'" +:+ value +:+ "'".

Definition validateConnectionTarget (permission channelName : string) : control_error + unit :=
  if negb (bool_decide (permission = CONNECTION_PERMISSION_READ))
  then inl (InvalidConnectionTargetError ("Unsupported connection permission " +:+ quoted permission +:+ "."))
  else if starts_with "/" channelName
  then inl (InvalidConnectionTargetError "Connections may reach a channel only, never the workplace.")
  else inr tt.

Definition memberCoversConnectionProposal (proposal : ConnectionProposal) (memberCeiling : option MemberAuthorityCeiling) : bool :=
  match memberCeiling with
  | None => false
  | Some m =>
      structuredBindingsWithinCeilingBindings
        (connectionArgumentBindings (Proposal.channelName proposal) (Proposal.receivingTenantId proposal))
        (fromEntries (structuredArgumentBindings m))
  end.

Definition orgEgressAllowsConnection (proposal : ConnectionProposal) (orgEgressCeiling : option MemberAuthorityCeiling) : bool :=
  match orgEgressCeiling with None => true | Some _ => memberCoversConnectionProposal proposal orgEgressCeiling end.

Definition proposerMayAuthorizeImmediately (proposal : ConnectionProposal) (proposerCeiling orgEgressCeiling : option MemberAuthorityCeiling) : bool :=
  if connectionProposalExceedsMemberAuthorityCeiling (Proposal.channelName proposal) (Proposal.receivingTenantId proposal) proposerCeiling
  then false
  else orgEgressAllowsConnection proposal orgEgressCeiling.

Definition compareStrings (left right : string) : bool := bool_decide (utf16_compare left right = Lt).

(** The choice among the members that cover a proposal. *)
Definition escalation_choice (proposerUserId : string) (covering : list string) : option string :=
  match covering with
  | [] => None
  | _ =>
      match stable_sort compareStrings (List.filter (fun userId => negb (bool_decide (userId = proposerUserId))) covering) with
      | other :: _ => Some other
      | [] => head (stable_sort compareStrings covering)
      end
  end.

Definition authorizeConnectionFromProposal (proposal : ConnectionProposal) (clippedByUserId : string) (createdAt : Z) (id : string) :
    AuthorizedConnection :=
  Connection.mk id (Proposal.grantingTenantId proposal) (Proposal.receivingTenantId proposal) (Proposal.channelId proposal)
    (Proposal.channelName proposal) (Proposal.permission proposal) clippedByUserId createdAt.

(** ** The stores *)

Inductive RefusalKind : Type := bot_auto_review | authority_ceiling | connection.

#[export] Instance RefusalKind_eq_dec : EqDecision RefusalKind.
Proof. solve_decision. Defined.

Record Refusal : Type := mkRefusal { refusalId : string; refusal_tenantId : string; refusal_kind : RefusalKind; fields : list string }.

#[warnings="-register-all"]
Inductive control_call : Type -> Type :=
| Propose (tenantId proposalId : string) (o : StructuredConsequentialOperation) : control_call unit
| Approve (tenantId newId proposalId : string) (o : StructuredConsequentialOperation) (approver : AuthorizationIdentity) : control_call ApprovedOperation
| ReadApprovals (tenantId : string) : control_call approvals
| CreateRule (rule : AutoReviewRule) : control_call unit
| ListRules (tenantId : string) : control_call (list AutoReviewRule)
| CreateConnectionRecord (record : ConnectionRecord) : control_call unit
| ReplaceConnectionRecord (record : ConnectionRecord) : control_call unit
| GetConnectionRecord (grantingTenantId proposalId : string) : control_call (option ConnectionRecord)
| ListConnectionRecords (grantingTenantId : string) : control_call (list ConnectionRecord)
| PutMemberCeiling (tenantId memberUserId actionType : string) (ceiling : MemberAuthorityCeiling) : control_call unit
| GetMemberCeiling (tenantId memberUserId actionType : string) : control_call (option MemberAuthorityCeiling)
| PutTenantConnectionEgress (tenantId : string) (ceiling : MemberAuthorityCeiling) : control_call unit
| GetTenantConnectionEgress (tenantId : string) : control_call (option MemberAuthorityCeiling)
| CreateRefusal (refusal : Refusal) : control_call unit
| ListRefusals (tenantId : string) (kind : RefusalKind) : control_call (list Refusal)
| OrganizationExists (tenantId : string) : control_call bool
| GetMembership (tenantId userId : string) : control_call (option MemberRole)
| ListMemberships (tenantId : string) : control_call (list string)
| ActingMemberUserIdForTurn (tenantId turnId : string) : control_call string
| OnPolicy {R : Type} (tenantId turnId : string) (method : policyM R) : control_call (policy_error + R)
| ControlNow : control_call Z
| ControlNextId : control_call string.

Abbreviation prog := (program control_call control_error).

(** A method of a capability policy, whose exception is the caller's. *)
Definition on_policy {R : Type} (tenantId turnId : string) (method : policyM R) : prog R :=
  r ← call (OnPolicy tenantId turnId method);
  match r with inl e => Raise (PolicyThrew e) | inr v => mret v end.

(** ** Rules *)

Definition recordRefusal (tenantId : string) (kind : RefusalKind) (fields : list string) : prog unit :=
  id ← call ControlNextId;
  call (CreateRefusal (mkRefusal id tenantId kind fields)).

Definition memberAuthorityCeiling (tenantId memberUserId actionType : string) : prog (option MemberAuthorityCeiling) :=
  call (GetMemberCeiling tenantId memberUserId actionType).

Definition control_evaluateAction (actionType tenantId : string) (userId : option string) : prog ApprovalDecision :=
  rules ← call (ListRules tenantId);
  mret (evaluateAction rules actionType tenantId userId).

Definition resolved_creator (createdBy : string) (creator : option AuthorizationIdentity) (creatorBotId : option string) : AuthorizationIdentity :=
  match creator with
  | Some identity => identity
  | None => if bool_decide (createdBy = "bot") then mkIdentity actor_bot (default "bot" creatorBotId) else mkIdentity actor_human KERNEL_HUMAN_AUTHOR
  end.

Definition addAutoReviewRule (kind : AutoReviewRuleKind) (actionType tenantId : string) (userId : option string) (arguments_ : table)
    (createdBy : string) (creator : option AuthorizationIdentity) (creatorBotId : option string) : prog bool :=
  let resolvedCreator := resolved_creator createdBy creator creatorBotId in
  if bool_decide (actor_kind resolvedCreator = actor_bot) && bool_decide (kind = AlwaysAllow) then
    recordRefusal tenantId bot_auto_review [tenantId; actionType] ;; mret false
  else
    memberCeiling ← memberAuthorityCeiling tenantId (actorId resolvedCreator) actionType;
    if autoReviewRuleExceedsMemberAuthorityCeiling actionType arguments_ memberCeiling then
      recordRefusal tenantId authority_ceiling [tenantId; actionType; actorId resolvedCreator] ;; mret false
    else
      id ← call ControlNextId;
      call (CreateRule (Rule.mk id kind actionType tenantId userId (sortedPairs arguments_) resolvedCreator)) ;;
      mret true.

Definition GRANT_STANDING_ACTION_TYPE : string := "_grant_bounds".

Definition setMemberAuthorityCeiling (tenantId memberUserId actionType : string) (arguments_ : table) : prog unit :=
  call (PutMemberCeiling tenantId memberUserId actionType (memberAuthorityCeilingFromStructuredArguments actionType arguments_)).

Definition setMemberGrantBoundsCeiling (tenantId memberUserId : string) (grantTable : table) : prog unit :=
  call (PutMemberCeiling tenantId memberUserId GRANT_STANDING_ACTION_TYPE (memberAuthorityCeilingFromGrantTable grantTable)).

(** ** Approvals *)

Definition approveStructuredOperation (tenantId proposalId : string) (o : StructuredConsequentialOperation) (approver : AuthorizationIdentity) :
    prog (option ApprovedOperation) :=
  let refuse := recordRefusal tenantId authority_ceiling [tenantId; Structured.actionType o; actorId approver] ;; mret None in
  if negb (bool_decide (actor_kind approver = actor_human)) then refuse
  else
    memberCeiling ← memberAuthorityCeiling tenantId (actorId approver) (Structured.actionType o);
    if structuredOperationExceedsMemberAuthorityCeiling o memberCeiling then refuse
    else
      id ← call ControlNextId;
      approval ← call (Approve tenantId id proposalId o approver);
      mret (Some approval).

(** *** Standing *)

Definition memberStandingForUser (tenantId userId : string) (actionType : option string) : prog MemberStanding :=
  exists_ ← call (OrganizationExists tenantId);
  if negb exists_ then mret owner_standing
  else
    membership ← call (GetMembership tenantId userId);
    match membership with
    | None => Raise (MemberStandingRequiredError ("Member " +:+ quoted userId +:+ " has no standing in tenant " +:+ quoted tenantId +:+ "."))
    | Some role =>
        perAction ← match actionType with None => mret None | Some actionType => memberAuthorityCeiling tenantId userId actionType end;
        mret (mkStanding (Ceiling.actionTypes (ceilingForMemberRole role)) perAction)
    end.

Section control.
  Context (parse_url : string -> option (string * string)) (has_resolver : bool).

Definition memberStandingForTurn (tenantId turnId : string) (actionType : option string) : prog MemberStanding :=
  exists_ ← call (OrganizationExists tenantId);
  if negb exists_ then mret owner_standing
  else if negb has_resolver then Raise (ControlError ("Turn " +:+ quoted turnId +:+ " has no prompt message."))
  else
    userId ← call (ActingMemberUserIdForTurn tenantId turnId);
    memberStandingForUser tenantId userId actionType.

(** The gate reads its items within the sink: here they are read first, which no item's replacement can tell. *)
Definition executeApprovedStructuredOperation (tenantId turnId : string) (approval : ApprovedOperation)
    (attempted : StructuredConsequentialOperation) (completionEvidence : string) : prog BoundExecutionResult :=
  memberStanding ← memberStandingForTurn tenantId turnId (Some (Structured.actionType attempted));
  now ← call ControlNow;
  store ← call (ReadApprovals tenantId);
  on_policy tenantId turnId (executeApprovedOperationAtSink parse_url now store approval attempted completionEvidence memberStanding).

Definition control_resolveUnattendedGatedAction (actionType tenantId : string) (arguments_ : table) (channel : string) (userId : option string)
    (completionEvidence turnId : string) : prog OvernightGatedResult :=
  memberStanding ← match userId with
                   | Some userId => memberStandingForUser tenantId userId (Some actionType)
                   | None => memberStandingForTurn tenantId turnId (Some actionType)
                   end;
  rules ← call (ListRules tenantId);
  now ← call ControlNow;
  on_policy tenantId turnId
    (resolveUnattendedGatedActionAtSink parse_url now actionType arguments_ channel rules tenantId memberStanding userId completionEvidence).

Definition attemptAuthenticatedBrowserAction (action tenantId turnId : string) (structuredConnector takeoverControl : bool) : prog OvernightGatedResult :=
  on_policy tenantId turnId (attemptAuthenticatedBrowserActionAtSink action structuredConnector takeoverControl).

Definition setTurnCapabilityGrant (tenantId turnId : string) (grant : TaskCapabilityGrant) : prog unit := on_policy tenantId turnId (setGrant grant).
End control.

(** ** Proposing connections *)

Definition newConnectionProposal (grantingTenantId receivingTenantId channelId channelName permission proposerUserId : string) : prog ConnectionProposal :=
  match validateConnectionTarget permission channelName with
  | inl e => Raise e
  | inr _ =>
      id ← call ControlNextId;
      mret (Proposal.mk id grantingTenantId receivingTenantId channelId channelName permission proposerUserId)
  end.

Definition authorizeAndRecord (proposal : ConnectionProposal) (proposerUserId : string) : prog ConnectionProposalResult :=
  now ← call ControlNow;
  id ← call ControlNextId;
  let authorized := authorizeConnectionFromProposal proposal proposerUserId now id in
  let route := mkRoute (Proposal.proposalId proposal) Authorized None in
  call (CreateConnectionRecord (Record_.mk proposal (Some Authorized) None (Some authorized))) ;;
  mret (mkResult proposal (Some route) (Some authorized) false).

(** What proposing and trying to propose begin with. *)
Definition judged_proposal (grantingTenantId proposerUserId receivingTenantId channelId channelName permission : string) :
    prog (ConnectionProposal * bool) :=
  proposal ← newConnectionProposal grantingTenantId receivingTenantId channelId channelName permission proposerUserId;
  proposerCeiling ← memberAuthorityCeiling grantingTenantId proposerUserId CONNECTION_STANDING_ACTION_TYPE;
  orgEgress ← call (GetTenantConnectionEgress grantingTenantId);
  mret (proposal, proposerMayAuthorizeImmediately proposal proposerCeiling orgEgress).

Definition proposeConnection (grantingTenantId proposerUserId receivingTenantId channelId channelName permission : string) : prog ConnectionProposalResult :=
  '(proposal, may) ← judged_proposal grantingTenantId proposerUserId receivingTenantId channelId channelName permission;
  if (may : bool) then authorizeAndRecord proposal proposerUserId
  else
    call (CreateConnectionRecord (Record_.mk proposal None None None)) ;;
    mret (mkResult proposal None None false).

Definition tryProposeConnection (grantingTenantId proposerUserId receivingTenantId channelId channelName permission : string) : prog ConnectionProposalResult :=
  '(proposal, may) ← judged_proposal grantingTenantId proposerUserId receivingTenantId channelId channelName permission;
  if negb may then
    recordRefusal grantingTenantId connection [grantingTenantId; proposerUserId; channelName; receivingTenantId] ;;
    let route := mkRoute (Proposal.proposalId proposal) Refused None in
    call (CreateConnectionRecord (Record_.mk proposal (Some Refused) None None)) ;;
    mret (mkResult proposal (Some route) None true)
  else authorizeAndRecord proposal proposerUserId.

(** The members, in order, whose ceiling covers a proposal. *)
Fixpoint covering_members (proposal : ConnectionProposal) (memberUserIds : list string) : prog (list string) :=
  match memberUserIds with
  | [] => mret []
  | userId :: rest =>
      ceiling ← memberAuthorityCeiling (Proposal.grantingTenantId proposal) userId CONNECTION_STANDING_ACTION_TYPE;
      covering ← covering_members proposal rest;
      mret (if memberCoversConnectionProposal proposal ceiling then userId :: covering else covering)
  end.

Definition findEscalationTargetUserId (proposal : ConnectionProposal) (memberUserIds : list string) : prog (option string) :=
  covering ← covering_members proposal memberUserIds;
  mret (escalation_choice (Proposal.proposerUserId proposal) covering).

Definition routeConnectionProposal (grantingTenantId proposalId : string) : prog ConnectionProposalRoute :=
  record ← call (GetConnectionRecord grantingTenantId proposalId);
  match record with
  | None => Raise (ControlError ("Unknown connection proposal " +:+ quoted proposalId +:+ "."))
  | Some record =>
      let proposal := Record_.proposal record in
      memberUserIds ← call (ListMemberships (Proposal.grantingTenantId proposal));
      targetUserId ← findEscalationTargetUserId proposal memberUserIds;
      let route := match targetUserId with
                   | None => mkRoute proposalId Blocked None
                   | Some target => mkRoute proposalId PendingEscalation (Some target)
                   end in
      call (ReplaceConnectionRecord
        (Record_.mk proposal (Some (route_status route)) (route_escalationTargetUserId route) (Record_.authorized record))) ;;
      mret route
  end.

Definition authorizedConnections (grantingTenantId : string) : prog (list AuthorizedConnection) :=
  records ← call (ListConnectionRecords grantingTenantId);
  mret (records ≫= fun record => match Record_.authorized record with None => [] | Some a => [a] end).

Definition connectionRoute (grantingTenantId proposalId : string) : prog (option ConnectionProposalRoute) :=
  record ← call (GetConnectionRecord grantingTenantId proposalId);
  mret (record ← record; status ← Record_.status record; Some (mkRoute proposalId status (Record_.escalationTargetUserId record))).

Definition setTenantConnectionEgress (tenantId : string) (arguments_ : table) : prog unit :=
  call (PutTenantConnectionEgress tenantId (memberAuthorityCeilingFromStructuredArguments CONNECTION_STANDING_ACTION_TYPE arguments_)).

(** The fields of the refusals of one kind. *)
Definition refused_fields (tenantId : string) (kind : RefusalKind) : prog (list (list string)) :=
  refusals ← call (ListRefusals tenantId kind);
  mret (map fields refusals).
