(* ===== verification/ControlTheorems.v ===== *)
(** * Theorems on policy control

    The contract of the policy store, the authority that every operation keeps ([authority_kept]), and what an unattended action
    needed. The last part shows a connection that is open and marked as blocked. *)

From S2P Require Import Prelude Json LiveFiles Grant Policy PolicySinks PolicyTheorems Interaction PolicyControl.
From coqutil Require Import Datatypes.RecordSetters.
Import DoubleBraceUpdate.
#[local] Open Scope Z_scope.

(** ** The stores *)

Record ControlWorld : Type := mkControlWorld {
  gates : gmap string approvals;
  rules : gmap (string * string) AutoReviewRule;
  connections : gmap (string * string) ConnectionRecord;
  memberCeilings : gmap (string * string * string) MemberAuthorityCeiling;
  connectionEgress : gmap string MemberAuthorityCeiling;
  refusals : gmap (string * string) Refusal;
  organizations : gset string;
  memberships : gmap (string * string) MemberRole;
  policies : gmap (string * string) CapabilityPolicy;
  control_clock : Z;
}.

Definition gate (w : ControlWorld) (tenantId : string) : approvals := default ∅ (gates w !! tenantId).
Definition policy_of (w : ControlWorld) (tenantId turnId : string) : CapabilityPolicy := default new_policy (policies w !! (tenantId, turnId)).

Definition rule_key (rule : AutoReviewRule) : string * string := (Rule.tenantId rule, Rule.ruleId rule).
Definition record_key (record : ConnectionRecord) : string * string :=
  (Proposal.grantingTenantId (Record_.proposal record), Proposal.proposalId (Record_.proposal record)).

(** What the calls answer: creates are conditional, a replace needs the item, and a list gives items of the tenant. *)
Definition control_answered {R : Type} (r : control_call R) (w : ControlWorld) : R -> ControlWorld -> Prop :=
  match r in control_call R return R -> ControlWorld -> Prop with
  | Propose tenantId id o => fun _ w' =>
      exists g, proposeStructuredOperation (gate w tenantId) id o = inr g /\ w' = w {{ gates := <[tenantId := g]> (gates w) }}
  | Approve tenantId newId id o by_ => fun v w' =>
      exists g, approveOperation (gate w tenantId) newId id o (Some by_) = inr (g, v) /\ w' = w {{ gates := <[tenantId := g]> (gates w) }}
  | ReadApprovals tenantId => fun v w' => v = gate w tenantId /\ w' = w
  | CreateRule rule => fun _ w' => rules w !! rule_key rule = None /\ w' = w {{ rules := <[rule_key rule := rule]> (rules w) }}
  | ListRules tenantId => fun v w' => (forall rule, rule ∈ v <-> exists id, rules w !! (tenantId, id) = Some rule) /\ w' = w
  | CreateConnectionRecord record => fun _ w' =>
      connections w !! record_key record = None /\ w' = w {{ connections := <[record_key record := record]> (connections w) }}
  | ReplaceConnectionRecord record => fun _ w' =>
      is_Some (connections w !! record_key record) /\ w' = w {{ connections := <[record_key record := record]> (connections w) }}
  | GetConnectionRecord tenantId id => fun v w' => v = connections w !! (tenantId, id) /\ w' = w
  | ListConnectionRecords tenantId => fun v w' => (forall record, record ∈ v <-> exists id, connections w !! (tenantId, id) = Some record) /\ w' = w
  | PutMemberCeiling tenantId userId actionType ceiling => fun _ w' =>
      w' = w {{ memberCeilings := <[(tenantId, userId, actionType) := ceiling]> (memberCeilings w) }}
  | GetMemberCeiling tenantId userId actionType => fun v w' => v = memberCeilings w !! (tenantId, userId, actionType) /\ w' = w
  | PutTenantConnectionEgress tenantId ceiling => fun _ w' => w' = w {{ connectionEgress := <[tenantId := ceiling]> (connectionEgress w) }}
  | GetTenantConnectionEgress tenantId => fun v w' => v = connectionEgress w !! tenantId /\ w' = w
  | CreateRefusal refusal => fun _ w' =>
      w' = w {{ refusals := <[(refusal_tenantId refusal, refusalId refusal) := refusal]> (refusals w) }}
  | ListRefusals tenantId kind => fun v w' =>
      (forall refusal, refusal ∈ v <-> refusal_kind refusal = kind /\ exists id, refusals w !! (tenantId, id) = Some refusal) /\ w' = w
  | OrganizationExists tenantId => fun v w' => v = bool_decide (tenantId ∈ organizations w) /\ w' = w
  | GetMembership tenantId userId => fun v w' => v = memberships w !! (tenantId, userId) /\ w' = w
  | ListMemberships tenantId => fun v w' => (forall userId, userId ∈ v <-> is_Some (memberships w !! (tenantId, userId))) /\ w' = w
  | ActingMemberUserIdForTurn _ _ => fun _ w' => w' = w
  | OnPolicy tenantId turnId method => fun v w' =>
      exists p, method (policy_of w tenantId turnId) = (v, p) /\ w' = w {{ policies := <[(tenantId, turnId) := p]> (policies w) }}
  | ControlNow => fun v w' => v = control_clock w /\ w' = w
  | ControlNextId => fun _ w' => w' = w
  end.

(** A call that fails may or may not have had its effect. *)
Definition control_contract (R : Type) (r : control_call R) (w : ControlWorld) (x : control_error + R) (w' : ControlWorld) : Prop :=
  match x with
  | inr v => control_answered r w v w'
  | inl _ => w' = w \/ exists v, control_answered r w v w'
  end.

(** ** The authority that is kept *)

Definition rule_ok (rule : AutoReviewRule) : Prop := Rule.kind rule = AlwaysAllow -> actor_kind (Rule.creator rule) = actor_human.

(** Every approval that was given names the human who gave it. *)
Definition approver_ok (item : ApprovalItem) : Prop :=
  approval_kind item = approval_approval -> exists human, approver item = Some human /\ actor_kind human = actor_human.

(** A connection that is open is a reading of one channel, as it was proposed, and clipped by the member who proposed it. *)
Definition connection_ok (record : ConnectionRecord) : Prop :=
  forall a, Record_.authorized record = Some a ->
    let proposal := Record_.proposal record in
    a = authorizeConnectionFromProposal proposal (Proposal.proposerUserId proposal) (Connection.createdAt a) (Connection.connectionId a) /\
    Proposal.permission proposal = CONNECTION_PERMISSION_READ /\ starts_with "/" (Proposal.channelName proposal) = false.

Record authority_kept (w : ControlWorld) : Prop := mk_kept {
  rules_kept : forall key rule, rules w !! key = Some rule -> rule_ok rule;
  gates_kept : forall tenantId g, gates w !! tenantId = Some g -> approvals_ok g /\ forall id item, g !! id = Some item -> approver_ok item;
  connections_kept : forall key record, connections w !! key = Some record -> connection_ok record;
}.

Section kept.
  Context (interference : ControlWorld -> ControlWorld -> Prop)
    (others_keep : forall w w', interference w w' -> authority_kept w -> authority_kept w').

Abbreviation during := (through control_contract interference authority_kept).

(** What a call must write to keep the authority. *)
Definition safe_call {R : Type} (r : control_call R) : Prop :=
  match r with
  | CreateRule rule => rule_ok rule
  | Approve _ _ _ _ approver => actor_kind approver = actor_human
  | CreateConnectionRecord record | ReplaceConnectionRecord record => connection_ok record
  | _ => True
  end.

Lemma gate_kept (w : ControlWorld) (tenantId : string) :
  authority_kept w -> approvals_ok (gate w tenantId) /\ forall id item, gate w tenantId !! id = Some item -> approver_ok item.
Proof using Type.
  intros [_ Hg _]. unfold gate. destruct (gates w !! tenantId) as [g|] eqn:E; [by eapply Hg|].
  split; intros id item H; cbn in H; by rewrite lookup_empty in H.
Qed.

Lemma put_gate_kept (w : ControlWorld) (tenantId : string) (g : approvals) :
  authority_kept w -> gate_step (gate w tenantId) g -> (forall id item, g !! id = Some item -> approver_ok item) ->
  authority_kept (w {{ gates := <[tenantId := g]> (gates w) }}).
Proof using Type.
  intros Hw Hstep Ha. pose proof (gate_kept w tenantId Hw) as [Hok _]. destruct Hw as [Hr Hg Hc]. split; cbn; [done| |done].
  intros t g' Ht. cbn in Ht; unfold constant in Ht. destruct (decide (t = tenantId)) as [->|Hne].
  - rewrite lookup_insert_eq in Ht. injection Ht as <-. split; [by eapply gate_step_ok|done].
  - rewrite lookup_insert_ne in Ht by done. by eapply Hg.
Qed.

Lemma create_approver_ok (g g' : approvals) (id : string) (item : ApprovalItem) :
  createApproval g id item = inr g' -> (forall i x, g !! i = Some x -> approver_ok x) -> approver_ok item ->
  forall i x, g' !! i = Some x -> approver_ok x.
Proof using Type.
  intros [_ ->]%createApproval_ok Hg Hi i x Hx. destruct (decide (i = id)) as [->|Hne].
  - rewrite lookup_insert_eq in Hx. by injection Hx as <-.
  - rewrite lookup_insert_ne in Hx by done. by eapply Hg.
Qed.

Lemma answered_kept {R : Type} (r : control_call R) (w : ControlWorld) (v : R) (w' : ControlWorld) :
  safe_call r -> authority_kept w -> control_answered r w v w' -> authority_kept w'.
Proof using Type.
  intros Hs Hw Ha. pose proof (gate_kept w) as Hgate. pose proof Hw as [Hr Hg Hc]. destruct r; cbn in Hs, Ha.
  - destruct Ha as (g & Hp & ->). destruct (Hgate tenantId Hw) as [_ Hap]. apply put_gate_kept; [done|by eapply step_propose|].
    unfold proposeStructuredOperation in Hp. destruct (negb _); [done|]. by eapply create_approver_ok.
  - destruct Ha as (g & Hp & ->). destruct (Hgate tenantId Hw) as [_ Hap]. apply put_gate_kept; [done|by eapply step_approve|].
    unfold approveOperation in Hp. destruct (gate w tenantId !! proposalId); [|done]. case_bool_decide; [done|].
    destruct (createApproval _ _ _) eqn:Hcr; [done|]. injection Hp as -> _. eapply create_approver_ok; [done..|]. intros _. by exists approver.
  - by destruct Ha as [_ ->].
  - destruct Ha as [_ ->]. split; cbn; [|done..]. intros key x Hx; cbn in Hx; unfold constant in Hx; destruct (decide (key = rule_key rule)) as [->|Hne].
    + rewrite lookup_insert_eq in Hx. by injection Hx as <-.
    + rewrite lookup_insert_ne in Hx by done. by eapply Hr.
  - by destruct Ha as [_ ->].
  - destruct Ha as [_ ->]. split; cbn; [done..|]. intros key x Hx; cbn in Hx; unfold constant in Hx; destruct (decide (key = record_key record)) as [->|Hne].
    + rewrite lookup_insert_eq in Hx. by injection Hx as <-.
    + rewrite lookup_insert_ne in Hx by done. by eapply Hc.
  - destruct Ha as [_ ->]. split; cbn; [done..|]. intros key x Hx; cbn in Hx; unfold constant in Hx; destruct (decide (key = record_key record)) as [->|Hne].
    + rewrite lookup_insert_eq in Hx. by injection Hx as <-.
    + rewrite lookup_insert_ne in Hx by done. by eapply Hc.
  - by destruct Ha as [_ ->].
  - by destruct Ha as [_ ->].
  - subst. by split.
  - by destruct Ha as [_ ->].
  - subst. by split.
  - by destruct Ha as [_ ->].
  - subst. by split.
  - by destruct Ha as [_ ->].
  - by destruct Ha as [_ ->].
  - by destruct Ha as [_ ->].
  - by destruct Ha as [_ ->].
  - by subst.
  - destruct Ha as (p & _ & ->). by split.
  - by destruct Ha as [_ ->].
  - by subst.
Qed.

Lemma during_call {R : Type} (r : control_call R) (Q : R -> Prop) :
  safe_call r -> (forall w v w', authority_kept w -> control_answered r w v w' -> Q v) -> during (call r) Q.
Proof using others_keep.
  intros Hs HQ. apply through_call; [done|]. intros w x w' Hw Hc.
  destruct x as [e|v]; cbn in Hc; [split; [|done]|split; [by eapply answered_kept|by eapply HQ]].
  destruct Hc as [->|[v Hv]]; [done|by eapply answered_kept].
Qed.

Definition any {A : Type} (_ : A) : Prop := True.

Lemma during_any {R : Type} (r : control_call R) : safe_call r -> during (call r) any.
Proof using others_keep. intros Hs. by apply during_call. Qed.

Lemma during_return {A : Type} (a : A) : during (mret a) any.
Proof using others_keep. by apply through_return. Qed.

Lemma during_raise {A : Type} (e : control_error) (Q : A -> Prop) : during (Raise e) Q.
Proof using others_keep. by apply through_raise. Qed.

Lemma during_then {A B : Type} (p : prog A) (f : A -> prog B) (Q : B -> Prop) : during p any -> (forall a, during (f a) Q) -> during (p ≫= f) Q.
Proof using Type. intros Hp Hf. by apply (through_bind _ _ _ _ _ any). Qed.

#[local] Hint Resolve during_any during_return during_raise : control.
#[local] Hint Extern 1 (safe_call _) => exact I : control.

Ltac during_steps :=
  repeat first
    [ solve [eauto with control]
    | apply during_then; [|intros ?]
    | match goal with |- during (match ?x with _ => _ end) _ => destruct x eqn:? end ].

Lemma during_recordRefusal (tenantId : string) (kind : RefusalKind) (l : list string) : during (recordRefusal tenantId kind l) any.
Proof using others_keep. unfold recordRefusal. during_steps. Qed.

Lemma during_on_policy {R : Type} (tenantId turnId : string) (method : policyM R) : during (on_policy tenantId turnId method) any.
Proof using others_keep. unfold on_policy. during_steps. Qed.

Lemma during_standing_user (tenantId userId : string) (actionType : option string) : during (memberStandingForUser tenantId userId actionType) any.
Proof using others_keep. unfold memberStandingForUser, memberAuthorityCeiling. during_steps. Qed.

#[local] Hint Resolve during_recordRefusal during_on_policy during_standing_user : control.

Lemma during_standing_turn (has_resolver : bool) (tenantId turnId : string) (actionType : option string) :
  during (memberStandingForTurn has_resolver tenantId turnId actionType) any.
Proof using others_keep. unfold memberStandingForTurn. during_steps. Qed.

#[local] Hint Resolve during_standing_turn : control.

Lemma during_addAutoReviewRule (kind : AutoReviewRuleKind) (actionType tenantId : string) (userId : option string) (arguments_ : table)
    (createdBy : string) (creator : option AuthorizationIdentity) (creatorBotId : option string) :
  during (addAutoReviewRule kind actionType tenantId userId arguments_ createdBy creator creatorBotId) any.
Proof using others_keep.
  unfold addAutoReviewRule, memberAuthorityCeiling. destruct (_ && _) eqn:Hbot; [during_steps|].
  apply during_then; [during_steps|intros ceiling]. destruct (autoReviewRuleExceedsMemberAuthorityCeiling _ _ _); [during_steps|].
  apply during_then; [during_steps|intros id]. apply during_then; [|during_steps]. apply during_any. intros Hk. cbn in Hk |- *. subst kind.
  rewrite andb_false_iff, !bool_decide_eq_false in Hbot. destruct Hbot as [Hb|[]]; [|done]. by destruct (actor_kind _).
Qed.

Lemma during_approve (tenantId proposalId : string) (o : StructuredConsequentialOperation) (by_ : AuthorizationIdentity) :
  during (approveStructuredOperation tenantId proposalId o by_) any.
Proof using others_keep.
  unfold approveStructuredOperation, memberAuthorityCeiling. case_bool_decide as Hh; cbn [negb]; [|during_steps].
  apply during_then; [during_steps|intros ceiling]. destruct (structuredOperationExceedsMemberAuthorityCeiling _ _); [during_steps|].
  apply during_then; [during_steps|intros id]. apply during_then; [by apply during_any|during_steps].
Qed.

(** A proposal that was made is of a reading of one channel, by the member who proposed it. *)
Lemma during_judged (granting proposer receiving channelId channelName permission : string) :
  during (judged_proposal granting proposer receiving channelId channelName permission)
    (fun r => Proposal.proposerUserId r.1 = proposer /\ Proposal.permission r.1 = CONNECTION_PERMISSION_READ /\
              starts_with "/" (Proposal.channelName r.1) = false).
Proof using others_keep.
  unfold judged_proposal. eapply (through_bind _ _ _ _ _ (fun proposal => Proposal.proposerUserId proposal = proposer /\
    Proposal.permission proposal = CONNECTION_PERMISSION_READ /\ starts_with "/" (Proposal.channelName proposal) = false)).
  - unfold newConnectionProposal, validateConnectionTarget. case_bool_decide as Hp; cbn [negb]; [|during_steps].
    destruct (starts_with "/" channelName) eqn:Hs; [during_steps|]. apply during_then; [during_steps|intros id]. by apply through_return.
  - intros proposal Hp. apply during_then; [apply during_any; exact I|intros ceiling]. apply during_then; [by apply during_any|intros egress].
    by apply through_return.
Qed.

Lemma during_authorize (proposal : ConnectionProposal) (proposer : string) :
  Proposal.proposerUserId proposal = proposer -> Proposal.permission proposal = CONNECTION_PERMISSION_READ ->
  starts_with "/" (Proposal.channelName proposal) = false -> during (authorizeAndRecord proposal proposer) any.
Proof using others_keep.
  intros <- Hp Hs. unfold authorizeAndRecord. apply during_then; [during_steps|intros now]. apply during_then; [during_steps|intros id].
  apply during_then; [|during_steps]. apply during_any. by intros a [= <-].
Qed.

Lemma during_propose (granting proposer receiving channelId channelName permission : string) :
  during (proposeConnection granting proposer receiving channelId channelName permission) any /\
  during (tryProposeConnection granting proposer receiving channelId channelName permission) any.
Proof using others_keep.
  split; (eapply through_bind; [apply during_judged|]); intros [proposal []] (Hu & Hp & Hs); cbn [negb];
    try (by apply during_authorize);
    repeat (apply during_then; [first [by auto with control|apply during_any; by intros ? [=]]|intros ?]); during_steps.
Qed.

Lemma during_covering (proposal : ConnectionProposal) (members : list string) : during (covering_members proposal members) any.
Proof using others_keep.
  induction members as [|userId members IH]; cbn [covering_members]; [during_steps|]. unfold memberAuthorityCeiling. during_steps.
Qed.

Lemma during_route (granting proposalId : string) : during (routeConnectionProposal granting proposalId) any.
Proof using others_keep.
  unfold routeConnectionProposal, findEscalationTargetUserId.
  eapply (through_bind _ _ _ _ _ (fun o => forall record, o = Some record -> connection_ok record)).
  { apply during_call; [exact I|]. intros w v w' [_ _ Hc] [-> _] record Hr. by eapply Hc. }
  intros [record|] Hr; [|during_steps]. apply during_then; [during_steps|intros members].
  apply during_then; [pose proof during_covering; during_steps|intros target]. apply during_then; [|during_steps].
  apply during_any. exact (Hr record eq_refl).
Qed.
End kept.

(** ** Operations *)

Inductive control_operation : Type :=
| op_propose (tenantId : string) (o : StructuredConsequentialOperation)
| op_approve (tenantId proposalId : string) (o : StructuredConsequentialOperation) (by_ : AuthorizationIdentity)
| op_execute (tenantId turnId : string) (approval : ApprovedOperation) (attempted : StructuredConsequentialOperation) (evidence : string)
| op_add_rule (kind : AutoReviewRuleKind) (actionType tenantId : string) (userId : option string) (arguments_ : table) (createdBy : string)
    (creator : option AuthorizationIdentity) (creatorBotId : option string)
| op_member_ceiling (tenantId userId actionType : string) (arguments_ : table)
| op_grant_bounds (tenantId userId : string) (grantTable : table)
| op_unattended (actionType tenantId : string) (arguments_ : table) (channel : string) (userId : option string) (evidence turnId : string)
| op_browser (action tenantId turnId : string) (structuredConnector takeoverControl : bool)
| op_set_grant (tenantId turnId : string) (grant : TaskCapabilityGrant)
| op_propose_connection (granting proposer receiving channelId channelName permission : string)
| op_try_propose_connection (granting proposer receiving channelId channelName permission : string)
| op_route (granting proposalId : string)
| op_egress (tenantId : string) (arguments_ : table).

Section operations.
  Context (parse_url : string -> option (string * string)) (has_resolver : bool).

(** A proposal goes through the gate of the tenant. *)
Definition control_perform (op : control_operation) : prog unit :=
  match op with
  | op_propose tenantId o => id ← call ControlNextId; call (Propose tenantId id o)
  | op_approve tenantId proposalId o by_ => approveStructuredOperation tenantId proposalId o by_ ;; mret tt
  | op_execute tenantId turnId approval attempted evidence =>
      executeApprovedStructuredOperation parse_url has_resolver tenantId turnId approval attempted evidence ;; mret tt
  | op_add_rule kind actionType tenantId userId arguments_ createdBy creator creatorBotId =>
      addAutoReviewRule kind actionType tenantId userId arguments_ createdBy creator creatorBotId ;; mret tt
  | op_member_ceiling tenantId userId actionType arguments_ => setMemberAuthorityCeiling tenantId userId actionType arguments_
  | op_grant_bounds tenantId userId grantTable => setMemberGrantBoundsCeiling tenantId userId grantTable
  | op_unattended actionType tenantId arguments_ channel userId evidence turnId =>
      control_resolveUnattendedGatedAction parse_url has_resolver actionType tenantId arguments_ channel userId evidence turnId ;; mret tt
  | op_browser action tenantId turnId structuredConnector takeoverControl =>
      attemptAuthenticatedBrowserAction action tenantId turnId structuredConnector takeoverControl ;; mret tt
  | op_set_grant tenantId turnId grant => setTurnCapabilityGrant tenantId turnId grant
  | op_propose_connection granting proposer receiving channelId channelName permission =>
      proposeConnection granting proposer receiving channelId channelName permission ;; mret tt
  | op_try_propose_connection granting proposer receiving channelId channelName permission =>
      tryProposeConnection granting proposer receiving channelId channelName permission ;; mret tt
  | op_route granting proposalId => routeConnectionProposal granting proposalId ;; mret tt
  | op_egress tenantId arguments_ => setTenantConnectionEgress tenantId arguments_
  end.

(** C21: whatever operations run, in any order and interleaving, and whatever calls fail, no bot ever holds a rule that allows, every
    approval was given by a human for an operation that was proposed and has consequences, and every open connection is a
    reading of one channel, as it was proposed and clipped by its proposer. *)
Theorem policy_control_keeps_authority (interference : ControlWorld -> ControlWorld -> Prop) (op : control_operation)
    (w w' : ControlWorld) (o : control_error + unit) :
  (forall w1 w2, interference w1 w2 -> authority_kept w1 -> authority_kept w2) ->
  authority_kept w -> exec control_contract interference (control_perform op) w o w' -> authority_kept w'.
Proof using Type.
  intros Hi Hw H. assert (through control_contract interference authority_kept (control_perform op) any) as Ht; [|by destruct (Ht w o w' Hw H)].
  assert (forall A (p : prog A), through control_contract interference authority_kept p any ->
    through control_contract interference authority_kept (p ;; mret tt) any) as Hthen.
  { intros A p Hp. apply during_then; [done|]. intros _. by apply during_return. }
  destruct op; cbn [control_perform]; try (apply Hthen).
  - apply during_then; [by apply during_any|]. intros id. by apply during_any.
  - by apply during_approve.
  - unfold executeApprovedStructuredOperation. apply during_then; [by apply during_standing_turn|intros standing].
    apply during_then; [by apply during_any|intros now]. apply during_then; [by apply during_any|intros store]. by apply during_on_policy.
  - by apply during_addAutoReviewRule.
  - by apply during_any.
  - by apply during_any.
  - unfold control_resolveUnattendedGatedAction.
    apply during_then; [destruct userId; [by apply during_standing_user|by apply during_standing_turn]|intros standing].
    apply during_then; [by apply during_any|intros rules]. apply during_then; [by apply during_any|intros now]. by apply during_on_policy.
  - by apply during_on_policy.
  - by apply during_on_policy.
  - by apply during_propose.
  - by apply during_propose.
  - by apply during_route.
  - by apply during_any.
Qed.
End operations.

(** ** Moments of a call *)

(** One step of the world: another process acts, or a call is answered. *)
Definition world_step (interference : ControlWorld -> ControlWorld -> Prop) (w w' : ControlWorld) : Prop :=
  interference w w' \/ exists R (r : control_call R) x, control_contract R r w x w'.

Lemma exec_steps (interference : ControlWorld -> ControlWorld -> Prop) {A : Type} (p : prog A) (w w' : ControlWorld) (o : control_error + A) :
  exec control_contract interference p w o w' -> rtc (world_step interference) w w'.
Proof.
  apply exec_keeps; [apply _|apply _|intros w1 w2 H; apply rtc_once; by left|]. intros R r w1 x w2 H. apply rtc_once. right. by exists R, r, x.
Qed.

(** At some moment between two worlds. *)
Definition at_moment (interference : ControlWorld -> ControlWorld -> Prop) (w w' : ControlWorld) (P : ControlWorld -> Prop) : Prop :=
  exists w1, rtc (world_step interference) w w1 /\ rtc (world_step interference) w1 w' /\ P w1.

Lemma moment_between (interference : ControlWorld -> ControlWorld -> Prop) (w w1 w2 w' : ControlWorld) (P : ControlWorld -> Prop) :
  rtc (world_step interference) w w1 -> rtc (world_step interference) w2 w' ->
  at_moment interference w1 w2 P -> at_moment interference w w' P.
Proof. intros H1 H2 (m & Hm1 & Hm2 & HP). exists m. split; [by trans w1|]. split; [by trans w2|done]. Qed.

(** A call that only reads is answered by the world of a moment. *)
Lemma read_moment (interference : ControlWorld -> ControlWorld -> Prop) {R : Type} (r : control_call R) (w w' : ControlWorld) (v : R) :
  exec control_contract interference (call r) w (inr v) w' ->
  at_moment interference w w' (fun w1 => exists w2, control_answered r w1 v w2).
Proof.
  intros (w1 & w2 & H1 & Hc & H2)%exec_call.
  assert (forall a b, rtc interference a b -> rtc (world_step interference) a b) as Hi.
  { intros a b. apply rtc_subrel. intros ? ?. by left. }
  exists w1. split; [by apply Hi|]. split; [|by exists w2]. eapply rtc_l; [|by apply Hi]. right. by exists R, r, (inr v).
Qed.

(** The standing a member has is that of the member's role at a moment, or the tenant is no organization. *)
Definition role_allows (tenantId : string) (userId : option string) (actionType : string) (w : ControlWorld) : Prop :=
  tenantId ∉ organizations w \/
  exists member role, (userId = None \/ userId = Some member) /\ memberships w !! (tenantId, member) = Some role /\
    actionType ∈ Ceiling.actionTypes (ceilingForMemberRole role).

Lemma standing_user_role (interference : ControlWorld -> ControlWorld -> Prop) (tenantId userId actionType : string) (w w' : ControlWorld)
    (standing : MemberStanding) :
  exec control_contract interference (memberStandingForUser tenantId userId (Some actionType)) w (inr standing) w' ->
  actionType ∈ roleActionTypes standing -> at_moment interference w w' (role_allows tenantId (Some userId) actionType).
Proof.
  unfold memberStandingForUser. intros (present & w1 & H1 & H)%exec_bind_inr Ha. pose proof H1 as Hs1%exec_steps.
  pose proof H as Hs%exec_steps. apply read_moment in H1. destruct present; cbn [negb] in H.
  - apply exec_bind_inr in H as ([role|] & w2 & H2 & H); [|by destruct H]. pose proof H as Hs2%exec_steps. apply read_moment in H2.
    apply (moment_between _ _ w1 w2); [done..|]. destruct H2 as (m & Hm1 & Hm2 & w3 & Hm & _). exists m. split; [done|]. split; [done|].
    right. exists userId, role. split; [by right|]. split; [done|].
    apply exec_bind_inr in H as (ceiling & w4 & _ & [[= ->] _]). done.
  - apply (moment_between _ _ w w1); [done..|]. destruct H1 as (m & Hm1 & Hm2 & w3 & Hm & _). exists m. split; [done|]. split; [done|].
    left. symmetry in Hm. by apply bool_decide_eq_false in Hm.
Qed.

Lemma standing_turn_role (interference : ControlWorld -> ControlWorld -> Prop) (has_resolver : bool) (tenantId turnId actionType : string)
    (w w' : ControlWorld) (standing : MemberStanding) :
  exec control_contract interference (memberStandingForTurn has_resolver tenantId turnId (Some actionType)) w (inr standing) w' ->
  actionType ∈ roleActionTypes standing -> at_moment interference w w' (role_allows tenantId None actionType).
Proof.
  unfold memberStandingForTurn. intros (present & w1 & H1 & H)%exec_bind_inr Ha. pose proof H1 as Hs1%exec_steps.
  pose proof H as Hs%exec_steps. apply read_moment in H1. destruct present; cbn [negb] in H.
  - destruct has_resolver; cbn [negb] in H; [|by destruct H]. apply exec_bind_inr in H as (userId & w2 & H2 & H).
    pose proof H2 as Hs2%exec_steps. apply standing_user_role in H; [|done].
    apply (moment_between _ _ w2 w'); [by trans w1|done|]. destruct H as (m & Hm1 & Hm2 & Hm). exists m. split; [done|]. split; [done|].
    destruct Hm as [Hm|(member & role & _ & Hm)]; [by left|right]. exists member, role. split; [by left|done].
  - apply (moment_between _ _ w w1); [done..|]. destruct H1 as (m & Hm1 & Hm2 & w3 & Hm & _). exists m. split; [done|]. split; [done|].
    left. symmetry in Hm. by apply bool_decide_eq_false in Hm.
Qed.

Lemma on_policy_result (interference : ControlWorld -> ControlWorld -> Prop) {R : Type} (tenantId turnId : string) (method : policyM R)
    (w w' : ControlWorld) (v : R) :
  exec control_contract interference (on_policy tenantId turnId method) w (inr v) w' ->
  at_moment interference w w' (fun w1 => exists p', method (policy_of w1 tenantId turnId) = (inr v, p')).
Proof.
  unfold on_policy. intros ([e|v'] & w1 & H1 & H)%exec_bind_inr; [by destruct H|]. pose proof H as Hs%exec_steps. destruct H as [[= ->] _].
  apply read_moment in H1. apply (moment_between _ _ w w1); [done..|]. destruct H1 as (m & Hm1 & Hm2 & w3 & p & Hp & _).
  exists m. split; [done|]. split; [done|]. by exists p.
Qed.


(** ** A service that never fails *)

(** The values of a map under the keys of a tenant. *)
Definition of_tenant {V : Type} (tenantId : string) (m : gmap (string * string) V) : list V :=
  snd <$> filter (fun kv => kv.1.1 = tenantId) (map_to_list m).

Lemma elem_of_tenant {V : Type} (tenantId : string) (m : gmap (string * string) V) (v : V) :
  v ∈ of_tenant tenantId m <-> exists id, m !! (tenantId, id) = Some v.
Proof.
  unfold of_tenant. rewrite list_elem_of_fmap. split.
  - intros ([[t id] v'] & -> & [Ht Hin%elem_of_map_to_list]%list_elem_of_filter). cbn in Ht. subst t. by exists id.
  - intros [id Hid]. exists ((tenantId, id), v). split; [done|]. apply list_elem_of_filter. split; [done|]. by apply elem_of_map_to_list.
Qed.

Definition control_handle (R : Type) (r : control_call R) (w : ControlWorld) : (control_error + R) * ControlWorld :=
  match r in control_call R return (control_error + R) * ControlWorld with
  | Propose tenantId id o =>
      match proposeStructuredOperation (gate w tenantId) id o with
      | inl e => (inl (PolicyThrew e), w)
      | inr g => (inr tt, w {{ gates := <[tenantId := g]> (gates w) }})
      end
  | Approve tenantId newId id o by_ =>
      match approveOperation (gate w tenantId) newId id o (Some by_) with
      | inl e => (inl (PolicyThrew e), w)
      | inr (g, v) => (inr v, w {{ gates := <[tenantId := g]> (gates w) }})
      end
  | ReadApprovals tenantId => (inr (gate w tenantId), w)
  | CreateRule rule =>
      match rules w !! rule_key rule with
      | Some _ => (inl (PolicyItemAlreadyExistsError ("The rule " +:+ json_text (Rule.ruleId rule) +:+ " already exists.")), w)
      | None => (inr tt, w {{ rules := <[rule_key rule := rule]> (rules w) }})
      end
  | ListRules tenantId => (inr (of_tenant tenantId (rules w)), w)
  | CreateConnectionRecord record =>
      match connections w !! record_key record with
      | Some _ => (inl (PolicyItemAlreadyExistsError "The connection already exists."), w)
      | None => (inr tt, w {{ connections := <[record_key record := record]> (connections w) }})
      end
  | ReplaceConnectionRecord record =>
      match connections w !! record_key record with
      | None => (inl (PolicyItemNotFoundError "The connection does not exist."), w)
      | Some _ => (inr tt, w {{ connections := <[record_key record := record]> (connections w) }})
      end
  | GetConnectionRecord tenantId id => (inr (connections w !! (tenantId, id)), w)
  | ListConnectionRecords tenantId => (inr (of_tenant tenantId (connections w)), w)
  | PutMemberCeiling tenantId userId actionType ceiling =>
      (inr tt, w {{ memberCeilings := <[(tenantId, userId, actionType) := ceiling]> (memberCeilings w) }})
  | GetMemberCeiling tenantId userId actionType => (inr (memberCeilings w !! (tenantId, userId, actionType)), w)
  | PutTenantConnectionEgress tenantId ceiling => (inr tt, w {{ connectionEgress := <[tenantId := ceiling]> (connectionEgress w) }})
  | GetTenantConnectionEgress tenantId => (inr (connectionEgress w !! tenantId), w)
  | CreateRefusal refusal => (inr tt, w {{ refusals := <[(refusal_tenantId refusal, refusalId refusal) := refusal]> (refusals w) }})
  | ListRefusals tenantId kind => (inr (filter (fun refusal => refusal_kind refusal = kind) (of_tenant tenantId (refusals w))), w)
  | OrganizationExists tenantId => (inr (bool_decide (tenantId ∈ organizations w)), w)
  | GetMembership tenantId userId => (inr (memberships w !! (tenantId, userId)), w)
  | ListMemberships tenantId =>
      (inr ((fun kv => kv.1.2) <$> filter (fun kv => kv.1.1 = tenantId) (map_to_list (memberships w))), w)
  | ActingMemberUserIdForTurn _ _ => (inr "ann", w)
  | OnPolicy tenantId turnId method =>
      let '(v, p) := method (policy_of w tenantId turnId) in (inr v, w {{ policies := <[(tenantId, turnId) := p]> (policies w) }})
  | ControlNow => (inr (control_clock w), w)
  | ControlNextId => (inr "id-1", w)
  end.

Lemma control_handle_ok (R : Type) (r : control_call R) (w : ControlWorld) :
  control_contract R r w (control_handle R r w).1 (control_handle R r w).2.
Proof.
  destruct r; cbn; try done.
  - destruct (proposeStructuredOperation _ _ _) as [e|g] eqn:Hp; cbn; [by left|]. by exists g.
  - destruct (approveOperation _ _ _ _ _) as [e|[g v]] eqn:Hp; cbn; [by left|]. by exists g.
  - destruct (rules w !! rule_key rule) eqn:Hr; cbn; [by left|done].
  - split; [|done]. intros rule. apply elem_of_tenant.
  - destruct (connections w !! record_key record) eqn:Hr; cbn; [by left|done].
  - destruct (connections w !! record_key record) eqn:Hr; cbn; [done|by left].
  - split; [|done]. intros record. apply elem_of_tenant.
  - split; [|done]. intros refusal. rewrite list_elem_of_filter, elem_of_tenant. done.
  - split; [|done]. intros userId. rewrite list_elem_of_fmap. split.
    + intros ([[t u] role] & -> & [Ht Hin%elem_of_map_to_list]%list_elem_of_filter). cbn in Ht |- *. by subst t; exists role.
    + intros [role Hr]. exists ((tenantId, userId), role). split; [done|]. apply list_elem_of_filter. split; [done|].
      by apply elem_of_map_to_list.
  - destruct (method _) as [v p] eqn:Hm; cbn. by exists p.
Qed.

(** ** Witnesses *)

Definition no_others (w w' : ControlWorld) : Prop := False.

Definition empty_control : ControlWorld := mkControlWorld ∅ ∅ ∅ ∅ ∅ ∅ ∅ ∅ ∅ 0.

Lemma policy_control_keeps_authority_witness :
  let op := op_add_rule AlwaysAllow "send" "acme" None demo_arguments "human" None None in
  authority_kept (run_program control_handle (control_perform demo_parse_url true op) empty_control).2 /\
  size (rules (run_program control_handle (control_perform demo_parse_url true op) empty_control).2) = 1%nat.
Proof.
  split; [|vm_compute; reflexivity].
  apply (policy_control_keeps_authority demo_parse_url true no_others (op_add_rule AlwaysAllow "send" "acme" None demo_arguments "human" None None)
           empty_control _ (run_program control_handle (control_perform demo_parse_url true
             (op_add_rule AlwaysAllow "send" "acme" None demo_arguments "human" None None)) empty_control).1).
  - intros ? ? [].
  - split; cbn; intros ? ? H; by rewrite lookup_empty in H.
  - apply (run_program_exec _ _ control_handle_ok).
Defined.

(** An organization with a member, a turn that may send to one address, and a rule for one message to it. *)
Definition demo_control : ControlWorld :=
  mkControlWorld ∅ {[("acme", "r1") := demo_rule]} ∅ ∅ ∅ ∅ {["acme"]} {[("acme", "ann") := role_member]} {[("acme", "t1") := demo_send_policy]} 7.

Definition demo_unattended : (control_error + OvernightGatedResult) * ControlWorld :=
  run_program control_handle
    (control_resolveUnattendedGatedAction demo_parse_url true "send" "acme" demo_arguments "structured" None "receipt" "t1") demo_control.


(** ** A connection that is open and marked as blocked *)

Definition demo_open_proposal : ConnectionProposal := Proposal.mk "p1" "acme" "other" "c1" "general" "read" "ann".
Definition demo_open_record : ConnectionRecord :=
  Record_.mk demo_open_proposal (Some Authorized) None (Some (authorizeConnectionFromProposal demo_open_proposal "ann" 0 "conn1")).

(** Routing does not ask whether the proposal is pending: an open connection becomes blocked and stays open. *)
Lemma routed_connection_stays_open :
  let w := empty_control {{ connections := {[("acme", "p1") := demo_open_record]} }} in
  let '(route, w') := run_program control_handle (routeConnectionProposal "acme" "p1") w in
  route = inr (mkRoute "p1" Blocked None) /\
  fst (run_program control_handle (authorizedConnections "acme") w') =
    inr [authorizeConnectionFromProposal demo_open_proposal "ann" 0 "conn1"].
Proof. vm_compute. split; reflexivity. Qed.
