(* ===== verification/ComputerStore.v ===== *)
(** * The store of computer records

    The codec of a computer record (src/conversation/src/store/codecs/computer.ts) and the methods of
    [DynamoMessagingStore] that read and write it (store/dynamo-messaging-store.ts). Each method is a conditional update of
    the one record of an organization; its update and condition are a [Change], the argument of [updateComputerWhere]. *)

From S2P Require Import Prelude Json Types Computers Service TurnCodec TurnStore.
From coqutil Require Import Datatypes.RecordSetters.
Import DoubleBraceUpdate.
#[local] Open Scope Z_scope.
#[local] Open Scope cond_scope.
#[local] Open Scope prog_scope.

Definition computerRecordKey (tenantId : string) : key := (tenantId +:+ "#computer#record", "meta").

(** ** Codec *)

(** The attribute names of the owner fields, removed together when an owner ends. *)
Definition OWNER_ATTRIBUTE_NAMES : list string := [
  "owner_id"; "owner_protocol_version"; "owner_started_at"; "owner_credentials_expire_at"; "owner_credentials_renewed_at";
  "dispatch_credentials_renewed_at"; "idle_since_at"; "owner_stop_approved_at"; "dispatch_id"; "dispatch_turn_id";
  "dispatch_action_id"; "dispatch_attempt"; "dispatch_lease_expires_at"; "interactive_until_at"; "file_operation_id"].

Definition put_flag (name : string) (b : bool) (it : item) : item := if b then <[name := ABOOL true]> it else it.

(** The item of a computer, under the key [computerRecordItemKey] gives it. *)
Definition encodeComputer (c : Computer) : item :=
  let k := computerRecordKey (Computer.tenantId c) in
  let base : item := list_to_map [
    ("pk", AS k.1); ("sk", AS k.2);
    ("tenant_id", AS (Computer.tenantId c));
    ("computer_id", AS (Computer.computerId c));
    ("stopped", ABOOL (Computer.stopped c));
    ("policy", AS (Computer.policy c));
    ("model_ready", ABOOL (Computer.modelReady c));
    ("workspace_ready", ABOOL (Computer.workspaceReady c));
    ("browser_ready", ABOOL (Computer.browserReady c));
    ("host_start_generation", AN (Computer.hostStartGeneration c));
    ("host_start_dispatched_generation", AN (Computer.hostStartDispatchedGeneration c));
    ("host_start_lease_expires_at", AN (match Computer.hostStartLeaseExpiresAt c with Some m => epochSeconds m | None => 0 end));
    ("snapshot_generation", AN (Computer.snapshotGeneration c));
    ("disk_dirty", ABOOL (Computer.diskDirty c));
    ("hydrate_required", ABOOL (Computer.hydrateRequired c))] in
  let base := put_flag "browser_unavailable" (Computer.browserUnavailable c) base in
  let base := put_if "snapshot_uri" AS (Computer.snapshotUri c) base in
  let base := put_if "snapshot_checksum" AS (Computer.snapshotChecksum c) base in
  let base := put_if "intended_host_worker_id" AS (Computer.intendedHostWorkerId c) base in
  let base := put_if "live_writer_host_id" AS (Computer.liveWriterHostId c) base in
  let base := put_if "host_lost_at" (AN ∘ epochSeconds) (Computer.hostLostAt c) base in
  let base := put_if "host_lost_generation" AN (Computer.hostLostGeneration c) base in
  let base := put_if "owner_id" AS (Computer.ownerId c) base in
  let base := put_if "owner_generation" AN (Computer.ownerGeneration c) base in
  let base := put_if "owner_protocol_version" AN (Computer.ownerProtocolVersion c) base in
  let base := put_if "owner_started_at" (AN ∘ epochSeconds) (Computer.ownerStartedAt c) base in
  let base := put_if "owner_credentials_expire_at" (AN ∘ epochSeconds) (Computer.ownerCredentialsExpireAt c) base in
  let base := put_if "owner_credentials_renewed_at" (AN ∘ epochSeconds) (Computer.ownerCredentialsRenewedAt c) base in
  let base := put_if "dispatch_credentials_renewed_at" (AN ∘ epochSeconds) (Computer.dispatchCredentialsRenewedAt c) base in
  let base := put_if "idle_since_at" (AN ∘ epochSeconds) (Computer.idleSinceAt c) base in
  let base := put_if "owner_stop_approved_at" (AN ∘ epochSeconds) (Computer.ownerStopApprovedAt c) base in
  let base := put_if "dispatch_id" AS (Computer.dispatchId c) base in
  let base := put_if "dispatch_turn_id" AS (Computer.dispatchTurnId c) base in
  let base := put_if "dispatch_action_id" AS (Computer.dispatchActionId c) base in
  let base := put_if "dispatch_attempt" AN (Computer.dispatchAttempt c) base in
  let base := put_if "dispatch_lease_expires_at" (AN ∘ epochSeconds) (Computer.dispatchLeaseExpiresAt c) base in
  let base := put_if "interactive_until_at" (AN ∘ epochSeconds) (Computer.interactiveUntilAt c) base in
  put_if "file_operation_id" AS (Computer.fileOperationId c) base.

Definition flag_or (it : item) (name : string) (d : bool) : bool := default d (optionalFlag it name).
Definition number_or_0 (it : item) (name : string) : Z := default 0 (optionalNumber it name).

(** A moment stored as its second, absent when it is second 0. *)
Definition lease_moment (seconds : Z) : option Z := if seconds =? 0 then None else Some (seconds * 1000).

(** [None] is the error of a malformed item: a required text that is missing or empty. *)
Definition decodeComputer (it : item) : option Computer :=
  computerId ← optionalString it "computer_id";
  tenantId ← optionalString it "tenant_id";
  policy ← optionalString it "policy";
  Some {|
    Computer.computerId := computerId;
    Computer.tenantId := tenantId;
    Computer.policy := policy;
    Computer.stopped := flag_or it "stopped" false;
    Computer.modelReady := flag_or it "model_ready" true;
    Computer.workspaceReady := flag_or it "workspace_ready" false;
    Computer.browserReady := flag_or it "browser_ready" false;
    Computer.browserUnavailable := flag_or it "browser_unavailable" false;
    Computer.hostStartGeneration := number_or_0 it "host_start_generation";
    Computer.hostStartDispatchedGeneration := number_or_0 it "host_start_dispatched_generation";
    Computer.snapshotGeneration := number_or_0 it "snapshot_generation";
    Computer.diskDirty := flag_or it "disk_dirty" false;
    Computer.hydrateRequired := flag_or it "hydrate_required" false;
    Computer.hostStartLeaseExpiresAt := lease_moment (number_or_0 it "host_start_lease_expires_at");
    Computer.snapshotUri := required_string it "snapshot_uri";
    Computer.snapshotChecksum := required_string it "snapshot_checksum";
    Computer.intendedHostWorkerId := required_string it "intended_host_worker_id";
    Computer.liveWriterHostId := required_string it "live_writer_host_id";
    Computer.hostLostAt := optionalDate it "host_lost_at";
    Computer.hostLostGeneration := optionalNumber it "host_lost_generation";
    Computer.ownerId := required_string it "owner_id";
    Computer.ownerGeneration := optionalNumber it "owner_generation";
    Computer.ownerProtocolVersion := optionalNumber it "owner_protocol_version";
    Computer.ownerStartedAt := optionalDate it "owner_started_at";
    Computer.ownerCredentialsExpireAt := optionalDate it "owner_credentials_expire_at";
    Computer.ownerCredentialsRenewedAt := optionalDate it "owner_credentials_renewed_at";
    Computer.dispatchCredentialsRenewedAt := optionalDate it "dispatch_credentials_renewed_at";
    Computer.idleSinceAt := optionalDate it "idle_since_at";
    Computer.ownerStopApprovedAt := optionalDate it "owner_stop_approved_at";
    Computer.dispatchId := required_string it "dispatch_id";
    Computer.dispatchTurnId := required_string it "dispatch_turn_id";
    Computer.dispatchActionId := required_string it "dispatch_action_id";
    Computer.dispatchAttempt := optionalNumber it "dispatch_attempt";
    Computer.dispatchLeaseExpiresAt := optionalDate it "dispatch_lease_expires_at";
    Computer.interactiveUntilAt := optionalDate it "interactive_until_at";
    Computer.fileOperationId := required_string it "file_operation_id";
  |}.

(** ** The shape of an update *)

Record Change : Type := mkChange { updates : list action; condition : cond }.

Definition decode_computer (it : item) : prog Computer :=
  match decodeComputer it with Some c => Ret c | None => Throw (MalformedItem "computer") end.

(** The record after the change, or null when its condition failed. *)
Definition updateComputerWhere (tenantId : string) (change : Change) : prog (option Computer) :=
  null_when_condition_fails (
    let! attributes := send (UpdateItem (computerRecordKey tenantId) (updates change) (condition change)) in
    decode_computer attributes).

(** Whether the change was made; what it left is not read. *)
Definition apply_change (tenantId : string) (change : Change) : prog bool :=
  let! applied := null_when_condition_fails (
    send (UpdateItem (computerRecordKey tenantId) (updates change) (condition change))) in
  Ret (bool_decide (is_Some applied)).

Definition SET_FLAG (name : string) (b : bool) : action := SET name (ABOOL b).
Definition SET_MOMENT (name : string) (moment : Z) : action := SET name (AN (epochSeconds moment)).
Definition optional_condition (name : string) (v : option attr) : cond :=
  match v with None => AttrNotExists name | Some v => AttrEq name v end.

(** ** What the store records of an owner *)

Module Bootstrap.
Record OwnerBootstrapRecord : Type := mk {
  ownerId : string; generation : Z; protocolVersion : Z; startedAt : Z; credentialsExpireAt : Z }.
End Bootstrap.
Abbreviation OwnerBootstrapRecord := Bootstrap.OwnerBootstrapRecord.

Module DispatchRecord.
Record OwnerDispatchRecord : Type := mk {
  dispatchId : string; turnId : string; actionId : string; attempt : Z; leaseExpiresAt : Z }.
End DispatchRecord.
Abbreviation OwnerDispatchRecord := DispatchRecord.OwnerDispatchRecord.

Inductive OwnerCredentialsRenewal : Type :=
| supervisor_renewal (seenRenewedAt : option Z) (renewedAt credentialsExpireAt : Z)
| turn_renewal (dispatchId : string) (seenRenewedAt : option Z) (renewedAt : Z).

(** [idleSinceAt]: absent leaves the mark, null removes it. *)
Module Presence.
Record PresenceChange : Type := mk { protocolVersion : option Z; idleSinceAt : option (option Z) }.
End Presence.
Abbreviation PresenceChange := Presence.PresenceChange.

Inductive Capability : Type := CapabilityModel | CapabilityWorkspace | CapabilityBrowser.

(** ** The changes *)

Definition stopped_change (diskMatchesPublished : bool) (expectedHostStartGeneration : option Z) : Change := {|
  updates := [SET_FLAG "stopped" true; SET_FLAG "model_ready" false; SET_FLAG "workspace_ready" false; SET_FLAG "browser_ready" false]
            ++ (if diskMatchesPublished then [SET_FLAG "disk_dirty" false] else [])
            ++ (REMOVE <$> OWNER_ATTRIBUTE_NAMES);
  condition := match expectedHostStartGeneration with
               | None => AttrExists "pk"
               | Some generation => AttrExists "pk" AND AttrEq "host_start_generation" (AN generation)
               end |}.

Definition running_change : Change := {|
  updates := [SET_FLAG "stopped" false; REMOVE "browser_unavailable"];
  condition := AttrExists "pk" |}.

Definition capability_change (capability : Capability) : Change := {|
  updates := match capability with
            | CapabilityModel => [SET_FLAG "model_ready" true]
            | CapabilityWorkspace => [SET_FLAG "workspace_ready" true]
            | CapabilityBrowser => [SET_FLAG "browser_ready" true; REMOVE "browser_unavailable"]
            end;
  condition := AttrExists "pk" |}.

Definition browser_unavailable_change : Change := {|
  updates := [SET_FLAG "browser_ready" false; SET_FLAG "browser_unavailable" true];
  condition := AttrExists "pk" |}.

Definition claim_generation_change (expectedGeneration leaseExpiresAt : Z) : Change := {|
  updates := [SET "host_start_generation" (AN (expectedGeneration + 1)); SET_MOMENT "host_start_lease_expires_at" leaseExpiresAt;
             REMOVE "live_writer_host_id"] ++ (REMOVE <$> OWNER_ATTRIBUTE_NAMES);
  condition := AttrExists "pk" AND AttrEq "host_start_generation" (AN expectedGeneration) |}.

Definition settle_lost_change (expectedGeneration lostAt : Z) (hydrateRequired : bool) : Change := {|
  updates := [SET_FLAG "stopped" true; SET_FLAG "model_ready" false; SET_FLAG "workspace_ready" false; SET_FLAG "browser_ready" false;
             SET_FLAG "disk_dirty" false; SET_FLAG "hydrate_required" hydrateRequired; SET_MOMENT "host_lost_at" lostAt;
             SET "host_lost_generation" (AN expectedGeneration); REMOVE "live_writer_host_id"]
            ++ (REMOVE <$> OWNER_ATTRIBUTE_NAMES);
  condition := AttrExists "pk" AND AttrEq "host_start_generation" (AN expectedGeneration) AND
               (AttrEq "disk_dirty" (ABOOL true) OR AttrExists "live_writer_host_id") |}.

(** [snapshot_generation = snapshot_generation + :one]; every record has the attribute. *)
Definition snapshot_published_change (snapshotUri snapshotChecksum : string) : Change := {|
  updates := [SET "snapshot_uri" (AS snapshotUri); SET "snapshot_checksum" (AS snapshotChecksum);
             INCREMENT "snapshot_generation" 0 1; SET_FLAG "disk_dirty" false];
  condition := AttrExists "pk" AND AttrEq "hydrate_required" (ABOOL false) |}.

Definition hydrated_change : Change := {|
  updates := [SET_FLAG "hydrate_required" false; SET_FLAG "disk_dirty" false; REMOVE "intended_host_worker_id"];
  condition := AttrExists "pk" |}.

Definition disk_dirty_change : Change := {| updates := [SET_FLAG "disk_dirty" true]; condition := AttrExists "pk" |}.

Definition disk_writer_change (hostId : string) : Change := {|
  updates := [SET "live_writer_host_id" (AS hostId)];
  condition := AttrExists "pk" AND (AttrNotExists "live_writer_host_id" OR AttrEq "live_writer_host_id" (AS hostId)) |}.

Definition release_lease_change (generation : Z) : Change := {|
  updates := [REMOVE "host_start_lease_expires_at"];
  condition := AttrExists "pk" AND AttrEq "host_start_generation" (AN generation) |}.

Definition dispatched_change (generation : Z) : Change := {|
  updates := [SET "host_start_dispatched_generation" (AN generation)];
  condition := AttrExists "pk" AND AttrEq "host_start_generation" (AN generation) AND
               AttrLt "host_start_dispatched_generation" generation |}.

Definition release_dispatch_change (generation : Z) : Change := {|
  updates := [SET "host_start_dispatched_generation" (AN (generation - 1))];
  condition := AttrExists "pk" AND AttrEq "host_start_dispatched_generation" (AN generation) |}.

Definition bootstrap_change (b : OwnerBootstrapRecord) : Change := {|
  updates := [SET "owner_id" (AS (Bootstrap.ownerId b)); SET "owner_generation" (AN (Bootstrap.generation b));
             SET "owner_protocol_version" (AN (Bootstrap.protocolVersion b)); SET_MOMENT "owner_started_at" (Bootstrap.startedAt b);
             SET_MOMENT "owner_credentials_expire_at" (Bootstrap.credentialsExpireAt b)]
            ++ (REMOVE <$> filter (fun name => name ∉ ["owner_id"; "owner_protocol_version"; "owner_started_at"; "owner_credentials_expire_at"])
                             OWNER_ATTRIBUTE_NAMES);
  condition := AttrExists "pk" AND AttrEq "host_start_generation" (AN (Bootstrap.generation b)) AND
               (AttrNotExists "owner_generation" OR AttrLt "owner_generation" (Bootstrap.generation b)) |}.

Definition presence_change (ownerId : string) (change : PresenceChange) : Change := {|
  updates := match Presence.protocolVersion change with Some version => [SET "owner_protocol_version" (AN version)] | None => [] end
            ++ match Presence.idleSinceAt change with
               | Some (Some moment) => [SET_MOMENT "idle_since_at" moment]
               | Some None => [REMOVE "idle_since_at"]
               | None => []
               end;
  condition := AttrExists "pk" AND AttrEq "owner_id" (AS ownerId) |}.

Definition offer_change (ownerId : string) (expectedDispatchId : option string) (d : OwnerDispatchRecord) : Change := {|
  updates := [SET "dispatch_id" (AS (DispatchRecord.dispatchId d)); SET "dispatch_turn_id" (AS (DispatchRecord.turnId d));
             SET "dispatch_action_id" (AS (DispatchRecord.actionId d)); SET "dispatch_attempt" (AN (DispatchRecord.attempt d));
             SET_MOMENT "dispatch_lease_expires_at" (DispatchRecord.leaseExpiresAt d); REMOVE "dispatch_credentials_renewed_at"];
  condition := AttrExists "pk" AND AttrEq "owner_id" (AS ownerId) AND AttrNotExists "owner_stop_approved_at" AND
               optional_condition "dispatch_id" (AS <$> expectedDispatchId) |}.

Definition approve_stop_change (ownerId : string) (expectedDispatchId expectedFileOperationId : option string) (approvedAt : Z) : Change := {|
  updates := [SET_MOMENT "owner_stop_approved_at" approvedAt];
  condition := AttrExists "pk" AND AttrEq "owner_id" (AS ownerId) AND
               optional_condition "dispatch_id" (AS <$> expectedDispatchId) AND
               optional_condition "file_operation_id" (AS <$> expectedFileOperationId) |}.

Definition renew_change (ownerId : string) (generation : Z) (change : OwnerCredentialsRenewal) : Change :=
  let owner := AttrExists "pk" AND AttrEq "owner_id" (AS ownerId) AND AttrEq "owner_generation" (AN generation) AND
               AttrNotExists "owner_stop_approved_at" in
  let seen name at_ := optional_condition name ((fun m => AN (epochSeconds m)) <$> at_) in
  match change with
  | supervisor_renewal seenRenewedAt renewedAt credentialsExpireAt => {|
      updates := [SET_MOMENT "owner_credentials_renewed_at" renewedAt; SET_MOMENT "owner_credentials_expire_at" credentialsExpireAt];
      condition := owner AND seen "owner_credentials_renewed_at" seenRenewedAt |}
  | turn_renewal dispatchId seenRenewedAt renewedAt => {|
      updates := [SET_MOMENT "dispatch_credentials_renewed_at" renewedAt];
      condition := owner AND seen "dispatch_credentials_renewed_at" seenRenewedAt AND AttrEq "dispatch_id" (AS dispatchId) |}
  end.

Definition touch_change (ownerId : string) (generation until : Z) : Change := {|
  updates := [SET_MOMENT "interactive_until_at" until];
  condition := AttrExists "pk" AND AttrEq "owner_id" (AS ownerId) AND AttrEq "owner_generation" (AN generation) AND
               AttrNotExists "owner_stop_approved_at" |}.

(** The part of queueing a file request that changes the computer record. *)
Definition queue_change (ownerId : string) (generation : Z) (operationId : string) (interactiveUntilAt : Z) : Change := {|
  updates := [SET_MOMENT "interactive_until_at" interactiveUntilAt; SET "file_operation_id" (AS operationId)];
  condition := AttrExists "pk" AND AttrEq "owner_id" (AS ownerId) AND AttrEq "owner_generation" (AN generation) AND
               AttrNotExists "owner_stop_approved_at" |}.

(** ** The methods *)

Definition getComputer (tenantId : string) : prog (option Computer) :=
  let! response := send (GetItem (computerRecordKey tenantId)) in
  match response with
  | None => Ret None
  | Some it => let! c := decode_computer it in Ret (Some c)
  end.

(** [(await this.getComputer(tenantId))!]: a record that is gone again is an error of the caller. *)
Definition createComputerIfAbsent (c : Computer) : prog Computer :=
  catch (send (PutItem (encodeComputer c) (AttrNotExists "pk")) ;;; Ret c)
    (fun error => match error with
     | ConditionalCheckFailedException =>
         let! existing := getComputer (Computer.tenantId c) in
         match existing with Some e => Ret e | None => Throw (JsError "Cannot read properties of null") end
     | _ => Throw error
     end).

Definition markComputerStopped (tenantId : string) (diskMatchesPublished : bool) (expectedHostStartGeneration : option Z) :
  prog (option Computer) := updateComputerWhere tenantId (stopped_change diskMatchesPublished expectedHostStartGeneration).
Definition markComputerRunning (tenantId : string) : prog (option Computer) := updateComputerWhere tenantId running_change.
Definition recordComputerCapabilityReady (tenantId : string) (capability : Capability) : prog (option Computer) :=
  updateComputerWhere tenantId (capability_change capability).
Definition recordComputerBrowserUnavailable (tenantId : string) : prog (option Computer) :=
  updateComputerWhere tenantId browser_unavailable_change.
Definition claimHostStartGeneration (tenantId : string) (expectedGeneration leaseExpiresAt : Z) : prog (option Computer) :=
  updateComputerWhere tenantId (claim_generation_change expectedGeneration leaseExpiresAt).
Definition settleLostComputerHost (tenantId : string) (expectedGeneration lostAt : Z) (hydrateRequired : bool) : prog (option Computer) :=
  updateComputerWhere tenantId (settle_lost_change expectedGeneration lostAt hydrateRequired).
Definition recordComputerSnapshotPublished (tenantId snapshotUri snapshotChecksum : string) : prog (option Computer) :=
  updateComputerWhere tenantId (snapshot_published_change snapshotUri snapshotChecksum).
Definition recordComputerHydrated (tenantId : string) : prog (option Computer) := updateComputerWhere tenantId hydrated_change.
Definition markComputerDiskDirty (tenantId : string) : prog bool := apply_change tenantId disk_dirty_change.
Definition claimComputerDiskWriter (tenantId hostId : string) : prog bool := apply_change tenantId (disk_writer_change hostId).
Definition releaseHostStartLease (tenantId : string) (generation : Z) : prog bool :=
  apply_change tenantId (release_lease_change generation).
Definition markHostStartDispatched (tenantId : string) (generation : Z) : prog bool :=
  apply_change tenantId (dispatched_change generation).
Definition releaseHostStartDispatch (tenantId : string) (generation : Z) : prog unit :=
  apply_change tenantId (release_dispatch_change generation) ;;; Ret tt.
Definition consumeOwnerBootstrap (tenantId : string) (bootstrap : OwnerBootstrapRecord) : prog (option Computer) :=
  updateComputerWhere tenantId (bootstrap_change bootstrap).

(** [(await this.updateComputerWhere(...)) !== null]. *)
Definition was_changed (tenantId : string) (change : Change) : prog bool :=
  let! c := updateComputerWhere tenantId change in Ret (bool_decide (is_Some c)).

Definition updateOwnerPresence (tenantId ownerId : string) (change : PresenceChange) : prog bool :=
  match updates (presence_change ownerId change) with
  | [] => Ret true
  | _ => was_changed tenantId (presence_change ownerId change)
  end.
Definition offerOwnerDispatch (tenantId ownerId : string) (expectedDispatchId : option string) (dispatch : OwnerDispatchRecord) : prog bool :=
  was_changed tenantId (offer_change ownerId expectedDispatchId dispatch).
Definition approveOwnerStop (tenantId ownerId : string) (expectedDispatchId expectedFileOperationId : option string) (approvedAt : Z) : prog bool :=
  was_changed tenantId (approve_stop_change ownerId expectedDispatchId expectedFileOperationId approvedAt).
Definition renewOwnerCredentials_store (tenantId ownerId : string) (generation : Z) (change : OwnerCredentialsRenewal) : prog bool :=
  was_changed tenantId (renew_change ownerId generation change).
Definition touchInteractiveWindow (tenantId ownerId : string) (generation until : Z) : prog bool :=
  was_changed tenantId (touch_change ownerId generation until).
