(* ===== verification/ComputerSpec.v ===== *)
(** * The life of a computer record

    The machine of one computer record: its commands with their guards and effects ([owner_command]), its invariant
    ([computer_inv]), and what its histories keep: generations never go back, a generation has one owner for ever, and an
    owner whose stop was approved gets nothing more. *)

From S2P Require Import Prelude Computers TurnCodec TurnStore TurnSpec ComputerStore.
From coqutil Require Import Datatypes.RecordSetters.
Import DoubleBraceUpdate.
#[local] Open Scope Z_scope.

(** ** Commands *)

Inductive owner_command : Type :=
| Stop (diskMatchesPublished : bool) (expected : option Z)
| Run
| Ready (capability : Capability)
| NoBrowser
| ClaimGeneration (expected lease : Z)
| SettleLost (expected lostAt : Z) (hydrateRequired : bool)
| Publish (uri checksum : string)
| Hydrated
| Dirty
| ClaimWriter (hostId : string)
| ReleaseLease (generation : Z)
| Dispatched (generation : Z)
| ReleaseDispatch (generation : Z)
| StartOwner (b : OwnerBootstrapRecord)
| Presence_ (ownerId : string) (change : PresenceChange)
| Offer (ownerId : string) (expected : option string) (d : OwnerDispatchRecord)
| ApproveStop (ownerId : string) (expectedDispatch expectedFile : option string) (approvedAt : Z)
| Renew (ownerId : string) (generation : Z) (change : OwnerCredentialsRenewal)
| Touch (ownerId : string) (generation until : Z)
| QueueFile (ownerId : string) (generation : Z) (operationId : string) (until : Z).

(** The owner may be given something: it is the one named, in its generation, and no stop of it was approved. *)
Definition serves (c : Computer) (ownerId : string) (generation : Z) : Prop :=
  Computer.ownerId c = Some ownerId /\ Computer.ownerGeneration c = Some generation /\ Computer.ownerStopApprovedAt c = None.

Definition guard (x : owner_command) (c : Computer) : Prop :=
  match x with
  | Stop _ (Some g) | ClaimGeneration g _ | ReleaseLease g => Computer.hostStartGeneration c = g
  | SettleLost g _ _ => Computer.hostStartGeneration c = g /\ (Computer.diskDirty c = true \/ is_Some (Computer.liveWriterHostId c))
  | Publish _ _ => Computer.hydrateRequired c = false
  | ClaimWriter h => Computer.liveWriterHostId c = None \/ Computer.liveWriterHostId c = Some h
  | Dispatched g => Computer.hostStartGeneration c = g /\ Computer.hostStartDispatchedGeneration c < g
  | ReleaseDispatch g => Computer.hostStartDispatchedGeneration c = g
  | StartOwner b => Computer.hostStartGeneration c = Bootstrap.generation b /\
      (forall g, Computer.ownerGeneration c = Some g -> g < Bootstrap.generation b)
  | Presence_ o _ => Computer.ownerId c = Some o
  | Offer o e _ => Computer.ownerId c = Some o /\ Computer.ownerStopApprovedAt c = None /\ Computer.dispatchId c = e
  | ApproveStop o d f _ => Computer.ownerId c = Some o /\ Computer.dispatchId c = d /\ Computer.fileOperationId c = f
  | Renew o g (turn_renewal d _ _) => serves c o g /\ Computer.dispatchId c = Some d
  | Renew o g _ | Touch o g _ | QueueFile o g _ _ => serves c o g
  | Stop _ None | Run | Ready _ | NoBrowser | Hydrated | Dirty => True
  end.

(** A computer whose host is gone: no owner, nothing ready. *)
Definition halted (c : Computer) : Computer :=
  (withoutOwner c) {{ Computer.stopped := true; Computer.modelReady := false; Computer.workspaceReady := false; Computer.browserReady := false }}.

Definition effect (x : owner_command) (c : Computer) : Computer :=
  match x with
  | Stop matches _ => if matches then (halted c) {{ Computer.diskDirty := false }} else halted c
  | Run => c {{ Computer.stopped := false; Computer.browserUnavailable := false }}
  | Ready CapabilityModel => c {{ Computer.modelReady := true }}
  | Ready CapabilityWorkspace => c {{ Computer.workspaceReady := true }}
  | Ready CapabilityBrowser => c {{ Computer.browserReady := true; Computer.browserUnavailable := false }}
  | NoBrowser => c {{ Computer.browserReady := false; Computer.browserUnavailable := true }}
  | ClaimGeneration g lease => (withoutOwner c) {{ Computer.hostStartGeneration := g + 1;
      Computer.hostStartLeaseExpiresAt := lease_moment (epochSeconds lease); Computer.liveWriterHostId := None }}
  | SettleLost g lostAt hydrate => (halted c) {{ Computer.diskDirty := false; Computer.hydrateRequired := hydrate;
      Computer.hostLostAt := Some (stored_moment lostAt); Computer.hostLostGeneration := Some g; Computer.liveWriterHostId := None }}
  | Publish uri checksum => c {{ Computer.snapshotUri := Some uri; Computer.snapshotChecksum := Some checksum;
      Computer.snapshotGeneration := Computer.snapshotGeneration c + 1; Computer.diskDirty := false }}
  | Hydrated => c {{ Computer.hydrateRequired := false; Computer.diskDirty := false; Computer.intendedHostWorkerId := None }}
  | Dirty => c {{ Computer.diskDirty := true }}
  | ClaimWriter h => c {{ Computer.liveWriterHostId := Some h }}
  | ReleaseLease _ => c {{ Computer.hostStartLeaseExpiresAt := None }}
  | Dispatched g => c {{ Computer.hostStartDispatchedGeneration := g }}
  | ReleaseDispatch g => c {{ Computer.hostStartDispatchedGeneration := g - 1 }}
  | StartOwner b => (withoutOwner c) {{ Computer.ownerId := Some (Bootstrap.ownerId b);
      Computer.ownerGeneration := Some (Bootstrap.generation b); Computer.ownerProtocolVersion := Some (Bootstrap.protocolVersion b);
      Computer.ownerStartedAt := Some (stored_moment (Bootstrap.startedAt b));
      Computer.ownerCredentialsExpireAt := Some (stored_moment (Bootstrap.credentialsExpireAt b)) }}
  | Presence_ _ change =>
      c {{ Computer.ownerProtocolVersion := match Presence.protocolVersion change with Some v => Some v | None => Computer.ownerProtocolVersion c end;
           Computer.idleSinceAt := match Presence.idleSinceAt change with Some o => stored_moment <$> o | None => Computer.idleSinceAt c end }}
  | Offer _ _ d => c {{ Computer.dispatchId := Some (DispatchRecord.dispatchId d); Computer.dispatchTurnId := Some (DispatchRecord.turnId d);
      Computer.dispatchActionId := Some (DispatchRecord.actionId d); Computer.dispatchAttempt := Some (DispatchRecord.attempt d);
      Computer.dispatchLeaseExpiresAt := Some (stored_moment (DispatchRecord.leaseExpiresAt d)); Computer.dispatchCredentialsRenewedAt := None }}
  | ApproveStop _ _ _ approvedAt => c {{ Computer.ownerStopApprovedAt := Some (stored_moment approvedAt) }}
  | Renew _ _ (supervisor_renewal _ renewed expire) => c {{ Computer.ownerCredentialsRenewedAt := Some (stored_moment renewed);
      Computer.ownerCredentialsExpireAt := Some (stored_moment expire) }}
  | Renew _ _ (turn_renewal _ _ renewed) => c {{ Computer.dispatchCredentialsRenewedAt := Some (stored_moment renewed) }}
  | Touch _ _ until => c {{ Computer.interactiveUntilAt := Some (stored_moment until) }}
  | QueueFile _ _ operationId until => c {{ Computer.interactiveUntilAt := Some (stored_moment until); Computer.fileOperationId := Some operationId }}
  end.

(** One command of the machine. *)
Inductive owner_step (c : Computer) : Computer -> Prop :=
| owner_step_intro x : guard x c -> owner_step c (effect x c).

(** Compute the fields of an updated computer. *)
Ltac computer_fields :=
  cbv [apply_update constant withoutOwner halted
    Computer.computerId Computer.tenantId Computer.policy Computer.stopped Computer.modelReady
    Computer.workspaceReady Computer.browserReady Computer.browserUnavailable Computer.hostStartGeneration
    Computer.hostStartDispatchedGeneration Computer.snapshotGeneration Computer.diskDirty Computer.hydrateRequired
    Computer.hostStartLeaseExpiresAt Computer.snapshotUri Computer.snapshotChecksum Computer.intendedHostWorkerId
    Computer.liveWriterHostId Computer.hostLostAt Computer.hostLostGeneration Computer.ownerId Computer.ownerGeneration
    Computer.ownerProtocolVersion Computer.ownerStartedAt Computer.ownerCredentialsExpireAt Computer.ownerCredentialsRenewedAt
    Computer.dispatchCredentialsRenewedAt Computer.idleSinceAt Computer.ownerStopApprovedAt Computer.dispatchId
    Computer.dispatchTurnId Computer.dispatchActionId Computer.dispatchAttempt Computer.dispatchLeaseExpiresAt
    Computer.interactiveUntilAt Computer.fileOperationId] in *.

(** ** The invariant *)

Record computer_inv (c : Computer) : Prop := {
  inv_dispatched : Computer.hostStartDispatchedGeneration c <= Computer.hostStartGeneration c;
  inv_generation : forall g, Computer.ownerGeneration c = Some g -> g <= Computer.hostStartGeneration c;
  inv_current : forall o, Computer.ownerId c = Some o -> Computer.ownerGeneration c = Some (Computer.hostStartGeneration c);
  inv_alone : Computer.ownerId c = None -> withoutOwner c = c;
  inv_dispatch : is_Some (Computer.dispatchId c) ->
    is_Some (Computer.dispatchTurnId c) /\ is_Some (Computer.dispatchActionId c) /\ is_Some (Computer.dispatchAttempt c) /\
    is_Some (Computer.dispatchLeaseExpiresAt c);
  inv_browser : Computer.browserUnavailable c = true -> Computer.browserReady c = false;
}.

Lemma new_computer_inv t i : computer_inv (newComputerRecord t i).
Proof. constructor; cbn; done. Qed.

(** Every command, with its arguments far enough to compute its effect. *)
Ltac command_cases x :=
  destruct x as [[] []| |[]| | | | | | | | | | | |? []| | |? ? []| |]; cbn [effect guard] in *; unfold serves in *.

Lemma effect_inv x c : computer_inv c -> guard x c -> computer_inv (effect x c).
Proof.
  intros [Hd Hg Hc Ha Hw Hb] Hx. destruct c.
  command_cases x; computer_fields; destruct_and?; constructor; computer_fields; try done;
    try (intros ? [= <-]; lia); try (intros g' Hg'; specialize (Hg g' Hg'); lia); try lia; try congruence.
  all: intros Ho; injection (Ha Ho); intros; subst; reflexivity.
Qed.

Lemma owner_step_inv c c' : computer_inv c -> owner_step c c' -> computer_inv c'.
Proof. intros Hi [x Hx]. by apply effect_inv. Qed.

Lemma owner_steps_inv c c' : computer_inv c -> rtc owner_step c c' -> computer_inv c'.
Proof. intros Hi. induction 1; eauto using owner_step_inv. Qed.

(** ** Histories *)

(** Generations of owners in the order they come: no owner yet, then ever greater numbers. *)
Definition generation_le (g g' : option Z) : Prop :=
  match g, g' with None, _ => True | Some n, Some m => n <= m | Some _, None => False end.

#[export] Instance generation_le_preorder : PreOrder generation_le.
Proof. split; [by intros [n|]; cbn|]. intros [x|] [y|] [z|]; cbn; lia. Qed.

Lemma generation_le_antisym g g' : generation_le g g' -> generation_le g' g -> g = g'.
Proof. destruct g, g'; cbn; intros; f_equal; try done; lia. Qed.

Ltac by_command x c := destruct c; command_cases x; computer_fields; destruct_and?.

Lemma step_generation c c' : owner_step c c' -> Computer.hostStartGeneration c <= Computer.hostStartGeneration c'.
Proof. intros [x Hx]. by_command x c; lia. Qed.

Lemma steps_generation c c' : rtc owner_step c c' -> Computer.hostStartGeneration c <= Computer.hostStartGeneration c'.
Proof. induction 1 as [|c c1 c2 Hs _ IH]; [done|]. apply step_generation in Hs. lia. Qed.

Lemma step_owner_generation c c' : owner_step c c' -> generation_le (Computer.ownerGeneration c) (Computer.ownerGeneration c').
Proof.
  intros [x Hx]. by_command x c; try reflexivity.
  match goal with H : forall g, ?o = Some g -> _ |- generation_le ?o _ => destruct o; [specialize (H _ eq_refl); cbn; lia|done] end.
Qed.

Lemma steps_owner_generation c c' : rtc owner_step c c' -> generation_le (Computer.ownerGeneration c) (Computer.ownerGeneration c').
Proof. induction 1 as [|c c1 c2 Hs _ IH]; [done|]. apply step_owner_generation in Hs. by trans (Computer.ownerGeneration c1). Qed.

(** What an owner has been handed: its dispatch, its credentials, its file request and its interactive window. *)
Definition holdings (c : Computer) :=
  (Computer.dispatchId c, Computer.dispatchTurnId c, Computer.dispatchActionId c, Computer.dispatchAttempt c,
   Computer.dispatchLeaseExpiresAt c, Computer.ownerCredentialsExpireAt c, Computer.ownerCredentialsRenewedAt c,
   Computer.dispatchCredentialsRenewedAt c, Computer.fileOperationId c, Computer.interactiveUntilAt c).

Definition stop_approved (c : Computer) : Prop := is_Some (Computer.ownerStopApprovedAt c).

(** In a generation no owner comes after another, and an owner whose stop was approved keeps what it has and gets no more. *)
Lemma step_in_generation c c' :
  owner_step c c' -> Computer.ownerGeneration c' = Computer.ownerGeneration c ->
  Computer.ownerId c' = None \/
  (Computer.ownerId c' = Computer.ownerId c /\ (stop_approved c -> stop_approved c' /\ holdings c' = holdings c)).
Proof.
  intros [x Hx] Hg. unfold stop_approved, holdings. revert Hg.
  by_command x c; intros Hg; first [by left | right; split; [done|]; intros [m [= ->]]; done | idtac].
  match goal with H : forall g, _ = Some g -> _ |- _ => specialize (H _ (eq_sym Hg)); lia end.
Qed.

Lemma in_generation c c' :
  rtc owner_step c c' -> Computer.ownerGeneration c' = Computer.ownerGeneration c ->
  Computer.ownerId c' = None \/
  (Computer.ownerId c' = Computer.ownerId c /\ (stop_approved c -> stop_approved c' /\ holdings c' = holdings c)).
Proof.
  induction 1 as [c|c c1 c2 Hs Hss IH]; intros Hg; [by right|].
  assert (Computer.ownerGeneration c1 = Computer.ownerGeneration c) as Hg1.
  { apply generation_le_antisym; [|by apply step_owner_generation]. rewrite <- Hg. by apply steps_owner_generation. }
  destruct (IH ltac:(congruence)) as [Hn|[Ho2 Hh2]]; [by left|].
  destruct (step_in_generation _ _ Hs Hg1) as [Hn|[Ho1 Hh1]]; [left; congruence|].
  right. split; [congruence|]. intros Ha. destruct (Hh1 Ha) as [Ha1 He1]. destruct (Hh2 Ha1) as [Ha2 He2]. split; [done|congruence].
Qed.

(** A generation has one owner for ever. *)
Lemma one_owner_per_generation c c' o o' :
  rtc owner_step c c' -> Computer.ownerGeneration c' = Computer.ownerGeneration c ->
  Computer.ownerId c = Some o -> Computer.ownerId c' = Some o' -> o' = o.
Proof. intros Hs Hg Ho Ho'. destruct (in_generation _ _ Hs Hg) as [|[? _]]; congruence. Qed.
