(* ===== verification/ComputerSystem.v ===== *)
(** * The computer records of the table

    Each change of ComputerStore.v is a command of the machine of ComputerSpec.v ([command_refines]); a write of the table by
    anybody leaves the record of an organization, makes it, or is one command ([record_step]). *)

From S2P Require Import Prelude Json Types Computers Service TurnCodec TurnStore TurnSpec ComputerStore ComputerSpec.
From coqutil Require Import Datatypes.RecordSetters.
Import DoubleBraceUpdate.
#[local] Open Scope Z_scope.
#[local] Open Scope cond_scope.

(** ** An attribute after an update *)

Definition action_name (x : action) : string := match x with SET a _ | ADD a _ | REMOVE a | INCREMENT a _ _ => a end.

(** What one action makes of the value of its attribute. *)
Definition action_value (x : action) (o : option attr) : option attr :=
  match x with
  | SET _ v => Some v
  | REMOVE _ => None
  | ADD _ v =>
      match v, o with
      | AN n, Some (AN m) => Some (AN (m + n))
      | ASS ss, Some (ASS old) => Some (ASS (old ∪ ss))
      | _, None => Some v
      | _, Some _ => o
      end
  | INCREMENT _ first step => match o with Some (AN m) => Some (AN (m + step)) | _ => Some (AN (first + step)) end
  end.

Definition final (xs : list action) (name : string) (o : option attr) : option attr :=
  foldl (fun o x => if bool_decide (action_name x = name) then action_value x o else o) o xs.

Lemma lookup_apply_action it x n :
  apply_action it x !! n = if bool_decide (action_name x = n) then action_value x (it !! n) else it !! n.
Proof.
  case_bool_decide as Hn; [subst n|]; destruct x; cbn [action_name] in *; cbn [apply_action action_value];
    rewrite ?lookup_insert_eq, ?lookup_delete_eq, ?lookup_insert_ne, ?lookup_delete_ne by done; try done;
    repeat case_match; simplify_eq; rewrite ?lookup_insert_eq, ?lookup_insert_ne by done; congruence.
Qed.

Lemma lookup_apply_actions xs it n : apply_actions xs it !! n = final xs n (it !! n).
Proof.
  unfold apply_actions, final. revert it. induction xs as [|x xs IH]; intros it; [done|]. cbn [foldl].
  by rewrite IH, lookup_apply_action.
Qed.

(** ** Commands and changes *)

Definition change_of (x : owner_command) : Change :=
  match x with
  | Stop matches expected => stopped_change matches expected
  | Run => running_change
  | Ready capability => capability_change capability
  | NoBrowser => browser_unavailable_change
  | ClaimGeneration expected lease => claim_generation_change expected lease
  | SettleLost expected lostAt hydrate => settle_lost_change expected lostAt hydrate
  | Publish uri checksum => snapshot_published_change uri checksum
  | Hydrated => hydrated_change
  | Dirty => disk_dirty_change
  | ClaimWriter hostId => disk_writer_change hostId
  | ReleaseLease generation => release_lease_change generation
  | Dispatched generation => dispatched_change generation
  | ReleaseDispatch generation => release_dispatch_change generation
  | StartOwner b => bootstrap_change b
  | Presence_ ownerId change => presence_change ownerId change
  | Offer ownerId expected d => offer_change ownerId expected d
  | ApproveStop ownerId dispatch file approvedAt => approve_stop_change ownerId dispatch file approvedAt
  | Renew ownerId generation change => renew_change ownerId generation change
  | Touch ownerId generation until => touch_change ownerId generation until
  | QueueFile ownerId generation operationId until => queue_change ownerId generation operationId until
  end.

Ltac readers := unfold flag_or, number_or_0, optionalDate, optionalFlag, optionalNumber, required_number, required_string, optionalString in *.

(** A condition on an item, as facts on its attributes. *)
Ltac attributes H :=
  cbn [holds change_of condition stopped_change running_change capability_change browser_unavailable_change
       claim_generation_change settle_lost_change snapshot_published_change hydrated_change disk_dirty_change disk_writer_change
       release_lease_change dispatched_change release_dispatch_change bootstrap_change presence_change offer_change
       approve_stop_change renew_change touch_change queue_change optional_condition option_fmap option_map fmap] in H;
  rewrite ?andb_true_iff, ?orb_true_iff, ?bool_decide_eq_true in H; destruct_and?.

Section refinement.
Context (it : item) (c : Computer) (Hc : decodeComputer it = Some c).

Lemma decoded : exists computerId tenantId policy,
  optionalString it "computer_id" = Some computerId /\ optionalString it "tenant_id" = Some tenantId /\
  optionalString it "policy" = Some policy.
Proof using Hc.
  unfold decodeComputer in Hc.
  destruct (optionalString it "computer_id") eqn:?; [|done]. destruct (optionalString it "tenant_id") eqn:?; [|done].
  destruct (optionalString it "policy") eqn:?; [|done]. by do 3 eexists.
Qed.

Lemma computer_update_refines x : decodeComputer (apply_actions (updates (change_of x)) it) = Some (effect x c).
Proof using Hc.
  destruct decoded as (i & t & p & Hi & Ht & Hp). revert Hc Hi Ht Hp. unfold decodeComputer. readers.
  rewrite !lookup_apply_actions.
  repeat match goal with |- context [it !! ?n] => generalize (it !! n); intros ? end.
  intros Hd Hi Ht Hp. rewrite Hi, Ht, Hp in Hd. cbn [mbind option_bind] in Hd. injection Hd as <-.
  destruct x as [[] ?| |[]| | | | | | | | | | | |? [[?|] [[?|]|]]| | |? ? []| |].
  all: repeat match goal with |- context [final ?xs ?n ?o] => let v := eval vm_compute in (final xs n o) in change (final xs n o) with v end.
  all: rewrite Hi, Ht, Hp; cbn [mbind option_bind]; f_equal; try reflexivity.
  match goal with |- context [match match ?o with _ => _ end with _ => _ end] => destruct o as [[]|]; reflexivity end.
Qed.

(** The record has an attribute exactly when its field is there. *)
Lemma decoded_fields :
  Computer.hostStartGeneration c = number_or_0 it "host_start_generation" /\
  Computer.hostStartDispatchedGeneration c = number_or_0 it "host_start_dispatched_generation" /\
  Computer.diskDirty c = flag_or it "disk_dirty" false /\ Computer.hydrateRequired c = flag_or it "hydrate_required" false /\
  Computer.liveWriterHostId c = required_string it "live_writer_host_id" /\ Computer.ownerId c = required_string it "owner_id" /\
  Computer.ownerGeneration c = optionalNumber it "owner_generation" /\
  Computer.ownerStopApprovedAt c = optionalDate it "owner_stop_approved_at" /\
  Computer.dispatchId c = required_string it "dispatch_id" /\ Computer.fileOperationId c = required_string it "file_operation_id".
Proof using Hc.
  unfold decodeComputer in Hc. destruct (optionalString it "computer_id"); [|done].
  destruct (optionalString it "tenant_id"); [|done]. destruct (optionalString it "policy"); [|done].
  cbn [mbind option_bind] in Hc. by simplify_eq/=.
Qed.

(** The record has its key, and a writer is named by a text. *)
Record record_wf : Prop := {
  wf_key : is_Some (it !! "pk");
  wf_writer : is_Some (it !! "live_writer_host_id") -> is_Some (required_string it "live_writer_host_id");
}.

Lemma condition_guards x : record_wf -> holds (condition (change_of x)) it = true -> guard x c.
Proof using Hc.
  destruct decoded_fields as (Hg & Hd & Hy & Hh & Hl & Ho & Hog & Hs & Hi & Hf). intros [_ Hw] Hx. revert Hx.
  destruct x as [? [?|]| |[]| | | | | | | | | | | |? ?|? [?|]|? [?|] [?|]|? ? []| |]; intros Hx; attributes Hx; cbn [guard]; unfold serves.
  all: rewrite ?Hg, ?Hd, ?Hy, ?Hh, ?Hl, ?Ho, ?Hog, ?Hs, ?Hi, ?Hf; readers.
  all: repeat match goal with H : it !! _ = _ |- _ => rewrite H in *; clear H end.
  all: clear Hc Hg Hd Hy Hh Hl Ho Hog Hs Hi Hf; split_and?; try done.
  - match goal with H : _ \/ _ |- _ => destruct H as [E|E]; [left; by rewrite E|right; by apply Hw] end.
  - match goal with H : _ \/ _ |- _ => destruct H as [E|E]; rewrite E; [by left|by right] end.
  - destruct (it !! "host_start_dispatched_generation") as [[]|]; try done. cbn. lia.
  - intros g. match goal with H : _ \/ _ |- _ => destruct H as [E|E]; revert E end; [intros ->; done|].
    destruct (it !! "owner_generation") as [[]|]; try done. cbn. intros ? [= ->]. lia.
Qed.
End refinement.

Lemma update_wf it x : record_wf it -> record_wf (apply_actions (updates (change_of x)) it).
Proof.
  intros [Hk Hw]. readers. destruct x as [[] ?| |[]| | | | | | | | | | | |? [[?|] [[?|]|]]| | |? ? []| |]; constructor; readers;
    rewrite !lookup_apply_actions;
    repeat match goal with |- context [final ?xs ?n ?o] => let v := eval vm_compute in (final xs n o) in change (final xs n o) with v end;
    first [exact Hk | exact Hw | (intros [? [=]]; fail) | by eexists].
Qed.

(** A change of a record that reads as a computer is a command of the machine. *)
Lemma command_refines it c x :
  decodeComputer it = Some c -> record_wf it -> holds (condition (change_of x)) it = true ->
  let it' := apply_actions (updates (change_of x)) it in
  guard x c /\ decodeComputer it' = Some (effect x c) /\ record_wf it'.
Proof. intros Hc Hw Hx. split_and!; [by eapply condition_guards|by apply computer_update_refines|by apply update_wf]. Qed.

(** ** The codec *)

(** A computer as its record keeps it: moments without their milliseconds, a start lease of second 0 as none. *)
Definition stored_computer (c : Computer) : Computer :=
  c {{ Computer.hostStartLeaseExpiresAt := Computer.hostStartLeaseExpiresAt c ≫= (lease_moment ∘ epochSeconds);
       Computer.hostLostAt := stored_moment <$> Computer.hostLostAt c;
       Computer.ownerStartedAt := stored_moment <$> Computer.ownerStartedAt c;
       Computer.ownerCredentialsExpireAt := stored_moment <$> Computer.ownerCredentialsExpireAt c;
       Computer.ownerCredentialsRenewedAt := stored_moment <$> Computer.ownerCredentialsRenewedAt c;
       Computer.dispatchCredentialsRenewedAt := stored_moment <$> Computer.dispatchCredentialsRenewedAt c;
       Computer.idleSinceAt := stored_moment <$> Computer.idleSinceAt c;
       Computer.ownerStopApprovedAt := stored_moment <$> Computer.ownerStopApprovedAt c;
       Computer.dispatchLeaseExpiresAt := stored_moment <$> Computer.dispatchLeaseExpiresAt c;
       Computer.interactiveUntilAt := stored_moment <$> Computer.interactiveUntilAt c }}.

(** The attributes of a record in the order they are put, an absent one as [None]. *)
Definition put (it : item) (p : string * option attr) : item := match p.2 with Some v => <[p.1 := v]> it | None => it end.

Lemma lookup_puts l (it : item) n :
  foldl put it l !! n = foldl (fun o p => if String.eqb p.1 n then match p.2 with Some v => Some v | None => o end else o) (it !! n) l.
Proof.
  revert it. induction l as [|[m [v|]] l IH]; intros it; [done| |]; cbn [foldl]; rewrite IH; unfold put; cbn [fst snd].
  - destruct (String.eqb_spec m n) as [->|]; [by rewrite lookup_insert_eq|by rewrite lookup_insert_ne].
  - by destruct (String.eqb m n).
Qed.

Definition moment_attr (o : option Z) : option attr := (AN ∘ epochSeconds) <$> o.

Definition computer_attributes (c : Computer) : list (string * option attr) := [
  ("hydrate_required", Some (ABOOL (Computer.hydrateRequired c))); ("disk_dirty", Some (ABOOL (Computer.diskDirty c)));
  ("snapshot_generation", Some (AN (Computer.snapshotGeneration c)));
  ("host_start_lease_expires_at", Some (AN (match Computer.hostStartLeaseExpiresAt c with Some m => epochSeconds m | None => 0 end)));
  ("host_start_dispatched_generation", Some (AN (Computer.hostStartDispatchedGeneration c)));
  ("host_start_generation", Some (AN (Computer.hostStartGeneration c)));
  ("browser_ready", Some (ABOOL (Computer.browserReady c))); ("workspace_ready", Some (ABOOL (Computer.workspaceReady c)));
  ("model_ready", Some (ABOOL (Computer.modelReady c))); ("policy", Some (AS (Computer.policy c)));
  ("stopped", Some (ABOOL (Computer.stopped c))); ("computer_id", Some (AS (Computer.computerId c)));
  ("tenant_id", Some (AS (Computer.tenantId c))); ("sk", Some (AS "meta"));
  ("pk", Some (AS (Computer.tenantId c +:+ "#computer#record")));
  ("browser_unavailable", if Computer.browserUnavailable c then Some (ABOOL true) else None);
  ("snapshot_uri", AS <$> Computer.snapshotUri c); ("snapshot_checksum", AS <$> Computer.snapshotChecksum c);
  ("intended_host_worker_id", AS <$> Computer.intendedHostWorkerId c); ("live_writer_host_id", AS <$> Computer.liveWriterHostId c);
  ("host_lost_at", moment_attr (Computer.hostLostAt c)); ("host_lost_generation", AN <$> Computer.hostLostGeneration c);
  ("owner_id", AS <$> Computer.ownerId c); ("owner_generation", AN <$> Computer.ownerGeneration c);
  ("owner_protocol_version", AN <$> Computer.ownerProtocolVersion c); ("owner_started_at", moment_attr (Computer.ownerStartedAt c));
  ("owner_credentials_expire_at", moment_attr (Computer.ownerCredentialsExpireAt c));
  ("owner_credentials_renewed_at", moment_attr (Computer.ownerCredentialsRenewedAt c));
  ("dispatch_credentials_renewed_at", moment_attr (Computer.dispatchCredentialsRenewedAt c));
  ("idle_since_at", moment_attr (Computer.idleSinceAt c)); ("owner_stop_approved_at", moment_attr (Computer.ownerStopApprovedAt c));
  ("dispatch_id", AS <$> Computer.dispatchId c); ("dispatch_turn_id", AS <$> Computer.dispatchTurnId c);
  ("dispatch_action_id", AS <$> Computer.dispatchActionId c); ("dispatch_attempt", AN <$> Computer.dispatchAttempt c);
  ("dispatch_lease_expires_at", moment_attr (Computer.dispatchLeaseExpiresAt c));
  ("interactive_until_at", moment_attr (Computer.interactiveUntilAt c)); ("file_operation_id", AS <$> Computer.fileOperationId c)].

Lemma put_if_put {A : Type} n (f : A -> attr) o it : put_if n f o it = put it (n, f <$> o).
Proof. by destruct o. Qed.
Lemma put_flag_put n b it : put_flag n b it = put it (n, if b then Some (ABOOL true) else None).
Proof. by destruct b. Qed.
Lemma list_to_map_puts l : list_to_map l = foldl put ∅ (reverse ((fun p => (p.1, Some p.2)) <$> l)).
Proof. induction l as [|[n v] l IH]; [done|]. cbn [list_to_map foldr fmap list_fmap]. by rewrite reverse_cons, foldl_app, <- IH. Qed.

Lemma encodeComputer_attributes c : encodeComputer c = foldl put ∅ (computer_attributes c).
Proof.
  unfold encodeComputer. cbv zeta. rewrite list_to_map_puts, !put_if_put, put_flag_put. cbn [reverse rev_append fmap list_fmap fst snd].
  reflexivity.
Qed.

Definition computer_attribute (c : Computer) (n : string) : option attr :=
  foldl (fun o p => if String.eqb p.1 n then match p.2 with Some v => Some v | None => o end else o) None (computer_attributes c).

Lemma lookup_encodeComputer c n : encodeComputer c !! n = computer_attribute c n.
Proof. unfold computer_attribute. rewrite encodeComputer_attributes, lookup_puts, lookup_empty. reflexivity. Qed.

Lemma lease_moment_stored o : lease_moment (default 0 (Some (match o with Some m => epochSeconds m | None => 0 end))) = o ≫= (lease_moment ∘ epochSeconds).
Proof. by destruct o. Qed.

(** An attribute reads back as the field it was put from. *)
Abbreviation attribute_put x := (match x with Some v => Some v | None => None end).
Lemma text_put (o : option string) : match attribute_put (AS <$> o) with Some (AS s) => Some s | _ => None end = o.
Proof. by destruct o. Qed.
Lemma number_put (o : option Z) : match attribute_put (AN <$> o) with Some (AN n) => Some n | _ => None end = o.
Proof. by destruct o. Qed.
Lemma moment_put (o : option Z) :
  (seconds ← match attribute_put (moment_attr o) with Some (AN n) => Some n | _ => None end; Some (seconds * 1000)) = stored_moment <$> o.
Proof. by destruct o. Qed.
Lemma flag_put (b : bool) :
  default false match attribute_put (if b then Some (ABOOL true) else None) with Some (ABOOL x) => Some x | _ => None end = b.
Proof. by destruct b. Qed.

(** A computer survives its record but for the milliseconds of its moments. *)
Lemma decode_encodeComputer (c : Computer) :
  Computer.computerId c <> "" -> Computer.tenantId c <> "" -> Computer.policy c <> "" ->
  decodeComputer (encodeComputer c) = Some (stored_computer c).
Proof.
  intros Hi Ht Hp. unfold decodeComputer. readers. rewrite !lookup_encodeComputer.
  lazy [computer_attribute computer_attributes foldl fst snd String.eqb Ascii.eqb Bool.eqb].
  rewrite !decide_False by done. cbn [mbind option_bind]. f_equal.
  rewrite flag_put, !text_put, !number_put. rewrite !moment_put. rewrite lease_moment_stored. by destruct c.
Qed.
