(* ===== verification/Footprint.v ===== *)
(** * What a program asks for

    [asks p]: every request of the program is one [may_ask] allows, whatever [may_answer] answers. It is syntactic, so it
    goes through programs by their structure ([solve_asks], with the hints of the database [asks]); [asks_exec] turns it into
    a guarantee about executions: a program whose requests each move the state along a relation moves it along that
    relation.

    [reads p]: a program that only reads; it moves the state no further than others do ([reads_exec]). [refuses p]: a program
    that raises a domain error only before its first write, so an operation it refuses has written nothing ([refuses_exec]).
    Both are syntactic and go through programs by their structure ([solve_reads], [solve_refuses]). *)

From S2P Require Import Prelude Json Types Service Retry Paging TurnCodec TurnStore.
From Stdlib Require Import QArith.
#[local] Open Scope Z_scope.
#[local] Open Scope prog_scope.

Create HintDb asks discriminated.

Section asks.
Context (may_ask : forall R : Type, request R -> Prop) (may_answer : forall R : Type, request R -> exn + R -> Prop).
Arguments may_ask {R}.
Arguments may_answer {R}.

Fixpoint asks {A : Type} (p : prog A) : Prop :=
  match p with
  | Ret _ | Throw _ => True
  | Send r k => may_ask r /\ forall x, may_answer r x -> asks (k x)
  end.

Lemma asks_ret {A : Type} (a : A) : asks (Ret a).
Proof. done. Qed.
Lemma asks_throw {A : Type} (e : exn) : asks (A:=A) (Throw e).
Proof. done. Qed.
Lemma asks_send {R : Type} (r : request R) : may_ask r -> asks (send r).
Proof. intros Hr. split; [done|]. by intros [e|v] _. Qed.

Lemma asks_bind {A B : Type} (p : prog A) (f : A -> prog B) : asks p -> (forall a, asks (f a)) -> asks (bind p f).
Proof.
  intros Hp Hf. induction p as [a|e|R r k IH]; cbn; [apply Hf|done|]. destruct Hp as [Hr Hk]. split; [done|]. intros x Hx. by apply IH, Hk.
Qed.

(** What follows a request sees only answers that may be. *)
Lemma asks_with {R A : Type} (r : request R) (f : R -> prog A) :
  may_ask r -> (forall v, may_answer r (Ok v) -> asks (f v)) -> asks (bind (send r) f).
Proof. intros Hr Hf. split; [done|]. intros [e|v] Hx; [done|]. by apply Hf. Qed.

Lemma asks_catch {A : Type} (p : prog A) (h : exn -> prog A) : asks p -> (forall e, asks (h e)) -> asks (catch p h).
Proof.
  intros Hp Hh. induction p as [a|e|R r k IH]; cbn; [done|apply Hh|]. destruct Hp as [Hr Hk]. split; [done|]. intros x Hx. by apply IH, Hk.
Qed.

Lemma asks_outcome_of {A : Type} (p : prog A) : asks p -> asks (outcome_of p).
Proof.
  intros Hp. induction p as [a|e|R r k IH]; cbn; [done|done|]. destruct Hp as [Hr Hk]. split; [done|]. intros x Hx. by apply IH, Hk.
Qed.

Lemma asks_for_each {A B : Type} (l : list A) (acc : B) (body : B -> A -> prog B) :
  (forall acc a, asks (body acc a)) -> asks (for_each l acc body).
Proof. intros Hb. revert acc. induction l as [|a l IH]; intros acc; cbn; [done|]. apply asks_bind; [apply Hb|done]. Qed.

Lemma asks_null_when {A : Type} (p : prog A) : asks p -> asks (null_when_condition_fails p).
Proof.
  intros Hp. apply asks_catch; [apply asks_bind; [done|intros; apply asks_ret]|]. intros []; first [apply asks_ret | apply asks_throw].
Qed.

(** The requests that read nothing and write nothing of the table. *)
Context (ask_clock : may_ask ClockNow) (ask_id : may_ask NextId) (ask_random : may_ask Random) (ask_sleep : forall d, may_ask (Sleep d)).
Context (ask_get : forall k, may_ask (GetItem k)) (ask_query : forall pk r f start, may_ask (Query pk r f start)).

Lemma asks_retry {A : Type} (p : prog A) : asks p -> asks (retryTransient p).
Proof using ask_random ask_sleep.
  intros Hp. unfold retryTransient, retry_with. generalize 1%nat, 0%Q, (maxAttempts default_retry_options - 1)%nat.
  intros attempt slept n. revert attempt slept. induction n as [|n IH]; intros attempt slept; cbn [retry_loop].
  - apply asks_bind; [by apply asks_outcome_of|]. intros [e|a]; [|apply asks_ret]. destruct (negb _); apply asks_throw.
  - apply asks_bind; [by apply asks_outcome_of|]. intros [e|a]; [|apply asks_ret]. destruct (negb _); [apply asks_throw|].
    apply asks_with; [done|]. intros q _. destruct (Qle_bool _ _); [|apply asks_throw]. apply asks_with; [done|]. intros _ _. apply IH.
Qed.

Lemma asks_query_pages {B : Type} (decode : item -> exn + B) pk r f start fuel : asks (query_pages decode pk r f start fuel).
Proof using ask_query.
  revert start. induction fuel as [|fuel IH]; intros start; cbn [query_pages]; [apply asks_throw|].
  apply asks_with; [done|]. intros page _. apply asks_bind.
  - apply asks_for_each. intros acc it. destruct (decode it); [apply asks_throw|apply asks_ret].
  - intros its. destruct page.2; [|apply asks_ret]. apply asks_bind; [apply IH|intros; apply asks_ret].
Qed.
End asks.

(** ** The guarantee *)

Section guarantee.
Context `{Service} (I J : World -> World -> Prop) (ok : World -> Prop).
Context (may_ask : forall R : Type, request R -> Prop) (may_answer : forall R : Type, request R -> exn + R -> Prop).
Context (HI : forall w w', I w w' -> J w w') (Hok : forall w w', ok w -> J w w' -> ok w').
Context (Hask : forall (R : Type) (r : request R) w x w', may_ask R r -> ok w -> contract r w x w' -> rtc J w w').
Context (Hanswer : forall (R : Type) (r : request R) w x w', respond r w x w' -> may_answer R r x).

Lemma steps_ok w w' : ok w -> rtc J w w' -> ok w'.
Proof using Hok. intros Hw. induction 1; eauto. Qed.

Lemma others_steps w w' : rtc I w w' -> rtc J w w'.
Proof using HI. induction 1; econstructor; eauto. Qed.

Lemma asks_exec {A : Type} (p : prog A) w o w' : asks may_ask may_answer p -> ok w -> exec I p w o w' -> rtc J w w'.
Proof using HI Hok Hask Hanswer.
  revert w. induction p as [a|e|R r k IH]; intros w Hp Hw; cbn.
  - intros [_ ?]. by apply others_steps.
  - intros [_ ?]. by apply others_steps.
  - intros (w1 & x & w2 & Hw1%others_steps & Hr & Hex). destruct Hp as [Hr' Hk].
    assert (ok w1) as Hw1' by by eapply steps_ok. pose proof (Hask _ _ _ _ _ Hr' Hw1' (respond_contract _ _ _ _ Hr)) as Hw2.
    trans w1; [done|]. trans w2; [done|]. eapply IH; [apply Hk; by eapply Hanswer|by eapply steps_ok|done].
Qed.
End guarantee.

(** ** Programs by their structure

    One step through the structure of a program; what is left are the requests. A program of the database [asks] is not
    opened. *)

Ltac asks_head p := lazymatch p with ?f _ => asks_head f | _ => p end.

Ltac asks_structure :=
  match goal with
  | |- forall _, _ => intros
  | |- True => exact I
  | |- asks _ _ (Ret _) => apply asks_ret
  | |- asks _ _ (Throw _) => apply asks_throw
  | |- asks _ _ (send _) => apply asks_send
  | |- asks _ _ (bind _ _) => apply asks_bind
  | |- asks _ _ (catch _ _) => apply asks_catch
  | |- asks _ _ (outcome_of _) => apply asks_outcome_of
  | |- asks _ _ (for_each _ _ _) => apply asks_for_each
  | |- asks _ _ (null_when_condition_fails _) => apply asks_null_when
  | |- asks _ _ (retryTransient _) => apply asks_retry
  | |- asks _ _ (query_pages _ _ _ _ _ _) => apply asks_query_pages
  | |- asks _ _ (match ?x with _ => _ end) => destruct x
  | |- asks _ _ _ => solve [auto with asks nocore]
  | |- asks _ _ ?p => let h := asks_head p in unfold h
  end.

(** The requests that leave the state as it is. *)
Definition reading (R : Type) (r : request R) : Prop :=
  match r with GetItem _ | Query _ _ _ _ | ClockNow | NextId | Random | Sleep _ => True | _ => False end.

Definition any_answer (R : Type) (r : request R) (x : exn + R) : Prop := True.

Abbreviation reads := (asks reading any_answer).

(** The errors the domain functions raise on purpose. *)
Definition is_domain_error (e : exn) : bool := match e with DomainError _ _ => true | _ => false end.

(** No domain error is raised, whatever is answered. *)
Fixpoint no_refusal {A : Type} (p : prog A) : Prop :=
  match p with
  | Ret _ => True
  | Throw e => is_domain_error e = false
  | Send r k => forall x, (match x with inl e => is_service_exn e = true | inr _ => True end) -> no_refusal (k x)
  end.

Fixpoint refuses {A : Type} (p : prog A) : Prop :=
  match p with
  | Ret _ | Throw _ => True
  | Send r k => (reading _ r /\ forall x, refuses (k x)) \/ no_refusal p
  end.

(** ** Rules *)

Lemma reading_answered {R : Type} (r : request R) w x w' : reading R r -> contract r w x w' -> w' = w.
Proof.
  destruct x as [e|v]; [by intros _ [-> _]|]. destruct r; cbn; try done; intros _; by intros (_ & ->) || (intros ->; done).
Qed.

Lemma reads_bind {A B : Type} (p : prog A) (f : A -> prog B) : reads p -> (forall a, reads (f a)) -> reads (bind p f).
Proof. apply asks_bind. Qed.

Lemma no_refusal_bind {A B : Type} (p : prog A) (f : A -> prog B) : no_refusal p -> (forall a, no_refusal (f a)) -> no_refusal (bind p f).
Proof. intros Hp Hf. induction p as [a|e|R r k IH]; cbn in *; [apply Hf|done|]. intros x Hx. by apply IH, Hp. Qed.

Lemma no_refusal_send {R : Type} (r : request R) : no_refusal (send r).
Proof. intros [e|v] Hx; [|done]. by destruct e. Qed.

Lemma no_refusal_refuses {A : Type} (p : prog A) : no_refusal p -> refuses p.
Proof. destruct p as [a|e|R r k]; cbn; [done..|]. by right. Qed.

Lemma refuses_bind {A B : Type} (p : prog A) (f : A -> prog B) : reads p -> (forall a, refuses (f a)) -> refuses (bind p f).
Proof.
  intros Hp Hf. induction p as [a|e|R r k IH]; cbn; [apply Hf|done|]. destruct Hp as [Hr Hk]. left. split; [done|].
  intros x. apply IH. by apply Hk.
Qed.

(** What follows a program that refuses early raises no domain error itself. *)
Lemma refuses_bind_late {A B : Type} (p : prog A) (f : A -> prog B) : refuses p -> (forall a, no_refusal (f a)) -> refuses (bind p f).
Proof.
  intros Hp Hf. induction p as [a|e|R r k IH]; cbn; [by apply no_refusal_refuses|done|]. destruct Hp as [[Hr Hk]|Hn].
  - left. split; [done|]. intros x. apply IH, Hk.
  - right. by apply (no_refusal_bind (Send r k) f).
Qed.

(** ** Executions *)

Section exec.
Context `{Service} (I : World -> World -> Prop).

Lemma reads_exec {A : Type} (p : prog A) w o w' : reads p -> exec I p w o w' -> rtc I w w'.
Proof.
  revert w. induction p as [a|e|R r k IH]; intros w Hp; cbn; [by intros [_ ?]..|].
  intros (w1 & x & w2 & Hw1 & Hx%respond_contract & Hex). destruct Hp as [Hr Hk].
  rewrite (reading_answered _ _ _ _ Hr Hx) in Hex. trans w1; [done|]. by eapply IH; [apply Hk|].
Qed.

Lemma no_refusal_exec {A : Type} (p : prog A) w e w' : no_refusal p -> exec I p w (Err e) w' -> is_domain_error e = false.
Proof.
  revert w. induction p as [a|e'|R r k IH]; intros w Hp; cbn; [by intros [[=] _]|by intros [[= ->] _]|].
  intros (w1 & x & w2 & Hw1 & Hx%respond_contract & Hex). eapply IH; [|done]. apply Hp. destruct x as [e''|v]; [|done]. by destruct Hx as [_ [? _]].
Qed.

(** A refused operation has written nothing. *)
Lemma refuses_exec {A : Type} (p : prog A) w e w' : refuses p -> exec I p w (Err e) w' -> is_domain_error e = true -> rtc I w w'.
Proof.
  revert w. induction p as [a|e'|R r k IH]; intros w Hp; [by intros [[=] _]|by intros [_ ?]|].
  intros Hex He. destruct Hp as [[Hr Hk]|Hn].
  - destruct Hex as (w1 & x & w2 & Hw1 & Hx%respond_contract & Hex). rewrite (reading_answered _ _ _ _ Hr Hx) in Hex.
    trans w1; [done|]. by eapply IH.
  - pose proof (no_refusal_exec _ _ _ _ Hn Hex) as Hf. by rewrite Hf in He.
Qed.
End exec.

(** ** By structure

    A program of the databases [reads], [refuses] and [no_refusal] is not opened. *)

Create HintDb reads discriminated.
Create HintDb refuses discriminated.
Create HintDb no_refusal discriminated.

Ltac reads_step :=
  match goal with
  | |- reading _ _ => exact Logic.I
  | |- any_answer _ _ _ => exact Logic.I
  | |- reads _ => solve [auto with reads nocore]
  | _ => asks_structure
  end.
Ltac solve_reads := repeat reads_step.

Ltac no_refusal_step :=
  match goal with
  | |- forall _, _ => intros
  | |- no_refusal (Ret _) => exact Logic.I
  | |- no_refusal (Throw _) => reflexivity
  | |- no_refusal (send _) => apply no_refusal_send
  | |- no_refusal (bind _ _) => apply no_refusal_bind
  | |- no_refusal (match ?x with _ => _ end) => destruct x
  | |- no_refusal _ => solve [auto with no_refusal nocore]
  | |- no_refusal ?p => let h := asks_head p in unfold h
  end.
Ltac solve_no_refusal := repeat no_refusal_step.

Ltac refuses_step :=
  match goal with
  | |- forall _, _ => intros
  | |- refuses (Ret _) => exact Logic.I
  | |- refuses (Throw _) => exact Logic.I
  | |- refuses (bind _ _) => first [apply refuses_bind; [solve [solve_reads]|] | apply refuses_bind_late; [|solve [solve_no_refusal]] | apply no_refusal_refuses; solve [solve_no_refusal]]
  | |- refuses (match ?x with _ => _ end) => destruct x
  | |- refuses _ => solve [auto with refuses nocore]
  | |- refuses (send _) => apply no_refusal_refuses, no_refusal_send
  | |- refuses ?p => let h := asks_head p in unfold h
  end.
Ltac solve_refuses := repeat refuses_step.
