(* ===== verification/ComputerPrograms.v ===== *)
(** * The programs of the computer store under interference

    What any process may do to the computer record of one organization ([computer_sys]): leave it, make it, or one command of
    the machine of ComputerSpec.v. The methods of ComputerStore.v, run while other processes do any of that between their
    requests, do nothing else ([computer_methods]), and a change reported made was made at one moment ([change_exec]). *)

From S2P Require Import Prelude Json Types Computers Service TurnCodec TurnStore TurnSpec TurnPrograms ActionPrograms.
From S2P Require Import ComputerStore ComputerSpec ComputerSystem.
#[local] Open Scope Z_scope.
#[local] Open Scope prog_scope.

(** ** The record of an organization *)

(** What one write leaves of the record of organization [t]. *)
Inductive record_step (t : string) (o : option item) : option item -> Prop :=
| record_same : record_step t o o
| record_made i : t <> "" -> i <> "" -> holds (AttrNotExists "pk") (default ∅ o) = true -> record_step t o (Some (encodeComputer (newComputerRecord t i)))
| record_command it x : o = Some it -> holds (condition (change_of x)) it = true ->
    record_step t o (Some (apply_actions (updates (change_of x)) it)).

Definition computer_sys (t : string) (w w' : World) : Prop :=
  record_step t (tbl w !! computerRecordKey t) (tbl w' !! computerRecordKey t).

(** The organization has this computer. *)
Definition computer_at (t : string) (w : World) (c : Computer) : Prop :=
  exists it, tbl w !! computerRecordKey t = Some it /\ decodeComputer it = Some c /\ record_wf it.

(** The organization has no computer, or one that satisfies the invariant. *)
Definition computer_ok (t : string) (w : World) : Prop :=
  tbl w !! computerRecordKey t = None \/ exists c, computer_at t w c /\ computer_inv c /\ Computer.tenantId c = t.

Lemma computer_at_inj t w c c' : computer_at t w c -> computer_at t w c' -> c' = c.
Proof. intros (it & Hit & Hc & _) (it' & Hit' & Hc' & _). congruence. Qed.

Lemma owner_step_identity c c' : owner_step c c' -> Computer.tenantId c' = Computer.tenantId c /\ Computer.computerId c' = Computer.computerId c.
Proof. intros [x _]. destruct c. by command_cases x. Qed.

Lemma new_record_reads t i : t <> "" -> i <> "" -> decodeComputer (encodeComputer (newComputerRecord t i)) = Some (newComputerRecord t i).
Proof. intros. by rewrite decode_encodeComputer. Qed.

Lemma new_record_wf t i : record_wf (encodeComputer (newComputerRecord t i)).
Proof. constructor; unfold required_string; rewrite !lookup_encodeComputer; [by eexists|by intros [? [=]]]. Qed.

Lemma new_record_key t i : item_key (encodeComputer (newComputerRecord t i)) = Some (computerRecordKey t).
Proof. unfold item_key. by rewrite !lookup_encodeComputer. Qed.

Lemma record_step_reads t it c o' :
  decodeComputer it = Some c -> record_wf it -> record_step t (Some it) o' ->
  exists it' c', o' = Some it' /\ decodeComputer it' = Some c' /\ record_wf it' /\ (c' = c \/ owner_step c c').
Proof.
  intros Hc Hw. inversion 1 as [|i _ _ Hn|it0 x [= <-] Hx]; subst.
  - exists it, c. split_and!; try done. by left.
  - cbn in Hn. apply bool_decide_eq_true in Hn. destruct Hw as [[v Hk] _]. congruence.
  - destruct (command_refines _ _ _ Hc Hw Hx) as (Hg & Hd & Hw'). do 2 eexists. split_and!; [done|exact Hd|done|].
    right. by constructor.
Qed.

Lemma computer_sys_at t w w' c :
  computer_sys t w w' -> computer_at t w c -> exists c', computer_at t w' c' /\ rtc owner_step c c'.
Proof.
  unfold computer_sys. intros Hs (it & Hit & Hc & Hw). rewrite Hit in Hs.
  destruct (record_step_reads _ _ _ _ Hc Hw Hs) as (it' & c' & Hit' & Hc' & Hw' & Hstep). exists c'. split; [by exists it'|].
  destruct Hstep as [->|Hstep]; [done|by apply rtc_once].
Qed.

Lemma computer_syses_at t w w' c :
  rtc (computer_sys t) w w' -> computer_at t w c -> exists c', computer_at t w' c' /\ rtc owner_step c c'.
Proof.
  intros Hs. revert c. induction Hs as [w|w w1 w' Hs _ IH]; intros c Hc; [by exists c|].
  destruct (computer_sys_at _ _ _ _ Hs Hc) as (c1 & Hc1 & H1). destruct (IH _ Hc1) as (c2 & Hc2 & H2). exists c2. split; [done|by trans c1].
Qed.

Lemma owner_steps_identity c c' : rtc owner_step c c' -> Computer.tenantId c' = Computer.tenantId c /\ Computer.computerId c' = Computer.computerId c.
Proof. induction 1 as [|c c1 c2 [H1 H2]%owner_step_identity _ [H3 H4]]; [done|]. by rewrite H3, H4. Qed.

Lemma computer_sys_ok t w w' : computer_sys t w w' -> computer_ok t w -> computer_ok t w'.
Proof.
  intros Hs [Hn|(c & Hc & Hi & Ht)].
  - unfold computer_sys in Hs. rewrite Hn in Hs. inversion Hs as [Heq|i H1 H2 _ Heq|? ? [=]]; [left; congruence|].
    right. exists (newComputerRecord t i). split_and!; [|by apply new_computer_inv|done].
    eexists. split_and!; [by symmetry|by apply new_record_reads|by apply new_record_wf].
  - destruct (computer_sys_at _ _ _ _ Hs Hc) as (c' & Hc' & Hsteps). right. exists c'.
    split_and!; [done|by eapply owner_steps_inv|]. by rewrite (proj1 (owner_steps_identity _ _ Hsteps)).
Qed.

Lemma computer_syses_ok t w w' : rtc (computer_sys t) w w' -> computer_ok t w -> computer_ok t w'.
Proof. induction 1; eauto using computer_sys_ok. Qed.

Lemma computer_ok_at t w c : computer_ok t w -> computer_at t w c -> computer_inv c /\ Computer.tenantId c = t.
Proof.
  intros [Hn|(c' & Hc' & Hi & Ht)] Hc; [destruct Hc as (it & Hit & _); congruence|]. by rewrite (computer_at_inj _ _ _ _ Hc' Hc).
Qed.

Lemma computer_frame t w w' : tbl w' !! computerRecordKey t = tbl w !! computerRecordKey t -> computer_sys t w w'.
Proof. unfold computer_sys. intros ->. constructor. Qed.

Section programs.
Context `{Service} (I : World -> World -> Prop) (t : string).
Context (HI : forall w w', I w w' -> computer_sys t w w').

Lemma computer_others w w' : rtc I w w' -> rtc (computer_sys t) w w'.
Proof using HI. induction 1; econstructor; eauto. Qed.

Lemma computer_ok_others w w' : rtc I w w' -> computer_ok t w -> computer_ok t w'.
Proof using HI. intros ?%computer_others. by apply computer_syses_ok. Qed.

(** ** Reads *)

Lemma exec_decode_computer it w o w' :
  exec I (decode_computer it) w o w' ->
  o = match decodeComputer it with Some c => Ok c | None => Err (MalformedItem "computer") end /\ rtc I w w'.
Proof using Type. unfold decode_computer. destruct (decodeComputer it); by intros [-> ?]. Qed.

(** What a read returned is the record at some moment of the read. *)
Lemma getComputer_exec w o w' :
  computer_ok t w -> exec I (getComputer t) w o w' ->
  rtc I w w' /\
  match o with
  | Ok (Some c) => exists w1, rtc I w w1 /\ computer_at t w1 c /\ rtc I w1 w'
  | Ok None => exists w1, rtc I w w1 /\ tbl w1 !! computerRecordKey t = None /\ rtc I w1 w'
  | Err e => is_service_exn e = true
  end.
Proof using HI.
  intros Hok [(x & w1 & (w2 & Hw2 & -> & Hw1)%exec_get & Hrest)|(e & -> & Hx%exec_send_fails)]%exec_bind; [|done].
  assert (computer_ok t w2) as Hok2 by by apply (computer_ok_others w). assert (rtc I w w1) as Hww by by trans w2.
  destruct Hok2 as [Hn|(c & (it & Hit & Hc & Hw) & _)].
  - rewrite Hn in Hrest. destruct Hrest as [-> Hw']. split; [by trans w1|]. exists w2. split_and!; [done|done|by trans w1].
  - rewrite Hit in Hrest. apply exec_bind in Hrest as [(c' & w3 & [Hd Hw3]%exec_decode_computer & [-> Hw'])|(e & -> & [Hd _]%exec_decode_computer)];
      rewrite Hc in Hd; [injection Hd as ->|done].
    assert (rtc I w1 w') by by trans w3. split; [by trans w1|]. exists w2. split_and!; [done|by exists it|by trans w1].
Qed.

(** ** Changes *)

(** One command was made at one moment between [w] and [w'], and left [c']. *)
Definition made (x : owner_command) (w : World) (c c' : Computer) (w' : World) : Prop :=
  exists w1 w2, rtc (computer_sys t) w w1 /\ computer_at t w1 c /\ guard x c /\ c' = effect x c /\
    computer_sys t w1 w2 /\ computer_at t w2 c' /\ rtc (computer_sys t) w2 w'.

(** At one moment between [w] and [w'] the condition of the change did not hold. *)
Definition not_made (x : owner_command) (w w' : World) : Prop :=
  exists w1, rtc (computer_sys t) w w1 /\ holds (condition (change_of x)) (item_at w1 (computerRecordKey t)) = false /\
    rtc (computer_sys t) w1 w'.

Lemma condition_names_key x it : holds (condition (change_of x)) it = true -> is_Some (it !! "pk").
Proof using Type.
  destruct x as [? []| | | | | | | | | | | | | | | | |? ? []| |]; cbn [change_of condition stopped_change running_change capability_change
    browser_unavailable_change claim_generation_change settle_lost_change snapshot_published_change hydrated_change disk_dirty_change
    disk_writer_change release_lease_change dispatched_change release_dispatch_change bootstrap_change presence_change offer_change
    approve_stop_change renew_change touch_change queue_change holds]; rewrite ?andb_true_iff, bool_decide_eq_true; intuition.
Qed.

(** A write of the record whose condition held is a command. *)
Lemma computer_write x w1 :
  computer_ok t w1 -> holds (condition (change_of x)) (item_at w1 (computerRecordKey t)) = true ->
  exists it c, tbl w1 !! computerRecordKey t = Some it /\ decodeComputer it = Some c /\ record_wf it /\
    let it' := apply_actions (updates (change_of x)) it in
    guard x c /\ decodeComputer it' = Some (effect x c) /\ record_wf it' /\
    forall w2, tbl w2 !! computerRecordKey t = Some it' -> computer_sys t w1 w2 /\ computer_at t w2 (effect x c).
Proof using Type.
  unfold item_at. intros [Hn|(c & (it & Hit & Hc & Hw) & _)] Hx.
  - rewrite Hn in Hx. apply condition_names_key in Hx as [v Hv]. done.
  - rewrite Hit in Hx. cbn [default] in Hx. destruct (command_refines _ _ _ Hc Hw Hx) as (Hg & Hd & Hw').
    exists it, c. split_and!; try done. intros w2 Hw2. split; [|by eexists]. unfold computer_sys. rewrite Hit, Hw2. by apply (record_command _ _ it).
Qed.

Lemma record_update_exec x w o w' :
  computer_ok t w ->
  exec I (send (UpdateItem (computerRecordKey t) (updates (change_of x)) (condition (change_of x)))) w o w' ->
  rtc (computer_sys t) w w' /\
  match o with
  | Ok it => exists c, made x w c (effect x c) w' /\ decodeComputer it = Some (effect x c)
  | Err ConditionalCheckFailedException => not_made x w w'
  | Err e => rtc I w w' /\ is_service_exn e = true
  end.
Proof using HI.
  intros Hok (w1 & w2 & Hw1 & Hr%respond_contract & Hw2)%exec_send.
  assert (computer_ok t w1) as Hok1 by by apply (computer_ok_others w).
  apply computer_others in Hw1 as Hs1. apply computer_others in Hw2 as Hs2. destruct o as [e|it]; cbn [contract] in Hr.
  - destruct Hr as [-> [He Hc]]. assert (rtc I w w') by by trans w1. split; [by apply computer_others|].
    destruct e; try done. by exists w1.
  - destruct Hr as (Hc & -> & ->). destruct (computer_write _ _ Hok1 Hc) as (it & c & Hit & Hr & Hwf & Hg & Hd & _ & Hsys).
    rewrite Hit in *. cbn [base_item default from_option id] in *.
    destruct (Hsys (with_tbl w1 _) (lookup_insert_eq (tbl w1) (computerRecordKey t) _)) as [Hsys1 Hat]. split; [trans w1; [done|by eapply rtc_l]|].
    exists c. split; [|done]. eexists w1, _. split_and!; [done|by exists it|done|done|exact Hsys1|done|done].
Qed.

Lemma change_exec x w o w' :
  computer_ok t w -> exec I (updateComputerWhere t (change_of x)) w o w' ->
  rtc (computer_sys t) w w' /\
  match o with
  | Ok (Some c') => exists c, made x w c c' w'
  | Ok None => not_made x w w'
  | Err e => rtc I w w' /\ is_service_exn e = true
  end.
Proof using HI.
  intros Hok. unfold updateComputerWhere. intros Hex.
  assert (forall o', exec I (let! attributes := send (UpdateItem (computerRecordKey t) (updates (change_of x)) (condition (change_of x))) in
      decode_computer attributes) w o' w' -> rtc (computer_sys t) w w' /\
    match o' with
    | Ok c' => exists c, made x w c c' w'
    | Err ConditionalCheckFailedException => not_made x w w'
    | Err e => rtc I w w' /\ is_service_exn e = true
    end) as Hbody.
  { intros o' [(it & w1 & [Hs (c & (wa & wb & ? & ? & ? & ? & ? & ? & Hwb) & Hd)]%record_update_exec & [-> Hw']%exec_decode_computer)
      |(e & -> & Hr%record_update_exec)]%exec_bind; try done.
    apply computer_others in Hw'. rewrite Hd. split; [by trans w1|]. exists c, wa, wb. split_and!; try done. by trans w1. }
  apply exec_null_when in Hex as [(c' & -> & Hr%Hbody)|[[-> Hr%Hbody]|(e & Hne & -> & Hr%Hbody)]]; [done|done|].
  by destruct e.
Qed.

(** The methods that answer whether the change was made. *)
Definition answered_made (x : owner_command) (w : World) (o : exn + bool) (w' : World) : Prop :=
  rtc (computer_sys t) w w' /\
  match o with
  | Ok true => exists c, made x w c (effect x c) w'
  | Ok false => not_made x w w'
  | Err e => rtc I w w' /\ is_service_exn e = true
  end.

Lemma made_effect x w c c' w' : made x w c c' w' -> c' = effect x c.
Proof using Type. by intros (w1 & w2 & _ & _ & _ & ? & _). Qed.

Lemma made_later x w c c' w1 w' : made x w c c' w1 -> rtc (computer_sys t) w1 w' -> made x w c c' w'.
Proof using Type. intros (wa & wb & ? & ? & ? & ? & ? & ? & ?) Hw. exists wa, wb. split_and!; try done. by trans w1. Qed.

Lemma made_earlier x w0 w c c' w' : rtc (computer_sys t) w0 w -> made x w c c' w' -> made x w0 c c' w'.
Proof using Type. intros Hw (wa & wb & ? & ?). exists wa, wb. split; [by trans w|done]. Qed.

Lemma not_made_later x w w1 w' : not_made x w w1 -> rtc (computer_sys t) w1 w' -> not_made x w w'.
Proof using Type. intros (wa & ? & ? & ?) Hw. exists wa. split_and!; try done. by trans w1. Qed.

Lemma made_steps x w c c' w' : made x w c c' w' -> rtc (computer_sys t) w w'.
Proof using Type. intros (wa & wb & ? & _ & _ & _ & ? & _ & ?). trans wa; [done|]. by eapply rtc_l. Qed.

Lemma was_changed_exec x w o w' : computer_ok t w -> exec I (was_changed t (change_of x)) w o w' -> answered_made x w o w'.
Proof using HI.
  intros Hok [(r & w1 & [Hs Hr]%change_exec & [-> Hw'])|(e & -> & [Hs Hr]%change_exec)]%exec_bind; [|done..].
  apply computer_others in Hw'. split; [by trans w1|]. destruct r as [c'|]; cbn.
  - destruct Hr as [c Hc]. exists c. rewrite <- (made_effect _ _ _ _ _ Hc). by eapply made_later.
  - by eapply not_made_later.
Qed.

Lemma apply_change_exec x w o w' : computer_ok t w -> exec I (apply_change t (change_of x)) w o w' -> answered_made x w o w'.
Proof using HI.
  intros Hok [(r & w1 & Hn & [-> Hw'])|(e & -> & Hn)]%exec_bind.
  - apply computer_others in Hw'. apply exec_null_when in Hn as [(it & [= ->] & [Hs (c & Hc & _)]%record_update_exec)|
      [[[= ->] [Hs Hr]%record_update_exec]|(e & _ & [=] & _)]]; try done; (split; [by trans w1|]); cbn.
    + exists c. by eapply made_later.
    + by eapply not_made_later.
  - apply exec_null_when in Hn as [(it & [=] & _)|[[[=] _]|(e' & Hne & [= <-] & [Hs Hr]%record_update_exec)]]; [|done].
    split; [done|]. by destruct e.
Qed.

(** The record an organization starts with is made at most once. *)
Lemma createComputerIfAbsent_exec i w o w' :
  t <> "" -> i <> "" -> computer_ok t w -> exec I (createComputerIfAbsent (newComputerRecord t i)) w o w' ->
  rtc (computer_sys t) w w' /\
  match o with
  | Ok c => exists w1, rtc (computer_sys t) w w1 /\ rtc (computer_sys t) w1 w' /\
      ((c = newComputerRecord t i /\ tbl w1 !! computerRecordKey t = Some (encodeComputer c)) \/ computer_at t w1 c)
  | Err e => True
  end.
Proof using HI.
  intros Ht Hi Hok.
  pose proof (new_record_key t i) as Hkey.
  intros [(c & -> & Hex)|(e & w1 & Hex & Hh)]%exec_catch.
  - apply exec_bind in Hex as [([] & w1 & (wa & wb & Ha & (k & Hk & Hc & ->)%respond_contract & Hb)%exec_send & [[= ->] Hw'])|(? & [=] & _)].
    assert (k = computerRecordKey t) as -> by congruence. set (wc := with_tbl _ _) in *.
    assert (tbl wc !! computerRecordKey t = Some (encodeComputer (newComputerRecord t i))) as Hwc by (cbn; apply lookup_insert_eq).
    assert (computer_sys t wa wc) as Hs.
    { unfold computer_sys. rewrite Hwc. by apply (record_made t). }
    apply computer_others in Ha. apply computer_others in Hb. apply computer_others in Hw'. assert (rtc (computer_sys t) wc w') by by trans w1.
    assert (rtc (computer_sys t) w wc) by by eapply rtc_r. split; [by trans wc|].
    exists wc. split_and!; [done|done|by left].
  - apply exec_bind in Hex as [(? & ? & _ & [[=] _])|(e' & [= <-] & Hex)]. apply exec_send_fails in Hex as [Hw1 _].
    assert (computer_ok t w1) as Hok1 by by apply (computer_ok_others w). apply computer_others in Hw1 as Hs1.
    destruct e; try (destruct Hh as [-> Hw']; apply computer_others in Hw'; split; [by trans w1|done]).
    change (Computer.tenantId (newComputerRecord t i)) with t in Hh.
    apply exec_bind in Hh as [(x & w2 & [Hw2 Hx]%getComputer_exec & Hrest)|(e & -> & [Hw2 _]%getComputer_exec)]; [|done|split; [trans w1; [done|by apply computer_others]|done]|done].
    apply computer_others in Hw2. destruct x as [c|]; destruct Hrest as [-> Hw']; apply computer_others in Hw'.
    + split; [trans w1; [done|by trans w2]|]. destruct Hx as (wa & Ha & Hc & Hb). apply computer_others in Ha, Hb.
      exists wa. split_and!; [by trans w1|by trans w2|by right].
    + split; [trans w1; [done|by trans w2]|done].
Qed.
End programs.
