(* ===== verification/Workers.v ===== *)
(** * The workers of an organization

    The codec of a worker (src/conversation/src/store/codecs/worker.ts, store/codecs/util.ts), the methods of
    [DynamoMessagingStore] on it (store/dynamo-messaging-store.ts), and src/conversation/src/domain/workers.ts: registration,
    heartbeats, the job of a turn and the choice of its host. Tokens are minted and hashed by node's crypto module
    ([WorkerCredentials]); whether a bot is registered is [getBot_tenant]. *)

From S2P Require Import Prelude Json Dates Types Computers Service Paging TurnCodec TurnStore ComputerStore.
From stdpp Require Import sorting.
From coqutil Require Import Datatypes.RecordSetters.
Import DoubleBraceUpdate.
#[local] Open Scope Z_scope.
#[local] Open Scope cond_scope.
#[local] Open Scope prog_scope.

(** ** Codec *)

(** The white space [\S] excludes, of the characters JSON text holds. *)
Definition is_white (c : Ascii.ascii) : bool := (code c =? 32) || ((9 <=? code c) && (code c <=? 13)).

(** [json.replace(/c(?=\S)/g, "c ")]. *)
Fixpoint spaced_after (n : Z) (s : string) : string :=
  match s with
  | EmptyString => EmptyString
  | String c s' =>
      if (code c =? n) && (match s' with String d _ => negb (is_white d) | EmptyString => false end)
      then String c (ch 32 (spaced_after n s'))
      else String c (spaced_after n s')
  end.

Definition stringifyPythonStyle (value : json) : string := spaced_after 58 (spaced_after 44 (stringify value)).

Definition rosterPartition (tenantId : string) : string := tenantId +:+ "#roster".
Definition workerKey (tenantId workerId : string) : key := (rosterPartition tenantId, "worker#" +:+ workerId).

Definition encodeWorker (w : Worker) : item :=
  let k := workerKey (Worker.tenantId w) (Worker.workerId w) in
  let base : item := list_to_map [
    ("pk", AS k.1); ("sk", AS k.2);
    ("worker_id", AS (Worker.workerId w));
    ("tenant_id", AS (Worker.tenantId w));
    ("cost_class", AS (Worker.costClass w));
    ("capabilities", AS (stringifyPythonStyle (JArr (JStr <$> merge_sort String.le (Worker.capabilities w)))));
    ("token_hash", AS (Worker.tokenHash w));
    ("last_heartbeat_at", AS (formatIsoDateTime (Worker.lastHeartbeatAt w)))] in
  let base := put_if "computer_id" AS (Worker.computerId w) base in
  let base := put_if "poll_sequence" AN (Worker.pollSequence w) base in
  let base := put_if "poll_state" AS (Worker.pollState w) base in
  let base := put_if "poll_pace_ms" AN (Worker.pollPaceMilliseconds w) base in
  put_if "hydrated_snapshot_generation" AN (Worker.hydratedSnapshotGeneration w) base.

(** [String(value)] of a parsed value; inside an array null is the empty text. *)
Fixpoint js_string (j : json) : string :=
  match j with
  | JNull => "null"
  | JBool b => if b then "true" else "false"
  | JNum n => dec n
  | JStr s => s
  | JArr l => String.concat "," ((fun x => match x with JNull => EmptyString | _ => js_string x end) <$> l)
  | JObj _ => "[object Object]"
  end.

(** [JSON.parse(text)] as a list of texts, none when it is no array or no JSON. *)
Definition text_list (text : string) : list string :=
  match parse_json text with Some (JArr l) => js_string <$> l | _ => [] end.

(** [None] is the error of a malformed item. A heartbeat that is no date, which JavaScript reads as the invalid date, is
    refused too. *)
Definition decodeWorker (it : item) : option Worker :=
  workerId ← optionalString it "worker_id";
  tenantId ← optionalString it "tenant_id";
  costClass ← optionalString it "cost_class";
  tokenHash ← optionalString it "token_hash";
  lastHeartbeatAt ← optionalString it "last_heartbeat_at" ≫= date_of_text;
  Some {|
    Worker.workerId := workerId;
    Worker.tenantId := tenantId;
    Worker.costClass := costClass;
    Worker.capabilities := text_list (default "[]" (required_string it "capabilities"));
    Worker.tokenHash := tokenHash;
    Worker.lastHeartbeatAt := lastHeartbeatAt;
    Worker.computerId := required_string it "computer_id";
    Worker.hydratedSnapshotGeneration := optionalNumber it "hydrated_snapshot_generation";
    Worker.pollSequence := optionalNumber it "poll_sequence";
    Worker.pollState := required_string it "poll_state";
    Worker.pollPaceMilliseconds := optionalNumber it "poll_pace_ms";
  |}.

(** ** Store *)

Definition decode_worker (it : item) : exn + Worker :=
  match decodeWorker it with Some w => Ok w | None => Err (MalformedItem "worker") end.

Definition putWorker (worker : Worker) : prog unit := send (PutItem (encodeWorker worker) CTrue).

Definition store_getWorker (tenantId workerId : string) : prog (option Worker) :=
  let! it := send (GetItem (workerKey tenantId workerId)) in
  match it with
  | None => Ret None
  | Some it => match decode_worker it with Ok w => Ret (Some w) | Err e => Throw e end
  end.

Definition worker_le (a b : Worker) : Prop := String.le (Worker.workerId a) (Worker.workerId b).
#[export] Instance worker_le_dec : RelDecision worker_le := fun a b => decide (String.le _ _).

Definition store_listWorkers (pages : nat) (tenantId : string) : prog (list Worker) :=
  let! workers := query_pages decode_worker (rosterPartition tenantId) (BeginsWith "worker#") CTrue None pages in
  Ret (merge_sort worker_le workers).

Module OwnerPoll.
Record OwnerPoll : Type := mk { sequence : Z; state : string; at_ : Z; paceMilliseconds : Z }.
End OwnerPoll.

Definition poll_actions (poll : OwnerPoll.OwnerPoll) : list action :=
  [SET "last_heartbeat_at" (AS (formatIsoDateTime (OwnerPoll.at_ poll))); SET "poll_sequence" (AN (OwnerPoll.sequence poll));
   SET "poll_state" (AS (OwnerPoll.state poll)); SET "poll_pace_ms" (AN (OwnerPoll.paceMilliseconds poll))].

Definition poll_condition (poll : OwnerPoll.OwnerPoll) : cond :=
  AttrExists "pk" AND (AttrNotExists "poll_sequence" OR AttrLe "poll_sequence" (OwnerPoll.sequence poll)).

Definition recordOwnerPoll (tenantId workerId : string) (poll : OwnerPoll.OwnerPoll) : prog bool :=
  catch (send (UpdateItem (workerKey tenantId workerId) (poll_actions poll) (poll_condition poll)) ;;; Ret true)
    (fun error => match error with ConditionalCheckFailedException => Ret false | _ => Throw error end).

(** ** The functions of workers.ts *)

Definition WorkerNotRegisteredError (message : string) : exn := DomainError "worker_not_registered" message.
Definition WorkerRegistrationRefusedError (message : string) : exn := DomainError "worker_registration_refused" message.

(** [COST_CLASS_RANK[costClass]], undefined for a class that is none. *)
Definition COST_CLASS_RANK (costClass : string) : option Z :=
  if decide (costClass = "local") then Some 0
  else if decide (costClass = "ec2") then Some 1
  else if decide (costClass = "fargate") then Some 2 else None.

Definition AWS_COST_CLASSES : gset string := {["ec2"; "fargate"]}.
Definition MAX_CLAIMED_WORKER_ID_LENGTH : nat := 200.

Module TurnJob.
Record TurnJob : Type := mk {
  jobId : string; tenantId : string; requiredCapabilities : list string; computerPolicy : string;
  computerId : option string; userId : option string; botId : option string }.
End TurnJob.
Abbreviation TurnJob := TurnJob.TurnJob.

Module WorkerRegistration.
Record WorkerRegistration : Type := mk {
  workerId : string; tenantId : string; costClass : string; capabilities : list string; computerId : option string }.
End WorkerRegistration.
Abbreviation WorkerRegistration := WorkerRegistration.WorkerRegistration.

Module TurnJobRequest.
Record TurnJobRequest : Type := mk {
  tenantId : string; requiredCapabilities : list string; computerPolicy : option string;
  computerId : option string; userId : option string; botId : option string }.
End TurnJobRequest.
Abbreviation TurnJobRequest := TurnJobRequest.TurnJobRequest.

(** The credentials of a worker: [randomBytes(32)] in base64url, and the SHA-256 digest in hex. *)
Class WorkerCredentials : Type := {
  random_secret : prog string;
  hashWorkerToken : string -> string;
}.

(** [ensureComputer] of domain/computers.ts. *)
Definition ensureComputer (tenantId : string) (computerId : option string) : prog Computer :=
  let! existing := getComputer tenantId in
  match existing with
  | Some c => Ret c
  | None =>
      let! id := match computerId with Some id => Ret id | None => send NextId end in
      createComputerIfAbsent (newComputerRecord tenantId id)
  end.

Section credentials.
Context `{WorkerCredentials}.

Definition mintWorkerToken (workerId : string) : prog string :=
  let! secret := random_secret in Ret (workerId +:+ "." +:+ secret).

Definition verifyWorkerTokenHash (token tokenHash : string) : bool := bool_decide (hashWorkerToken token = tokenHash).

(** The text before the last separator, [None] when there is no separator. *)
Fixpoint before_last (c : Ascii.ascii) (s : string) : option string :=
  match s with
  | EmptyString => None
  | String d s' =>
      match before_last c s' with
      | Some r => Some (String d r)
      | None => if decide (c = d) then Some EmptyString else None
      end
  end.

Definition workerIdOfToken (token : string) : option string :=
  match before_last (char 46) token with Some EmptyString | None => None | Some id => Some id end.

Definition registerWorker (r : WorkerRegistration) : prog string :=
  let tenantId := WorkerRegistration.tenantId r in
  let! existing := store_getWorker tenantId (WorkerRegistration.workerId r) in
  let! computerId :=
    if decide ("computer" ∈ WorkerRegistration.capabilities r) then
      let! organizationComputer := ensureComputer tenantId (WorkerRegistration.computerId r) in
      Ret (match WorkerRegistration.computerId r with
           | Some id => Some id
           | None => Some (Computer.computerId organizationComputer)
           end)
    else Ret (WorkerRegistration.computerId r) in
  let! token := mintWorkerToken (WorkerRegistration.workerId r) in
  let! now := send ClockNow in
  putWorker {|
    Worker.workerId := WorkerRegistration.workerId r;
    Worker.tenantId := tenantId;
    Worker.costClass := WorkerRegistration.costClass r;
    Worker.capabilities := WorkerRegistration.capabilities r;
    Worker.tokenHash := hashWorkerToken token;
    Worker.lastHeartbeatAt := now;
    Worker.computerId := computerId;
    Worker.hydratedSnapshotGeneration := existing ≫= Worker.hydratedSnapshotGeneration;
    Worker.pollSequence := None;
    Worker.pollState := None;
    Worker.pollPaceMilliseconds := None |} ;;;
  Ret token.

(** [organizationStatus]: [deps.store.getOrganization(...)], its status. *)
Definition registerWorkerForCaller (organizationStatus : string -> prog (option string)) (r : WorkerRegistration)
    (presentedToken : option string) : prog string :=
  let! organization := organizationStatus (WorkerRegistration.tenantId r) in
  if decide (organization = Some "enabled") then
    let! existing := store_getWorker (WorkerRegistration.tenantId r) (WorkerRegistration.workerId r) in
    match existing with
    | Some w =>
        if match presentedToken with Some token => verifyWorkerTokenHash token (Worker.tokenHash w) | None => false end
        then registerWorker r
        else Throw (WorkerRegistrationRefusedError ("Worker " +:+ stringify (JStr (WorkerRegistration.workerId r))
               +:+ " is already registered; its current bearer token is required to register it again."))
    | None => registerWorker r
    end
  else Throw (WorkerRegistrationRefusedError "The organization is not available for worker registration.").

Definition verifyWorkerToken (tenantId token : string) : prog (option string) :=
  match workerIdOfToken token with
  | None => Ret None
  | Some claimedWorkerId =>
      if (MAX_CLAIMED_WORKER_ID_LENGTH <? String.length claimedWorkerId)%nat then Ret None
      else
        let! worker := store_getWorker tenantId claimedWorkerId in
        Ret (match worker with
             | Some w => if verifyWorkerTokenHash token (Worker.tokenHash w) then Some (Worker.workerId w) else None
             | None => None
             end)
  end.
End credentials.

Definition getWorker (tenantId workerId : string) : prog Worker :=
  let! record := store_getWorker tenantId workerId in
  match record with Some w => Ret w | None => Throw (WorkerNotRegisteredError workerId) end.

Definition heartbeatWorker (tenantId workerId : string) : prog unit :=
  let! record := getWorker tenantId workerId in
  let! now := send ClockNow in
  putWorker (record {{ Worker.lastHeartbeatAt := now }}).

Section routing.
Context (pages : nat) (getBot_tenant : string -> string -> prog (option string)) (heartbeatTimeoutSeconds : Z).

(** Whether a heartbeat is inside the window. *)
Definition heard_from (now : Z) (w : Worker) : bool := now - Worker.lastHeartbeatAt w <=? heartbeatTimeoutSeconds * 1000.

Definition healthyWorkers (tenantId : string) : prog (list Worker) :=
  let! now := send ClockNow in
  let! workers := store_listWorkers pages tenantId in
  Ret (List.filter (heard_from now) workers).

Definition createTurnJob (request : TurnJobRequest) : prog TurnJob :=
  let! tenantId :=
    match TurnJobRequest.botId request with
    | None => Ret (TurnJobRequest.tenantId request)
    | Some botId =>
        let! bot := getBot_tenant (TurnJobRequest.tenantId request) botId in
        match bot with
        | Some tenantId => Ret tenantId
        | None => Throw (JsError ("Bot " +:+ stringify (JStr botId) +:+ " is not registered."))
        end
    end in
  let! pinned :=
    if decide ("computer" ∈ TurnJobRequest.requiredCapabilities request) then
      let! computer := ensureComputer tenantId None in
      Ret (Some (default (Computer.computerId computer) (TurnJobRequest.computerId request)),
           Some (default (Computer.policy computer) (TurnJobRequest.computerPolicy request)))
    else Ret (TurnJobRequest.computerId request, TurnJobRequest.computerPolicy request) in
  let! jobId := send NextId in
  Ret {| TurnJob.jobId := jobId; TurnJob.tenantId := tenantId;
         TurnJob.requiredCapabilities := TurnJobRequest.requiredCapabilities request;
         TurnJob.computerPolicy := default "prefer_local" pinned.2; TurnJob.computerId := pinned.1;
         TurnJob.userId := TurnJobRequest.userId request; TurnJob.botId := TurnJobRequest.botId request |}.

Definition workerSnapshotIsStale (record : Worker) (computer : Computer) : bool :=
  bool_decide (Worker.costClass record = "local") &&
  bool_decide (Worker.computerId record = Some (Computer.computerId computer)) &&
  negb (Computer.snapshotGeneration computer =? 0) &&
  match Worker.hydratedSnapshotGeneration record with Some g => g <? Computer.snapshotGeneration computer | None => true end.

(** The candidates a computer record leaves. *)
Definition hosts_of (computer : Computer) (candidates : list Worker) : list Worker :=
  if Computer.stopped computer then []
  else
    let fresh := List.filter (fun w => negb (workerSnapshotIsStale w computer)) candidates in
    if Computer.hydrateRequired computer then
      match Computer.intendedHostWorkerId computer with
      | None => []
      | Some intended => List.filter (fun w => bool_decide (Worker.workerId w = intended)) fresh
      end
    else fresh.

Definition allowed_by_policy (policy : string) (w : Worker) : bool :=
  if decide (policy = "local_only") then bool_decide (Worker.costClass w = "local")
  else if decide (policy = "aws_only") then bool_decide (Worker.costClass w ∈ AWS_COST_CLASSES)
  else true.

(** Cheapest class first, then the one heard from last; a class without a rank is compared by its heartbeat alone. *)
Definition host_le (a b : Worker) : Prop :=
  match COST_CLASS_RANK (Worker.costClass a), COST_CLASS_RANK (Worker.costClass b) with
  | Some x, Some y => x < y \/ (x = y /\ Worker.lastHeartbeatAt b <= Worker.lastHeartbeatAt a)
  | _, _ => Worker.lastHeartbeatAt b <= Worker.lastHeartbeatAt a
  end.
#[export] Instance host_le_dec : RelDecision host_le.
Proof. intros a b. unfold host_le. repeat case_match; apply _. Defined.

Definition assignTurn (job : TurnJob) : prog (option Worker) :=
  let! healthy := healthyWorkers (TurnJob.tenantId job) in
  let capable := List.filter (fun w => forallb (fun c => bool_decide (c ∈ Worker.capabilities w)) (TurnJob.requiredCapabilities job)) healthy in
  let! candidates :=
    match TurnJob.computerId job with
    | None => Ret capable
    | Some id =>
        let on_computer := List.filter (fun w => bool_decide (Worker.computerId w = Some id)) capable in
        let! organizationComputer := getComputer (TurnJob.tenantId job) in
        Ret (match organizationComputer with
             | Some c => if decide (Computer.computerId c = id) then hosts_of c on_computer else on_computer
             | None => on_computer
             end)
    end in
  Ret (head (merge_sort host_le (List.filter (allowed_by_policy (TurnJob.computerPolicy job)) candidates))).
End routing.

(** The spaces that [stringifyPythonStyle] adds also go into texts: a capability that holds a comma is read back changed. *)
Lemma comma_in_text_gets_a_space : parse_json (stringifyPythonStyle (JArr [JStr "a,b"])) = Some (JArr [JStr "a, b"]).
Proof. vm_compute. reflexivity. Qed.
