(* ===== verification/ComputerDomain.v ===== *)
(** * The functions over organization computers

    src/conversation/src/domain/computers.ts: the computer of an organization and its readiness, the start of a host under a
    lease (one start per generation), and what a host reports of its disk. Whether new computer work is paused by the spend
    ceiling is [computerWorkPauseReason] (domain/organization-spend.ts); the location of a snapshot is of snapshot/uri.ts.
    The loop of [requestComputerHostStart] has no bound in the source; here it has [rounds]. *)

From S2P Require Import Prelude Json Types Computers Service TurnCodec TurnStore ComputerStore Workers.
From coqutil Require Import Datatypes.RecordSetters.
Import DoubleBraceUpdate.
#[local] Open Scope Z_scope.
#[local] Open Scope prog_scope.

Definition MODEL_CAPABILITY : string := "model".
Definition WORKSPACE_CAPABILITY : string := "workspace".
Definition BROWSER_CAPABILITY : string := "browser".
Definition HOST_START_LEASE_SECONDS : Z := 60.

Definition ComputerNotFoundError (message : string) : exn := DomainError "computer_not_found" message.
Definition ComputerNotHydratedError (message : string) : exn := DomainError "computer_not_hydrated" message.
Definition SnapshotRequiredError (message : string) : exn := DomainError "snapshot_required" message.
Definition WorkerDoesNotHostComputerError (message : string) : exn := DomainError "worker_does_not_host_computer" message.
Definition OrganizationSpendCeilingExceededError (message : string) : exn :=
  DomainError "organization_spend_ceiling_exceeded" message.

Definition no_computer (tenantId : string) : exn :=
  ComputerNotFoundError ("Organization " +:+ stringify (JStr tenantId) +:+ " has no computer.").

Definition computerForOrganization (tenantId : string) : prog Computer :=
  let! computer := getComputer tenantId in
  match computer with Some c => Ret c | None => Throw (no_computer tenantId) end.

Definition computerIsStopped (tenantId : string) : prog bool :=
  let! computer := getComputer tenantId in
  Ret (match computer with Some c => Computer.stopped c | None => false end).

Definition setComputerStopped (tenantId : string) (stopped diskMatchesPublished : bool) (expectedHostStartGeneration : option Z) :
  prog Computer :=
  let! current := ensureComputer tenantId None in
  let! updated :=
    if stopped then markComputerStopped tenantId diskMatchesPublished expectedHostStartGeneration
    else markComputerRunning tenantId in
  Ret (default current updated).

(** The store names the gate by its capability. *)
Definition capability_of_text (capability : string) : option Capability :=
  if decide (capability = MODEL_CAPABILITY) then Some CapabilityModel
  else if decide (capability = WORKSPACE_CAPABILITY) then Some CapabilityWorkspace
  else if decide (capability = BROWSER_CAPABILITY) then Some CapabilityBrowser else None.

Definition recordCapabilityReady (tenantId capability : string) : prog Computer :=
  match capability_of_text capability with
  | None => Throw (JsError ("Unknown capability " +:+ stringify (JStr capability) +:+ "."))
  | Some gate =>
      let! current := ensureComputer tenantId None in
      let! updated := recordComputerCapabilityReady tenantId gate in
      Ret (default current updated)
  end.

Definition recordComputerCapabilityUnavailable (tenantId capability : string) : prog Computer :=
  if decide (capability <> BROWSER_CAPABILITY) then
    Throw (JsError ("Capability " +:+ stringify (JStr capability) +:+ " cannot be unavailable."))
  else
    let! current := ensureComputer tenantId None in
    let! updated := recordComputerBrowserUnavailable tenantId in
    Ret (default current updated).

(** ** Starting a host *)

Module HostStartClaim.
Record HostStartClaim : Type := mk {
  tenantId : string; computerId : string; hostStartGeneration : Z; userId : string; expiresAt : Z; newlyClaimed : bool }.
End HostStartClaim.
Abbreviation HostStartClaim := HostStartClaim.HostStartClaim.

(** Why new computer work of an organization is paused, [None] while it may start. *)
Class SpendPause : Type := { computerWorkPauseReason : string -> prog (option string) }.

(** The error of a loop that takes more rounds than the bound of the model. *)
Definition TOO_MANY_ROUNDS : exn := JsError "more rounds than the bound".

Section starting.
Context `{SpendPause} (pages : nat) (heartbeatTimeoutSeconds : Z).

Definition refuseIfComputerWorkPaused (tenantId : string) : prog unit :=
  let! reason := computerWorkPauseReason tenantId in
  match reason with Some r => Throw (OrganizationSpendCeilingExceededError r) | None => Ret tt end.

Definition liveOwnerOfOrganization (tenantId : string) : prog (option (Computer * string)) :=
  let! computer := getComputer tenantId in
  match computer with
  | None => Ret None
  | Some c =>
      match Computer.ownerId c with
      | None => Ret None
      | Some ownerId =>
          let! worker := store_getWorker tenantId ownerId in
          let! now := send ClockNow in
          Ret (if liveOwnerOf c worker now heartbeatTimeoutSeconds then Some (c, ownerId) else None)
      end
  end.

Definition settleComputerIfHostLost (computer : Computer) : prog (option Computer) :=
  if negb (Computer.diskDirty computer) && bool_decide (Computer.liveWriterHostId computer = None) then Ret None
  else
    let! now := send ClockNow in
    let! workers := store_listWorkers pages (Computer.tenantId computer) in
    if existsb (fun w => bool_decide (Worker.computerId w = Some (Computer.computerId computer)) &&
                         bool_decide ("computer" ∈ Worker.capabilities w) && heard_from heartbeatTimeoutSeconds now w) workers
    then Ret None
    else settleLostComputerHost (Computer.tenantId computer) (Computer.hostStartGeneration computer) now
           (bool_decide (is_Some (Computer.snapshotUri computer))).

(** One round of [requestComputerHostStart]: [None] when another caller moved the record first. *)
Definition host_start_round (tenantId userId : string) : prog (option HostStartClaim) :=
  let! computer := ensureComputer tenantId None in
  let! now := send ClockNow in
  match (lease ← Computer.hostStartLeaseExpiresAt computer; if now <? lease then Some lease else None) with
  | Some lease =>
      Ret (Some (HostStartClaim.mk tenantId (Computer.computerId computer) (Computer.hostStartGeneration computer) userId lease false))
  | None =>
      settleComputerIfHostLost computer ;;;
      let expiresAt := now + HOST_START_LEASE_SECONDS * 1000 in
      let! claimed := claimHostStartGeneration tenantId (Computer.hostStartGeneration computer) expiresAt in
      Ret ((fun c => HostStartClaim.mk tenantId (Computer.computerId c) (Computer.hostStartGeneration c) userId expiresAt true) <$> claimed)
  end.

Fixpoint host_start_loop (rounds : nat) (tenantId userId : string) : prog HostStartClaim :=
  match rounds with
  | O => Throw TOO_MANY_ROUNDS
  | S rounds' =>
      let! claim := host_start_round tenantId userId in
      match claim with Some claim => Ret claim | None => host_start_loop rounds' tenantId userId end
  end.

Definition requestComputerHostStart (rounds : nat) (tenantId userId : string) : prog HostStartClaim :=
  if decide (userId = "") then Throw (JsError "host start requires a non-empty user_id")
  else
    refuseIfComputerWorkPaused tenantId ;;;
    host_start_loop rounds tenantId userId.
End starting.

(** ** What a host reports *)

Definition requireHost (computer : Computer) (workerId : string) : prog unit :=
  let! worker := store_getWorker (Computer.tenantId computer) workerId in
  match worker with
  | None => Throw (WorkerNotRegisteredError workerId)
  | Some w =>
      if decide (Worker.computerId w = Some (Computer.computerId computer)) then Ret tt
      else Throw (WorkerDoesNotHostComputerError ("Worker " +:+ pythonRepr workerId +:+ " hosts "
             +:+ match Worker.computerId w with None => "None" | Some id => pythonRepr id end
             +:+ ", not " +:+ pythonRepr (Computer.computerId computer) +:+ "."))
  end.

Definition markWorkerHydrated (computer : Computer) (workerId : string) : prog unit :=
  let! worker := store_getWorker (Computer.tenantId computer) workerId in
  match worker with
  | Some w => putWorker (w {{ Worker.hydratedSnapshotGeneration := Some (Computer.snapshotGeneration computer) }})
  | None => Ret tt
  end.

Definition not_hydrated (computerId what : string) : exn :=
  ComputerNotHydratedError ("Computer " +:+ pythonRepr computerId +:+ " must be hydrated before the live disk can be " +:+ what +:+ ".").

(** *** The location of a snapshot *)

Definition segment_char (c : Ascii.ascii) : bool :=
  ((65 <=? code c) && (code c <=? 90)) || ((97 <=? code c) && (code c <=? 122)) || ((48 <=? code c) && (code c <=? 57)) ||
  (code c =? 46) || (code c =? 95) || (code c =? 45).

Fixpoint all_chars (p : Ascii.ascii -> bool) (s : string) : bool :=
  match s with EmptyString => true | String c s' => p c && all_chars p s' end.

(** [/^[A-Za-z0-9._-]+$/.test(value)]. *)
Definition is_segment (value : string) : bool := negb (bool_decide (value = "")) && all_chars segment_char value.

Definition requireSegment (value name : string) : exn + string :=
  if is_segment value then Ok value
  else Err (JsError ("Invalid " +:+ name +:+ " " +:+ stringify (JStr value) +:+ " in snapshot URI.")).

Section reports.
(** The bucket name the environment gives. *)
Context (defaultSnapshotBucket : string).

Definition snapshotUri (tenantId computerId : string) : exn + string :=
  match requireSegment defaultSnapshotBucket "bucket", requireSegment tenantId "tenant_id", requireSegment computerId "computer_id" with
  | Ok bucket, Ok _, Ok _ => Ok ("s3://" +:+ bucket +:+ "/tenants/" +:+ tenantId +:+ "/computers/" +:+ computerId +:+ "/snapshot")
  | Err e, _, _ | _, Err e, _ | _, _, Err e => Err e
  end.

Definition recordHostSnapshotPublished (tenantId workerId checksum : string) (snapshotUriOverride : option string) : prog Computer :=
  let! computer := computerForOrganization tenantId in
  if Computer.hydrateRequired computer then Throw (not_hydrated (Computer.computerId computer) "published")
  else
    requireHost computer workerId ;;;
    let! uri :=
      match snapshotUriOverride with
      | Some uri => Ret uri
      | None => match snapshotUri (Computer.tenantId computer) (Computer.computerId computer) with Ok uri => Ret uri | Err e => Throw e end
      end in
    let! published := recordComputerSnapshotPublished tenantId uri checksum in
    match published with
    | None => Throw (not_hydrated (Computer.computerId computer) "published")
    | Some c => markWorkerHydrated c workerId ;;; Ret c
    end.
End reports.

Definition recordHostHydrated (tenantId workerId : string) : prog Computer :=
  let! computer := computerForOrganization tenantId in
  match Computer.snapshotUri computer with
  | None => Throw (SnapshotRequiredError ("Computer " +:+ pythonRepr (Computer.computerId computer) +:+ " has no published snapshot."))
  | Some _ =>
      requireHost computer workerId ;;;
      match Computer.intendedHostWorkerId computer with
      | Some intended =>
          if decide (workerId <> intended) then
            Throw (WorkerDoesNotHostComputerError ("Worker " +:+ pythonRepr workerId +:+ " is not the intended host "
              +:+ pythonRepr intended +:+ " for computer " +:+ pythonRepr (Computer.computerId computer) +:+ "."))
          else Ret tt
      | None => Ret tt
      end ;;;
      let! hydrated := recordComputerHydrated tenantId in
      match hydrated with
      | None => Throw (no_computer tenantId)
      | Some c => markWorkerHydrated c workerId ;;; Ret c
      end
  end.

Definition DISK_WRITING_TOOL_NAMES : gset string := {["write_workspace"; "edit_workspace"; "run_terminal"]}.

Definition refuseDiskWriteBeforeHydrate (toolName : string) (computer : option Computer) : option exn :=
  match computer with
  | Some c =>
      if Computer.hydrateRequired c && bool_decide (toolName ∈ DISK_WRITING_TOOL_NAMES)
      then Some (not_hydrated (Computer.computerId c) "written") else None
  | None => None
  end.

Definition recordComputerToolAnswered (tenantId toolName : string) : prog unit :=
  if decide (toolName ∈ DISK_WRITING_TOOL_NAMES) then markComputerDiskDirty tenantId ;;; Ret tt else Ret tt.
