(* ===== verification/ComputerStart.v ===== *)
(** * Starting the computer host of a parked turn

    src/conversation/src/domain/computer-start.ts, the starter that consumes start jobs, and
    [ensureHostForParkedTurn] of src/conversation/src/turn/park.ts, which publishes them. The host start driver (ECS, or a
    local process) is [driver_start]; the status of an organization and the text of an error are parameters. *)

From S2P Require Import Prelude Json Types Computers Service TurnCodec TurnStore Turns Actions Probes.
From S2P Require Import ComputerStore Workers ComputerDomain.
#[local] Open Scope Z_scope.
#[local] Open Scope prog_scope.

Definition COMPUTER_START_MAX_DELIVERIES : Z := 3.
Definition COMPUTER_NOT_SET_UP_REASON : string :=
  "This organization has no computer set up yet. Ask your Chatticus operator to set one up, then send your message again.".
Definition COMPUTER_START_GAVE_UP_REASON : string :=
  "The computer for this organization could not be started after several tries. Please send your message again in a few minutes. If it keeps happening, ask your Chatticus operator to check the organization's computer setup.".

Definition organizationNotEnabledReason (status : option string) : string :=
  "This organization " +:+ (if decide (status = Some "suspended") then "is suspended" else "is not enabled")
  +:+ ", so its computer will not start. Ask your Chatticus operator to enable it, then send your message again.".

Definition deniedActionResult (reason : string) : string := "denied: " +:+ reason.

Definition ComputerWorkerRequiresComputerCapability (message : string) : exn :=
  DomainError "computer_worker_requires_computer_capability" message.
Definition ComputerWorkerHostNotReady (message : string) : exn := DomainError "computer_worker_host_not_ready" message.

Inductive ComputerStartOutcome : Type :=
| started (hostStartGeneration : Z)
| already_started (hostStartGeneration : Z)
| already_serving (hostStartGeneration : Z) (ownerId : string)
| start_refused (reason : string)
| gave_up (reason : string).

(** The external systems of a start. *)
Class HostStarting : Type := {
  driver_start : HostStartClaim -> ComputerStartJob -> prog unit;
  organization_status : string -> prog (option string);
  error_message : exn -> string;
}.

Section starter.
Context `{Collation} `{SpendPause} `{HostStarting}.
Context (pages rounds : nat) (heartbeatTimeoutSeconds : Z) (resumeTurn : string -> string -> string -> prog unit).

Definition failParkedTurn (job : ComputerStartJob) (reason : string) : prog unit :=
  let! turn := getTurn (StartJob.tenantId job) (StartJob.turnId job) in
  match turn with
  | None => Ret tt
  | Some t =>
      if decide (Turn.status t = Active /\ Turn.waitingFor t <> None) then turns_failStaleTurn t StillWaiting reason ;;; Ret tt
      else Ret tt
  end.

Definition denyOpenActionsOfTurn (tenantId turnId reason : string) : prog unit :=
  let! actions := listForTurn pages tenantId turnId in
  for_each actions tt (fun _ a =>
    if decide (Action.status a = Done) then Ret tt
    else
      let! answered := answerComputerActionOnOwnAccount a (deniedActionResult reason) true in
      match answered with Some _ => resumeTurn tenantId turnId (Action.actionId a) | None => Ret tt end).

(** The error a failed start is thrown as. *)
Definition start_failure (job : ComputerStartJob) (error : exn) : exn :=
  let turn := "Turn " +:+ stringify (JStr (StartJob.turnId job)) in
  let failed := ComputerWorkerHostNotReady (turn +:+ " host start failed: " +:+ error_message error +:+ ".") in
  match error with
  | DomainError code message =>
      if decide (code = "organization_computer_provisioning")
      then ComputerWorkerHostNotReady (turn +:+ " computer provisioning refused: " +:+ message)
      else failed
  | _ => failed
  end.

(** The start once the generation is claimed. *)
Definition dispatch_start (job : ComputerStartJob) (claim : HostStartClaim) : prog ComputerStartOutcome :=
  let tenantId := StartJob.tenantId job in
  let generation := HostStartClaim.hostStartGeneration claim in
  let! dispatched := markHostStartDispatched tenantId generation in
  if negb dispatched then Ret (already_started generation)
  else
    catch (driver_start claim job ;;; Ret (started generation))
      (fun error =>
        releaseHostStartDispatch tenantId generation ;;;
        match error with
        | OrganizationComputerNotSetUpError reasonClass _ =>
            failParkedTurn job COMPUTER_NOT_SET_UP_REASON ;;; Ret (start_refused reasonClass)
        | _ => Throw (start_failure job error)
        end).

Definition attemptComputerStart (job : ComputerStartJob) : prog ComputerStartOutcome :=
  let tenantId := StartJob.tenantId job in
  let! settled := expireLostComputerActions pages tenantId in
  for_each settled tt (fun _ a =>
    if decide (Action.status a = Done) then resumeTurn (Action.tenantId a) (Action.turnId a) (Action.actionId a) else Ret tt) ;;;
  let! liveOwner := liveOwnerOfOrganization heartbeatTimeoutSeconds tenantId in
  match liveOwner with
  | Some (computer, ownerId) => Ret (already_serving (Computer.hostStartGeneration computer) ownerId)
  | None =>
      let! status := organization_status tenantId in
      if decide (status <> Some "enabled") then
        failParkedTurn job (organizationNotEnabledReason status) ;;; Ret (start_refused "organization_not_enabled")
      else
        let! claim := outcome_of (requestComputerHostStart pages heartbeatTimeoutSeconds rounds tenantId (StartJob.userId job)) in
        match claim with
        | Ok claim => dispatch_start job claim
        | Err (DomainError code message) =>
            if decide (code = "organization_spend_ceiling_exceeded")
            then denyOpenActionsOfTurn tenantId (StartJob.turnId job) message ;;; Ret (start_refused message)
            else Throw (DomainError code message)
        | Err error => Throw error
        end
  end.

Definition handleComputerStartJob (job : ComputerStartJob) (receiveCount : Z) : prog ComputerStartOutcome :=
  if decide ("computer" ∈ StartJob.requiredCapabilities job) then
    catch (attemptComputerStart job)
      (fun error =>
        if receiveCount <? COMPUTER_START_MAX_DELIVERIES then Throw error
        else failParkedTurn job COMPUTER_START_GAVE_UP_REASON ;;; Ret (gave_up "start_attempts_exhausted"))
  else Throw (ComputerWorkerRequiresComputerCapability ("Job " +:+ stringify (JStr (StartJob.jobId job))
                +:+ " does not require the computer capability.")).
End starter.

(** ** Asking for a host *)

Section hosting.
Context (crashes : string -> string -> bool) (pages : nat) (getBot_tenant : string -> string -> prog (option string)) (heartbeatTimeoutSeconds : Z).

Definition ensureHost (turn : Turn) : prog bool :=
  match Turn.promptAuthorId turn with
  | None => Throw (JsError ("Turn " +:+ stringify (JStr (Turn.turnId turn)) +:+ " has no prompt author to start a computer for."))
  | Some userId =>
      let! liveOwner := liveOwnerOfOrganization heartbeatTimeoutSeconds (Turn.tenantId turn) in
      match liveOwner with
      | Some _ => Ret false
      | None =>
          let! job := createTurnJob getBot_tenant
            (TurnJobRequest.mk (Turn.tenantId turn) ["computer"] None None (Some userId) (Some (Turn.botId turn))) in
          let! host := assignTurn pages heartbeatTimeoutSeconds job in
          match host with
          | Some _ => Ret false
          | None =>
              maybeCrash crashes "computer_start" "before" ;;;
              let! computerId :=
                match TurnJob.computerId job with
                | Some id => Ret id
                | None => let! c := Workers.ensureComputer (Turn.tenantId turn) None in Ret (Computer.computerId c)
                end in
              send (EnqueueStart (StartJob.mk (TurnJob.jobId job) (TurnJob.tenantId job) (Turn.turnId turn) (Turn.botId turn) userId
                computerId (TurnJob.computerPolicy job) (TurnJob.requiredCapabilities job))) ;;;
              maybeCrash crashes "computer_start" "after" ;;;
              Ret true
          end
      end
  end.

(** The routing of Probes.v, over the computers and workers of the organization. *)
#[export] Instance computer_routing : HostRouting := {
  ensureHostForParkedTurn := ensureHost;
  Probes.ensureComputer := fun tenantId => let! c := Workers.ensureComputer tenantId None in Ret (Computer.computerId c);
  Probes.computerIsStopped := ComputerDomain.computerIsStopped;
}.
End hosting.
