(* ===== verification/FileAudits.v ===== *)
(** * The audit records of file changes

    The codec of an audit record (src/conversation/src/store/codecs/file-audit.ts) and the methods of [DynamoMessagingStore]
    on the audit records (store/dynamo-messaging-store.ts). *)

From S2P Require Import Prelude Json Dates Types Service Paging TurnCodec TurnStore Grant ComputerStore.
From stdpp Require Import sorting.
#[local] Open Scope Z_scope.
#[local] Open Scope prog_scope.

Module FileAudit.
Record FileAuditRecord : Type := mk {
  tenantId : string;
  computerId : string;
  userId : string;
  operationId : string;
  operation : string;
  path : string;
  source : string;
  outcome : string;
  at_ : Z;
  expiresAt : Z;
  toPath : option string;
  recursive : option bool;
  removed : option Z;
  treeSha256Before : option string;
  resolvedPath : option string;
  ownerId : option string;
  errorCode : option string;
  sha256Before : option string;
  sha256BeforeReported : option string;
  sha256After : option string;
  sha256AfterReported : option string;
  bytes : option Z;
  secretName : option bool;
  revealed : option bool;
  keptAs : option string;
  flags : option (list string);
  finishedAt : option Z;
}.
End FileAudit.
Abbreviation FileAuditRecord := FileAudit.FileAuditRecord.

Module AuditFinish.
Record FileAuditFinish : Type := mk {
  outcome : string;
  finishedAt : Z;
  errorCode : option string;
  resolvedPath : option string;
  keptAs : option string;
  sha256BeforeReported : option string;
  sha256AfterReported : option string;
  removed : option Z;
  flags : option (list string);
}.
End AuditFinish.
Abbreviation FileAuditFinish := AuditFinish.FileAuditFinish.

Definition fileAuditPartition (tenantId : string) : string := tenantId +:+ "#computer#audit".
Definition fileAuditKey (tenantId : string) (atMilliseconds : Z) (operationId : string) : key :=
  (fileAuditPartition tenantId, "at#" +:+ pad_start 13 (digit 0) (dec atMilliseconds) +:+ "#" +:+ operationId).

(** A list of flags that is there and not empty. *)
Definition some_flags (flags : option (list string)) : option (list string) :=
  match flags with Some [] | None => None | Some l => Some l end.

Definition flags_attr (l : list string) : attr := ASS (list_to_set l).

Definition encodeFileAudit (r : FileAuditRecord) : item :=
  let k := fileAuditKey (FileAudit.tenantId r) (FileAudit.at_ r) (FileAudit.operationId r) in
  let base : item := list_to_map [
    ("pk", AS k.1); ("sk", AS k.2);
    ("tenant_id", AS (FileAudit.tenantId r));
    ("computer_id", AS (FileAudit.computerId r));
    ("user_id", AS (FileAudit.userId r));
    ("operation_id", AS (FileAudit.operationId r));
    ("operation", AS (FileAudit.operation r));
    ("path", AS (FileAudit.path r));
    ("source", AS (FileAudit.source r));
    ("outcome", AS (FileAudit.outcome r));
    ("at", AS (toISOString (FileAudit.at_ r)));
    ("expires_at", AN (epochSeconds (FileAudit.expiresAt r)))] in
  let base := put_if "to_path" AS (FileAudit.toPath r) base in
  let base := put_if "tree_sha256_before" AS (FileAudit.treeSha256Before r) base in
  let base := put_if "resolved_path" AS (FileAudit.resolvedPath r) base in
  let base := put_if "owner_id" AS (FileAudit.ownerId r) base in
  let base := put_if "error_code" AS (FileAudit.errorCode r) base in
  let base := put_if "sha256_before" AS (FileAudit.sha256Before r) base in
  let base := put_if "sha256_before_reported" AS (FileAudit.sha256BeforeReported r) base in
  let base := put_if "sha256_after" AS (FileAudit.sha256After r) base in
  let base := put_if "sha256_after_reported" AS (FileAudit.sha256AfterReported r) base in
  let base := put_if "kept_as" AS (FileAudit.keptAs r) base in
  let base := put_if "recursive" ABOOL (FileAudit.recursive r) base in
  let base := put_if "removed" AN (FileAudit.removed r) base in
  let base := put_if "bytes" AN (FileAudit.bytes r) base in
  let base := put_if "secret_name" ABOOL (FileAudit.secretName r) base in
  let base := put_if "revealed" ABOOL (FileAudit.revealed r) base in
  let base := put_if "flags" flags_attr (some_flags (FileAudit.flags r)) base in
  put_if "finished_at" (AS ∘ toISOString) (FileAudit.finishedAt r) base.

(** [None] is the error of a malformed item; a time that is no date, which JavaScript reads as the invalid date, is refused
    too. *)
Definition decodeFileAudit (it : item) : option FileAuditRecord :=
  expiresAt ← optionalNumber it "expires_at";
  tenantId ← optionalString it "tenant_id";
  computerId ← optionalString it "computer_id";
  userId ← optionalString it "user_id";
  operationId ← optionalString it "operation_id";
  operation ← optionalString it "operation";
  path ← optionalString it "path";
  source ← optionalString it "source";
  outcome ← optionalString it "outcome";
  at_ ← optionalString it "at" ≫= date_of_text;
  finishedAt ← match required_string it "finished_at" with
               | None => Some None
               | Some text => m ← date_of_text text; Some (Some m)
               end;
  Some {|
    FileAudit.tenantId := tenantId;
    FileAudit.computerId := computerId;
    FileAudit.userId := userId;
    FileAudit.operationId := operationId;
    FileAudit.operation := operation;
    FileAudit.path := path;
    FileAudit.source := source;
    FileAudit.outcome := outcome;
    FileAudit.at_ := at_;
    FileAudit.expiresAt := expiresAt * 1000;
    FileAudit.toPath := required_string it "to_path";
    FileAudit.recursive := optionalFlag it "recursive";
    FileAudit.removed := optionalNumber it "removed";
    FileAudit.treeSha256Before := required_string it "tree_sha256_before";
    FileAudit.resolvedPath := required_string it "resolved_path";
    FileAudit.ownerId := required_string it "owner_id";
    FileAudit.errorCode := required_string it "error_code";
    FileAudit.sha256Before := required_string it "sha256_before";
    FileAudit.sha256BeforeReported := required_string it "sha256_before_reported";
    FileAudit.sha256After := required_string it "sha256_after";
    FileAudit.sha256AfterReported := required_string it "sha256_after_reported";
    FileAudit.bytes := optionalNumber it "bytes";
    FileAudit.secretName := optionalFlag it "secret_name";
    FileAudit.revealed := optionalFlag it "revealed";
    FileAudit.keptAs := required_string it "kept_as";
    FileAudit.flags := match it !! "flags" with Some (ASS ss) => Some (sorted_texts ss) | _ => None end;
    FileAudit.finishedAt := finishedAt;
  |}.

Definition decode_audit (it : item) : exn + FileAuditRecord :=
  match decodeFileAudit it with Some r => Ok r | None => Err (MalformedItem "file audit") end.

(** ** Store *)

Definition putFileAudit (record : FileAuditRecord) : prog unit := send (PutItem (encodeFileAudit record) (AttrNotExists "pk")).

Definition getFileAudit (tenantId : string) (atMilliseconds : Z) (operationId : string) (now : Z) : prog (option FileAuditRecord) :=
  let! it := send (GetItem (fileAuditKey tenantId atMilliseconds operationId)) in
  match it with
  | None => Ret None
  | Some it =>
      match decode_audit it with
      | Err e => Throw e
      | Ok r => Ret (if FileAudit.expiresAt r <=? now then None else Some r)
      end
  end.

Definition set_if {A : Type} (name : string) (f : A -> attr) (o : option A) : list action :=
  match o with Some v => [SET name (f v)] | None => [] end.

Definition finish_actions (finish : FileAuditFinish) : list action :=
  [SET "outcome" (AS (AuditFinish.outcome finish)); SET "finished_at" (AS (toISOString (AuditFinish.finishedAt finish)))]
  ++ set_if "error_code" AS (AuditFinish.errorCode finish)
  ++ set_if "resolved_path" AS (AuditFinish.resolvedPath finish)
  ++ set_if "kept_as" AS (AuditFinish.keptAs finish)
  ++ set_if "sha256_before_reported" AS (AuditFinish.sha256BeforeReported finish)
  ++ set_if "sha256_after_reported" AS (AuditFinish.sha256AfterReported finish)
  ++ set_if "removed" AN (AuditFinish.removed finish)
  ++ set_if "flags" flags_attr (some_flags (AuditFinish.flags finish)).

Definition false_when_condition_fails (p : prog unit) : prog bool :=
  catch (p ;;; Ret true) (fun error => match error with ConditionalCheckFailedException => Ret false | _ => Throw error end).

Definition finalizeFileAudit (tenantId : string) (atMilliseconds : Z) (operationId : string) (finish : FileAuditFinish) : prog bool :=
  false_when_condition_fails (
    send (UpdateItem (fileAuditKey tenantId atMilliseconds operationId) (finish_actions finish) (AttrExists "pk")) ;;; Ret tt).

(** [left.at - right.at || compareStrings(left.operationId, right.operationId)]. *)
Definition audit_le (a b : FileAuditRecord) : Prop :=
  FileAudit.at_ a < FileAudit.at_ b \/
  (FileAudit.at_ a = FileAudit.at_ b /\ String.le (FileAudit.operationId a) (FileAudit.operationId b)).
#[export] Instance audit_le_dec : RelDecision audit_le.
Proof. intros a b. unfold audit_le. apply _. Defined.

Definition listFileAuditRecords (pages : nat) (tenantId : string) (now : Z) : prog (list FileAuditRecord) :=
  let! rows := query_pages decode_audit (fileAuditPartition tenantId) (BeginsWith "at#") CTrue None pages in
  Ret (merge_sort audit_le (List.filter (fun r => now <? FileAudit.expiresAt r) rows)).
