(* ===== verification/FileRequests.v ===== *)
(** * File requests to the live owner

    The codec of a file request (src/conversation/src/store/codecs/live-file-operation.ts), the methods of
    [DynamoMessagingStore] on it (store/dynamo-messaging-store.ts) and src/conversation/src/domain/live-files.ts: which source
    answers a read, how a request is queued, handed to the owner in its poll, answered and waited for.

    A request and an answer are JSON values; the zod schemas of src/host-protocol/src/live-files.ts that check them are the
    parameters [parse_request] and [parse_outcome]. A deflated answer is the attribute [AB]. The wait loop has no bound in the
    source; here it has [rounds]. *)

From S2P Require Import Prelude Json Dates Types Computers Service Retry Paging TurnCodec TurnStore ComputerStore Workers FileAudits.
From stdpp Require Import sorting.
From Stdlib Require QArith_base.
From coqutil Require Import Datatypes.RecordSetters.
Import DoubleBraceUpdate.
#[local] Open Scope Z_scope.
#[local] Open Scope cond_scope.
#[local] Open Scope prog_scope.

(** ** The request *)

Inductive LiveFileOperationStatus : Type := OpPending | OpDelivered | OpDone | OpAbandoned.
#[export] Instance LiveFileOperationStatus_eq_dec : EqDecision LiveFileOperationStatus.
Proof. solve_decision. Defined.

Definition operation_status_text (s : LiveFileOperationStatus) : string :=
  match s with OpPending => "pending" | OpDelivered => "delivered" | OpDone => "done" | OpAbandoned => "abandoned" end.

Definition operation_status_of_text (s : string) : option LiveFileOperationStatus :=
  if decide (s = "pending") then Some OpPending
  else if decide (s = "delivered") then Some OpDelivered
  else if decide (s = "done") then Some OpDone
  else if decide (s = "abandoned") then Some OpAbandoned else None.

Module FileOp.
Record LiveFileOperation : Type := mk {
  operationId : string;
  tenantId : string;
  computerId : string;
  userId : string;
  ownerId : string;
  generation : Z;
  kind : string;
  status : LiveFileOperationStatus;
  request : option string;
  queuedAt : Z;
  deliveredAt : option Z;
  deliveredSequence : option Z;
  outcome : option string;
  waiterGone : bool;
  auditAtMilliseconds : option Z;
  expiresAt : Z;
}.
End FileOp.
Abbreviation LiveFileOperation := FileOp.LiveFileOperation.

Definition liveFileOperationPartition (tenantId : string) : string := tenantId +:+ "#computer#fileops".
Definition liveFileOperationKey (tenantId operationId : string) : key :=
  (liveFileOperationPartition tenantId, "op#" +:+ operationId).

Definition encodeFileOp (o : LiveFileOperation) : item :=
  let k := liveFileOperationKey (FileOp.tenantId o) (FileOp.operationId o) in
  let base : item := list_to_map [
    ("pk", AS k.1); ("sk", AS k.2);
    ("operation_id", AS (FileOp.operationId o));
    ("tenant_id", AS (FileOp.tenantId o));
    ("computer_id", AS (FileOp.computerId o));
    ("user_id", AS (FileOp.userId o));
    ("owner_id", AS (FileOp.ownerId o));
    ("generation", AN (FileOp.generation o));
    ("kind", AS (FileOp.kind o));
    ("status", AS (operation_status_text (FileOp.status o)));
    ("queued_at", AS (toISOString (FileOp.queuedAt o)));
    ("expires_at", AN (epochSeconds (FileOp.expiresAt o)))] in
  let base := put_if "request" AS (FileOp.request o) base in
  let base := put_if "delivered_at" (AS ∘ toISOString) (FileOp.deliveredAt o) base in
  let base := put_if "delivered_sequence" AN (FileOp.deliveredSequence o) base in
  let base := put_if "outcome" AB (FileOp.outcome o) base in
  let base := put_flag "waiter_gone" (FileOp.waiterGone o) base in
  put_if "audit_at_ms" AN (FileOp.auditAtMilliseconds o) base.

(** [None] is the error of a malformed item. A status that is none of the four, and a time that is no date, are refused too. *)
Definition decodeFileOp (it : item) : option LiveFileOperation :=
  generation ← optionalNumber it "generation";
  expiresAt ← optionalNumber it "expires_at";
  operationId ← optionalString it "operation_id";
  tenantId ← optionalString it "tenant_id";
  computerId ← optionalString it "computer_id";
  userId ← optionalString it "user_id";
  ownerId ← optionalString it "owner_id";
  kind ← optionalString it "kind";
  status ← optionalString it "status" ≫= operation_status_of_text;
  queuedAt ← optionalString it "queued_at" ≫= date_of_text;
  deliveredAt ← match required_string it "delivered_at" with
                | None => Some None
                | Some text => m ← date_of_text text; Some (Some m)
                end;
  Some {|
    FileOp.operationId := operationId;
    FileOp.tenantId := tenantId;
    FileOp.computerId := computerId;
    FileOp.userId := userId;
    FileOp.ownerId := ownerId;
    FileOp.generation := generation;
    FileOp.kind := kind;
    FileOp.status := status;
    FileOp.request := required_string it "request";
    FileOp.queuedAt := queuedAt;
    FileOp.deliveredAt := deliveredAt;
    FileOp.deliveredSequence := optionalNumber it "delivered_sequence";
    FileOp.outcome := match it !! "outcome" with Some (AB text) => Some text | _ => None end;
    FileOp.waiterGone := default false (optionalFlag it "waiter_gone");
    FileOp.auditAtMilliseconds := optionalNumber it "audit_at_ms";
    FileOp.expiresAt := expiresAt * 1000;
  |}.

Definition isExpired (o : LiveFileOperation) (now : Z) : bool := FileOp.expiresAt o <=? now.

Definition decode_file_op (it : item) : exn + LiveFileOperation :=
  match decodeFileOp it with Some o => Ok o | None => Err (MalformedItem "file request") end.

(** ** Store *)

Definition status_is (s : LiveFileOperationStatus) : cond := AttrEq "status" (AS (operation_status_text s)).

Definition queue_ops (o : LiveFileOperation) (interactiveUntilAt : Z) : list txop :=
  let change := queue_change (FileOp.ownerId o) (FileOp.generation o) (FileOp.operationId o) interactiveUntilAt in
  [TUpdate (computerRecordKey (FileOp.tenantId o)) (updates change) (condition change);
   TPut (encodeFileOp o) (AttrNotExists "pk")].

Definition queueLiveFileOperation (o : LiveFileOperation) (interactiveUntilAt : Z) : prog bool :=
  catch (retryTransient (send (TransactWrite (queue_ops o interactiveUntilAt))) ;;; Ret true)
    (fun error => match error with
     | TransactionCanceledException reasons => if decide (CONDITION_FAILED ∈ reasons) then Ret false else Throw error
     | _ => Throw error
     end).

Definition getLiveFileOperation (tenantId operationId : string) (now : Z) : prog (option LiveFileOperation) :=
  let! it := send (GetItem (liveFileOperationKey tenantId operationId)) in
  match it with
  | None => Ret None
  | Some it =>
      match decode_file_op it with
      | Err e => Throw e
      | Ok o => Ret (if isExpired o now then None else Some o)
      end
  end.

(** [left.queuedAt - right.queuedAt || compareStrings(left.operationId, right.operationId)]. *)
Definition queued_le (a b : LiveFileOperation) : Prop :=
  FileOp.queuedAt a < FileOp.queuedAt b \/
  (FileOp.queuedAt a = FileOp.queuedAt b /\ String.le (FileOp.operationId a) (FileOp.operationId b)).
#[export] Instance queued_le_dec : RelDecision queued_le.
Proof. intros a b. unfold queued_le. apply _. Defined.

Definition listLiveFileOperations (pages : nat) (tenantId : string) (now : Z) : prog (list LiveFileOperation) :=
  let! rows := query_pages decode_file_op (liveFileOperationPartition tenantId) (BeginsWith "op#") CTrue None pages in
  Ret (merge_sort queued_le (List.filter (fun o => negb (isExpired o now)) rows)).

Definition open_condition (now : Z) : cond := (status_is OpPending OR status_is OpDelivered) AND AttrGt "expires_at" (epochSeconds now).

(** The count of a query is the number of its items. *)
Definition countOpenLiveFileOperations (pages : nat) (tenantId : string) (now : Z) : prog Z :=
  let! rows := query_pages (fun it => Ok it) (liveFileOperationPartition tenantId) (BeginsWith "op#") (open_condition now) None pages in
  Ret (Z.of_nat (length rows)).

Module Delivery.
Record Delivery : Type := mk { ownerId : string; generation : Z; sequence : Z; at_ : Z }.
End Delivery.
Abbreviation Delivery := Delivery.Delivery.

Definition deliver_change (d : Delivery) : Change := {|
  updates := [SET "status" (AS "delivered"); SET "delivered_at" (AS (toISOString (Delivery.at_ d)));
             SET "delivered_sequence" (AN (Delivery.sequence d))];
  condition := AttrExists "pk" AND status_is OpPending AND AttrEq "owner_id" (AS (Delivery.ownerId d)) AND
               AttrEq "generation" (AN (Delivery.generation d)) AND AttrGt "expires_at" (epochSeconds (Delivery.at_ d)) |}.

Definition abandon_change : Change := {|
  updates := [SET "status" (AS "abandoned"); REMOVE "request"; REMOVE "outcome"];
  condition := AttrExists "pk" AND status_is OpPending |}.

Definition complete_change (outcome : string) (now : Z) : Change := {|
  updates := [SET "status" (AS "done"); SET "outcome" (AB outcome)];
  condition := AttrExists "pk" AND status_is OpDelivered AND AttrGt "expires_at" (epochSeconds now) |}.

Definition waiter_gone_change : Change := {|
  updates := [SET_FLAG "waiter_gone" true];
  condition := AttrExists "pk" AND status_is OpDelivered |}.

Definition update_operation (tenantId operationId : string) (change : Change) : prog item :=
  send (UpdateItem (liveFileOperationKey tenantId operationId) (updates change) (condition change)).

Definition deliverLiveFileOperation (tenantId operationId : string) (delivery : Delivery) : prog bool :=
  false_when_condition_fails (update_operation tenantId operationId (deliver_change delivery) ;;; Ret tt).

(** What [abandonLiveFileOperation] found: the status of the request, or that it is gone. *)
Definition abandonLiveFileOperation (tenantId operationId : string) (now : Z) : prog (option LiveFileOperationStatus) :=
  catch (update_operation tenantId operationId abandon_change ;;; Ret (Some OpAbandoned))
    (fun error => match error with
     | ConditionalCheckFailedException =>
         let! o := getLiveFileOperation tenantId operationId now in Ret (FileOp.status <$> o)
     | _ => Throw error
     end).

Definition completeLiveFileOperation (tenantId operationId outcome : string) (now : Z) : prog (option LiveFileOperation) :=
  null_when_condition_fails (
    let! attributes := update_operation tenantId operationId (complete_change outcome now) in
    match decode_file_op attributes with Ok o => Ret o | Err e => Throw e end).

Definition markLiveFileOperationWaiterGone (tenantId operationId : string) : prog bool :=
  false_when_condition_fails (update_operation tenantId operationId waiter_gone_change ;;; Ret tt).

Definition deleteLiveFileOperation (tenantId operationId : string) : prog unit :=
  send (DeleteItem (liveFileOperationKey tenantId operationId) CTrue).

(** ** The functions of live-files.ts *)

Definition LIVE_FILE_WAIT_MILLISECONDS : Z := 8000.
Definition LIVE_FILE_RESULT_CHECK_MILLISECONDS : Z := 250.
Definition LIVE_FILE_OUTCOME_GRACE_MILLISECONDS : Z := 7000.
Definition LIVE_FILE_OPERATION_TTL_SECONDS : Z := 120.
Definition LIVE_FILE_INTERACTIVE_WINDOW_SECONDS : Z := 45.
Definition LIVE_FILE_MAX_REQUESTS_PER_POLL : nat := 4.
Definition OWNER_FILE_REQUESTS_PROTOCOL_VERSION : Z := 2.
Definition OWNER_POLL_INTERACTIVE_MILLISECONDS : Z := 1000.
Definition OWNER_POLL_SLOW_MILLISECONDS : Z := 10000.

Definition FILE_SERVING_OWNER_STATES : list string := ["idle"; "serving"; "publishing"; "draining"].

Inductive LiveFileSource : Type :=
| source_live
| source_snapshot (reason : option string) (stale : bool).

(** A worker without a poll state is in no state. *)
Definition liveFileSourceOf (computer : option Computer) (worker : option Worker) (now heartbeatTimeoutSeconds : Z) : LiveFileSource :=
  match computer with
  | None => source_snapshot None false
  | Some c =>
      if negb (liveOwnerOf c worker now heartbeatTimeoutSeconds) then source_snapshot None false
      else if match Computer.ownerProtocolVersion c with Some v => v <? OWNER_FILE_REQUESTS_PROTOCOL_VERSION | None => true end
      then source_snapshot (Some "owner_too_old") true
      else
        let state := worker ≫= Worker.pollState in
        if bool_decide (state = Some "booting") || bool_decide (state = Some "hydrating")
        then source_snapshot (Some "owner_not_ready") true
        else if bool_decide (state = Some "stopping") || bool_decide (is_Some (Computer.ownerStopApprovedAt c))
        then source_snapshot (Some "owner_stopping") true
        else if Computer.hydrateRequired c || match state with Some s => negb (bool_decide (s ∈ FILE_SERVING_OWNER_STATES)) | None => true end
        then source_snapshot (Some "owner_not_ready") true
        else source_live
  end.

(** Whether a moment is still to come. *)
Definition still_open (until : option Z) (now : Z) : bool := match until with Some u => now <? u | None => false end.

Definition ownerFilePanelPace (state : string) (normalMilliseconds : Z) (interactiveUntilAt : option Z) (now : Z) : Z :=
  if still_open interactiveUntilAt now && bool_decide (state ∈ FILE_SERVING_OWNER_STATES)
  then Z.min normalMilliseconds OWNER_POLL_INTERACTIVE_MILLISECONDS else normalMilliseconds.

Definition expectedPickupMilliseconds (worker : Worker) (now : Z) : Z :=
  Z.max 0 (Worker.lastHeartbeatAt worker + default OWNER_POLL_SLOW_MILLISECONDS (Worker.pollPaceMilliseconds worker) - now).

Module QueueInput.
Record QueueLiveFileRequestInput : Type := mk {
  computer : Computer; userId : string; request : list (string * json); operationId : option string; auditAtMilliseconds : option Z }.
End QueueInput.
Abbreviation QueueLiveFileRequestInput := QueueInput.QueueLiveFileRequestInput.

Definition newLiveFileOperationId : prog string := let! id := send NextId in Ret ("fop-" +:+ id).

(** [None] is [owner_stopping]; otherwise the operation and the moment it was queued. *)
Definition queueLiveFileRequest (input : QueueLiveFileRequestInput) : prog (option (string * Z)) :=
  let computer := QueueInput.computer input in
  match Computer.ownerId computer, Computer.ownerGeneration computer with
  | Some ownerId, Some generation =>
      let! queuedAt := send ClockNow in
      let! operationId := match QueueInput.operationId input with Some id => Ret id | None => newLiveFileOperationId end in
      let operation := {|
        FileOp.operationId := operationId;
        FileOp.tenantId := Computer.tenantId computer;
        FileOp.computerId := Computer.computerId computer;
        FileOp.userId := QueueInput.userId input;
        FileOp.ownerId := ownerId;
        FileOp.generation := generation;
        FileOp.kind := default EmptyString (field (QueueInput.request input) "kind" ≫= as_text);
        FileOp.status := OpPending;
        FileOp.request := Some (stringify (JObj (QueueInput.request input)));
        FileOp.queuedAt := queuedAt;
        FileOp.deliveredAt := None;
        FileOp.deliveredSequence := None;
        FileOp.outcome := None;
        FileOp.waiterGone := false;
        FileOp.auditAtMilliseconds := QueueInput.auditAtMilliseconds input;
        FileOp.expiresAt := queuedAt + LIVE_FILE_OPERATION_TTL_SECONDS * 1000 |} in
      let! queued := queueLiveFileOperation operation (queuedAt + LIVE_FILE_INTERACTIVE_WINDOW_SECONDS * 1000) in
      Ret (if (queued : bool) then Some (operationId, queuedAt) else None)
  | _, _ => Ret None
  end.

(** Who a verified supervisor token speaks for. *)
Module Identity.
Record OwnerIdentity : Type := mk { tenantId : string; computerId : string; ownerId : string; startGeneration : Z; token : string }.
End Identity.
Abbreviation OwnerIdentity := Identity.OwnerIdentity.

(** The body of a poll: the active turns are pairs of a turn and the dispatch that delivered it. *)
Module PollRequest.
Record OwnerPollRequest : Type := mk {
  owner_id : string; generation : Z; protocol_version : Z; sequence : Z; state : string;
  active_turns : list (string * string); memory_used_percent : option Z }.
End PollRequest.
Abbreviation OwnerPollRequest := PollRequest.OwnerPollRequest.

Section handing.
Context (pages : nat) (parse_request : json -> exn + json).

(** [{...body, operation_id, expires_in_ms}] of the stored request, as the schema reads it; a stored value that is no object
    has no fields. *)
Definition asOwnerRequest (operation : LiveFileOperation) (now : Z) : exn + json :=
  match parse_json (default "{}" (FileOp.request operation)) with
  | None => Err (JsError "SyntaxError")
  | Some stored =>
      let body := default [] (as_object stored) in
      let left := Z.max 0 (LIVE_FILE_WAIT_MILLISECONDS - (now - FileOp.queuedAt operation)) in
      parse_request (JObj (List.filter (fun kv => negb (bool_decide (kv.1 ∈ ["operation_id"; "expires_in_ms"]))) body
        ++ [("operation_id", JStr (FileOp.operationId operation)); ("expires_in_ms", JNum left)]))
  end.

Definition waitingMilliseconds (now : Z) (o : LiveFileOperation) : Z := now - FileOp.queuedAt o.

(** The requests queued for an owner in its generation. *)
Definition mine (identity : OwnerIdentity) (o : LiveFileOperation) : bool :=
  bool_decide (FileOp.ownerId o = Identity.ownerId identity) && bool_decide (FileOp.generation o = Identity.startGeneration identity).

Definition repeated_by (sequence : Z) (o : LiveFileOperation) : bool :=
  bool_decide (FileOp.status o = OpDelivered) && bool_decide (FileOp.deliveredSequence o = Some sequence).

Definition deliverable (now : Z) (o : LiveFileOperation) : bool :=
  bool_decide (FileOp.status o = OpPending) && (waitingMilliseconds now o <? LIVE_FILE_WAIT_MILLISECONDS).

Fixpoint throw_first {A : Type} (l : list (exn + A)) : exn + list A :=
  match l with
  | [] => Ok []
  | Err e :: _ => Err e
  | Ok a :: l' => match throw_first l' with Ok r => Ok (a :: r) | Err e => Err e end
  end.

Definition deliverLiveFileRequests (identity : OwnerIdentity) (poll : OwnerPollRequest) (computer : Computer) : prog (list json) :=
  let! now := send ClockNow in
  if (PollRequest.protocol_version poll <? OWNER_FILE_REQUESTS_PROTOCOL_VERSION)
     || negb (bool_decide (PollRequest.state poll ∈ FILE_SERVING_OWNER_STATES))
     || bool_decide (is_Some (Computer.ownerStopApprovedAt computer))
     || negb (still_open (Computer.interactiveUntilAt computer) now)
  then Ret []
  else
    let! all := listLiveFileOperations pages (Identity.tenantId identity) now in
    let mine := List.filter (mine identity) all in
    let repeated := List.filter (repeated_by (PollRequest.sequence poll)) mine in
    let candidates := take (LIVE_FILE_MAX_REQUESTS_PER_POLL - length repeated)%nat (List.filter (deliverable now) mine) in
    let! handed := for_each candidates repeated (fun handed candidate =>
      let! delivered := deliverLiveFileOperation (Identity.tenantId identity) (FileOp.operationId candidate)
        (Delivery.mk (Identity.ownerId identity) (Identity.startGeneration identity) (PollRequest.sequence poll) now) in
      Ret (if (delivered : bool) then handed ++ [candidate] else handed)) in
    match throw_first ((fun o => asOwnerRequest o now) <$> List.filter (fun o => bool_decide (is_Some (FileOp.request o))) handed) with
    | Ok requests => Ret requests
    | Err e => Throw e
    end.
End handing.

(** ** The answer *)

Inductive LiveFileResultDecision : Type := result_recorded | result_closed | result_kind_mismatch.

(** JSON with the fields of every object sorted by name. *)
Fixpoint sort_json (j : json) : json :=
  match j with
  | JArr l => JArr (sort_json <$> l)
  | JObj l => JObj (merge_sort (fun a b => String.le a.1 b.1) ((fun kx => (kx.1, sort_json kx.2)) <$> l))
  | _ => j
  end.
Definition sortedJson (value : json) : string := stringify (sort_json value).

Definition REFUSED_OWNER_CODES : list string := ["path_refused"; "outside_workspace"; "permission_denied"].
Definition CONFLICT_OWNER_CODES : list string := ["precondition_failed"; "already_exists"].

(** Fields of a JSON object. *)
Definition json_field (j : json) (name : string) : option json := as_object j ≫= fun l => field l name.
Definition json_text_field (j : json) (name : string) : option string := json_field j name ≫= as_text.

(** [outcome.result] of an answer that is no error. *)
Definition ok_result (outcome : json) : option json :=
  if decide (json_text_field outcome "status" = Some "ok") then json_field outcome "result" else None.

Definition auditFinishOf (outcome : json) (audit : FileAuditRecord) (finishedAt : Z) : FileAuditFinish :=
  match ok_result outcome with
  | None =>
      let code := json_text_field outcome "code" in
      AuditFinish.mk
        (match code with
         | Some c => if decide (c ∈ CONFLICT_OWNER_CODES) then "conflict"
                     else if decide (c ∈ REFUSED_OWNER_CODES) then "refused" else "failed"
         | None => "failed"
         end) finishedAt code None None None None None None
  | Some result =>
      let kind := json_text_field result "kind" in
      let when_kind (kinds : list string) (o : option string) := match kind with Some k => if decide (k ∈ kinds) then o else None | None => None end in
      let resolvedPath :=
        if decide (kind = Some "move") then None
        else if decide (kind = Some "stat") then json_field result "entry" ≫= (fun e => json_text_field e "path")
        else json_text_field result "resolved_path" in
      let afterReported := when_kind ["write"] (json_text_field result "sha256_after") in
      let mismatch := match afterReported, FileAudit.sha256After audit with
                      | Some reported, Some expected => negb (bool_decide (reported = expected))
                      | _, _ => false
                      end in
      AuditFinish.mk "ok" finishedAt None resolvedPath
        (when_kind ["write"; "delete"] (json_text_field result "kept_as"))
        (when_kind ["write"; "delete"] (json_text_field result "sha256_before"))
        afterReported
        (if decide (kind = Some "delete") then match json_field result "removed" with Some (JNum n) => Some n | _ => None end else None)
        (if mismatch then Some ["integrity_mismatch"] else None)
  end.

Definition finishAudit (operation : LiveFileOperation) (outcome : json) : prog unit :=
  match FileOp.auditAtMilliseconds operation with
  | None => Ret tt
  | Some at_ =>
      let! now := send ClockNow in
      let! audit := getFileAudit (FileOp.tenantId operation) at_ (FileOp.operationId operation) now in
      match audit with
      | None => Ret tt
      | Some audit =>
          finalizeFileAudit (FileOp.tenantId operation) at_ (FileOp.operationId operation) (auditFinishOf outcome audit now) ;;;
          Ret tt
      end
  end.

(** What follows a recorded answer. *)
Definition close_request (tenantId : string) (operation : LiveFileOperation) (outcome : json) : prog LiveFileResultDecision :=
  finishAudit operation outcome ;;;
  (if FileOp.waiterGone operation then deleteLiveFileOperation tenantId (FileOp.operationId operation) else Ret tt) ;;;
  Ret result_recorded.

(** Whether the request is the one this owner holds in its generation. *)
Definition held_by_owner (identity : OwnerIdentity) (o : LiveFileOperation) : bool :=
  mine identity o && bool_decide (FileOp.computerId o = Identity.computerId identity).

(** One of the two rounds; [None] when the answer could not be written and the request is looked at again. *)
Definition result_round (identity : OwnerIdentity) (operationId : string) (outcome : json) : prog (option LiveFileResultDecision) :=
  let tenantId := Identity.tenantId identity in
  let! now := send ClockNow in
  let! found := getLiveFileOperation tenantId operationId now in
  match found with
  | None => Ret (Some result_closed)
  | Some o =>
      if negb (held_by_owner identity o) then Ret (Some result_closed)
      else
        match FileOp.status o with
        | OpDone =>
            match FileOp.outcome o with
            | None => Ret (Some result_closed)
            | Some text =>
                match parse_json text with
                | None => Throw (JsError "SyntaxError")
                | Some stored =>
                    if decide (sortedJson stored = sortedJson outcome)
                    then let! d := close_request tenantId o outcome in Ret (Some d)
                    else Ret (Some result_closed)
                end
            end
        | OpDelivered =>
            if match ok_result outcome with Some r => negb (bool_decide (json_text_field r "kind" = Some (FileOp.kind o))) | None => false end
            then Ret (Some result_kind_mismatch)
            else
              let! completed := completeLiveFileOperation tenantId (FileOp.operationId o) (stringify outcome) now in
              match completed with
              | None => Ret None
              | Some c => let! d := close_request tenantId c outcome in Ret (Some d)
              end
        | _ => Ret (Some result_closed)
        end
  end.

Definition recordLiveFileResult (identity : OwnerIdentity) (operationId : string) (outcome : json) : prog LiveFileResultDecision :=
  let! first := result_round identity operationId outcome in
  match first with
  | Some d => Ret d
  | None => let! second := result_round identity operationId outcome in Ret (default result_closed second)
  end.

(** ** The panel *)

Record FilePanelWatchResult : Type := mkWatch { watch_state : string; interactive_until : option string; poll_interval_ms : option Z }.

Definition watchFilePanel (heartbeatTimeoutSeconds : Z) (tenantId : string) (open : bool) : prog FilePanelWatchResult :=
  let! now := send ClockNow in
  let! computer := getComputer tenantId in
  let! worker := match computer ≫= Computer.ownerId with Some id => store_getWorker tenantId id | None => Ret None end in
  let starting_or_off :=
    let starting := match computer with
      | Some c =>
          (liveOwnerOf c worker now heartbeatTimeoutSeconds &&
           match worker ≫= Worker.pollState with Some s => bool_decide (s ∈ ["booting"; "hydrating"]) | None => false end)
          || still_open (Computer.hostStartLeaseExpiresAt c) now
      | None => false
      end in
    Ret (mkWatch (if starting then "starting" else "off") None None) in
  match liveFileSourceOf computer worker now heartbeatTimeoutSeconds, computer, worker with
  | source_live, Some c, Some w =>
      match Computer.ownerId c, Computer.ownerGeneration c with
      | Some ownerId, Some generation =>
          let until := if open then now + LIVE_FILE_INTERACTIVE_WINDOW_SECONDS * 1000 else now in
          touchInteractiveWindow tenantId ownerId generation until ;;;
          let lastPace := default OWNER_POLL_SLOW_MILLISECONDS (Worker.pollPaceMilliseconds w) in
          Ret (mkWatch "live" (if open then Some (toISOString until) else None)
            (Some (if open then Z.min lastPace OWNER_POLL_INTERACTIVE_MILLISECONDS else lastPace)))
      | _, _ => starting_or_off
      end
  | _, _, _ => starting_or_off
  end.

(** ** The wait *)

Inductive LiveFileWaitResult : Type := wait_done (outcome : json) | wait_abandoned | wait_unknown.
Inductive LookResult : Type := look_done (outcome : json) | look_gone | look_open.

Module WaitTarget.
Record LiveFileWaitTarget : Type := mk { tenantId : string; operationId : string; queuedAt : Z; graceForDelivered : bool }.
End WaitTarget.
Abbreviation LiveFileWaitTarget := WaitTarget.LiveFileWaitTarget.

Section waiting.
Context (parse_outcome : json -> exn + json) (target : LiveFileWaitTarget).

Definition lookAtRequest : prog LookResult :=
  let! now := send ClockNow in
  let! found := getLiveFileOperation (WaitTarget.tenantId target) (WaitTarget.operationId target) now in
  match found with
  | None => Ret look_gone
  | Some o =>
      match FileOp.status o, FileOp.outcome o with
      | OpDone, Some text =>
          deleteLiveFileOperation (WaitTarget.tenantId target) (WaitTarget.operationId target) ;;;
          match parse_json text with
          | None => Throw (JsError "SyntaxError")
          | Some j => match parse_outcome j with Ok v => Ret (look_done v) | Err e => Throw e end
          end
      | OpAbandoned, _ => Ret look_gone
      | _, _ => Ret look_open
      end
  end.

(** Look until [deadline], first [look] and then sleep, or the other way round: what was found, or [None] at the deadline. *)
Fixpoint look_until (sleep_first : bool) (deadline : Z) (rounds : nat) : prog (option LiveFileWaitResult) :=
  match rounds with
  | O => Throw (JsError "more rounds than the bound")
  | S rounds' =>
      (if sleep_first then send (Sleep (QArith_base.inject_Z LIVE_FILE_RESULT_CHECK_MILLISECONDS)) else Ret tt) ;;;
      let! look := lookAtRequest in
      match look with
      | look_done outcome => Ret (Some (wait_done outcome))
      | look_gone => Ret (Some wait_abandoned)
      | look_open =>
          let! now := send ClockNow in
          if deadline <=? now then Ret None
          else (if sleep_first then Ret tt else send (Sleep (QArith_base.inject_Z LIVE_FILE_RESULT_CHECK_MILLISECONDS))) ;;;
               look_until sleep_first deadline rounds'
      end
  end.

(** The end of a wait for a request the owner took. *)
Definition give_up_waiting : prog LiveFileWaitResult :=
  let! marked := markLiveFileOperationWaiterGone (WaitTarget.tenantId target) (WaitTarget.operationId target) in
  if (marked : bool) then Ret wait_unknown
  else
    let! last := lookAtRequest in
    Ret (match last with look_done outcome => wait_done outcome | _ => wait_unknown end).

Definition awaitLiveFileOutcome (rounds : nat) : prog LiveFileWaitResult :=
  let deadline := WaitTarget.queuedAt target + LIVE_FILE_WAIT_MILLISECONDS in
  let! found := look_until false deadline rounds in
  match found with
  | Some result => Ret result
  | None =>
      let! now := send ClockNow in
      let! abandoned := abandonLiveFileOperation (WaitTarget.tenantId target) (WaitTarget.operationId target) now in
      match abandoned with
      | Some OpAbandoned | None => Ret wait_abandoned
      | Some OpDone =>
          let! look := lookAtRequest in
          Ret (match look with look_done outcome => wait_done outcome | _ => wait_abandoned end)
      | Some _ =>
          if WaitTarget.graceForDelivered target then
            let! late := look_until true (deadline + LIVE_FILE_OUTCOME_GRACE_MILLISECONDS) rounds in
            match late with Some result => Ret result | None => give_up_waiting end
          else give_up_waiting
      end
  end.
End waiting.
