(* ===== verification/OwnerSupervisor.v ===== *)
(** * The supervisor of a long-lived owner

    src/conversation/src/domain/owner-supervisor.ts: the bootstrap exchange, the poll that is the owner's heartbeat and its
    only way to receive a turn, the renewal of its credentials and the judgement of its stop; with the constants of
    src/host-protocol/src/supervisor.ts and the runtime segments of src/conversation/src/budget/budget-store.ts.

    The broker of credentials is outside the repository ([OwnerCredentialBroker]); a grant carries the moments of its
    timestamps. Log lines are left out. *)

From S2P Require Import Prelude Json Dates Types Computers Service TurnCodec TurnStore Actions Probes.
From S2P Require Import ComputerStore Workers ComputerDomain ComputerStart FileAudits FileRequests.
#[local] Open Scope Z_scope.
#[local] Open Scope cond_scope.
#[local] Open Scope prog_scope.

Definition OWNER_MINIMUM_PROTOCOL_VERSION : Z := 3.
Definition OWNER_DISPATCH_LEASE_SECONDS : Z := 30.
Definition OWNER_POLL_FAST_MILLISECONDS : Z := 1000.
Definition OWNER_POLL_MEDIUM_MILLISECONDS : Z := 3000.
Definition OWNER_POLL_BUSY_MILLISECONDS : Z := 5000.
Definition OWNER_POLL_STARTING_MILLISECONDS : Z := 2000.
Definition OWNER_POLL_FAST_WINDOW_SECONDS : Z := 60.
Definition OWNER_POLL_MEDIUM_WINDOW_SECONDS : Z := 300.
Definition OWNER_DRAIN_GRACE_SECONDS : Z := 300.
Definition OWNER_FINAL_PUBLISH_BUDGET_SECONDS : Z := 120.
Definition OWNER_LIFETIME_MARGIN_SECONDS : Z := 180.
Definition OWNER_CREDENTIAL_DRAIN_BUDGET_SECONDS : Z :=
  OWNER_DRAIN_GRACE_SECONDS + OWNER_FINAL_PUBLISH_BUDGET_SECONDS + OWNER_LIFETIME_MARGIN_SECONDS.
Definition OWNER_HARD_LIFETIME_SECONDS : Z := 28800.
Definition OWNER_MAX_LIFETIME_SECONDS : Z := OWNER_HARD_LIFETIME_SECONDS - OWNER_CREDENTIAL_DRAIN_BUDGET_SECONDS.
Definition OWNER_BROKER_MINIMUM_SESSION_SECONDS : Z := 900.
Definition OWNER_ISSUANCE_CUTOFF_SECONDS : Z := OWNER_HARD_LIFETIME_SECONDS - OWNER_BROKER_MINIMUM_SESSION_SECONDS.
Definition OWNER_CREDENTIAL_RENEWAL_MINIMUM_INTERVAL_SECONDS : Z := 60.
Definition STOP_JUDGMENT_ATTEMPTS : nat := 3.

(** ** Runtime segments *)

Definition computerRuntimeKey (tenantId : string) (ownerGeneration : Z) : key :=
  (tenantId +:+ "#computer_runtime", "generation#" +:+ pad_start 10 (digit 0) (dec ownerGeneration)).

Definition computerRuntimeSegmentItem (tenantId : string) (ownerGeneration startedAt lastSeenAt : Z) (ownerId : string) : item :=
  let k := computerRuntimeKey tenantId ownerGeneration in
  list_to_map [
    ("pk", AS k.1); ("sk", AS k.2);
    ("tenant_id", AS tenantId);
    ("owner_generation", AN ownerGeneration);
    ("owner_id", AS ownerId);
    ("started_at", AS (toISOString startedAt));
    ("last_seen_at", AS (toISOString lastSeenAt))].

Definition openComputerRuntimeSegment (tenantId : string) (ownerGeneration : Z) (ownerId : string) (startedAt : Z) : prog unit :=
  send (PutItem (computerRuntimeSegmentItem tenantId ownerGeneration startedAt startedAt ownerId) CTrue).

Definition extendComputerRuntimeSegment (tenantId : string) (ownerGeneration seenAt : Z) : prog unit :=
  let seen := toISOString seenAt in
  catch (send (UpdateItem (computerRuntimeKey tenantId ownerGeneration) [SET "last_seen_at" (AS seen)]
           (AttrExists "pk" AND AttrBefore "last_seen_at" seen)) ;;; Ret tt)
    (fun error => match error with ConditionalCheckFailedException => Ret tt | _ => Throw error end).

(** ** Credentials *)

Record AwsCredentials : Type := mkAws { access_key_id : string; secret_access_key : string; session_token : string; aws_expires_at : Z }.

Module BrokerBase.
Record BrokerBase : Type := mk { tenant_id : string; computer_id : string; owner_id : string; generation : Z; authorization : string }.
End BrokerBase.
Abbreviation BrokerBase := BrokerBase.BrokerBase.

Inductive supervisor_purpose : Type := purpose_supervisor | purpose_supervisor_renewal.

Record SupervisorGrant : Type := mkSupervisorGrant { supervisor_token : string; supervisor_token_expires_at : Z; supervisor_aws : AwsCredentials }.
Record TurnGrant : Type := mkTurnGrant { gateway_token : string; turn_aws : AwsCredentials; turn_expires_at : Z }.

(** The broker: the credentials it issues, or an [OwnerCredentialBrokerError]. *)
Class OwnerCredentialBroker : Type := {
  issue_supervisor : supervisor_purpose -> BrokerBase -> prog SupervisorGrant;
  issue_turn : BrokerBase -> string * string * string -> prog TurnGrant;
}.

Definition supervisor_grant_ends (g : SupervisorGrant) : Z := Z.min (aws_expires_at (supervisor_aws g)) (supervisor_token_expires_at g).

(** The status of each refusal. *)
Definition OWNER_ERROR_STATUS (code : string) : option Z :=
  (list_to_map [("invalid_credential", 401); ("wrong_organization", 403); ("credential_mismatch", 403); ("stale_generation", 403);
    ("not_current_owner", 403); ("owner_not_registered", 403); ("stale_poll", 409); ("bootstrap_already_used", 409);
    ("invalid_request", 422); ("credentials_unavailable", 503); ("operation_closed", 409); ("overlay_not_sealed", 409);
    ("owner_draining", 409); ("owner_stopping", 409); ("renewal_too_soon", 429); ("turn_not_served", 409)] : gmap string Z) !! code.

(** ** Requests and answers *)

Module Claims.
Record OwnerBootstrapTokenClaims : Type := mk { computerId : string; ownerId : string; startGeneration : Z }.
End Claims.
Abbreviation OwnerBootstrapTokenClaims := Claims.OwnerBootstrapTokenClaims.

Module BootstrapRequest.
Record OwnerBootstrapRequest : Type := mk { owner_id : string; generation : Z; protocol_version : Z }.
End BootstrapRequest.
Abbreviation OwnerBootstrapRequest := BootstrapRequest.OwnerBootstrapRequest.

Record OwnerBootstrapResponse : Type := mkBootstrapResponse { response_computer_id : string; response_grant : SupervisorGrant }.

Module OwnerDispatch.
Record OwnerDispatch : Type := mk {
  dispatch_id : string; turn_id : string; bot_id : string; channel_id : string; user_id : string; action_id : string;
  waiting_since : option string; lease_expires_at : string; attempt : Z; grant : TurnGrant }.
End OwnerDispatch.
Abbreviation OwnerDispatch := OwnerDispatch.OwnerDispatch.

Module PollResponse.
Record OwnerPollResponse : Type := mk {
  dispatches : list OwnerDispatch; file_requests : list json; drain : bool; drain_reason : option string; next_poll_ms : Z }.
End PollResponse.
Abbreviation OwnerPollResponse := PollResponse.OwnerPollResponse.

Module StopRequest.
Record OwnerStopRequest : Type := mk { owner_id : string; generation : Z; reason : string; active_turns : list (string * string) }.
End StopRequest.
Abbreviation OwnerStopRequest := StopRequest.OwnerStopRequest.

Inductive OwnerStopResponse : Type := stop_approved_response | stop_vetoed (reason : string).

Inductive credentials_kind : Type := kind_supervisor | kind_turn (dispatch_id turn_id : string).
Record OwnerCredentialsRequest : Type := mkCredentialsRequest { request_owner_id : string; request_generation : Z; request_kind : credentials_kind }.
Inductive OwnerCredentialsResponse : Type :=
| supervisor_response (grant : SupervisorGrant)
| turn_response (dispatch_id turn_id : string) (grant : TurnGrant).

(** ** What is decided from the record and the time *)

Definition ownerPollCadence (state : string) (idleMilliseconds : Z) : Z :=
  if decide (state ∈ ["booting"; "hydrating"; "publishing"]) then OWNER_POLL_STARTING_MILLISECONDS
  else if decide (state ∈ ["serving"; "draining"; "stopping"]) then OWNER_POLL_BUSY_MILLISECONDS
  else if idleMilliseconds <? OWNER_POLL_FAST_WINDOW_SECONDS * 1000 then OWNER_POLL_FAST_MILLISECONDS
  else if idleMilliseconds <? OWNER_POLL_MEDIUM_WINDOW_SECONDS * 1000 then OWNER_POLL_MEDIUM_MILLISECONDS
  else OWNER_POLL_SLOW_MILLISECONDS.

(** [moment !== undefined && secondsBetween(now, moment) >= seconds]. *)
Definition past (moment : option Z) (seconds now : Z) : bool :=
  match moment with Some m => seconds * 1000 <=? now - m | None => false end.

Definition ownerDrainReason (computer : Computer) (now minimumProtocolVersion : Z) : option string :=
  if match Computer.ownerProtocolVersion computer with Some v => v <? minimumProtocolVersion | None => false end then Some "protocol_version"
  else if past (Computer.ownerStartedAt computer) OWNER_MAX_LIFETIME_SECONDS now then Some "lifetime"
  else if match Computer.ownerCredentialsExpireAt computer with
          | Some e => e - now <=? OWNER_CREDENTIAL_DRAIN_BUDGET_SECONDS * 1000
          | None => false
          end then Some "credentials"
  else None.

Definition ownerIssuanceClosed (computer : Computer) (now : Z) : bool :=
  past (Computer.ownerStartedAt computer) OWNER_ISSUANCE_CUTOFF_SECONDS now.

Definition dispatchOf (computer : Computer) : option OwnerDispatchRecord :=
  dispatchId ← Computer.dispatchId computer;
  turnId ← Computer.dispatchTurnId computer;
  actionId ← Computer.dispatchActionId computer;
  attempt ← Computer.dispatchAttempt computer;
  leaseExpiresAt ← Computer.dispatchLeaseExpiresAt computer;
  Some (DispatchRecord.mk dispatchId turnId actionId attempt leaseExpiresAt).

Definition presenceChange (computer : Computer) (request : OwnerPollRequest) (now : Z) : option PresenceChange :=
  let version :=
    if decide (Computer.ownerProtocolVersion computer <> Some (PollRequest.protocol_version request))
    then Some (PollRequest.protocol_version request) else None in
  let idle :=
    if decide (PollRequest.state request ∈ ["serving"; "draining"] /\ is_Some (Computer.idleSinceAt computer)) then Some None
    else if decide (PollRequest.state request = "idle" /\ Computer.idleSinceAt computer = None) then Some (Some now)
    else None in
  match version, idle with
  | None, None => None
  | _, _ => Some (Presence.mk version idle)
  end.

(** ** The routes *)

Definition refusal_of_owner : exn := OwnerRefusal "not_current_owner" "owner credential is not valid for the current owner of this computer".

Definition requireMatchingOwner (identity : OwnerIdentity) (owner_id : string) (generation : Z) : prog unit :=
  if decide (owner_id = Identity.ownerId identity /\ generation = Identity.startGeneration identity) then Ret tt
  else Throw (OwnerRefusal "credential_mismatch" "request does not match the owner credential").

Definition requireLiveComputer (identity : OwnerIdentity) : prog Computer :=
  let! computer := getComputer (Identity.tenantId identity) in
  match computer with
  | Some c => if decide (Computer.ownerId c = Some (Identity.ownerId identity)) then Ret c else Throw refusal_of_owner
  | None => Throw refusal_of_owner
  end.

Section routes.
Context `{Collation} `{SpendPause} `{OwnerCredentialBroker}.
Context (crashes : string -> string -> bool) (pages : nat) (parse_request : json -> exn + json) (minimumProtocolVersion : Z).

Definition exchangeOwnerBootstrap (tenantId : string) (claims : OwnerBootstrapTokenClaims) (bootstrapToken : string)
    (request : OwnerBootstrapRequest) : prog OwnerBootstrapResponse :=
  let generation := Claims.startGeneration claims in
  if decide (BootstrapRequest.owner_id request = Claims.ownerId claims /\ BootstrapRequest.generation request = generation) then
    let! found := getComputer tenantId in
    match (c ← found; if decide (Computer.computerId c = Claims.computerId claims /\ Computer.hostStartGeneration c = generation) then Some c else None) with
    | None => Throw (OwnerRefusal "stale_generation" "bootstrap credential is not valid for this host start generation")
    | Some computer =>
        let! registered := store_getWorker tenantId (Claims.ownerId claims) in
        match (w ← registered; if decide (Worker.computerId w = Some (Computer.computerId computer)) then Some w else None) with
        | None => Throw (OwnerRefusal "owner_not_registered" "the owner is not registered for this computer")
        | Some worker =>
            let! grant := catch (issue_supervisor purpose_supervisor
                (BrokerBase.mk tenantId (Claims.computerId claims) (Claims.ownerId claims) generation bootstrapToken))
              (fun error => match error with
               | OwnerCredentialBrokerError _ => Throw (OwnerRefusal "credentials_unavailable" "owner credentials are unavailable")
               | _ => Throw error
               end) in
            let! now := send ClockNow in
            let! consumed := consumeOwnerBootstrap tenantId
              (Bootstrap.mk (Claims.ownerId claims) generation (BootstrapRequest.protocol_version request) now (supervisor_grant_ends grant)) in
            match consumed with
            | None => Throw (OwnerRefusal "bootstrap_already_used" "bootstrap credential was already used or its generation has moved on")
            | Some _ =>
                openComputerRuntimeSegment tenantId generation (Claims.ownerId claims) now ;;;
                putWorker (Worker.mk (Worker.workerId worker) (Worker.tenantId worker) (Worker.costClass worker) (Worker.capabilities worker)
                  (Worker.tokenHash worker) now (Worker.computerId worker) (Worker.hydratedSnapshotGeneration worker) None None None) ;;;
                Ret (mkBootstrapResponse (Claims.computerId claims) grant)
            end
        end
    end
  else Throw (OwnerRefusal "credential_mismatch" "bootstrap request does not match the bootstrap credential").

Definition resume_for (tenantId turnId actionId : string) : prog unit := resumeTurnForAction crashes tenantId turnId actionId ;;; Ret tt.

(** The dispatch with the turn's credentials, nothing when the broker refuses. *)
Definition grantDispatch (identity : OwnerIdentity) (work : ComputerAction * Turn) (dispatch : OwnerDispatchRecord) : prog (option OwnerDispatch) :=
  let '(action, turn) := work in
  match Turn.promptAuthorId turn with
  | None => Ret None
  | Some userId =>
      catch
        (let! grant := issue_turn
           (BrokerBase.mk (Identity.tenantId identity) (Identity.computerId identity) (Identity.ownerId identity)
              (Identity.startGeneration identity) (Identity.token identity))
           (Turn.turnId turn, Turn.botId turn, Turn.channelId turn) in
         Ret (Some (OwnerDispatch.mk (DispatchRecord.dispatchId dispatch) (Turn.turnId turn) (Turn.botId turn) (Turn.channelId turn) userId
           (Action.actionId action) (toISOString <$> Turn.waitingSince turn) (toISOString (DispatchRecord.leaseExpiresAt dispatch))
           (DispatchRecord.attempt dispatch) grant)))
        (fun error => match error with OwnerCredentialBrokerError _ => Ret None | _ => Throw error end)
  end.

(** Whether the work is the one a dispatch is for. *)
Definition dispatched_work (d : OwnerDispatchRecord) (work : ComputerAction * Turn) : bool :=
  bool_decide (Turn.turnId work.2 = DispatchRecord.turnId d) && bool_decide (Action.actionId work.1 = DispatchRecord.actionId d).

Fixpoint offer_first (identity : OwnerIdentity) (current : option OwnerDispatchRecord) (now : Z) (candidates : list (ComputerAction * Turn)) :
    prog (option OwnerDispatch) :=
  match candidates with
  | [] => Ret None
  | work :: rest =>
      let! refusal := computerWorkPauseReason (Identity.tenantId identity) in
      match refusal with
      | Some reason =>
          denyOpenActionsOfTurn pages resume_for (Identity.tenantId identity) (Turn.turnId work.2) reason ;;;
          offer_first identity current now rest
      | None =>
          if decide (Turn.promptAuthorId work.2 = None) then offer_first identity current now rest
          else
            let! id := send NextId in
            let next := DispatchRecord.mk ("dispatch-" +:+ id) (Turn.turnId work.2) (Action.actionId work.1)
              (match current with
               | Some d => if decide (DispatchRecord.actionId d = Action.actionId work.1) then DispatchRecord.attempt d + 1 else 1
               | None => 1
               end)
              (epochSeconds now * 1000 + OWNER_DISPATCH_LEASE_SECONDS * 1000) in
            let! offered := grantDispatch identity work next in
            match offered with
            | None => Ret None
            | Some offered =>
                let! stored := offerOwnerDispatch (Identity.tenantId identity) (Identity.ownerId identity)
                  (DispatchRecord.dispatchId <$> current) next in
                Ret (if (stored : bool) then Some offered else None)
            end
      end
  end.

Definition chooseDispatch (identity : OwnerIdentity) (computer : Computer) : prog (option OwnerDispatch) :=
  let! now := send ClockNow in
  let current := dispatchOf computer in
  let! candidates := parkedWork pages (Identity.tenantId identity) in
  match (d ← current; work ← List.find (dispatched_work d) candidates; if now <? DispatchRecord.leaseExpiresAt d then Some (work, d) else None) with
  | Some (stillParked, d) => grantDispatch identity stillParked d
  | None => offer_first identity current now candidates
  end.

Definition settle_lost_actions (tenantId : string) : prog unit :=
  let! settled := expireLostComputerActions pages tenantId in
  for_each settled tt (fun _ a =>
    if decide (Action.status a = Done) then resume_for (Action.tenantId a) (Action.turnId a) (Action.actionId a) else Ret tt).

(** The computer after the owner's presence was recorded. *)
Definition record_presence (identity : OwnerIdentity) (request : OwnerPollRequest) (computer : Computer) (now : Z) : prog Computer :=
  match presenceChange computer request now with
  | None => Ret computer
  | Some presence =>
      updateOwnerPresence (Identity.tenantId identity) (Identity.ownerId identity) presence ;;;
      let! c := getComputer (Identity.tenantId identity) in
      Ret (default computer c)
  end.

(** The pace of the next poll, from the record before this one. *)
Definition poll_pace (request : OwnerPollRequest) (computer : Computer) (now : Z) : Z :=
  ownerFilePanelPace (PollRequest.state request)
    (ownerPollCadence (PollRequest.state request) (match Computer.idleSinceAt computer with Some m => now - m | None => 0 end))
    (Computer.interactiveUntilAt computer) now.

Definition may_dispatch (request : OwnerPollRequest) (computer : Computer) (drainReason : option string) : bool :=
  bool_decide (PollRequest.state request = "idle") && bool_decide (PollRequest.active_turns request = []) &&
  bool_decide (drainReason = None) && bool_decide (Computer.ownerStopApprovedAt computer = None).

Definition pollOwner (identity : OwnerIdentity) (request : OwnerPollRequest) : prog OwnerPollResponse :=
  let tenantId := Identity.tenantId identity in
  requireMatchingOwner identity (PollRequest.owner_id request) (PollRequest.generation request) ;;;
  let! now := send ClockNow in
  let! before := requireLiveComputer identity in
  let pace := poll_pace request before now in
  let! recorded := recordOwnerPoll tenantId (Identity.ownerId identity)
    (OwnerPoll.mk (PollRequest.sequence request) (PollRequest.state request) now pace) in
  if negb recorded then Throw (OwnerRefusal "stale_poll" "a newer poll of this owner was already recorded")
  else
    extendComputerRuntimeSegment tenantId (Identity.startGeneration identity) now ;;;
    let! live := requireLiveComputer identity in
    let! computer := record_presence identity request live now in
    settle_lost_actions tenantId ;;;
    let drainReason := ownerDrainReason computer now minimumProtocolVersion in
    let! offered :=
      if may_dispatch request computer drainReason && negb (ownerIssuanceClosed computer now)
      then chooseDispatch identity computer else Ret None in
    let! requests := deliverLiveFileRequests pages parse_request identity request computer in
    Ret (PollResponse.mk (match offered with Some d => [d] | None => [] end) requests (bool_decide (is_Some drainReason)) drainReason pace).

(** ** Credentials *)

Definition servedDispatchedTurn (identity : OwnerIdentity) (computer : Computer) (dispatch_id turn_id : string) (now : Z) :
    prog (option (string * string)) :=
  if decide (Computer.dispatchId computer = Some dispatch_id /\ Computer.dispatchTurnId computer = Some turn_id) then
    let! turn := getTurn (Identity.tenantId identity) turn_id in
    Ret (match turn with
         | Some t =>
             if bool_decide (Turn.status t = Active) && bool_decide (Turn.claimedBy t = Some (Identity.ownerId identity)) &&
                match Turn.leaseExpiresAt t with Some l => now <? l | None => false end
             then Some (Turn.botId t, Turn.channelId t) else None
         | None => None
         end)
  else Ret None.

Definition grantRenewal (identity : OwnerIdentity) (kind : credentials_kind) (served : string * string) (seenRenewedAt : option Z) (now : Z) :
    prog (OwnerCredentialsResponse * OwnerCredentialsRenewal) :=
  let base := BrokerBase.mk (Identity.tenantId identity) (Identity.computerId identity) (Identity.ownerId identity)
    (Identity.startGeneration identity) (Identity.token identity) in
  match kind with
  | kind_supervisor =>
      let! grant := issue_supervisor purpose_supervisor_renewal base in
      Ret (supervisor_response grant, supervisor_renewal seenRenewedAt now (supervisor_grant_ends grant))
  | kind_turn dispatch_id turn_id =>
      let! grant := issue_turn base (turn_id, served.1, served.2) in
      Ret (turn_response dispatch_id turn_id grant, turn_renewal dispatch_id seenRenewedAt now)
  end.

Definition refuse_owner {A : Type} (code detail : string) : prog A := Throw (OwnerRefusal code detail).
Definition served_by (identity : OwnerIdentity) (c : Computer) : bool :=
  bool_decide (Computer.ownerId c = Some (Identity.ownerId identity)) &&
  bool_decide (Computer.ownerGeneration c = Some (Identity.startGeneration identity)).

Definition renewOwnerCredentials (identity : OwnerIdentity) (request : OwnerCredentialsRequest) : prog OwnerCredentialsResponse :=
  let tenantId := Identity.tenantId identity in
  let kind := request_kind request in
  if decide (request_owner_id request = Identity.ownerId identity /\ request_generation request = Identity.startGeneration identity) then
    let! now := send ClockNow in
    let! found := getComputer tenantId in
    match (c ← found; if served_by identity c then Some c else None) with
    | None => Throw refusal_of_owner
    | Some computer =>
        if decide (Computer.ownerStopApprovedAt computer <> None) then refuse_owner "owner_stopping" "a stop of this owner was approved"
        else if ownerIssuanceClosed computer now then refuse_owner "owner_draining" "the owner is in the last stretch of its lifetime"
        else
          let! served :=
            match kind with
            | kind_supervisor =>
                if decide (ownerDrainReason computer now minimumProtocolVersion <> None)
                then refuse_owner "owner_draining" "the control plane is draining this owner"
                else Ret (EmptyString, EmptyString)
            | kind_turn dispatch_id turn_id =>
                let! served := servedDispatchedTurn identity computer dispatch_id turn_id now in
                match served with
                | Some s => Ret s
                | None => refuse_owner "turn_not_served" "the dispatch or the turn is not the one this owner serves"
                end
            end in
          let seenRenewedAt :=
            match kind with
            | kind_supervisor => Computer.ownerCredentialsRenewedAt computer
            | kind_turn _ _ => Computer.dispatchCredentialsRenewedAt computer
            end in
          if match seenRenewedAt with Some m => now - m <? OWNER_CREDENTIAL_RENEWAL_MINIMUM_INTERVAL_SECONDS * 1000 | None => false end
          then refuse_owner "renewal_too_soon" "this kind of credentials was renewed less than a minute ago"
          else
            let! granted := catch (grantRenewal identity kind served seenRenewedAt now)
              (fun error => match error with
               | OwnerCredentialBrokerError code =>
                   if decide (code = "owner_lifetime_over")
                   then refuse_owner "owner_draining" "the owner is in the last stretch of its lifetime"
                   else refuse_owner "credentials_unavailable" "owner credentials are unavailable"
               | _ => Throw error
               end) in
            let! renewed := renewOwnerCredentials_store tenantId (Identity.ownerId identity) (Identity.startGeneration identity) granted.2 in
            if (renewed : bool) then Ret granted.1
            else
              let! found := getComputer tenantId in
              match (c ← found; if served_by identity c then Some c else None) with
              | None => Throw refusal_of_owner
              | Some after =>
                  if decide (Computer.ownerStopApprovedAt after <> None) then refuse_owner "owner_stopping" "a stop of this owner was approved"
                  else if match kind with kind_turn d _ => negb (bool_decide (Computer.dispatchId after = Some d)) | kind_supervisor => false end
                  then refuse_owner "turn_not_served" "the dispatch or the turn is not the one this owner serves"
                  else refuse_owner "renewal_too_soon" "this kind of credentials was renewed less than a minute ago"
              end
    end
  else refuse_owner "credential_mismatch" "request does not match the owner credential".

(** ** Stopping *)

Definition stopVeto (identity : OwnerIdentity) (computer : Computer) (request : OwnerStopRequest) (now : Z) : prog (option string) :=
  let reason := StopRequest.reason request in
  if decide (reason = "unhealthy" \/ reason = "credentials") then Ret None
  else if decide (reason = "lifetime") then
    Ret (if decide (ownerDrainReason computer now minimumProtocolVersion = None) then Some "not_draining" else None)
  else
    let! pending := parkedWork pages (Identity.tenantId identity) in
    match pending with
    | _ :: _ =>
        Ret (Some (if existsb (fun work =>
                     bool_decide (Some (Turn.turnId work.2) = Computer.dispatchTurnId computer) &&
                     bool_decide (Some (Action.actionId work.1) = Computer.dispatchActionId computer) &&
                     still_open (Computer.dispatchLeaseExpiresAt computer) now) pending
                   then "dispatch_pending" else "work_pending"))
    | [] =>
        let! open := countOpenLiveFileOperations pages (Identity.tenantId identity) now in
        if 0 <? open then Ret (Some "file_operation_pending")
        else if negb (bool_decide (StopRequest.active_turns request = [])) then Ret (Some "turn_active")
        else
          match Computer.dispatchTurnId computer with
          | None => Ret None
          | Some turnId =>
              let! turn := getTurn (Identity.tenantId identity) turnId in
              Ret (match turn with
                   | Some t =>
                       if bool_decide (Turn.status t = Active) && bool_decide (Turn.claimedBy t = Some (Identity.ownerId identity)) &&
                          still_open (Turn.leaseExpiresAt t) now then Some "turn_active" else None
                   | None => None
                   end)
          end
    end.

Fixpoint judge_stop (attempts : nat) (identity : OwnerIdentity) (request : OwnerStopRequest) : prog OwnerStopResponse :=
  match attempts with
  | O => Ret (stop_vetoed "dispatch_pending")
  | S attempts' =>
      let! now := send ClockNow in
      let! computer := requireLiveComputer identity in
      let! veto := stopVeto identity computer request now in
      match veto with
      | Some reason => Ret (stop_vetoed reason)
      | None =>
          let! approved := approveOwnerStop (Identity.tenantId identity) (Identity.ownerId identity) (Computer.dispatchId computer)
            (Computer.fileOperationId computer) now in
          if (approved : bool) then Ret stop_approved_response else judge_stop attempts' identity request
      end
  end.

Definition judgeOwnerStop (identity : OwnerIdentity) (request : OwnerStopRequest) : prog OwnerStopResponse :=
  requireMatchingOwner identity (StopRequest.owner_id request) (StopRequest.generation request) ;;;
  judge_stop STOP_JUDGMENT_ATTEMPTS identity request.

Definition recordOwnerFileResult (identity : OwnerIdentity) (owner_id : string) (generation : Z) (operation_id : string) (outcome : json) :
    prog unit :=
  requireMatchingOwner identity owner_id generation ;;;
  let! decision := recordLiveFileResult identity operation_id outcome in
  match decision with
  | result_recorded => Ret tt
  | result_closed => refuse_owner "operation_closed" "the file request is not open for this owner"
  | result_kind_mismatch => refuse_owner "invalid_request" "the result is not the kind of the request"
  end.
End routes.
