(* ===== verification/OwnerPrograms.v ===== *)
(** * The programs around a computer, as the record sees them

    Every program of Workers.v, ComputerDomain.v, ComputerStart.v, FileRequests.v and OwnerSupervisor.v writes the computer
    record of its organization only by the commands of ComputerSpec.v ([keeps_computer]): each request it makes leaves the
    record alone or is one of the changes ([computer_request]). *)

From S2P Require Import Prelude Json Types Computers Service Retry Paging TurnCodec TurnStore TurnSpec TurnPrograms Turns Actions ActionSystem Probes.
From S2P Require Import ComputerStore ComputerSpec ComputerSystem Footprint ComputerPrograms Workers ComputerDomain ComputerStart.
From S2P Require Import FileAudits FileRequests OwnerSupervisor.
#[local] Open Scope Z_scope.
#[local] Open Scope prog_scope.

(** ** Requests *)

Section requests.
Context (t : string).

Definition computer_ops (ops : list txop) : Prop :=
  Forall (fun o => txop_key o <> Some (computerRecordKey t)) ops \/
  exists x rest, ops = TUpdate (computerRecordKey t) (updates (change_of x)) (condition (change_of x)) :: rest /\
    Forall (fun o => txop_key o <> Some (computerRecordKey t)) rest.

Definition computer_request (R : Type) (r : request R) : Prop :=
  match r with
  | UpdateItem k xs c => k <> computerRecordKey t \/
      exists x, k = computerRecordKey t /\ xs = updates (change_of x) /\ c = condition (change_of x)
  | PutItem it c => item_key it <> Some (computerRecordKey t) \/
      exists i, t <> "" /\ i <> "" /\ it = encodeComputer (newComputerRecord t i) /\ c = AttrNotExists "pk"
  | DeleteItem k _ => k <> computerRecordKey t
  | TransactWrite ops => computer_ops ops
  | _ => True
  end.

(** Identifiers that are handed out are not empty. *)
Definition named_answer (R : Type) (r : request R) : exn + R -> Prop :=
  match r in request R return exn + R -> Prop with NextId => fun x => x <> Ok "" | _ => fun _ => True end.

Lemma writes_elsewhere (ops : list txop) (m : gmap key item) :
  Forall (fun o => txop_key o <> Some (computerRecordKey t)) ops ->
  foldl txop_write m ops !! computerRecordKey t = m !! computerRecordKey t.
Proof using Type.
  revert m. induction ops as [|o ops IH]; intros m; [done|]. intros [Ho Hops]%Forall_cons. cbn [foldl]. rewrite IH by done.
  destruct o as [k xs c|it c|k c]; cbn in *; [by rewrite lookup_insert_ne by congruence| |done].
  destruct (item_key it); [by rewrite lookup_insert_ne by congruence|done].
Qed.

Lemma computer_request_steps R (r : request R) w x w' :
  computer_request R r -> computer_ok t w -> contract r w x w' -> rtc (computer_sys t) w w'.
Proof using Type.
  intros Hr Hok Hc. destruct x as [e|v]; [by destruct Hc as [-> _]|]. apply rtc_once. destruct r; cbn [computer_request contract answered] in *; try (by destruct Hc as [_ ->]; apply computer_frame); try (subst; by apply computer_frame).
  - destruct Hc as (Hc & -> & ->). destruct Hr as [Hne|(x & -> & -> & ->)]; [by apply computer_frame, lookup_insert_ne|].
    destruct (computer_write t _ _ Hok Hc) as (it & c' & Hit & _ & _ & _ & _ & _ & Hsys). rewrite Hit. cbn [base_item default from_option id].
    by apply Hsys, lookup_insert_eq.
  - destruct Hc as (k & Hk & Hc & ->). destruct Hr as [Hne|(i & Ht & Hi & -> & ->)]; [apply computer_frame, lookup_insert_ne; congruence|].
    rewrite new_record_key in Hk. injection Hk as <-.
    unfold computer_sys. cbn [tbl with_tbl]. rewrite lookup_insert_eq. by apply (record_made t).
  - destruct Hc as [_ ->]. by apply computer_frame, lookup_delete_ne.
  - destruct Hc as (_ & Hops & ->). destruct Hr as [Hr|(x & rest & -> & Hrest)]; [by apply computer_frame, writes_elsewhere|].
    apply Forall_cons in Hops as [Hc _]. unfold txop_holds in Hc. cbn [txop_key txop_cond] in Hc.
    destruct (computer_write t _ _ Hok Hc) as (it & c' & Hit & _ & _ & _ & _ & _ & Hsys).
    apply Hsys. cbn [tbl with_tbl foldl txop_write]. rewrite writes_elsewhere by done. rewrite Hit. apply lookup_insert_eq.
Qed.
End requests.

(** The program writes the computer record only by its commands. *)
Abbreviation keeps_computer t p := (asks (computer_request t) named_answer p).

(** ** Keys of other items *)

Fixpoint contains (p s : string) : bool :=
  starts_with p s || match s with EmptyString => false | String _ s' => contains p s' end.

Lemma contains_app p a b : contains p (a +:+ p +:+ b) = true.
Proof.
  induction a as [|c a IH]; rewrite ?string_app_nil, ?string_app_cons.
  - destruct (p +:+ b) eqn:Hp; cbn [contains]; rewrite <- Hp, starts_with_app; done.
  - cbn [contains]. rewrite IH. apply orb_true_r.
Qed.

Lemma contains_plain a p s : plain a -> contains (String (Ascii.ascii_of_nat 35) p) (a +:+ s) = contains (String (Ascii.ascii_of_nat 35) p) s.
Proof.
  unfold plain. induction a as [|c a IH]; rewrite ?string_app_nil, ?string_app_cons; [done|]. cbn [string_has].
  intros [Hc Ha]%orb_false_iff. cbn [contains starts_with]. rewrite Hc, IH by done. done.
Qed.

(** No turn has its items where a computer has its record. *)
Lemma metaKey_not_computer t t' u : plain t -> metaKey t' u <> computerRecordKey t.
Proof.
  intros Ht Heq%(f_equal fst). cbn [fst metaKey computerRecordKey] in Heq. unfold turnItemPartitionKey in Heq.
  pose proof (contains_app "#turn#" t' u) as Hc. rewrite Heq in Hc. change "#turn#" with (String (Ascii.ascii_of_nat 35) "turn#") in Hc.
  by rewrite contains_plain in Hc.
Qed.

(** ** Programs *)

Section programs.
Context `{Collation} (t : string) (Ht : plain t) (Hne : t <> "").

Lemma other_sort_key (k : key) : k.2 <> "meta" -> k <> computerRecordKey t.
Proof using Type. intros Hk ->. done. Qed.

Lemma may_update k xs c : k.2 <> "meta" -> computer_request t _ (UpdateItem k xs c).
Proof using Type. left. by apply other_sort_key. Qed.
Lemma may_update_turn t' u xs c : computer_request t _ (UpdateItem (metaKey t' u) xs c).
Proof using Ht. left. by apply metaKey_not_computer. Qed.
Lemma may_delete k c : k.2 <> "meta" -> computer_request t _ (DeleteItem k c).
Proof using Type. apply other_sort_key. Qed.
Lemma may_put it c k : item_key it = Some k -> k.2 <> "meta" -> computer_request t _ (PutItem it c).
Proof using Type. intros Hk Hm. left. rewrite Hk. intros [= ->]. done. Qed.
Lemma may_change x : computer_request t _ (UpdateItem (computerRecordKey t) (updates (change_of x)) (condition (change_of x))).
Proof using Type. right. by exists x. Qed.

(** One step through a program. *)
Ltac asks_step :=
  match goal with
  | |- computer_request _ _ (UpdateItem (metaKey _ _) _ _) => apply may_update_turn
  | |- computer_request _ _ (UpdateItem _ _ _) => apply may_update
  | |- computer_request _ _ (DeleteItem _ _) => apply may_delete
  | |- computer_request _ _ _ => exact I
  | |- _ <> _ => done
  | _ => asks_structure
  end.
Ltac solve_asks := repeat asks_step.

Lemma asks_getComputer t' : keeps_computer t (getComputer t').
Proof using Type. unfold getComputer, decode_computer. solve_asks. Qed.
Lemma asks_change x : keeps_computer t (updateComputerWhere t (change_of x)).
Proof using Type. unfold updateComputerWhere, decode_computer. apply asks_null_when, asks_with; [apply may_change|]. solve_asks. Qed.
Lemma asks_was_changed x : keeps_computer t (was_changed t (change_of x)).
Proof using Type. apply asks_bind; [apply asks_change|solve_asks]. Qed.
Lemma asks_apply_change x : keeps_computer t (apply_change t (change_of x)).
Proof using Type. apply asks_bind; [apply asks_null_when, asks_send, may_change|solve_asks]. Qed.
#[local] Hint Resolve asks_getComputer : asks.

Lemma asks_getWorker t' i : keeps_computer t (store_getWorker t' i).
Proof using Type. solve_asks. Qed.
Lemma asks_putWorker w : keeps_computer t (putWorker w).
Proof using Type.
  apply asks_send, (may_put _ _ (workerKey (Worker.tenantId w) (Worker.workerId w))); [|done].
  unfold item_key, encodeWorker. by rewrite !lookup_put_if_ne by done.
Qed.
Lemma asks_listWorkers pages t' : keeps_computer t (store_listWorkers pages t').
Proof using Type. solve_asks. Qed.
Lemma asks_recordOwnerPoll t' i poll : keeps_computer t (recordOwnerPoll t' i poll).
Proof using Type. solve_asks. Qed.
Lemma asks_openSegment t' g o s : keeps_computer t (openComputerRuntimeSegment t' g o s).
Proof using Type. by apply asks_send, (may_put _ _ (computerRuntimeKey t' g)). Qed.
Lemma asks_extendSegment t' g s : keeps_computer t (extendComputerRuntimeSegment t' g s).
Proof using Type. solve_asks. Qed.
#[local] Hint Resolve asks_getWorker asks_putWorker asks_listWorkers asks_recordOwnerPoll asks_openSegment asks_extendSegment : asks.

(** *** Turns and actions *)

Lemma asks_getTurn t' u : keeps_computer t (getTurn t' u).
Proof using Type. unfold getTurn, decode_turn. solve_asks. Qed.
Lemma asks_resumeTurn t' u : keeps_computer t (resumeTurn t' u).
Proof using Ht. unfold resumeTurn, decode_turn. solve_asks. Qed.
Lemma asks_recordLogicalEnqueue t' u id : keeps_computer t (recordLogicalEnqueueOnTurn t' u id).
Proof using Ht. unfold recordLogicalEnqueueOnTurn. cbv zeta. solve_asks. Qed.
#[local] Hint Resolve asks_getTurn asks_resumeTurn asks_recordLogicalEnqueue : asks.

Lemma asks_requestLogicalEnqueue crashes job id : keeps_computer t (requestLogicalEnqueue crashes job id).
Proof using Ht. unfold requestLogicalEnqueue, recordLogicalEnqueue. solve_asks. Qed.
#[local] Hint Resolve asks_requestLogicalEnqueue : asks.
Lemma asks_resumeTurnForAction crashes t' u i : keeps_computer t (resumeTurnForAction crashes t' u i).
Proof using Ht. unfold resumeTurnForAction, clearWaiting. solve_asks. Qed.
Lemma asks_action_get t' i : keeps_computer t (action_get t' i).
Proof using Type. unfold action_get, read_action. solve_asks. Qed.
Lemma asks_action_update t' i xs c : keeps_computer t (action_update t' i xs c).
Proof using Type. unfold action_update, read_action. solve_asks. Qed.
Lemma asks_listOpen pages t' : keeps_computer t (listOpen pages t').
Proof using Type. solve_asks. Qed.
#[local] Hint Resolve asks_resumeTurnForAction asks_action_get asks_action_update asks_listOpen : asks.
Lemma asks_expireLost pages t' : keeps_computer t (expireLostComputerActions pages t').
Proof using Type. unfold expireLostComputerActions, action_release, action_complete. solve_asks. Qed.
Lemma asks_listForTurn pages t' u : keeps_computer t (listForTurn pages t' u).
Proof using Type.
  apply asks_bind; [|solve_asks]. generalize (@None key), (@nil ComputerAction). induction pages as [|pages IH]; intros start acc; cbn [turn_action_pages]; [apply asks_throw|].
  apply asks_bind; [solve_asks|]. intros page. apply asks_bind; [unfold indexed_actions; solve_asks|]. intros acc'. destruct page.2; [apply IH|apply asks_ret].
Qed.
Lemma asks_parkedWork pages t' : keeps_computer t (parkedWork pages t').
Proof using Type. unfold parkedWork. solve_asks. Qed.
#[local] Hint Resolve asks_expireLost asks_listForTurn asks_parkedWork : asks.

(** *** The routes of the owner *)

Context `{SpendPause} `{OwnerCredentialBroker} (crashes : string -> string -> bool) (pages : nat) (parse_request : json -> exn + json)
  (minimumProtocolVersion : Z).
(** What is relied on of the spend ceiling and the broker: they leave the record alone. *)
Context (Hspend : forall t', keeps_computer t (computerWorkPauseReason t')).
Context (Hsupervisor : forall p b, keeps_computer t (issue_supervisor p b)) (Hturn : forall b x, keeps_computer t (issue_turn b x)).
#[local] Hint Resolve Hspend Hsupervisor Hturn : asks.

Lemma asks_deny u reason : keeps_computer t (denyOpenActionsOfTurn pages (resume_for crashes) t u reason).
Proof using Ht. unfold denyOpenActionsOfTurn, answerComputerActionOnOwnAccount, action_complete, resume_for. solve_asks. Qed.
Lemma asks_settle_lost : keeps_computer t (settle_lost_actions crashes pages t).
Proof using Ht. unfold settle_lost_actions, resume_for. solve_asks. Qed.
Lemma asks_grantDispatch identity work d : keeps_computer t (grantDispatch identity work d).
Proof using Hturn. unfold grantDispatch. solve_asks. Qed.
#[local] Hint Resolve asks_deny asks_settle_lost asks_grantDispatch : asks.

Lemma asks_offerOwnerDispatch o e d : keeps_computer t (offerOwnerDispatch t o e d).
Proof using Type. apply (asks_was_changed (Offer o e d)). Qed.
Lemma asks_updateOwnerPresence o change : keeps_computer t (updateOwnerPresence t o change).
Proof using Type. unfold updateOwnerPresence. destruct (updates _); [apply asks_ret|apply (asks_was_changed (Presence_ o change))]. Qed.
Lemma asks_approve o d f at_ : keeps_computer t (approveOwnerStop t o d f at_).
Proof using Type. apply (asks_was_changed (ApproveStop o d f at_)). Qed.
Lemma asks_renew_store o g change : keeps_computer t (renewOwnerCredentials_store t o g change).
Proof using Type. apply (asks_was_changed (Renew o g change)). Qed.
Lemma asks_touch o g until : keeps_computer t (touchInteractiveWindow t o g until).
Proof using Type. apply (asks_was_changed (Touch o g until)). Qed.
Lemma asks_consume b : keeps_computer t (consumeOwnerBootstrap t b).
Proof using Type. apply (asks_change (StartOwner b)). Qed.
#[local] Hint Resolve asks_offerOwnerDispatch asks_updateOwnerPresence asks_approve asks_renew_store asks_touch asks_consume : asks.

Lemma asks_offer_first identity current now candidates :
  Identity.tenantId identity = t -> keeps_computer t (offer_first crashes pages identity current now candidates).
Proof using Ht Hspend Hturn. intros Hi. induction candidates as [|work rest IH]; cbn [offer_first]; rewrite ?Hi; solve_asks; exact IH. Qed.
#[local] Hint Resolve asks_offer_first : asks.
Lemma asks_chooseDispatch identity computer :
  Identity.tenantId identity = t -> keeps_computer t (chooseDispatch crashes pages identity computer).
Proof using Ht Hspend Hturn. intros Hi. unfold chooseDispatch. cbv zeta. solve_asks. Qed.
Lemma asks_requireLiveComputer identity : keeps_computer t (requireLiveComputer identity).
Proof using Type. unfold requireLiveComputer. solve_asks. Qed.
Lemma asks_record_presence identity request computer now :
  Identity.tenantId identity = t -> keeps_computer t (record_presence identity request computer now).
Proof using Type. intros Hi. unfold record_presence. rewrite Hi. solve_asks. Qed.

Lemma asks_update_operation t' i change : keeps_computer t (update_operation t' i change).
Proof using Type. unfold update_operation. solve_asks. Qed.
Lemma asks_getFileOp t' i now : keeps_computer t (getLiveFileOperation t' i now).
Proof using Type. unfold getLiveFileOperation. solve_asks. Qed.
Lemma asks_deleteFileOp t' i : keeps_computer t (deleteLiveFileOperation t' i).
Proof using Type. unfold deleteLiveFileOperation. solve_asks. Qed.
#[local] Hint Resolve asks_chooseDispatch asks_requireLiveComputer asks_record_presence asks_update_operation asks_getFileOp asks_deleteFileOp : asks.
Lemma asks_false_when p : keeps_computer t p -> keeps_computer t (false_when_condition_fails p).
Proof using Type. intros. unfold false_when_condition_fails. solve_asks. Qed.
#[local] Hint Resolve asks_false_when : asks.
Lemma asks_deliver t' i d : keeps_computer t (deliverLiveFileOperation t' i d).
Proof using Type. unfold deliverLiveFileOperation. apply asks_false_when. solve_asks. Qed.
Lemma asks_mark_waiter_gone t' i : keeps_computer t (markLiveFileOperationWaiterGone t' i).
Proof using Type. unfold markLiveFileOperationWaiterGone. apply asks_false_when. solve_asks. Qed.
Lemma asks_complete t' i o now : keeps_computer t (completeLiveFileOperation t' i o now).
Proof using Type. unfold completeLiveFileOperation. solve_asks. Qed.
Lemma asks_abandon t' i now : keeps_computer t (abandonLiveFileOperation t' i now).
Proof using Type. unfold abandonLiveFileOperation. solve_asks. Qed.
Lemma asks_listFileOps t' now : keeps_computer t (listLiveFileOperations pages t' now).
Proof using Type. unfold listLiveFileOperations. solve_asks. Qed.
Lemma asks_countFileOps t' now : keeps_computer t (countOpenLiveFileOperations pages t' now).
Proof using Type. unfold countOpenLiveFileOperations. solve_asks. Qed.
#[local] Hint Resolve asks_deliver asks_mark_waiter_gone asks_complete asks_abandon asks_listFileOps asks_countFileOps : asks.
Lemma asks_deliver_requests identity poll computer : keeps_computer t (deliverLiveFileRequests pages parse_request identity poll computer).
Proof using Type. unfold deliverLiveFileRequests. solve_asks. Qed.
#[local] Hint Resolve asks_deliver_requests : asks.

(** The whole poll. *)
Lemma asks_pollOwner identity request :
  Identity.tenantId identity = t -> keeps_computer t (pollOwner crashes pages parse_request minimumProtocolVersion identity request).
Proof using Ht Hspend Hturn. intros Hi. unfold pollOwner. cbv zeta. rewrite Hi. solve_asks. Qed.

(** The bootstrap exchange. *)
Lemma asks_exchange claims token request : keeps_computer t (exchangeOwnerBootstrap t claims token request).
Proof using Hsupervisor. unfold exchangeOwnerBootstrap. cbv zeta. solve_asks. Qed.

(** The renewal of credentials. *)
Lemma asks_served identity c d u now : keeps_computer t (servedDispatchedTurn identity c d u now).
Proof using Type. unfold servedDispatchedTurn. solve_asks. Qed.
Lemma asks_grantRenewal identity kind served seen now : keeps_computer t (grantRenewal identity kind served seen now).
Proof using Hsupervisor Hturn. unfold grantRenewal. cbv zeta. solve_asks. Qed.
#[local] Hint Resolve asks_served asks_grantRenewal : asks.
Lemma asks_renew identity request :
  Identity.tenantId identity = t -> keeps_computer t (renewOwnerCredentials minimumProtocolVersion identity request).
Proof using Hsupervisor Hturn.
  intros Hi. unfold renewOwnerCredentials, refuse_owner. cbv zeta. rewrite Hi. solve_asks.
Qed.

(** The judgement of a stop. *)
Lemma asks_stopVeto identity c request now :
  Identity.tenantId identity = t -> keeps_computer t (stopVeto pages minimumProtocolVersion identity c request now).
Proof using Type. intros Hi. unfold stopVeto. cbv zeta. rewrite Hi. solve_asks. Qed.
#[local] Hint Resolve asks_stopVeto : asks.
Lemma asks_judge_stop attempts identity request :
  Identity.tenantId identity = t -> keeps_computer t (judge_stop pages minimumProtocolVersion attempts identity request).
Proof using Type. intros Hi. induction attempts as [|n IH]; cbn [judge_stop]; [solve_asks|]. rewrite Hi. solve_asks. Qed.
Lemma asks_judgeOwnerStop identity request :
  Identity.tenantId identity = t -> keeps_computer t (judgeOwnerStop pages minimumProtocolVersion identity request).
Proof using Type. intros Hi. unfold judgeOwnerStop. apply asks_bind; [solve_asks|]. intros _. by apply asks_judge_stop. Qed.

(** *** Host starts *)

Lemma computerRecordKey_ne t' : t' <> t -> computerRecordKey t' <> computerRecordKey t.
Proof using Type. intros Hn Heq. apply Hn. injection Heq. apply string_app_inj_r. Qed.

Lemma asks_change_any t' x : keeps_computer t (updateComputerWhere t' (change_of x)).
Proof using Type.
  destruct (decide (t' = t)) as [->|Hn]; [apply asks_change|]. unfold updateComputerWhere, decode_computer. apply asks_null_when, asks_with; [|solve_asks].
  left. by apply computerRecordKey_ne.
Qed.

Lemma asks_create i : i <> "" -> keeps_computer t (createComputerIfAbsent (newComputerRecord t i)).
Proof using Hne.
  intros Hi. unfold createComputerIfAbsent. apply asks_catch; [|solve_asks]. apply asks_bind; [|solve_asks]. apply asks_send. right. by exists i.
Qed.

Lemma asks_ensureComputer : keeps_computer t (Workers.ensureComputer t None).
Proof using Hne.
  unfold Workers.ensureComputer. apply asks_bind; [apply asks_getComputer|]. intros [c|]; [apply asks_ret|].
  apply asks_with; [exact Logic.I|]. intros i Hi. apply asks_create. intros ->. by apply Hi.
Qed.
#[local] Hint Resolve asks_ensureComputer : asks.

Lemma asks_settleComputer heartbeat c : keeps_computer t (settleComputerIfHostLost pages heartbeat c).
Proof using Type.
  unfold settleComputerIfHostLost. destruct (_ && _); [apply asks_ret|]. apply asks_with; [exact Logic.I|]. intros now _.
  apply asks_bind; [apply asks_listWorkers|]. intros workers. destruct (existsb _ workers); [apply asks_ret|].
  apply (asks_change_any _ (SettleLost _ _ _)).
Qed.
#[local] Hint Resolve asks_settleComputer : asks.

Lemma asks_claim g lease : keeps_computer t (claimHostStartGeneration t g lease).
Proof using Type. apply (asks_change (ClaimGeneration g lease)). Qed.
#[local] Hint Resolve asks_claim : asks.

Lemma asks_host_start_round heartbeat u : keeps_computer t (host_start_round pages heartbeat t u).
Proof using Hne. unfold host_start_round. cbv zeta. solve_asks. Qed.
Lemma asks_host_start heartbeat rounds u : keeps_computer t (requestComputerHostStart pages heartbeat rounds t u).
Proof using Hne Hspend.
  unfold requestComputerHostStart, refuseIfComputerWorkPaused. case_decide; [apply asks_throw|]. apply asks_bind; [solve_asks|]. intros _.
  induction rounds as [|rounds IH]; cbn [host_start_loop]; [apply asks_throw|].
  apply asks_bind; [apply asks_host_start_round|]. intros [c|]; [apply asks_ret|exact IH].
Qed.
End programs.
