(* ===== verification/OwnerDemo.v ===== *)
(** * A concrete computer and its owner

    An organization whose host start is claimed, whose owner registered, exchanged its bootstrap token, polled and was
    allowed to stop, on the local service with nobody else about; the theorems of OwnerTheorems.v are applied to it. *)

From S2P Require Import Prelude Json Types Computers Service TurnCodec TurnStore Demo.
From S2P Require Import ComputerStore ComputerSpec ComputerSystem Footprint ComputerPrograms Workers ComputerDomain ComputerStart.
From S2P Require Import FileAudits FileRequests OwnerSupervisor OwnerPrograms.
#[local] Open Scope Z_scope.
#[local] Open Scope prog_scope.

(** No organization is over its ceiling, and the broker issues credentials that end at a fixed moment. *)
#[export] Instance no_pause : SpendPause := {| computerWorkPauseReason _ := Ret None |}.

Definition demo_aws : AwsCredentials := mkAws "AKIA" "secret" "session" 30000000.
#[export] Instance demo_broker : OwnerCredentialBroker := {|
  issue_supervisor _ _ := Ret (mkSupervisorGrant "supervisor" 30000000 demo_aws);
  issue_turn _ _ := Ret (mkTurnGrant "gateway" demo_aws 30000000) |}.

Definition never_crashes (site detail : string) : bool := false.
Definition any_request (body : json) : exn + json := Ok body.

(** The moments of the demonstration. *)
Definition demo_at (seconds : Z) : Local := mkLocal (1001000 + seconds * 1000) 0.

Definition demo_start : prog HostStartClaim := requestComputerHostStart 2 90 3 "acme" "ann".
Definition demo_computer_started : World := (run demo_start (demo_at 0) empty_world).2.

Definition demo_worker : Worker := Worker.mk "w1" "acme" "fargate" ["computer"] "hash" 1001000 (Some "id-0") None None None None.
Definition demo_registered : World := (run (putWorker demo_worker) (demo_at 0) demo_computer_started).2.

Definition demo_exchange (generation : Z) : prog OwnerBootstrapResponse :=
  exchangeOwnerBootstrap "acme" (Claims.mk "id-0" "w1" generation) "bootstrap" (BootstrapRequest.mk "w1" generation 3).
Definition demo_owned : World := (run (demo_exchange 1) (demo_at 1) demo_registered).2.

Definition demo_identity : OwnerIdentity := Identity.mk "acme" "id-0" "w1" 1 "supervisor".
Definition demo_poll (sequence : Z) : prog OwnerPollResponse :=
  pollOwner never_crashes 2 any_request 3 demo_identity (PollRequest.mk "w1" 1 3 sequence "idle" [] None).
Definition demo_polled : World := (run (demo_poll 1) (demo_at 2) demo_owned).2.

Definition demo_stop : prog OwnerStopResponse :=
  judgeOwnerStop 2 3 demo_identity (StopRequest.mk "w1" 1 "idle" []).
Definition demo_stopped : World := (run demo_stop (demo_at 3) demo_polled).2.

Definition demo_polled_again : World := (run (demo_poll 2) (demo_at 4) demo_stopped).2.

Definition demo_renew : prog OwnerCredentialsResponse :=
  renewOwnerCredentials 3 demo_identity (mkCredentialsRequest "w1" 1 kind_supervisor).

(** A minute later the start is claimed again, under the next generation. *)
Definition demo_started_again : World := (run demo_start (demo_at 70) demo_owned).2.

Definition demo_computer (w : World) : option Computer := tbl w !! computerRecordKey "acme" ≫= decodeComputer.

Lemma demo_runs :
  (run demo_start (demo_at 0) empty_world).1 = Ok (HostStartClaim.mk "acme" "id-0" 1 "ann" 1061000 true) /\
  (run (demo_exchange 1) (demo_at 1) demo_registered).1 = Ok (mkBootstrapResponse "id-0" (mkSupervisorGrant "supervisor" 30000000 demo_aws)) /\
  (run (demo_poll 1) (demo_at 2) demo_owned).1 = Ok (PollResponse.mk [] [] false None 1000) /\
  (run demo_stop (demo_at 3) demo_polled).1 = Ok stop_approved_response /\
  (run (demo_poll 2) (demo_at 4) demo_stopped).1 = Ok (PollResponse.mk [] [] false None 1000) /\
  (run demo_start (demo_at 70) demo_owned).1 = Ok (HostStartClaim.mk "acme" "id-0" 2 "ann" 1131000 true) /\
  (run (demo_exchange 2) (demo_at 71) demo_started_again).1 = Ok (mkBootstrapResponse "id-0" (mkSupervisorGrant "supervisor" 30000000 demo_aws)).
Proof. vm_compute. split_and!; reflexivity. Qed.

(** What the demonstration reads of a record: its owner, the owner's generation, and whether a stop was approved. *)
Definition demo_view (w : World) : option (option string * option Z * bool) :=
  (fun c => (Computer.ownerId c, Computer.ownerGeneration c, bool_decide (is_Some (Computer.ownerStopApprovedAt c)))) <$> demo_computer w.

Lemma demo_views :
  demo_view demo_owned = Some (Some "w1", Some 1, false) /\ demo_view demo_polled = Some (Some "w1", Some 1, false) /\
  demo_view demo_stopped = Some (Some "w1", Some 1, true) /\
  demo_view demo_polled_again = Some (Some "w1", Some 1, true).
Proof. vm_compute. split_and!; reflexivity. Qed.

Lemma demo_viewed w o g b :
  demo_view w = Some (o, g, b) ->
  exists it c, tbl w !! computerRecordKey "acme" = Some it /\ decodeComputer it = Some c /\ Computer.ownerId c = o /\
    Computer.ownerGeneration c = g /\ bool_decide (is_Some (Computer.ownerStopApprovedAt c)) = b.
Proof.
  unfold demo_view, demo_computer. intros (c & (it & Hit & Hc)%bind_Some & [= -> -> ->])%fmap_Some. by exists it, c.
Qed.

Lemma demo_polls_again :
  exec (H:=local_service) alone (demo_poll 2) demo_stopped (Ok (PollResponse.mk [] [] false None 1000)) demo_polled_again.
Proof. exact (run_exec_to (demo_poll 2) (demo_at 4) demo_stopped _ (proj1 (proj2 (proj2 (proj2 (proj2 demo_runs)))))). Qed.

Lemma demo_polls :
  exec (H:=local_service) alone (demo_poll 1) demo_owned (Ok (PollResponse.mk [] [] false None 1000)) demo_polled.
Proof. exact (run_exec_to (demo_poll 1) (demo_at 2) demo_owned _ (proj1 (proj2 (proj2 demo_runs)))). Qed.
