(* ===== verification/OwnerTheorems.v ===== *)
(** * What the owner of a computer is promised

    The record of a computer is well formed whatever runs, every route of the owner moves it only along the machine of
    ComputerSpec.v, a bootstrap token is exchanged once, a host start is claimed once per generation, an owner whose stop was
    approved is handed nothing more, a stop is approved only when nothing was offered since it was judged, and an answer to a
    poll keeps to the protocol. *)

From S2P Require Import Prelude Json Types Computers Service TurnCodec TurnStore TurnPrograms Turns Actions ActionSystem ActionPrograms Probes.
From S2P Require Import ComputerStore ComputerSpec ComputerSystem Footprint ComputerPrograms Workers ComputerDomain ComputerStart.
From S2P Require Import FileAudits FileRequests OwnerSupervisor OwnerPrograms Demo OwnerDemo.
#[local] Open Scope Z_scope.
#[local] Open Scope prog_scope.

Section theorems.
Context `{Collation} `{Service} `{SpendPause} `{OwnerCredentialBroker} (I : World -> World -> Prop) (t : string).
Context (crashes : string -> string -> bool) (pages : nat) (parse_request : json -> exn + json) (minimumProtocolVersion : Z).

(** What a theorem relies on: other processes touch the record of organization [t] only by its commands, a tenant holds no
    separator, identifiers that are handed out are not empty, and the spend ceiling and the broker leave the record alone. *)
Record surroundings : Prop := {
  sur_others : forall w w', I w w' -> computer_sys t w w';
  sur_tenant : plain t /\ t <> "";
  sur_ids : forall w id w', respond NextId w (Ok id) w' -> id <> "";
  sur_spend : forall t', keeps_computer t (computerWorkPauseReason t');
  sur_supervisor : forall p b, keeps_computer t (issue_supervisor p b);
  sur_turn : forall b x, keeps_computer t (issue_turn b x);
}.

Context (S : surroundings).

Lemma named_answers (R : Type) (r : request R) w x w' : respond r w x w' -> named_answer R r x.
Proof using S. destruct r; cbn; try done. destruct x as [e|id]; [done|]. intros Hr [= ->]. by apply (sur_ids S) in Hr. Qed.

(** A program that keeps the computer moves its record along the machine. *)
Lemma keeps_exec {A : Type} (p : prog A) w o w' :
  keeps_computer t p -> computer_ok t w -> exec I p w o w' -> rtc (computer_sys t) w w'.
Proof using S.
  intros Hp Hok Hex. refine (asks_exec I (computer_sys t) (computer_ok t) _ _ (sur_others S) _ _ named_answers p w o w' Hp Hok Hex).
  - intros. by eapply computer_sys_ok.
  - intros. by eapply computer_request_steps.
Qed.

Lemma keeps_ok {A : Type} (p : prog A) w o w' : keeps_computer t p -> computer_ok t w -> exec I p w o w' -> computer_ok t w'.
Proof using S. intros Hp Hok Hex. eapply computer_syses_ok; [by eapply keeps_exec|done]. Qed.

(** A step of a program that keeps the computer, before the rest of it. *)
Lemma route_bind {A B : Type} (p : prog A) (f : A -> prog B) w b w' :
  keeps_computer t p -> computer_ok t w -> exec I (bind p f) w (Ok b) w' ->
  exists a w1, rtc (computer_sys t) w w1 /\ computer_ok t w1 /\ exec I p w (Ok a) w1 /\ exec I (f a) w1 (Ok b) w'.
Proof using S.
  intros Hp Hok [(a & w1 & Ha & Hb)|(e & [=] & _)]%exec_bind. exists a, w1.
  split_and!; [by eapply keeps_exec|by eapply keeps_ok|done|done].
Qed.

(** ** The record *)

(** The record of an organization computer is well formed whatever the processes of the program do to it: a record that is
    read back decodes, belongs to its organization, and satisfies the invariant of the owner machine (an owner is that of the
    current generation, a computer nobody owns holds nothing of an owner, a dispatch has all its fields). *)
Theorem computer_record_well_formed w w' it :
  tbl w !! computerRecordKey t = None -> rtc (computer_sys t) w w' -> tbl w' !! computerRecordKey t = Some it ->
  exists c, decodeComputer it = Some c /\ Computer.tenantId c = t /\ computer_inv c.
Proof using Type.
  intros Hn Hs Hit. destruct (computer_syses_ok t w w' Hs (or_introl Hn)) as [Hn'|(c & (it' & Hit' & Hc & _) & Hi & Htc)]; [congruence|].
  assert (it' = it) as -> by congruence. by exists c.
Qed.

(** The routes of an owner of organization [t]. *)
Inductive owner_route : forall {A : Type}, prog A -> Prop :=
| route_bootstrap claims token request : owner_route (exchangeOwnerBootstrap t claims token request)
| route_poll identity request : Identity.tenantId identity = t ->
    owner_route (pollOwner crashes pages parse_request minimumProtocolVersion identity request)
| route_credentials identity request : Identity.tenantId identity = t ->
    owner_route (renewOwnerCredentials minimumProtocolVersion identity request)
| route_stop identity request : Identity.tenantId identity = t ->
    owner_route (judgeOwnerStop pages minimumProtocolVersion identity request).

Lemma owner_route_keeps {A : Type} (p : prog A) : owner_route p -> keeps_computer t p.
Proof using S.
  destruct (sur_tenant S) as [Ht _].
  destruct 1; [apply asks_exchange|apply asks_pollOwner|apply asks_renew|apply asks_judgeOwnerStop]; auto using sur_spend, sur_supervisor, sur_turn.
Qed.

(** C30: Each route of an owner (bootstrap exchange, poll, renewal, judgement of a stop), with every store call, crash point and
    broker failure in it and any other process between its calls, moves the record of the computer only along the steps of the
    owner machine, and keeps its invariant. *)
Theorem owner_routes_refine_machine {A : Type} (p : prog A) w o w' c :
  owner_route p -> computer_ok t w -> computer_at t w c -> exec I p w o w' ->
  exists c', computer_at t w' c' /\ rtc owner_step c c' /\ computer_inv c' /\ Computer.tenantId c' = t.
Proof using S.
  intros Hp Hok Hc Hex. apply owner_route_keeps in Hp.
  destruct (computer_syses_at t w w' c (keeps_exec p w o w' Hp Hok Hex) Hc) as (c' & Hc' & Hsteps). exists c'.
  split; [done|]. split; [done|]. apply (computer_ok_at t w'); [by eapply keeps_ok|done].
Qed.

(** ** The bootstrap exchange *)

Lemma consume_exec b w c w' :
  computer_ok t w -> exec I (consumeOwnerBootstrap t b) w (Ok (Some c)) w' -> exists c0, made t (StartOwner b) w c0 c w'.
Proof using S. intros Hok Hex. by apply (change_exec I t (sur_others S) (StartOwner b)) in Hex as [_ Hm]. Qed.

Lemma exchange_exec claims token request w r w' :
  computer_ok t w -> exec I (exchangeOwnerBootstrap t claims token request) w (Ok r) w' ->
  exists b c, Bootstrap.ownerId b = Claims.ownerId claims /\ Bootstrap.generation b = Claims.startGeneration claims /\
    made t (StartOwner b) w c (effect (StartOwner b) c) w'.
Proof using S.
  intros Hok. unfold exchangeOwnerBootstrap. cbv zeta. case_decide; [|by intros [[=] _]].
  intros (found & w1 & Hs1 & Hok1 & _ & Hex)%route_bind; [|apply asks_getComputer|done].
  destruct (_ ≫= _) as [computer|]; [|by destruct Hex].
  apply route_bind in Hex as (registered & w2 & Hs2 & Hok2 & _ & Hex); [|apply asks_getWorker|done].
  destruct (_ ≫= _) as [worker|]; [|by destruct Hex].
  apply route_bind in Hex as (grant & w3 & Hs3 & Hok3 & _ & Hex);
    [|apply asks_catch; [apply (sur_supervisor S)|by intros []]|done].
  apply route_bind in Hex as (now & w4 & Hs4 & Hok4 & _ & Hex); [|by apply asks_send|done].
  apply route_bind in Hex as (consumed & w5 & _ & Hok5 & Hcons & Hex); [|apply asks_consume|done].
  destruct consumed as [c|]; [|by destruct Hex]. apply consume_exec in Hcons as [c0 Hm]; [|done].
  assert (rtc (computer_sys t) w5 w') as Hs5.
  { eapply keeps_exec; [|done|exact Hex]. apply asks_bind; [apply asks_openSegment|]. intros _.
    apply asks_bind; [apply asks_putWorker|]. intros _. apply asks_ret. }
  eexists _, c0. split_and!; [..|eapply (made_later t _ _ _ _ w5); [|done]; rewrite <- (made_effect _ _ _ _ _ _ Hm)]; [done|done|].
  eapply made_earlier; [|exact Hm]. trans w1; [done|]. trans w2; [done|]. by trans w3.
Qed.

(** The generation of an owner that started is never that of a later start. *)
Lemma started_once b b' w c w1 w2 c' w3 :
  made t (StartOwner b) w c (effect (StartOwner b) c) w1 -> rtc (computer_sys t) w1 w2 ->
  made t (StartOwner b') w2 c' (effect (StartOwner b') c') w3 -> Bootstrap.generation b < Bootstrap.generation b'.
Proof using Type.
  intros (wa & wb & _ & _ & _ & _ & _ & Hb & Hb1) Hs (wd & we & Hd2 & Hd & [_ Hlt] & _).
  assert (rtc (computer_sys t) wb wd) as Hsteps by (trans w1; [done|by trans w2]).
  destruct (computer_syses_at t _ _ _ Hsteps Hb) as (c2 & Hc2 & Hc). rewrite (computer_at_inj _ _ _ _ Hd Hc2) in *.
  apply steps_owner_generation in Hc. cbn in Hc. destruct (Computer.ownerGeneration c') as [n|] eqn:Hn; [|done].
  cbn in Hc. specialize (Hlt n eq_refl). lia.
Qed.

(** C29: A bootstrap credential is exchanged at most once: after an exchange that succeeded, every later exchange that succeeds
    is for a greater host start generation. *)
Theorem bootstrap_token_exchanged_once claims token request claims' token' request' w r w1 w2 r' w3 :
  computer_ok t w -> exec I (exchangeOwnerBootstrap t claims token request) w (Ok r) w1 -> rtc (computer_sys t) w1 w2 ->
  exec I (exchangeOwnerBootstrap t claims' token' request') w2 (Ok r') w3 ->
  Claims.startGeneration claims < Claims.startGeneration claims'.
Proof using S.
  intros Hok Hex Hs Hex'. assert (computer_ok t w1) as Hok1 by (eapply keeps_ok; [apply (asks_exchange t); apply (sur_supervisor S)|done..]).
  assert (computer_ok t w2) as Hok2 by by eapply computer_syses_ok.
  apply exchange_exec in Hex as (b & c & _ & <- & Hm); [|done]. apply exchange_exec in Hex' as (b' & c' & _ & <- & Hm'); [|done].
  by eapply started_once.
Qed.

(** ** The poll *)

(** What was read of the computer at one moment of a program. *)
Definition read_at (w : World) (c : Computer) (w' : World) : Prop :=
  exists w1, rtc (computer_sys t) w w1 /\ computer_at t w1 c /\ rtc (computer_sys t) w1 w'.

Lemma read_at_earlier w0 w c w' : rtc (computer_sys t) w0 w -> read_at w c w' -> read_at w0 c w'.
Proof using Type. intros Hw (w1 & ? & ? & ?). exists w1. split_and!; try done. by trans w. Qed.
Lemma read_at_later w c w1 w' : read_at w c w1 -> rtc (computer_sys t) w1 w' -> read_at w c w'.
Proof using Type. intros (w2 & ? & ? & ?) Hw. exists w2. split_and!; try done. by trans w1. Qed.

Lemma get_read_at w c w' : computer_ok t w -> exec I (getComputer t) w (Ok (Some c)) w' -> read_at w c w'.
Proof using S.
  intros Hok [_ (w1 & Hw1 & Hc & Hw')]%(getComputer_exec I t (sur_others S)); [|done]. exists w1.
  split_and!; [by apply (computer_others I t (sur_others S))|done|by apply (computer_others I t (sur_others S))].
Qed.

Lemma live_read_at identity w c w' :
  Identity.tenantId identity = t -> computer_ok t w -> exec I (requireLiveComputer identity) w (Ok c) w' ->
  read_at w c w' /\ Computer.ownerId c = Some (Identity.ownerId identity).
Proof using S.
  intros Hi Hok. unfold requireLiveComputer. rewrite Hi. intros (x & w1 & _ & _ & Hx & Hex)%route_bind; [|apply asks_getComputer|done].
  destruct x as [c'|]; [|by destruct Hex]. case_decide; [|by destruct Hex]. destruct Hex as [[= ->] Hw'].
  split; [|done]. eapply read_at_later; [by apply get_read_at|]. by apply (computer_others I t (sur_others S)).
Qed.

Lemma presence_read_at identity request c now w c' w0 w' :
  Identity.tenantId identity = t -> computer_ok t w -> read_at w0 c w -> exec I (record_presence identity request c now) w (Ok c') w' ->
  read_at w0 c' w'.
Proof using S.
  intros Hi Hok Hr. unfold record_presence. destruct (presenceChange c request now) as [presence|].
  2:{ intros [[= ->] Hw]. eapply read_at_later; [done|]. by apply (computer_others I t (sur_others S)). }
  rewrite Hi. intros (b & w1 & Hs & Hok1 & _ & Hex)%route_bind; [|apply asks_updateOwnerPresence|done].
  apply route_bind in Hex as (x & w2 & Hs2 & _ & Hx & [[= ->] Hw']); [|apply asks_getComputer|done].
  apply (computer_others I t (sur_others S)) in Hw'. destruct x as [c2|]; cbn.
  - apply get_read_at in Hx; [|done]. eapply read_at_later; [|done]. eapply read_at_earlier; [|done].
    destruct Hr as (w3 & ? & _ & ?). trans w3; [done|]. by trans w.
  - eapply read_at_later; [done|]. trans w1; [done|]. by trans w2.
Qed.

(** A poll that was answered, taken apart. *)
Record polled (identity : OwnerIdentity) (request : OwnerPollRequest) (w : World) (r : OwnerPollResponse) (w' : World)
    (before computer : Computer) (now : Z) (offered : option OwnerDispatch) (w1 w2 : World) : Prop := {
  pl_read : read_at w computer w1;
  pl_ok : computer_ok t w1;
  pl_dispatch : exec I
    (if may_dispatch request computer (ownerDrainReason computer now minimumProtocolVersion) && negb (ownerIssuanceClosed computer now)
     then chooseDispatch crashes pages identity computer else Ret None) w1 (Ok offered) w2;
  pl_files : exists w3, exec I (deliverLiveFileRequests pages parse_request identity request computer) w2 (Ok (PollResponse.file_requests r)) w3;
  pl_steps : rtc (computer_sys t) w2 w';
  pl_answer : r = PollResponse.mk (match offered with Some d => [d] | None => [] end) (PollResponse.file_requests r)
    (bool_decide (is_Some (ownerDrainReason computer now minimumProtocolVersion))) (ownerDrainReason computer now minimumProtocolVersion)
    (poll_pace request before now);
}.

Lemma poll_exec identity request w r w' :
  Identity.tenantId identity = t -> computer_ok t w ->
  exec I (pollOwner crashes pages parse_request minimumProtocolVersion identity request) w (Ok r) w' ->
  exists before computer now offered w1 w2, polled identity request w r w' before computer now offered w1 w2.
Proof using S.
  destruct (sur_tenant S) as [Ht _]. intros Hi Hok. unfold pollOwner. cbv zeta. rewrite Hi.
  intros (u1 & w1 & Hs1 & Hok1 & _ & Hex)%route_bind; [|by unfold requireMatchingOwner; case_decide|done].
  apply route_bind in Hex as (now & w2 & Hs2 & Hok2 & _ & Hex); [|by apply asks_send|done].
  apply route_bind in Hex as (before & w3 & Hs3 & Hok3 & _ & Hex); [|apply asks_requireLiveComputer|done].
  apply route_bind in Hex as (recorded & w4 & Hs4 & Hok4 & _ & Hex); [|apply asks_recordOwnerPoll|done].
  destruct recorded; cbn [negb] in Hex; [|by destruct Hex].
  apply route_bind in Hex as (u5 & w5 & Hs5 & Hok5 & _ & Hex); [|apply asks_extendSegment|done].
  apply route_bind in Hex as (live & w6 & Hs6 & Hok6 & Hlive & Hex); [|apply asks_requireLiveComputer|done].
  apply live_read_at in Hlive as [Hlive _]; [|done..].
  apply route_bind in Hex as (computer & w7 & Hs7 & Hok7 & Hcomp & Hex); [|by apply asks_record_presence|done].
  apply (presence_read_at _ _ _ _ _ _ _ _ Hi Hok6 Hlive) in Hcomp.
  apply route_bind in Hex as (u8 & w8 & Hs8 & Hok8 & _ & Hex); [|by apply asks_settle_lost|done].
  apply route_bind in Hex as (offered & w9 & Hs9 & Hok9 & Hoff & Hex);
    [|destruct (_ && _); [apply asks_chooseDispatch; auto using sur_spend, sur_turn|apply asks_ret]|done].
  apply route_bind in Hex as (requests & w10 & Hs10 & Hok10 & Hreq & [[= ->] Hw']); [|apply asks_deliver_requests|done].
  apply (computer_others I t (sur_others S)) in Hw'.
  exists before, computer, now, offered, w8, w9. constructor; try done; [|by exists w10|by trans w10].
  eapply read_at_later; [|done]. eapply read_at_earlier; [|done].
  trans w1; [done|]. trans w2; [done|]. trans w3; [done|]. by trans w4.
Qed.

Lemma cadence_bounds state idle : 1000 <= ownerPollCadence state idle <= 10000.
Proof using Type.
  unfold ownerPollCadence, OWNER_POLL_STARTING_MILLISECONDS, OWNER_POLL_BUSY_MILLISECONDS, OWNER_POLL_FAST_MILLISECONDS,
    OWNER_POLL_MEDIUM_MILLISECONDS, OWNER_POLL_SLOW_MILLISECONDS. repeat case_decide; repeat case_match; lia.
Qed.

Lemma pace_bounds request before now : 1000 <= poll_pace request before now <= 10000.
Proof using Type.
  unfold poll_pace, ownerFilePanelPace, OWNER_POLL_INTERACTIVE_MILLISECONDS. set (x := match _ with Some m => now - m | None => 0 end).
  pose proof (cadence_bounds (PollRequest.state request) x). destruct (_ && _); lia.
Qed.

(** An answer to a poll keeps to the protocol: the next poll is due in 250 to 60000 milliseconds, at most one dispatch is
    handed out, the drain flag is set exactly when a reason is given, and a draining owner is handed no dispatch. *)
Theorem poll_answer_keeps_to_protocol identity request w r w' :
  Identity.tenantId identity = t -> computer_ok t w ->
  exec I (pollOwner crashes pages parse_request minimumProtocolVersion identity request) w (Ok r) w' ->
  250 <= PollResponse.next_poll_ms r <= 60000 /\ (length (PollResponse.dispatches r) <= 1)%nat /\
  (PollResponse.drain r = true <-> is_Some (PollResponse.drain_reason r)) /\
  (PollResponse.drain r = true -> PollResponse.dispatches r = []).
Proof using S.
  intros Hi Hok (before & c & now & offered & w1 & w2 & [_ _ Hd _ _ ->])%poll_exec; [|done..]. cbn.
  pose proof (pace_bounds request before now). rewrite bool_decide_eq_true. split_and!; [lia..| |done|].
  - destruct offered; cbn; lia.
  - intros [reason Hr]. rewrite Hr in Hd. unfold may_dispatch in Hd. rewrite andb_false_r in Hd. cbn in Hd. by destruct Hd as [[= ->] _].
Qed.

(** ** An approved stop *)

Lemma offer_first_exec identity current now candidates w d w' :
  Identity.tenantId identity = t -> computer_ok t w -> exec I (offer_first crashes pages identity current now candidates) w (Ok (Some d)) w' ->
  exists e rec c c', made t (Offer (Identity.ownerId identity) e rec) w c c' w'.
Proof using S.
  destruct (sur_tenant S) as [Ht _]. intros Hi. revert w. induction candidates as [|work rest IH]; intros w Hok; cbn [offer_first]; [by intros [[=] _]|].
  rewrite Hi. intros (refusal & w1 & Hs1 & Hok1 & _ & Hex)%route_bind; [|apply (sur_spend S)|done]. destruct refusal as [reason|].
  { apply route_bind in Hex as (u & w2 & Hs2 & Hok2 & _ & Hex); [|by apply asks_deny|done].
    destruct (IH _ Hok2 Hex) as (e & rec & c & c' & Hm). exists e, rec, c, c'. eapply made_earlier; [|exact Hm]. by trans w1. }
  case_decide.
  { destruct (IH _ Hok1 Hex) as (e & rec & c & c' & Hm). exists e, rec, c, c'. by eapply made_earlier. }
  apply route_bind in Hex as (id & w2 & Hs2 & Hok2 & _ & Hex); [|by apply asks_send|done].
  apply route_bind in Hex as (offered & w3 & Hs3 & Hok3 & _ & Hex); [|apply asks_grantDispatch, (sur_turn S)|done].
  destruct offered as [offered|]; [|by destruct Hex as [[=] _]].
  apply route_bind in Hex as (stored & w4 & Hs4 & Hok4 & Hst & [Heq Hw']); [|apply asks_offerOwnerDispatch|done].
  destruct stored; [|done]. apply (was_changed_exec I t (sur_others S) (Offer _ _ _)) in Hst as [_ [c Hm]]; [|done].
  eexists _, _, c, _. eapply made_later; [|by apply (computer_others I t (sur_others S))].
  eapply made_earlier; [|exact Hm]. trans w1; [done|]. by trans w2.
Qed.

Lemma offer_made_serves o e rec w c c' w' : made t (Offer o e rec) w c c' w' -> read_at w c w' /\ Computer.ownerId c = Some o /\ Computer.ownerStopApprovedAt c = None.
Proof using Type.
  intros (w1 & w2 & ? & ? & (? & ? & _) & _ & ? & _ & ?). split; [|done]. exists w1. split_and!; try done. by eapply rtc_l.
Qed.

(** A generation between two moments of the same generation is that generation; what was read in it is the owner's or
    nobody's. *)
Lemma read_between w c0 c w' c1 :
  computer_at t w c0 -> read_at w c w' -> computer_at t w' c1 -> Computer.ownerGeneration c1 = Computer.ownerGeneration c0 ->
  Computer.ownerId c = None \/
  (Computer.ownerId c = Computer.ownerId c0 /\ (stop_approved c0 -> stop_approved c /\ holdings c = holdings c0)).
Proof using Type.
  intros Hc0 (w1 & Hw1 & Hc & Hw') Hc1 Hg.
  destruct (computer_syses_at t _ _ _ Hw1 Hc0) as (c' & Hc' & Hsteps). rewrite (computer_at_inj _ _ _ _ Hc Hc') in *.
  destruct (computer_syses_at t _ _ _ Hw' Hc) as (c2 & Hc2 & Hsteps'). rewrite (computer_at_inj _ _ _ _ Hc1 Hc2) in *.
  apply in_generation; [done|]. apply generation_le_antisym; [|by apply steps_owner_generation].
  rewrite <- Hg. by apply steps_owner_generation.
Qed.

Lemma nobody_holds_nothing c : computer_inv c -> Computer.ownerId c = None ->
  Computer.dispatchId c = None /\ Computer.interactiveUntilAt c = None /\ Computer.ownerStopApprovedAt c = None.
Proof using Type. intros Hi Hn. pose proof (inv_alone c Hi Hn) as Heq. rewrite <- Heq. by destruct c. Qed.

Lemma read_inv w c w' : computer_ok t w -> read_at w c w' -> computer_inv c.
Proof using Type. intros Hok (w1 & Hw1 & Hc & _). eapply computer_ok_at; [|done]. by eapply computer_syses_ok. Qed.

Lemma closed_to_files identity request c w l w' :
  Computer.ownerStopApprovedAt c <> None \/ Computer.interactiveUntilAt c = None ->
  exec I (deliverLiveFileRequests pages parse_request identity request c) w (Ok l) w' -> l = [].
Proof using Type.
  intros Hc. unfold deliverLiveFileRequests. intros [(now & w1 & _ & Hex)|(e & [=] & _)]%exec_bind.
  assert (forall b1 b2 : bool, b1 || b2 || bool_decide (is_Some (Computer.ownerStopApprovedAt c)) || negb (still_open (Computer.interactiveUntilAt c) now) = true) as Hall.
  { intros b1 b2. destruct Hc as [Hc| ->]; [|by rewrite !orb_true_r]. rewrite (bool_decide_true (is_Some _)); [by rewrite orb_true_r|].
    destruct (Computer.ownerStopApprovedAt c); [by eexists|done]. }
  rewrite Hall in Hex. by destruct Hex as [[= ->] _].
Qed.

(** C28: An owner whose stop was approved is handed nothing: no later poll of it in the same generation returns a dispatch or a
    file request, whatever else runs meanwhile. *)
Theorem approved_owner_is_handed_nothing identity request w c r w' c' :
  Identity.tenantId identity = t -> computer_ok t w -> computer_at t w c ->
  Computer.ownerId c = Some (Identity.ownerId identity) -> stop_approved c ->
  exec I (pollOwner crashes pages parse_request minimumProtocolVersion identity request) w (Ok r) w' ->
  computer_at t w' c' -> Computer.ownerGeneration c' = Computer.ownerGeneration c ->
  PollResponse.dispatches r = [] /\ PollResponse.file_requests r = [].
Proof using S.
  intros Hi Hok Hc Ho Hst Hex Hc' Hg. destruct (poll_exec _ _ _ _ _ Hi Hok Hex) as (before & c1 & now & offered & w1 & w2 & [Hread Hok1 Hd [w3 Hf] Hs Hr]).
  assert (rtc (computer_sys t) w w1) as Hw1 by (destruct Hread as (? & ? & _ & ?); by etrans).
  assert (rtc (computer_sys t) w1 w2) as Hw2.
  { eapply keeps_exec; [|exact Hok1|exact Hd]. destruct (sur_tenant S).
    destruct (_ && _); [apply asks_chooseDispatch; auto using sur_spend, sur_turn|apply asks_ret]. }
  assert (read_at w c1 w') as Hread' by (eapply read_at_later; [done|by trans w2]).
  pose proof (read_inv _ _ _ Hok Hread) as Hinv.
  pose proof (read_between _ _ _ _ _ Hc Hread' Hc' Hg) as Hcases. split.
  - rewrite Hr. cbn [PollResponse.dispatches]. destruct offered as [d|]; [|done]. exfalso.
    destruct (may_dispatch request c1 _) eqn:Hmay; cbn [andb] in Hd; [|by destruct Hd as [[=] _]].
    destruct (negb (ownerIssuanceClosed c1 now)); [|by destruct Hd as [[=] _]].
    unfold may_dispatch in Hmay. rewrite !andb_true_iff, !bool_decide_eq_true in Hmay. destruct Hmay as [_ Hnone].
    destruct Hcases as [Hn|[_ Hsame]]; [|destruct (Hsame Hst) as [[m Hm] _]; congruence].
    destruct (nobody_holds_nothing c1 Hinv Hn) as (Hdisp & _ & _).
    unfold chooseDispatch in Hd. cbv zeta in Hd. apply route_bind in Hd as (now' & w4 & Hs4 & Hok4 & _ & Hd); [|by apply asks_send|done].
    rewrite Hi in Hd. apply route_bind in Hd as (candidates & w5 & Hs5 & Hok5 & _ & Hd); [|apply asks_parkedWork|done].
    assert (dispatchOf c1 = None) as Hnod by (unfold dispatchOf; by rewrite Hdisp). rewrite Hnod in Hd. cbn [mbind option_bind] in Hd.
    apply offer_first_exec in Hd as (e & rec & c2 & c3 & Hm); [|done|done]. apply offer_made_serves in Hm as (Hr2 & Ho2 & Hn2).
    assert (read_at w c2 w') as Hr2'.
    { eapply read_at_later; [|exact Hs]. eapply read_at_earlier; [|exact Hr2]. trans w1; [done|]. by trans w4. }
    destruct (read_between _ _ _ _ _ Hc Hr2' Hc' Hg) as [?|[_ Hsame]]; [congruence|]. destruct (Hsame Hst) as [[m ?] _]. congruence.
  - eapply closed_to_files; [|exact Hf]. destruct Hcases as [Hn|[_ Hsame]].
    + right. by apply (nobody_holds_nothing c1 Hinv).
    + left. destruct (Hsame Hst) as [[m ->] _]. done.
Qed.

Lemma renew_exec identity request w r w' :
  Identity.tenantId identity = t -> computer_ok t w -> exec I (renewOwnerCredentials minimumProtocolVersion identity request) w (Ok r) w' ->
  exists change c c', made t (Renew (Identity.ownerId identity) (Identity.startGeneration identity) change) w c c' w'.
Proof using S.
  intros Hi Hok. unfold renewOwnerCredentials, refuse_owner. cbv zeta. rewrite Hi. case_decide; [|by intros [[=] _]].
  intros (now & w1 & Hs1 & Hok1 & _ & Hex)%route_bind; [|by apply asks_send|done].
  apply route_bind in Hex as (found & w2 & Hs2 & Hok2 & _ & Hex); [|apply asks_getComputer|done].
  destruct (_ ≫= _) as [computer|]; [|by destruct Hex]. case_decide; [by destruct Hex|].
  destruct (ownerIssuanceClosed computer now); [by destruct Hex|].
  apply route_bind in Hex as (served & w3 & Hs3 & Hok3 & _ & Hex);
    [|destruct (request_kind request); [case_decide; [done|apply asks_ret]|apply asks_bind; [apply asks_served|by intros []]]|done].
  destruct (match _ with Some m => _ | None => false end) in Hex; [by destruct Hex|].
  apply route_bind in Hex as (granted & w4 & Hs4 & Hok4 & _ & Hex);
    [|apply asks_catch; [apply asks_grantRenewal; [apply (sur_supervisor S)|apply (sur_turn S)]|intros []; try case_decide; done]|done].
  apply route_bind in Hex as (renewed & w5 & Hs5 & Hok5 & Hren & Hex); [|apply asks_renew_store|done].
  destruct renewed.
  - destruct Hex as [_ Hw']. apply (was_changed_exec I t (sur_others S) (Renew _ _ _)) in Hren as [_ [c Hm]]; [|done].
    eexists _, c, _. eapply made_later; [|by apply (computer_others I t (sur_others S))]. eapply made_earlier; [|exact Hm].
    trans w1; [done|]. trans w2; [done|]. by trans w3.
  - apply route_bind in Hex as (found' & w6 & _ & _ & _ & Hex); [|apply asks_getComputer|done].
    destruct (_ ≫= _) as [after|] in Hex; [|by destruct Hex]. case_decide; [by destruct Hex|].
    match type of Hex with context [if ?b then _ else _] => destruct b end; by destruct Hex.
Qed.

(** An owner whose stop was approved renews nothing: while its generation is the computer's, a request to renew the
    credentials of the supervisor or of a turn ends with an error, whatever else runs meanwhile, so no credential outlives the
    stop it was approved for. *)
Theorem approved_owner_renews_nothing identity request w c o w' :
  Identity.tenantId identity = t -> computer_ok t w -> computer_at t w c ->
  Computer.ownerGeneration c = Some (Identity.startGeneration identity) -> stop_approved c ->
  exec I (renewOwnerCredentials minimumProtocolVersion identity request) w o w' -> exists e, o = Err e.
Proof using S.
  intros Hi Hok Hc Hg Hst Hex. destruct o as [e|r]; [by exists e|exfalso].
  apply renew_exec in Hex as (change & c1 & c2 & w1 & w2 & Hw1 & Hc1 & Hguard & _); [|done|done].
  assert (serves c1 (Identity.ownerId identity) (Identity.startGeneration identity)) as (Ho & Hg1 & Hn) by (destruct change; [done|by destruct Hguard]).
  destruct (computer_syses_at t _ _ _ Hw1 Hc) as (c1' & Hc1' & Hsteps). rewrite (computer_at_inj _ _ _ _ Hc1 Hc1') in *.
  destruct (in_generation _ _ Hsteps ltac:(congruence)) as [|[_ Hsame]]; [congruence|]. destruct (Hsame Hst) as [[m ?] _]. congruence.
Qed.

(** What an approval of a stop rests on: a judgement of the record without a veto, and an approval that found the dispatch
    and the file request of that judgement unchanged. *)
Lemma judge_stop_exec attempts identity request w w' :
  Identity.tenantId identity = t -> computer_ok t w ->
  exec I (judge_stop pages minimumProtocolVersion attempts identity request) w (Ok stop_approved_response) w' ->
  exists now judged w1 w2 c c', read_at w judged w1 /\ exec I (stopVeto pages minimumProtocolVersion identity judged request now) w1 (Ok None) w2 /\
    made t (ApproveStop (Identity.ownerId identity) (Computer.dispatchId judged) (Computer.fileOperationId judged) now) w2 c c' w'.
Proof using S.
  intros Hi. revert w. induction attempts as [|n IH]; intros w Hok; cbn [judge_stop]; [by intros [[=] _]|].
  intros (now & w1 & Hs1 & Hok1 & _ & Hex)%route_bind; [|by apply asks_send|done].
  apply route_bind in Hex as (judged & w2 & Hs2 & Hok2 & Hlive & Hex); [|apply asks_requireLiveComputer|done].
  apply live_read_at in Hlive as [Hlive _]; [|done..]. assert (read_at w judged w2) as Hread by by eapply read_at_earlier.
  apply route_bind in Hex as (veto & w3 & Hs3 & Hok3 & Hveto & Hex); [|by apply asks_stopVeto|done].
  destruct veto as [reason|]; [by destruct Hex|]. rewrite Hi in Hex.
  apply route_bind in Hex as (approved & w4 & Hs4 & Hok4 & Happ & Hex); [|apply asks_approve|done]. destruct approved.
  - apply (was_changed_exec I t (sur_others S) (ApproveStop _ _ _ _)) in Happ as [_ [c Hm]]; [|done].
    exists now, judged, w2, w3, c, (effect (ApproveStop (Identity.ownerId identity) (Computer.dispatchId judged) (Computer.fileOperationId judged) now) c).
    split_and!; [done|done|]. destruct Hex as [_ Hw']. eapply made_later; [done|]. by apply (computer_others I t (sur_others S)).
  - destruct (IH _ Hok4 Hex) as (now' & judged' & wa & wb & c & c' & Hr & Hv & Hm). exists now', judged', wa, wb, c, c'.
    split_and!; [|done|done]. eapply read_at_earlier; [|exact Hr]. trans w1; [done|]. trans w2; [done|]. by trans w3.
Qed.

(** C27: A stop is approved only on a judgement that still holds: the record was read, nothing vetoed the stop after it, and at
    the moment of the approval the owner is the one asking and both its dispatch and the newest file request are those of the
    record that was judged, so work offered since then would have refused the approval. *)
Theorem stop_approval_saw_everything identity request w w' :
  Identity.tenantId identity = t -> computer_ok t w ->
  exec I (judgeOwnerStop pages minimumProtocolVersion identity request) w (Ok stop_approved_response) w' ->
  exists now judged w1 w2 w3 c c', read_at w judged w1 /\
    exec I (stopVeto pages minimumProtocolVersion identity judged request now) w1 (Ok None) w2 /\
    rtc (computer_sys t) w2 w3 /\ computer_at t w3 c /\ Computer.ownerId c = Some (Identity.ownerId identity) /\
    Computer.dispatchId c = Computer.dispatchId judged /\ Computer.fileOperationId c = Computer.fileOperationId judged /\
    stop_approved c' /\ owner_step c c' /\ read_at w3 c' w'.
Proof using S.
  intros Hi Hok (u & w1 & Hs1 & Hok1 & _ & Hex)%route_bind; [|by unfold requireMatchingOwner; case_decide|done].
  apply judge_stop_exec in Hex as (now & judged & wa & wb & c & c' & Hr & Hv & wc & wd & Hc1 & Hc & Hg & -> & Hcd & Hd & Hw'); [|done..].
  exists now, judged, wa, wb, wc, c, (effect (ApproveStop (Identity.ownerId identity) (Computer.dispatchId judged) (Computer.fileOperationId judged) now) c).
  destruct Hg as (Ho & Hdd & Hff).
  split; [by eapply read_at_earlier|]. do 6 (split; [done|]). split; [by eexists|]. split; [by constructor|].
  exists wd. split; [by apply rtc_once|]. by split.
Qed.

(** ** Host starts *)

Lemma host_start_exec heartbeat rounds u w claim w' :
  computer_ok t w -> exec I (host_start_loop pages heartbeat rounds t u) w (Ok claim) w' -> HostStartClaim.newlyClaimed claim = true ->
  exists g lease c, HostStartClaim.hostStartGeneration claim = g + 1 /\ made t (ClaimGeneration g lease) w c (effect (ClaimGeneration g lease) c) w'.
Proof using S.
  destruct (sur_tenant S) as [_ Hne]. revert w. induction rounds as [|n IH]; intros w Hok; cbn [host_start_loop]; [by intros [[=] _]|].
  intros (round & w1 & Hs1 & Hok1 & Hround & Hex)%route_bind Hnew; [|by apply asks_host_start_round|done]. destruct round as [claim'|].
  2:{ destruct (IH _ Hok1 Hex Hnew) as (g & lease & c & Hg & Hm). exists g, lease, c. split; [done|]. by eapply made_earlier. }
  destruct Hex as [[= ->] Hw']. apply (computer_others I t (sur_others S)) in Hw'. unfold host_start_round in Hround. cbv zeta in Hround.
  apply route_bind in Hround as (computer & w2 & Hs2 & Hok2 & _ & Hex); [|by apply asks_ensureComputer|done].
  apply route_bind in Hex as (now & w3 & Hs3 & Hok3 & _ & Hex); [|by apply asks_send|done].
  destruct (_ ≫= _) as [lease|]; [by destruct Hex as [[= ->] _]|].
  apply route_bind in Hex as (u4 & w4 & Hs4 & Hok4 & _ & Hex); [|apply asks_settleComputer|done].
  apply route_bind in Hex as (claimed & w5 & Hs5 & Hok5 & Hcl & [Heq Hw5]); [|apply asks_claim|done].
  destruct claimed as [c|]; cbn in Heq; [|done]. injection Heq as ->.
  apply (change_exec I t (sur_others S) (ClaimGeneration _ _)) in Hcl as [_ [c0 Hm]]; [|done].
  eexists _, _, c0. pose proof (made_effect _ _ _ _ _ _ Hm) as ->. split; [cbn; reflexivity|].
  apply (computer_others I t (sur_others S)) in Hw5. eapply made_later; [|trans w1; [exact Hw5|done]].
  eapply made_earlier; [|exact Hm]. trans w2; [done|]. by trans w3.
Qed.

Lemma request_start_exec heartbeat rounds u w claim w' :
  computer_ok t w -> exec I (requestComputerHostStart pages heartbeat rounds t u) w (Ok claim) w' -> HostStartClaim.newlyClaimed claim = true ->
  exists g lease c, HostStartClaim.hostStartGeneration claim = g + 1 /\ made t (ClaimGeneration g lease) w c (effect (ClaimGeneration g lease) c) w'.
Proof using S.
  intros Hok. unfold requestComputerHostStart. case_decide; [by intros [[=] _]|].
  intros (x & wa & Hsa & Hoka & _ & Hex)%route_bind Hnew; [| |done].
  - destruct (host_start_exec _ _ _ _ _ _ Hoka Hex Hnew) as (g & lease & c & ? & ?). exists g, lease, c. split; [done|by eapply made_earlier].
  - apply asks_bind; [apply (sur_spend S)|by intros []].
Qed.

(** A host start is claimed once: of two requests that each claim a start, the later claims a strictly greater generation,
    so no two hosts are started under the same one. *)
Theorem host_start_claimed_once heartbeat rounds u heartbeat' rounds' u' w claim w1 w2 claim' w3 :
  computer_ok t w -> exec I (requestComputerHostStart pages heartbeat rounds t u) w (Ok claim) w1 -> rtc (computer_sys t) w1 w2 ->
  exec I (requestComputerHostStart pages heartbeat' rounds' t u') w2 (Ok claim') w3 ->
  HostStartClaim.newlyClaimed claim = true -> HostStartClaim.newlyClaimed claim' = true ->
  HostStartClaim.hostStartGeneration claim < HostStartClaim.hostStartGeneration claim'.
Proof using S.
  destruct (sur_tenant S) as [_ Hne].
  intros Hok Hex Hs Hex' Hn Hn'.
  assert (computer_ok t w1) as Hok1 by (eapply keeps_ok; [apply asks_host_start; [done|apply (sur_spend S)]|done..]).
  destruct (request_start_exec _ _ _ _ _ _ Hok Hex Hn) as (g & lease & c & -> & wa & wb & _ & _ & _ & _ & _ & Hb & Hb1).
  destruct (request_start_exec _ _ _ _ _ _ (computer_syses_ok t _ _ Hs Hok1) Hex' Hn') as (g' & lease' & c' & -> & wd & we & Hd2 & Hd & Hguard & _).
  assert (rtc (computer_sys t) wb wd) as Hsteps by (trans w1; [done|by trans w2]).
  destruct (computer_syses_at t _ _ _ Hsteps Hb) as (c2 & Hc2 & Hc). rewrite (computer_at_inj _ _ _ _ Hd Hc2) in *.
  apply steps_generation in Hc. change (g + 1 <= Computer.hostStartGeneration c') in Hc. cbn in Hguard. lia.
Qed.
End theorems.

(** ** The theorems at the concrete computer of OwnerDemo.v *)

Lemma demo_surroundings : surroundings (H0:=local_service) alone "acme".
Proof.
  constructor.
  - done.
  - split; [|done]. by apply (bool_decide_unpack _).
  - intros w id w' [l Hl]. cbn in Hl. injection Hl as <- _. done.
  - intros t'. apply asks_ret.
  - intros p b. apply asks_ret.
  - intros b x. apply asks_ret.
Qed.

Lemma demo_steps {A : Type} (p : prog A) l w :
  keeps_computer "acme" p -> computer_ok "acme" w -> rtc (computer_sys "acme") w (run p l w).2 /\ computer_ok "acme" (run p l w).2.
Proof.
  intros Hp Hok. pose proof (run_exec p l w alone) as Hex.
  split; [by eapply (keeps_exec (H0:=local_service) alone "acme" demo_surroundings)|by eapply (keeps_ok (H0:=local_service) alone "acme" demo_surroundings)].
Qed.

(** The record of a demonstration world, and that it is sound. *)
Lemma demo_computer_at w o g b :
  computer_ok "acme" w -> demo_view w = Some (o, g, b) ->
  exists c, computer_at "acme" w c /\ Computer.ownerId c = o /\ Computer.ownerGeneration c = g /\ (b = true -> stop_approved c).
Proof.
  intros Hok (it & c & Hit & Hd & Ho & Hg & Hb)%demo_viewed. exists c. split; [|split_and!; try done].
  - destruct Hok as [Hn|(c' & Hc & _)]; [congruence|]. pose proof Hc as (it' & Hit' & Hd' & _). assert (c' = c) as -> by congruence. done.
  - intros ->. by apply bool_decide_eq_true in Hb.
Qed.

Lemma demo_start_keeps : keeps_computer "acme" demo_start.
Proof. apply asks_host_start; [done|]. intros t'. apply asks_ret. Qed.
Lemma demo_route_keeps {A : Type} (p : prog A) :
  owner_route "acme" never_crashes 2 any_request 3 p -> keeps_computer "acme" p.
Proof. apply (owner_route_keeps (H0:=local_service) alone "acme" never_crashes 2 any_request 3 demo_surroundings). Qed.

Definition demo_moves (w w' : World) : Prop := rtc (computer_sys "acme") w w' /\ computer_ok "acme" w'.

Lemma demo_started_moves : demo_moves empty_world demo_computer_started.
Proof. refine (demo_steps demo_start (demo_at 0) empty_world demo_start_keeps _). left. apply lookup_empty. Qed.
Lemma demo_registered_moves : demo_moves demo_computer_started demo_registered.
Proof. exact (demo_steps (putWorker demo_worker) (demo_at 0) demo_computer_started (asks_putWorker _ _) (proj2 demo_started_moves)). Qed.
Lemma demo_owned_moves : demo_moves demo_registered demo_owned.
Proof.
  exact (demo_steps (demo_exchange 1) (demo_at 1) demo_registered (demo_route_keeps _ (route_bootstrap _ _ _ _ _ _ _ _)) (proj2 demo_registered_moves)).
Qed.
Lemma demo_polled_moves : demo_moves demo_owned demo_polled.
Proof. refine (demo_steps (demo_poll 1) (demo_at 2) demo_owned (demo_route_keeps _ _) (proj2 demo_owned_moves)). by apply route_poll. Qed.
Lemma demo_stopped_moves : demo_moves demo_polled demo_stopped.
Proof. refine (demo_steps demo_stop (demo_at 3) demo_polled (demo_route_keeps _ _) (proj2 demo_polled_moves)). by apply route_stop. Qed.
Lemma demo_polled_again_moves : demo_moves demo_stopped demo_polled_again.
Proof. refine (demo_steps (demo_poll 2) (demo_at 4) demo_stopped (demo_route_keeps _ _) (proj2 demo_stopped_moves)). by apply route_poll. Qed.
Lemma demo_started_again_moves : demo_moves demo_owned demo_started_again.
Proof. exact (demo_steps demo_start (demo_at 70) demo_owned demo_start_keeps (proj2 demo_owned_moves)). Qed.
Lemma demo_empty_ok : computer_ok "acme" empty_world.
Proof. left. apply lookup_empty. Qed.
Lemma demo_started_to_owned : rtc (computer_sys "acme") demo_computer_started demo_owned.
Proof. trans demo_registered; [apply demo_registered_moves|apply demo_owned_moves]. Qed.

Lemma computer_record_well_formed_witness :
  exists it c, tbl demo_owned !! computerRecordKey "acme" = Some it /\ decodeComputer it = Some c /\ computer_inv c /\
    Computer.ownerId c = Some "w1".
Proof.
  destruct (demo_viewed _ _ _ _ (proj1 demo_views)) as (it & c & Hit & Hd & Ho & _).
  destruct (computer_record_well_formed "acme" empty_world demo_owned it) as (c' & Hc' & _ & Hi); [apply lookup_empty| |exact Hit|].
  - exact (transitivity (proj1 demo_started_moves) demo_started_to_owned).
  - rewrite Hd in Hc'. injection Hc' as <-. exists it, c. split_and!; [exact Hit|exact Hd|exact Hi|exact Ho].
Defined.

Lemma owner_routes_refine_machine_witness :
  exists c c', computer_at "acme" demo_polled c /\ computer_at "acme" demo_stopped c' /\ rtc owner_step c c' /\ computer_inv c'.
Proof.
  destruct (demo_computer_at demo_polled _ _ _ (proj2 demo_polled_moves) (proj1 (proj2 demo_views))) as (c & Hc & _).
  destruct (owner_routes_refine_machine (H0:=local_service) alone "acme" never_crashes 2 any_request 3 demo_surroundings
    demo_stop demo_polled (run demo_stop (demo_at 3) demo_polled).1 demo_stopped c) as (c' & Hc' & Hs & Hi & _).
  - by apply route_stop.
  - exact (proj2 demo_polled_moves).
  - exact Hc.
  - apply run_exec.
  - by exists c, c'.
Defined.

Lemma bootstrap_token_exchanged_once_witness :
  (run (demo_exchange 1) (demo_at 1) demo_registered).1 = Ok (mkBootstrapResponse "id-0" (mkSupervisorGrant "supervisor" 30000000 demo_aws)) /\ 1 < 2.
Proof.
  split; [apply demo_runs|].
  apply (bootstrap_token_exchanged_once (H0:=local_service) alone "acme" demo_surroundings
    (Claims.mk "id-0" "w1" 1) "bootstrap" (BootstrapRequest.mk "w1" 1 3) (Claims.mk "id-0" "w1" 2) "bootstrap" (BootstrapRequest.mk "w1" 2 3)
    demo_registered (mkBootstrapResponse "id-0" (mkSupervisorGrant "supervisor" 30000000 demo_aws)) demo_owned demo_started_again
    (mkBootstrapResponse "id-0" (mkSupervisorGrant "supervisor" 30000000 demo_aws))
    (run (demo_exchange 2) (demo_at 71) demo_started_again).2).
  - exact (proj2 demo_registered_moves).
  - apply (run_exec_to (demo_exchange 1)), demo_runs.
  - exact (proj1 demo_started_again_moves).
  - apply (run_exec_to (demo_exchange 2)), demo_runs.
Defined.

Lemma poll_answer_keeps_to_protocol_witness :
  250 <= 1000 <= 60000 /\ (0 <= 1)%nat /\ (false = true <-> is_Some (None (A:=string))) /\ (false = true -> @nil OwnerDispatch = []).
Proof.
  apply (poll_answer_keeps_to_protocol (H0:=local_service) alone "acme" never_crashes 2 any_request 3 demo_surroundings
    demo_identity (PollRequest.mk "w1" 1 3 1 "idle" [] None) demo_owned (PollResponse.mk [] [] false None 1000) demo_polled).
  - done.
  - exact (proj2 demo_owned_moves).
  - exact demo_polls.
Defined.

(** The owner of the stopped computer, and its record. *)
Lemma demo_stopped_computer : exists c, computer_at "acme" demo_stopped c /\ Computer.ownerId c = Some "w1" /\
  Computer.ownerGeneration c = Some 1 /\ stop_approved c.
Proof.
  destruct (demo_computer_at demo_stopped _ _ _ (proj2 demo_stopped_moves) (proj1 (proj2 (proj2 demo_views)))) as (c & Hc & Ho & Hg & Hst).
  exists c. by auto.
Qed.

Lemma approved_owner_is_handed_nothing_witness :
  exists r, (run (demo_poll 2) (demo_at 4) demo_stopped).1 = Ok r /\ PollResponse.dispatches r = [] /\ PollResponse.file_requests r = [].
Proof.
  exists (PollResponse.mk [] [] false None 1000). split; [apply demo_runs|].
  destruct demo_stopped_computer as (c & Hc & Ho & Hg & Hst).
  destruct (demo_computer_at _ _ _ _ (proj2 demo_polled_again_moves) (proj2 (proj2 (proj2 demo_views)))) as (c' & Hc' & _ & Hg' & _).
  apply (approved_owner_is_handed_nothing (H0:=local_service) alone "acme" never_crashes 2 any_request 3 demo_surroundings
    demo_identity (PollRequest.mk "w1" 1 3 2 "idle" [] None) demo_stopped c (PollResponse.mk [] [] false None 1000)
    demo_polled_again c').
  - done.
  - exact (proj2 demo_stopped_moves).
  - exact Hc.
  - exact Ho.
  - exact Hst.
  - exact demo_polls_again.
  - exact Hc'.
  - by rewrite Hg, Hg'.
Defined.

Lemma approved_owner_renews_nothing_witness : exists e, (run demo_renew (demo_at 4) demo_stopped).1 = Err e.
Proof.
  destruct demo_stopped_computer as (c & Hc & Ho & Hg & Hst).
  apply (approved_owner_renews_nothing (H0:=local_service) alone "acme" 3 demo_surroundings
    demo_identity (mkCredentialsRequest "w1" 1 kind_supervisor) demo_stopped c _ (run demo_renew (demo_at 4) demo_stopped).2).
  - done.
  - exact (proj2 demo_stopped_moves).
  - exact Hc.
  - exact Hg.
  - exact Hst.
  - apply run_exec.
Defined.

Lemma stop_approval_saw_everything_witness :
  exists c c' w, computer_at "acme" w c /\ Computer.ownerId c = Some "w1" /\ stop_approved c' /\ owner_step c c' /\
    read_at "acme" w c' demo_stopped.
Proof.
  destruct (stop_approval_saw_everything (H0:=local_service) alone "acme" 2 3 demo_surroundings demo_identity
    (StopRequest.mk "w1" 1 "idle" []) demo_polled demo_stopped) as (now & judged & w1 & w2 & w3 & c & c' & _ & _ & _ & Hc & Ho & _ & _ & Hst & Hstep & Hr).
  - done.
  - exact (proj2 demo_polled_moves).
  - apply (run_exec_to demo_stop), demo_runs.
  - by exists c, c', w3.
Defined.

Lemma host_start_claimed_once_witness : (run demo_start (demo_at 0) empty_world).1 = Ok (HostStartClaim.mk "acme" "id-0" 1 "ann" 1061000 true) /\ 1 < 2.
Proof.
  split; [apply demo_runs|].
  apply (host_start_claimed_once (H0:=local_service) alone "acme" 2 demo_surroundings 90 3 "ann" 90 3 "ann"
    empty_world (HostStartClaim.mk "acme" "id-0" 1 "ann" 1061000 true) demo_computer_started demo_owned
    (HostStartClaim.mk "acme" "id-0" 2 "ann" 1131000 true) demo_started_again).
  - apply demo_empty_ok.
  - apply (run_exec_to demo_start), demo_runs.
  - exact demo_started_to_owned.
  - apply (run_exec_to demo_start), demo_runs.
  - reflexivity.
  - reflexivity.
Defined.
