(* ===== verification/FileSystem.v ===== *)
(** * A file request as a machine

    The item of one file request (FileRequests.v) goes from pending to delivered to done, or from pending to abandoned, and
    may go at any time; it is never queued again under its identifier. [op_sys] is what any process may do to it, [op_made]
    that a change was made at one moment of a program, and [keeps_op] that a program does nothing else to it. *)

From S2P Require Import Prelude Json Types Computers Service Retry Paging TurnCodec TurnStore TurnPrograms.
From S2P Require Import ComputerStore ComputerSystem Footprint FileAudits FileRequests.
#[local] Open Scope Z_scope.
#[local] Open Scope prog_scope.

(** ** The item of a request *)

Definition has_status (it : item) (s : LiveFileOperationStatus) : Prop := it !! "status" = Some (AS (operation_status_text s)).

Lemma operation_status_text_inj s s' : operation_status_text s = operation_status_text s' -> s = s'.
Proof. by destruct s, s'. Qed.

Lemma has_status_inj it s s' : has_status it s -> has_status it s' -> s = s'.
Proof. unfold has_status. intros -> [= Heq]. symmetry. by apply operation_status_text_inj. Qed.

Lemma operation_status_of_text_inv text s : operation_status_of_text text = Some s -> text = operation_status_text s.
Proof. unfold operation_status_of_text. repeat case_decide; intros [= <-]; done. Qed.

(** What a decoded request says of its item. *)
Lemma decoded_op it o :
  decodeFileOp it = Some o ->
  has_status it (FileOp.status o) /\ FileOp.outcome o = match it !! "outcome" with Some (AB text) => Some text | _ => None end /\
  it !! "operation_id" = Some (AS (FileOp.operationId o)) /\ optionalNumber it "delivered_sequence" = FileOp.deliveredSequence o /\
  optionalNumber it "expires_at" = Some (FileOp.expiresAt o / 1000) /\ FileOp.expiresAt o mod 1000 = 0.
Proof.
  unfold decodeFileOp. rewrite bind_Some. intros (generation & _ & Hd).
  apply bind_Some in Hd as (e & He & Hd). apply bind_Some in Hd as (i & Hi & Hd). do 5 (apply bind_Some in Hd as (? & _ & Hd)).
  apply bind_Some in Hd as (s & Hs & Hd). do 2 (apply bind_Some in Hd as (? & _ & Hd)). injection Hd as <-. cbn.
  split_and!; [|done| |done|by rewrite Z.div_mul|by rewrite Z.mod_mul].
  2:{ unfold optionalString in Hi. destruct (it !! "operation_id") as [[]|]; try done. by case_decide; simplify_eq. }
  apply bind_Some in Hs as (text & Ht & ->%operation_status_of_text_inv). unfold optionalString in Ht.
  destruct (it !! "status") as [[]|] eqn:Hst; try done. case_decide; [done|]. injection Ht as ->. done.
Qed.

(** The four changes of a request. *)
Inductive op_change : Change -> Prop :=
| op_deliver d : op_change (deliver_change d)
| op_abandon : op_change abandon_change
| op_complete outcome now : op_change (complete_change outcome now)
| op_waiter_gone : op_change waiter_gone_change.

Inductive op_step (it : item) : item -> Prop :=
| op_step_intro change : op_change change -> holds (condition change) it = true -> op_step it (apply_actions (updates change) it).

(** A request that is settled: its answer is recorded, or it was abandoned. *)
Definition settled (it : item) : Prop := has_status it OpDone \/ has_status it OpAbandoned.

(** What the condition of a change asks of the status. *)
Definition asked_status (change : Change) (s : LiveFileOperationStatus) : Prop :=
  forall it, holds (condition change) it = true -> has_status it s.

Lemma asked_deliver d : asked_status (deliver_change d) OpPending.
Proof. intros it. cbn. rewrite !andb_true_iff, !bool_decide_eq_true. tauto. Qed.
Lemma asked_abandon : asked_status abandon_change OpPending.
Proof. intros it. cbn. rewrite !andb_true_iff, !bool_decide_eq_true. tauto. Qed.
Lemma asked_complete outcome now : asked_status (complete_change outcome now) OpDelivered.
Proof. intros it. cbn. rewrite !andb_true_iff, !bool_decide_eq_true. tauto. Qed.
Lemma asked_waiter_gone : asked_status waiter_gone_change OpDelivered.
Proof. intros it. cbn. rewrite !andb_true_iff, !bool_decide_eq_true. tauto. Qed.

Lemma change_asks change it : op_change change -> holds (condition change) it = true -> has_status it OpPending \/ has_status it OpDelivered.
Proof.
  destruct 1; intros Hh; [left|left|right|right].
  - by eapply asked_deliver. - by apply asked_abandon. - by eapply asked_complete. - by apply asked_waiter_gone.
Qed.

Lemma change_has_key change it : op_change change -> holds (condition change) it = true -> is_Some (it !! "pk").
Proof. destruct 1; cbn; rewrite !andb_true_iff, ?bool_decide_eq_true; tauto. Qed.

Lemma settled_stays change it : settled it -> op_change change -> holds (condition change) it = false.
Proof.
  intros Hs Hc. apply not_true_is_false. intros Hh. pose proof (change_asks _ _ Hc Hh) as Ha.
  destruct Hs as [Hs|Hs], Ha as [Ha|Ha]; by pose proof (has_status_inj _ _ _ Hs Ha).
Qed.

(** What holds of every item of a request: it is named by its key, an answer goes with the status done, and only a request
    that was handed out says by which poll. *)
Record op_inv (id : string) (it : item) : Prop := {
  inv_name : it !! "operation_id" = Some (AS id);
  inv_status : exists s, has_status it s;
  inv_answer : has_status it OpDone -> exists text, it !! "outcome" = Some (AB text);
  inv_untaken : has_status it OpPending \/ has_status it OpAbandoned -> it !! "delivered_sequence" = None;
}.

(** What each change leaves of the attributes that matter. *)
Definition reads_after (xs : list action) (it : item) (status outcome sequence : option attr) : Prop :=
  apply_actions xs it !! "status" = status /\ apply_actions xs it !! "outcome" = outcome /\
  apply_actions xs it !! "delivered_sequence" = sequence /\ apply_actions xs it !! "operation_id" = it !! "operation_id".

Lemma after_deliver d it :
  reads_after (updates (deliver_change d)) it (Some (AS "delivered")) (it !! "outcome") (Some (AN (Delivery.sequence d))).
Proof. unfold reads_after. rewrite !lookup_apply_actions. by split_and!. Qed.
Lemma after_abandon it : reads_after (updates abandon_change) it (Some (AS "abandoned")) None (it !! "delivered_sequence").
Proof. unfold reads_after. rewrite !lookup_apply_actions. by split_and!. Qed.
Lemma after_complete outcome now it :
  reads_after (updates (complete_change outcome now)) it (Some (AS "done")) (Some (AB outcome)) (it !! "delivered_sequence").
Proof. unfold reads_after. rewrite !lookup_apply_actions. by split_and!. Qed.
Lemma after_waiter_gone it :
  reads_after (updates waiter_gone_change) it (it !! "status") (it !! "outcome") (it !! "delivered_sequence").
Proof. unfold reads_after. rewrite !lookup_apply_actions. by split_and!. Qed.

Lemma op_step_inv id it it' : op_inv id it -> op_step it it' -> op_inv id it'.
Proof.
  intros Hi [change Hc Hh]. pose proof (inv_name id it Hi) as Hname. destruct Hc as [d| |outcome now|].
  - destruct (after_deliver d it) as (Hs & _ & _ & Hn).
    constructor; unfold has_status; rewrite ?Hn, ?Hs; [done|by exists OpDelivered|done|by intros [[=]|[=]]].
  - apply asked_abandon in Hh. destruct (after_abandon it) as (Hs & _ & Hq & Hn). constructor; unfold has_status; rewrite ?Hn, ?Hs, ?Hq.
    + done.
    + by exists OpAbandoned.
    + done.
    + intros _. apply (inv_untaken id it Hi). by left.
  - destruct (after_complete outcome now it) as (Hs & Ho & _ & Hn). constructor; unfold has_status; rewrite ?Hn, ?Hs, ?Ho;
      [done|by exists OpDone|by eexists|by intros [[=]|[=]]].
  - destruct (after_waiter_gone it) as (Hs & Ho & Hq & Hn). constructor; unfold has_status; rewrite ?Hn, ?Hs, ?Ho, ?Hq; apply Hi.
Qed.

(** ** The request under interference *)

Section request.
Context (t id : string).
Abbreviation op_key := (liveFileOperationKey t id).

(** What one step of anybody does to the request: nothing, one of its changes, or it goes. *)
Inductive op_moves (o : option item) : option item -> Prop :=
| moves_same : op_moves o o
| moves_gone : op_moves o None
| moves_step it it' : o = Some it -> op_step it it' -> op_moves o (Some it').

Definition op_sys (w w' : World) : Prop := op_moves (tbl w !! op_key) (tbl w' !! op_key).

Lemma op_frame w w' : tbl w' !! op_key = tbl w !! op_key -> op_sys w w'.
Proof using Type. unfold op_sys. intros ->. constructor. Qed.

Lemma op_syses_gone w w' : rtc op_sys w w' -> tbl w !! op_key = None -> tbl w' !! op_key = None.
Proof using Type.
  induction 1 as [|w w1 w' Hs _ IH]; [done|]. intros Hn. apply IH. unfold op_sys in Hs. rewrite Hn in Hs. by inversion Hs.
Qed.

Lemma op_settled_stays w w' it :
  rtc op_sys w w' -> tbl w !! op_key = Some it -> settled it -> tbl w' !! op_key = Some it \/ tbl w' !! op_key = None.
Proof using Type.
  induction 1 as [w|w w1 w' Hs Hrest IH]; intros Hit Hset; [by left|]. unfold op_sys in Hs. rewrite Hit in Hs.
  inversion Hs as [Heq|Heq|it0 it' [= <-] [change Hc Hh] Heq].
  - by apply IH.
  - right. by apply (op_syses_gone w1).
  - by rewrite (settled_stays _ _ Hset Hc) in Hh.
Qed.

(** A request that is there was there, and satisfied the invariant if it does so now. *)
Definition op_ok (w : World) : Prop := forall it, tbl w !! op_key = Some it -> op_inv id it.

Lemma op_sys_ok w w' : op_ok w -> op_sys w w' -> op_ok w'.
Proof using Type.
  unfold op_ok, op_sys. intros Hok Hs it Hit. rewrite Hit in Hs. inversion Hs as [Heq| |it0 it' Heq Hstep]; subst; [by apply Hok|].
  eapply op_step_inv; [by apply Hok|done].
Qed.

Lemma op_syses_ok w w' : op_ok w -> rtc op_sys w w' -> op_ok w'.
Proof using Type. intros Hok. induction 1; eauto using op_sys_ok. Qed.

(** A change that was made at one moment between [w] and [w'], on the item [it]. *)
Definition op_made (change : Change) (w : World) (it : item) (w' : World) : Prop :=
  exists w1 w2, rtc op_sys w w1 /\ tbl w1 !! op_key = Some it /\ holds (condition change) it = true /\
    op_sys w1 w2 /\ tbl w2 !! op_key = Some (apply_actions (updates change) it) /\ rtc op_sys w2 w'.

(** What was read of the request at one moment. *)
Definition op_read (w : World) (it : item) (w' : World) : Prop :=
  exists w1, rtc op_sys w w1 /\ tbl w1 !! op_key = Some it /\ rtc op_sys w1 w'.

Lemma op_read_inv w it w' : op_ok w -> op_read w it w' -> op_inv id it.
Proof using Type. intros Hok (w1 & Hw1 & Hit & _). by eapply (op_syses_ok w w1). Qed.

Lemma op_made_read change w it w' : op_made change w it w' -> op_read w (apply_actions (updates change) it) w'.
Proof using Type. intros (w1 & w2 & ? & _ & _ & ? & ? & ?). exists w2. split_and!; [by eapply rtc_r|done|done]. Qed.
Lemma op_read_earlier w0 w it w' : rtc op_sys w0 w -> op_read w it w' -> op_read w0 it w'.
Proof using Type. intros Hw (w1 & ? & ? & ?). exists w1. split_and!; [by trans w|done|done]. Qed.
Lemma op_read_later w it w1 w' : op_read w it w1 -> rtc op_sys w1 w' -> op_read w it w'.
Proof using Type. intros (w2 & ? & ? & ?) Hw. exists w2. split_and!; [done|done|by trans w1]. Qed.
Lemma op_made_earlier change w0 w it w' : rtc op_sys w0 w -> op_made change w it w' -> op_made change w0 it w'.
Proof using Type. intros Hw (w1 & w2 & ? & ?). exists w1, w2. split; [by trans w|done]. Qed.
Lemma op_made_later change w it w1 w' : op_made change w it w1 -> rtc op_sys w1 w' -> op_made change w it w'.
Proof using Type. intros (wa & wb & ? & ? & ? & ? & ? & ?) Hw. exists wa, wb. split_and!; try done. by trans w1. Qed.

(** Two readings of a settled request are the same. *)
Lemma op_read_settled w it w1 w2 it' w' :
  op_read w it w1 -> settled it -> rtc op_sys w1 w2 -> op_read w2 it' w' -> it' = it.
Proof using Type.
  intros (wa & _ & Hit & Ha) Hset Hs (wb & Hb & Hit' & _).
  destruct (op_settled_stays wa wb it) as [Heq|Heq]; [trans w1; [done|by trans w2]|done|done|congruence|congruence].
Qed.

(** No change of a request that was settled is made later. *)
Lemma op_settled_unmade w it w1 w2 change it' w' :
  op_read w it w1 -> settled it -> rtc op_sys w1 w2 -> op_change change -> ~ op_made change w2 it' w'.
Proof using Type.
  intros Hr Hset Hs Hc (wa & wb & Ha & Hit & Hh & _).
  assert (it' = it) as -> by (eapply (op_read_settled w it w1 w2 it' wa); [done|done|done|by exists wa]).
  by rewrite (settled_stays _ _ Hset Hc) in Hh.
Qed.
(** ** Programs *)

Definition op_request (R : Type) (r : request R) : Prop :=
  match r with
  | UpdateItem k xs c => k <> op_key \/ exists change, op_change change /\ xs = updates change /\ c = condition change
  | PutItem it _ => item_key it <> Some op_key
  | TransactWrite ops => Forall (fun o => txop_key o <> Some op_key) ops
  | _ => True
  end.

Definition any_answer (R : Type) (r : request R) (x : exn + R) : Prop := True.

(** The program does to the request only what [op_sys] allows. *)
Definition keeps_op {A : Type} (p : prog A) : Prop := asks op_request any_answer p.

Lemma op_change_step change w1 it :
  op_change change -> tbl w1 !! op_key = Some it -> holds (condition change) it = true ->
  op_sys w1 (with_tbl w1 (<[op_key := apply_actions (updates change) it]> (tbl w1))).
Proof using Type. intros Hc Hit Hh. unfold op_sys. cbn [tbl with_tbl]. rewrite lookup_insert_eq, Hit. by econstructor. Qed.

(** A change whose condition held found the item. *)
Lemma change_finds change w1 : op_change change -> holds (condition change) (item_at w1 op_key) = true ->
  exists it, tbl w1 !! op_key = Some it /\ holds (condition change) it = true.
Proof using Type.
  unfold item_at. intros Hc Hh. destruct (tbl w1 !! op_key) as [it|] eqn:Hit; [by exists it|].
  by destruct (change_has_key _ _ Hc Hh).
Qed.

Lemma op_request_steps R (r : request R) w x w' : op_request R r -> True -> contract r w x w' -> rtc op_sys w w'.
Proof using Type.
  intros Hr _ Hc. destruct x as [e|v]; [by destruct Hc as [-> _]|]. apply rtc_once.
  destruct r; cbn [op_request contract answered] in *; try (by destruct Hc as [_ ->]; apply op_frame); try (subst; by apply op_frame).
  - destruct Hc as (Hc & -> & ->). destruct (decide (k = op_key)) as [->|Hne]; [|by apply op_frame, lookup_insert_ne].
    destruct Hr as [|(change & Hch & -> & ->)]; [done|]. destruct (change_finds _ _ Hch Hc) as (it & Hit & Hh). rewrite Hit. by apply op_change_step.
  - destruct Hc as (k & Hk & Hc & ->). apply op_frame, lookup_insert_ne. congruence.
  - destruct Hc as [_ ->]. destruct (decide (k = op_key)) as [->|Hne]; [|by apply op_frame, lookup_delete_ne].
    unfold op_sys. cbn. rewrite lookup_delete_eq. constructor.
  - destruct Hc as (_ & _ & ->). apply op_frame. cbn. generalize (tbl w). induction Hr as [|o ops Ho _ IH]; intros m; [done|].
    cbn [foldl]. rewrite IH. destruct o as [k xs c|it c|k c]; cbn in *; [by rewrite lookup_insert_ne by congruence| |done].
    destruct (item_key it); [by rewrite lookup_insert_ne by congruence|done].
Qed.

Section programs.
Context `{Service} (I : World -> World -> Prop) (HI : forall w w', I w w' -> op_sys w w').

Lemma op_others w w' : rtc I w w' -> rtc op_sys w w'.
Proof using HI. induction 1; econstructor; eauto. Qed.

Lemma keeps_op_exec {A : Type} (p : prog A) w o w' : keeps_op p -> exec I p w o w' -> rtc op_sys w w'.
Proof using HI.
  intros Hp. apply (asks_exec I op_sys (fun _ => True) op_request any_answer HI); [done| |done|done|done].
  intros. by eapply op_request_steps.
Qed.

(** A step of a program that keeps to the request, before the rest of it. *)
Lemma op_bind {A B : Type} (p : prog A) (f : A -> prog B) w b w' :
  keeps_op p -> exec I (bind p f) w (Ok b) w' ->
  exists a w1, rtc op_sys w w1 /\ exec I p w (Ok a) w1 /\ exec I (f a) w1 (Ok b) w'.
Proof using HI. intros Hp [(a & w1 & Ha & Hb)|(e & [=] & _)]%exec_bind. exists a, w1. split_and!; [by eapply keeps_op_exec|done|done]. Qed.

Lemma op_update_exec change w o w' :
  op_change change -> exec I (update_operation t id change) w o w' ->
  rtc op_sys w w' /\
  match o with
  | Ok it' => exists it, it' = apply_actions (updates change) it /\ op_made change w it w'
  | Err e => is_service_exn e = true
  end.
Proof using HI.
  intros Hc (w1 & w2 & Hw1%op_others & Hr%respond_contract & Hw2%op_others)%exec_send. destruct o as [e|it']; cbn [contract answered] in Hr.
  - destruct Hr as [-> [He _]]. split; [by trans w1|done].
  - destruct Hr as (Hh & -> & ->). destruct (change_finds _ _ Hc Hh) as (it & Hit & Hh'). rewrite Hit in *. cbn [base_item default from_option Datatypes.id] in *.
    pose proof (op_change_step _ _ _ Hc Hit Hh') as Hs. split; [trans w1; [done|by eapply rtc_l]|]. exists it. split; [done|].
    eexists w1, _. split_and!; [done|done|done|exact Hs|apply lookup_insert_eq|done].
Qed.

Lemma exec_false_when p w o w' :
  exec I (false_when_condition_fails p) w o w' ->
  (o = Ok true /\ exec I p w (Ok tt) w') \/ (o = Ok false /\ exists w1, exec I p w (Err ConditionalCheckFailedException) w1 /\ rtc I w1 w') \/
  exists e, o = Err e.
Proof using Type.
  intros [(b & -> & [([] & w1 & Hp & [[= ->] Hw'])|(? & [=] & _)]%exec_bind)|(e & w1 & [(? & ? & _ & [[=] _])|(e' & [= <-] & Hp)]%exec_bind & Hh)]%exec_catch.
  - left. split; [done|]. by eapply exec_others_r.
  - destruct e; destruct Hh as [-> Hw']; [right; left; split; [done|by exists w1]|..]; right; right; by eexists.
Qed.

(** The methods that answer whether their change was made. *)
Lemma op_answer_exec change w w' :
  op_change change -> exec I (false_when_condition_fails (update_operation t id change ;;; Ret tt)) w (Ok true) w' ->
  exists it, op_made change w it w'.
Proof using HI.
  intros Hc [[_ Hex]|[[[=] _]|[? [=]]]]%exec_false_when.
  apply exec_bind in Hex as [(it' & w1 & [_ (it & _ & Hm)]%op_update_exec & [_ Hw'])|(? & [=] & _)]; [|done].
  exists it. eapply op_made_later; [done|by apply op_others].
Qed.

Lemma op_get_exec now w o w' :
  exec I (getLiveFileOperation t id now) w (Ok o) w' ->
  rtc op_sys w w' /\
  match o with
  | Some o => exists it, op_read w it w' /\ decodeFileOp it = Some o
  | None => (exists w1, rtc op_sys w w1 /\ tbl w1 !! op_key = None /\ rtc op_sys w1 w') \/
      exists it o, op_read w it w' /\ decodeFileOp it = Some o /\ isExpired o now = true
  end.
Proof using HI.
  intros [(x & w1 & (w2 & Hw2%op_others & -> & Hw1%op_others)%exec_get & Hrest)|(? & [=] & _)]%exec_bind.
  destruct (tbl w2 !! op_key) as [it|] eqn:Hit.
  - unfold decode_file_op in Hrest. destruct (decodeFileOp it) as [o'|] eqn:Hd; [|by destruct Hrest].
    destruct Hrest as [[= ->] Hw'%op_others]. assert (op_read w it w') as Hr by (exists w2; split_and!; [done|done|by trans w1]).
    split; [trans w1; [by trans w2|done]|]. destruct (isExpired o' now) eqn:He; [right; by exists it, o'|by exists it].
  - destruct Hrest as [[= ->] Hw'%op_others]. split; [trans w1; [by trans w2|done]|]. left. exists w2. split_and!; [done|done|by trans w1].
Qed.
End programs.

(** ** The programs around a request *)

Lemma may_op_update change : op_change change -> op_request _ (UpdateItem op_key (updates change) (condition change)).
Proof using Type. right. by exists change. Qed.

(** An item whose sort key is that of an audit is no request. *)
Lemma audit_not_op t' at_ i : fileAuditKey t' at_ i <> op_key.
Proof using Type. intros Heq%(f_equal snd). done. Qed.
End request.

Section walks.
Context (t id : string).

Ltac op_step_tac :=
  match goal with
  | |- op_request _ _ _ (UpdateItem (fileAuditKey _ _ _) _ _) => left; apply audit_not_op
  | |- op_request _ _ _ _ => exact I
  | _ => asks_structure
  end.
Ltac solve_op := unfold keeps_op; repeat op_step_tac.

Lemma keeps_update id' change : op_change change -> keeps_op t id (update_operation t id' change).
Proof using Type.
  intros Hc. apply asks_send. destruct (decide (id' = id)) as [->|Hne]; [by apply may_op_update|].
  left. intros Heq%(f_equal snd). cbn in Heq. by injection Heq.
Qed.
#[local] Hint Resolve keeps_update : asks.

Lemma keeps_get id' now : keeps_op t id (getLiveFileOperation t id' now).
Proof using Type. solve_op. Qed.
Lemma keeps_delete id' : keeps_op t id (deleteLiveFileOperation t id').
Proof using Type. solve_op. Qed.
Lemma keeps_false_when p : keeps_op t id p -> keeps_op t id (false_when_condition_fails p).
Proof using Type. intros Hp. apply asks_catch; [by apply asks_bind|]. intros []; exact I. Qed.
Lemma keeps_answer id' change : op_change change -> keeps_op t id (false_when_condition_fails (update_operation t id' change ;;; Ret tt)).
Proof using Type. intros Hc. apply keeps_false_when, asks_bind; [by apply keeps_update|done]. Qed.
Lemma keeps_complete id' outcome now : keeps_op t id (completeLiveFileOperation t id' outcome now).
Proof using Type. apply asks_null_when, asks_bind; [apply keeps_update; constructor|]. intros it. destruct (decode_file_op it); exact I. Qed.
Lemma keeps_abandon id' now : keeps_op t id (abandonLiveFileOperation t id' now).
Proof using Type.
  apply asks_catch; [apply asks_bind; [apply keeps_update; constructor|done]|]. intros []; try exact I.
  apply asks_bind; [apply keeps_get|done].
Qed.
Lemma keeps_file_audit o outcome : keeps_op t id (finishAudit o outcome).
Proof using Type.
  unfold finishAudit. destruct (FileOp.auditAtMilliseconds o); [|exact I]. apply asks_bind; [by apply asks_send|]. intros now.
  apply asks_bind; [unfold getFileAudit; solve_op|]. intros [audit|]; [|exact I]. apply asks_bind; [|done].
  apply keeps_false_when. solve_op.
Qed.
Lemma keeps_close o outcome : keeps_op t id (close_request t o outcome).
Proof using Type.
  apply asks_bind; [apply keeps_file_audit|]. intros _. apply asks_bind; [|done]. destruct (FileOp.waiterGone o); [apply keeps_delete|exact I].
Qed.
Lemma keeps_result_round identity id' outcome : Identity.tenantId identity = t -> keeps_op t id (result_round identity id' outcome).
Proof using Type.
  intros Hi. unfold result_round. cbv zeta. rewrite Hi. apply asks_bind; [by apply asks_send|]. intros now.
  apply asks_bind; [apply keeps_get|]. intros [o|]; [|exact I]. destruct (negb _); [exact I|]. destruct (FileOp.status o); try exact I.
  - destruct (match ok_result outcome with Some _ => _ | None => _ end); [exact I|]. apply asks_bind; [apply keeps_complete|].
    intros [c|]; [|exact I]. apply asks_bind; [apply keeps_close|done].
  - destruct (FileOp.outcome o); [|exact I]. destruct (parse_json _); [|exact I]. case_decide; [|exact I].
    apply asks_bind; [apply keeps_close|done].
Qed.
Lemma keeps_record identity id' outcome : Identity.tenantId identity = t -> keeps_op t id (recordLiveFileResult identity id' outcome).
Proof using Type.
  intros Hi. apply asks_bind; [by apply keeps_result_round|]. intros [d|]; [exact I|]. apply asks_bind; [by apply keeps_result_round|done].
Qed.
Lemma keeps_look parse_outcome target : WaitTarget.tenantId target = t -> keeps_op t id (lookAtRequest parse_outcome target).
Proof using Type.
  intros Ht. unfold lookAtRequest. rewrite Ht. apply asks_bind; [by apply asks_send|]. intros now. apply asks_bind; [apply keeps_get|].
  intros [o|]; [|exact I]. destruct (FileOp.status o); try exact I. destruct (FileOp.outcome o) as [text|]; [|exact I].
  apply asks_bind; [apply keeps_delete|]. intros _. destruct (parse_json text) as [j|]; [|exact I]. destruct (parse_outcome j); exact I.
Qed.
End walks.

(** No change of a request touches when it expires. *)
Lemma op_step_expires it it' : op_step it it' -> it' !! "expires_at" = it !! "expires_at".
Proof. intros [change Hc _]. rewrite lookup_apply_actions. by destruct Hc. Qed.

(** ** A new request *)

Lemma encodeFileOp_reads o :
  encodeFileOp o !! "operation_id" = Some (AS (FileOp.operationId o)) /\ has_status (encodeFileOp o) (FileOp.status o) /\
  encodeFileOp o !! "delivered_sequence" = AN <$> FileOp.deliveredSequence o /\
  encodeFileOp o !! "expires_at" = Some (AN (epochSeconds (FileOp.expiresAt o))) /\
  item_key (encodeFileOp o) = Some (liveFileOperationKey (FileOp.tenantId o) (FileOp.operationId o)).
Proof.
  unfold has_status, item_key, encodeFileOp, put_flag. cbv zeta.
  destruct o as [? ? ? ? ? ? ? ? request ? delivered sequence outcome gone audit ?]; cbn [FileOp.request FileOp.deliveredAt
    FileOp.deliveredSequence FileOp.outcome FileOp.waiterGone FileOp.auditAtMilliseconds FileOp.status FileOp.operationId FileOp.tenantId FileOp.expiresAt].
  destruct request, delivered, sequence, outcome, gone, audit; cbn [put_if]; split_and!; reflexivity.
Qed.

Lemma new_op_inv o : FileOp.status o = OpPending -> FileOp.deliveredSequence o = None -> op_inv (FileOp.operationId o) (encodeFileOp o).
Proof.
  destruct (encodeFileOp_reads o) as (Hn & Hs & Hq & _). intros Hp Hd. rewrite Hp in Hs. rewrite Hd in Hq. constructor.
  - done.
  - by exists OpPending.
  - intros Hdone. by pose proof (has_status_inj _ _ _ Hs Hdone).
  - by rewrite Hq.
Qed.
