(* ===== verification/FileTheorems.v ===== *)
(** * What the file panel is promised

    The answer to a file request is recorded once and is the one the panel shows; a request that was abandoned is never
    handed to the owner; what a poll hands out was marked as delivered to the owner that polls.

    A request that a member queues for the owner of OwnerDemo.v, that the owner is handed, answers, and that the panel reads;
    and one that nobody takes. The theorems of FileTheorems.v are applied to them. *)

From S2P Require Import Prelude Json Types Computers Service TurnCodec TurnStore Demo OwnerDemo ComputerStore.
From S2P Require Import ComputerSystem ComputerPrograms FileAudits FileRequests FileSystem Retry Paging TurnPrograms.
From S2P Require Import ComputerSpec Footprint OwnerTheorems.
From coqutil Require Import Datatypes.RecordSetters.
Import DoubleBraceUpdate.
From stdpp Require Import sorting.
#[local] Open Scope Z_scope.
#[local] Open Scope prog_scope.

(** The record of the computer as the panel and the poll read it. *)
Definition demo_served : Computer :=
  (newComputerRecord "acme" "id-0") {{ Computer.ownerId := Some "w1"; Computer.ownerGeneration := Some 1;
    Computer.hostStartGeneration := 1; Computer.interactiveUntilAt := Some 1049000 }}.

Definition demo_operation : string := "fop-id-0".
Definition demo_input : QueueLiveFileRequestInput :=
  QueueInput.mk demo_served "ann" [("kind", JStr "stat"); ("path", JStr "/workspace/notes.txt")] None None.
Definition demo_queue : prog (option (string * Z)) := queueLiveFileRequest demo_input.
Definition demo_queued : World := (run demo_queue (demo_at 3) demo_polled).2.

Definition demo_hand : prog (list json) :=
  deliverLiveFileRequests 2 any_request demo_identity (PollRequest.mk "w1" 1 3 2 "idle" [] None) demo_served.
Definition demo_handed : World := (run demo_hand (demo_at 4) demo_queued).2.

(** The request as the owner is handed it, with the time left to answer. *)
Definition demo_handed_request : json :=
  JObj [("kind", JStr "stat"); ("path", JStr "/workspace/notes.txt"); ("operation_id", JStr "fop-id-0"); ("expires_in_ms", JNum 7000)].

Definition demo_answer : json := JObj [("status", JStr "error"); ("code", JStr "not_found")].
Definition demo_same_answer : json := JObj [("code", JStr "not_found"); ("status", JStr "error")].
Definition demo_record (answer : json) : prog LiveFileResultDecision := recordLiveFileResult demo_identity demo_operation answer.
Definition demo_recorded : World := (run (demo_record demo_answer) (demo_at 5) demo_handed).2.

Definition demo_target : LiveFileWaitTarget := WaitTarget.mk "acme" demo_operation 1004000 false.
Definition demo_wait : prog LiveFileWaitResult := awaitLiveFileOutcome any_request demo_target 4.

(** Eight seconds after the request was queued. *)
Definition demo_late : Local := demo_at 11.
Definition demo_given_up : World := (run demo_wait demo_late demo_queued).2.

(** What the demonstration reads of a request. *)
Definition request_view (w : World) : option (option attr * option attr * option attr * option attr) :=
  (fun it : item => (it !! "operation_id", it !! "status", it !! "delivered_sequence", it !! "expires_at"))
    <$> tbl w !! liveFileOperationKey "acme" demo_operation.

Lemma demo_file_runs :
  (run demo_queue (demo_at 3) demo_polled).1 = Ok (Some (demo_operation, 1004000)) /\
  (run demo_hand (demo_at 4) demo_queued).1 = Ok [demo_handed_request] /\
  (run (demo_record demo_answer) (demo_at 5) demo_handed).1 = Ok result_recorded /\
  (run (demo_record demo_same_answer) (demo_at 6) demo_recorded).1 = Ok result_recorded /\
  (run demo_wait (demo_at 6) demo_recorded).1 = Ok (wait_done demo_answer) /\
  (run demo_wait demo_late demo_queued).1 = Ok wait_abandoned.
Proof. vm_compute. split_and!; reflexivity. Qed.

Lemma demo_requests :
  request_view demo_queued = Some (Some (AS demo_operation), Some (AS "pending"), None, Some (AN 1124)) /\
  request_view demo_handed = Some (Some (AS demo_operation), Some (AS "delivered"), Some (AN 2), Some (AN 1124)).
Proof. vm_compute. by split. Qed.

(** The only request of the demonstration is this one. *)
Lemma demo_one_request : map_Forall (fun (k : key) (_ : item) => k.1 = "acme#computer#fileops" -> k.2 = "op#fop-id-0") (tbl demo_queued).
Proof. apply (bool_decide_unpack _). vm_compute. exact Logic.I. Qed.

Lemma request_viewed w name status sequence expires :
  request_view w = Some (name, status, sequence, expires) ->
  exists it, tbl w !! liveFileOperationKey "acme" demo_operation = Some it /\ it !! "operation_id" = name /\ it !! "status" = status /\
    it !! "delivered_sequence" = sequence /\ it !! "expires_at" = expires.
Proof. unfold request_view. intros (it & Hit & [= -> -> -> ->])%fmap_Some. by exists it. Qed.

Lemma demo_gives_up : exec (H:=clock_service (local_now demo_late)) alone demo_wait demo_queued (Ok wait_abandoned) demo_given_up.
Proof. exact (run_exec_at demo_wait demo_late demo_queued _ (proj2 (proj2 (proj2 (proj2 (proj2 demo_file_runs)))))). Qed.

(** ** Answers *)

Section answers.
Context `{Service} (I : World -> World -> Prop) (t id : string) (HI : forall w w', I w w' -> op_sys t id w w').

(** A recorded answer, read from the item of the request. *)
Definition answer_of (it : item) : option json :=
  match it !! "outcome" with Some (AB text) => parse_json text | _ => None end.

Lemma answered_settled it j : has_status it OpDone -> answer_of it = Some j -> settled it.
Proof using Type. intros Hs _. by left. Qed.

(** The request was answered with [outcome], up to the order of the fields of objects, at one moment of a call. *)
Definition answered_with (w : World) (outcome : json) (w' : World) : Prop :=
  exists it j, op_read t id w it w' /\ has_status it OpDone /\ answer_of it = Some j /\ sortedJson j = sortedJson outcome.

Lemma answered_earlier w0 w outcome w' : rtc (op_sys t id) w0 w -> answered_with w outcome w' -> answered_with w0 outcome w'.
Proof using Type. intros Hw (it & j & Hr & ?). exists it, j. split; [by eapply op_read_earlier|done]. Qed.
Lemma answered_later w outcome w1 w' : answered_with w outcome w1 -> rtc (op_sys t id) w1 w' -> answered_with w outcome w'.
Proof using Type. intros (it & j & Hr & ?) Hw. exists it, j. split; [by eapply op_read_later|done]. Qed.

Lemma complete_exec outcome now w o w' :
  exec I (completeLiveFileOperation t id (stringify outcome) now) w (Ok (Some o)) w' -> answered_with w outcome w'.
Proof using HI.
  intros [(a & [= <-] & Hex)|[[[=] _]|(e & _ & [=] & _)]]%exec_null_when.
  apply exec_bind in Hex as [(it' & w1 & [_ (it & -> & Hm)]%(op_update_exec t id I HI) & Hw')|(? & [=] & _)]; [|constructor].
  assert (rtc (op_sys t id) w1 w') as Hs.
  { destruct (decode_file_op _); destruct Hw' as [_ Hw']; by apply (op_others t id I HI). }
  destruct (after_complete (stringify outcome) now it) as (Hst & Hout & _).
  exists (apply_actions (updates (complete_change (stringify outcome) now)) it), outcome. split_and!.
  - eapply op_read_later; [by apply op_made_read|done].
  - done.
  - unfold answer_of. rewrite Hout. apply parse_stringify.
  - done.
Qed.

Lemma round_exec identity outcome w d w' :
  Identity.tenantId identity = t -> op_ok t id w -> exec I (result_round identity id outcome) w (Ok (Some d)) w' ->
  d = result_recorded -> answered_with w outcome w'.
Proof using HI.
  intros Hi Hok Hex ->. unfold result_round in Hex. cbv zeta in Hex. rewrite Hi in Hex.
  apply (op_bind t id I HI) in Hex as (now & w1 & Hw1 & _ & Hex); [|by apply asks_send].
  apply (op_bind t id I HI) in Hex as (found & w2 & Hw2 & Hf & Hex); [|apply keeps_get].
  apply (op_get_exec t id I HI) in Hf as [_ Hf]. destruct found as [o|]; [|by destruct Hex].
  destruct Hf as (it & Hread & Hd). destruct (decoded_op _ _ Hd) as (Hst & Hout & Hname & _).
  destruct (negb _); [by destruct Hex|]. destruct (FileOp.status o) eqn:Hs; try by destruct Hex.
  - destruct (match ok_result outcome with Some _ => _ | None => _ end); [by destruct Hex|].
    apply (op_bind t id I HI) in Hex as (c & w3 & Hw3 & Hc & Hex); [|apply keeps_complete]. destruct c as [c|]; [|by destruct Hex].
    assert (FileOp.operationId o = id) as Hid.
    { assert (op_ok t id w1) as Hok1 by by eapply op_syses_ok. pose proof (op_read_inv t id w1 it w2 Hok1 Hread) as Hi'.
      pose proof (inv_name id it Hi'). congruence. }
    rewrite Hid in Hc. apply complete_exec in Hc. eapply answered_earlier; [by trans w1|]. eapply answered_later; [done|].
    eapply (keeps_op_exec t id I HI); [|exact Hex]. apply asks_bind; [apply keeps_close|done].
  - rewrite Hout in Hex. destruct (it !! "outcome") as [[]|] eqn:Ho; try by destruct Hex.
    destruct (parse_json _) as [j|] eqn:Hj; [|by destruct Hex]. case_decide as Heq; [|by destruct Hex].
    exists it, j. split_and!; [|done|by unfold answer_of; rewrite Ho|done]. eapply op_read_earlier; [done|]. eapply op_read_later; [done|].
    eapply (keeps_op_exec t id I HI); [|exact Hex]. apply asks_bind; [apply keeps_close|done].
Qed.

Lemma record_exec identity outcome w w' :
  Identity.tenantId identity = t -> op_ok t id w -> exec I (recordLiveFileResult identity id outcome) w (Ok result_recorded) w' ->
  answered_with w outcome w'.
Proof using HI.
  intros Hi Hok Hex. apply (op_bind t id I HI) in Hex as (d & w1 & Hw1 & Hd & Hex); [|by apply keeps_result_round].
  destruct d as [d|].
  - destruct Hex as [[= <-] Hw'%(op_others t id I HI)]. eapply answered_later; [|done]. by eapply round_exec.
  - apply (op_bind t id I HI) in Hex as (d' & w2 & Hw2 & Hd' & Hex); [|by apply keeps_result_round].
    destruct d' as [d'|]; [|by destruct Hex]. destruct Hex as [[= <-] Hw'%(op_others t id I HI)].
    eapply answered_earlier; [done|]. eapply answered_later; [|done]. eapply round_exec; [done| |exact Hd'|done]. by eapply op_syses_ok.
Qed.

(** C32: A file request has one answer: whenever two answers to a request are both reported as recorded, by the owner's retries or
    by anybody, whatever runs between and during the calls, they are the same JSON up to the order of fields. *)
Theorem request_has_one_answer identity outcome identity' outcome' w w1 w2 w3 :
  Identity.tenantId identity = t -> Identity.tenantId identity' = t -> op_ok t id w ->
  exec I (recordLiveFileResult identity id outcome) w (Ok result_recorded) w1 -> rtc (op_sys t id) w1 w2 ->
  exec I (recordLiveFileResult identity' id outcome') w2 (Ok result_recorded) w3 ->
  sortedJson outcome = sortedJson outcome'.
Proof using HI.
  intros Hi Hi' Hok Hex Hs Hex'.
  assert (op_ok t id w1) as Hok1 by (eapply op_syses_ok; [done|]; by eapply (keeps_op_exec t id I HI), Hex; apply keeps_record).
  apply record_exec in Hex as (it & j & Hr & Hst & Hj & <-); [|done..].
  apply record_exec in Hex' as (it' & j' & Hr' & _ & Hj' & <-); [|done|by eapply op_syses_ok].
  rewrite (op_read_settled t id _ _ _ _ _ _ Hr (or_introl Hst) Hs Hr') in Hj'. congruence.
Qed.
End answers.

(** ** The wait *)

Section wait.
Context `{Service} (I : World -> World -> Prop) (parse_outcome : json -> exn + json) (target : LiveFileWaitTarget).
Abbreviation t := (WaitTarget.tenantId target).
Abbreviation id := (WaitTarget.operationId target).
Abbreviation op_key := (liveFileOperationKey t id).
Context (HI : forall w w', I w w' -> op_sys t id w w').

(** What was shown is the recorded answer, as the schema reads it. *)
Definition shown (w : World) (v : json) (w' : World) : Prop :=
  exists it j, op_read t id w it w' /\ has_status it OpDone /\ answer_of it = Some j /\ parse_outcome j = Ok v.

Lemma shown_earlier w0 w v w' : rtc (op_sys t id) w0 w -> shown w v w' -> shown w0 v w'.
Proof using Type. intros Hw (it & j & Hr & ?). exists it, j. split; [by eapply op_read_earlier|done]. Qed.
Lemma shown_later w v w1 w' : shown w v w1 -> rtc (op_sys t id) w1 w' -> shown w v w'.
Proof using Type. intros (it & j & Hr & ?) Hw. exists it, j. split; [by eapply op_read_later|done]. Qed.

Lemma look_done_exec w v w' : exec I (lookAtRequest parse_outcome target) w (Ok (look_done v)) w' -> shown w v w'.
Proof using HI.
  unfold lookAtRequest. intros (now & w1 & Hw1 & _ & Hex)%(op_bind t id I HI); [|by apply asks_send].
  apply (op_bind t id I HI) in Hex as (found & w2 & Hw2 & Hf & Hex); [|apply keeps_get].
  apply (op_get_exec t id I HI) in Hf as [_ Hf]. destruct found as [o|]; [|by destruct Hex].
  destruct Hf as (it & Hread & Hd). destruct (decoded_op _ _ Hd) as (Hst & Hout & _).
  destruct (FileOp.status o); try by destruct Hex. destruct (FileOp.outcome o) as [text|]; [|by destruct Hex].
  apply (op_bind t id I HI) in Hex as (u & w3 & Hw3 & _ & Hex); [|apply keeps_delete].
  destruct (parse_json text) as [j|] eqn:Hj; [|by destruct Hex]. destruct (parse_outcome j) as [|v'] eqn:Hv; [by destruct Hex|].
  destruct Hex as [[= ->] Hw'%(op_others t id I HI)]. exists it, j. split_and!; [|done| |done].
  - eapply op_read_earlier; [done|]. eapply op_read_later; [done|]. by trans w3.
  - unfold answer_of. destruct (it !! "outcome") as [[]|]; try done. by injection Hout as ->.
Qed.

Lemma keeps_sleep d : keeps_op t id (send (Sleep d)).
Proof using Type. by apply asks_send. Qed.

Lemma look_until_done sleep_first deadline rounds w v w' :
  exec I (look_until parse_outcome target sleep_first deadline rounds) w (Ok (Some (wait_done v))) w' -> shown w v w'.
Proof using HI.
  revert w. induction rounds as [|n IH]; intros w; cbn [look_until]; [by intros [[=] _]|].
  intros (u & w1 & Hw1 & _ & Hex)%(op_bind t id I HI); [|destruct sleep_first; [apply keeps_sleep|done]].
  apply (op_bind t id I HI) in Hex as (look & w2 & Hw2 & Hl & Hex); [|by apply keeps_look]. eapply shown_earlier; [done|].
  destruct look as [v'| |]; [|by destruct Hex|].
  - destruct Hex as [[= ->] Hw'%(op_others t id I HI)]. eapply shown_later; [by apply look_done_exec|done].
  - apply (op_bind t id I HI) in Hex as (now & w3 & Hw3 & _ & Hex); [|by apply asks_send]. case_match; [by destruct Hex|].
    apply (op_bind t id I HI) in Hex as (u' & w4 & Hw4 & _ & Hex); [|destruct sleep_first; [done|apply keeps_sleep]].
    eapply shown_earlier; [|by apply IH]. trans w2; [done|]. by trans w3.
Qed.

Lemma keeps_look_until sleep_first deadline rounds : keeps_op t id (look_until parse_outcome target sleep_first deadline rounds).
Proof using Type.
  induction rounds as [|n IH]; cbn [look_until]; [done|]. apply asks_bind; [destruct sleep_first; [apply keeps_sleep|done]|]. intros _.
  apply asks_bind; [by apply keeps_look|]. intros [v| |]; [done|done|]. apply asks_bind; [by apply asks_send|]. intros now.
  destruct (_ <=? _); [done|]. apply asks_bind; [destruct sleep_first; [done|apply keeps_sleep]|done].
Qed.

Lemma give_up_done w v w' : exec I (give_up_waiting parse_outcome target) w (Ok (wait_done v)) w' -> shown w v w'.
Proof using HI.
  intros (marked & w1 & Hw1 & _ & Hex)%(op_bind t id I HI); [|apply keeps_answer; constructor]. destruct marked; [by destruct Hex|].
  apply (op_bind t id I HI) in Hex as (last & w2 & Hw2 & Hl & Hex); [|by apply keeps_look].
  destruct last; destruct Hex as [[= ->] Hw'%(op_others t id I HI)]. eapply shown_earlier; [done|].
  eapply shown_later; [by apply look_done_exec|done].
Qed.

Lemma wait_done_exec rounds w v w' :
  exec I (awaitLiveFileOutcome parse_outcome target rounds) w (Ok (wait_done v)) w' -> shown w v w'.
Proof using HI.
  unfold awaitLiveFileOutcome. cbv zeta. intros (found & w1 & Hw1 & Hf & Hex)%(op_bind t id I HI); [|apply keeps_look_until].
  destruct found as [result|].
  { destruct Hex as [[= <-] Hw'%(op_others t id I HI)]. eapply shown_later; [by eapply look_until_done|done]. }
  apply (op_bind t id I HI) in Hex as (now & w2 & Hw2 & _ & Hex); [|by apply asks_send].
  apply (op_bind t id I HI) in Hex as (abandoned & w3 & Hw3 & _ & Hex); [|apply keeps_abandon].
  eapply (shown_earlier w w3); [trans w1; [done|by trans w2]|].
  assert (exec I
    (if WaitTarget.graceForDelivered target then
       let! late := look_until parse_outcome target true (WaitTarget.queuedAt target + LIVE_FILE_WAIT_MILLISECONDS + LIVE_FILE_OUTCOME_GRACE_MILLISECONDS) rounds in
       match late with Some result => Ret result | None => give_up_waiting parse_outcome target end
     else give_up_waiting parse_outcome target) w3 (Ok (wait_done v)) w' -> shown w3 v w') as Hlate.
  { intros Hl. destruct (WaitTarget.graceForDelivered target); [|by apply give_up_done].
    apply (op_bind t id I HI) in Hl as (late & w4 & Hw4 & Hlt & Hl); [|apply keeps_look_until]. destruct late as [result|].
    - destruct Hl as [[= <-] Hw'%(op_others t id I HI)]. eapply shown_later; [by eapply look_until_done|done].
    - eapply shown_earlier; [done|by apply give_up_done]. }
  destruct abandoned as [[]|]; try (by destruct Hex); try (by apply Hlate).
  apply (op_bind t id I HI) in Hex as (look & w4 & Hw4 & Hl & Hex); [|by apply keeps_look].
  destruct look; destruct Hex as [[= ->] Hw'%(op_others t id I HI)]. eapply shown_later; [by apply look_done_exec|done].
Qed.

(** The file panel shows the recorded answer: a wait that ends with an answer after a result was reported as recorded shows
    exactly that result, up to the order of fields, as the schema reads it. *)
Theorem panel_shows_recorded_answer identity outcome rounds w w1 w2 v w3 :
  Identity.tenantId identity = t -> op_ok t id w ->
  exec I (recordLiveFileResult identity id outcome) w (Ok result_recorded) w1 -> rtc (op_sys t id) w1 w2 ->
  exec I (awaitLiveFileOutcome parse_outcome target rounds) w2 (Ok (wait_done v)) w3 ->
  exists j, sortedJson j = sortedJson outcome /\ parse_outcome j = Ok v.
Proof using HI.
  intros Hi Hok Hex Hs (it' & j' & Hr' & _ & Hj' & Hv)%wait_done_exec.
  apply (record_exec I t id HI) in Hex as (it & j & Hr & Hst & Hj & Heq); [|done..]. exists j'. split; [|done].
  rewrite (op_read_settled t id _ _ _ _ _ _ Hr (or_introl Hst) Hs Hr') in Hj'. congruence.
Qed.
End wait.

(** ** A wait that ends without an answer *)

Section abandoned.
Context `{Service} (I : World -> World -> Prop) (parse_outcome : json -> exn + json) (target : LiveFileWaitTarget) (e : Z).
Abbreviation t := (WaitTarget.tenantId target).
Abbreviation id := (WaitTarget.operationId target).
Abbreviation op_key := (liveFileOperationKey t id).

(** While the wait runs only the wait itself removes the request, and its time to live, which ends at second [e], has not
    passed. *)
Context (HI : forall w w', I w w' -> op_sys t id w w')
        (HK : forall w w', I w w' -> is_Some (tbl w !! op_key) -> is_Some (tbl w' !! op_key))
        (HT : forall w now w', respond ClockNow w (Ok now) w' -> now < e * 1000).

(** The request is there, and lives until second [e]. *)
Definition kept (w : World) : Prop := exists it, tbl w !! op_key = Some it /\ op_inv id it /\ it !! "expires_at" = Some (AN e).

(** The request was abandoned, and is there as it was then. *)
Definition left_abandoned (w : World) : Prop := exists it, tbl w !! op_key = Some it /\ has_status it OpAbandoned /\ op_inv id it.

Lemma kept_step w w' : kept w -> op_sys t id w w' -> is_Some (tbl w' !! op_key) -> kept w'.
Proof using Type.
  intros (it & Hit & Hi & He) Hs [it' Hit']. exists it'. split; [done|]. unfold op_sys in Hs. rewrite Hit, Hit' in Hs.
  inversion Hs as [Heq| |it0 it1 [= <-] Hstep]; subst; [done|]. split; [by eapply op_step_inv|by erewrite op_step_expires].
Qed.

Lemma kept_others w w' : kept w -> rtc I w w' -> kept w' /\ rtc (op_sys t id) w w'.
Proof using HI HK.
  intros Hk Hw. split; [|by eapply (op_others t id I HI)]. induction Hw as [|w w1 w' Hw _ IH]; [done|]. apply IH.
  eapply kept_step; [done|by apply HI|]. apply (HK w); [done|]. destruct Hk as (it & -> & _). by eexists.
Qed.

Lemma left_others w w' : left_abandoned w -> rtc I w w' -> left_abandoned w'.
Proof using HI HK.
  intros (it & Hit & Hst & Hi) Hw. exists it. split; [|done].
  destruct (op_settled_stays t id w w' it) as [|Hn]; [by eapply (op_others t id I HI)|done|by right|done|].
  assert (is_Some (tbl w' !! op_key)) as [? ?]; [|congruence]. clear Hn.
  assert (is_Some (tbl w !! op_key)) as Hs by by eexists. clear Hit. induction Hw; [done|]. eauto.
Qed.

(** A read finds the request, and as it is at that moment. *)
Lemma kept_get now w o w' :
  kept w -> now < e * 1000 -> exec I (getLiveFileOperation t id now) w (Ok o) w' ->
  kept w' /\ exists w1 it o', rtc I w w1 /\ tbl w1 !! op_key = Some it /\ rtc I w1 w' /\ op_inv id it /\ o = Some o' /\ decodeFileOp it = Some o'.
Proof using HI HK.
  intros Hk Hnow [(x & w1 & (w2 & Hw2 & -> & Hw1)%exec_get & Hrest)|(? & [=] & _)]%exec_bind.
  destruct (kept_others _ _ Hk Hw2) as [(it & Hit & Hi & He) _]. rewrite Hit in Hrest.
  unfold decode_file_op in Hrest. destruct (decodeFileOp it) as [o'|] eqn:Hd; [|by destruct Hrest]. destruct Hrest as [[= ->] Hw'].
  assert (rtc I w2 w') as Hw by by trans w1. assert (kept w2) as Hk2 by by exists it.
  split; [by apply (kept_others _ _ Hk2 Hw)|]. exists w2, it, o'. split_and!; try done.
  destruct (decoded_op _ _ Hd) as (_ & _ & _ & _ & Hexp & Hmod). unfold isExpired. unfold optionalNumber, required_number in Hexp. rewrite He in Hexp.
  injection Hexp as Hexp. rewrite (proj2 (Z.leb_gt _ _)); [done|]. rewrite (Z.div_mod (FileOp.expiresAt o') 1000), Hmod by done. lia.
Qed.

Lemma clock_exec w o w' : exec I (send ClockNow) w (Ok o) w' -> rtc I w w' /\ o < e * 1000.
Proof using HT.
  intros (w1 & w2 & H1 & Hr & H2)%exec_send. split; [|by eapply HT]. apply respond_contract in Hr. cbn in Hr. subst w2. by trans w1.
Qed.

(** A look that finds no answer leaves the request there; one that finds it gone finds it abandoned. *)
Lemma kept_look w r w' :
  kept w -> exec I (lookAtRequest parse_outcome target) w (Ok r) w' ->
  match r with look_done _ => True | look_open => kept w' | look_gone => left_abandoned w' end.
Proof using HI HK HT.
  intros Hk. unfold lookAtRequest. intros [(now & w1 & [Hw1 Hnow]%clock_exec & Hex)|(? & [=] & _)]%exec_bind.
  destruct (kept_others _ _ Hk Hw1) as [Hk1 _].
  apply exec_bind in Hex as [(found & w2 & Hf & Hex)|(? & [=] & _)].
  apply kept_get in Hf as (Hk2 & w3 & it & o & _ & Hit & Hw3 & Hi & -> & Hd); [|done..].
  destruct (decoded_op _ _ Hd) as (Hst & Hout & _). destruct (FileOp.status o) eqn:Hs.
  - destruct Hex as [[= ->] Hw']. by apply (kept_others w2).
  - destruct Hex as [[= ->] Hw']. by apply (kept_others w2).
  - destruct (inv_answer id it Hi Hst) as [text Ht]. rewrite Ht in Hout. rewrite Hout in Hex.
    apply exec_bind in Hex as [(u & w4 & _ & Hex)|(? & [=] & _)]. destruct (parse_json text); [|by destruct Hex].
    destruct (parse_outcome j); by destruct Hex as [[= ->] _].
  - assert (left_abandoned w') as Hl; [|by destruct (FileOp.outcome o), Hex as [[= ->] _]].
    assert (rtc I w2 w') as Hw' by by destruct (FileOp.outcome o), Hex. apply (left_others w3); [by exists it|by trans w2].
Qed.

(** A look at a request that is answered finds the answer. *)
Lemma done_look w it r w' :
  kept w -> tbl w !! op_key = Some it -> has_status it OpDone -> exec I (lookAtRequest parse_outcome target) w (Ok r) w' ->
  exists v, r = look_done v.
Proof using HI HK HT.
  intros Hk Hit Hdone. unfold lookAtRequest. intros [(now & w1 & [Hw1 Hnow]%clock_exec & Hex)|(? & [=] & _)]%exec_bind.
  destruct (kept_others _ _ Hk Hw1) as [Hk1 _]. apply exec_bind in Hex as [(found & w2 & Hf & Hex)|(? & [=] & _)].
  apply kept_get in Hf as (_ & w3 & it' & o & Hw3 & Hit' & _ & Hi & -> & Hd); [|done..].
  assert (it' = it) as ->.
  { destruct (op_settled_stays t id w w3 it); [eapply (op_others t id I HI); by trans w1|done|by left|congruence|congruence]. }
  destruct (decoded_op _ _ Hd) as (Hst & Hout & _). rewrite <- (has_status_inj _ _ _ Hdone Hst) in Hex.
  destruct (inv_answer id it Hi Hdone) as [text Ht]. rewrite Ht in Hout. rewrite Hout in Hex.
  apply exec_bind in Hex as [(u & w4 & _ & Hex)|(? & [=] & _)]. destruct (parse_json text) as [j|]; [|by destruct Hex].
  destruct (parse_outcome j) as [|v]; [by destruct Hex|]. destruct Hex as [[= ->] _]. by exists v.
Qed.

Lemma kept_abandon now w o w' :
  kept w -> now < e * 1000 -> exec I (abandonLiveFileOperation t id now) w (Ok o) w' ->
  (o = Some OpAbandoned /\ left_abandoned w') \/
  (kept w' /\ o <> None /\ o <> Some OpAbandoned /\ (o = Some OpDone -> exists it, tbl w' !! op_key = Some it /\ has_status it OpDone)).
Proof using HI HK.
  intros Hk Hnow. unfold abandonLiveFileOperation.
  intros [(a & [= <-] & Hex)|(er & w1 & Hex & Hh)]%exec_catch.
  - left. apply exec_bind in Hex as [(it' & w1 & Hu & [[= ->] Hw'])|(? & [=] & _)]. split; [done|]. apply (left_others w1); [|done].
    apply exec_send in Hu as (wa & wb & Ha & Hr%respond_contract & Hb). destruct (kept_others _ _ Hk Ha) as [(it & Hit & Hi & _) _].
    cbn [contract answered] in Hr. destruct Hr as (Hh & -> & ->). eapply left_others; [|exact Hb].
    destruct (change_finds t id _ _ op_abandon Hh) as (it0 & Hit0 & Hh'). assert (it0 = it) as -> by congruence. rewrite Hit0.
    cbn [base_item default from_option Datatypes.id]. destruct (after_abandon it) as (Hst & _). eexists. cbn [tbl with_tbl]. rewrite lookup_insert_eq.
    split; [done|]. split; [done|]. eapply op_step_inv; [exact Hi|]. by constructor; [constructor|].
  - apply exec_bind in Hex as [(? & ? & _ & [[=] _])|(? & [= <-] & Hu)]. apply exec_send_fails in Hu as [Hw1 _].
    destruct (kept_others _ _ Hk Hw1) as [Hk1 _]. destruct er; try by destruct Hh.
    apply exec_bind in Hh as [(found & w2 & Hf & [[= ->] Hw'])|(? & [=] & _)].
    apply kept_get in Hf as (Hk2 & w3 & it & o' & _ & Hit & Hw3 & Hi & -> & Hd); [|done..]. cbn.
    destruct (decoded_op _ _ Hd) as (Hst & _). assert (rtc I w3 w') as Hw by by trans w2.
    destruct (FileOp.status o') eqn:Hs; [right|right|right|left].
    + split_and!; [by apply (kept_others w2)|done..].
    + split_and!; [by apply (kept_others w2)|done..].
    + assert (kept w') as Hk' by by apply (kept_others w2). split_and!; [done|done|done|]. intros _.
      destruct Hk' as (it' & Hit' & _). exists it'. split; [done|].
      destruct (op_settled_stays t id w3 w' it) as [Heq|Heq]; [by apply (op_others t id I HI)|done|by left|congruence|congruence].
    + split; [done|]. by apply (left_others w3); [exists it|].
Qed.

Lemma sleep_exec d w o w' : exec I (send (Sleep d)) w (Ok o) w' -> rtc I w w'.
Proof using Type. intros (w1 & w2 & H1 & Hr%respond_contract & H2)%exec_send. cbn in Hr. subst w2. by trans w1. Qed.

Lemma pause_exec (b : bool) d w o w' : exec I (if b then send (Sleep d) else Ret tt) w (Ok o) w' -> rtc I w w'.
Proof using Type. destruct b; [apply sleep_exec|by intros [_ ?]]. Qed.

Lemma kept_look_until sleep_first deadline rounds w r w' :
  kept w -> exec I (look_until parse_outcome target sleep_first deadline rounds) w (Ok r) w' ->
  match r with Some wait_abandoned => left_abandoned w' | None => kept w' | _ => True end.
Proof using HI HK HT.
  revert w. induction rounds as [|n IH]; intros w Hk; cbn [look_until]; [by intros [[=] _]|].
  intros [(u & w1 & Hw1%pause_exec & Hex)|(? & [=] & _)]%exec_bind. destruct (kept_others _ _ Hk Hw1) as [Hk1 _].
  apply exec_bind in Hex as [(look & w2 & Hl & Hex)|(? & [=] & _)]. apply kept_look in Hl; [|done]. destruct look as [v| |].
  - by destruct Hex as [[= ->] _].
  - destruct Hex as [[= ->] Hw']. by eapply left_others.
  - apply exec_bind in Hex as [(now & w3 & [Hw3 _]%clock_exec & Hex)|(? & [=] & _)]. destruct (kept_others _ _ Hl Hw3) as [Hk3 _].
    destruct (deadline <=? now).
    + destruct Hex as [[= ->] Hw']. by apply (kept_others w3).
    + apply exec_bind in Hex as [(u' & w4 & Hw4 & Hex)|(? & [=] & _)]. apply (IH w4); [|done]. apply (kept_others w3); [done|].
      destruct sleep_first; [by destruct Hw4|by eapply sleep_exec].
Qed.

Lemma give_up_abandons_not w w' : exec I (give_up_waiting parse_outcome target) w (Ok wait_abandoned) w' -> False.
Proof using Type.
  intros [(marked & w1 & _ & Hex)|(? & [=] & _)]%exec_bind. destruct marked; [by destruct Hex|].
  apply exec_bind in Hex as [(last & w2 & _ & Hex)|(? & [=] & _)]. by destruct last, Hex.
Qed.

Lemma wait_abandoned_exec rounds w w' :
  kept w -> exec I (awaitLiveFileOutcome parse_outcome target rounds) w (Ok wait_abandoned) w' -> left_abandoned w'.
Proof using HI HK HT.
  intros Hk. unfold awaitLiveFileOutcome. cbv zeta. intros [(found & w1 & Hf & Hex)|(? & [=] & _)]%exec_bind.
  apply kept_look_until in Hf; [|done]. destruct found as [result|]; [destruct Hex as [[= <-] Hw']; by eapply left_others|].
  apply exec_bind in Hex as [(now & w2 & [Hw2 Hnow]%clock_exec & Hex)|(? & [=] & _)]. destruct (kept_others _ _ Hf Hw2) as [Hk2 _].
  apply exec_bind in Hex as [(abandoned & w3 & Ha & Hex)|(? & [=] & _)].
  apply kept_abandon in Ha; [|done|done]. destruct Ha as [[-> Hl]|(Hk3 & Hn & Hna & Hdone)].
  { destruct Hex as [_ Hw']. by eapply left_others. }
  assert (exec I
    (if WaitTarget.graceForDelivered target then
       let! late := look_until parse_outcome target true (WaitTarget.queuedAt target + LIVE_FILE_WAIT_MILLISECONDS + LIVE_FILE_OUTCOME_GRACE_MILLISECONDS) rounds in
       match late with Some result => Ret result | None => give_up_waiting parse_outcome target end
     else give_up_waiting parse_outcome target) w3 (Ok wait_abandoned) w' -> left_abandoned w') as Hlate.
  { destruct (WaitTarget.graceForDelivered target); [|by intros []%give_up_abandons_not].
    intros [(late & w4 & Hl & Hrest)|(? & [=] & _)]%exec_bind. apply kept_look_until in Hl; [|done].
    destruct late as [result|]; [destruct Hrest as [[= <-] Hw']; by eapply left_others|by apply give_up_abandons_not in Hrest]. }
  destruct abandoned as [[]|]; try by apply Hlate.
  - destruct (Hdone eq_refl) as (it & Hit & Hst). apply exec_bind in Hex as [(look & w4 & Hl & Hex)|(? & [=] & _)].
    apply (done_look w3 it) in Hl as [v ->]; [|done..]. by destruct Hex.
Qed.

(** C31: A request that the panel reports as abandoned was never handed to the owner and never will be: it is stored as abandoned
    without a delivery, and whatever runs afterwards no delivery of it succeeds, so the edit can safely be made again. The
    request is one that lives long enough, and that only the wait itself removes. *)
Theorem abandoned_request_is_never_taken rounds w w' :
  kept w -> exec I (awaitLiveFileOutcome parse_outcome target rounds) w (Ok wait_abandoned) w' ->
  (exists it, tbl w' !! op_key = Some it /\ has_status it OpAbandoned /\ it !! "delivered_sequence" = None) /\
  forall w1 d w2, rtc (op_sys t id) w' w1 -> ~ exec I (deliverLiveFileOperation t id d) w1 (Ok true) w2.
Proof using HI HK HT.
  intros Hk Hex. apply wait_abandoned_exec in Hex as (it & Hit & Hst & Hi); [|done]. split.
  - exists it. split_and!; [done|done|]. apply (inv_untaken id it Hi). by right.
  - intros w1 d w2 Hs [it' Hm]%(op_answer_exec t id I HI); [|constructor].
    apply (op_settled_unmade t id w' it w' w1 (deliver_change d) it' w2) in Hm; [done| |by right|done|constructor]. by exists w'.
Qed.
End abandoned.

(** ** What a poll hands out *)

Section handing.
Context `{Service} (I : World -> World -> Prop) (t : string) (HI : forall id w w', I w w' -> op_sys t id w w').
Context (pages : nat) (parse_request : json -> exn + json).

(** At one moment between [w] and [w'] the request was stored as delivered by the poll [sequence]. *)
Definition marked_by (sequence : Z) (w : World) (id : string) (w' : World) : Prop :=
  exists it, op_read t id w it w' /\ has_status it OpDelivered /\ it !! "delivered_sequence" = Some (AN sequence).

Lemma marked_earlier sequence w0 w id w' : rtc (op_sys t id) w0 w -> marked_by sequence w id w' -> marked_by sequence w0 id w'.
Proof using Type. intros Hw (it & Hr & ?). exists it. split; [by eapply op_read_earlier|done]. Qed.
Lemma marked_later sequence w id w1 w' : marked_by sequence w id w1 -> rtc (op_sys t id) w1 w' -> marked_by sequence w id w'.
Proof using Type. intros (it & Hr & ?) Hw. exists it. split; [by eapply op_read_later|done]. Qed.

Lemma deliver_marks id d w w' :
  exec I (deliverLiveFileOperation t id d) w (Ok true) w' -> marked_by (Delivery.sequence d) w id w'.
Proof using HI.
  intros [it Hm]%(op_answer_exec t id I (HI id)); [|constructor]. destruct (after_deliver d it) as (Hst & _ & Hq & _).
  eexists. split; [by eapply op_made_read|]. by split.
Qed.

Lemma throw_first_elem {A : Type} (l : list (exn + A)) rs r : throw_first l = Ok rs -> r ∈ rs -> Ok r ∈ l.
Proof using Type.
  revert rs. induction l as [|[e|a] l IH]; intros rs; cbn; [by intros [= <-] ?%elem_of_nil|done|].
  destruct (throw_first l) as [|rs']; [done|]. intros [= <-] [->|Hr]%elem_of_cons; [by left|]. right. by eapply IH.
Qed.

(** A request that is listed is stored under its name. *)
Lemma list_exec now w l w' :
  (forall id, op_ok t id w) -> exec I (listLiveFileOperations pages t now) w (Ok l) w' ->
  (forall id, rtc (op_sys t id) w w') /\
  forall o, o ∈ l -> exists it, op_read t (FileOp.operationId o) w it w' /\ decodeFileOp it = Some o.
Proof using HI.
  intros Hok [(rows & w1 & [Hw1 Hl]%query_pages_elem & [[= ->] Hw'])|(? & [=] & _)]%exec_bind. split.
  { intros id. apply (op_others t id I (HI id)). by trans w1. }
  intros o Ho. rewrite merge_sort_Permutation in Ho. apply list_elem_of_In, filter_In in Ho as [Ho%list_elem_of_In _].
  destruct (Hl rows o eq_refl Ho) as (w2 & [pk sk] & it & Hw2 & Hw21 & (Hit & Hpk & Hsk & _) & Hd). cbn [fst snd in_range] in Hpk, Hsk. subst pk.
  apply starts_with_inv in Hsk as [i ->]. change (_, "op#" +:+ i) with (liveFileOperationKey t i) in Hit.
  unfold decode_file_op in Hd. destruct (decodeFileOp it) as [o'|] eqn:Hdec; [|done]. injection Hd as ->.
  assert (FileOp.operationId o = i) as Hi.
  { destruct (decoded_op _ _ Hdec) as (_ & _ & Hname & _).
    assert (op_inv i it) as Hinv by (eapply (op_syses_ok t i w w2); [done|by apply (op_others t i I (HI i))|done]).
    pose proof (inv_name i it Hinv). congruence. }
  exists it. split; [|done]. rewrite Hi. exists w2. split_and!; [by apply (op_others t i I (HI i))|done|].
  apply (op_others t i I (HI i)). by trans w1.
Qed.

Lemma keeps_deliver id id' d : keeps_op t id (deliverLiveFileOperation t id' d).
Proof using Type. apply keeps_answer. constructor. Qed.

(** The loop over the candidates keeps what was handed out before it, and adds only what it marks. *)
Lemma hand_exec identity now sequence candidates handed w handed' w' :
  Identity.tenantId identity = t ->
  exec I (for_each candidates handed (fun handed candidate =>
      let! delivered := deliverLiveFileOperation (Identity.tenantId identity) (FileOp.operationId candidate)
        (Delivery.mk (Identity.ownerId identity) (Identity.startGeneration identity) sequence now) in
      Ret (if (delivered : bool) then handed ++ [candidate] else handed))) w (Ok handed') w' ->
  (forall id, rtc (op_sys t id) w w') /\
  forall o, o ∈ handed' -> o ∈ handed \/ (o ∈ candidates /\ marked_by sequence w (FileOp.operationId o) w').
Proof using HI.
  intros ->. revert handed w. induction candidates as [|c rest IH]; intros handed w; cbn [for_each].
  { intros [[= ->] Hw']. split; [intros id; by apply (op_others t id I (HI id))|by left]. }
  intros [(acc & w1 & Hone & Hrest)|(? & [=] & _)]%exec_bind.
  apply exec_bind in Hone as [(delivered & w2 & Hd & [[= ->] Hw2])|(? & [=] & _)].
  assert (forall id, rtc (op_sys t id) w w2) as Hs2 by (intros id; eapply (keeps_op_exec t id I (HI id)); [apply keeps_deliver|done]).
  assert (forall id, rtc (op_sys t id) w w1) as Hs1 by (intros id; trans w2; [done|by apply (op_others t id I (HI id))]).
  destruct (IH _ _ Hrest) as [Hs Hall]. split; [intros id; by trans w1|]. intros o Ho. destruct (Hall o Ho) as [Hin|[Hin Hm]].
  - destruct delivered; [|by left]. apply elem_of_app in Hin as [Hin|Hin]; [by left|right]. apply list_elem_of_singleton in Hin as ->.
    split; [by left|]. eapply marked_later; [by apply deliver_marks in Hd|]. trans w1; [by apply (op_others t _ I (HI _))|done].
  - right. split; [by right|]. eapply marked_earlier; [apply Hs1|exact Hm].
Qed.

(** Every file request a poll hands out is one that was queued for this owner in its generation, and at one moment of the poll it
    was stored as delivered by exactly this poll; so a request is never handed out without the panel being able to see that the
    owner has it. *)
Theorem handed_requests_are_marked identity poll computer w l w' r :
  Identity.tenantId identity = t -> (forall id, op_ok t id w) ->
  exec I (deliverLiveFileRequests pages parse_request identity poll computer) w (Ok l) w' -> r ∈ l ->
  exists o now, asOwnerRequest parse_request o now = Ok r /\ mine identity o = true /\
    marked_by (PollRequest.sequence poll) w (FileOp.operationId o) w'.
Proof using HI.
  intros Hi Hok. unfold deliverLiveFileRequests. rewrite Hi. intros [(now & w1 & Hnow & Hex)|(? & [=] & _)]%exec_bind Hr.
  assert (forall id, rtc (op_sys t id) w w1) as Hs1 by (intros id; eapply (keeps_op_exec t id I (HI id)); [|exact Hnow]; by apply asks_send).
  destruct (_ || _); [destruct Hex as [[= ->] _]; by apply elem_of_nil in Hr|].
  apply exec_bind in Hex as [(all & w2 & [Hs2 Hall]%list_exec & Hex)|(? & [=] & _)]; [|intros id; exact (op_syses_ok t id w w1 (Hok id) (Hs1 id))].
  apply exec_bind in Hex as [(handed & w3 & Hh & Hex)|(? & [=] & _)]. rewrite <- Hi in Hh. apply hand_exec in Hh as [Hs3 Hh]; [|done].
  destruct (throw_first _) as [|rs] eqn:Ht; [by destruct Hex|]. destruct Hex as [[= ->] Hw'].
  apply (throw_first_elem _ _ _ Ht) in Hr as (o & Ho & Hin)%list_elem_of_fmap. exists o, now. split; [done|].
  apply list_elem_of_In, filter_In in Hin as [Hin%list_elem_of_In _].
  assert (forall o, o ∈ List.filter (mine identity) all -> mine identity o = true /\ exists it, op_read t (FileOp.operationId o) w1 it w2 /\ decodeFileOp it = Some o) as Hmine.
  { intros o' [Ho' Hm]%list_elem_of_In%filter_In. split; [done|]. by apply Hall, list_elem_of_In. }
  assert (rtc (op_sys t (FileOp.operationId o)) w3 w') as Hs' by by apply (op_others t _ I (HI _)).
  destruct (Hh o Hin) as [Hrep|[Hcand Hm]].
  - apply list_elem_of_In, filter_In in Hrep as [Hrep%list_elem_of_In Hby]. destruct (Hmine o Hrep) as [Hm (it & Hread & Hd)]. split; [done|].
    unfold repeated_by in Hby. rewrite andb_true_iff, !bool_decide_eq_true in Hby. destruct Hby as [Hst Hseq].
    destruct (decoded_op _ _ Hd) as (Hst' & _ & _ & Hq & _). rewrite Hst in Hst'. rewrite Hseq in Hq. exists it. split_and!; [|done|].
    + eapply op_read_earlier; [apply Hs1|]. eapply op_read_later; [exact Hread|]. trans w3; [apply Hs3|done].
    + unfold optionalNumber, required_number in Hq. destruct (it !! "delivered_sequence") as [[]|]; by simplify_eq.
  - apply elem_of_take in Hcand as (i & Hi' & _). apply list_elem_of_lookup_2, list_elem_of_In, filter_In in Hi' as [Hc%list_elem_of_In _].
    split; [by apply Hmine|]. eapply marked_earlier; [|eapply marked_later; [exact Hm|done]]. trans w1; [apply Hs1|apply Hs2].
Qed.
End handing.

(** ** Queueing *)

Section queueing.
Context `{Service} (I : World -> World -> Prop) (t : string) (HI : forall w w', I w w' -> computer_sys t w w').

(** Queueing is one write of two items: the request, and the mark on the record of the computer. *)
Lemma queue_exec o until w w' :
  FileOp.tenantId o = t -> computer_ok t w -> exec I (queueLiveFileOperation o until) w (Ok true) w' ->
  exists w1 w2 c, rtc (computer_sys t) w w1 /\ computer_at t w1 c /\ serves c (FileOp.ownerId o) (FileOp.generation o) /\
    computer_sys t w1 w2 /\ computer_at t w2 (effect (QueueFile (FileOp.ownerId o) (FileOp.generation o) (FileOp.operationId o) until) c) /\
    tbl w2 !! liveFileOperationKey t (FileOp.operationId o) = Some (encodeFileOp o) /\ rtc I w2 w'.
Proof using HI.
  intros Ht Hok. unfold queueLiveFileOperation.
  intros [(b & [= <-] & Hex)|(e & w1 & _ & Hh)]%exec_catch; [|by destruct e; try case_decide; destruct Hh].
  apply exec_bind in Hex as [([] & w3 & (w1 & w2 & Hw1 & Hc & Hw2)%exec_retry_send & [_ Hw'])|(? & [=] & _)].
  pose proof (computer_others I t HI _ _ Hw1) as Hs1. assert (computer_ok t w1) as Hok1 by by eapply computer_syses_ok.
  cbn [contract] in Hc. destruct Hc as (_ & Hops & ->). unfold queue_ops in *. cbv zeta in *. rewrite Ht in *.
  apply Forall_cons in Hops as [Hcomp _]. unfold txop_holds in Hcomp. cbn [txop_key txop_cond] in Hcomp.
  destruct (encodeFileOp_reads o) as (_ & _ & _ & _ & Hkey). rewrite Ht in Hkey.
  set (x := QueueFile (FileOp.ownerId o) (FileOp.generation o) (FileOp.operationId o) until).
  destruct (computer_write t x w1 Hok1 Hcomp) as (it & c & Hit & Hd & Hwf & Hg & _ & _ & Hsys).
  set (w5 := with_tbl w1 _) in *. exists w1, w5, c. split; [done|]. split; [by exists it|]. split; [exact Hg|].
  destruct (Hsys w5) as [Hsys1 Hsys2].
  { subst w5. cbn [tbl with_tbl foldl txop_write]. rewrite Hkey, lookup_insert_ne by (intros Heq%(f_equal snd); done). rewrite Hit. apply lookup_insert_eq. }
  split; [exact Hsys1|]. split; [exact Hsys2|]. split.
  - subst w5. cbn [tbl with_tbl foldl txop_write]. rewrite Hkey. apply lookup_insert_eq.
  - by trans w3.
Qed.

(** A request that the panel is told is queued was written in one moment together with the mark on the computer's record: at that
    moment the owner it is for served the computer in its generation and no stop of it was approved; afterwards the record names
    the request, so an approval of a stop that was judged before does not hold any more, and the request is pending and lives
    two minutes from when it was queued. *)
Theorem queued_request_reaches_live_owner input w operationId queuedAt w' :
  Computer.tenantId (QueueInput.computer input) = t -> computer_ok t w ->
  exec I (queueLiveFileRequest input) w (Ok (Some (operationId, queuedAt))) w' ->
  exists w1 w2 c owner generation it, rtc (computer_sys t) w w1 /\ computer_at t w1 c /\ serves c owner generation /\
    Computer.ownerId (QueueInput.computer input) = Some owner /\
    computer_at t w2 (effect (QueueFile owner generation operationId (queuedAt + LIVE_FILE_INTERACTIVE_WINDOW_SECONDS * 1000)) c) /\
    tbl w2 !! liveFileOperationKey t operationId = Some it /\ op_inv operationId it /\ has_status it OpPending /\
    it !! "expires_at" = Some (AN (epochSeconds (queuedAt + LIVE_FILE_OPERATION_TTL_SECONDS * 1000))) /\ rtc I w2 w'.
Proof using HI.
  intros Ht Hok. unfold queueLiveFileRequest. cbv zeta. rewrite Ht.
  destruct (Computer.ownerId (QueueInput.computer input)) as [owner|]; [|by intros [[=] _]].
  destruct (Computer.ownerGeneration (QueueInput.computer input)) as [generation|]; [|by intros [[=] _]].
  intros [(now & w1 & (wa & wb & Ha & Hr%respond_contract & Hb)%exec_send & Hex)|(? & [=] & _)]%exec_bind. cbn in Hr. subst wb.
  apply exec_bind in Hex as [(i & w2 & Hi & Hex)|(? & [=] & _)].
  assert (rtc I w1 w2) as Hw2.
  { destruct (QueueInput.operationId input); [by destruct Hi|].
    apply exec_bind in Hi as [(v & w3 & (wc & wd & Hc & Hr%respond_contract & Hd)%exec_send & [_ ?])|(? & [=] & _)]. cbn in Hr. subst wd. trans wc; [done|by trans w3]. }
  assert (rtc I w w2) as Hs%(computer_others I t HI) by (trans wa; [done|]; by trans w1).
  apply exec_bind in Hex as [(queued & w3 & Hq & Hex)|(? & [=] & _)]. destruct queued; [|by destruct Hex]. destruct Hex as [[= -> ->] Hw'].
  apply queue_exec in Hq as (w4 & w5 & c & Hw4 & Hat & Hg & _ & Hat' & Hit & Hw5); [|done|by eapply computer_syses_ok].
  match type of Hit with _ = Some (encodeFileOp ?o) => destruct (encodeFileOp_reads o) as (_ & Hst & _ & Hexp & _);
    pose proof (new_op_inv o eq_refl eq_refl) as Hinv end.
  exists w4, w5, c, owner, generation. eexists. split; [by trans w2|]. split; [exact Hat|]. split; [exact Hg|]. split; [done|].
  split; [exact Hat'|]. split; [exact Hit|]. split; [exact Hinv|]. split; [exact Hst|]. split; [exact Hexp|]. by trans w3.
Qed.
End queueing.

(** ** The theorems at the concrete request *)

Lemma demo_op_others id w w' : alone w w' -> op_sys "acme" id w w'.
Proof. done. Qed.

Lemma demo_op_ok id w sequence s e :
  request_view w = Some (Some (AS demo_operation), Some (AS (operation_status_text s)), sequence, e) -> s = OpDelivered \/ (s = OpPending /\ sequence = None) ->
  id = demo_operation -> op_ok "acme" id w.
Proof.
  intros (it & Hit & Hn & Hs & Hq & _)%request_viewed Hcase -> it' Hit'. rewrite Hit in Hit'. injection Hit' as <-.
  constructor; [exact Hn|by exists s| |].
  - intros Hd. pose proof (has_status_inj _ _ _ Hd Hs). destruct Hcase as [->|[-> _]]; done.
  - rewrite Hq. destruct Hcase as [->|[_ ->]]; [|done]. by intros [Hd|Hd]; pose proof (has_status_inj _ _ _ Hd Hs).
Qed.

Lemma demo_handed_ok : op_ok "acme" demo_operation demo_handed.
Proof. apply (demo_op_ok _ _ (Some (AN 2)) OpDelivered (Some (AN 1124))); [exact (proj2 demo_requests)|by left|done]. Qed.

Lemma demo_queued_ok id : op_ok "acme" id demo_queued.
Proof.
  destruct (decide (id = demo_operation)) as [->|Hne].
  - apply (demo_op_ok _ _ None OpPending (Some (AN 1124))); [exact (proj1 demo_requests)|by right|done].
  - intros it Hit. apply (map_Forall_lookup_1 _ _ _ _ demo_one_request) in Hit; [|done]. cbn in Hit. by injection Hit.
Qed.

Lemma request_has_one_answer_witness :
  (run (demo_record demo_same_answer) (demo_at 6) demo_recorded).1 = Ok result_recorded /\ sortedJson demo_answer = sortedJson demo_same_answer.
Proof.
  split; [exact (proj1 (proj2 (proj2 (proj2 demo_file_runs))))|].
  apply (request_has_one_answer (H:=local_service) alone "acme" demo_operation (demo_op_others _) demo_identity demo_answer demo_identity demo_same_answer
    demo_handed demo_recorded demo_recorded (run (demo_record demo_same_answer) (demo_at 6) demo_recorded).2).
  - done.
  - done.
  - exact demo_handed_ok.
  - exact (run_exec_to (demo_record demo_answer) (demo_at 5) demo_handed _ (proj1 (proj2 (proj2 demo_file_runs)))).
  - apply rtc_refl.
  - exact (run_exec_to (demo_record demo_same_answer) (demo_at 6) demo_recorded _ (proj1 (proj2 (proj2 (proj2 demo_file_runs))))).
Defined.

Lemma panel_shows_recorded_answer_witness : exists j, sortedJson j = sortedJson demo_answer /\ any_request j = Ok demo_answer.
Proof.
  apply (panel_shows_recorded_answer (H:=local_service) alone any_request demo_target (demo_op_others _) demo_identity demo_answer 4
    demo_handed demo_recorded demo_recorded demo_answer (run demo_wait (demo_at 6) demo_recorded).2).
  - done.
  - exact demo_handed_ok.
  - exact (run_exec_to (demo_record demo_answer) (demo_at 5) demo_handed _ (proj1 (proj2 (proj2 demo_file_runs)))).
  - apply rtc_refl.
  - exact (run_exec_to demo_wait (demo_at 6) demo_recorded _ (proj1 (proj2 (proj2 (proj2 (proj2 demo_file_runs)))))).
Defined.

(** The clock of the late wait stands before the end of the request's time to live. *)
Lemma demo_clock w now w' : respond (Service:=clock_service (local_now demo_late)) ClockNow w (Ok now) w' -> now < 1124 * 1000.
Proof. intros (l & Hl & Hr). cbn in Hr. injection Hr as <- _. by rewrite Hl. Qed.

Lemma demo_kept : kept demo_target 1124 demo_queued.
Proof.
  destruct (request_viewed _ _ _ _ _ (proj1 demo_requests)) as (it & Hit & _ & _ & _ & He). exists it. split_and!; [exact Hit|by apply demo_queued_ok|exact He].
Qed.

Lemma abandoned_request_is_never_taken_witness :
  exists it, tbl demo_given_up !! liveFileOperationKey (WaitTarget.tenantId demo_target) (WaitTarget.operationId demo_target) = Some it /\
    has_status it OpAbandoned /\ it !! "delivered_sequence" = None.
Proof.
  exact (proj1 (abandoned_request_is_never_taken (H:=clock_service (local_now demo_late)) alone any_request demo_target 1124 (demo_op_others _)
    (fun _ _ h => match h with end) demo_clock 4 demo_queued demo_given_up demo_kept demo_gives_up)).
Defined.

Lemma handed_requests_are_marked_witness : exists o, marked_by "acme" 2 demo_queued (FileOp.operationId o) demo_handed.
Proof.
  destruct (handed_requests_are_marked (H:=local_service) alone "acme" demo_op_others 2 any_request demo_identity
    (PollRequest.mk "w1" 1 3 2 "idle" [] None) demo_served demo_queued [demo_handed_request] demo_handed demo_handed_request) as (o & now & _ & _ & Hm).
  - done.
  - exact demo_queued_ok.
  - exact (run_exec_to demo_hand (demo_at 4) demo_queued _ (proj1 (proj2 demo_file_runs))).
  - by left.
  - by exists o.
Defined.

Lemma queued_request_reaches_live_owner_witness :
  exists w2 it, tbl w2 !! liveFileOperationKey "acme" demo_operation = Some it /\ has_status it OpPending /\ rtc alone w2 demo_queued.
Proof.
  destruct (queued_request_reaches_live_owner (H:=local_service) alone "acme" (fun _ _ h => match h with end) demo_input demo_polled
    demo_operation 1004000 demo_queued) as (w1 & w2 & c & owner & generation & it & _ & _ & _ & _ & _ & Hit & _ & Hst & _ & Hs).
  - reflexivity.
  - exact (proj2 OwnerTheorems.demo_polled_moves).
  - exact (run_exec_to demo_queue (demo_at 3) demo_polled _ (proj1 demo_file_runs)).
  - exists w2, it. split; [exact Hit|]. split; [exact Hst|exact Hs].
Defined.
