(* ===== verification/Calendar.v ===== *)
(** * Calendar days

    src/conversation/src/budget/calendar.ts: the UTC day of a moment as a text [YYYY-MM-DD], days added to such a text, and the
    first day of its month. For years of four digits the texts are ordered as the days are ([day_text_lt]), [addDays] adds
    days ([addDays_text]) and the first day of the month is the one [Civil.day - 1] days before ([firstDayOfMonth_text]). *)

From S2P Require Import Prelude Json Dates LiveFiles.
#[local] Open Scope Z_scope.

Definition MILLISECONDS_PER_DAY : Z := 86400000.

(** [moment.toISOString().slice(0, 10)]. *)
Definition utcDayOf (moment : Z) : string := take_string 10 (toISOString moment).

(** [isoDateTime.slice(0, 10)]. *)
Definition dayWrittenIn (isoDateTime : string) : string := take_string 10 isoDateTime.

(** [None] is the error of a text that is no day. *)
Definition addDays (isoDay : string) (days : Z) : option string :=
  moment ← date_of_text (isoDay +:+ "T00:00:00Z"); Some (utcDayOf (moment + days * MILLISECONDS_PER_DAY)).

Definition firstDayOfMonth (isoDay : string) : string := take_string 8 isoDay +:+ "01".

(** [left <= right] on texts. *)
Definition text_le (left right : string) : bool := match utf16_compare left right with Gt => false | _ => true end.

Definition pythonIsoUtc (moment : Z) : string :=
  let base := take_string 19 (toISOString moment) in
  let milliseconds := moment mod 1000 in
  if milliseconds =? 0 then base +:+ "+00:00"
  else base +:+ "." +:+ pad_start 6 (digit 0) (dec (milliseconds * 1000)) +:+ "+00:00".

Example calendar_examples :
  addDays "2024-02-28" 1 = Some "2024-02-29" /\ addDays "2024-01-01" (-1) = Some "2023-12-31" /\
  firstDayOfMonth "2024-02-29" = "2024-02-01" /\ pythonIsoUtc 1709210096789 = "2024-02-29T12:34:56.789000+00:00".
Proof. vm_compute. done. Qed.

(** ** The next day *)

(** The first day of a year of an era. *)
Definition year_start (yoe : Z) : Z := 365 * yoe + yoe / 4 - yoe / 100.

Lemma year_start_mono (y y' : Z) : 0 <= y <= y' -> year_start y <= year_start y'.
Proof. unfold year_start. intros. Z.to_euclidean_division_equations; lia. Qed.

Lemma year_end (doe : Z) :
  0 <= doe < 146097 ->
  let yoe := (doe - doe / 1460 + doe / 36524 - doe / 146096) / 365 in yoe = 399 \/ doe < year_start (yoe + 1).
Proof.
  intros Hdoe. cbv zeta. unfold year_start.
  assert (doe / 36524 = 0 \/ doe / 36524 = 1 \/ doe / 36524 = 2 \/ doe / 36524 = 3 \/ doe / 36524 = 4) as Hc
    by (Z.to_euclidean_division_equations; lia).
  Z.to_euclidean_division_equations. destruct Hc as [->|[->|[->|[->| ->]]]]; lia.
Qed.

(** The day after a day of an era: of the same month, the first of the next one, or the first of the next year. *)
Lemma day_of_era_next (doe yoe mp d yoe' mp' d' : Z) :
  0 <= doe -> doe + 1 < 146097 -> day_of_era doe = (yoe, mp, d) -> day_of_era (doe + 1) = (yoe', mp', d') ->
  (yoe' = yoe /\ mp' = mp /\ d' = d + 1) \/ (yoe' = yoe /\ mp' = mp + 1 /\ d' = 1) \/ (yoe' = yoe + 1 /\ mp = 11 /\ mp' = 0 /\ d' = 1).
Proof.
  intros H0 H1 He He'.
  pose proof (year_of_era doe ltac:(lia)) as [Hy Hd]. pose proof (year_end doe ltac:(lia)) as Hn.
  pose proof (year_of_era (doe + 1) ltac:(lia)) as [Hy' Hd']. pose proof (year_end (doe + 1) ltac:(lia)) as Hn'.
  unfold day_of_era in He, He'. cbv zeta in *. injection He as Hyoe Hmp Hday. injection He' as Hyoe' Hmp' Hday'.
  rewrite Hyoe in *. rewrite Hyoe' in *. clear Hyoe Hyoe'. fold (year_start yoe) in *. fold (year_start yoe') in *.
  assert (yoe' = yoe \/ (yoe' = yoe + 1 /\ doe + 1 = year_start yoe')) as Hcase.
  { destruct (Z.lt_trichotomy yoe' yoe) as [Hlt|[?|Hgt]]; [|by left|].
    - pose proof (year_start_mono (yoe' + 1) yoe ltac:(lia)). destruct Hn'; lia.
    - pose proof (year_start_mono (yoe + 1) yoe' ltac:(lia)). destruct Hn as [|Hn]; [lia|]. right.
      assert (yoe' = yoe + 1) as -> by (destruct (Z.eq_dec yoe' (yoe + 1)); [done|];
        pose proof (year_start_mono (yoe + 2) yoe' ltac:(lia)); unfold year_start in *; Z.to_euclidean_division_equations; lia).
      split; [done|]. lia. }
  destruct Hcase as [->|[-> Hs]].
  - set (doy := doe - year_start yoe) in *. replace (doe + 1 - year_start yoe) with (doy + 1) in * by (unfold doy; lia).
    clearbody doy. clear Hn Hn' H0 H1. Z.to_euclidean_division_equations; lia.
  - right; right. rewrite Hs, Z.sub_diag in *. assert (doe = year_start (yoe + 1) - 1) as -> by lia. clear Hn Hn' H0 H1 Hd'.
    unfold year_start in *. cbn in Hmp', Hday'. subst mp' d'. split_and!; [done| |done|done].
    Z.to_euclidean_division_equations; lia.
Qed.

Definition follows (c c' : Civil) : Prop :=
  (Civil.year c' = Civil.year c /\ Civil.month c' = Civil.month c /\ Civil.day c' = Civil.day c + 1) \/
  (Civil.day c' = 1 /\ ((Civil.year c' = Civil.year c /\ Civil.month c' = Civil.month c + 1) \/
                        (Civil.year c' = Civil.year c + 1 /\ Civil.month c' = 1 /\ Civil.month c = 12))).

Lemma civil_next (n : Z) : follows (civil_of_days n) (civil_of_days (n + 1)).
Proof.
  unfold civil_of_days. replace (n + 1 + 719468) with (n + 719468 + 1) by lia. set (z := n + 719468).
  pose proof (Z.mod_pos_bound z 146097 ltac:(lia)) as Hr. pose proof (Z.div_mod z 146097 ltac:(lia)) as Hz.
  destruct (Z.eq_dec (z mod 146097) 146096) as [Hlast|Hin].
  - assert ((z + 1) mod 146097 = 0 /\ (z + 1) / 146097 = z / 146097 + 1) as [-> ->]
      by (split; symmetry; [apply (Z.mod_unique_pos _ _ (z / 146097 + 1))|apply (Z.div_unique_pos _ _ _ 0)]; lia).
    rewrite Hlast. change (day_of_era 146096) with (399, 11, 29). change (day_of_era 0) with (0, 0, 1). clear.
    right. cbn [Civil.day Civil.month Civil.year]. split; [done|]. left. change (11 <? 10) with false. change (0 <? 10) with true.
    cbv iota. change (11 - 9 <=? 2) with true. change (0 + 3 <=? 2) with false. lia.
  - assert ((z + 1) mod 146097 = z mod 146097 + 1 /\ (z + 1) / 146097 = z / 146097) as [-> ->]
      by (split; symmetry; [apply (Z.mod_unique_pos _ _ (z / 146097))|apply (Z.div_unique_pos _ _ _ (z mod 146097 + 1))]; lia).
    destruct (day_of_era (z mod 146097)) as [[yoe mp] d] eqn:He. destruct (day_of_era (z mod 146097 + 1)) as [[yoe' mp'] d'] eqn:He'.
    pose proof (day_of_era_ok _ _ _ _ Hr He) as (_ & Hm & _ & _).
    pose proof (day_of_era_ok (z mod 146097 + 1) _ _ _ ltac:(lia) He') as (_ & Hm' & _ & _).
    destruct (day_of_era_next (z mod 146097) _ _ _ _ _ _ ltac:(lia) ltac:(lia) He He') as [(-> & -> & ->)|[(-> & -> & ->)|(-> & -> & -> & ->)]];
      unfold follows; cbn [Civil.year Civil.month Civil.day].
    + left. done.
    + right. split; [done|]. clear -Hm Hm'. destruct (mp <? 10) eqn:?, (mp + 1 <? 10) eqn:?; repeat match goal with |- context [if ?b then _ else _] => destruct b eqn:? end; lia.
    + right. split; [done|]. left. change (11 <? 10) with false. change (0 <? 10) with true. cbv iota.
      change (11 - 9 <=? 2) with true. change (0 + 3 <=? 2) with false. lia.
Qed.

(** ** The text of a day *)

Definition day_text (n : Z) : string := utcDayOf (n * MILLISECONDS_PER_DAY).

(** Days whose year has four digits. *)
Definition four_digits (n : Z) : Prop := 0 <= Civil.year (civil_of_days n) <= 9999.

Definition civil_text (c : Civil) : string :=
  fixed_digits 4 (Civil.year c) +:+ "-" +:+ fixed_digits 2 (Civil.month c) +:+ "-" +:+ fixed_digits 2 (Civil.day c).

Lemma utcDayOf_civil (moment : Z) :
  four_digits (moment / MILLISECONDS_PER_DAY) -> utcDayOf moment = civil_text (civil_of_days (moment / MILLISECONDS_PER_DAY)).
Proof.
  unfold four_digits, utcDayOf, toISOString, iso_seconds, iso_year, MILLISECONDS_PER_DAY. intros Hy.
  set (c := civil_of_days (moment / 86400000)) in *. replace ((0 <=? Civil.year c) && (Civil.year c <=? 9999)) with true by lia. reflexivity.
Qed.

Lemma utcDayOf_day (moment : Z) : four_digits (moment / MILLISECONDS_PER_DAY) -> utcDayOf moment = day_text (moment / MILLISECONDS_PER_DAY).
Proof.
  intros Hy. unfold day_text. rewrite utcDayOf_civil by done. rewrite utcDayOf_civil; rewrite Z.div_mul by done; done.
Qed.

Lemma day_text_civil (n : Z) : four_digits n -> day_text n = civil_text (civil_of_days n).
Proof. intros Hy. unfold day_text. rewrite utcDayOf_civil; rewrite Z.div_mul by done; done. Qed.

Lemma day_text_midnight (n : Z) : four_digits n -> day_text n +:+ "T00:00:00Z" = iso_seconds (n * MILLISECONDS_PER_DAY) +:+ "Z".
Proof.
  intros Hy. rewrite day_text_civil by done. unfold four_digits, iso_seconds, iso_year, MILLISECONDS_PER_DAY in *. rewrite Z.div_mul by done.
  set (c := civil_of_days n) in *. replace ((0 <=? Civil.year c) && (Civil.year c <=? 9999)) with true by lia.
  replace (n * 86400000) with (n * 86400 * 1000) by lia. rewrite Z.div_mul, Z.mod_mul by done. reflexivity.
Qed.

Lemma day_text_date (n : Z) : four_digits n -> date_of_text (day_text n +:+ "T00:00:00Z") = Some (n * MILLISECONDS_PER_DAY).
Proof.
  intros Hy. rewrite day_text_midnight by done. rewrite (date_of_iso _ 0 _ "Z").
  - f_equal. unfold MILLISECONDS_PER_DAY. replace (n * 86400000) with (n * 86400 * 1000) by lia. rewrite Z.div_mul by done. lia.
  - unfold four_digit_year. change 86400000 with MILLISECONDS_PER_DAY. by rewrite Z.div_mul.
  - reflexivity.
  - by left.
Qed.

Lemma addDays_text (n k : Z) : four_digits n -> addDays (day_text n) k = Some (day_text (n + k)).
Proof. intros Hy. unfold addDays. rewrite day_text_date by done. cbn [mbind option_bind]. unfold day_text, MILLISECONDS_PER_DAY. do 2 f_equal. lia. Qed.

(** ** The order of days and of their texts *)

Lemma utf16_rank_digit (n : Z) : 0 <= n < 10 -> utf16_rank (digit n) = 48 + n.
Proof. intros Hn. unfold utf16_rank. rewrite digit_code by done. destruct (_ || _) eqn:E; [lia|done]. Qed.

Lemma compare_fixed_digits (w : nat) (a b : Z) (r s : string) :
  0 <= a < 10 ^ Z.of_nat w -> 0 <= b < 10 ^ Z.of_nat w ->
  utf16_compare (fixed_digits w a +:+ r) (fixed_digits w b +:+ s) = match a ?= b with Eq => utf16_compare r s | o => o end.
Proof.
  revert a b. induction w as [|w IH]; intros a b Ha Hb.
  - cbn in Ha, Hb. assert (a = 0) as -> by lia. assert (b = 0) as -> by lia. by rewrite !string_app_nil.
  - rewrite Nat2Z.inj_succ, Z.pow_succ_r in Ha, Hb by lia. cbn [fixed_digits]. rewrite !string_app_cons. cbn [utf16_compare].
    pose proof (Z.mod_pos_bound a (10 ^ Z.of_nat w) ltac:(lia)). pose proof (Z.mod_pos_bound b (10 ^ Z.of_nat w) ltac:(lia)).
    pose proof (Z.div_mod a (10 ^ Z.of_nat w) ltac:(lia)). pose proof (Z.div_mod b (10 ^ Z.of_nat w) ltac:(lia)).
    assert (0 <= a / 10 ^ Z.of_nat w < 10) as Ha' by (split; [apply Z.div_pos; lia|apply Z.div_lt_upper_bound; lia]).
    assert (0 <= b / 10 ^ Z.of_nat w < 10) as Hb' by (split; [apply Z.div_pos; lia|apply Z.div_lt_upper_bound; lia]).
    rewrite !(Z.mod_small (_ / _)), !utf16_rank_digit by lia.
    rewrite <- (fixed_digits_mod w w a), <- (fixed_digits_mod w w b), IH by lia.
    destruct (Z.compare_spec (48 + a / 10 ^ Z.of_nat w) (48 + b / 10 ^ Z.of_nat w)) as [Heq|Hlt|Hgt].
    + destruct (Z.compare_spec (a mod 10 ^ Z.of_nat w) (b mod 10 ^ Z.of_nat w)), (Z.compare_spec a b); (done || nia).
    + destruct (Z.compare_spec a b); (done || nia).
    + destruct (Z.compare_spec a b); (done || nia).
Qed.

Lemma utf16_compare_same (p r s : string) : utf16_compare (p +:+ r) (p +:+ s) = utf16_compare r s.
Proof. induction p as [|c p IH]; [done|]. rewrite !string_app_cons. cbn [utf16_compare]. by rewrite Z.compare_refl. Qed.

Definition civil_compare (c d : Civil) : comparison :=
  match Civil.year c ?= Civil.year d with
  | Eq => match Civil.month c ?= Civil.month d with Eq => Civil.day c ?= Civil.day d | o => o end
  | o => o
  end.

Lemma compare_day_text (n m : Z) :
  four_digits n -> four_digits m -> utf16_compare (day_text n) (day_text m) = civil_compare (civil_of_days n) (civil_of_days m).
Proof.
  intros Hn Hm. rewrite !day_text_civil by done. pose proof (civil_bounds n) as [? ?]. pose proof (civil_bounds m) as [? ?].
  unfold four_digits, civil_text, civil_compare in *.
  rewrite compare_fixed_digits, utf16_compare_same, compare_fixed_digits, utf16_compare_same by digit_bounds.
  rewrite <- (string_app_nil_r (fixed_digits 2 (Civil.day (civil_of_days n)))), <- (string_app_nil_r (fixed_digits 2 (Civil.day (civil_of_days m)))).
  rewrite compare_fixed_digits by digit_bounds. by destruct (Civil.day _ ?= Civil.day _).
Qed.

Lemma civil_compare_Lt (c d : Civil) :
  civil_compare c d = Lt <->
  Civil.year c < Civil.year d \/
  (Civil.year c = Civil.year d /\ (Civil.month c < Civil.month d \/ (Civil.month c = Civil.month d /\ Civil.day c < Civil.day d))).
Proof.
  unfold civil_compare. destruct (Z.compare_spec (Civil.year c) (Civil.year d)); [|split; (done || lia)..].
  destruct (Z.compare_spec (Civil.month c) (Civil.month d)); [|split; (done || lia)..].
  destruct (Z.compare_spec (Civil.day c) (Civil.day d)); split; (done || lia).
Qed.

Lemma civil_lt (n m : Z) : n < m -> civil_compare (civil_of_days n) (civil_of_days m) = Lt.
Proof.
  intros Hlt. replace m with (n + 1 + Z.of_nat (Z.to_nat (m - n - 1))) by lia. induction (Z.to_nat (m - n - 1)) as [|k IH].
  - rewrite Z.add_0_r, civil_compare_Lt. pose proof (civil_next n) as Hf. pose proof (civil_bounds n). pose proof (civil_bounds (n + 1)).
    unfold follows in Hf. lia.
  - rewrite civil_compare_Lt in *. pose proof (civil_next (n + 1 + Z.of_nat k)) as Hf.
    replace (n + 1 + Z.of_nat (S k)) with (n + 1 + Z.of_nat k + 1) by lia. unfold follows in Hf.
    pose proof (civil_bounds (n + 1 + Z.of_nat k)). lia.
Qed.

(** The texts of days are ordered as the days. *)
Lemma day_text_le (n m : Z) : four_digits n -> four_digits m -> text_le (day_text n) (day_text m) = (n <=? m).
Proof.
  intros Hn Hm. unfold text_le. rewrite compare_day_text by done. destruct (Z.lt_trichotomy n m) as [Hlt|[->|Hgt]].
  - rewrite civil_lt by done. symmetry. apply Z.leb_le. lia.
  - unfold civil_compare. rewrite !Z.compare_refl. symmetry. by apply Z.leb_refl.
  - pose proof (civil_lt m n Hgt) as Hc. rewrite civil_compare_Lt in Hc.
    assert (n <=? m = false) as -> by (apply Z.leb_gt; lia). destruct (civil_compare _ _) eqn:E; [exfalso|exfalso|done].
    + unfold civil_compare in E. destruct (Z.compare_spec (Civil.year (civil_of_days n)) (Civil.year (civil_of_days m))); [|done..].
      destruct (Z.compare_spec (Civil.month (civil_of_days n)) (Civil.month (civil_of_days m))); [|done..]. apply Z.compare_eq_iff in E. lia.
    + apply civil_compare_Lt in E. lia.
Qed.

(** ** The days of a month *)

Lemma civil_back (n : Z) (k : nat) :
  Z.of_nat k < Civil.day (civil_of_days n) ->
  civil_of_days (n - Z.of_nat k) =
    Civil.mk (Civil.year (civil_of_days n)) (Civil.month (civil_of_days n)) (Civil.day (civil_of_days n) - Z.of_nat k).
Proof.
  induction k as [|k IH]; intros Hk; [rewrite !Z.sub_0_r; by destruct (civil_of_days n)|].
  pose proof (civil_next (n - Z.of_nat (S k))) as Hf. replace (n - Z.of_nat (S k) + 1) with (n - Z.of_nat k) in Hf by lia.
  rewrite IH in Hf by lia. unfold follows in Hf. cbn [Civil.year Civil.month Civil.day] in Hf.
  destruct Hf as [(Hy & Hm & Hd)|[Hd _]]; [|lia]. destruct (civil_of_days (n - Z.of_nat (S k))) as [y m d].
  cbn [Civil.year Civil.month Civil.day] in *. f_equal; lia.
Qed.

Lemma four_digits_back (n k : Z) : four_digits n -> 0 <= k < Civil.day (civil_of_days n) -> four_digits (n - k).
Proof. intros Hn Hk. unfold four_digits. rewrite <- (Z2Nat.id k) by lia. rewrite civil_back by lia. done. Qed.

(** The first day of the month of a day. *)
Definition month_start (n : Z) : Z := n - (Civil.day (civil_of_days n) - 1).

Lemma firstDayOfMonth_text (n : Z) : four_digits n -> firstDayOfMonth (day_text n) = day_text (month_start n).
Proof.
  intros Hn. pose proof (civil_bounds n) as [_ Hd]. unfold month_start. rewrite day_text_civil by done.
  rewrite day_text_civil by (apply four_digits_back; [done|lia]).
  rewrite <- (Z2Nat.id (Civil.day (civil_of_days n) - 1)) by lia. rewrite civil_back by lia. rewrite Z2Nat.id by lia.
  unfold firstDayOfMonth, civil_text. cbn [Civil.year Civil.month Civil.day].
  replace (Civil.day (civil_of_days n) - (Civil.day (civil_of_days n) - 1)) with 1 by lia.
  set (y := fixed_digits 4 _). set (m := fixed_digits 2 (Civil.month _)). reflexivity.
Qed.
