(* ===== verification/Organizations.v ===== *)
(** * Organizations, their members and invitations

    The records of src/conversation/src/domain/organizations.ts, their codecs (store/codecs/organization.ts, membership.ts,
    invitation.ts, identity.ts), their keys (store/keys.ts) and the methods of [DynamoMessagingStore] on them
    (store/dynamo-messaging-store.ts). A status and a role are texts, as they are stored: no decoder checks them. The table
    scan of [listOrganizationsByStatus] is not modelled. *)

From S2P Require Import Prelude Json Decimal Dates Types Service Paging TurnCodec TurnStore ComputerStore Workers LiveFiles.
#[local] Open Scope Z_scope.
#[local] Open Scope cond_scope.
#[local] Open Scope prog_scope.

(** ** Records *)

Module Identity.
Record Identity : Type := mk { userId : string; email : string; createdAt : Z }.
End Identity.
Abbreviation Identity := Identity.Identity.

Module Organization.
Record Organization : Type := mk {
  tenantId : string;
  name : string;
  status : string;
  ownerUserId : string;
  createdAt : Z;
  awsAccountId : option string;
  awsCrossAccountRole : option string;
  awsExternalId : option string;
  awsSetupPath : option string;
  setupFeeCents : option Z;
  assistedSetupSession : bool;
  monthlyAwsSpendCeilingUsd : option Decimal;
}.
End Organization.
Abbreviation Organization := Organization.Organization.

Module Membership.
Record Membership : Type := mk { tenantId : string; userId : string; role : string; joinedAt : Z }.
End Membership.
Abbreviation Membership := Membership.Membership.

Module Invitation.
Record Invitation : Type := mk {
  invitationId : string;
  tenantId : string;
  email : string;
  invitedByUserId : string;
  role : string;
  status : string;
  expiresAt : Z;
  createdAt : Z;
}.
End Invitation.
Abbreviation Invitation := Invitation.Invitation.

#[export] Instance Identity_eq_dec : EqDecision Identity.
Proof. solve_decision. Defined.
#[export] Instance Organization_eq_dec : EqDecision Organization.
Proof. solve_decision. Defined.
#[export] Instance Membership_eq_dec : EqDecision Membership.
Proof. solve_decision. Defined.
#[export] Instance Invitation_eq_dec : EqDecision Invitation.
Proof. solve_decision. Defined.

(** ** Keys *)

Definition organizationPartition (tenantId : string) : string := tenantId +:+ "#org".
Definition userPartition (userId : string) : string := "user#" +:+ userId.

Definition organizationKey (tenantId : string) : key := (organizationPartition tenantId, "meta").
Definition membershipKey (tenantId userId : string) : key := (organizationPartition tenantId, "member#" +:+ userId).
Definition identityKey (userId : string) : key := (userPartition userId, "identity").
Definition invitationKey (tenantId invitationId : string) : key := (organizationPartition tenantId, "invite#" +:+ invitationId).
Definition identityLookupKey (email : string) : key := ("identity_lookup#" +:+ email, "meta").
Definition invitationLookupKey (invitationId : string) : key := ("invitation_lookup#" +:+ invitationId, "meta").
Definition userOrganizationKey (userId tenantId : string) : key := (userPartition userId, "org#" +:+ tenantId).
Definition invitationEmailKey (email invitationId : string) : key := ("invitation_email#" +:+ email, "pending#" +:+ invitationId).

(** ** Numbers with a fraction

    A number as DynamoDB keeps it, without trailing zeros, and the text it answers with. *)

Fixpoint number_attr_of (units : Z) (scale : nat) : attr :=
  match scale with
  | O => AN units
  | S scale' => if units mod 10 =? 0 then number_attr_of (units / 10) scale' else ADEC units scale
  end.

Definition number_attr (d : Decimal) : attr := number_attr_of (Decimal.units d) (Decimal.scale d).

Definition number_text (v : attr) : option string :=
  match v with
  | AN n => Some (dec n)
  | ADEC units scale => Some (toString (Decimal.mk units scale))
  | _ => None
  end.

(** ** Codecs *)

Definition encodeIdentity (v : Identity) : item :=
  let k := identityKey (Identity.userId v) in
  list_to_map [
    ("pk", AS k.1); ("sk", AS k.2);
    ("user_id", AS (Identity.userId v));
    ("email", AS (Identity.email v));
    ("created_at", AS (formatIsoDateTime (Identity.createdAt v)))].

(** [None] is the error of a malformed item, here and below; a time that is no date, which JavaScript reads as the invalid
    date, is refused too. *)
Definition decodeIdentity (it : item) : option Identity :=
  userId ← optionalString it "user_id";
  email ← optionalString it "email";
  createdAt ← optionalString it "created_at" ≫= date_of_text;
  Some (Identity.mk userId email createdAt).

Definition encodeOrganization (v : Organization) : item :=
  let k := organizationKey (Organization.tenantId v) in
  let base : item := list_to_map [
    ("pk", AS k.1); ("sk", AS k.2);
    ("tenant_id", AS (Organization.tenantId v));
    ("name", AS (Organization.name v));
    ("status", AS (Organization.status v));
    ("owner_user_id", AS (Organization.ownerUserId v));
    ("created_at", AS (formatIsoDateTime (Organization.createdAt v)))] in
  let base := put_if "aws_account_id" AS (Organization.awsAccountId v) base in
  let base := put_if "aws_cross_account_role" AS (Organization.awsCrossAccountRole v) base in
  let base := put_if "aws_external_id" AS (Organization.awsExternalId v) base in
  let base := put_if "aws_setup_path" AS (Organization.awsSetupPath v) base in
  let base := put_if "setup_fee_cents" AN (Organization.setupFeeCents v) base in
  let base := put_flag "assisted_setup_session" (Organization.assistedSetupSession v) base in
  put_if "monthly_aws_spend_ceiling_usd" number_attr (Organization.monthlyAwsSpendCeilingUsd v) base.

(** [Decimal.parse] of a number that is there; [None] when its text is none. *)
Definition optionalDecimal (it : item) (name : string) : option (option Decimal) :=
  match it !! name ≫= number_text with
  | None => Some None
  | Some text => d ← parse text; Some (Some d)
  end.

Definition organizationFromItem (it : item) : option Organization :=
  tenantId ← optionalString it "tenant_id";
  name ← optionalString it "name";
  status ← optionalString it "status";
  ownerUserId ← optionalString it "owner_user_id";
  createdAt ← optionalString it "created_at" ≫= date_of_text;
  ceiling ← optionalDecimal it "monthly_aws_spend_ceiling_usd";
  Some {|
    Organization.tenantId := tenantId;
    Organization.name := name;
    Organization.status := status;
    Organization.ownerUserId := ownerUserId;
    Organization.createdAt := createdAt;
    Organization.awsAccountId := required_string it "aws_account_id";
    Organization.awsCrossAccountRole := required_string it "aws_cross_account_role";
    Organization.awsExternalId := required_string it "aws_external_id";
    Organization.awsSetupPath := required_string it "aws_setup_path";
    Organization.setupFeeCents := optionalNumber it "setup_fee_cents";
    Organization.assistedSetupSession := flag_or it "assisted_setup_session" false;
    Organization.monthlyAwsSpendCeilingUsd := ceiling;
  |}.

Definition encodeMembership (v : Membership) : item :=
  let k := membershipKey (Membership.tenantId v) (Membership.userId v) in
  list_to_map [
    ("pk", AS k.1); ("sk", AS k.2);
    ("tenant_id", AS (Membership.tenantId v));
    ("user_id", AS (Membership.userId v));
    ("role", AS (Membership.role v));
    ("joined_at", AS (formatIsoDateTime (Membership.joinedAt v)))].

Definition decodeMembership (it : item) : option Membership :=
  tenantId ← optionalString it "tenant_id";
  userId ← optionalString it "user_id";
  role ← optionalString it "role";
  joinedAt ← optionalString it "joined_at" ≫= date_of_text;
  Some (Membership.mk tenantId userId role joinedAt).

Definition encodeInvitation (v : Invitation) : item :=
  let k := invitationKey (Invitation.tenantId v) (Invitation.invitationId v) in
  list_to_map [
    ("pk", AS k.1); ("sk", AS k.2);
    ("invitation_id", AS (Invitation.invitationId v));
    ("tenant_id", AS (Invitation.tenantId v));
    ("email", AS (Invitation.email v));
    ("invited_by_user_id", AS (Invitation.invitedByUserId v));
    ("role", AS (Invitation.role v));
    ("status", AS (Invitation.status v));
    ("expires_at", AN (epochSeconds (Invitation.expiresAt v)));
    ("created_at", AS (formatIsoDateTime (Invitation.createdAt v)))].

Definition decodeInvitation (it : item) : option Invitation :=
  invitationId ← optionalString it "invitation_id";
  tenantId ← optionalString it "tenant_id";
  email ← optionalString it "email";
  invitedByUserId ← optionalString it "invited_by_user_id";
  role ← optionalString it "role";
  status ← optionalString it "status";
  expiresAt ← optionalDate it "expires_at";
  createdAt ← optionalString it "created_at" ≫= date_of_text;
  Some (Invitation.mk invitationId tenantId email invitedByUserId role status expiresAt createdAt).

(** ** The store *)

Definition put (it : item) : prog unit := send (PutItem it CTrue).

(** [item[name]?.S ?? ""]. *)
Definition text_or_empty (it : item) (name : string) : string := default EmptyString (required_string it name).

(** An item read, decoded when it is there. *)
Definition get_decoded {A : Type} (decode : item -> option A) (what : string) (k : key) : prog (option A) :=
  let! it := send (GetItem k) in
  match it with
  | None => Ret None
  | Some it => match decode it with Some a => Ret (Some a) | None => Throw (MalformedItem what) end
  end.

Definition decoded {A : Type} (decode : item -> option A) (what : string) (it : item) : exn + A :=
  match decode it with Some a => Ok a | None => Err (MalformedItem what) end.

(** [list.sort((left, right) => compareStrings(key(left), key(right)))]. *)
Definition sort_by {A : Type} (key : A -> string) (l : list A) : list A :=
  stable_sort (fun left right => bool_decide (utf16_compare (key left) (key right) = Lt)) l.

(** The items of a partition whose sort key has a prefix. *)
Definition queryPrefix (pages : nat) (partitionKey sortKeyPrefix : string) : prog (list item) :=
  query_pages (fun it => Ok it) partitionKey (BeginsWith sortKeyPrefix) CTrue None pages.

Definition getIdentityByEmail (email : string) : prog (option Identity) :=
  let! lookup := send (GetItem (identityLookupKey email)) in
  match lookup with
  | None => Ret None
  | Some row => get_decoded decodeIdentity "identity" (identityKey (text_or_empty row "user_id"))
  end.

Definition identity_lookup_row (v : Identity) : item :=
  let k := identityLookupKey (Identity.email v) in
  list_to_map [("pk", AS k.1); ("sk", AS k.2); ("user_id", AS (Identity.userId v)); ("email", AS (Identity.email v));
    ("created_at", AS (formatIsoDateTime (Identity.createdAt v)))].

Definition putIdentity (identity : Identity) : prog unit :=
  put (encodeIdentity identity) ;;; put (identity_lookup_row identity).

Definition getOrganization (tenantId : string) : prog (option Organization) :=
  get_decoded organizationFromItem "organization" (organizationKey tenantId).

Definition putOrganization (organization : Organization) : prog unit := put (encodeOrganization organization).

Definition setMonthlyAwsSpendCeilingWhenUnset (tenantId : string) (monthlyAwsSpendCeilingUsd : Decimal) : prog bool :=
  catch (send (UpdateItem (organizationKey tenantId)
      [SET "monthly_aws_spend_ceiling_usd" (number_attr monthlyAwsSpendCeilingUsd)]
      (AttrExists "pk" AND AttrNotExists "monthly_aws_spend_ceiling_usd")) ;;; Ret true)
    (fun error => match error with ConditionalCheckFailedException => Ret false | _ => Throw error end).

Definition getMembership (tenantId userId : string) : prog (option Membership) :=
  get_decoded decodeMembership "membership" (membershipKey tenantId userId).

Definition user_organization_row (v : Membership) : item :=
  let k := userOrganizationKey (Membership.userId v) (Membership.tenantId v) in
  list_to_map [("pk", AS k.1); ("sk", AS k.2); ("tenant_id", AS (Membership.tenantId v)); ("user_id", AS (Membership.userId v));
    ("role", AS (Membership.role v))].

Definition putMembership (membership : Membership) : prog unit :=
  put (encodeMembership membership) ;;; put (user_organization_row membership).

Definition getInvitation (invitationId : string) : prog (option Invitation) :=
  let! lookup := send (GetItem (invitationLookupKey invitationId)) in
  match lookup with
  | None => Ret None
  | Some row => get_decoded decodeInvitation "invitation" (invitationKey (text_or_empty row "tenant_id") invitationId)
  end.

Definition invitation_lookup_row (v : Invitation) : item :=
  let k := invitationLookupKey (Invitation.invitationId v) in
  list_to_map [("pk", AS k.1); ("sk", AS k.2); ("tenant_id", AS (Invitation.tenantId v));
    ("invitation_id", AS (Invitation.invitationId v))].

Definition invitation_email_row (v : Invitation) : item :=
  let k := invitationEmailKey (Invitation.email v) (Invitation.invitationId v) in
  list_to_map [("pk", AS k.1); ("sk", AS k.2); ("invitation_id", AS (Invitation.invitationId v));
    ("tenant_id", AS (Invitation.tenantId v)); ("expires_at", AN (epochSeconds (Invitation.expiresAt v)))].

Definition putInvitation (invitation : Invitation) : prog unit :=
  put (encodeInvitation invitation) ;;; put (invitation_lookup_row invitation) ;;; put (invitation_email_row invitation).

Definition ONE_HOUR_SECONDS : Z := 3600.

Definition incrementRateCounter (userId name : string) (now windowSeconds : Z) : prog Z :=
  let bucket := epochSeconds now / windowSeconds in
  let expiresAt := epochSeconds now + windowSeconds + ONE_HOUR_SECONDS in
  let! attributes := send (UpdateItem (userPartition userId, name +:+ "#" +:+ dec bucket)
    [INCREMENT "attempt_count" 0 1; SET "expires_at" (AN expiresAt)] CTrue) in
  match required_number attributes "attempt_count" with
  | Some n => Ret n
  | None => Throw (JsError "attempt_count is not a number")
  end.

Definition incrementOrganizationCreationAttempts (userId : string) (now windowMilliseconds : Z) : prog Z :=
  incrementRateCounter userId "org_create_rate" now (Z.max (windowMilliseconds / 1000) 1).

Section listings.
Context (pages : nat).

Definition listMemberships (tenantId : string) : prog (list Membership) :=
  let! memberships := query_pages (decoded decodeMembership "membership") (organizationPartition tenantId) (BeginsWith "member#") CTrue
    None pages in
  Ret (sort_by Membership.userId memberships).

Definition listOrganizationsForUser (userId : string) : prog (list Organization) :=
  let! rows := queryPrefix pages (userPartition userId) "org#" in
  let! organizations := for_each rows [] (fun acc row =>
    let! organization := getOrganization (text_or_empty row "tenant_id") in
    Ret (match organization with Some o => acc ++ [o] | None => acc end)) in
  Ret (sort_by Organization.tenantId organizations).

Definition listPendingInvitationsForEmail (email : string) : prog (list Invitation) :=
  let! rows := queryPrefix pages ("invitation_email#" +:+ email) "pending#" in
  let! invitations := for_each rows [] (fun acc row =>
    let! invitation := getInvitation (text_or_empty row "invitation_id") in
    Ret (match invitation with
         | Some i => if decide (Invitation.status i = "pending") then acc ++ [i] else acc
         | None => acc
         end)) in
  Ret (stable_sort (fun left right => Invitation.createdAt left <? Invitation.createdAt right) invitations).
End listings.
