(* ===== verification/OrganizationDomain.v ===== *)
(** * The functions of organizations

    src/conversation/src/domain/organizations.ts (signing in, creating and seeding an organization, its life cycle, roles and
    invitations), domain/invitations.ts, domain/creation-limits.ts, domain/signup-mode.ts and the ceiling of
    domain/organization-spend.ts, with the errors of http/errors.ts. Each reads records and then puts whole records, with
    nothing in between that keeps another process from writing them. The lower case of a text is a parameter
    ([toLowerCase], on all of Unicode); so is the AWS account of the deployment ([callerAwsAccountId]). *)

From S2P Require Import Prelude Json Decimal Types Service TurnCodec LiveFiles Organizations.
From coqutil Require Import Datatypes.RecordSetters.
Import DoubleBraceUpdate.
#[local] Open Scope Z_scope.
#[local] Open Scope prog_scope.

(** ** Errors *)

Definition OrganizationSeedConflictError (message : string) : exn := DomainError "organization_seed_conflict" message.
Definition OrganizationNotFoundError (message : string) : exn := DomainError "organization_not_found" message.
Definition OrganizationNotEnabledError (message : string) : exn := DomainError "organization_not_enabled" message.
Definition OrganizationStatusTransitionError (message : string) : exn := DomainError "organization_status_transition" message.
Definition InvitationNotFoundError (message : string) : exn := DomainError "invitation_not_found" message.
Definition InvitationEmailMismatchError (message : string) : exn := DomainError "invitation_email_mismatch" message.
Definition InvitationExpiredError (message : string) : exn := DomainError "invitation_expired" message.
Definition InvitationNotPendingError (message : string) : exn := DomainError "invitation_not_pending" message.
Definition MembershipNotFoundError (message : string) : exn := DomainError "membership_not_found" message.
Definition DuplicateMembershipError (message : string) : exn := DomainError "duplicate_membership" message.
Definition NotOrganizationOwnerError (message : string) : exn := DomainError "not_organization_owner" message.
Definition LastOwnerCannotBeDemotedError (message : string) : exn := DomainError "last_owner_cannot_be_demoted" message.
Definition OrganizationNameTooLongError (message : string) : exn := DomainError "organization_name_too_long" message.
Definition OrganizationCreationRateLimitedError (message : string) : exn := DomainError "organization_creation_rate_limited" message.
Definition OrganizationOwnerCapError (message : string) : exn := DomainError "organization_owner_cap" message.

(** [JSON.stringify(text)]. *)
Definition json_text (text : string) : string := stringify (JStr text).

Definition organization_unknown (tenantId : string) : exn :=
  OrganizationNotFoundError ("Organization " +:+ json_text tenantId +:+ " is unknown.").

(** ** Homes and ceilings *)

Module AwsHome.
Record OrganizationAwsHome : Type := mk { accountId : string; crossAccountRole : string; externalId : string; setupPath : string }.
End AwsHome.
Abbreviation OrganizationAwsHome := AwsHome.OrganizationAwsHome.

Definition hasUnchosenAwsHome (organization : Organization) : bool :=
  bool_decide (Organization.awsAccountId organization = None) && bool_decide (Organization.awsSetupPath organization = None).

Definition withDeploymentAccountHome (organization : Organization) (deploymentAwsAccountId : string) : Organization :=
  organization {{ Organization.awsAccountId := Some deploymentAwsAccountId; Organization.awsSetupPath := Some "anthus-managed" }}.

(** [Decimal.parse("50.00")]. *)
Definition DEFAULT_MONTHLY_AWS_SPEND_CEILING_USD : Decimal := Decimal.mk 5000 2.

Example default_ceiling : parse "50.00" = Some DEFAULT_MONTHLY_AWS_SPEND_CEILING_USD.
Proof. reflexivity. Qed.

Definition INVITATION_TTL_DAYS : Z := 7.

Section organizations.
Context (toLowerCase : string -> string) (pages : nat) (callerAwsAccountId : option (prog string)).

Definition normalizeEmail (email : string) : string := toLowerCase (trim email).

Definition signIn (email : string) : prog Identity :=
  let normalized := normalizeEmail email in
  let! existing := getIdentityByEmail normalized in
  match existing with
  | Some identity => Ret identity
  | None =>
      let! userId := send NextId in
      let! createdAt := send ClockNow in
      let identity := Identity.mk userId normalized createdAt in
      putIdentity identity ;;;
      Ret identity
  end.

(** The record both ways of creating an organization start from. *)
Definition new_organization (tenantId name status ownerUserId : string) (now : Z) (awsAccountId awsSetupPath : option string) :
  Organization := {|
    Organization.tenantId := tenantId;
    Organization.name := name;
    Organization.status := status;
    Organization.ownerUserId := ownerUserId;
    Organization.createdAt := now;
    Organization.awsAccountId := awsAccountId;
    Organization.awsCrossAccountRole := None;
    Organization.awsExternalId := None;
    Organization.awsSetupPath := awsSetupPath;
    Organization.setupFeeCents := None;
    Organization.assistedSetupSession := false;
    Organization.monthlyAwsSpendCeilingUsd := Some DEFAULT_MONTHLY_AWS_SPEND_CEILING_USD |}.

Definition createOrganization (owner : Identity) (name : string) : prog Organization :=
  let! tenantId := send NextId in
  let! now := send ClockNow in
  let organization := new_organization tenantId name "pending" (Identity.userId owner) now None None in
  putOrganization organization ;;;
  putMembership (Membership.mk tenantId (Identity.userId owner) "owner" now) ;;;
  Ret organization.

Definition adminCreateOrganization (owner : Identity) (name : string) : prog Organization := createOrganization owner name.

Definition withAnthusManagedHomeWhenUnchosen (organization : Organization) : prog Organization :=
  match callerAwsAccountId with
  | Some caller => if hasUnchosenAwsHome organization then let! account := caller in Ret (withDeploymentAccountHome organization account)
                   else Ret organization
  | None => Ret organization
  end.

Definition applySeedAwsHome (organization : Organization) : prog Organization :=
  match Organization.awsAccountId organization, callerAwsAccountId with
  | None, Some caller =>
      let! account := caller in
      let updated := withDeploymentAccountHome organization account in
      putOrganization updated ;;;
      Ret updated
  | _, _ => Ret organization
  end.

Definition getOrganization (tenantId : string) : prog Organization :=
  let! organization := Organizations.getOrganization tenantId in
  match organization with Some o => Ret o | None => Throw (organization_unknown tenantId) end.

(** The shape of the three changes of a status: a record read, judged and put back whole. *)
Definition wrong_status (tenantId status operation required : string) : exn :=
  OrganizationStatusTransitionError ("Organization " +:+ json_text tenantId +:+ " has status " +:+ json_text status +:+ "; "
    +:+ operation +:+ " requires " +:+ required +:+ ".").

Definition enableOrganization (tenantId : string) : prog Organization :=
  let! organization := getOrganization tenantId in
  if decide (Organization.status organization <> "pending") then Throw (wrong_status tenantId (Organization.status organization) "enable" "pending")
  else
    let! homed := withAnthusManagedHomeWhenUnchosen organization in
    let enabled := homed {{ Organization.status := "enabled" }} in
    putOrganization enabled ;;;
    Ret enabled.

Definition suspendOrganization (tenantId : string) : prog Organization :=
  let! organization := getOrganization tenantId in
  if decide (Organization.status organization <> "enabled") then Throw (wrong_status tenantId (Organization.status organization) "suspend" "enabled")
  else
    let suspended := organization {{ Organization.status := "suspended" }} in
    putOrganization suspended ;;;
    Ret suspended.

Definition reinstateOrganization (tenantId : string) : prog Organization :=
  let! organization := getOrganization tenantId in
  if decide (Organization.status organization <> "suspended")
  then Throw (wrong_status tenantId (Organization.status organization) "reinstate" "suspended")
  else
    let! homed := withAnthusManagedHomeWhenUnchosen organization in
    let reinstated := homed {{ Organization.status := "enabled" }} in
    putOrganization reinstated ;;;
    Ret reinstated.

Definition provisionOrganizationAws (tenantId : string) (awsHome : OrganizationAwsHome) : prog Organization :=
  let! organization := getOrganization tenantId in
  let provisioned := organization {{
    Organization.awsAccountId := Some (AwsHome.accountId awsHome);
    Organization.awsCrossAccountRole := Some (AwsHome.crossAccountRole awsHome);
    Organization.awsExternalId := Some (AwsHome.externalId awsHome);
    Organization.awsSetupPath := Some (AwsHome.setupPath awsHome) }} in
  putOrganization provisioned ;;;
  Ret provisioned.

Definition finishSeed (tenantId : string) (existing : Organization) (owner : Identity) : prog Organization :=
  if decide (Organization.ownerUserId existing <> Identity.userId owner) then
    Throw (OrganizationSeedConflictError ("Organization " +:+ json_text tenantId +:+ " already has owner "
      +:+ json_text (Organization.ownerUserId existing) +:+ "; seed requested " +:+ json_text (Identity.userId owner) +:+ "."))
  else
    let! membership := getMembership tenantId (Identity.userId owner) in
    if decide (Membership.role <$> membership = Some "owner") then
      if decide (Organization.status existing = "enabled") then applySeedAwsHome existing
      else if decide (Organization.status existing = "pending") then
        let! enabled := enableOrganization tenantId in applySeedAwsHome enabled
      else Throw (OrganizationSeedConflictError ("Organization " +:+ json_text tenantId +:+ " has status "
             +:+ json_text (Organization.status existing) +:+ "; seed requires pending or enabled."))
    else Throw (OrganizationSeedConflictError ("Organization " +:+ json_text tenantId +:+ " is missing an owner membership for "
           +:+ json_text (Identity.userId owner) +:+ ".")).

Definition adminSeedOrganization (tenantId ownerEmail name : string) : prog Organization :=
  let! owner := signIn ownerEmail in
  let! existing := Organizations.getOrganization tenantId in
  match existing with
  | Some organization => finishSeed tenantId organization owner
  | None =>
      let! now := send ClockNow in
      let! account := match callerAwsAccountId with None => Ret None | Some caller => let! account := caller in Ret (Some account) end in
      let organization := new_organization tenantId name "enabled" (Identity.userId owner) now account (Some "anthus-managed") in
      putOrganization organization ;;;
      putMembership (Membership.mk tenantId (Identity.userId owner) "owner" now) ;;;
      Ret organization
  end.

(** ** Roles *)

Definition not_a_member (tenantId userId : string) : exn :=
  MembershipNotFoundError ("User " +:+ json_text userId +:+ " is not a member of " +:+ json_text tenantId +:+ ".").
Definition not_an_owner (tenantId userId : string) : exn :=
  NotOrganizationOwnerError ("User " +:+ json_text userId +:+ " is not an owner of " +:+ json_text tenantId +:+ ".").
Definition last_owner (tenantId userId : string) : exn :=
  LastOwnerCannotBeDemotedError ("User " +:+ json_text userId +:+ " is the last owner of " +:+ json_text tenantId +:+ ".").

(** The part [adminSetMemberRole] and [setMemberRole] share: a member's role is changed, but not that of the last owner. *)
Definition change_role (tenantId memberUserId role : string) : prog Membership :=
  let! membership := getMembership tenantId memberUserId in
  match membership with
  | None => Throw (not_a_member tenantId memberUserId)
  | Some m =>
      (if decide (Membership.role m = "owner" /\ role <> "owner") then
         let! memberships := listMemberships pages tenantId in
         if existsb (fun x => bool_decide (Membership.role x = "owner") && negb (bool_decide (Membership.userId x = memberUserId))) memberships
         then Ret tt else Throw (last_owner tenantId memberUserId)
       else Ret tt) ;;;
      let updated := m {{ Membership.role := role }} in
      putMembership updated ;;;
      Ret updated
  end.

Definition adminSetMemberRole (tenantId memberUserId role : string) : prog Membership :=
  getOrganization tenantId ;;; change_role tenantId memberUserId role.

(** The acting member is an owner, or the call is refused. *)
Definition require_owner (tenantId actorUserId : string) : prog unit :=
  let! actor := getMembership tenantId actorUserId in
  if decide (Membership.role <$> actor = Some "owner") then Ret tt else Throw (not_an_owner tenantId actorUserId).

Definition setMemberRole (tenantId actorUserId memberUserId role : string) : prog Membership :=
  getOrganization tenantId ;;; require_owner tenantId actorUserId ;;; change_role tenantId memberUserId role.

(** ** Invitations *)

Definition inviteByEmail (tenantId inviterUserId email : string) : prog Invitation :=
  getOrganization tenantId ;;;
  require_owner tenantId inviterUserId ;;;
  let! now := send ClockNow in
  let! invitationId := send NextId in
  let invitation := {|
    Invitation.invitationId := invitationId;
    Invitation.tenantId := tenantId;
    Invitation.email := normalizeEmail email;
    Invitation.invitedByUserId := inviterUserId;
    Invitation.role := "member";
    Invitation.status := "pending";
    Invitation.expiresAt := now + INVITATION_TTL_DAYS * 24 * 60 * 60 * 1000;
    Invitation.createdAt := now |} in
  putInvitation invitation ;;;
  Ret invitation.

Definition acceptInvitation (invitationId : string) (acceptor : Identity) : prog Membership :=
  let! found := getInvitation invitationId in
  match found with
  | None => Throw (InvitationNotFoundError ("Invitation " +:+ json_text invitationId +:+ " is unknown."))
  | Some invitation =>
      if decide (Invitation.status invitation <> "pending") then
        Throw (InvitationNotPendingError ("Invitation " +:+ json_text invitationId +:+ " is not pending."))
      else
        let! now := send ClockNow in
        if Invitation.expiresAt invitation <=? now then
          Throw (InvitationExpiredError ("Invitation " +:+ json_text invitationId +:+ " has expired."))
        else
          let tenantId := Invitation.tenantId invitation in
          let! organization := getOrganization tenantId in
          if decide (Organization.status organization <> "enabled") then
            Throw (OrganizationNotEnabledError ("Organization " +:+ json_text tenantId +:+ " is not enabled."))
          else if decide (Identity.email acceptor <> Invitation.email invitation) then
            Throw (InvitationEmailMismatchError ("Invitation " +:+ json_text invitationId +:+ " does not match "
              +:+ json_text (Identity.email acceptor) +:+ "."))
          else
            let! existing := getMembership tenantId (Identity.userId acceptor) in
            match existing with
            | Some _ => Throw (DuplicateMembershipError ("User " +:+ json_text (Identity.userId acceptor) +:+ " already belongs to "
                                 +:+ json_text tenantId +:+ "."))
            | None =>
                let membership := Membership.mk tenantId (Identity.userId acceptor) (Invitation.role invitation) now in
                putMembership membership ;;;
                putInvitation (invitation {{ Invitation.status := "accepted" }}) ;;;
                Ret membership
            end
  end.

(** The codes of the errors [reconcilePendingInvitations] goes on after. *)
Definition SKIPPABLE_ACCEPT_ERRORS : list string :=
  ["duplicate_membership"; "invitation_email_mismatch"; "invitation_expired"; "invitation_not_found"; "invitation_not_pending";
   "organization_not_enabled"; "organization_not_found"].

Definition skippable (e : exn) : bool :=
  match e with DomainError code _ => bool_decide (code ∈ SKIPPABLE_ACCEPT_ERRORS) | _ => false end.

Definition reconcilePendingInvitations (acceptor : Identity) : prog unit :=
  let! now := send ClockNow in
  let! invitations := listPendingInvitationsForEmail pages (Identity.email acceptor) in
  for_each invitations tt (fun _ invitation =>
    if Invitation.expiresAt invitation <=? now then Ret tt
    else
      let! organization := Organizations.getOrganization (Invitation.tenantId invitation) in
      if decide (Organization.status <$> organization = Some "enabled") then
        catch (acceptInvitation (Invitation.invitationId invitation) acceptor ;;; Ret tt)
          (fun error => if skippable error then Ret tt else Throw error)
      else Ret tt).
End organizations.

(** ** Creating an organization on the product path *)

Definition ORGANIZATION_NAME_MAX_LENGTH : Z := 128.
Definition ORGANIZATION_CREATION_RATE_WINDOW_HOURS : Z := 1.
Definition ORGANIZATION_CREATION_RATE_WINDOW_MILLISECONDS : Z := ORGANIZATION_CREATION_RATE_WINDOW_HOURS * 60 * 60 * 1000.

Definition validateOrganizationName (name : string) : exn + string :=
  let stripped := trim name in
  if ORGANIZATION_NAME_MAX_LENGTH <? utf16_length stripped then
    Err (OrganizationNameTooLongError ("Organization name must be at most " +:+ dec ORGANIZATION_NAME_MAX_LENGTH
      +:+ " characters after trimming whitespace."))
  else Ok stripped.

Definition createOrganizationUnderCaps (pages : nat) (rateLimit : Z) (deploymentAwsAccountId : string) (owner : Identity) (name : string) :
  prog Organization :=
  let userId := Identity.userId owner in
  let! now := send ClockNow in
  let! attempts := incrementOrganizationCreationAttempts userId now ORGANIZATION_CREATION_RATE_WINDOW_MILLISECONDS in
  if rateLimit <? attempts then
    Throw (OrganizationCreationRateLimitedError ("User " +:+ json_text userId +:+ " exceeded the organization creation rate limit of "
      +:+ dec rateLimit +:+ " attempts per " +:+ dec ORGANIZATION_CREATION_RATE_WINDOW_HOURS +:+ ":00:00."))
  else
    match validateOrganizationName name with
    | Err e => Throw e
    | Ok strippedName =>
        let! organizations := listOrganizationsForUser pages userId in
        if existsb (fun o => bool_decide (Organization.ownerUserId o = userId)) organizations then
          Throw (OrganizationOwnerCapError ("User " +:+ json_text userId +:+ " already owns an organization."))
        else
          let! pending := createOrganization owner strippedName in
          enableOrganization (Some (Ret deploymentAwsAccountId)) (Organization.tenantId pending)
    end.

(** ** The signup mode of a deployment *)

Inductive SignupMode : Type := signup_open | signup_invitation_only.

Definition parseSignupMode (toLowerCase : string -> string) (value : option string) : exn + SignupMode :=
  match value with
  | None => Ok signup_invitation_only
  | Some value =>
      if decide (trim value = EmptyString) then Ok signup_invitation_only
      else
        let normalized := replace_char (char 45) "_" (toLowerCase (trim value)) in
        if decide (normalized = "open") then Ok signup_open
        else if decide (normalized = "invitation_only" \/ normalized = "invitationonly") then Ok signup_invitation_only
        else Err (JsError ("Unsupported signup mode: " +:+ json_text value))
  end.
