(* ===== verification/Spend.v ===== *)
(** * The spend ceiling of an organization

    The rollup rows of src/conversation/src/budget/models.ts with their codec and their reads and writes in
    budget/budget-store.ts, the price of a hosted computer (budget/computer-runtime.ts), and
    src/conversation/src/domain/organization-spend.ts: what an organization spent this month so far, whether new computer work
    is paused for it, and the setting of its ceiling. The loop over the days of a month has no bound in the source; here it has
    [MONTH_ROUNDS], which is enough ([month_is_read_day_by_day]). A read of the budget store may be stale; here it is not. *)

From S2P Require Import Prelude Json Decimal Calendar Dates Types Service Paging TurnCodec TurnStore Workers ComputerDomain.
From S2P Require Import Organizations OrganizationDomain.
From coqutil Require Import Datatypes.RecordSetters.
Import DoubleBraceUpdate.
#[local] Open Scope Z_scope.
#[local] Open Scope prog_scope.

(** ** Rollup rows *)

Definition ACCOUNT_TENANT_ID : string := "__account__".
Definition CE_STATUS_OK : string := "ok".
Definition CE_STATUS_PENDING : string := "pending".
Definition CE_STATUS_ERROR : string := "error".

Module AlertEvent.
Record BudgetAlertEvent : Type := mk { source : string; firedAt : string; detail : string }.
End AlertEvent.
Abbreviation BudgetAlertEvent := AlertEvent.BudgetAlertEvent.

Module Rollup.
Record BudgetRollupRow : Type := mk {
  tenantId : string;
  environment : string;
  rollupDate : string;
  awsCostUsd : option Decimal;
  vendorCostUsd : Decimal;
  unpricedCalls : Z;
  combinedReportUsd : option Decimal;
  ceStatus : string;
  alertEvents : list BudgetAlertEvent;
  updatedAt : string;
}.
End Rollup.
Abbreviation BudgetRollupRow := Rollup.BudgetRollupRow.

Module ThresholdState.
Record BudgetThresholdState : Type := mk { environment : string; lastNotifiedBand : Z; updatedAt : string }.
End ThresholdState.
Abbreviation BudgetThresholdState := ThresholdState.BudgetThresholdState.

Module Segment.
Record ComputerRuntimeSegment : Type := mk { tenantId : string; ownerGeneration : Z; startedAt : Z; lastSeenAt : Z }.
End Segment.
Abbreviation ComputerRuntimeSegment := Segment.ComputerRuntimeSegment.

#[export] Instance BudgetAlertEvent_eq_dec : EqDecision BudgetAlertEvent.
Proof. solve_decision. Defined.
#[export] Instance BudgetRollupRow_eq_dec : EqDecision BudgetRollupRow.
Proof. solve_decision. Defined.

(** Whether an organization runs in its own AWS account, by its cross-account role. *)
Definition organizationRunsInItsOwnAwsAccount (awsCrossAccountRole : option string) : bool :=
  match awsCrossAccountRole with Some role => negb (bool_decide (role = EmptyString)) | None => false end.

Definition budgetRollupKey (tenantId environment rollupDate : string) : key :=
  (tenantId +:+ "#budget_rollup", environment +:+ "#day#" +:+ rollupDate).
Definition budgetThresholdStateKey (environment : string) : key :=
  (ACCOUNT_TENANT_ID +:+ "#budget_rollup", environment +:+ "#threshold_state").
Definition event_json (e : BudgetAlertEvent) : json :=
  JObj [("source", JStr (AlertEvent.source e)); ("fired_at", JStr (AlertEvent.firedAt e)); ("detail", JStr (AlertEvent.detail e))].

Definition budgetRollupItem (row : BudgetRollupRow) : item :=
  let k := budgetRollupKey (Rollup.tenantId row) (Rollup.environment row) (Rollup.rollupDate row) in
  let base : item := list_to_map [
    ("pk", AS k.1); ("sk", AS k.2);
    ("tenant_id", AS (Rollup.tenantId row));
    ("environment", AS (Rollup.environment row));
    ("rollup_date", AS (Rollup.rollupDate row));
    ("vendor_cost_usd", number_attr (Rollup.vendorCostUsd row));
    ("unpriced_calls", AN (Rollup.unpricedCalls row));
    ("ce_status", AS (Rollup.ceStatus row));
    ("updated_at", AS (Rollup.updatedAt row));
    ("alert_events", AS (stringify (JArr (event_json <$> Rollup.alertEvents row))))] in
  let base := put_if "aws_cost_usd" number_attr (Rollup.awsCostUsd row) base in
  put_if "combined_report_usd" number_attr (Rollup.combinedReportUsd row) base.

(** [String(entry.name)] of a parsed entry; null has no properties. *)
Definition entry_text (entry : json) (name : string) : option string :=
  match entry with
  | JNull => None
  | JObj fields => Some (match field fields name with Some v => js_string v | None => "undefined" end)
  | _ => Some "undefined"
  end.

Definition event_of_json (entry : json) : option BudgetAlertEvent :=
  source ← entry_text entry "source"; firedAt ← entry_text entry "fired_at"; detail ← entry_text entry "detail";
  Some (AlertEvent.mk source firedAt detail).

(** [None] is the error of a malformed item. *)
Definition budgetRollupFromItem (it : item) : option BudgetRollupRow :=
  parsed ← parse_json (default "[]" (required_string it "alert_events"));
  entries ← match parsed with JArr l => Some l | _ => None end;
  alertEvents ← mapM event_of_json entries;
  tenantId ← required_string it "tenant_id";
  environment ← required_string it "environment";
  rollupDate ← required_string it "rollup_date";
  awsCostUsd ← optionalDecimal it "aws_cost_usd";
  vendor ← optionalDecimal it "vendor_cost_usd";
  vendorCostUsd ← vendor;
  combinedReportUsd ← optionalDecimal it "combined_report_usd";
  ceStatus ← required_string it "ce_status";
  updatedAt ← required_string it "updated_at";
  Some {|
    Rollup.tenantId := tenantId;
    Rollup.environment := environment;
    Rollup.rollupDate := rollupDate;
    Rollup.awsCostUsd := awsCostUsd;
    Rollup.vendorCostUsd := vendorCostUsd;
    Rollup.unpricedCalls := default 0 (required_number it "unpriced_calls");
    Rollup.combinedReportUsd := combinedReportUsd;
    Rollup.ceStatus := ceStatus;
    Rollup.alertEvents := alertEvents;
    Rollup.updatedAt := updatedAt;
  |}.

Definition getBudgetRollupRow (tenantId environment rollupDate : string) : prog (option BudgetRollupRow) :=
  get_decoded budgetRollupFromItem "rollup" (budgetRollupKey tenantId environment rollupDate).

Definition putBudgetRollupRow (row : BudgetRollupRow) : prog unit := put (budgetRollupItem row).

Definition getAccountBudgetRollupRow (environment rollupDate : string) : prog (option BudgetRollupRow) :=
  getBudgetRollupRow ACCOUNT_TENANT_ID environment rollupDate.

Definition threshold_of_item (environment : string) (it : item) : option BudgetThresholdState :=
  lastNotifiedBand ← required_number it "last_notified_band";
  updatedAt ← required_string it "updated_at";
  Some (ThresholdState.mk environment lastNotifiedBand updatedAt).

Definition getBudgetThresholdState (environment : string) : prog (option BudgetThresholdState) :=
  get_decoded (threshold_of_item environment) "threshold state" (budgetThresholdStateKey environment).

Definition threshold_item (state : BudgetThresholdState) : item :=
  let k := budgetThresholdStateKey (ThresholdState.environment state) in
  list_to_map [("pk", AS k.1); ("sk", AS k.2); ("last_notified_band", AN (ThresholdState.lastNotifiedBand state));
    ("updated_at", AS (ThresholdState.updatedAt state))].

Definition putBudgetThresholdState (state : BudgetThresholdState) : prog unit := put (threshold_item state).

(** ** Runs of a computer

    Their items are written by [OwnerSupervisor]. *)

Definition computerRuntimeSegmentFromItem (it : item) : option ComputerRuntimeSegment :=
  tenantId ← required_string it "tenant_id";
  ownerGeneration ← required_number it "owner_generation";
  startedAt ← required_string it "started_at" ≫= date_of_text;
  lastSeenAt ← required_string it "last_seen_at" ≫= date_of_text;
  Some (Segment.mk tenantId ownerGeneration startedAt lastSeenAt).

(** The whole partition, in pages: every sort key begins with the empty text. *)
Definition queryComputerRuntimeSegments (pages : nat) (tenantId : string) : prog (list ComputerRuntimeSegment) :=
  query_pages (decoded computerRuntimeSegmentFromItem "runtime segment") (tenantId +:+ "#computer_runtime") (BeginsWith EmptyString) CTrue
    None pages.

(** [Decimal.parse("0.009875")]. *)
Definition COMPUTER_TASK_USD_PER_HOUR : Decimal := Decimal.mk 9875 6.
Definition MOST_A_HOSTED_COMPUTER_COSTS_IN_ONE_DAY_USD : Decimal := multiplyByInteger COMPUTER_TASK_USD_PER_HOUR 24.
Definition MINIMUM_BILLED_SECONDS : Z := 60.
Definition SECONDS_PER_HOUR : Z := 3600.
Definition COST_SCALE : nat := 8.

Example usd_per_hour : parse "0.009875" = Some COMPUTER_TASK_USD_PER_HOUR.
Proof. reflexivity. Qed.

(** The milliseconds of one owner run inside the day that begins at [dayStart]. *)
Definition billed_within (segment : ComputerRuntimeSegment) (dayStart : Z) : Z :=
  let dayEnd := dayStart + MILLISECONDS_PER_DAY in
  let start := Segment.startedAt segment in
  let observedMilliseconds := Z.max 0 (Segment.lastSeenAt segment - start) in
  let billedEnd := start + Z.max observedMilliseconds (MINIMUM_BILLED_SECONDS * 1000) in
  Z.max 0 (Z.min billedEnd dayEnd - Z.max start dayStart).

(** [billedSecondsWithinDay(segment, day) * 1000]: whole milliseconds. [None] is the number no text gives. *)
Definition billedSecondsWithinDay (segment : ComputerRuntimeSegment) (day : string) : option Z :=
  dayStart ← date_of_text (day +:+ "T00:00:00Z"); Some (billed_within segment dayStart).

(** [None] is the error of a day that is none. *)
Definition computerSpendForDay (segments : list ComputerRuntimeSegment) (day : string) : option Decimal :=
  billed ← mapM (fun segment => billedSecondsWithinDay segment day) segments;
  divideByInteger (multiplyByInteger COMPUTER_TASK_USD_PER_HOUR (foldl Z.add 0 billed)) (SECONDS_PER_HOUR * 1000) COST_SCALE.

(** ** Month to date *)

Definition SPEND_CEILING_EXCEEDED_REASON : string := "monthly AWS spend ceiling exceeded".
Definition SPEND_CEILING_METER_UNAVAILABLE_REASON : string := "monthly AWS spend cannot be read right now".

Module Meter.
Record OrganizationSpendMeter : Type := mk { monthToDateUsd : Decimal; mostUnreadDaysCouldCostUsd : Decimal; meterUnknown : bool }.
End Meter.
Abbreviation OrganizationSpendMeter := Meter.OrganizationSpendMeter.

Definition empty_meter : OrganizationSpendMeter := Meter.mk zero zero false.

(** What one day's row adds to the meter. *)
Definition meter_day (unreadDaysAreBounded : bool) (meter : OrganizationSpendMeter) (row : option BudgetRollupRow) : OrganizationSpendMeter :=
  match row with
  | None => meter
  | Some row =>
      match (if decide (Rollup.ceStatus row = CE_STATUS_OK) then Rollup.combinedReportUsd row else None) with
      | Some combined => meter {{ Meter.monthToDateUsd := add (Meter.monthToDateUsd meter) combined }}
      | None =>
          if unreadDaysAreBounded
          then meter {{ Meter.mostUnreadDaysCouldCostUsd :=
                 add (add (Meter.mostUnreadDaysCouldCostUsd meter) (Rollup.vendorCostUsd row)) MOST_A_HOSTED_COMPUTER_COSTS_IN_ONE_DAY_USD }}
          else meter {{ Meter.meterUnknown := true }}
      end
  end.

(** The error of a day that cannot be moved on from. *)
Definition INVALID_DAY : exn := JsError "Invalid time value".

(** The most days of a month, and the round that ends the loop. *)
Definition MONTH_ROUNDS : nat := 32.

Section meter.
Context (environment : string).

Fixpoint month_loop (tenantId : string) (unreadDaysAreBounded : bool) (asOf : string) (rounds : nat) (current : string)
    (meter : OrganizationSpendMeter) : prog OrganizationSpendMeter :=
  match rounds with
  | O => Throw TOO_MANY_ROUNDS
  | S rounds' =>
      if text_le current asOf then
        let! row := getBudgetRollupRow tenantId environment current in
        match addDays current 1 with
        | None => Throw INVALID_DAY
        | Some next => month_loop tenantId unreadDaysAreBounded asOf rounds' next (meter_day unreadDaysAreBounded meter row)
        end
      else Ret meter
  end.

Definition monthToDateCombinedSpendUsd (organization : Organization) (asOf : string) : prog OrganizationSpendMeter :=
  let unreadDaysAreBounded := negb (organizationRunsInItsOwnAwsAccount (Organization.awsCrossAccountRole organization)) in
  month_loop (Organization.tenantId organization) unreadDaysAreBounded asOf MONTH_ROUNDS (firstDayOfMonth asOf) empty_meter.

(** The reason of a pause, [None] when there is none. *)
Definition pause_reason (meter : OrganizationSpendMeter) (ceiling : Decimal) : option string :=
  if Meter.meterUnknown meter then Some SPEND_CEILING_METER_UNAVAILABLE_REASON
  else if at_least (Meter.monthToDateUsd meter) ceiling then Some SPEND_CEILING_EXCEEDED_REASON
  else if at_least (add (Meter.monthToDateUsd meter) (Meter.mostUnreadDaysCouldCostUsd meter)) ceiling
  then Some SPEND_CEILING_METER_UNAVAILABLE_REASON
  else None.

(** [{ paused, reason }] as the reason: every pause has one. *)
Definition organizationComputerWorkPaused (organization : Organization) (asOf : string) : prog (option string) :=
  match Organization.monthlyAwsSpendCeilingUsd organization with
  | None => Ret None
  | Some ceiling => let! meter := monthToDateCombinedSpendUsd organization asOf in Ret (pause_reason meter ceiling)
  end.

Definition organizationComputerWorkPausedFor (organization : Organization) : prog (option string) :=
  let! now := send ClockNow in organizationComputerWorkPaused organization (utcDayOf now).

Definition spend_pause_reason (tenantId : string) : prog (option string) :=
  let! organization := Organizations.getOrganization tenantId in
  match organization with
  | None => Ret None
  | Some organization =>
      match Organization.monthlyAwsSpendCeilingUsd organization with
      | None => Ret None
      | Some _ => organizationComputerWorkPausedFor organization
      end
  end.

(** What [ComputerDomain] asks of this component. *)
#[export] Instance spend_pause : SpendPause := {| computerWorkPauseReason := spend_pause_reason |}.
End meter.

(** ** Setting the ceiling *)

Definition OrganizationSpendCeilingRequiredError (message : string) : exn := DomainError "organization_spend_ceiling_required" message.
Definition OrganizationSpendCeilingInvalidError (message : string) : exn := DomainError "organization_spend_ceiling_invalid" message.

Definition requireValidMonthlyAwsSpendCeilingUsd (monthlyAwsSpendCeilingUsd : option Decimal) : exn + Decimal :=
  match monthlyAwsSpendCeilingUsd with
  | None => Err (OrganizationSpendCeilingRequiredError "monthly_aws_spend_ceiling_usd is required at provisioning.")
  | Some ceiling =>
      if isPositive ceiling then Ok ceiling
      else Err (OrganizationSpendCeilingInvalidError "monthly_aws_spend_ceiling_usd must be a positive USD amount.")
  end.

Definition setMonthlyAwsSpendCeiling (tenantId actorUserId : string) (monthlyAwsSpendCeilingUsd : Decimal) : prog Organization :=
  let! organization := OrganizationDomain.getOrganization tenantId in
  require_owner tenantId actorUserId ;;;
  match requireValidMonthlyAwsSpendCeilingUsd (Some monthlyAwsSpendCeilingUsd) with
  | Err e => Throw e
  | Ok ceiling =>
      let updated := organization {{ Organization.monthlyAwsSpendCeilingUsd := Some ceiling }} in
      putOrganization updated ;;;
      Ret updated
  end.
