(* ===== verification/BudgetRollup.v ===== *)
(** * The daily rollup of spend

    src/conversation/src/budget/runner.ts: the rows it writes for every enabled organization, the days it reads again, the sum
    of the vendor ledger and the alerts it publishes, as programs over the interface [BudgetStore] (budget/budget-store.ts) and
    the readers and publishers of the request. The rest of the codecs of budget/budget-store.ts and the alerts of
    budget/budget-alerts.ts are here too. The reconciliation of the ledger (ledger/reconcile.ts) and Cost Explorer are calls.
    The loop over the earlier days of the month has no bound in the source; here it has [MONTH_ROUNDS]. *)

From S2P Require Import Prelude Json Decimal Calendar Dates Types Service TurnCodec LiveFiles Organizations Spend Interaction.
#[local] Open Scope Z_scope.

(** ** What is read *)

Definition BILLED_VIA_VENDOR : string := "vendor".
Definition GATEWAY_SOURCE : string := "gateway".
Definition DEFAULT_THRESHOLD_BANDS : list Z := [50; 80; 100].
Definition ROLLUP_ALERT_SOURCE : string := "chatticus.daily_rollup".

Module BudgetOrganization.
Record Organization : Type := mk {
  tenantId : string; awsAccountId : option string; awsCrossAccountRole : option string; awsExternalId : option string }.
End BudgetOrganization.
Abbreviation BudgetOrganization := BudgetOrganization.Organization.

Module Ledger.
Record VendorLedgerRow : Type := mk {
  tenantId : string;
  turnId : string;
  billedVia : string;
  costUsd : option Decimal;
  recordedAt : string;
  unpricedCalls : Z;
  source : string;
  callId : option string;
  responseIds : list string;
}.
End Ledger.
Abbreviation VendorLedgerRow := Ledger.VendorLedgerRow.

(** [None] is the error of a missing attribute, here and below. *)
Definition budgetOrganizationFromItem (it : item) : option BudgetOrganization :=
  tenantId ← required_string it "tenant_id";
  Some (BudgetOrganization.mk tenantId (required_string it "aws_account_id") (required_string it "aws_cross_account_role")
    (required_string it "aws_external_id")).

Definition vendorLedgerKey (tenantId turnId : string) : key := (tenantId +:+ "#vendor_ledger", "turn#" +:+ turnId).

Definition vendorLedgerRowFromItem (it : item) : option VendorLedgerRow :=
  tenantId ← required_string it "tenant_id";
  turnId ← required_string it "turn_id";
  billedVia ← required_string it "billed_via";
  costUsd ← optionalDecimal it "cost_usd";
  recordedAt ← required_string it "recorded_at";
  Some {|
    Ledger.tenantId := tenantId;
    Ledger.turnId := turnId;
    Ledger.billedVia := billedVia;
    Ledger.costUsd := costUsd;
    Ledger.recordedAt := recordedAt;
    Ledger.unpricedCalls := default 0 (required_number it "unpriced_calls");
    Ledger.source := default "session" (required_string it "source");
    Ledger.callId := required_string it "call_id";
    Ledger.responseIds := elements (string_set it "response_ids");
  |}.

(** ** What is published *)

Module Crossing.
Record ThresholdCrossing : Type := mk {
  environment : string;
  thresholdPercent : Z;
  vendorMtdUsd : Decimal;
  monthlyLimitUsd : Decimal;
  rollupDate : string;
  unpricedCalls : Z;
}.
End Crossing.
Abbreviation ThresholdCrossing := Crossing.ThresholdCrossing.

(** One organization-day: the tenant and the day. *)
Abbreviation UnreadableSpendDay := (string * string)%type.

Definition thresholdAlertPayload (crossing : ThresholdCrossing) : json :=
  JObj [
    ("source", JStr ROLLUP_ALERT_SOURCE);
    ("kind", JStr "vendor_threshold");
    ("environment", JStr (Crossing.environment crossing));
    ("threshold_percent", JNum (Crossing.thresholdPercent crossing));
    ("vendor_mtd_usd", JStr (toString (Crossing.vendorMtdUsd crossing)));
    ("monthly_limit_usd", JStr (toString (Crossing.monthlyLimitUsd crossing)));
    ("rollup_date", JStr (Crossing.rollupDate crossing));
    ("unpriced_calls", JNum (Crossing.unpricedCalls crossing))].

Definition unreadableSpendAlertPayload (environment rollupDate : string) (unreadableDays : list UnreadableSpendDay) : json :=
  JObj [
    ("source", JStr ROLLUP_ALERT_SOURCE);
    ("kind", JStr "spend_unreadable");
    ("environment", JStr environment);
    ("rollup_date", JStr rollupDate);
    ("unreadable_days", JArr ((fun d => JObj [("tenant_id", JStr d.1); ("rollup_date", JStr d.2)]) <$> unreadableDays))].

(** ** The calls of a rollup *)

Inductive budget_error : Type :=
| AccountSpendUnreadableError (message : string)
| BudgetError (message : string).

#[warnings="-register-all"]
Inductive budget_call : Type -> Type :=
| ListEnabledOrganizations : budget_call (list BudgetOrganization)
| ListVendorLedgerRowsForTenant (tenantId : string) : budget_call (list VendorLedgerRow)
| ListComputerRuntimeSegments (tenantId : string) : budget_call (list ComputerRuntimeSegment)
| GetBudgetRollupRow (tenantId environment rollupDate : string) : budget_call (option BudgetRollupRow)
| PutBudgetRollupRow (row : BudgetRollupRow) : budget_call unit
| GetBudgetThresholdState (environment : string) : budget_call (option BudgetThresholdState)
| PutBudgetThresholdState (state : BudgetThresholdState) : budget_call unit
| ReconcileTenant (tenantId : string) : budget_call unit
| AccountDailyTotal (organization : BudgetOrganization) (rollupDate : string) : budget_call (bool * option Decimal)
| PublishThresholdCrossing (crossing : ThresholdCrossing) : budget_call unit
| PublishUnreadableSpend (environment rollupDate : string) (unreadableDays : list UnreadableSpendDay) : budget_call unit.

Abbreviation budget_prog := (program budget_call budget_error).

Module RollupRequest.
Record DailyRollupRequest : Type := mk {
  has_accountSpend : bool;
  has_alerts : bool;
  has_reconciler : bool;
  environment : string;
  rollupDate : string;
  monthlyLimitUsd : Decimal;
  now : Z;
  thresholdBands : list Z;
}.
End RollupRequest.
Abbreviation DailyRollupRequest := RollupRequest.DailyRollupRequest.

Definition INVALID_TIME : budget_error := BudgetError "Invalid time value".

(** A value that is not there is the error of a day that is none. *)
Definition day_or_raise {A : Type} (o : option A) : budget_prog A := match o with Some a => mret a | None => Raise INVALID_TIME end.

(** [RecordedRuntimeComputerSpendReader]. *)
Definition hosted_dailyTotal (tenantId rollupDate : string) : budget_prog Decimal :=
  segments ← call (ListComputerRuntimeSegments tenantId);
  day_or_raise (computerSpendForDay segments rollupDate).

(** ** The vendor ledger *)

Record VendorSpend : Type := mkVendorSpend { total : Decimal; unpriced : Z }.

Definition in_window (firstDay lastDay : string) (row : VendorLedgerRow) : bool :=
  let rowDay := dayWrittenIn (Ledger.recordedAt row) in text_le firstDay rowDay && text_le rowDay lastDay.

(** The calls the session rows account for. *)
Definition accountedCalls (rows : list VendorLedgerRow) : list string :=
  rows ≫= fun row => if bool_decide (Ledger.source row = GATEWAY_SOURCE) then [] else Ledger.responseIds row.

(** A gateway row whose call a session row lists. *)
Definition counted_already (accounted : list string) (row : VendorLedgerRow) : bool :=
  bool_decide (Ledger.source row = GATEWAY_SOURCE) &&
  match Ledger.callId row with Some call => bool_decide (call ∈ accounted) | None => false end.

Definition sum_row (firstDay lastDay : string) (accounted : list string) (acc : VendorSpend) (row : VendorLedgerRow) : VendorSpend :=
  if negb (in_window firstDay lastDay row) || negb (bool_decide (Ledger.billedVia row = BILLED_VIA_VENDOR)) then acc
  else if counted_already accounted row then acc
  else mkVendorSpend (match Ledger.costUsd row with Some cost => add (total acc) cost | None => total acc end)
         (unpriced acc + Ledger.unpricedCalls row).

Definition sumVendorRows (rows : list VendorLedgerRow) (firstDay lastDay : string) : VendorSpend :=
  foldl (sum_row firstDay lastDay (accountedCalls rows)) (mkVendorSpend zero 0) rows.

Definition vendorDailyTotal (tenantId rollupDate : string) : budget_prog VendorSpend :=
  rows ← call (ListVendorLedgerRowsForTenant tenantId);
  mret (sumVendorRows rows rollupDate rollupDate).

Fixpoint sum_organizations (monthStart rollupDate : string) (organizations : list BudgetOrganization) (acc : VendorSpend) : budget_prog VendorSpend :=
  match organizations with
  | [] => mret acc
  | organization :: rest =>
      rows ← call (ListVendorLedgerRowsForTenant (BudgetOrganization.tenantId organization));
      let spend := sumVendorRows rows monthStart rollupDate in
      sum_organizations monthStart rollupDate rest (mkVendorSpend (add (total acc) (total spend)) (unpriced acc + unpriced spend))
  end.

Definition vendorMonthToDateTotal (rollupDate : string) : budget_prog VendorSpend :=
  let monthStart := firstDayOfMonth rollupDate in
  organizations ← call ListEnabledOrganizations;
  sum_organizations monthStart rollupDate organizations (mkVendorSpend zero 0).

(** ** The threshold *)

Definition band_threshold (monthlyLimitUsd : Decimal) (band : Z) : Decimal :=
  quantize (divideByPowerOfTen (multiplyByInteger monthlyLimitUsd band) 2) 8.

Definition highestBandCrossed (spend monthlyLimitUsd : Decimal) (thresholdBands : list Z) : option Z :=
  foldl (fun crossed band => if at_least spend (band_threshold monthlyLimitUsd band) then Some band else crossed) None
    (stable_sort Z.ltb thresholdBands).

Section rollup.
Context (request : DailyRollupRequest).
Abbreviation environment := (RollupRequest.environment request).
Abbreviation rollupDate := (RollupRequest.rollupDate request).

Definition maybePublishVendorThreshold : budget_prog unit :=
  let monthlyLimitUsd := RollupRequest.monthlyLimitUsd request in
  if negb (RollupRequest.has_alerts request) || negb (isPositive monthlyLimitUsd) then mret tt
  else
    spend ← vendorMonthToDateTotal rollupDate;
    match highestBandCrossed (total spend) monthlyLimitUsd (RollupRequest.thresholdBands request) with
    | None => mret tt
    | Some crossedBand =>
        state ← call (GetBudgetThresholdState environment);
        if crossedBand <=? match state with Some s => ThresholdState.lastNotifiedBand s | None => 0 end then mret tt
        else
          call (PublishThresholdCrossing
            (Crossing.mk environment crossedBand (total spend) monthlyLimitUsd rollupDate (unpriced spend))) ;;
          call (PutBudgetThresholdState (ThresholdState.mk environment crossedBand (pythonIsoUtc (RollupRequest.now request))))
    end.

(** ** The rows *)

Definition MOST_UNREAD_DAYS_READ_AGAIN_PER_RUN : nat := 5.

(** The statuses of the days that are read again. *)
Definition readAgainStatuses (organization : BudgetOrganization) : list string :=
  if organizationRunsInItsOwnAwsAccount (BudgetOrganization.awsCrossAccountRole organization)
  then [CE_STATUS_PENDING; CE_STATUS_ERROR] else [CE_STATUS_ERROR].

Definition read_again (organization : BudgetOrganization) (row : option BudgetRollupRow) : bool :=
  match row with Some row => bool_decide (Rollup.ceStatus row ∈ readAgainStatuses organization) | None => false end.

Fixpoint unread_days (organization : BudgetOrganization) (rounds : nat) (day : string) (days : list string) : budget_prog (list string) :=
  match rounds with
  | O => Raise (BudgetError "more rounds than the bound")
  | S rounds' =>
      if text_le (firstDayOfMonth rollupDate) day then
        if (MOST_UNREAD_DAYS_READ_AGAIN_PER_RUN <=? length days)%nat then mret days
        else
          row ← call (GetBudgetRollupRow (BudgetOrganization.tenantId organization) environment day);
          before ← day_or_raise (addDays day (-1));
          unread_days organization rounds' before (if read_again organization row then days ++ [day] else days)
      else mret days
  end.

Definition daysToRollUp (organization : BudgetOrganization) : budget_prog (list string) :=
  yesterday ← day_or_raise (addDays rollupDate (-1));
  days ← unread_days organization MONTH_ROUNDS yesterday [];
  mret (days ++ [rollupDate]).

Definition customerAccountSpend (organization : BudgetOrganization) (day : string) : budget_prog (option Decimal * string) :=
  if negb (RollupRequest.has_accountSpend request) then mret (None, CE_STATUS_ERROR)
  else
    rescue
      (total ← call (AccountDailyTotal organization day);
       mret (match total with
             | (false, Some totalUsd) => (Some totalUsd, CE_STATUS_OK)
             | _ => (None, CE_STATUS_PENDING)
             end))
      (fun error => match error with
                    | AccountSpendUnreadableError _ => mret (None, CE_STATUS_ERROR)
                    | _ => Raise error
                    end).

Definition awsSpendFor (organization : BudgetOrganization) (day : string) : budget_prog (option Decimal * string) :=
  if organizationRunsInItsOwnAwsAccount (BudgetOrganization.awsCrossAccountRole organization)
  then customerAccountSpend organization day
  else
    rescue (spend ← hosted_dailyTotal (BudgetOrganization.tenantId organization) day; mret (Some spend, CE_STATUS_OK))
      (fun _ => mret (None, CE_STATUS_ERROR)).

Definition rollUpOrganizationDay (organization : BudgetOrganization) (day updatedAt : string) : budget_prog string :=
  let tenantId := BudgetOrganization.tenantId organization in
  vendor ← vendorDailyTotal tenantId day;
  aws ← awsSpendFor organization day;
  existing ← call (GetBudgetRollupRow tenantId environment day);
  call (PutBudgetRollupRow {|
    Rollup.tenantId := tenantId;
    Rollup.environment := environment;
    Rollup.rollupDate := day;
    Rollup.awsCostUsd := aws.1;
    Rollup.vendorCostUsd := total vendor;
    Rollup.unpricedCalls := unpriced vendor;
    Rollup.combinedReportUsd := (fun awsCostUsd => add awsCostUsd (total vendor)) <$> aws.1;
    Rollup.ceStatus := aws.2;
    Rollup.alertEvents := match existing with Some row => Rollup.alertEvents row | None => [] end;
    Rollup.updatedAt := updatedAt |}) ;;
  mret aws.2.

(** The days of one organization, with those that could not be read. *)
Fixpoint roll_up_days (organization : BudgetOrganization) (updatedAt : string) (days : list string) (unreadable : list UnreadableSpendDay) :
  budget_prog (list UnreadableSpendDay) :=
  match days with
  | [] => mret unreadable
  | day :: rest =>
      ceStatus ← rollUpOrganizationDay organization day updatedAt;
      roll_up_days organization updatedAt rest
        (if bool_decide (ceStatus = CE_STATUS_ERROR) then unreadable ++ [(BudgetOrganization.tenantId organization, day)] else unreadable)
  end.

Fixpoint roll_up_organizations (updatedAt : string) (organizations : list BudgetOrganization) (unreadable : list UnreadableSpendDay) :
  budget_prog (list UnreadableSpendDay) :=
  match organizations with
  | [] => mret unreadable
  | organization :: rest =>
      (if RollupRequest.has_reconciler request then call (ReconcileTenant (BudgetOrganization.tenantId organization)) else mret tt) ;;
      days ← daysToRollUp organization;
      unreadable' ← roll_up_days organization updatedAt days unreadable;
      roll_up_organizations updatedAt rest unreadable'
  end.

Definition publishUnreadableSpend (unreadableDays : list UnreadableSpendDay) : budget_prog unit :=
  match unreadableDays with
  | [] => mret tt
  | _ => if RollupRequest.has_alerts request then call (PublishUnreadableSpend environment rollupDate unreadableDays) else mret tt
  end.

Definition runDailyRollup : budget_prog unit :=
  let updatedAt := pythonIsoUtc (RollupRequest.now request) in
  organizations ← call ListEnabledOrganizations;
  unreadableDays ← roll_up_organizations updatedAt organizations [];
  maybePublishVendorThreshold ;;
  publishUnreadableSpend unreadableDays.
End rollup.
