(* ===== verification/SpendTheorems.v ===== *)
(** * What money and the spend ceiling promise

    Decimals print and round as they should; the computer work of an organization goes on only while its month is below the
    ceiling, whatever the days that could not be read have cost; the meter reads each day of the month once; a run is billed
    in the days it falls in; rollup rows are read back.

    What the theorems on spend build on: a decimal keeps its value in the table, the meter of a list of rows bounds what the
    month can have cost, and the loop over a month reads each of its days once and ends. *)

From S2P Require Import Prelude Json Decimal Calendar Dates Types Service Paging TurnCodec TurnStore Workers.
From S2P Require Import ComputerDomain Organizations OrganizationDomain Spend Footprint.
From Stdlib Require Import QArith Lqa.
From coqutil Require Import Datatypes.RecordSetters.
Import DoubleBraceUpdate.
#[local] Open Scope Z_scope.
#[local] Open Scope prog_scope.

(** ** Numbers of the table *)

Lemma number_attr_of_value (scale : nat) (units : Z) :
  exists text d, number_text (number_attr_of units scale) = Some text /\ parse text = Some d /\ (value d == value (Decimal.mk units scale))%Q.
Proof.
  revert units. induction scale as [|scale IH]; intros units; cbn [number_attr_of].
  - exists (dec units), (Decimal.mk units 0). split; [done|]. split; [|done].
    rewrite <- (parse_toString (Decimal.mk units 0)). f_equal. unfold toString, dec. cbn [Decimal.units Decimal.scale].
    assert (forall n, 0 <= n -> pad_start 1 (digit 0) (dec_nonneg n) = dec_nonneg n) as Hpad.
    { intros n Hn. destruct (dec_nonneg_head n Hn) as (d & s & _ & ->). done. }
    rewrite Hpad, bool_decide_true by lia. rewrite Nat.sub_0_r.
    assert (forall s, take_string (String.length s) s = s) as Htake by (intros s; rewrite <- (string_app_nil_r s) at 2; apply take_string_app).
    rewrite Htake. destruct (Z.ltb_spec units 0); [by rewrite Z.abs_neq by lia|by rewrite Z.abs_eq by lia].
  - destruct (Z.eqb_spec (units mod 10) 0) as [H0|_].
    + destruct (IH (units / 10)) as (text & d & ? & ? & Hv). exists text, d. split_and!; [done..|]. rewrite Hv, value_eq. cbn.
      rewrite (powerOfTen_add 1 scale : powerOfTen (S scale) = _). change (powerOfTen 1) with 10.
      pose proof (Z.div_mod units 10 ltac:(done)). lia.
    + exists (toString (Decimal.mk units (S scale))), (Decimal.mk units (S scale)). split_and!; [done|apply parse_toString|done].
Qed.

(** A decimal that is stored is read back as a decimal of the same value. *)
Lemma optionalDecimal_stored (it : item) (name : string) (d : Decimal) :
  it !! name = Some (number_attr d) -> exists d', optionalDecimal it name = Some (Some d') /\ (value d' == value d)%Q.
Proof.
  intros Hit. destruct (number_attr_of_value (Decimal.scale d) (Decimal.units d)) as (text & d' & Ht & Hp & Hv).
  exists d'. unfold optionalDecimal. rewrite Hit. cbn [mbind option_bind]. unfold number_attr. rewrite Ht. cbn [mbind option_bind].
  rewrite Hp. split; [done|]. rewrite Hv. by destruct d.
Qed.

(** Two optional decimals of the same value. *)
Definition same_value (a b : option Decimal) : Prop :=
  match a, b with Some x, Some y => (value x == value y)%Q | None, None => True | _, _ => False end.

Lemma optionalDecimal_put (it : item) (name : string) (o : option Decimal) :
  it !! name = None -> exists o', optionalDecimal (put_if name number_attr o it) name = Some o' /\ same_value o' o.
Proof.
  intros Hnone. destruct o as [d|]; cbn [put_if].
  - destruct (optionalDecimal_stored (<[name := number_attr d]> it) name d) as (d' & Hd & Hv); [by rewrite lookup_insert_eq|].
    exists (Some d'). split; done.
  - exists None. unfold optionalDecimal. rewrite Hnone. done.
Qed.

(** ** The meter *)

Definition measured (row : BudgetRollupRow) : option Decimal :=
  if decide (Rollup.ceStatus row = CE_STATUS_OK) then Rollup.combinedReportUsd row else None.

(** [cost] is a cost a day can have had, given its row: what was measured; for a day that was not read, at most what its
    models cost and a whole day of its computer, when the computer is hosted; nothing without a row. *)
Definition day_can_cost (hosted : bool) (row : option BudgetRollupRow) (cost : Q) : Prop :=
  match row with
  | None => (cost == 0)%Q
  | Some row =>
      match measured row with
      | Some x => (cost == value x)%Q
      | None => hosted = true -> (cost <= value (Rollup.vendorCostUsd row) + value MOST_A_HOSTED_COMPUTER_COSTS_IN_ONE_DAY_USD)%Q
      end
  end.

Definition sum_costs (costs : list Q) : Q := foldr Qplus 0%Q costs.

Lemma meter_day_unknown (hosted : bool) (meter : OrganizationSpendMeter) (row : option BudgetRollupRow) :
  Meter.meterUnknown meter = true -> Meter.meterUnknown (meter_day hosted meter row) = true.
Proof. intros H. unfold meter_day. by destruct row; [destruct (if decide _ then _ else _); [|destruct hosted]|]. Qed.

Lemma meter_day_bound (hosted : bool) (meter : OrganizationSpendMeter) (row : option BudgetRollupRow) (cost : Q) :
  day_can_cost hosted row cost -> Meter.meterUnknown (meter_day hosted meter row) = false ->
  (value (Meter.monthToDateUsd meter) + value (Meter.mostUnreadDaysCouldCostUsd meter) + cost <=
   value (Meter.monthToDateUsd (meter_day hosted meter row)) + value (Meter.mostUnreadDaysCouldCostUsd (meter_day hosted meter row)))%Q.
Proof.
  unfold day_can_cost, meter_day, measured. destruct meter as [a b u]. destruct row as [row|]; [|intros ->; lra].
  destruct (if decide _ then _ else _) as [x|].
  - intros -> _. cbn -[MOST_A_HOSTED_COMPUTER_COSTS_IN_ONE_DAY_USD value add Qle Qplus]. unfold constant. rewrite add_value. lra.
  - destruct hosted; [|done]. intros Hc _. specialize (Hc eq_refl). cbn -[MOST_A_HOSTED_COMPUTER_COSTS_IN_ONE_DAY_USD value add Qle Qplus]. unfold constant. rewrite !add_value. lra.
Qed.

Lemma meter_bound (hosted : bool) (rows : list (option BudgetRollupRow)) (costs : list Q) (meter : OrganizationSpendMeter) :
  Forall2 (day_can_cost hosted) rows costs -> Meter.meterUnknown (foldl (meter_day hosted) meter rows) = false ->
  (value (Meter.monthToDateUsd meter) + value (Meter.mostUnreadDaysCouldCostUsd meter) + sum_costs costs <=
   value (Meter.monthToDateUsd (foldl (meter_day hosted) meter rows)) +
   value (Meter.mostUnreadDaysCouldCostUsd (foldl (meter_day hosted) meter rows)))%Q.
Proof.
  intros Hall. revert meter. induction Hall as [|row cost rows costs Hrow _ IH]; intros meter Hu; cbn [foldl sum_costs foldr]; [lra|].
  cbn [foldl] in Hu. specialize (IH _ Hu).
  assert (Meter.meterUnknown (meter_day hosted meter row) = false) as Hu1.
  { destruct (Meter.meterUnknown (meter_day hosted meter row)) eqn:E; [|done]. rewrite <- Hu. clear -E. revert E.
    generalize (meter_day hosted meter row). induction rows as [|r rows IH]; intros m E; cbn; [done|]. by apply IH, meter_day_unknown. }
  pose proof (meter_day_bound _ _ _ _ Hrow Hu1). unfold sum_costs in *. lra.
Qed.

(** When no pause is given, the month has cost less than the ceiling, whatever the days that were not read have cost. *)
Lemma unpaused_bound (hosted : bool) (rows : list (option BudgetRollupRow)) (costs : list Q) (ceiling : Decimal) :
  Forall2 (day_can_cost hosted) rows costs -> pause_reason (foldl (meter_day hosted) empty_meter rows) ceiling = None ->
  (sum_costs costs < value ceiling)%Q.
Proof.
  intros Hall Hp. unfold pause_reason in Hp. destruct (Meter.meterUnknown _) eqn:Hu; [done|]. destruct (at_least (Meter.monthToDateUsd _) _); [done|].
  destruct (at_least (add _ _) _) eqn:Hb; [done|]. pose proof (meter_bound _ _ _ _ Hall Hu) as Hm.
  assert (~ (value ceiling <= value (add (Meter.monthToDateUsd (foldl (meter_day hosted) empty_meter rows))
    (Meter.mostUnreadDaysCouldCostUsd (foldl (meter_day hosted) empty_meter rows))))%Q) as Hlt by (rewrite <- at_least_value; by rewrite Hb).
  apply Qnot_le_lt in Hlt. rewrite add_value in Hlt. cbn [empty_meter Meter.monthToDateUsd Meter.mostUnreadDaysCouldCostUsd] in Hm. rewrite zero_value in Hm. lra.
Qed.

(** ** The days of a month *)

(** The texts of [k] days from day [c] on. *)
Definition days_from (c : Z) (k : nat) : list string := (fun i => day_text (c + Z.of_nat i)) <$> seq 0 k.

Lemma days_from_S (c : Z) (k : nat) : days_from c (S k) = day_text c :: days_from (c + 1) k.
Proof.
  unfold days_from. rewrite <- cons_seq. cbn [fmap list_fmap]. rewrite Z.add_0_r, <- fmap_S_seq, <- list_fmap_compose. f_equal.
  apply list_fmap_ext. intros i x _. unfold compose. f_equal. lia.
Qed.

Section loop.
Context `{Service} (I : World -> World -> Prop) (environment tenantId : string).

(** What one read of a rollup row found at a moment between two worlds. *)
Definition row_read (w w' : World) (day : string) (row : option BudgetRollupRow) : Prop :=
  exists w1, rtc I w w1 /\ rtc I w1 w' /\
    match tbl w1 !! budgetRollupKey tenantId environment day with
    | None => row = None
    | Some it => exists r, budgetRollupFromItem it = Some r /\ row = Some r
    end.

Lemma row_read_earlier w0 w w' day row : rtc I w0 w -> row_read w w' day row -> row_read w0 w' day row.
Proof. intros Hw (w1 & ? & ?). exists w1. split; [by trans w|done]. Qed.

Lemma row_read_later w w1 w' day row : row_read w w1 day row -> rtc I w1 w' -> row_read w w' day row.
Proof. intros (w2 & ? & ? & ?) Hw. exists w2. split_and!; [done|by trans w1|done]. Qed.

(** A read of an item that is decoded. *)
Lemma exec_get_decoded {A : Type} (decode : item -> option A) what k w o w' :
  exec I (get_decoded decode what k) w o w' ->
  rtc I w w' /\
  match o with
  | Ok r => exists w1, rtc I w w1 /\ rtc I w1 w' /\
      match tbl w1 !! k with None => r = None | Some it => exists a, decode it = Some a /\ r = Some a end
  | Err e => is_service_exn e = true \/ e = MalformedItem what
  end.
Proof.
  unfold get_decoded. intros [(it & w1 & (w2 & Hw & -> & Hw1)%exec_get & Hx)|(e & -> & [Hw He]%exec_send_fails)]%exec_bind.
  - destruct (tbl w2 !! k) as [it|] eqn:Hit.
    + destruct (decode it) as [a|] eqn:Hd; destruct Hx as [-> Hw']; (split; [trans w2; [done|by trans w1]|]); [|by right].
      exists w2. split_and!; [done|by trans w1|]. rewrite Hit. by exists a.
    + destruct Hx as [-> Hw']. split; [trans w2; [done|by trans w1]|]. exists w2. split_and!; [done|by trans w1|]. by rewrite Hit.
  - split; [done|by left].
Qed.

Lemma month_loop_exec hosted n k c rounds meter w o w' :
  c + Z.of_nat k = n + 1 -> (k < rounds)%nat -> four_digits n -> (forall i, c <= i <= n + 1 -> four_digits i) ->
  exec I (month_loop environment tenantId hosted (day_text n) rounds (day_text c) meter) w o w' ->
  rtc I w w' /\
  match o with
  | Ok meter' => exists rows, Forall2 (row_read w w') (days_from c k) rows /\ meter' = foldl (meter_day hosted) meter rows
  | Err e => e <> TOO_MANY_ROUNDS
  end.
Proof.
  revert c rounds meter w o. induction k as [|k IH]; intros c rounds meter w o Hk Hr Hn Hd; (destruct rounds as [|rounds]; [lia|]); cbn [month_loop].
  - assert (c = n + 1) as -> by lia. rewrite day_text_le by (done || apply Hd; lia). assert (n + 1 <=? n = false) as -> by lia.
    intros [-> Hw]. split; [done|]. by exists [].
  - rewrite day_text_le by (done || apply Hd; lia). assert (c <=? n = true) as -> by lia. rewrite addDays_text by (apply Hd; lia).
    unfold getBudgetRollupRow. intros [(row & w1 & [Hw1 (w2 & Hw2 & Hw12 & Hrow)]%exec_get_decoded & Hx)|(e & -> & [Hw He]%exec_get_decoded)]%exec_bind.
    + destruct (IH (c + 1) rounds _ w1 o ltac:(lia) ltac:(lia) Hn ltac:(intros; apply Hd; lia) Hx) as [Hw' Ho]. split; [by trans w1|].
      destruct o as [e|meter']; [done|]. destruct Ho as (rows & Hall & ->). exists (row :: rows). split; [|done].
      rewrite days_from_S. constructor.
      * exists w2. split_and!; [done|by trans w1|]. destruct (tbl w2 !! _); done.
      * eapply Forall2_impl; [exact Hall|]. intros day r. by apply row_read_earlier.
    + split; [done|]. destruct He as [He| ->]; [|done]. intros ->. done.
Qed.
End loop.

(** The number of a day of its month, counted from the first. *)
Definition day_of_month (n : Z) : nat := Z.to_nat (Civil.day (civil_of_days n)).

Lemma month_to_date_loop environment organization asOf :
  monthToDateCombinedSpendUsd environment organization asOf =
  month_loop environment (Organization.tenantId organization)
    (negb (organizationRunsInItsOwnAwsAccount (Organization.awsCrossAccountRole organization))) asOf MONTH_ROUNDS (firstDayOfMonth asOf) empty_meter.
Proof. reflexivity. Qed.

Lemma month_to_date_exec `{Service} (I : World -> World -> Prop) environment organization n w o w' :
  four_digits n -> four_digits (n + 1) ->
  exec I (monthToDateCombinedSpendUsd environment organization (day_text n)) w o w' ->
  let hosted := negb (organizationRunsInItsOwnAwsAccount (Organization.awsCrossAccountRole organization)) in
  rtc I w w' /\
  match o with
  | Ok meter => exists rows, Forall2 (row_read I environment (Organization.tenantId organization) w w') (days_from (month_start n) (day_of_month n)) rows /\
      meter = foldl (meter_day hosted) empty_meter rows
  | Err e => e <> TOO_MANY_ROUNDS
  end.
Proof.
  intros Hn Hn1 Hex hosted. rewrite month_to_date_loop, firstDayOfMonth_text in Hex by done. fold hosted in Hex.
  pose proof (civil_bounds n) as [_ Hd]. revert Hex. generalize (empty_meter). intros meter.
  assert (day_of_month n < MONTH_ROUNDS)%nat as Hr by (unfold MONTH_ROUNDS, day_of_month; lia). revert Hr. generalize MONTH_ROUNDS.
  intros rounds Hr. apply month_loop_exec; [unfold day_of_month, month_start; lia|done|done|].
  intros i Hi. unfold month_start in Hi. destruct (Z.eq_dec i (n + 1)) as [->|]; [done|].
  replace i with (n - (n - i)) by lia. apply four_digits_back; [done|lia].
Qed.

(** ** Billed time *)

(** The whole time a run is billed for. *)
Definition billed_time (segment : ComputerRuntimeSegment) : Z :=
  Z.max (Z.max 0 (Segment.lastSeenAt segment - Segment.startedAt segment)) (MINIMUM_BILLED_SECONDS * 1000).

Fixpoint billed_days (segment : ComputerRuntimeSegment) (dayStart : Z) (k : nat) : Z :=
  match k with O => 0 | S k' => billed_within segment dayStart + billed_days segment (dayStart + MILLISECONDS_PER_DAY) k' end.

Lemma billed_days_overlap (segment : ComputerRuntimeSegment) (k : nat) (dayStart : Z) :
  let start := Segment.startedAt segment in
  billed_days segment dayStart k =
  Z.max 0 (Z.min (start + billed_time segment) (dayStart + Z.of_nat k * MILLISECONDS_PER_DAY) - Z.max start dayStart).
Proof.
  cbv zeta. revert dayStart. induction k as [|k IH]; intros dayStart; cbn [billed_days].
  - unfold billed_time, MINIMUM_BILLED_SECONDS. lia.
  - rewrite IH. unfold billed_within, billed_time, MINIMUM_BILLED_SECONDS, MILLISECONDS_PER_DAY. lia.
Qed.

(** ** Decimals *)

(** Rounding money is exact arithmetic up to the last step: [quantize] and [divideByInteger] give the one decimal of the
    wanted scale that is nearest to the number (to the quotient), and of two nearest ones the one with an even last digit;
    sums and products are exact, and a decimal is read back from its text with its digits. *)
Theorem money_is_exact (d r : Decimal) (divisor : Z) (scale : nat) :
  parse (toString d) = Some d /\
  (value (add d r) == value d + value r)%Q /\ (value (multiplyByInteger d divisor) == value d * inject_Z divisor)%Q /\
  compare d r = (value d ?= value r)%Q /\
  (forall q, nearest_even (Decimal.units d * powerOfTen scale) (powerOfTen (Decimal.scale d)) q <-> quantize d scale = Decimal.mk q scale) /\
  (forall q, 0 < divisor ->
     nearest_even (Decimal.units d * powerOfTen scale) (divisor * powerOfTen (Decimal.scale d)) q <->
     divideByInteger d divisor scale = Some (Decimal.mk q scale)).
Proof.
  split_and!; [apply parse_toString|apply add_value|apply multiplyByInteger_value|apply compare_value| |].
  - intros q. destruct (quantize_nearest d scale) as [Hs Hn]. destruct (quantize d scale) as [u s]. cbn in *. subst s. split.
    + intros Hq. f_equal. eapply nearest_even_unique; [apply powerOfTen_pos|done..].
    + by intros [= ->].
  - intros q Hd. destruct (divideByInteger d divisor scale) as [[u s]|] eqn:E.
    + destruct (divideByInteger_nearest _ _ _ _ E) as [Hs Hn]. cbn in *. subst s. split.
      * intros Hq. do 2 f_equal. pose proof (powerOfTen_pos (Decimal.scale d)). eapply (nearest_even_unique _ (divisor * powerOfTen (Decimal.scale d))); [nia|done..].
      * by intros [= ->].
    + unfold divideByInteger in E. destruct (Z.leb_spec divisor 0); [lia|done].
Qed.

(** ** The ceiling *)

Lemma reads_get_decoded {A : Type} (decode : item -> option A) what k : reads (get_decoded decode what k).
Proof. solve_reads. Qed.
#[export] Hint Resolve reads_get_decoded : reads.

Lemma reads_month_loop environment tenantId hosted asOf rounds current meter :
  reads (month_loop environment tenantId hosted asOf rounds current meter).
Proof. revert current meter. induction rounds as [|rounds IH]; intros current meter; cbn [month_loop]; solve_reads; apply IH. Qed.
#[export] Hint Resolve reads_month_loop : reads.

Section ceiling.
Context `{Service} (I : World -> World -> Prop) (environment : string).

(** The organization of a tenant as one read found it. *)
Definition organization_read (w w' : World) (tenantId : string) (organization : option Organization) : Prop :=
  exists w1, rtc I w w1 /\ rtc I w1 w' /\
    match tbl w1 !! organizationKey tenantId with
    | None => organization = None
    | Some it => exists o, organizationFromItem it = Some o /\ organization = Some o
    end.

End ceiling.

(** The loop over the days of a month ends, and reads each day from the first of the month to the wanted one exactly once, in
    order; the meter is what those rows add up to. *)
Theorem month_is_read_day_by_day `{Service} (I : World -> World -> Prop) environment organization n w o w' :
  four_digits n -> four_digits (n + 1) ->
  exec I (monthToDateCombinedSpendUsd environment organization (day_text n)) w o w' ->
  let hosted := negb (organizationRunsInItsOwnAwsAccount (Organization.awsCrossAccountRole organization)) in
  match o with
  | Err e => e <> TOO_MANY_ROUNDS
  | Ok meter => exists rows, length rows = Z.to_nat (Civil.day (civil_of_days n)) /\
      (forall i row, rows !! i = Some row ->
         row_read I environment (Organization.tenantId organization) w w' (day_text (month_start n + Z.of_nat i)) row) /\
      meter = foldl (meter_day hosted) empty_meter rows
  end.
Proof.
  intros Hn Hn1 Hex hosted. destruct (month_to_date_exec I _ _ _ _ _ _ Hn Hn1 Hex) as [_ Ho]. destruct o as [e|meter]; [done|].
  destruct Ho as (rows & Hall & ->). exists rows. split_and!; [| |done].
  - apply Forall2_length in Hall. unfold days_from in Hall. rewrite length_fmap, length_seq in Hall. done.
  - intros i row Hrow. apply Forall2_flip in Hall. eapply Forall2_lookup_l in Hall as (day & Hday & Hr); [|exact Hrow].
    unfold days_from in Hday. rewrite list_lookup_fmap in Hday. destruct (seq 0 (day_of_month n) !! i) as [j|] eqn:Hj; [|done].
    apply lookup_seq in Hj as [-> _]. by injection Hday as <-.
Qed.

(** ** Billed time *)

(** The time a run is billed for - what was seen of it, but at least the minimum, from its start on - is billed in the days
    it falls in, each millisecond in one day: over any row of days that covers it the days add up to the whole, and a day
    is never billed longer than it is. *)
Theorem billed_time_falls_in_its_days (segment : ComputerRuntimeSegment) (dayStart : Z) (k : nat) :
  dayStart <= Segment.startedAt segment ->
  Segment.startedAt segment + billed_time segment <= dayStart + Z.of_nat k * MILLISECONDS_PER_DAY ->
  billed_days segment dayStart k = billed_time segment /\ 0 <= billed_within segment dayStart <= MILLISECONDS_PER_DAY.
Proof.
  intros H1 H2. rewrite billed_days_overlap. unfold billed_within, billed_time, MINIMUM_BILLED_SECONDS, MILLISECONDS_PER_DAY in *. lia.
Qed.

Definition demo_run : ComputerRuntimeSegment := Segment.mk "acme" 1 1798761590000 1798761630000.

Lemma billed_time_falls_in_its_days_witness :
  billed_days demo_run 1798675200000 2 = 60000 /\ billed_within demo_run 1798675200000 = 10000.
Proof.
  split; [|reflexivity]. change 60000 with (billed_time demo_run).
  apply (billed_time_falls_in_its_days demo_run 1798675200000 2); vm_compute; discriminate.
Defined.

(** Runs that last a second, one every fifty seconds: together they are billed for longer than the day, so the day costs more
    than [MOST_A_HOSTED_COMPUTER_COSTS_IN_ONE_DAY_USD], the figure a day that was not read is counted at. *)
Definition short_runs : list ComputerRuntimeSegment :=
  (fun k => Segment.mk "acme" k (1798761600000 + k * 50000) (1798761600000 + k * 50000 + 1000)) <$> seqZ 1 1600.

Lemma short_runs_cost_more_than_the_most :
  match computerSpendForDay short_runs "2027-01-01" with
  | Some d => compare d MOST_A_HOSTED_COMPUTER_COSTS_IN_ONE_DAY_USD = Gt
  | None => False
  end.
Proof. vm_compute. reflexivity. Qed.

(** ** Rollup rows *)

Definition same_row (a b : BudgetRollupRow) : Prop :=
  same_value (Rollup.awsCostUsd a) (Rollup.awsCostUsd b) /\ (value (Rollup.vendorCostUsd a) == value (Rollup.vendorCostUsd b))%Q /\
  same_value (Rollup.combinedReportUsd a) (Rollup.combinedReportUsd b) /\
  Rollup.tenantId a = Rollup.tenantId b /\ Rollup.environment a = Rollup.environment b /\ Rollup.rollupDate a = Rollup.rollupDate b /\
  Rollup.unpricedCalls a = Rollup.unpricedCalls b /\ Rollup.ceStatus a = Rollup.ceStatus b /\
  Rollup.alertEvents a = Rollup.alertEvents b /\ Rollup.updatedAt a = Rollup.updatedAt b.

Lemma events_back (events : list BudgetAlertEvent) : mapM event_of_json (event_json <$> events) = Some events.
Proof. apply mapM_fmap_Some. by intros [s f d]. Qed.

(** A rollup row is read back as it was written, its alert events included; its dollars have the same value, though the
    table keeps no trailing zeros of them. *)
Theorem rollup_row_round_trip (row : BudgetRollupRow) :
  exists row', budgetRollupFromItem (budgetRollupItem row) = Some row' /\ same_row row' row.
Proof.
  unfold budgetRollupItem, budgetRollupFromItem. cbv zeta. set (base := list_to_map _ : item).
  set (base1 := put_if "aws_cost_usd" number_attr (Rollup.awsCostUsd row) base).
  assert (forall n, n <> "aws_cost_usd" -> n <> "combined_report_usd" ->
    (put_if "combined_report_usd" number_attr (Rollup.combinedReportUsd row) base1) !! n = base !! n) as Hold.
  { intros n H1 H2. unfold base1, put_if. destruct (Rollup.awsCostUsd row), (Rollup.combinedReportUsd row);
      by rewrite ?lookup_insert_ne by done. }
  assert (forall n, n <> "aws_cost_usd" -> n <> "combined_report_usd" ->
    required_string (put_if "combined_report_usd" number_attr (Rollup.combinedReportUsd row) base1) n = required_string base n) as Htext
    by (intros n ? ?; unfold required_string; by rewrite Hold).
  rewrite !Htext by done. change (required_string base "alert_events") with (Some (stringify (JArr (event_json <$> Rollup.alertEvents row)))).
  cbn [default from_option id mbind option_bind]. rewrite parse_stringify. cbn [mbind option_bind]. rewrite events_back. cbn [mbind option_bind].
  change (required_string base "tenant_id") with (Some (Rollup.tenantId row)). change (required_string base "environment") with (Some (Rollup.environment row)).
  change (required_string base "rollup_date") with (Some (Rollup.rollupDate row)). cbn [mbind option_bind].
  destruct (optionalDecimal_put base "aws_cost_usd" (Rollup.awsCostUsd row)) as (aws & Haws & Hsame); [done|].
  destruct (optionalDecimal_put base1 "combined_report_usd" (Rollup.combinedReportUsd row)) as (combined & Hcomb & Hsame').
  { unfold base1, put_if. destruct (Rollup.awsCostUsd row); by rewrite ?lookup_insert_ne by done. }
  destruct (optionalDecimal_stored (put_if "combined_report_usd" number_attr (Rollup.combinedReportUsd row) base1) "vendor_cost_usd" (Rollup.vendorCostUsd row))
    as (vendor & Hvendor & Hv); [by rewrite Hold by done|].
  assert (optionalDecimal (put_if "combined_report_usd" number_attr (Rollup.combinedReportUsd row) base1) "aws_cost_usd" = Some aws) as ->.
  { rewrite <- Haws. unfold optionalDecimal. fold base1. f_equal. unfold put_if at 1. destruct (Rollup.combinedReportUsd row); by rewrite ?lookup_insert_ne by done. }
  cbn [mbind option_bind]. rewrite Hvendor, Hcomb. cbn [mbind option_bind].
  change (required_string base "ce_status") with (Some (Rollup.ceStatus row)). change (required_string base "updated_at") with (Some (Rollup.updatedAt row)).
  cbn [mbind option_bind]. eexists. split; [reflexivity|]. unfold same_row. cbn.
  split_and!; try done. unfold required_number. by rewrite Hold by done.
Qed.

(** ** A month on the local service *)

Definition demo_organization : Organization :=
  new_organization "acme" "Acme" "enabled" "ann" 1798761600000 None None.

Definition demo_row (day status : string) (combined : option Decimal) (vendor : Decimal) : BudgetRollupRow :=
  Rollup.mk "acme" "production" day None vendor 0 combined status [] "2027-01-02T00:00:00+00:00".

(** One day was measured, the next could not be read. *)
Definition demo_month : World := (run (putOrganization demo_organization ;;;
  putBudgetRollupRow (demo_row "2027-01-01" "ok" (Some (Decimal.mk 105 1)) (Decimal.mk 10 0)) ;;;
  putBudgetRollupRow (demo_row "2027-01-02" "error" None (Decimal.mk 3 0))) (mkLocal 0 0) (World.mk ∅ [] [] [])).2.

Definition nobody (w w' : World) : Prop := False.

Lemma demo_month_goes_on : run (spend_pause_reason "production" "acme") (mkLocal 1798848000000 0) demo_month = (Ok None, demo_month).
Proof. vm_compute. reflexivity. Qed.

Lemma demo_month_exec : exec (H:=local_service) nobody (spend_pause_reason "production" "acme") demo_month (Ok None) demo_month.
Proof. pose proof (run_exec (spend_pause_reason "production" "acme") (mkLocal 1798848000000 0) demo_month nobody) as H. by rewrite demo_month_goes_on in H. Qed.


Definition demo_read : prog _ := monthToDateCombinedSpendUsd "production" demo_organization (day_text 20820).

Lemma demo_meter_exec : exists meter w', exec (H:=local_service) nobody demo_read demo_month (Ok meter) w' /\
  toString (Meter.monthToDateUsd meter) = "10.5" /\ toString (Meter.mostUnreadDaysCouldCostUsd meter) = "3.237000".
Proof.
  assert (match (run demo_read (mkLocal 0 0) demo_month).1 with
          | Ok meter => toString (Meter.monthToDateUsd meter) = "10.5" /\ toString (Meter.mostUnreadDaysCouldCostUsd meter) = "3.237000"
          | Err _ => False
          end) as Hm by (vm_compute; split; reflexivity).
  pose proof (run_exec demo_read (mkLocal 0 0) demo_month nobody) as H.
  destruct (run demo_read (mkLocal 0 0) demo_month) as [[e|meter] w']; cbn [fst] in Hm; [destruct Hm|]. exact (ex_intro _ meter (ex_intro _ w' (conj H Hm))).
Qed.

Lemma month_is_read_day_by_day_witness : exists rows : list (option BudgetRollupRow), length rows = 2%nat.
Proof.
  destruct demo_meter_exec as (meter & w' & Hex & _).
  assert (four_digits 20820) as H1 by (vm_compute; split; discriminate). assert (four_digits (20820 + 1)) as H2 by (vm_compute; split; discriminate).
  destruct (month_is_read_day_by_day (H:=local_service) nobody "production" demo_organization 20820 demo_month (Ok meter) w' H1 H2 Hex)
    as (rows & Hlen & _).
  exists rows. exact Hlen.
Defined.
