(* ===== verification/BudgetTheorems.v ===== *)
(** * What the daily rollup promises

    The sums of the vendor ledger and the bands of the monthly limit; then a run as a whole, in a world that keeps what was
    written and published: the days a run rolls up, the rows it writes, the days it reports as unreadable and the threshold
    it publishes. Reads answer anything, so that what others write meanwhile is covered. *)

From S2P Require Import Prelude Json Decimal Calendar Dates Types Service LiveFiles Spend SpendTheorems Interaction BudgetRollup.
From Stdlib Require Import QArith Lqa Sorting.Sorted.
#[local] Open Scope Z_scope.

(** ** Sums of the ledger *)

(** What one row adds to the sum of a window. *)
Definition row_cost (firstDay lastDay : string) (accounted : list string) (row : VendorLedgerRow) : Q :=
  if in_window firstDay lastDay row && bool_decide (Ledger.billedVia row = BILLED_VIA_VENDOR) && negb (counted_already accounted row)
  then match Ledger.costUsd row with Some cost => value cost | None => 0%Q end else 0%Q.

Lemma sum_row_total firstDay lastDay accounted (acc : VendorSpend) (row : VendorLedgerRow) :
  (value (total (sum_row firstDay lastDay accounted acc row)) == value (total acc) + row_cost firstDay lastDay accounted row)%Q.
Proof.
  unfold sum_row, row_cost. destruct (in_window firstDay lastDay row), (bool_decide _), (counted_already accounted row); cbn; try lra.
  destruct (Ledger.costUsd row) as [cost|]; [rewrite add_value|]; lra.
Qed.

Lemma sum_rows_total firstDay lastDay accounted (rows : list VendorLedgerRow) (acc : VendorSpend) :
  (value (total (foldl (sum_row firstDay lastDay accounted) acc rows)) ==
   value (total acc) + sum_costs (row_cost firstDay lastDay accounted <$> rows))%Q.
Proof. revert acc. induction rows as [|row rows IH]; intros acc; cbn; [lra|]. rewrite IH, sum_row_total. fold (sum_costs (row_cost firstDay lastDay accounted <$> rows)). lra. Qed.

Lemma sumVendorRows_total (rows : list VendorLedgerRow) firstDay lastDay :
  (value (total (sumVendorRows rows firstDay lastDay)) == sum_costs (row_cost firstDay lastDay (accountedCalls rows) <$> rows))%Q.
Proof. unfold sumVendorRows. rewrite sum_rows_total. cbn [total]. rewrite zero_value. lra. Qed.

Lemma sum_costs_add {A : Type} (f g : A -> Q) (l : list A) : (sum_costs ((fun a => f a + g a)%Q <$> l) == sum_costs (f <$> l) + sum_costs (g <$> l))%Q.
Proof. induction l as [|a l IH]; cbn; [lra|]. unfold sum_costs in IH. rewrite IH. lra. Qed.

Lemma sum_costs_ext {A : Type} (f g : A -> Q) (l : list A) : (forall a, a ∈ l -> (f a == g a)%Q) -> (sum_costs (f <$> l) == sum_costs (g <$> l))%Q.
Proof.
  intros Hfg. induction l as [|a l IH]; cbn; [lra|]. rewrite (Hfg a) by left. fold (sum_costs (f <$> l)) (sum_costs (g <$> l)).
  rewrite IH by (intros; apply Hfg; by right). lra.
Qed.

Lemma sum_costs_swap {A B : Type} (f : A -> B -> Q) (l : list A) (m : list B) :
  (sum_costs ((fun a => sum_costs (f a <$> m)) <$> l) == sum_costs ((fun b => sum_costs ((fun a => f a b) <$> l)) <$> m))%Q.
Proof.
  induction l as [|a l IH]; cbn.
  - induction m as [|b m IHm]; cbn; [lra|]. unfold sum_costs in IHm |- *. cbn in *. rewrite <- IHm. lra.
  - fold (sum_costs ((fun a => sum_costs (f a <$> m)) <$> l)). rewrite IH. symmetry.
    rewrite (sum_costs_ext _ (fun b => f a b + sum_costs ((fun a => f a b) <$> l))%Q m) by (intros; reflexivity). apply sum_costs_add.
Qed.

(** A row written on a day of a calendar with four-digit years. *)
Definition dated (row : VendorLedgerRow) : Prop := exists n, four_digits n /\ dayWrittenIn (Ledger.recordedAt row) = day_text n.

Lemma in_window_day (a b n : Z) (row : VendorLedgerRow) :
  four_digits a -> four_digits b -> four_digits n -> dayWrittenIn (Ledger.recordedAt row) = day_text n ->
  in_window (day_text a) (day_text b) row = ((a <=? n) && (n <=? b)).
Proof. intros Ha Hb Hn E. unfold in_window. by rewrite E, !day_text_le. Qed.

(** One of the days of the window is the row's. *)
Lemma row_cost_days (a : Z) (k : nat) accounted (row : VendorLedgerRow) :
  (forall i, 0 <= i < Z.of_nat (S k) -> four_digits (a + i)) -> dated row ->
  (sum_costs ((fun day => row_cost day day accounted row) <$> days_from a (S k)) ==
   row_cost (day_text a) (day_text (a + Z.of_nat k)) accounted row)%Q.
Proof.
  intros H4 (n & Hn & E). set (c := if bool_decide (Ledger.billedVia row = BILLED_VIA_VENDOR) && negb (counted_already accounted row)
    then match Ledger.costUsd row with Some cost => value cost | None => 0%Q end else 0%Q).
  assert (forall x y, four_digits x -> four_digits y ->
    row_cost (day_text x) (day_text y) accounted row = if (x <=? n) && (n <=? y) then c else 0%Q) as Hcost.
  { intros x y Hx Hy. unfold row_cost. rewrite (in_window_day x y n) by done. unfold c. by destruct ((x <=? n) && (n <=? y)). }
  assert (four_digits a) as Ha by (replace a with (a + 0) by lia; apply H4; lia).
  rewrite (Hcost a (a + Z.of_nat k)) by (done || (apply H4; lia)). clear E.
  revert a Ha H4. induction k as [|k IH]; intros a Ha H4.
  - rewrite days_from_S, fmap_cons. cbn [sum_costs foldr fmap list_fmap days_from seq]. rewrite Hcost by done. replace (a + Z.of_nat 0) with a by lia. destruct (_ && _); lra.
  - rewrite days_from_S, fmap_cons. cbn [sum_costs foldr]. fold (sum_costs ((fun day => row_cost day day accounted row) <$> days_from (a + 1) (S k))).
    rewrite IH by (first [apply H4; lia | intros i Hi; replace (a + 1 + i) with (a + (1 + i)) by lia; apply H4; lia]).
    rewrite Hcost by done. replace (a + 1 + Z.of_nat k) with (a + Z.of_nat (S k)) by lia.
    destruct (Z.leb_spec a n), (Z.leb_spec n a), (Z.leb_spec (a + 1) n), (Z.leb_spec n (a + Z.of_nat (S k))); cbn; (lra || lia).
Qed.

(** The month of the vendor ledger is the sum of its days: over any window of days the total is what the totals of the single
    days add up to, so a row is counted in one day and no row is lost between days; and a gateway row of a call that a
    session row already lists changes no total and no count. *)
Theorem ledger_window_is_sum_of_days (rows : list VendorLedgerRow) (first : Z) (k : nat) :
  (forall i, 0 <= i < Z.of_nat (S k) -> four_digits (first + i)) -> (forall row, row ∈ rows -> dated row) ->
  (value (total (sumVendorRows rows (day_text first) (day_text (first + Z.of_nat k)))) ==
   sum_costs ((fun day => value (total (sumVendorRows rows day day))) <$> days_from first (S k)))%Q /\
  forall before after gateway call firstDay lastDay,
    rows = before ++ gateway :: after -> Ledger.source gateway = GATEWAY_SOURCE -> Ledger.callId gateway = Some call ->
    call ∈ accountedCalls rows -> sumVendorRows rows firstDay lastDay = sumVendorRows (before ++ after) firstDay lastDay.
Proof.
  intros H4 Hdated. split.
  - rewrite sumVendorRows_total.
    rewrite (sum_costs_ext _ (fun day => sum_costs (row_cost day day (accountedCalls rows) <$> rows)) (days_from first (S k)))
      by (intros; apply sumVendorRows_total).
    rewrite sum_costs_swap. apply sum_costs_ext. intros row Hrow. symmetry. apply row_cost_days; auto.
  - intros before after gateway call firstDay lastDay -> Hs Hc Hin.
    assert (accountedCalls (before ++ gateway :: after) = accountedCalls (before ++ after)) as Hacc.
    { unfold accountedCalls. rewrite !bind_app. f_equal. cbn. by rewrite bool_decide_true. }
    unfold sumVendorRows. rewrite <- Hacc, !foldl_app. cbn [foldl]. f_equal. unfold sum_row at 1.
    assert (counted_already (accountedCalls (before ++ gateway :: after)) gateway = true) as ->
      by (unfold counted_already; rewrite Hc, !bool_decide_true; done).
    by destruct (_ || _).
Qed.

(** ** The bands of the monthly limit *)

Lemma sort_insert_sorted (x : Z) (l : list Z) : StronglySorted Z.le l -> StronglySorted Z.le (sort_insert Z.ltb x l).
Proof.
  induction 1 as [|y l Hs IH Hy]; cbn; [by repeat constructor|]. destruct (Z.ltb_spec y x).
  - constructor; [done|]. rewrite sort_insert_perm. constructor; [lia|done].
  - constructor; [by constructor|]. constructor; [lia|]. eapply Forall_impl; [exact Hy|]. cbn. lia.
Qed.

Lemma stable_sort_sorted (l : list Z) : StronglySorted Z.le (stable_sort Z.ltb l).
Proof. induction l as [|x l IH]; cbn; [constructor|]. by apply sort_insert_sorted. Qed.

(** Whether the spend has reached a band. *)
Definition reached (spend monthlyLimitUsd : Decimal) (band : Z) : bool := at_least spend (band_threshold monthlyLimitUsd band).

Lemma last_reached (test : Z -> bool) (l : list Z) (start : option Z) :
  StronglySorted Z.le l ->
  match foldl (fun crossed band => if test band then Some band else crossed) start l with
  | Some b => (b ∈ l /\ test b = true /\ forall b', b' ∈ l -> test b' = true -> b' <= b) \/ (start = Some b /\ forall b', b' ∈ l -> test b' = false)
  | None => start = None /\ forall b', b' ∈ l -> test b' = false
  end.
Proof.
  intros Hs. revert start. induction Hs as [|x l Hs IH Hx]; intros start; cbn.
  { destruct start as [b|]; [right|]; (split; [done|]); by intros b' ?%elem_of_nil. }
  specialize (IH (if test x then Some x else start)). rewrite Forall_forall in Hx.
  destruct (foldl _ _ l) as [b|].
  - destruct IH as [(Hb & Ht & Hmax)|[Hb Hnone]].
    + left. split_and!; [by right|done|]. intros b' [->|Hb']%elem_of_cons; [intros _; by apply Hx|by apply Hmax].
    + destruct (test x) eqn:E.
      * injection Hb as ->. left. split_and!; [by left|done|]. intros b' [->|Hb']%elem_of_cons; [lia|by rewrite Hnone].
      * right. split; [done|]. intros b' [->|Hb']%elem_of_cons; [done|by apply Hnone].
  - destruct (test x) eqn:E; destruct IH as [IH Hnone]; [done|]. split; [done|].
    intros b' [->|Hb']%elem_of_cons; [done|by apply Hnone].
Qed.

(** The band a spend is reported at is the largest configured band whose share of the limit the spend has reached, and
    there is none only when no band is reached; the order the bands are configured in does not matter. *)
Theorem highest_band_is_the_largest_reached (spend monthlyLimitUsd : Decimal) (bands : list Z) :
  match highestBandCrossed spend monthlyLimitUsd bands with
  | Some b => b ∈ bands /\ reached spend monthlyLimitUsd b = true /\
      forall b', b' ∈ bands -> reached spend monthlyLimitUsd b' = true -> b' <= b
  | None => forall b', b' ∈ bands -> reached spend monthlyLimitUsd b' = false
  end.
Proof.
  pose proof (last_reached (reached spend monthlyLimitUsd) _ None (stable_sort_sorted bands)) as H.
  unfold highestBandCrossed. fold (reached spend monthlyLimitUsd). destruct (foldl _ _ _) as [b|].
  - destruct H as [(Hb & Ht & Hmax)|[[=] _]]. rewrite elem_of_stable_sort in Hb. split_and!; [done..|].
    intros b' Hb'. apply Hmax. by rewrite elem_of_stable_sort.
  - destruct H as [_ H]. intros b' Hb'. apply H. by rewrite elem_of_stable_sort.
Qed.

(** ** A run *)

Record BudgetWorld : Type := mkBudgetWorld {
  threshold : string -> option BudgetThresholdState;
  crossings : list ThresholdCrossing;
  written : list BudgetRollupRow;
  unreadable : list (list UnreadableSpendDay);
}.

Definition no_rounds_left (e : budget_error) : Prop := e = BudgetError "more rounds than the bound".

(** What a call does to the world when it works. A read answers anything, except that of the threshold. *)
Definition budget_done (R : Type) (r : budget_call R) (w : BudgetWorld) (answer : R) (w' : BudgetWorld) : Prop :=
  match r in budget_call T return T -> Prop with
  | PutBudgetRollupRow row => fun _ => w' = mkBudgetWorld (threshold w) (crossings w) (written w ++ [row]) (unreadable w)
  | GetBudgetThresholdState environment => fun answer => answer = threshold w environment /\ w' = w
  | PutBudgetThresholdState state => fun _ =>
      w' = mkBudgetWorld (fun e => if bool_decide (e = ThresholdState.environment state) then Some state else threshold w e)
        (crossings w) (written w) (unreadable w)
  | PublishThresholdCrossing crossing => fun _ => w' = mkBudgetWorld (threshold w) (crossings w ++ [crossing]) (written w) (unreadable w)
  | PublishUnreadableSpend _ _ days => fun _ => w' = mkBudgetWorld (threshold w) (crossings w) (written w) (unreadable w ++ [days])
  | _ => fun _ => w' = w
  end answer.

(** A call that fails has been done or not. *)
Definition budget_respond (R : Type) (r : budget_call R) (w : BudgetWorld) (x : budget_error + R) (w' : BudgetWorld) : Prop :=
  match x with
  | inr answer => budget_done R r w answer w'
  | inl e => ~ no_rounds_left e /\ (w' = w \/ exists answer, budget_done R r w answer w')
  end.

(** Nobody else writes what this run writes. *)
Definition sole_writer (w w' : BudgetWorld) : Prop := False.

Abbreviation runs p := (exec budget_respond sole_writer p).

Lemma sole_writer_rtc (w w' : BudgetWorld) : rtc sole_writer w w' -> w' = w.
Proof. by induction 1. Qed.

Lemma runs_call {R : Type} (r : budget_call R) w o w' : runs (call r) w o w' -> budget_respond R r w o w'.
Proof. by intros (w1 & w2 & ->%sole_writer_rtc & H & ->%sole_writer_rtc)%exec_call. Qed.

Lemma runs_ret {A : Type} (a : A) w o w' : runs (mret a) w o w' -> o = inr a /\ w' = w.
Proof. by intros [-> ->%sole_writer_rtc]. Qed.

(** *** Reads *)

(** The program changes nothing, and never runs out of rounds. *)
Definition still {A : Type} (p : budget_prog A) : Prop :=
  forall w o w', runs p w o w' -> w' = w /\ match o with inl e => ~ no_rounds_left e | inr _ => True end.

Definition budget_read {R : Type} (r : budget_call R) : bool :=
  match r with
  | PutBudgetRollupRow _ | PutBudgetThresholdState _ | PublishThresholdCrossing _ | PublishUnreadableSpend _ _ _ => false
  | _ => true
  end.

Lemma still_call {R : Type} (r : budget_call R) : budget_read r = true -> still (call r).
Proof.
  intros Hr w o w' H%runs_call. assert (forall answer, budget_done R r w answer w' -> w' = w) as Hdone
    by (destruct r; cbn; try discriminate; naive_solver).
  destruct o as [e|answer]; [|split; [by eapply Hdone|done]]. destruct H as [He [->|[answer H]]]; (split; [|done]); [done|by eapply Hdone].
Qed.

Lemma still_ret {A : Type} (a : A) : still (mret a).
Proof. by intros w o w' [-> ->]%runs_ret. Qed.

Lemma still_raise {A : Type} (e : budget_error) : ~ no_rounds_left e -> still (Raise (A:=A) e).
Proof. by intros He w o w' [-> ->%sole_writer_rtc]. Qed.

Lemma still_bind {A B : Type} (p : budget_prog A) (f : A -> budget_prog B) : still p -> (forall a, still (f a)) -> still (p ≫= f).
Proof.
  intros Hp Hf w o w' [(a & w1 & H1 & H2)|(e & -> & H)]%program_exec_bind; [|exact (Hp _ _ _ H)].
  destruct (Hp _ _ _ H1) as [-> _]. exact (Hf _ _ _ _ H2).
Qed.

Lemma still_rescue {A : Type} (p : budget_prog A) (h : budget_error -> budget_prog A) :
  still p -> (forall e, ~ no_rounds_left e -> still (h e)) -> still (rescue p h).
Proof.
  intros Hp Hh w o w' [(a & -> & H)|(e & w1 & H1 & H2)]%exec_rescue; [exact (Hp _ _ _ H)|].
  destruct (Hp _ _ _ H1) as [-> He]. exact (Hh _ He _ _ _ H2).
Qed.

#[local] Hint Resolve still_ret : still.
#[local] Hint Extern 1 (still (call _)) => by apply still_call : still.
Ltac solve_still := repeat first [solve [auto with still] | apply still_bind; [|intros ?]].

Lemma still_day_or_raise {A : Type} (o : option A) : still (day_or_raise o).
Proof. destruct o; [apply still_ret|by apply still_raise]. Qed.
#[local] Hint Resolve still_day_or_raise : still.

Lemma still_sum_organizations monthStart rollupDate organizations acc : still (sum_organizations monthStart rollupDate organizations acc).
Proof. revert acc. induction organizations as [|o l IH]; intros acc; cbn [sum_organizations]; solve_still. Qed.

Lemma still_vendorMonthToDateTotal rollupDate : still (vendorMonthToDateTotal rollupDate).
Proof. unfold vendorMonthToDateTotal. solve_still. apply still_sum_organizations. Qed.

Lemma still_awsSpendFor request organization day : still (awsSpendFor request organization day).
Proof.
  unfold awsSpendFor, customerAccountSpend, hosted_dailyTotal. destruct (organizationRunsInItsOwnAwsAccount _).
  - destruct (negb _); [solve_still|]. apply still_rescue; [solve_still|]. intros [m|m] He; [solve_still|by apply still_raise].
  - apply still_rescue; [solve_still|]. intros e _. solve_still.
Qed.

(** *** The threshold *)

Definition last_band (w : BudgetWorld) (environment : string) : Z :=
  match threshold w environment with Some s => ThresholdState.lastNotifiedBand s | None => 0 end.

(** What a run publishes of the spend it read. *)
Definition crossing_of (request : DailyRollupRequest) (w : BudgetWorld) (spend : VendorSpend) : list ThresholdCrossing :=
  match highestBandCrossed (total spend) (RollupRequest.monthlyLimitUsd request) (RollupRequest.thresholdBands request) with
  | Some band =>
      if band <=? last_band w (RollupRequest.environment request) then []
      else [Crossing.mk (RollupRequest.environment request) band (total spend) (RollupRequest.monthlyLimitUsd request)
              (RollupRequest.rollupDate request) (unpriced spend)]
  | None => []
  end.

Lemma threshold_exec request w w' :
  runs (maybePublishVendorThreshold request) w (inr tt) w' ->
  written w' = written w /\ unreadable w' = unreadable w /\
  ((crossings w' = crossings w /\ threshold w' = threshold w /\
    (RollupRequest.has_alerts request = false \/ isPositive (RollupRequest.monthlyLimitUsd request) = false \/
     exists spend, runs (vendorMonthToDateTotal (RollupRequest.rollupDate request)) w (inr spend) w /\ crossing_of request w spend = [])) \/
   exists spend c, runs (vendorMonthToDateTotal (RollupRequest.rollupDate request)) w (inr spend) w /\ crossing_of request w spend = [c] /\
     crossings w' = crossings w ++ [c] /\ last_band w (RollupRequest.environment request) < Crossing.thresholdPercent c /\
     last_band w' (RollupRequest.environment request) = Crossing.thresholdPercent c).
Proof.
  unfold maybePublishVendorThreshold. destruct (RollupRequest.has_alerts request) eqn:Ea; cbn [negb orb];
    [|intros [_ ->]%runs_ret; split_and!; [done..|left; split_and!; auto]].
  destruct (isPositive _) eqn:Ep; cbn [negb]; [|intros [_ ->]%runs_ret; split_and!; [done..|left; split_and!; auto]].
  intros (spend & w1 & Hs & Hex)%exec_bind_inr. destruct (still_vendorMonthToDateTotal _ _ _ _ Hs) as [-> _].
  destruct (highestBandCrossed _ _ _) as [band|] eqn:Eb.
  2: { apply runs_ret in Hex as [_ ->]. split_and!; [done..|left; split_and!; [done..|right; right]]. exists spend. unfold crossing_of. by rewrite Eb. }
  apply exec_bind_inr in Hex as (state & w1 & [-> ->]%runs_call & Hex). fold (last_band w (RollupRequest.environment request)) in Hex.
  destruct (Z.leb_spec band (last_band w (RollupRequest.environment request))) as [Hle|Hgt].
  { apply runs_ret in Hex as [_ ->]. split_and!; [done..|left; split_and!; [done..|right; right]]. exists spend. unfold crossing_of. rewrite Eb.
    by destruct (Z.leb_spec band (last_band w (RollupRequest.environment request))); [|lia]. }
  apply exec_bind_inr in Hex as (u & w1 & Hp%runs_call & Hq%runs_call). cbn in Hp, Hq. subst w1 w'.
  cbn [written unreadable crossings threshold]. split_and!; [done..|]. right.
  exists spend. eexists. split_and!; [done| |done|done|].
  - unfold crossing_of. rewrite Eb. by destruct (Z.leb_spec band (last_band w (RollupRequest.environment request))); [lia|].
  - unfold last_band. cbn. by rewrite bool_decide_true.
Qed.

(** *** The rows *)

(** What a program that ends has done; one that fails was not stopped by the bound on its rounds. *)
Definition does {A : Type} (p : budget_prog A) (R : BudgetWorld -> A -> BudgetWorld -> Prop) : Prop :=
  forall w o w', runs p w o w' -> match o with inr a => R w a w' | inl e => ~ no_rounds_left e end.

Lemma does_bind {A B : Type} (p : budget_prog A) (f : A -> budget_prog B) R S :
  does p R -> (forall a, does (f a) (S a)) -> does (p ≫= f) (fun w b w' => exists a w1, R w a w1 /\ S a w1 b w').
Proof.
  intros Hp Hf w o w' [(a & w1 & H1 & H2)|(e & -> & H)]%program_exec_bind; [|exact (Hp _ _ _ H)].
  apply Hp in H1. apply Hf in H2. destruct o as [e|b]; [done|]. by exists a, w1.
Qed.

Lemma does_weaken {A : Type} (p : budget_prog A) (R S : BudgetWorld -> A -> BudgetWorld -> Prop) :
  does p R -> (forall w a w', R w a w' -> S w a w') -> does p S.
Proof. intros Hp HRS w o w' H%Hp. destruct o; auto. Qed.

Lemma does_still {A : Type} (p : budget_prog A) : still p -> does p (fun w _ w' => w' = w).
Proof. intros Hp w o w' H%Hp. by destruct o, H. Qed.

Lemma does_call {R : Type} (r : budget_call R) : does (call r) (budget_done R r).
Proof. intros w o w' H%runs_call. destruct o as [e|a]; [by destruct H|done]. Qed.

Lemma does_ret {A : Type} (a : A) : does (mret a) (fun w b w' => b = a /\ w' = w).
Proof. by intros w o w' [-> ->]%runs_ret. Qed.

Definition wrote (w : BudgetWorld) (rows : list BudgetRollupRow) : BudgetWorld :=
  mkBudgetWorld (threshold w) (crossings w) (written w ++ rows) (unreadable w).

Lemma wrote_nil (w : BudgetWorld) : wrote w [] = w.
Proof. unfold wrote. rewrite app_nil_r. by destruct w. Qed.

Lemma wrote_app (w : BudgetWorld) (rows rows' : list BudgetRollupRow) : wrote (wrote w rows) rows' = wrote w (rows ++ rows').
Proof. unfold wrote. cbn. by rewrite <- app_assoc. Qed.

(** A row carries dollars exactly when its day was read, and then the sum of the computer and the model calls. *)
Definition row_ok (row : BudgetRollupRow) : Prop :=
  (Rollup.ceStatus row = CE_STATUS_OK /\ exists aws, Rollup.awsCostUsd row = Some aws /\
     Rollup.combinedReportUsd row = Some (add aws (Rollup.vendorCostUsd row))) \/
  ((Rollup.ceStatus row = CE_STATUS_PENDING \/ Rollup.ceStatus row = CE_STATUS_ERROR) /\
   Rollup.awsCostUsd row = None /\ Rollup.combinedReportUsd row = None).

Definition row_place (row : BudgetRollupRow) : string * string := (Rollup.tenantId row, Rollup.rollupDate row).

(** The organization-days that could not be read. *)
Definition failed_days (rows : list BudgetRollupRow) : list UnreadableSpendDay :=
  row_place <$> filter (fun row => Rollup.ceStatus row = CE_STATUS_ERROR) rows.

Definition spend_ok (aws : option Decimal * string) : Prop :=
  (aws.2 = CE_STATUS_OK /\ is_Some aws.1) \/ ((aws.2 = CE_STATUS_PENDING \/ aws.2 = CE_STATUS_ERROR) /\ aws.1 = None).

Lemma does_pure {A : Type} (p : budget_prog A) (P : A -> Prop) :
  still p -> (forall w a w', runs p w (inr a) w' -> P a) -> does p (fun w a w' => w' = w /\ P a).
Proof. intros Hs HP w o w' H. destruct (Hs _ _ _ H) as [-> He]. destruct o as [e|a]; [done|]. split; [done|by eapply HP]. Qed.

Lemma awsSpendFor_ok request organization day : does (awsSpendFor request organization day) (fun w aws w' => w' = w /\ spend_ok aws).
Proof.
  apply does_pure; [apply still_awsSpendFor|]. intros w aws w'. unfold awsSpendFor, customerAccountSpend, spend_ok.
  destruct (organizationRunsInItsOwnAwsAccount _).
  - destruct (negb _); [intros [[= ->] _]%runs_ret; cbn; tauto|].
    intros [(a & [= <-] & H)|(e & w1 & _ & H)]%exec_rescue.
    + apply exec_bind_inr in H as ([pending totalUsd] & w1 & _ & [[= ->] _]%runs_ret). destruct pending, totalUsd; cbn; eauto.
    + destruct e as [m|m]; [apply runs_ret in H as [[= ->] _]; cbn; tauto|by destruct H].
  - intros [(a & [= <-] & H)|(e & w1 & _ & [[= ->] _]%runs_ret)]%exec_rescue; [|cbn; tauto].
    apply exec_bind_inr in H as (spend & w1 & _ & [[= ->] _]%runs_ret). cbn. eauto.
Qed.

Lemma rollUpOrganizationDay_ok request organization day updatedAt :
  does (rollUpOrganizationDay request organization day updatedAt) (fun w status w' => exists row,
    w' = wrote w [row] /\ row_ok row /\ row_place row = (BudgetOrganization.tenantId organization, day) /\ Rollup.ceStatus row = status).
Proof.
  unfold rollUpOrganizationDay. eapply does_weaken.
  { eapply does_bind; [apply (does_still (vendorDailyTotal _ _)); unfold vendorDailyTotal; solve_still|]. intros vendor.
    eapply does_bind; [apply awsSpendFor_ok|]. intros aws. eapply does_bind; [apply does_still, still_call; reflexivity|]. intros existing.
    eapply does_bind; [apply does_call|]. intros ?. apply does_ret. }
  cbn. intros w status w' (vendor & ? & -> & aws & ? & [-> Haws] & existing & ? & -> & ? & w1 & -> & -> & ->).
  eexists. split_and!; [reflexivity| |reflexivity..]. unfold row_ok. cbn.
  destruct aws as [[cost|] st], Haws as [[Hst Hcost]|[Hst Hnone]]; cbn in *; subst; eauto; [|by destruct Hcost]. discriminate.
Qed.

Lemma roll_up_days_ok request organization updatedAt days unread :
  does (roll_up_days request organization updatedAt days unread) (fun w unread' w' => exists rows,
    w' = wrote w rows /\ Forall row_ok rows /\ row_place <$> rows = (fun day => (BudgetOrganization.tenantId organization, day)) <$> days /\
    unread' = unread ++ failed_days rows).
Proof.
  revert unread. induction days as [|day days IH]; intros unread; cbn [roll_up_days].
  - eapply does_weaken; [apply does_ret|]. intros w u w' [-> ->]. exists []. cbn. by rewrite wrote_nil, app_nil_r.
  - eapply does_weaken; [eapply does_bind; [apply rollUpOrganizationDay_ok|intros status; apply IH]|].
    cbn. intros w u w' (status & ? & (row & -> & Hrow & Hplace & <-) & rows & -> & Hrows & Hplaces & ->).
    exists (row :: rows). rewrite wrote_app. split_and!; [done|by constructor|cbn; congruence|].
    unfold failed_days. rewrite filter_cons. destruct (decide (Rollup.ceStatus row = CE_STATUS_ERROR)) as [He|He].
    + rewrite bool_decide_true by done. cbn. by rewrite Hplace, <- app_assoc.
    + by rewrite bool_decide_false.
Qed.

(** *** The days *)

(** The earlier days of the month of [n] that a run may read again: newest first. *)
Definition earlier_days (n : Z) (earlier : list Z) : Prop :=
  StronglySorted Z.gt earlier /\ (length earlier <= MOST_UNREAD_DAYS_READ_AGAIN_PER_RUN)%nat /\
  Forall (fun day => month_start n <= day < n) earlier.

Lemma StronglySorted_snoc (l : list Z) (x : Z) : StronglySorted Z.gt l -> Forall (fun y => x < y) l -> StronglySorted Z.gt (l ++ [x]).
Proof.
  induction 1 as [|y l Hs IH Hy]; intros Hall; cbn; [by repeat constructor|]. apply Forall_cons_1 in Hall as [Hxy Hall].
  constructor; [by apply IH|]. apply Forall_app. split; [done|]. repeat constructor. lia.
Qed.

Lemma ret_bind {A B : Type} (a : A) (f : A -> budget_prog B) : mret a ≫= f = f a.
Proof. done. Qed.

Lemma unread_days_ok request organization n c rounds earlier :
  RollupRequest.rollupDate request = day_text n -> four_digits n -> (forall i, month_start n - 1 <= i <= n -> four_digits i) ->
  month_start n - 1 <= c < n -> c - month_start n + 1 < Z.of_nat rounds ->
  earlier_days n earlier -> Forall (fun day => c < day) earlier ->
  does (unread_days request organization rounds (day_text c) (day_text <$> earlier))
    (fun w days w' => w' = w /\ exists earlier', days = day_text <$> earlier' /\ earlier_days n earlier').
Proof.
  intros Hdate Hn Hd. assert (month_start n <= n) as Hms by (pose proof (civil_bounds n); unfold month_start; lia).
  revert c earlier. induction rounds as [|rounds IH]; intros c earlier Hc Hr He Hlater; [lia|]. cbn [unread_days].
  rewrite Hdate, firstDayOfMonth_text, day_text_le by (done || apply Hd; lia).
  destruct (Z.leb_spec (month_start n) c) as [Hle|Hlt].
  2: { eapply does_weaken; [apply does_ret|]. intros w a w' [-> ->]. split; [done|by exists earlier]. }
  rewrite length_fmap. destruct (Nat.leb_spec MOST_UNREAD_DAYS_READ_AGAIN_PER_RUN (length earlier)) as [Hmost|Hfew].
  { eapply does_weaken; [apply does_ret|]. intros w a w' [-> ->]. split; [done|by exists earlier]. }
  rewrite addDays_text by (apply Hd; lia). replace (c + -1) with (c - 1) by lia. destruct He as (Hs & Hlen & Hall).
  eapply does_weaken.
  - apply (does_bind _ _ (fun w _ w' => w' = w)
      (fun _ w days w' => w' = w /\ exists earlier', days = day_text <$> earlier' /\ earlier_days n earlier'));
      [apply does_still, still_call; reflexivity|]. intros row. cbn [day_or_raise].
    rewrite ret_bind.
    destruct (read_again organization row).
    + change [day_text c] with (day_text <$> [c]). rewrite <- fmap_app. apply IH; [lia..| |].
      * split_and!; [by apply StronglySorted_snoc|rewrite length_app; cbn; lia|]. apply Forall_app. split; [done|]. repeat constructor; lia.
      * apply Forall_app. split; [eapply Forall_impl; [exact Hlater|cbn; lia]|]. repeat constructor. lia.
    + apply IH; [lia..|done|]. eapply Forall_impl; [exact Hlater|cbn; lia].
  - cbn. intros w days w' (row & w1 & -> & -> & H). done.
Qed.

Lemma daysToRollUp_ok request organization n :
  RollupRequest.rollupDate request = day_text n -> four_digits n -> four_digits (month_start n - 1) ->
  does (daysToRollUp request organization)
    (fun w days w' => w' = w /\ exists earlier, days = (day_text <$> earlier) ++ [day_text n] /\ earlier_days n earlier).
Proof.
  intros Hdate Hn Hn0. pose proof (civil_bounds n) as [_ Hb]. unfold daysToRollUp. rewrite Hdate, addDays_text by done. cbn [day_or_raise].
  replace (n + -1) with (n - 1) by lia.
  rewrite ret_bind.
  eapply does_weaken.
  - apply (does_bind (unread_days request organization MONTH_ROUNDS (day_text (n - 1)) []) (fun days => mret (days ++ [day_text n])) (fun w days w' => w' = w /\ exists earlier, days = day_text <$> earlier /\ earlier_days n earlier)
      (fun a w b w' => b = a ++ [day_text n] /\ w' = w)); [|intros days; apply does_ret].
    apply (unread_days_ok _ _ n _ _ []); [done..| | | | |constructor]; unfold month_start, MONTH_ROUNDS in *; [|lia..|split_and!; [constructor|cbn; lia|constructor]].
    intros i Hi. destruct (Z.eq_dec i (n - (Civil.day (civil_of_days n) - 1) - 1)) as [->|]; [done|].
    replace i with (n - (n - i)) by lia. apply four_digits_back; [done|lia].
  - cbn. intros w days w' (a & w1 & (-> & earlier & -> & He) & -> & ->). split; [done|]. by exists earlier.
Qed.

(** *** The whole run *)

(** The rows of one organization: the earlier days that are read again, then the day itself. *)
Definition organization_rows (n : Z) (organization : BudgetOrganization) (rows : list BudgetRollupRow) : Prop :=
  exists earlier, earlier_days n earlier /\
    row_place <$> rows = (fun day => (BudgetOrganization.tenantId organization, day)) <$> ((day_text <$> earlier) ++ [day_text n]).

Lemma roll_up_organizations_ok request n updatedAt organizations unread :
  RollupRequest.rollupDate request = day_text n -> four_digits n -> four_digits (month_start n - 1) ->
  does (roll_up_organizations request updatedAt organizations unread) (fun w unread' w' => exists rowss,
    Forall2 (organization_rows n) organizations rowss /\ w' = wrote w (concat rowss) /\ Forall row_ok (concat rowss) /\
    unread' = unread ++ failed_days (concat rowss)).
Proof.
  intros Hdate Hn Hn0. revert unread. induction organizations as [|organization organizations IH]; intros unread; cbn [roll_up_organizations].
  - eapply does_weaken; [apply does_ret|]. intros w u w' [-> ->]. exists []. cbn. by rewrite wrote_nil, app_nil_r.
  - eapply does_weaken.
    + eapply does_bind; [apply does_still; destruct (RollupRequest.has_reconciler request); solve_still|]. intros ?.
      eapply does_bind; [by apply (daysToRollUp_ok _ _ n)|]. intros days.
      eapply does_bind; [apply roll_up_days_ok|]. intros unread'. apply IH.
    + cbn. intros w u w' (? & ? & -> & days & ? & (-> & earlier & -> & He) & ? & ? & (rows & -> & Hok & Hplaces & ->) & rowss & Hall & -> & Hoks & ->).
      exists (rows :: rowss). cbn. rewrite wrote_app. split_and!; [|done|by apply Forall_app|].
      * constructor; [by exists earlier|done].
      * unfold failed_days. by rewrite filter_app, fmap_app, app_assoc.
Qed.

Definition publication (request : DailyRollupRequest) (days : list UnreadableSpendDay) : list (list UnreadableSpendDay) :=
  match days with [] => [] | _ => if RollupRequest.has_alerts request then [days] else [] end.

Lemma run_exec_parts request n w w' :
  RollupRequest.rollupDate request = day_text n -> four_digits n -> four_digits (month_start n - 1) ->
  runs (runDailyRollup request) w (inr tt) w' ->
  exists organizations rowss w1, Forall2 (organization_rows n) organizations rowss /\ Forall row_ok (concat rowss) /\
    runs (maybePublishVendorThreshold request) (wrote w (concat rowss)) (inr tt) w1 /\
    w' = mkBudgetWorld (threshold w1) (crossings w1) (written w1) (unreadable w1 ++ publication request (failed_days (concat rowss))).
Proof.
  intros Hdate Hn Hn0. unfold runDailyRollup.
  intros (organizations & w1 & [-> _]%(still_call ListEnabledOrganizations eq_refl) & Hex)%exec_bind_inr.
  apply exec_bind_inr in Hex as (unread & w2 & Hrows & Hex). apply exec_bind_inr in Hex as ([] & w3 & Ht & Hp).
  apply (roll_up_organizations_ok _ n) in Hrows as (rowss & Hall & -> & Hok & ->); [|done..].
  exists organizations, rowss, w3. split_and!; [done..|]. unfold publication, publishUnreadableSpend in *. cbn [app] in *.
  destruct (failed_days _) as [|day days].
  - apply runs_ret in Hp as [_ ->]. rewrite app_nil_r. by destruct w3.
  - destruct (RollupRequest.has_alerts request); [by apply runs_call in Hp|]. apply runs_ret in Hp as [_ ->]. rewrite app_nil_r. by destruct w3.
Qed.

(** A program that is not stopped by the bound on its rounds. *)
Definition bounded {A : Type} (p : budget_prog A) : Prop := does p (fun _ _ _ => True).

Lemma bounded_of {A : Type} (p : budget_prog A) R : does p R -> bounded p.
Proof. intros Hp. by eapply does_weaken. Qed.

Lemma bounded_bind {A B : Type} (p : budget_prog A) (f : A -> budget_prog B) : bounded p -> (forall a, bounded (f a)) -> bounded (p ≫= f).
Proof. intros Hp Hf. eapply bounded_of, does_bind; [exact Hp|exact Hf]. Qed.

Lemma bounded_call {R : Type} (r : budget_call R) : bounded (call r).
Proof. eapply bounded_of, does_call. Qed.

Lemma bounded_ret {A : Type} (a : A) : bounded (mret a).
Proof. eapply bounded_of, does_ret. Qed.

#[local] Hint Resolve bounded_call bounded_ret : bounded.

Lemma threshold_is_bounded request : bounded (maybePublishVendorThreshold request).
Proof.
  unfold maybePublishVendorThreshold. destruct (_ || _); [auto with bounded|].
  apply bounded_bind; [eapply bounded_of, does_still, still_vendorMonthToDateTotal|]. intros spend.
  destruct (highestBandCrossed _ _ _) as [band|]; [|auto with bounded].
  apply bounded_bind; [auto with bounded|]. intros state. destruct (band <=? _); [auto with bounded|].
  apply bounded_bind; auto with bounded.
Qed.

Lemma run_is_bounded request n :
  RollupRequest.rollupDate request = day_text n -> four_digits n -> four_digits (month_start n - 1) -> bounded (runDailyRollup request).
Proof.
  intros Hdate Hn Hn0. unfold runDailyRollup. apply bounded_bind; [auto with bounded|]. intros organizations.
  apply bounded_bind; [by eapply bounded_of, (roll_up_organizations_ok _ n)|]. intros unread. apply bounded_bind; [apply threshold_is_bounded|].
  intros _. unfold publishUnreadableSpend. destruct unread, (RollupRequest.has_alerts request); auto with bounded.
Qed.


(** Runs of one environment that end, one after the other, of any days. *)
Inductive rollups (environment : string) : BudgetWorld -> BudgetWorld -> Prop :=
| rollups_none w : rollups environment w w
| rollups_one request n w w1 w' :
    RollupRequest.environment request = environment -> RollupRequest.rollupDate request = day_text n -> four_digits n ->
    four_digits (month_start n - 1) -> runs (runDailyRollup request) w (inr tt) w1 -> rollups environment w1 w' ->
    rollups environment w w'.


(** ** Two months *)

Definition demo_ledger : list VendorLedgerRow :=
  [Ledger.mk "acme" "turn1" "vendor" (Some (Decimal.mk 100 0)) "2027-01-02T10:00:00+00:00" 0 "session" None ["call1"];
   Ledger.mk "acme" "turn1-call1" "vendor" (Some (Decimal.mk 90 0)) "2027-01-02T10:00:01+00:00" 0 "gateway" (Some "call1") [];
   Ledger.mk "acme" "turn2" "vendor" (Some (Decimal.mk 120 0)) "2027-02-02T10:00:00+00:00" 0 "session" None []].

(** One organization whose computer time cannot be read. *)
Definition demo_handler (R : Type) (r : budget_call R) (w : BudgetWorld) : (budget_error + R) * BudgetWorld :=
  match r in budget_call T return (budget_error + T) * BudgetWorld with
  | ListEnabledOrganizations => (inr [BudgetOrganization.mk "acme" None None None], w)
  | ListVendorLedgerRowsForTenant _ => (inr demo_ledger, w)
  | ListComputerRuntimeSegments _ => (inl (BudgetError "throttled"), w)
  | GetBudgetRollupRow _ _ _ => (inr None, w)
  | PutBudgetRollupRow row => (inr tt, wrote w [row])
  | GetBudgetThresholdState environment => (inr (threshold w environment), w)
  | PutBudgetThresholdState state =>
      (inr tt, mkBudgetWorld (fun e => if bool_decide (e = ThresholdState.environment state) then Some state else threshold w e)
        (crossings w) (written w) (unreadable w))
  | ReconcileTenant _ => (inr tt, w)
  | AccountDailyTotal _ _ => (inr (true, None), w)
  | PublishThresholdCrossing crossing => (inr tt, mkBudgetWorld (threshold w) (crossings w ++ [crossing]) (written w) (unreadable w))
  | PublishUnreadableSpend _ _ days => (inr tt, mkBudgetWorld (threshold w) (crossings w) (written w) (unreadable w ++ [days]))
  end.

Lemma demo_handler_ok R (r : budget_call R) w : budget_respond R r w (demo_handler R r w).1 (demo_handler R r w).2.
Proof. destruct r; cbn; try done. split; [discriminate|by left]. Qed.

Definition request_of (day : string) : DailyRollupRequest :=
  RollupRequest.mk false true false "production" day (Decimal.mk 100 0) 1798848000000 DEFAULT_THRESHOLD_BANDS.

Definition no_budget_yet : BudgetWorld := mkBudgetWorld (fun _ => None) [] [] [].

Definition run_on (day : string) (w : BudgetWorld) : (budget_error + unit) * BudgetWorld :=
  run_program demo_handler (runDailyRollup (request_of day)) w.

Lemma run_on_exec day w : runs (runDailyRollup (request_of day)) w (run_on day w).1 (run_on day w).2.
Proof. apply run_program_exec, demo_handler_ok. Qed.

Definition after_january : BudgetWorld := (run_on (day_text 20820) no_budget_yet).2.
Definition after_february : BudgetWorld := (run_on (day_text 20851) after_january).2.

Ltac solve_days := vm_compute; split; discriminate.

Lemma two_months : rollups "production" no_budget_yet after_february.
Proof.
  eapply (rollups_one _ (request_of (day_text 20820)) 20820); [reflexivity|reflexivity|solve_days|solve_days| |].
  { pose proof (run_on_exec (day_text 20820) no_budget_yet) as H. assert ((run_on (day_text 20820) no_budget_yet).1 = inr tt) as E by (vm_compute; reflexivity).
    rewrite E in H. exact H. }
  eapply (rollups_one _ (request_of (day_text 20851)) 20851); [reflexivity|reflexivity|solve_days|solve_days| |apply rollups_none].
  pose proof (run_on_exec (day_text 20851) after_january) as H. assert ((run_on (day_text 20851) after_january).1 = inr tt) as E by (vm_compute; reflexivity).
  rewrite E in H. exact H.
Qed.



Lemma ledger_window_is_sum_of_days_witness :
  toString (total (sumVendorRows demo_ledger "2027-01-01" "2027-01-02")) = "100" /\
  (value (total (sumVendorRows demo_ledger (day_text 20820) (day_text (20820 + Z.of_nat 31)))) ==
   sum_costs ((fun day => value (total (sumVendorRows demo_ledger day day))) <$> days_from 20820 32))%Q.
Proof.
  split; [vm_compute; reflexivity|]. refine (proj1 (ledger_window_is_sum_of_days demo_ledger 20820 31 _ _)).
  - intros i Hi. assert (Forall (fun i => four_digits (20820 + Z.of_nat i)) (seq 0 32)) as Hall
      by (repeat constructor; vm_compute; discriminate). rewrite Forall_forall in Hall.
    replace i with (Z.of_nat (Z.to_nat i)) by lia. apply Hall, elem_of_seq. lia.
  - intros row Hrow. assert (exists n, four_digits n /\ dayWrittenIn (Ledger.recordedAt row) = day_text n) as H; [|exact H].
    apply list_elem_of_In in Hrow. cbn in Hrow. destruct Hrow as [<-|[<-|[<-|[]]]]; [exists 20820|exists 20820|exists 20851]; (split; [solve_days|vm_compute; reflexivity]).
Defined.
