(* ===== verification/OrganizationTheorems.v ===== *)
(** * What organizations promise

    A refused operation has written nothing; a status changes only along the life cycle; an invitation makes a member only of
    whom it was meant for; a change of role leaves an organization an owner, as long as no other process changes its members at the same
    time; and what two of them can do to each other when they do.

    The functions of organizations read records and put them back whole; nothing keeps another process from writing in
    between. Concrete interleavings show what is lost: a suspension that was answered is undone by an owner who sets the
    spend ceiling at the same time, and two owners who step down at the same time leave no owner. An interleaving is a
    program run up to a request ([advance]), the other process, and the rest. *)

From S2P Require Import Prelude Json Decimal Calendar Dates Types Service Paging TurnCodec TurnStore ComputerStore.
From S2P Require Import Workers LiveFiles Footprint Organizations OrganizationDomain Spend SpendTheorems.
From coqutil Require Import Datatypes.RecordSetters.
Import DoubleBraceUpdate.
#[local] Open Scope Z_scope.
#[local] Open Scope prog_scope.

(** ** Refusals *)

Lemma reads_get_record {A : Type} (decode : item -> option A) what k : reads (get_decoded decode what k).
Proof. solve_reads. Qed.

Lemma reads_pages {B : Type} (decode : item -> exn + B) pk r f start fuel : reads (query_pages decode pk r f start fuel).
Proof. by apply asks_query_pages. Qed.
#[local] Hint Resolve reads_get_record reads_pages : reads.

Lemma reads_organization tenantId : reads (getOrganization tenantId).
Proof. solve_reads. Qed.

Lemma reads_invitation invitationId : reads (getInvitation invitationId).
Proof. solve_reads. Qed.

Lemma reads_members pages tenantId : reads (listMemberships pages tenantId).
Proof. solve_reads. Qed.

Lemma reads_require_owner tenantId actorUserId : reads (require_owner tenantId actorUserId).
Proof. solve_reads. Qed.
#[local] Hint Resolve reads_organization reads_invitation reads_members reads_require_owner : reads.

Section operations.
Context (toLowerCase : string -> string) (pages : nat) (callerAwsAccountId : option (prog string)).

(** The operations of an owner or an administrator, and that of an invited person. *)
Inductive organization_operation : forall A : Type, prog A -> Prop :=
| op_enable tenantId : organization_operation _ (enableOrganization callerAwsAccountId tenantId)
| op_suspend tenantId : organization_operation _ (suspendOrganization tenantId)
| op_reinstate tenantId : organization_operation _ (reinstateOrganization callerAwsAccountId tenantId)
| op_provision tenantId home : organization_operation _ (provisionOrganizationAws tenantId home)
| op_admin_role tenantId memberUserId role : organization_operation _ (adminSetMemberRole pages tenantId memberUserId role)
| op_role tenantId actorUserId memberUserId role : organization_operation _ (setMemberRole pages tenantId actorUserId memberUserId role)
| op_invite tenantId inviterUserId email : organization_operation _ (inviteByEmail toLowerCase tenantId inviterUserId email)
| op_accept invitationId acceptor : organization_operation _ (acceptInvitation invitationId acceptor).

Hypothesis caller_reads : forall caller, callerAwsAccountId = Some caller -> reads caller.

Lemma reads_home organization : reads (withAnthusManagedHomeWhenUnchosen callerAwsAccountId organization).
Proof using caller_reads.
  unfold withAnthusManagedHomeWhenUnchosen. destruct callerAwsAccountId as [caller|]; [|exact Logic.I].
  destruct (hasUnchosenAwsHome organization); [|exact Logic.I]. apply reads_bind; [by apply caller_reads|]. intros account. exact Logic.I.
Qed.
#[local] Hint Resolve reads_home : reads.

Lemma operation_refuses (A : Type) (p : prog A) : organization_operation A p -> refuses p.
Proof using caller_reads. intros []; solve_refuses. Qed.

End operations.

(** ** The life cycle *)

Section moments.
Context `{Service} (I : World -> World -> Prop).

(** The organization the table holds at a moment. *)
Definition organization_at (w : World) (tenantId : string) (organization : Organization) : Prop :=
  exists it, tbl w !! organizationKey tenantId = Some it /\ organizationFromItem it = Some organization.

Definition member_at (w : World) (tenantId userId : string) (membership : Membership) : Prop :=
  exists it, tbl w !! membershipKey tenantId userId = Some it /\ decodeMembership it = Some membership.

Lemma exec_get_record {A : Type} (decode : item -> option A) what k w r w' :
  exec I (get_decoded decode what k) w (Ok r) w' ->
  exists w1, rtc I w w1 /\ rtc I w1 w' /\
    match r with Some a => exists it, tbl w1 !! k = Some it /\ decode it = Some a | None => tbl w1 !! k = None end.
Proof.
  intros [_ (w1 & H1 & H2 & Hk)]%exec_get_decoded. exists w1. split_and!; [done..|].
  destruct (tbl w1 !! k) as [it|]; [|by subst]. destruct Hk as (a & Ha & ->). by exists it.
Qed.

Lemma exec_getOrganization tenantId w o w' :
  exec I (OrganizationDomain.getOrganization tenantId) w o w' ->
  rtc I w w' /\ match o with Ok organization => exists w1, rtc I w w1 /\ rtc I w1 w' /\ organization_at w1 tenantId organization | Err _ => True end.
Proof.
  intros Hex. split; [eapply reads_exec; [|exact Hex]; solve_reads|]. destruct o as [e|organization]; [done|].
  apply exec_bind in Hex as [(r & w1 & (w2 & H1 & H2 & Hr)%exec_get_record & Hx)|(e & [=] & _)].
  destruct r as [o|]; destruct Hx as [[=] Hx]; subst. exists w2. split_and!; [done|by trans w1|exact Hr].
Qed.

(** What a put that worked has done. *)
Lemma exec_put (it : item) k w w' :
  item_key it = Some k -> exec I (put it) w (Ok tt) w' -> exists w1, rtc I w w1 /\ rtc I (with_tbl w1 (<[k := it]> (tbl w1))) w'.
Proof.
  intros Hk (w1 & w2 & H1 & Hr%respond_contract & H2)%exec_send. destruct Hr as (k' & Hk' & _ & ->). rewrite Hk in Hk'. injection Hk' as <-. by exists w1.
Qed.

Lemma encodeOrganization_key (o : Organization) : item_key (encodeOrganization o) = Some (organizationKey (Organization.tenantId o)).
Proof.
  unfold encodeOrganization, put_if, put_flag. cbv zeta.
  destruct (Organization.awsAccountId o), (Organization.awsCrossAccountRole o), (Organization.awsExternalId o), (Organization.awsSetupPath o),
    (Organization.setupFeeCents o), (Organization.assistedSetupSession o), (Organization.monthlyAwsSpendCeilingUsd o); reflexivity.
Qed.

Context (callerAwsAccountId : option (prog string)) (caller_reads : forall caller, callerAwsAccountId = Some caller -> reads caller).

(** The changes of a status. *)
Inductive status_change (tenantId : string) : prog Organization -> string -> string -> Prop :=
| change_enable : status_change tenantId (enableOrganization callerAwsAccountId tenantId) "pending" "enabled"
| change_suspend : status_change tenantId (suspendOrganization tenantId) "enabled" "suspended"
| change_reinstate : status_change tenantId (reinstateOrganization callerAwsAccountId tenantId) "suspended" "enabled".

(** All but the status and, where none was chosen, the home. *)
Definition same_but_status (before after : Organization) : Prop :=
  after = before {{ Organization.status := Organization.status after }} \/
  (hasUnchosenAwsHome before = true /\ exists account,
   after = (withDeploymentAccountHome before account) {{ Organization.status := Organization.status after }}).

Lemma exec_home organization w homed w' :
  exec I (withAnthusManagedHomeWhenUnchosen callerAwsAccountId organization) w (Ok homed) w' ->
  rtc I w w' /\ (homed = organization \/ hasUnchosenAwsHome organization = true /\ exists a, homed = withDeploymentAccountHome organization a).
Proof using caller_reads.
  intros Hex. split; [by eapply reads_exec; [apply (reads_home _ caller_reads)|]|]. unfold withAnthusManagedHomeWhenUnchosen in Hex.
  destruct callerAwsAccountId as [caller|]; [|destruct Hex as [[=] _]; by left].
  destruct (hasUnchosenAwsHome organization); [|destruct Hex as [[=] _]; by left]. right. split; [done|].
  apply exec_bind in Hex as [(a & w1 & _ & [[=] _])|(e & [=] & _)]. by exists a.
Qed.

Lemma exec_status_change (from to operation required tenantId : string) (home : Organization -> prog Organization) w o w' :
  (forall organization w homed w', exec I (home organization) w (Ok homed) w' ->
     rtc I w w' /\ (homed = organization \/ hasUnchosenAwsHome organization = true /\ exists a, homed = withDeploymentAccountHome organization a)) ->
  exec I (let! organization := OrganizationDomain.getOrganization tenantId in
          if decide (Organization.status organization <> from) then Throw (wrong_status tenantId (Organization.status organization) operation required)
          else let! homed := home organization in
               let changed := homed {{ Organization.status := to }} in putOrganization changed ;;; Ret changed) w (Ok o) w' ->
  exists before w1 w2, rtc I w w1 /\ organization_at w1 tenantId before /\ rtc I w1 w2 /\
    rtc I (with_tbl w2 (<[organizationKey (Organization.tenantId o) := encodeOrganization o]> (tbl w2))) w' /\
    Organization.status before = from /\ Organization.status o = to /\ same_but_status before o.
Proof using Type.
  intros Hhome Hex. apply exec_bind in Hex as [(before & w1 & [_ (w2 & H1 & H2 & Hat)]%exec_getOrganization & Hex)|(e & [=] & _)].
  destruct (decide (Organization.status before <> from)) as [|Hfrom%dec_stable]; [by destruct Hex|].
  apply exec_bind in Hex as [(homed & w3 & [H3 Hh]%Hhome & Hex)|(e & [=] & _)].
  apply exec_bind in Hex as [([] & w4 & Hput & [[= ->] H4])|(e & [=] & _)].
  apply (exec_put _ _ _ _ (encodeOrganization_key _)) in Hput as (w5 & H5 & H6).
  exists before, w2, w5. split_and!; [done|done|by do 2 (etrans; [eassumption|])|by trans w4|done|done|].
  destruct Hh as [->|[Hun (a & ->)]]; [by left|right; split; [done|by exists a]].
Qed.

(** A status changes only along the life cycle: an organization is enabled only when it was found pending, suspended only when
    enabled, and enabled again from suspended only by a reinstatement; everything else of it is put back as it was read,
    but for the deployment's own account where no home was chosen. *)
Theorem status_changes_follow_the_life_cycle tenantId p from to w o w' :
  status_change tenantId p from to -> exec I p w (Ok o) w' ->
  exists before w1 w2, rtc I w w1 /\ organization_at w1 tenantId before /\ rtc I w1 w2 /\
    rtc I (with_tbl w2 (<[organizationKey (Organization.tenantId o) := encodeOrganization o]> (tbl w2))) w' /\
    Organization.status before = from /\ Organization.status o = to /\ same_but_status before o.
Proof using caller_reads.
  intros [] Hex.
  - eapply exec_status_change; [|exact Hex]. apply exec_home.
  - eapply (exec_status_change _ _ _ _ _ (fun organization => Ret organization)); [|exact Hex].
    intros organization w1 homed w2 [[= ->] Hw]. split; [done|by left].
  - eapply exec_status_change; [|exact Hex]. apply exec_home.
Qed.

(** ** Invitations *)

(** The invitation an identifier leads to, as two reads find it. *)
Definition invitation_found (w w' : World) (invitationId : string) (invitation : Invitation) : Prop :=
  exists w1 row it, rtc I w w1 /\ tbl w1 !! invitationLookupKey invitationId = Some row /\ rtc I w1 w' /\
    tbl w' !! invitationKey (text_or_empty row "tenant_id") invitationId = Some it /\ decodeInvitation it = Some invitation.

Lemma exec_getInvitation invitationId w r w' :
  exec I (getInvitation invitationId) w (Ok r) w' ->
  match r with Some invitation => exists w1, invitation_found w w1 invitationId invitation /\ rtc I w1 w' | None => True end.
Proof using Type.
  intros [(row & w1 & (w2 & H1 & -> & H2)%exec_get & Hex)|(e & [=] & _)]%exec_bind.
  destruct (tbl w2 !! invitationLookupKey invitationId) as [row|] eqn:Hrow; [|by destruct Hex as [[= ->] _]].
  apply exec_get_record in Hex as (w3 & H3 & H4 & Hit). destruct r as [invitation|]; [|done]. destruct Hit as (it & Hit & Hd).
  exists w3. split; [|done]. exists w2, row, it. split_and!; [done|done|by trans w1|done|done].
Qed.

Lemma encodeMembership_key (m : Membership) : item_key (encodeMembership m) = Some (membershipKey (Membership.tenantId m) (Membership.userId m)).
Proof. reflexivity. Qed.

Lemma exec_putMembership m w w' :
  exec I (putMembership m) w (Ok tt) w' ->
  exists w1, rtc I w w1 /\ exists w2, rtc I (with_tbl w1 (<[membershipKey (Membership.tenantId m) (Membership.userId m) := encodeMembership m]> (tbl w1))) w2 /\
    rtc I (with_tbl w2 (<[userOrganizationKey (Membership.userId m) (Membership.tenantId m) := user_organization_row m]> (tbl w2))) w'.
Proof using Type.
  intros [([] & w1 & (w2 & H1 & H2)%(exec_put _ _ _ _ (encodeMembership_key m)) & Hex)|(e & [=] & _)]%exec_bind.
  apply (exec_put (user_organization_row m) (userOrganizationKey (Membership.userId m) (Membership.tenantId m)) _ _ eq_refl) in Hex as (w3 & H3 & H4).
  exists w2. split; [done|]. exists w3. split; [by trans w1|done].
Qed.

End moments.

(** ** Owners *)

Section owners.
Context `{Service} (I : World -> World -> Prop) (tenantId : string).

(** The rows of the members, by their sort keys. *)
Definition members_kept (w w' : World) : Prop :=
  forall sk, starts_with "member#" sk = true ->
    tbl w' !! (organizationPartition tenantId, sk) = tbl w !! (organizationPartition tenantId, sk).

#[local] Instance members_kept_preorder : PreOrder members_kept.
Proof. split; [done|]. intros w1 w2 w3 H1 H2 sk Hsk. by rewrite H2, H1. Qed.

(** A row that is a membership is where its tenant and its user say. *)
Definition members_keyed (w : World) : Prop :=
  forall sk it m, starts_with "member#" sk = true -> tbl w !! (organizationPartition tenantId, sk) = Some it ->
    decodeMembership it = Some m -> (organizationPartition tenantId, sk) = membershipKey tenantId (Membership.userId m) /\ Membership.tenantId m = tenantId.

Definition owner_row (w : World) (userId : string) : Prop :=
  exists it, tbl w !! membershipKey tenantId userId = Some it /\ required_string it "role" = Some "owner".

Definition has_owner (w : World) : Prop := exists userId, owner_row w userId.

Lemma member_sort_key userId : starts_with "member#" ("member#" +:+ userId) = true.
Proof. apply starts_with_app. Qed.

Lemma kept_member w w' userId : members_kept w w' -> tbl w' !! membershipKey tenantId userId = tbl w !! membershipKey tenantId userId.
Proof. intros Hk. apply Hk, member_sort_key. Qed.

Lemma members_kept_facts w w' : members_kept w w' -> (members_keyed w -> members_keyed w') /\ (has_owner w -> has_owner w').
Proof.
  intros Hk. split.
  - intros Hw sk it m Hsk Hit. rewrite Hk in Hit by done. by apply Hw.
  - intros (u & it & Hit & Hr). exists u, it. by rewrite (kept_member w w').
Qed.

Hypothesis others_keep : forall w w', I w w' -> members_kept w w'.

Lemma others_kept w w' : rtc I w w' -> members_kept w w'.
Proof using others_keep. induction 1 as [|w w1 w2 H1 _ IH]; [done|]. trans w1; [by apply others_keep|done]. Qed.

(** A put, whatever came of it. *)
Lemma exec_put_any (it : item) k w o w' :
  item_key it = Some k -> exec I (put it) w o w' ->
  rtc I w w' \/ exists w1, rtc I w w1 /\ rtc I (with_tbl w1 (<[k := it]> (tbl w1))) w'.
Proof using Type.
  intros Hk Hex. destruct o as [e|[]]; [left; by apply exec_send_fails in Hex as [? _]|right; by apply exec_put].
Qed.

(** The second row of a membership is none of the members'. *)
Lemma user_row_kept w m : members_kept w (with_tbl w (<[userOrganizationKey (Membership.userId m) (Membership.tenantId m) := user_organization_row m]> (tbl w))).
Proof.
  intros sk (s & ->)%starts_with_inv. cbn [with_tbl tbl World.tbl]. rewrite lookup_insert_ne; [done|]. unfold userOrganizationKey. intros [= _ Heq]; discriminate Heq.
Qed.

Lemma exec_putMembership_any m w o w' :
  exec I (putMembership m) w o w' ->
  members_kept w w' \/ members_kept (with_tbl w (<[membershipKey (Membership.tenantId m) (Membership.userId m) := encodeMembership m]> (tbl w))) w'.
Proof using others_keep.
  assert (forall w o w', exec I (put (user_organization_row m)) w o w' -> members_kept w w') as Hsecond.
  { intros w1 o1 w1' [Hw%others_kept|(w2 & Hw%others_kept & Hw'%others_kept)]%(exec_put_any (user_organization_row m) (userOrganizationKey (Membership.userId m) (Membership.tenantId m)) _ _ _ eq_refl);
      [done|]. trans w2; [done|]. etrans; [apply user_row_kept|done]. }
  assert (forall w1 w2, members_kept w1 w2 ->
    members_kept (with_tbl w1 (<[membershipKey (Membership.tenantId m) (Membership.userId m) := encodeMembership m]> (tbl w1)))
      (with_tbl w2 (<[membershipKey (Membership.tenantId m) (Membership.userId m) := encodeMembership m]> (tbl w2)))) as Hins.
  { intros w1 w2 Hk sk Hsk. cbn [with_tbl tbl World.tbl].
    destruct (decide (membershipKey (Membership.tenantId m) (Membership.userId m) = (organizationPartition tenantId, sk))) as [->|Hne];
      [by rewrite !lookup_insert_eq|]. rewrite !lookup_insert_ne by done. by apply Hk. }
  assert (forall w o w', exec I (put (encodeMembership m)) w o w' -> members_kept w w' \/
    members_kept (with_tbl w (<[membershipKey (Membership.tenantId m) (Membership.userId m) := encodeMembership m]> (tbl w))) w') as Hfirst.
  { intros w1 o1 w1' [Hw%others_kept|(w2 & Hw%others_kept & Hw'%others_kept)]%(exec_put_any _ _ _ _ _ (encodeMembership_key m)); [by left|right].
    etrans; [by apply Hins|done]. }
  intros [(u & w1 & [Hw|Hw]%Hfirst & Hw1%Hsecond)|(e & -> & Hw%Hfirst)]%exec_bind; [left; by trans w1|right; by trans w1|done].
Qed.

Lemma optionalString_text it name s : optionalString it name = Some s -> it !! name = Some (AS s).
Proof. unfold optionalString. destruct (it !! name) as [[t| | | | | | |]|]; try done. destruct (decide (t = EmptyString)); [done|]. by intros [= ->]. Qed.

Lemma membership_fields it m :
  decodeMembership it = Some m ->
  it !! "tenant_id" = Some (AS (Membership.tenantId m)) /\ it !! "user_id" = Some (AS (Membership.userId m)) /\
  it !! "role" = Some (AS (Membership.role m)).
Proof.
  unfold decodeMembership. destruct (optionalString it "tenant_id") as [t|] eqn:Et; [|done]. cbn [mbind option_bind].
  destruct (optionalString it "user_id") as [u|] eqn:Eu; [|done]. cbn [mbind option_bind].
  destruct (optionalString it "role") as [r|] eqn:Er; [|done]. cbn [mbind option_bind].
  destruct (optionalString it "joined_at" ≫= date_of_text); [|done]. intros [= <-]. split_and!; by apply optionalString_text.
Qed.

Lemma encodeMembership_decoded m m' :
  decodeMembership (encodeMembership m) = Some m' -> Membership.userId m' = Membership.userId m /\ Membership.tenantId m' = Membership.tenantId m.
Proof.
  intros (Ht & Hu & _)%membership_fields.
  assert (encodeMembership m !! "tenant_id" = Some (AS (Membership.tenantId m))) as Ht' by reflexivity.
  assert (encodeMembership m !! "user_id" = Some (AS (Membership.userId m))) as Hu' by reflexivity. rewrite Ht in Ht'. rewrite Hu in Hu'.
  injection Ht' as Ht'. injection Hu' as Hu'. done.
Qed.

Lemma decoded_role it m : decodeMembership it = Some m -> required_string it "role" = Some (Membership.role m).
Proof. intros (_ & _ & Hr)%membership_fields. unfold required_string. by rewrite Hr. Qed.

Lemma exec_listMemberships pages w l w' x :
  members_keyed w -> exec I (listMemberships pages tenantId) w (Ok l) w' -> x ∈ l -> Membership.role x = "owner" ->
  owner_row w' (Membership.userId x).
Proof using others_keep.
  intros Hkeyed [(rows & w1 & [_ Hl]%query_pages_elem & [[= ->] H1])|(e & [=] & _)]%exec_bind Hx Hrole.
  unfold sort_by in Hx. rewrite elem_of_stable_sort in Hx.
  destruct (Hl _ _ eq_refl Hx) as (w2 & [pk sk] & it & H2%others_kept & H21 & (Hit & Hpk & Hrange & _) & Hdx). cbn in Hpk, Hrange. subst pk.
  assert (decodeMembership it = Some x) as Hdec by (unfold decoded in Hdx; destruct (decodeMembership it); by simplify_eq).
  destruct (proj1 (members_kept_facts _ _ H2) Hkeyed _ _ _ Hrange Hit Hdec) as [Hkey _]. rewrite Hkey in Hit.
  exists it. split; [|by rewrite (decoded_role _ _ Hdec), Hrole]. rewrite <- Hit. apply kept_member, others_kept. by trans w1.
Qed.

(** The change itself: another owner is there, or an owner is made. *)
Lemma put_changed w m w' memberUserId :
  members_keyed w -> Membership.tenantId m = tenantId -> Membership.userId m = memberUserId ->
  Membership.role m = "owner" \/ (exists u, u <> memberUserId /\ owner_row w u) ->
  members_kept (with_tbl w (<[membershipKey (Membership.tenantId m) (Membership.userId m) := encodeMembership m]> (tbl w))) w' ->
  members_keyed w' /\ has_owner w'.
Proof.
  intros Hkeyed Ht Hu Hother Hk. set (w1 := with_tbl w _) in Hk.
  assert (members_keyed w1 /\ has_owner w1) as [? ?]; [|by apply members_kept_facts in Hk as [? ?]; auto]. unfold w1. split.
  - intros sk it x Hsk Hit Hdec. cbn [with_tbl tbl World.tbl] in Hit. rewrite Ht in Hit.
    destruct (decide (membershipKey tenantId (Membership.userId m) = (organizationPartition tenantId, sk))) as [Heq|Hne].
    + rewrite <- Heq, lookup_insert_eq in Hit. injection Hit as <-. apply encodeMembership_decoded in Hdec as [-> ->]. by rewrite <- Heq.
    + rewrite lookup_insert_ne in Hit by done. by apply (Hkeyed sk it).
  - destruct Hother as [Hm|(u & Hne & it & Hit & Hr)].
    + exists (Membership.userId m), (encodeMembership m). cbn [with_tbl tbl World.tbl]. rewrite Ht, lookup_insert_eq. by rewrite <- Hm.
    + exists u, it. cbn [with_tbl tbl World.tbl]. rewrite Ht, lookup_insert_ne; [done|]. unfold membershipKey. intros [= Heq].
      change (Membership.userId m = u) in Heq. congruence.
Qed.

(** What the guard of a change of role leaves to be true. *)
Lemma exec_guard pages memberUserId role m w it w' :
  members_keyed w -> has_owner w -> tbl w !! membershipKey tenantId memberUserId = Some it -> decodeMembership it = Some m ->
  exec I (if decide (Membership.role m = "owner" /\ role <> "owner") then
         let! memberships := listMemberships pages tenantId in
         if existsb (fun x => bool_decide (Membership.role x = "owner") && negb (bool_decide (Membership.userId x = memberUserId))) memberships
         then Ret tt else Throw (last_owner tenantId memberUserId)
       else Ret tt) w (Ok tt) w' ->
  role = "owner" \/ exists u, u <> memberUserId /\ owner_row w' u.
Proof using others_keep.
  intros Hkeyed (u & itu & Hitu & Hru) Hit Hdec Hex. destruct (decide (Membership.role m = "owner" /\ role <> "owner")) as [_|Hno].
  - right. apply exec_bind in Hex as [(memberships & w1 & Hlist & Hg)|(e & [=] & _)].
    destruct (existsb _ memberships) eqn:He; [|by destruct Hg]. apply existsb_exists in He as (x & Hx & [Hxo Hxu]%andb_true_iff).
    apply bool_decide_eq_true in Hxo. apply negb_true_iff, bool_decide_eq_false in Hxu. destruct Hg as [_ Hg%others_kept].
    apply list_elem_of_In in Hx. destruct (exec_listMemberships _ _ _ _ _ Hkeyed Hlist Hx Hxo) as (itx & Hitx & Hrx).
    exists (Membership.userId x). split; [done|]. exists itx. by rewrite (kept_member _ _ _ Hg).
  - destruct Hex as [_ Hw%others_kept]. destruct (decide (role = "owner")) as [|Hr]; [by left|right]. exists u. split.
    + intros ->. rewrite Hit in Hitu. injection Hitu as <-. rewrite (decoded_role _ _ Hdec) in Hru. injection Hru as Hru. tauto.
    + exists itu. by rewrite (kept_member _ _ _ Hw).
Qed.

Lemma exec_change_role pages memberUserId role w o w' :
  members_keyed w -> has_owner w -> exec I (change_role pages tenantId memberUserId role) w o w' -> members_keyed w' /\ has_owner w'.
Proof using others_keep.
  intros Hkeyed Howner Hex.
  assert (forall w', members_kept w w' -> members_keyed w' /\ has_owner w') as Hsame by (intros w1 [? ?]%members_kept_facts; auto).
  apply exec_bind in Hex as [(r & w1 & Hget & Hex)|(e & -> & [Hw _]%exec_get_decoded)]; [|by apply Hsame, others_kept].
  apply exec_get_record in Hget as (w2 & H2%others_kept & H21%others_kept & Hr).
  assert (members_kept w w1) as H1 by (by trans w2). destruct (Hsame w1 H1) as [Hkeyed1 Howner1].
  destruct r as [m|]; [|destruct Hex as [_ Hw%others_kept]; apply Hsame; by trans w1]. destruct Hr as (it & Hit & Hdec).
  destruct (Hsame w2 H2) as [Hkeyed2 _]. destruct (Hkeyed2 _ _ _ (member_sort_key memberUserId) Hit Hdec) as [Hkey Htenant]. injection Hkey as Huser.
  rewrite <- (kept_member _ _ _ H21) in Hit.
  apply exec_bind in Hex as [([] & w3 & Hguard & Hex)|(e & -> & Hguard)].
  2: { apply Hsame. trans w1; [done|]. apply others_kept. eapply reads_exec; [|exact Hguard]. solve_reads. }
  assert (members_kept w w3) as H3 by (trans w1; [done|]; apply others_kept; eapply reads_exec; [|exact Hguard]; solve_reads).
  pose proof (exec_guard _ _ _ _ _ _ _ Hkeyed1 Howner1 Hit Hdec Hguard) as Hother. destruct (Hsame w3 H3) as [Hkeyed3 Howner3].
  set (updated := m {{ Membership.role := role }}) in Hex.
  assert (forall o w', exec I (putMembership updated) w3 o w' -> members_keyed w' /\ has_owner w') as Hput.
  { intros o1 w1' [Hk|Hk]%exec_putMembership_any; [apply Hsame; by trans w3|].
    eapply (put_changed w3 updated w1' memberUserId); [done|done|done|exact Hother|exact Hk]. }
  apply exec_bind in Hex as [(u & w4 & Hex%Hput & [_ Hw%others_kept])|(e & -> & Hex)]; [|by eapply Hput].
  destruct Hex as [? ?]. apply members_kept_facts in Hw as [? ?]. auto.
Qed.

(** What holds of a program holds of it after a read. *)
Lemma after_reads {A B : Type} (p : prog A) (q : prog B) :
  reads p ->
  (forall w o w', members_keyed w -> has_owner w -> exec I q w o w' -> members_keyed w' /\ has_owner w') ->
  forall w o w', members_keyed w -> has_owner w -> exec I (p ;;; q) w o w' -> members_keyed w' /\ has_owner w'.
Proof using others_keep.
  intros Hp Hq w o w' Hkeyed Howner Hex.
  assert (forall w1, rtc I w w1 -> members_keyed w1 /\ has_owner w1) as Hsame by (intros w1 [? ?]%others_kept%members_kept_facts; auto).
  apply exec_bind in Hex as [(a & w1 & Hw%(reads_exec _ _ _ _ _ Hp) & Hex)|(e & -> & Hw%(reads_exec _ _ _ _ _ Hp))]; [|by apply Hsame].
  apply Hsame in Hw as [? ?]. by eapply Hq.
Qed.

(** C36: A change of role leaves an organization an owner: whatever the role that is given, whoever it is given to and whether the
    change is made, refused or broken off by a failure of the table, an organization that had an owner has one afterwards, while
    nobody else writes its members. *)
Theorem role_changes_keep_an_owner pages (by_owner : option string) memberUserId role w o w' :
  members_keyed w -> has_owner w ->
  exec I (match by_owner with
          | Some actorUserId => setMemberRole pages tenantId actorUserId memberUserId role
          | None => adminSetMemberRole pages tenantId memberUserId role
          end) w o w' ->
  members_keyed w' /\ has_owner w'.
Proof using others_keep.
  revert w o w'. destruct by_owner as [actorUserId|]; (apply after_reads; [solve_reads|]).
  - apply after_reads; [solve_reads|]. apply exec_change_role.
  - apply exec_change_role.
Qed.
End owners.

(** ** On the local service *)

Definition demo_lower (s : string) : string := s.
Definition demo_caller : option (prog string) := Some (Ret "111122223333").
Definition demo_local : Local := mkLocal 1798761600000 0.
Definition nobody_else (w w' : World) : Prop := False.

(** An organization of [ann] (her identifier is [id-0]) with an invitation ([id-1]) for [bob]. *)
Definition demo_seed : prog Invitation :=
  adminSeedOrganization demo_lower demo_caller "acme" "ann@example.com" "Acme" ;;;
  inviteByEmail demo_lower "acme" "id-0" "bob@example.com".
Definition seeded : World := (run demo_seed demo_local (World.mk ∅ [] [] [])).2.
Definition bob : Identity := Identity.mk "bob" "bob@example.com" 1798761600000.

(** Where [bob] has joined as a second owner. *)
Definition joined : World :=
  (run (acceptInvitation "id-1" bob ;;; setMemberRole 3 "acme" "id-0" "bob" "owner") demo_local seeded).2.

Abbreviation execs p w := (exec (H:=local_service) nobody_else p w).

Lemma run_execs {A : Type} (p : prog A) w : execs p w (run p demo_local w).1 (run p demo_local w).2.
Proof. apply run_exec. Qed.


Lemma status_changes_follow_the_life_cycle_witness :
  exists before w1, organization_at w1 "acme" before /\ Organization.status before = "enabled".
Proof.
  destruct (run (suspendOrganization "acme") demo_local seeded).1 as [e|o] eqn:Ho; [exfalso; vm_compute in Ho; discriminate Ho|].
  pose proof (run_execs (suspendOrganization "acme") seeded) as Hex. rewrite Ho in Hex.
  destruct (status_changes_follow_the_life_cycle (H:=local_service) nobody_else demo_caller ltac:(intros caller [= <-]; exact Logic.I) "acme" _ _ _ _ _ _
    (change_suspend _ _) Hex) as (before & w1 & w2 & _ & Hat & _ & _ & Hs & _).
  exists before, w1. exact (conj Hat Hs).
Defined.


(** [members_keyed] by looking at each item. *)
Definition keyed_items (tenantId : string) (w : World) : bool :=
  forallb (fun kit => negb (bool_decide (kit.1.1 = organizationPartition tenantId)) || negb (starts_with "member#" kit.1.2) ||
    match decodeMembership kit.2 with
    | Some m => bool_decide (kit.1 = membershipKey tenantId (Membership.userId m) /\ Membership.tenantId m = tenantId)
    | None => true
    end) (map_to_list (tbl w)).

Lemma keyed_items_ok tenantId w : keyed_items tenantId w = true -> members_keyed tenantId w.
Proof.
  unfold keyed_items. rewrite forallb_forall. intros Hall sk it m Hsk Hit Hdec.
  specialize (Hall ((organizationPartition tenantId, sk), it)). cbn [fst snd] in Hall. rewrite Hsk, Hdec, bool_decide_true in Hall by done.
  eapply bool_decide_eq_true_1, Hall. by apply list_elem_of_In, elem_of_map_to_list.
Qed.

(** The first owner steps down once there is a second one. *)
Lemma role_changes_keep_an_owner_witness :
  (run (setMemberRole 3 "acme" "bob" "id-0" "member") demo_local joined).1 = Ok (Membership.mk "acme" "id-0" "member" 1798761600000) /\
  has_owner "acme" (run (setMemberRole 3 "acme" "bob" "id-0" "member") demo_local joined).2.
Proof.
  split; [vm_compute; reflexivity|].
  refine (proj2 (role_changes_keep_an_owner (H:=local_service) nobody_else "acme" (fun w w' (HI : nobody_else w w') => False_ind _ HI) 3 (Some "bob") "id-0" "member"
    joined _ _ _ _ (run_execs (setMemberRole 3 "acme" "bob" "id-0" "member") joined))).
  - apply keyed_items_ok. vm_compute. reflexivity.
  - exists "bob". eexists. split; [vm_compute; reflexivity|reflexivity].
Defined.

(** ** Interleavings *)

(** A program after its first [n] requests: what is left of it, and the state. *)
Fixpoint advance {A : Type} (n : nat) (p : prog A) (l : Local) (w : World) : prog A * Local * World :=
  match n, p with
  | S n', Send r k => let '(x, w', l') := handle r l w in advance n' (k x) l' w'
  | _, _ => (p, l, w)
  end.

(** Others act where the program stands. *)
Lemma advance_exec {A : Type} (I : World -> World -> Prop) n (p q : prog A) l l' w w1 w2 o w' :
  advance n p l w = (q, l', w1) -> rtc I w1 w2 -> exec (H:=local_service) I q w2 o w' -> exec (H:=local_service) I p w o w'.
Proof.
  revert p l w. induction n as [|n IH]; intros p l w Hadv HI Hex.
  { injection Hadv as -> -> ->. by eapply exec_others. }
  destruct p as [a|e|R r k]; [injection Hadv as <- <- <-; by eapply exec_others..|]. cbn [advance] in Hadv.
  destruct (handle r l w) as [[x w3] l3] eqn:Hr. exists w, x, w3. split; [apply rtc_refl|]. split; [by exists l; rewrite Hr|]. by eapply IH.
Qed.

(** One run of a program to its end, with an answer that is no error. *)
Definition answers {A : Type} (p : prog A) (w w' : World) : Prop := exists a, exec (H:=local_service) nobody_else p w (Ok a) w'.

(** [p] up to its [n]-th request, then [q], then the rest of [p]: the outcome of [p], and the world. *)
Definition interleaved {A B : Type} (n : nat) (p : prog A) (q : prog B) (w : World) : (exn + A) * (exn + B) * World :=
  let '(rest, l, w1) := advance n p demo_local w in
  let '(oq, w2) := run q l w1 in
  let '(op, w3) := run rest l w2 in
  (op, oq, w3).

Lemma interleaved_exec {A B : Type} n (p : prog A) (q : prog B) w op b w' :
  interleaved n p q w = (op, Ok b, w') -> exec (H:=local_service) (answers q) p w op w'.
Proof.
  unfold interleaved. destruct (advance n p demo_local w) as [[rest l] w1] eqn:Ha.
  destruct (run q l w1) as [oq w2] eqn:Hq. destruct (run rest l w2) as [op' w3] eqn:Hp. intros [= -> -> ->].
  eapply advance_exec; [exact Ha| |].
  - apply rtc_once. exists b. pose proof (run_exec q l w1 nobody_else) as H. by rewrite Hq in H.
  - pose proof (run_exec rest l w2 (answers q)) as H. by rewrite Hp in H.
Qed.

(** ** A suspension that is lost *)

Definition set_ceiling : prog Organization := setMonthlyAwsSpendCeiling "acme" "id-0" (Decimal.mk 100 0).
Definition suspend : prog Organization := suspendOrganization "acme".

Definition status_of (w : World) (tenantId : string) : option string :=
  it ← tbl w !! organizationKey tenantId; Organization.status <$> organizationFromItem it.

(** ** Two owners who step down *)

Definition step_down (userId : string) : prog Membership := setMemberRole 3 "acme" userId userId "member".

(** The sort keys of the owners' rows. *)
Definition owners_of (w : World) (tenantId : string) : list string :=
  omap (fun kit => if decide (kit.1.1 = organizationPartition tenantId /\ required_string kit.2 "role" = Some "owner") then Some kit.1.2 else None)
    (map_to_list (tbl w)).

Lemma no_owner w tenantId : owners_of w tenantId = [] -> ~ has_owner tenantId w.
Proof.
  intros Hnone (u & it & Hit & Hr). assert ("member#" +:+ u ∈ owners_of w tenantId) as Hin; [|rewrite Hnone in Hin; by apply elem_of_nil in Hin].
  apply list_elem_of_omap. exists (membershipKey tenantId u, it). split; [by apply elem_of_map_to_list|]. cbn [fst snd membershipKey].
  by rewrite decide_True.
Qed.

(** An interleaving whose two processes are answered. *)
Lemma answered_interleaving {A B : Type} n (p : prog A) (q : prog B) w (P : A -> B -> World -> Prop) :
  match interleaved n p q w with (Ok a, Ok b, w') => P a b w' | _ => False end ->
  exists a b w', interleaved n p q w = (Ok a, Ok b, w') /\ exec (H:=local_service) (answers q) p w (Ok a) w' /\ P a b w'.
Proof.
  destruct (interleaved n p q w) as [[[e|a] [e'|b]] w'] eqn:E; try done. intros HP. exists a, b, w'. split_and!; [done| |done].
  by eapply interleaved_exec.
Qed.

(** What one process does to an organization, another can undo without knowing. An owner who sets the ceiling of an enabled
    organization while it is suspended puts it back enabled, though the suspension was answered; and two owners who step down at
    the same time are both let, each because of the other, and leave no owner. *)
Theorem concurrent_changes_undo_each_other :
  (exists updated suspended w', interleaved 2 set_ceiling suspend seeded = (Ok updated, Ok suspended, w') /\
     exec (H:=local_service) (answers suspend) set_ceiling seeded (Ok updated) w' /\
     Organization.status suspended = "suspended" /\ status_of w' "acme" = Some "enabled") /\
  (exists one other w', interleaved 4 (step_down "id-0") (step_down "bob") joined = (Ok one, Ok other, w') /\
     exec (H:=local_service) (answers (step_down "bob")) (step_down "id-0") joined (Ok one) w' /\
     has_owner "acme" joined /\ ~ has_owner "acme" w').
Proof.
  split.
  - apply (answered_interleaving _ _ _ _ (fun _ suspended w' => Organization.status suspended = "suspended" /\ status_of w' "acme" = Some "enabled")).
    vm_compute. split; reflexivity.
  - apply (answered_interleaving _ _ _ _ (fun _ _ w' => has_owner "acme" joined /\ ~ has_owner "acme" w')).
    assert (match interleaved 4 (step_down "id-0") (step_down "bob") joined with (Ok _, Ok _, w') => owners_of w' "acme" = [] | _ => False end) as Hnone
      by (vm_compute; reflexivity).
    destruct (interleaved _ _ _ _) as [[[e|a] [e'|b]] w']; try done. split; [|by apply no_owner].
    exists "bob". eexists. split; [vm_compute; reflexivity|reflexivity].
Qed.
