(* ===== verification/OrganizationCodec.v ===== *)
(** * The records of organizations survive their items

    What is decoded of an encoded organization, membership, invitation and identity is the record that was encoded, but for the
    milliseconds of its times and the trailing zeros of a ceiling. *)

From S2P Require Import Prelude Json Decimal Calendar Dates Types Service TurnCodec TurnStore ComputerStore Organizations Spend SpendTheorems.
From Stdlib Require Import QArith.
From coqutil Require Import Datatypes.RecordSetters.
Import DoubleBraceUpdate.
#[local] Open Scope Z_scope.

(** The moment a stored time gives back. *)
Definition whole_second (moment : Z) : Z := moment / 1000 * 1000.

Lemma optionalString_stored (it : item) (name s : string) : it !! name = Some (AS s) -> s <> EmptyString -> optionalString it name = Some s.
Proof. intros Hit Hs. unfold optionalString. rewrite Hit. by rewrite decide_False. Qed.

Lemma date_stored (it : item) (name : string) (moment : Z) :
  it !! name = Some (AS (formatIsoDateTime moment)) -> four_digit_year moment ->
  optionalString it name ≫= date_of_text = Some (whole_second moment).
Proof.
  intros Hit Hy. rewrite (optionalString_stored _ _ _ Hit).
  - cbn [mbind option_bind]. by apply date_of_formatIsoDateTime.
  - rewrite formatIsoDateTime_seconds. intros Heq. assert (String.length (iso_seconds moment +:+ "+00:00") = 0%nat) as Hl by (by rewrite Heq).
    rewrite string_length_app in Hl. cbn in Hl. lia.
Qed.

Lemma lookup_put_flag_ne (n m : string) (b : bool) (it : item) : n <> m -> put_flag n b it !! m = it !! m.
Proof. intros Hne. destruct b; cbn; [by rewrite lookup_insert_ne|done]. Qed.

Lemma lookup_put_flag_eq (n : string) (b : bool) (it : item) : it !! n = None -> put_flag n b it !! n = (if b then Some (ABOOL true) else None).
Proof. intros Hn. destruct b; cbn; [by rewrite lookup_insert_eq|done]. Qed.

Ltac other_attributes :=
  repeat first [rewrite lookup_put_if_ne by done | rewrite lookup_put_flag_ne by done].

Ltac own_attribute := first [rewrite lookup_put_if_eq by by other_attributes | rewrite lookup_put_flag_eq by by other_attributes].

(** An organization whose required texts are there, created in a year of four digits. *)
Definition storable_organization (o : Organization) : Prop :=
  Organization.tenantId o <> EmptyString /\ Organization.name o <> EmptyString /\ Organization.status o <> EmptyString /\
  Organization.ownerUserId o <> EmptyString /\ four_digit_year (Organization.createdAt o).

Lemma organization_round_trip (o : Organization) :
  storable_organization o ->
  exists ceiling, same_value ceiling (Organization.monthlyAwsSpendCeilingUsd o) /\
    organizationFromItem (encodeOrganization o) =
      Some (o {{ Organization.createdAt := whole_second (Organization.createdAt o); Organization.monthlyAwsSpendCeilingUsd := ceiling }}).
Proof.
  intros (Ht & Hn & Hs & Ho & Hy). unfold encodeOrganization. cbv zeta. set (base := list_to_map _ : item).
  destruct (optionalDecimal_put (put_flag "assisted_setup_session" (Organization.assistedSetupSession o)
    (put_if "setup_fee_cents" AN (Organization.setupFeeCents o) (put_if "aws_setup_path" AS (Organization.awsSetupPath o)
    (put_if "aws_external_id" AS (Organization.awsExternalId o) (put_if "aws_cross_account_role" AS (Organization.awsCrossAccountRole o)
    (put_if "aws_account_id" AS (Organization.awsAccountId o) base)))))) "monthly_aws_spend_ceiling_usd" (Organization.monthlyAwsSpendCeilingUsd o))
    as (ceiling & Hc & Hsame); [by other_attributes|].
  exists ceiling. split; [done|]. unfold organizationFromItem. rewrite Hc.
  rewrite (optionalString_stored _ "tenant_id" (Organization.tenantId o)) by (done || by other_attributes).
  rewrite (optionalString_stored _ "name" (Organization.name o)) by (done || by other_attributes).
  rewrite (optionalString_stored _ "status" (Organization.status o)) by (done || by other_attributes).
  rewrite (optionalString_stored _ "owner_user_id" (Organization.ownerUserId o)) by (done || by other_attributes).
  rewrite (date_stored _ "created_at" (Organization.createdAt o)) by (done || by other_attributes).
  cbn [mbind option_bind]. f_equal. destruct o as [t n s ow c aid role ext path fee session ceil]. cbn in *. f_equal.
  all: unfold required_string, optionalNumber, required_number, flag_or, optionalFlag; other_attributes; own_attribute.
  all: clear; by (destruct aid || destruct role || destruct ext || destruct path || destruct fee || destruct session).
Qed.

Lemma membership_round_trip (m : Membership) :
  Membership.tenantId m <> EmptyString -> Membership.userId m <> EmptyString -> Membership.role m <> EmptyString ->
  four_digit_year (Membership.joinedAt m) ->
  decodeMembership (encodeMembership m) = Some (m {{ Membership.joinedAt := whole_second (Membership.joinedAt m) }}).
Proof.
  intros Ht Hu Hr Hy. unfold decodeMembership.
  rewrite (optionalString_stored _ "tenant_id" (Membership.tenantId m)) by done.
  rewrite (optionalString_stored _ "user_id" (Membership.userId m)) by done.
  rewrite (optionalString_stored _ "role" (Membership.role m)) by done.
  rewrite (date_stored _ "joined_at" (Membership.joinedAt m)) by done. by destruct m.
Qed.

Lemma identity_round_trip (v : Identity) :
  Identity.userId v <> EmptyString -> Identity.email v <> EmptyString -> four_digit_year (Identity.createdAt v) ->
  decodeIdentity (encodeIdentity v) = Some (v {{ Identity.createdAt := whole_second (Identity.createdAt v) }}).
Proof.
  intros Hu He Hy. unfold decodeIdentity.
  rewrite (optionalString_stored _ "user_id" (Identity.userId v)) by done.
  rewrite (optionalString_stored _ "email" (Identity.email v)) by done.
  rewrite (date_stored _ "created_at" (Identity.createdAt v)) by done. by destruct v.
Qed.

Definition storable_invitation (i : Invitation) : Prop :=
  Invitation.invitationId i <> EmptyString /\ Invitation.tenantId i <> EmptyString /\ Invitation.email i <> EmptyString /\
  Invitation.invitedByUserId i <> EmptyString /\ Invitation.role i <> EmptyString /\ Invitation.status i <> EmptyString /\
  four_digit_year (Invitation.createdAt i).

Lemma invitation_round_trip (i : Invitation) :
  storable_invitation i ->
  decodeInvitation (encodeInvitation i) =
    Some (i {{ Invitation.expiresAt := whole_second (Invitation.expiresAt i); Invitation.createdAt := whole_second (Invitation.createdAt i) }}).
Proof.
  intros (Hi & Ht & He & Hb & Hr & Hs & Hy). unfold decodeInvitation.
  rewrite (optionalString_stored _ "invitation_id" (Invitation.invitationId i)) by done.
  rewrite (optionalString_stored _ "tenant_id" (Invitation.tenantId i)) by done.
  rewrite (optionalString_stored _ "email" (Invitation.email i)) by done.
  rewrite (optionalString_stored _ "invited_by_user_id" (Invitation.invitedByUserId i)) by done.
  rewrite (optionalString_stored _ "role" (Invitation.role i)) by done.
  rewrite (optionalString_stored _ "status" (Invitation.status i)) by done.
  rewrite (date_stored _ "created_at" (Invitation.createdAt i)) by done. by destruct i.
Qed.

(** C40: The records of an organization survive the table: each is decoded from its own item with every attribute, but for the
    milliseconds of its times, which are dropped downwards - so an invitation never outlives the time it was given - and the
    trailing zeros of a ceiling, whose value stays. *)
Theorem organization_records_round_trip (o : Organization) (m : Membership) (i : Invitation) :
  storable_organization o -> storable_invitation i ->
  Membership.tenantId m <> EmptyString -> Membership.userId m <> EmptyString -> Membership.role m <> EmptyString ->
  four_digit_year (Membership.joinedAt m) ->
  (exists ceiling, same_value ceiling (Organization.monthlyAwsSpendCeilingUsd o) /\
    organizationFromItem (encodeOrganization o) =
      Some (o {{ Organization.createdAt := whole_second (Organization.createdAt o); Organization.monthlyAwsSpendCeilingUsd := ceiling }})) /\
  decodeMembership (encodeMembership m) = Some (m {{ Membership.joinedAt := whole_second (Membership.joinedAt m) }}) /\
  decodeInvitation (encodeInvitation i) =
    Some (i {{ Invitation.expiresAt := whole_second (Invitation.expiresAt i); Invitation.createdAt := whole_second (Invitation.createdAt i) }}) /\
  whole_second (Invitation.expiresAt i) <= Invitation.expiresAt i.
Proof.
  intros Ho Hi Ht Hu Hr Hy. split_and!; [by apply organization_round_trip|by apply membership_round_trip|by apply invitation_round_trip|].
  unfold whole_second. pose proof (Z.mul_div_le (Invitation.expiresAt i) 1000 ltac:(done)). lia.
Qed.

Definition stored_organization : Organization :=
  Organization.mk "acme" "Acme" "enabled" "ann" 1798761600123 (Some "111122223333") None None (Some "anthus-managed") None true (Some (Decimal.mk 5000 2)).
Definition stored_invitation : Invitation :=
  Invitation.mk "invite" "acme" "bob@example.com" "ann" "member" "pending" 1799366400123 1798761600123.
Definition stored_membership : Membership := Membership.mk "acme" "ann" "owner" 1798761600123.

Lemma organization_records_round_trip_witness :
  decodeMembership (encodeMembership stored_membership) = Some (Membership.mk "acme" "ann" "owner" 1798761600000).
Proof.
  refine (proj1 (proj2 (organization_records_round_trip stored_organization stored_membership stored_invitation _ _ _ _ _ _)));
    [split_and!; try discriminate|split_and!; try discriminate|discriminate|discriminate|discriminate|]; vm_compute; split; discriminate.
Defined.
