(* ===== verification/PolicyStore.v ===== *)
(** * The policy store

    src/conversation/src/store/policy-store.ts with its codecs (store/codecs/approval.ts, rule.ts, connection.ts, standing.ts,
    list-util.ts) and keys (store/keys.ts), and the requests of the approval gate (policy/approval-binding.ts). These are the
    programs behind the calls that PolicyControl.v makes; [policy_impl] says which call is which program. The kind of a rule, the kind of
    its creator and the status of a connection are enumerations here: a text that is none of theirs, which the source casts, is a
    malformed item. *)

From S2P Require Import Prelude Json Decimal Dates Grant Policy PolicySinks Interaction PolicyControl.
From S2P Require Import Types Service Paging TurnCodec TurnStore LiveFiles Organizations.
#[local] Open Scope Z_scope.
#[local] Open Scope prog_scope.

(** ** Keys *)

Definition approvalKey (tenantId approvalId : string) : key := (tenantId +:+ "#approvals", "APPROVAL#" +:+ approvalId).
Definition ruleKey (tenantId ruleId : string) : key := (tenantId +:+ "#rules", "RULE#" +:+ ruleId).
Definition connectionKey (grantingTenantId proposalId : string) : key := (grantingTenantId +:+ "#connections", "CONN#" +:+ proposalId).
Definition memberCeilingKey (tenantId memberUserId actionType : string) : key :=
  (tenantId +:+ "#rules", "CEILING#" +:+ memberUserId +:+ "#" +:+ actionType).
Definition tenantConnectionEgressKey (tenantId : string) : key := (tenantId +:+ "#rules", "EGRESS#connection").
Definition refusalKey (tenantId refusalId : string) : key := (tenantId +:+ "#rules", "REFUSAL#" +:+ refusalId).

(** ** Lists in items *)

Definition encodeStringSet (values : gset string) : attr :=
  AL (stable_sort (fun left right => bool_decide (utf16_compare left right = Lt)) (elements values)).

(** The texts of a list; a list in it has none, and a text in a list of pairs is a pair of empty texts. *)
Definition texts_of (attribute : option attr) : list string :=
  match attribute with Some (AL texts) => texts | Some (APAIRS pairs) => (fun _ => EmptyString) <$> pairs | _ => [] end.

Definition decodeStringSet (attribute : option attr) : gset string := list_to_set (texts_of attribute).

Definition encodePairs (pairs : table) : attr := APAIRS pairs.
Definition decodePairs (attribute : option attr) : table := match attribute with Some (APAIRS pairs) => pairs | Some (AL texts) => (fun _ => (EmptyString, EmptyString)) <$> texts | _ => [] end.

(** ** Approvals *)

Module Stored.
Record StoredApproval : Type := mk {
  approvalId : string;
  tenantId : string;
  kind : ApprovalKind;
  actionType : string;
  destination : string;
  payload : string;
  approverKind : option string;
  approverId : option string;
}.
End Stored.
Abbreviation StoredApproval := Stored.StoredApproval.

Definition approval_kind_text (kind : ApprovalKind) : string :=
  match kind with approval_proposal => "proposal" | approval_approval => "approval" end.
Definition approval_kind_of_text (text : string) : option ApprovalKind :=
  if decide (text = "proposal") then Some approval_proposal else if decide (text = "approval") then Some approval_approval else None.

Definition actor_kind_text (kind : ActorKind) : string := match kind with actor_human => "human" | actor_bot => "bot" end.
Definition actor_kind_of_text (text : string) : option ActorKind :=
  if decide (text = "human") then Some actor_human else if decide (text = "bot") then Some actor_bot else None.

Definition encodeApproval (value : StoredApproval) : item :=
  let k := approvalKey (Stored.tenantId value) (Stored.approvalId value) in
  let base : item := list_to_map [
    ("pk", AS k.1); ("sk", AS k.2);
    ("tenant_id", AS (Stored.tenantId value));
    ("approval_id", AS (Stored.approvalId value));
    ("kind", AS (approval_kind_text (Stored.kind value)));
    ("action_type", AS (Stored.actionType value));
    ("destination", AS (Stored.destination value));
    ("payload", AS (Stored.payload value))] in
  let base := put_if "approver_kind" AS (Stored.approverKind value) base in
  put_if "approver_id" AS (Stored.approverId value) base.

(** [None] is the error of a malformed item, here and below. *)
Definition decodeApproval (it : item) : option StoredApproval :=
  kind ← optionalString it "kind" ≫= approval_kind_of_text;
  approvalId ← optionalString it "approval_id";
  tenantId ← optionalString it "tenant_id";
  actionType ← optionalString it "action_type";
  Some {|
    Stored.approvalId := approvalId;
    Stored.tenantId := tenantId;
    Stored.kind := kind;
    Stored.actionType := actionType;
    Stored.destination := text_or_empty it "destination";
    Stored.payload := text_or_empty it "payload";
    Stored.approverKind := required_string it "approver_kind";
    Stored.approverId := required_string it "approver_id" |}.

(** ** Rules and refusals *)

Definition rule_kind_text (kind : AutoReviewRuleKind) : string :=
  match kind with RequireApproval => "require_approval" | AlwaysAllow => "always_allow" | NeverAllow => "never_allow" end.
Definition rule_kind_of_text (text : string) : option AutoReviewRuleKind :=
  if decide (text = "require_approval") then Some RequireApproval
  else if decide (text = "always_allow") then Some AlwaysAllow
  else if decide (text = "never_allow") then Some NeverAllow else None.

Definition encodeRule (value : AutoReviewRule) : item :=
  let k := ruleKey (Rule.tenantId value) (Rule.ruleId value) in
  let base : item := list_to_map [
    ("pk", AS k.1); ("sk", AS k.2);
    ("tenant_id", AS (Rule.tenantId value));
    ("rule_id", AS (Rule.ruleId value));
    ("kind", AS (rule_kind_text (Rule.kind value)));
    ("action_type", AS (Rule.actionType value));
    ("argument_bindings", encodePairs (Rule.argumentBindings value));
    ("creator_kind", AS (actor_kind_text (actor_kind (Rule.creator value))));
    ("creator_id", AS (actorId (Rule.creator value)))] in
  put_if "user_id" AS (Rule.userId value) base.

Definition decodeRule (it : item) : option AutoReviewRule :=
  ruleId ← optionalString it "rule_id";
  tenantId ← optionalString it "tenant_id";
  kind ← optionalString it "kind" ≫= rule_kind_of_text;
  actionType ← optionalString it "action_type";
  creatorKind ← optionalString it "creator_kind" ≫= actor_kind_of_text;
  creatorId ← optionalString it "creator_id";
  Some {|
    Rule.ruleId := ruleId;
    Rule.kind := kind;
    Rule.actionType := actionType;
    Rule.tenantId := tenantId;
    Rule.userId := required_string it "user_id";
    Rule.argumentBindings := decodePairs (it !! "argument_bindings");
    Rule.creator := mkIdentity creatorKind creatorId |}.

Definition refusal_kind_text (kind : RefusalKind) : string :=
  match kind with bot_auto_review => "bot_auto_review" | authority_ceiling => "authority_ceiling" | connection => "connection" end.
Definition refusal_kind_of_text (text : string) : option RefusalKind :=
  if decide (text = "bot_auto_review") then Some bot_auto_review
  else if decide (text = "authority_ceiling") then Some authority_ceiling
  else if decide (text = "connection") then Some connection else None.

Definition encodeRefusal (value : Refusal) : item :=
  let k := refusalKey (refusal_tenantId value) (refusalId value) in
  list_to_map [
    ("pk", AS k.1); ("sk", AS k.2);
    ("tenant_id", AS (refusal_tenantId value));
    ("refusal_id", AS (refusalId value));
    ("kind", AS (refusal_kind_text (refusal_kind value)));
    ("fields", AL (fields value))].

Definition decodeRefusal (it : item) : option Refusal :=
  refusalId ← optionalString it "refusal_id";
  tenantId ← optionalString it "tenant_id";
  kind ← optionalString it "kind" ≫= refusal_kind_of_text;
  Some (mkRefusal refusalId tenantId kind (texts_of (it !! "fields"))).

(** ** Connections *)

Definition connection_status_text (status : ConnectionProposalStatus) : string :=
  match status with
  | Authorized => "authorized" | PolicyControl.Refused => "refused" | PendingEscalation => "pending_escalation" | Blocked => "blocked"
  end.
Definition connection_status_of_text (text : string) : option ConnectionProposalStatus :=
  if decide (text = "authorized") then Some Authorized
  else if decide (text = "refused") then Some PolicyControl.Refused
  else if decide (text = "pending_escalation") then Some PendingEscalation
  else if decide (text = "blocked") then Some Blocked else None.

Definition encodeConnection (value : ConnectionRecord) : item :=
  let proposal := Record_.proposal value in
  let k := connectionKey (Proposal.grantingTenantId proposal) (Proposal.proposalId proposal) in
  let base : item := list_to_map [
    ("pk", AS k.1); ("sk", AS k.2);
    ("proposal_id", AS (Proposal.proposalId proposal));
    ("granting_tenant_id", AS (Proposal.grantingTenantId proposal));
    ("receiving_tenant_id", AS (Proposal.receivingTenantId proposal));
    ("channel_id", AS (Proposal.channelId proposal));
    ("channel_name", AS (Proposal.channelName proposal));
    ("permission", AS (Proposal.permission proposal));
    ("proposer_user_id", AS (Proposal.proposerUserId proposal))] in
  let base := put_if "status" (AS ∘ connection_status_text) (Record_.status value) base in
  let base := put_if "escalation_target_user_id" AS (Record_.escalationTargetUserId value) base in
  let base := put_if "connection_id" (AS ∘ Connection.connectionId) (Record_.authorized value) base in
  let base := put_if "clipped_by_user_id" (AS ∘ Connection.clippedByUserId) (Record_.authorized value) base in
  put_if "created_at" (AS ∘ formatIsoDateTime ∘ Connection.createdAt) (Record_.authorized value) base.

Definition decodeConnection (it : item) : option ConnectionRecord :=
  proposalId ← optionalString it "proposal_id";
  grantingTenantId ← optionalString it "granting_tenant_id";
  receivingTenantId ← optionalString it "receiving_tenant_id";
  channelId ← optionalString it "channel_id";
  channelName ← optionalString it "channel_name";
  permission ← optionalString it "permission";
  proposerUserId ← optionalString it "proposer_user_id";
  authorized ← match required_string it "connection_id" with
               | None => Some None
               | Some connectionId =>
                   clippedByUserId ← optionalString it "clipped_by_user_id";
                   createdAt ← optionalString it "created_at" ≫= date_of_text;
                   Some (Some (Connection.mk connectionId grantingTenantId receivingTenantId channelId channelName permission
                     clippedByUserId createdAt))
               end;
  status ← match required_string it "status" with
           | None => Some None
           | Some text => status ← connection_status_of_text text; Some (Some status)
           end;
  Some (Record_.mk (Proposal.mk proposalId grantingTenantId receivingTenantId channelId channelName permission proposerUserId)
    status (required_string it "escalation_target_user_id") authorized).

(** ** Standing *)

(** The attributes of a ceiling, on top of an item. *)
Definition encodeBody (value : MemberAuthorityCeiling) (base : item) : item :=
  let ceiling := grantCeiling value in
  let base := <["action_types" := encodeStringSet (Ceiling.actionTypes ceiling)]> base in
  let base := <["origins" := encodeStringSet (Ceiling.origins ceiling)]> base in
  let base := <["recipients" := encodeStringSet (Ceiling.recipients ceiling)]> base in
  let base := <["file_scopes" := encodeStringSet (Ceiling.fileScopes ceiling)]> base in
  let base := <["egress_classes" := encodeStringSet (Ceiling.egressClasses ceiling)]> base in
  let base := <["ingest_classes" := encodeStringSet (Ceiling.ingestClasses ceiling)]> base in
  let base := <["structured_argument_bindings" := encodePairs (structuredArgumentBindings value)]> base in
  put_if "spend_limit" AN (Ceiling.spendLimit ceiling) base.

Definition encodeMemberCeiling (tenantId memberUserId actionType : string) (value : MemberAuthorityCeiling) : item :=
  let k := memberCeilingKey tenantId memberUserId actionType in
  encodeBody value (list_to_map [
    ("pk", AS k.1); ("sk", AS k.2);
    ("tenant_id", AS tenantId);
    ("member_user_id", AS memberUserId);
    ("action_type", AS actionType)]).

Definition encodeTenantConnectionEgress (tenantId : string) (value : MemberAuthorityCeiling) : item :=
  let k := tenantConnectionEgressKey tenantId in
  encodeBody value (list_to_map [("pk", AS k.1); ("sk", AS k.2); ("tenant_id", AS tenantId)]).

Definition decodeCeiling (it : item) : MemberAuthorityCeiling :=
  mkAuthority
    {| Ceiling.actionTypes := decodeStringSet (it !! "action_types");
       Ceiling.origins := decodeStringSet (it !! "origins");
       Ceiling.recipients := decodeStringSet (it !! "recipients");
       Ceiling.fileScopes := decodeStringSet (it !! "file_scopes");
       Ceiling.egressClasses := decodeStringSet (it !! "egress_classes");
       Ceiling.ingestClasses := decodeStringSet (it !! "ingest_classes");
       Ceiling.spendLimit := required_number it "spend_limit" |}
    (decodePairs (it !! "structured_argument_bindings")).

(** ** The store *)

Definition AlreadyExists (message : string) : exn := NamedError "PolicyItemAlreadyExistsError" message.
Definition NotFound (message : string) : exn := NamedError "PolicyItemNotFoundError" message.

Definition described (kind id : string) : string := kind +:+ " " +:+ json_text id.

Definition create (it : item) (description : string) : prog unit :=
  catch (send (PutItem it (AttrNotExists "pk")))
    (fun error => match error with
                  | ConditionalCheckFailedException => Throw (AlreadyExists ("The " +:+ description +:+ " already exists."))
                  | _ => Throw error
                  end).

Definition replace (it : item) (description : string) : prog unit :=
  catch (send (PutItem it (AttrExists "pk")))
    (fun error => match error with
                  | ConditionalCheckFailedException => Throw (NotFound ("The " +:+ description +:+ " does not exist."))
                  | _ => Throw error
                  end).

Definition createApproval (approval : StoredApproval) : prog unit := create (encodeApproval approval) (described "approval" (Stored.approvalId approval)).
Definition getApproval (tenantId approvalId : string) : prog (option StoredApproval) :=
  get_decoded decodeApproval "approval" (approvalKey tenantId approvalId).
Definition createRule (rule : AutoReviewRule) : prog unit := create (encodeRule rule) (described "rule" (Rule.ruleId rule)).
Definition createConnectionRecord (record : ConnectionRecord) : prog unit :=
  create (encodeConnection record) (described "connection" (Proposal.proposalId (Record_.proposal record))).
Definition replaceConnectionRecord (record : ConnectionRecord) : prog unit :=
  replace (encodeConnection record) (described "connection" (Proposal.proposalId (Record_.proposal record))).
Definition getConnectionRecord (grantingTenantId proposalId : string) : prog (option ConnectionRecord) :=
  get_decoded decodeConnection "connection" (connectionKey grantingTenantId proposalId).
Definition putMemberCeiling (tenantId memberUserId actionType : string) (ceiling : MemberAuthorityCeiling) : prog unit :=
  put (encodeMemberCeiling tenantId memberUserId actionType ceiling).
Definition getMemberCeiling (tenantId memberUserId actionType : string) : prog (option MemberAuthorityCeiling) :=
  get_decoded (fun it => Some (decodeCeiling it)) "ceiling" (memberCeilingKey tenantId memberUserId actionType).
Definition putTenantConnectionEgress (tenantId : string) (ceiling : MemberAuthorityCeiling) : prog unit :=
  put (encodeTenantConnectionEgress tenantId ceiling).
Definition getTenantConnectionEgress (tenantId : string) : prog (option MemberAuthorityCeiling) :=
  get_decoded (fun it => Some (decodeCeiling it)) "ceiling" (tenantConnectionEgressKey tenantId).
Definition createRefusal (refusal : Refusal) : prog unit := create (encodeRefusal refusal) (described "refusal" (refusalId refusal)).

Section lists.
Context (pages : nat).

(** The items of a partition are read whole, then decoded. *)
Definition list_decoded {A : Type} (decode : item -> option A) (what partitionKey sortKeyPrefix : string) : prog (list A) :=
  let! items := queryPrefix pages partitionKey sortKeyPrefix in
  match mapM decode items with Some l => Ret l | None => Throw (MalformedItem what) end.

Definition listRules (tenantId : string) : prog (list AutoReviewRule) := list_decoded decodeRule "rule" (tenantId +:+ "#rules") "RULE#".
Definition listConnectionRecords (grantingTenantId : string) : prog (list ConnectionRecord) :=
  list_decoded decodeConnection "connection" (grantingTenantId +:+ "#connections") "CONN#".
Definition listRefusals (tenantId : string) (kind : RefusalKind) : prog (list Refusal) :=
  let! refusals := list_decoded decodeRefusal "refusal" (tenantId +:+ "#rules") "REFUSAL#" in
  Ret (List.filter (fun refusal => bool_decide (refusal_kind refusal = kind)) refusals).

(** ** The approval gate *)

Definition operationsEqual (stored : StoredApproval) (o : StructuredConsequentialOperation) : bool :=
  bool_decide (Stored.actionType stored = Structured.actionType o) && bool_decide (Stored.destination stored = Structured.destination o) &&
  bool_decide (Stored.payload stored = Structured.payload o).

(** [proposeStructuredOperation] with the identifier it draws. *)
Definition gate_propose (tenantId proposalId : string) (o : StructuredConsequentialOperation) : prog unit :=
  if negb (is_consequential (Structured.actionType o))
  then Throw (JsError ("Action type " +:+ json_text (Structured.actionType o) +:+ " is not consequential."))
  else createApproval (Stored.mk proposalId tenantId approval_proposal (Structured.actionType o) (Structured.destination o) (Structured.payload o)
         None None).

(** [approveOperation] with the identifier it draws. *)
Definition gate_approve (tenantId newId proposalId : string) (o : StructuredConsequentialOperation) (resolvedApprover : AuthorizationIdentity) :
  prog ApprovedOperation :=
  let stale := JsError ("Unknown or stale proposal " +:+ json_text proposalId +:+ ".") in
  let! stored := getApproval tenantId proposalId in
  match stored with
  | None => Throw stale
  | Some stored =>
      if negb (bool_decide (Stored.kind stored = approval_proposal)) || negb (operationsEqual stored o) then Throw stale
      else
        catch (createApproval (Stored.mk newId tenantId approval_approval (Stored.actionType stored) (Stored.destination stored)
                 (Stored.payload stored) (Some (actor_kind_text (actor_kind resolvedApprover))) (Some (actorId resolvedApprover))))
          (fun error => match error with
                        | NamedError name _ =>
                            if decide (name = "PolicyItemAlreadyExistsError")
                            then Throw (JsError ("Approval " +:+ json_text newId +:+ " already exists.")) else Throw error
                        | _ => Throw error
                        end) ;;;
        Ret (mkApproved newId (Structured.mk (Stored.actionType stored) (Stored.destination stored) (Stored.payload stored)) resolvedApprover)
  end.

(** [executeApprovedOperation]. *)
Definition gate_execute (tenantId : string) (approval : ApprovedOperation) (attempted : StructuredConsequentialOperation) (evidence : string) :
  prog BoundExecutionResult :=
  let! stored := getApproval tenantId (approvalId approval) in
  let bound := stored ← stored;
    if bool_decide (Stored.kind stored <> approval_approval) then None
    else Some (Structured.mk (Stored.actionType stored) (Stored.destination stored) (Stored.payload stored)) in
  Ret match bound with
      | None => notExecuted NOT_APPROVED
      | Some bound =>
          if bool_decide (bound <> approved_operation approval) then notExecuted NOT_APPROVED
          else if bool_decide (Structured.actionType attempted <> Structured.actionType bound) then notExecuted NOT_APPROVED
          else if bool_decide (Structured.destination attempted <> Structured.destination bound) then notExecuted DESTINATION_CHANGED
          else if bool_decide (Structured.payload attempted <> Structured.payload bound) then notExecuted PAYLOAD_CHANGED
          else mkBound true None (Some evidence) false
      end.

(** ** The calls of policy control *)

(** The program behind a call that goes to the table. The others are the clock, the identifiers, the policies of the process,
    the members of a tenant and the acting member of a turn. *)
Definition policy_impl (R : Type) (r : control_call R) : option (prog R) :=
  match r in control_call T return option (prog T) with
  | Propose tenantId id o => Some (gate_propose tenantId id o)
  | Approve tenantId newId id o by_ => Some (gate_approve tenantId newId id o by_)
  | CreateRule rule => Some (createRule rule)
  | ListRules tenantId => Some (listRules tenantId)
  | CreateConnectionRecord record => Some (createConnectionRecord record)
  | ReplaceConnectionRecord record => Some (replaceConnectionRecord record)
  | GetConnectionRecord tenantId id => Some (getConnectionRecord tenantId id)
  | ListConnectionRecords tenantId => Some (listConnectionRecords tenantId)
  | PutMemberCeiling tenantId userId actionType ceiling => Some (putMemberCeiling tenantId userId actionType ceiling)
  | GetMemberCeiling tenantId userId actionType => Some (getMemberCeiling tenantId userId actionType)
  | PutTenantConnectionEgress tenantId ceiling => Some (putTenantConnectionEgress tenantId ceiling)
  | GetTenantConnectionEgress tenantId => Some (getTenantConnectionEgress tenantId)
  | CreateRefusal refusal => Some (createRefusal refusal)
  | ListRefusals tenantId kind => Some (listRefusals tenantId kind)
  | _ => None
  end.
End lists.
