(* ===== verification/PolicyStoreTheorems.v ===== *)
(** * The policy store implements what policy control is proved against

    Each record of the store survives its item. [implements] says which abstract stores ([ControlWorld]) a table holds, and
    every program of the store that ends well does at one moment what the interface promises of its call
    ([policy_store_implements_its_interface]), whatever other processes do. *)

From S2P Require Import Prelude Json Decimal Dates Grant Policy PolicySinks Interaction PolicyControl ControlTheorems.
From S2P Require Import Types Service Paging TurnCodec TurnStore LiveFiles Footprint Organizations SpendTheorems OrganizationTheorems OrganizationCodec Demo PolicyStore.
From coqutil Require Import Datatypes.RecordSetters.
Import DoubleBraceUpdate.
#[local] Open Scope Z_scope.
#[local] Open Scope prog_scope.

(** ** Round trips *)

Definition storable_rule (rule : AutoReviewRule) : Prop :=
  Rule.ruleId rule <> EmptyString /\ Rule.tenantId rule <> EmptyString /\ Rule.actionType rule <> EmptyString /\
  actorId (Rule.creator rule) <> EmptyString.

Ltac stored_text name value := rewrite (optionalString_stored _ name value) by (done || by rewrite ?lookup_put_if_ne by done).

Lemma required_string_put (name : string) (o : option string) (it : item) : it !! name = None -> required_string (put_if name AS o it) name = o.
Proof. intros H. unfold required_string. rewrite lookup_put_if_eq by done. by destruct o. Qed.

Lemma rule_kind_back (kind : AutoReviewRuleKind) : rule_kind_of_text (rule_kind_text kind) = Some kind.
Proof. by destruct kind. Qed.
Lemma actor_kind_back (kind : ActorKind) : actor_kind_of_text (actor_kind_text kind) = Some kind.
Proof. by destruct kind. Qed.
Lemma approval_kind_back (kind : ApprovalKind) : approval_kind_of_text (approval_kind_text kind) = Some kind.
Proof. by destruct kind. Qed.
Lemma refusal_kind_back (kind : RefusalKind) : refusal_kind_of_text (refusal_kind_text kind) = Some kind.
Proof. by destruct kind. Qed.
Lemma connection_status_back (status : ConnectionProposalStatus) : connection_status_of_text (connection_status_text status) = Some status.
Proof. by destruct status. Qed.

Lemma rule_round_trip (rule : AutoReviewRule) : storable_rule rule -> decodeRule (encodeRule rule) = Some rule.
Proof.
  intros (Hr & Ht & Ha & Hc). unfold decodeRule, encodeRule. cbv zeta. set (base := list_to_map _ : item).
  stored_text "rule_id" (Rule.ruleId rule). stored_text "tenant_id" (Rule.tenantId rule).
  rewrite (optionalString_stored _ "kind" (rule_kind_text (Rule.kind rule))) by ((by destruct (Rule.kind rule)) || by rewrite lookup_put_if_ne by done).
  cbn [mbind option_bind]. rewrite rule_kind_back. cbn [mbind option_bind]. stored_text "action_type" (Rule.actionType rule).
  rewrite (optionalString_stored _ "creator_kind" (actor_kind_text (actor_kind (Rule.creator rule))))
    by ((by destruct (actor_kind (Rule.creator rule))) || by rewrite lookup_put_if_ne by done).
  cbn [mbind option_bind]. rewrite actor_kind_back. cbn [mbind option_bind]. stored_text "creator_id" (actorId (Rule.creator rule)).
  cbn [mbind option_bind]. rewrite required_string_put by reflexivity. rewrite lookup_put_if_ne by done.
  by destruct rule as [? ? ? ? ? ? []].
Qed.

Definition storable_approval (a : StoredApproval) : Prop :=
  Stored.approvalId a <> EmptyString /\ Stored.tenantId a <> EmptyString /\ Stored.actionType a <> EmptyString.

Lemma approval_round_trip (a : StoredApproval) : storable_approval a -> decodeApproval (encodeApproval a) = Some a.
Proof.
  intros (Hi & Ht & Ha). unfold decodeApproval, encodeApproval. cbv zeta. set (base := list_to_map _ : item).
  rewrite (optionalString_stored _ "kind" (approval_kind_text (Stored.kind a))) by ((by destruct (Stored.kind a)) || by rewrite !lookup_put_if_ne by done).
  cbn [mbind option_bind]. rewrite approval_kind_back. cbn [mbind option_bind].
  stored_text "approval_id" (Stored.approvalId a). stored_text "tenant_id" (Stored.tenantId a). stored_text "action_type" (Stored.actionType a).
  cbn [mbind option_bind]. unfold text_or_empty. rewrite required_string_put by (by rewrite lookup_put_if_ne by done).
  unfold required_string. rewrite !lookup_put_if_ne by done. rewrite lookup_put_if_eq by reflexivity.
  destruct a as [i t k ac d p ak ai]. by destruct ak.
Qed.

Definition storable_refusal (r : Refusal) : Prop := refusalId r <> EmptyString /\ refusal_tenantId r <> EmptyString.

Lemma refusal_round_trip (r : Refusal) : storable_refusal r -> decodeRefusal (encodeRefusal r) = Some r.
Proof.
  intros (Hi & Ht). unfold decodeRefusal. stored_text "refusal_id" (refusalId r). stored_text "tenant_id" (refusal_tenantId r).
  rewrite (optionalString_stored _ "kind" (refusal_kind_text (refusal_kind r))) by (done || by destruct (refusal_kind r)).
  cbn [mbind option_bind]. rewrite refusal_kind_back. by destruct r.
Qed.

(** A connection as it is read back: the moment it was opened at without its milliseconds. *)
Definition stored_connection (record : ConnectionRecord) : ConnectionRecord :=
  record {{ Record_.authorized := (fun a => a {{ Connection.createdAt := whole_second (Connection.createdAt a) }}) <$> Record_.authorized record }}.

Definition storable_connection (record : ConnectionRecord) : Prop :=
  let p := Record_.proposal record in
  Proposal.proposalId p <> EmptyString /\ Proposal.grantingTenantId p <> EmptyString /\ Proposal.receivingTenantId p <> EmptyString /\
  Proposal.channelId p <> EmptyString /\ Proposal.channelName p <> EmptyString /\ Proposal.permission p <> EmptyString /\
  Proposal.proposerUserId p <> EmptyString /\
  forall a, Record_.authorized record = Some a ->
    a = authorizeConnectionFromProposal p (Connection.clippedByUserId a) (Connection.createdAt a) (Connection.connectionId a) /\
    Connection.clippedByUserId a <> EmptyString /\ four_digit_year (Connection.createdAt a).

Lemma connection_round_trip (record : ConnectionRecord) :
  storable_connection record -> decodeConnection (encodeConnection record) = Some (stored_connection record).
Proof.
  intros (Hi & Hg & Hr & Hc & Hn & Hp & Hu & Ha). destruct record as [p st esc auth].
  cbn [Record_.proposal Record_.status Record_.escalationTargetUserId Record_.authorized] in *.
  set (it := encodeConnection _). unfold decodeConnection.
  assert (forall n v, v <> EmptyString -> it !! n = Some (AS v) -> optionalString it n = Some v) as Htext by (intros; by apply optionalString_stored).
  rewrite (Htext "proposal_id" (Proposal.proposalId p)), (Htext "granting_tenant_id" (Proposal.grantingTenantId p)),
    (Htext "receiving_tenant_id" (Proposal.receivingTenantId p)), (Htext "channel_id" (Proposal.channelId p)),
    (Htext "channel_name" (Proposal.channelName p)), (Htext "permission" (Proposal.permission p)),
    (Htext "proposer_user_id" (Proposal.proposerUserId p)) by (done || by destruct st, esc, auth).
  cbn [mbind option_bind].
  assert (required_string it "connection_id" = Connection.connectionId <$> auth) as -> by by destruct st, esc, auth.
  assert (required_string it "status" = connection_status_text <$> st) as -> by by destruct st, esc, auth.
  assert (required_string it "escalation_target_user_id" = esc) as -> by by destruct st, esc, auth.
  assert (match connection_status_text <$> st with
          | Some text => status ← connection_status_of_text text; Some (Some status)
          | None => Some None
          end = Some st) as Hst by (destruct st as [status|]; [cbn [fmap option_fmap option_map]; by rewrite connection_status_back|done]).
  destruct auth as [a|]; cbn [fmap option_fmap option_map].
  - destruct (Ha a eq_refl) as (Heq & Hclip & Hyear).
    rewrite (Htext "clipped_by_user_id" (Connection.clippedByUserId a)) by (done || by destruct st, esc).
    rewrite (date_stored it "created_at" (Connection.createdAt a)) by (done || by destruct st, esc).
    cbn [mbind option_bind] in *. rewrite Hst. cbn [mbind option_bind]. unfold stored_connection. cbn. f_equal. f_equal; [by destruct p|].
    f_equal. by rewrite Heq.
  - cbn [mbind option_bind] in *. rewrite Hst. cbn [mbind option_bind]. by destruct p.
Qed.

Lemma sorted_set_back (values : gset string) : decodeStringSet (Some (encodeStringSet values)) = values.
Proof. unfold decodeStringSet, encodeStringSet. cbn [texts_of]. apply set_eq. intros v. rewrite elem_of_list_to_set, elem_of_stable_sort, elem_of_elements. done. Qed.

Lemma ceiling_round_trip (value : MemberAuthorityCeiling) (base : item) :
  base !! "spend_limit" = None -> decodeCeiling (encodeBody value base) = value.
Proof.
  intros Hb. unfold decodeCeiling, encodeBody. cbv zeta. unfold required_number. rewrite lookup_put_if_eq by (by rewrite !lookup_insert_ne by done).
  rewrite !lookup_put_if_ne by done. repeat (rewrite lookup_insert_eq || rewrite lookup_insert_ne by done). rewrite !sorted_set_back. cbn [decodePairs encodePairs].
  destruct value as [[? ? ? ? ? ? limit] pairs]. by destruct limit.
Qed.

(** ** The abstract stores *)

(** An item of the gate as policy control sees it. *)
Definition approval_of (a : StoredApproval) : ApprovalItem :=
  mkApproval (Stored.kind a) (Structured.mk (Stored.actionType a) (Stored.destination a) (Stored.payload a))
    (kind ← Stored.approverKind a ≫= actor_kind_of_text; id ← Stored.approverId a; Some (mkIdentity kind id)).

(** No separator in an identifier. *)
Definition plain_id (s : string) : Prop := string_has (Ascii.ascii_of_nat 35) s = false.

Definition item_has_pk (w : World) : Prop := forall k it, tbl w !! k = Some it -> is_Some (it !! "pk").

Record implements (w : World) (cw : ControlWorld) : Prop := mk_implements {
  keyed : item_has_pk w;
  gates_ok : forall t id, gate cw t !! id = approval_of <$> (tbl w !! approvalKey t id ≫= decodeApproval);
  rules_ok : forall t id, rules cw !! (t, id) = tbl w !! ruleKey t id ≫= decodeRule;
  connections_ok : forall t id, connections cw !! (t, id) = tbl w !! connectionKey t id ≫= decodeConnection;
  connections_read : forall t id it, tbl w !! connectionKey t id = Some it -> is_Some (decodeConnection it);
  ceilings_ok : forall t u a, plain_id u -> memberCeilings cw !! (t, u, a) = decodeCeiling <$> tbl w !! memberCeilingKey t u a;
  egress_ok : forall t, connectionEgress cw !! t = decodeCeiling <$> tbl w !! tenantConnectionEgressKey t;
  refusals_ok : forall t id, refusals cw !! (t, id) = tbl w !! refusalKey t id ≫= decodeRefusal;
}.

(** ** Keys *)

Lemma append_inv_r (a b t : string) : a +:+ t = b +:+ t -> a = b.
Proof. intros H. by rewrite <- (drop_end_app a t), H, drop_end_app. Qed.

Lemma plain_split (a b s t : string) : plain_id a -> plain_id b -> a +:+ "#" +:+ s = b +:+ "#" +:+ t -> a = b /\ s = t.
Proof.
  unfold plain_id. revert b. induction a as [|c a IH]; intros [|d b] Ha Hb H; cbn in *; [by injection H| | |].
  - injection H as <- _. done.
  - injection H as -> _. done.
  - injection H as -> H. apply orb_false_iff in Ha as [_ Ha]. apply orb_false_iff in Hb as [_ Hb]. by destruct (IH b Ha Hb H) as [-> ->].
Qed.

Lemma approvalKey_inj t id t' id' : approvalKey t id = approvalKey t' id' -> t = t' /\ id = id'.
Proof. intros [= ->%append_inv_r H]. exact (conj eq_refl H). Qed.
Lemma ruleKey_inj t id t' id' : ruleKey t id = ruleKey t' id' -> t = t' /\ id = id'.
Proof. intros [= ->%append_inv_r H]. exact (conj eq_refl H). Qed.
Lemma connectionKey_inj t id t' id' : connectionKey t id = connectionKey t' id' -> t = t' /\ id = id'.
Proof. intros [= ->%append_inv_r H]. exact (conj eq_refl H). Qed.
Lemma refusalKey_inj t id t' id' : refusalKey t id = refusalKey t' id' -> t = t' /\ id = id'.
Proof. intros [= ->%append_inv_r H]. exact (conj eq_refl H). Qed.
Lemma memberCeilingKey_inj t u a t' u' a' :
  plain_id u -> plain_id u' -> memberCeilingKey t u a = memberCeilingKey t' u' a' -> t = t' /\ u = u' /\ a = a'.
Proof. intros Hu Hu' [= ->%append_inv_r H]. by apply plain_split in H as [-> ->]. Qed.
Lemma tenantConnectionEgressKey_inj t t' : tenantConnectionEgressKey t = tenantConnectionEgressKey t' -> t = t'.
Proof. intros [= ->%append_inv_r]. done. Qed.

(** Items of different kinds have different sort keys. *)
Ltac other_key := let H := fresh in intros H; apply (f_equal snd) in H; discriminate H.

(** ** Writes *)

Definition written (w : World) (k : key) (it : item) : World := with_tbl w (<[k := it]> (tbl w)).

Lemma written_pk w k it : item_has_pk w -> is_Some (it !! "pk") -> item_has_pk (written w k it).
Proof. intros Hw Hit k' it'. cbn. rewrite lookup_insert_Some. intros [[_ <-]|[_ H]]; [done|by eapply Hw]. Qed.

Ltac kept_field Hok := intros; cbn [written with_tbl tbl World.tbl]; rewrite lookup_insert_ne by other_key; by apply Hok.

Lemma written_approval w cw t id it a g :
  implements w cw -> decodeApproval it = Some a -> is_Some (it !! "pk") -> g = <[id := approval_of a]> (gate cw t) ->
  implements (written w (approvalKey t id) it) (cw {{ gates := <[t := g]> (gates cw) }}).
Proof.
  intros Hi Hd Hpk ->. destruct Hi as [Hk Hg Hr Hc Hcr Hm He Hf]. split; cbn; unfold constant; [by apply written_pk| |kept_field Hr|kept_field Hc| |kept_field Hm|kept_field He|kept_field Hf].
  - intros t' id'. unfold gate. cbn. unfold constant. destruct (decide (t' = t)) as [->|Ht].
    + rewrite lookup_insert_eq. cbn. destruct (decide (id' = id)) as [->|Hid].
      * rewrite !lookup_insert_eq. cbn. by rewrite Hd.
      * rewrite !lookup_insert_ne by (done || intros H%approvalKey_inj; naive_solver). apply Hg.
    + rewrite !lookup_insert_ne by (done || intros H%approvalKey_inj; naive_solver). apply Hg.
  - intros t' id' it'. rewrite lookup_insert_ne by other_key. apply Hcr.
Qed.

Lemma written_rule w cw t id it rule :
  implements w cw -> decodeRule it = Some rule -> is_Some (it !! "pk") ->
  implements (written w (ruleKey t id) it) (cw {{ rules := <[(t, id) := rule]> (rules cw) }}).
Proof.
  intros Hi Hd Hpk. destruct Hi as [Hk Hg Hr Hc Hcr Hm He Hf]. split; cbn; unfold constant; [by apply written_pk|kept_field Hg| |kept_field Hc| |kept_field Hm|kept_field He|kept_field Hf].
  - intros t' id'. destruct (decide ((t', id') = (t, id))) as [[= -> ->]|Hne]; [by rewrite !lookup_insert_eq|].
    rewrite !lookup_insert_ne by (done || intros H%ruleKey_inj; naive_solver). apply Hr.
  - intros t' id' it'. rewrite lookup_insert_ne by other_key. apply Hcr.
Qed.

Lemma written_connection w cw t id it record :
  implements w cw -> decodeConnection it = Some record -> is_Some (it !! "pk") ->
  implements (written w (connectionKey t id) it) (cw {{ connections := <[(t, id) := record]> (connections cw) }}).
Proof.
  intros Hi Hd Hpk. destruct Hi as [Hk Hg Hr Hc Hcr Hm He Hf]. split; cbn; unfold constant; [by apply written_pk|kept_field Hg|kept_field Hr| | |kept_field Hm|kept_field He|kept_field Hf].
  - intros t' id'. destruct (decide ((t', id') = (t, id))) as [[= -> ->]|Hne]; [by rewrite !lookup_insert_eq|].
    rewrite !lookup_insert_ne by (done || intros H%connectionKey_inj; naive_solver). apply Hc.
  - intros t' id' it'. rewrite lookup_insert_Some. intros [[_ <-]|[_ H]]; [by rewrite Hd|by eapply Hcr].
Qed.

Lemma written_ceiling w cw t u a it :
  plain_id u -> implements w cw -> is_Some (it !! "pk") ->
  implements (written w (memberCeilingKey t u a) it) (cw {{ memberCeilings := <[(t, u, a) := decodeCeiling it]> (memberCeilings cw) }}).
Proof.
  intros Hu Hi Hpk. destruct Hi as [Hk Hg Hr Hc Hcr Hm He Hf]. split; cbn; unfold constant; [by apply written_pk|kept_field Hg|kept_field Hr|kept_field Hc| | |kept_field He|kept_field Hf].
  - intros t' id' it'. rewrite lookup_insert_ne by other_key. apply Hcr.
  - intros t' u' a' Hu'. destruct (decide ((t', u', a') = (t, u, a))) as [[= -> -> ->]|Hne]; [by rewrite !lookup_insert_eq|].
    rewrite !lookup_insert_ne by (done || intros H%memberCeilingKey_inj; naive_solver). by apply Hm.
Qed.

Lemma written_egress w cw t it :
  implements w cw -> is_Some (it !! "pk") ->
  implements (written w (tenantConnectionEgressKey t) it) (cw {{ connectionEgress := <[t := decodeCeiling it]> (connectionEgress cw) }}).
Proof.
  intros Hi Hpk. destruct Hi as [Hk Hg Hr Hc Hcr Hm He Hf]. split; cbn; unfold constant; [by apply written_pk|kept_field Hg|kept_field Hr|kept_field Hc| |kept_field Hm| |kept_field Hf].
  - intros t' id' it'. rewrite lookup_insert_ne by other_key. apply Hcr.
  - intros t'. destruct (decide (t' = t)) as [->|Hne]; [by rewrite !lookup_insert_eq|].
    rewrite !lookup_insert_ne by (done || intros H%tenantConnectionEgressKey_inj; naive_solver). apply He.
Qed.

Lemma written_refusal w cw t id it refusal :
  implements w cw -> decodeRefusal it = Some refusal -> is_Some (it !! "pk") ->
  implements (written w (refusalKey t id) it) (cw {{ refusals := <[(t, id) := refusal]> (refusals cw) }}).
Proof.
  intros Hi Hd Hpk. destruct Hi as [Hk Hg Hr Hc Hcr Hm He Hf]. split; cbn; unfold constant; [by apply written_pk|kept_field Hg|kept_field Hr|kept_field Hc| |kept_field Hm|kept_field He|].
  - intros t' id' it'. rewrite lookup_insert_ne by other_key. apply Hcr.
  - intros t' id'. destruct (decide ((t', id') = (t, id))) as [[= -> ->]|Hne]; [by rewrite !lookup_insert_eq|].
    rewrite !lookup_insert_ne by (done || intros H%refusalKey_inj; naive_solver). apply Hf.
Qed.

(** ** Programs *)

Section exec.
Context `{Service} (I : World -> World -> Prop).

(** What a conditional put that worked has done, and that one that did not work has done nothing. *)
Lemma exec_send_put (it : item) c k w o w' :
  item_key it = Some k -> exec I (send (PutItem it c)) w o w' ->
  match o with
  | Ok _ => exists w1, rtc I w w1 /\ holds c (item_at w1 k) = true /\ rtc I (written w1 k it) w'
  | Err _ => rtc I w w'
  end.
Proof.
  intros Hk Hex. destruct o as [e|u]; [by apply exec_send_fails in Hex as [? _]|].
  apply exec_send in Hex as (w1 & w2 & H1 & (k' & Hk' & Hc & ->)%respond_contract & H2). rewrite Hk in Hk'. injection Hk' as <-. by exists w1.
Qed.

Lemma exec_renamed {A : Type} (p : prog A) (h : exn -> exn) (handler : exn -> prog A) w o w' :
  (forall e, handler e = Throw (h e)) -> exec I (catch p handler) w o w' ->
  (exists a, o = Ok a /\ exec I p w (Ok a) w') \/ (exists e, o = Err (h e) /\ exec I p w (Err e) w').
Proof.
  intros Hh [(a & -> & Hex)|(e & w1 & Hex & Hx)]%exec_catch; [left; by exists a|].
  rewrite Hh in Hx. destruct Hx as [-> Hx]. right. exists e. split; [done|by eapply exec_others_r].
Qed.

Lemma exec_create (it : item) d k w o w' :
  item_key it = Some k -> exec I (create it d) w o w' ->
  match o with
  | Ok _ => exists w1, rtc I w w1 /\ item_at w1 k !! "pk" = None /\ rtc I (written w1 k it) w'
  | Err _ => rtc I w w'
  end.
Proof.
  intros Hk [(a & -> & Hex)|(e & -> & Hex)]%(exec_renamed _ (fun e => match e with
    ConditionalCheckFailedException => AlreadyExists ("The " +:+ d +:+ " already exists.") | _ => e end)).
  - apply (exec_send_put _ _ _ _ _ _ Hk) in Hex as (w1 & H1 & Hc & H2). exists w1. split_and!; [done| |done].
    cbn in Hc. destruct (item_at w1 k !! "pk"); done.
  - by apply (exec_send_put _ _ _ _ _ _ Hk) in Hex.
  - by intros [].
Qed.

Lemma exec_replace (it : item) d k w o w' :
  item_key it = Some k -> exec I (replace it d) w o w' ->
  match o with
  | Ok _ => exists w1, rtc I w w1 /\ is_Some (item_at w1 k !! "pk") /\ rtc I (written w1 k it) w'
  | Err _ => rtc I w w'
  end.
Proof.
  intros Hk [(a & -> & Hex)|(e & -> & Hex)]%(exec_renamed _ (fun e => match e with
    ConditionalCheckFailedException => NotFound ("The " +:+ d +:+ " does not exist.") | _ => e end)).
  - apply (exec_send_put _ _ _ _ _ _ Hk) in Hex as (w1 & H1 & Hc & H2). exists w1. split_and!; [done| |done].
    cbn in Hc. destruct (item_at w1 k !! "pk"); done.
  - by apply (exec_send_put _ _ _ _ _ _ Hk) in Hex.
  - by intros [].
Qed.

(** ** The calls *)

(** What a call may be given to store: identifiers and actions that are not empty, and members without a separator in their
    identifier. *)
Definition storable_call {R : Type} (r : control_call R) : Prop :=
  match r with
  | Propose tenantId id o => tenantId <> EmptyString /\ id <> EmptyString /\ Structured.actionType o <> EmptyString
  | Approve tenantId newId _ o _ => tenantId <> EmptyString /\ newId <> EmptyString /\ Structured.actionType o <> EmptyString
  | CreateRule rule => storable_rule rule
  | CreateConnectionRecord record | ReplaceConnectionRecord record => storable_connection record
  | PutMemberCeiling _ userId _ _ | GetMemberCeiling _ userId _ => plain_id userId
  | CreateRefusal refusal => storable_refusal refusal
  | _ => True
  end.

(** The call as the table takes it. *)
Definition stored_call {R : Type} (r : control_call R) : control_call R :=
  match r in control_call T return control_call T with
  | CreateConnectionRecord record => CreateConnectionRecord (stored_connection record)
  | ReplaceConnectionRecord record => ReplaceConnectionRecord (stored_connection record)
  | r => r
  end.

(** A list needs a partition nobody writes to while it is read. *)
Definition listable (pages : nat) {R : Type} (r : control_call R) (w : World) : Prop :=
  match r with
  | ListRules tenantId | ListRefusals tenantId _ => quiet I (tenantId +:+ "#rules") /\ (size (tbl w) < pages)%nat
  | ListConnectionRecords tenantId => quiet I (tenantId +:+ "#connections") /\ (size (tbl w) < pages)%nat
  | _ => True
  end.

(** At one moment between [w] and [w'] the call was answered with [v], as the interface says, on whatever the table held. *)
Definition takes_effect {R : Type} (r : control_call R) (w : World) (v : R) (w' : World) : Prop :=
  exists w1 w2, rtc I w w1 /\ rtc I w2 w' /\
    forall cw, implements w1 cw -> exists cw', control_answered (stored_call r) cw v cw' /\ implements w2 cw'.

(** An item of the gate stays as it is. *)
Definition approvals_stay (w w' : World) : Prop :=
  forall t id it, tbl w !! approvalKey t id = Some it -> tbl w' !! approvalKey t id = Some it.

Lemma approvals_stay_others (w w' : World) : (forall w w', I w w' -> approvals_stay w w') -> rtc I w w' -> approvals_stay w w'.
Proof using Type. intros Hi. induction 1 as [|w w1 w2 H1 _ IH]; [by intros t id it|]. intros t id it Hit. by apply IH, (Hi _ _ H1). Qed.

Lemma free_key (w : World) (k : key) : item_has_pk w -> item_at w k !! "pk" = None -> tbl w !! k = None.
Proof using Type. intros Hw Hk. unfold item_at in Hk. destruct (tbl w !! k) as [it|] eqn:E; [|done]. destruct (Hw _ _ E) as [v Hv]. cbn in Hk. by rewrite Hv in Hk. Qed.

Lemma taken_key (w : World) (k : key) : is_Some (item_at w k !! "pk") -> is_Some (tbl w !! k).
Proof using Type. unfold item_at. destruct (tbl w !! k) as [it|]; [by eexists|]. intros [v Hv]. cbn in Hv. by rewrite lookup_empty in Hv. Qed.

Lemma encodeApproval_key (a : StoredApproval) : item_key (encodeApproval a) = Some (approvalKey (Stored.tenantId a) (Stored.approvalId a)).
Proof using Type. by destruct a as [? ? ? ? ? ? [] []]. Qed.
Lemma encodeRule_key (rule : AutoReviewRule) : item_key (encodeRule rule) = Some (ruleKey (Rule.tenantId rule) (Rule.ruleId rule)).
Proof using Type. by destruct rule as [? ? ? ? [] ? ?]. Qed.
Lemma encodeRefusal_key (r : Refusal) : item_key (encodeRefusal r) = Some (refusalKey (refusal_tenantId r) (refusalId r)).
Proof using Type. done. Qed.
Lemma encodeConnection_key (record : ConnectionRecord) :
  item_key (encodeConnection record) = Some (connectionKey (record_key record).1 (record_key record).2).
Proof using Type. by destruct record as [? [] [] []]. Qed.
Lemma encodeMemberCeiling_key t u a c : item_key (encodeMemberCeiling t u a c) = Some (memberCeilingKey t u a).
Proof using Type. by destruct c as [[? ? ? ? ? ? []] ?]. Qed.
Lemma encodeTenantConnectionEgress_key t c : item_key (encodeTenantConnectionEgress t c) = Some (tenantConnectionEgressKey t).
Proof using Type. by destruct c as [[? ? ? ? ? ? []] ?]. Qed.

Lemma item_key_pk (it : item) (k : key) : item_key it = Some k -> is_Some (it !! "pk").
Proof using Type. unfold item_key. by destruct (it !! "pk"). Qed.

Lemma create_takes_effect (r : control_call unit) (it : item) d k w w' :
  item_key it = Some k -> exec I (create it d) w (Ok tt) w' ->
  (forall w1 cw, implements w1 cw -> tbl w1 !! k = None -> exists cw', control_answered (stored_call r) cw tt cw' /\ implements (written w1 k it) cw') ->
  takes_effect r w tt w'.
Proof using Type.
  intros Hk (w1 & H1 & Hfree & H2)%(exec_create _ _ _ _ _ _ Hk) Heff. exists w1, (written w1 k it). split_and!; [done..|].
  intros cw Hi. apply Heff; [done|]. apply free_key; [apply Hi|done].
Qed.

Lemma read_takes_effect {A : Type} (r : control_call (option A)) (decode : item -> option A) what k w v w' :
  exec I (get_decoded decode what k) w (Ok v) w' ->
  (forall w1 cw, implements w1 cw -> v = tbl w1 !! k ≫= decode -> control_answered (stored_call r) cw v cw) ->
  takes_effect r w v w'.
Proof using Type.
  intros (w1 & H1 & H2 & Hv)%exec_get_record Heff. exists w1, w1. split_and!; [done..|]. intros cw Hi. exists cw. split; [|done].
  apply Heff with w1; [done|]. destruct v as [a|]; [destruct Hv as (it & -> & Hd); by rewrite <- Hd|by rewrite Hv].
Qed.

Lemma rule_created rule w w' : storable_rule rule -> exec I (createRule rule) w (Ok tt) w' -> takes_effect (CreateRule rule) w tt w'.
Proof using Type.
  intros Hs Hex. eapply create_takes_effect; [apply encodeRule_key|exact Hex|]. intros w1 cw Hi Hfree. eexists. split.
  - cbn. split; [|reflexivity]. unfold rule_key. by rewrite (rules_ok _ _ Hi), Hfree.
  - apply written_rule; [done|by apply rule_round_trip|eapply item_key_pk, encodeRule_key].
Qed.

Lemma refusal_created refusal w w' : storable_refusal refusal -> exec I (createRefusal refusal) w (Ok tt) w' -> takes_effect (CreateRefusal refusal) w tt w'.
Proof using Type.
  intros Hs Hex. eapply create_takes_effect; [apply encodeRefusal_key|exact Hex|]. intros w1 cw Hi Hfree. eexists. split; [reflexivity|].
  apply written_refusal; [done|by apply refusal_round_trip|eapply item_key_pk, encodeRefusal_key].
Qed.

Lemma stored_record_key (record : ConnectionRecord) : record_key (stored_connection record) = record_key record.
Proof using Type. by destruct record. Qed.

Lemma connection_created record w w' :
  storable_connection record -> exec I (createConnectionRecord record) w (Ok tt) w' -> takes_effect (CreateConnectionRecord record) w tt w'.
Proof using Type.
  intros Hs Hex. eapply create_takes_effect; [apply encodeConnection_key|exact Hex|]. intros w1 cw Hi Hfree. eexists. split.
  - cbn [control_answered stored_call]. rewrite stored_record_key. split; [|reflexivity]. destruct (record_key record) as [t id]. cbn in Hfree. by rewrite (connections_ok _ _ Hi), Hfree.
  - destruct (record_key record) as [t id].
    apply written_connection; [done|by apply connection_round_trip|eapply item_key_pk, encodeConnection_key].
Qed.

Lemma connection_replaced record w w' :
  storable_connection record -> exec I (replaceConnectionRecord record) w (Ok tt) w' -> takes_effect (ReplaceConnectionRecord record) w tt w'.
Proof using Type.
  intros Hs (w1 & H1 & [it Hit]%taken_key & H2)%(exec_replace _ _ _ _ _ _ (encodeConnection_key record)).
  eexists w1, _. split_and!; [done|exact H2|]. intros cw Hi. eexists. split.
  - cbn [control_answered stored_call]. rewrite stored_record_key. split; [|reflexivity]. destruct (record_key record) as [t id]. cbn in Hit.
    rewrite (connections_ok _ _ Hi), Hit. by eapply connections_read.
  - destruct (record_key record) as [t id].
    apply written_connection; [done|by apply connection_round_trip|eapply item_key_pk, encodeConnection_key].
Qed.

Lemma encodeBody_decoded t u a c : decodeCeiling (encodeMemberCeiling t u a c) = c.
Proof using Type. by apply ceiling_round_trip. Qed.
Lemma egress_decoded t c : decodeCeiling (encodeTenantConnectionEgress t c) = c.
Proof using Type. by apply ceiling_round_trip. Qed.

Lemma ceiling_put t u a c w w' : plain_id u -> exec I (putMemberCeiling t u a c) w (Ok tt) w' -> takes_effect (PutMemberCeiling t u a c) w tt w'.
Proof using Type.
  intros Hu (w1 & H1 & _ & H2)%(exec_send_put _ _ _ _ _ _ (encodeMemberCeiling_key t u a c)).
  eexists w1, _. split_and!; [done|exact H2|]. intros cw Hi. eexists. split; [reflexivity|].
  pose proof (written_ceiling w1 cw t u a (encodeMemberCeiling t u a c) Hu Hi (item_key_pk _ _ (encodeMemberCeiling_key _ _ _ _))) as Hw.
  by rewrite encodeBody_decoded in Hw.
Qed.

Lemma egress_put t c w w' : exec I (putTenantConnectionEgress t c) w (Ok tt) w' -> takes_effect (PutTenantConnectionEgress t c) w tt w'.
Proof using Type.
  intros (w1 & H1 & _ & H2)%(exec_send_put _ _ _ _ _ _ (encodeTenantConnectionEgress_key t c)).
  eexists w1, _. split_and!; [done|exact H2|]. intros cw Hi. eexists. split; [reflexivity|].
  pose proof (written_egress w1 cw t (encodeTenantConnectionEgress t c) Hi (item_key_pk _ _ (encodeTenantConnectionEgress_key _ _))) as Hw.
  by rewrite egress_decoded in Hw.
Qed.

(** A listing while nobody writes to the partition: the decoded items of the table, and the table as it was. *)
Lemma exec_list_decoded {A : Type} (decode : item -> option A) (pages : nat) what pk prefix w l w' :
  quiet I pk -> (size (tbl w) < pages)%nat -> exec I (list_decoded pages decode what pk prefix) w (Ok l) w' ->
  rtc I w w' /\
  forall a, a ∈ l <-> exists id it, tbl w !! (pk, prefix +:+ id) = Some it /\ decode it = Some a.
Proof using Type.
  intros Hq Hp Hex. split; [eapply reads_exec; [|exact Hex]; unfold list_decoded, queryPrefix; solve_reads|].
  apply exec_bind in Hex as [(items & w1 & Hl & Hx)|(e & [=] & _)].
  apply (query_pages_quiet I (fun it => Ok it)) in Hl as [_ [Hl|(e & [=] & _)]]; [|done|by eapply Nat.le_lt_trans; [apply remaining_size|]].
  assert (forall its, decode_all (fun it => Ok it) its = Ok its) as Hall by (induction its as [|it its IH]; [done|]; cbn; by rewrite IH).
  rewrite Hall in Hl. injection Hl as ->. destruct (mapM decode _) as [l'|] eqn:Hm; [|by destruct Hx as [[=] _]].
  destruct Hx as [[= ->] _]. intros a. apply mapM_Some in Hm. split.
  - intros [i Hi]%list_elem_of_lookup. destruct (Forall2_lookup_r _ _ _ _ _ Hm Hi) as (it & Hit & Hd).
    apply list_elem_of_lookup_2, list_elem_of_fmap in Hit as ([sk it'] & -> & [(Hin & _ & Hsk & _) _]%elem_of_select).
    cbn in Hsk. apply starts_with_inv in Hsk as [id ->]. by exists id, it'.
  - intros (id & it & Hit & Hd). assert (it ∈ (select w pk (BeginsWith prefix) CTrue None).*2) as [i Hi]%list_elem_of_lookup.
    { apply list_elem_of_fmap. exists (prefix +:+ id, it). split; [done|]. apply elem_of_select. split; [|done].
      split; [done|]. split; [done|]. split; [apply starts_with_app|done]. }
    destruct (Forall2_lookup_l _ _ _ _ _ Hm Hi) as (a' & Ha' & Hd'). assert (a' = a) as -> by congruence. by eapply list_elem_of_lookup_2.
Qed.

Lemma bind_Some_it {A : Type} (o : option item) (decode : item -> option A) (a : A) :
  o ≫= decode = Some a <-> exists it, o = Some it /\ decode it = Some a.
Proof using Type. by rewrite bind_Some. Qed.

(** ** The approval gate *)

Lemma approval_of_new (t id : string) (o : StructuredConsequentialOperation) :
  approval_of (Stored.mk id t approval_proposal (Structured.actionType o) (Structured.destination o) (Structured.payload o) None None) =
  mkApproval approval_proposal o None.
Proof using Type. by destruct o. Qed.

(** An item of the gate that was free is written. *)
Lemma approval_created (a : StoredApproval) w w' :
  storable_approval a -> exec I (createApproval a) w (Ok tt) w' ->
  exists w1, rtc I w w1 /\ rtc I (written w1 (approvalKey (Stored.tenantId a) (Stored.approvalId a)) (encodeApproval a)) w' /\
    forall cw, implements w1 cw ->
      gate cw (Stored.tenantId a) !! Stored.approvalId a = None /\
      implements (written w1 (approvalKey (Stored.tenantId a) (Stored.approvalId a)) (encodeApproval a))
        (cw {{ gates := <[Stored.tenantId a := <[Stored.approvalId a := approval_of a]> (gate cw (Stored.tenantId a))]> (gates cw) }}).
Proof using Type.
  intros Hs (w1 & H1 & Hfree & H2)%(exec_create _ _ _ _ _ _ (encodeApproval_key a)). exists w1. split_and!; [done..|]. intros cw Hi. split.
  - rewrite (gates_ok _ _ Hi), (free_key w1); [done|apply Hi|done].
  - eapply written_approval; [done|by apply approval_round_trip|eapply item_key_pk, encodeApproval_key|done].
Qed.

Lemma operation_proposed t id o w w' :
  storable_call (Propose t id o) -> exec I (gate_propose t id o) w (Ok tt) w' -> takes_effect (Propose t id o) w tt w'.
Proof using Type.
  intros (Ht & Hid & Ha) Hex. unfold gate_propose in Hex. destruct (negb _) eqn:Hcons; [by destruct Hex as [[=] _]|].
  apply approval_created in Hex as (w1 & H1 & H2 & Hw); [|done]. eexists w1, _. split_and!; [done|exact H2|].
  intros cw Hi. destruct (Hw cw Hi) as [Hfree Hi']. eexists. split; [|exact Hi']. eexists. split; [|reflexivity].
  unfold proposeStructuredOperation, PolicySinks.createApproval. rewrite Hcons. cbn [Stored.tenantId Stored.approvalId] in Hfree. rewrite Hfree. by rewrite approval_of_new.
Qed.

(** The approval was created for the proposal the gate held: proposals stay. *)
Lemma operation_approved t newId id o by_ w v w' :
  (forall w w', I w w' -> approvals_stay w w') -> storable_call (Approve t newId id o by_) ->
  exec I (gate_approve t newId id o by_) w (Ok v) w' -> takes_effect (Approve t newId id o by_) w v w'.
Proof using Type.
  intros Hstay (Ht & Hid & Ha) [(stored & w1 & (w2 & H1 & H2 & Hget)%exec_get_record & Hex)|(e & [=] & _)]%exec_bind.
  destruct stored as [stored|]; [|by destruct Hex as [[=] _]].
  destruct (negb (bool_decide (Stored.kind stored = approval_proposal)) || negb (operationsEqual stored o)) eqn:Hsame; [by destruct Hex as [[=] _]|].
  apply orb_false_iff in Hsame as [Hkind%negb_false_iff%bool_decide_eq_true Heq%negb_false_iff].
  unfold operationsEqual in Heq. rewrite !andb_true_iff, !bool_decide_eq_true in Heq. destruct Heq as [[Hac Hde] Hpa].
  apply exec_bind in Hex as [([] & w3 & Hput & [[= ->] Hw'])|(e & [=] & _)].
  apply exec_catch in Hput as [([] & _ & Hput)|(e & w4 & _ & Hx)];
    [|exfalso; destruct e; try (by destruct Hx as [[=] _]); repeat case_match; by destruct Hx as [[=] _]].
  apply approval_created in Hput as (w4 & H3 & H4 & Hw4); [|split_and!; [done|done|cbn; congruence]].
  eexists w4, _. split_and!; [trans w2; [done|]; by trans w1|by trans w3; [exact H4|]|]. intros cw Hi.
  destruct (Hw4 cw Hi) as [Hfree Hi']. cbn [Stored.tenantId Stored.approvalId] in *. eexists. split; [|exact Hi'].
  destruct Hget as (it & Hit & Hd). assert (gate cw t !! id = Some (approval_of stored)) as Hgate.
  { rewrite (gates_ok _ _ Hi). assert (tbl w4 !! approvalKey t id = Some it) as -> by (eapply (approvals_stay_others w2 w4); [done|by trans w1|done]).
    cbn. by rewrite Hd. }
  eexists. split; [|reflexivity]. unfold approveOperation. rewrite Hgate. destruct o as [oa od op]. cbn in Hac, Hde, Hpa. subst oa od op.
  rewrite bool_decide_eq_false_2 by (cbn; naive_solver). unfold PolicySinks.createApproval. rewrite Hfree. cbn.
  by destruct by_ as [[] ?].
Qed.

(** ** Every call *)

Lemma rules_listed pages t w l w' : listable pages (ListRules t) w -> exec I (listRules pages t) w (Ok l) w' -> takes_effect (ListRules t) w l w'.
Proof using Type.
  intros [Hq Hp] [Hw Hl]%exec_list_decoded; [|done..]. exists w, w. split_and!; [done..|]. intros cw Hi. exists cw. split; [|done]. split; [|done].
  intros rule. rewrite Hl. apply exist_proper. intros id. by rewrite (rules_ok _ _ Hi), bind_Some_it.
Qed.

Lemma connections_listed pages t w l w' :
  listable pages (ListConnectionRecords t) w -> exec I (listConnectionRecords pages t) w (Ok l) w' -> takes_effect (ListConnectionRecords t) w l w'.
Proof using Type.
  intros [Hq Hp] [Hw Hl]%exec_list_decoded; [|done..]. exists w, w. split_and!; [done..|]. intros cw Hi. exists cw. split; [|done]. split; [|done].
  intros record. rewrite Hl. apply exist_proper. intros id. by rewrite (connections_ok _ _ Hi), bind_Some_it.
Qed.

Lemma refusals_listed pages t kind w l w' :
  listable pages (ListRefusals t kind) w -> exec I (listRefusals pages t kind) w (Ok l) w' -> takes_effect (ListRefusals t kind) w l w'.
Proof using Type.
  intros [Hq Hp] [(all & w1 & [Hw Hl]%exec_list_decoded & [[= ->] Hw'])|(e & [=] & _)]%exec_bind; [|done..].
  exists w, w. split_and!; [done|by trans w1|]. intros cw Hi. exists cw. split; [|done]. split; [|done].
  intros refusal. rewrite list_elem_of_In, filter_In, <- list_elem_of_In, bool_decide_eq_true, Hl.
  assert ((exists id it, tbl w !! (t +:+ "#rules", "REFUSAL#" +:+ id) = Some it /\ decodeRefusal it = Some refusal) <->
          exists id, refusals cw !! (t, id) = Some refusal) as -> by (apply exist_proper; intros id; by rewrite (refusals_ok _ _ Hi), bind_Some_it).
  apply and_comm.
Qed.

(** What an attempt to carry out an approved operation finds is the gate of one moment. *)
Lemma operation_executed t approval attempted evidence w r w' :
  exec I (gate_execute t approval attempted evidence) w (Ok r) w' ->
  exists w1, rtc I w w1 /\ rtc I w1 w' /\
    forall cw, implements w1 cw -> r = executeApprovedOperation (gate cw t) approval attempted evidence.
Proof using Type.
  intros [(stored & w1 & (w2 & H1 & H2 & Hget)%exec_get_record & [[= ->] Hw'])|(e & [=] & _)]%exec_bind.
  exists w2. split_and!; [done|by trans w1|]. intros cw Hi. unfold executeApprovedOperation. rewrite (gates_ok _ _ Hi).
  destruct stored as [stored|]; [|by rewrite Hget]. destruct Hget as (it & -> & Hd). cbn. rewrite Hd. cbn.
  destruct (Stored.kind stored); cbn; [done|]. repeat case_bool_decide; naive_solver.
Qed.

(** A call that fails has written nothing. *)
Lemma failed_call_writes_nothing pages {R : Type} (r : control_call R) (p : prog R) w e w' :
  policy_impl pages R r = Some p -> exec I p w (Err e) w' -> rtc I w w'.
Proof using Type.
  assert (forall (it : item) d k, item_key it = Some k -> exec I (create it d) w (Err e) w' -> rtc I w w') as Hcreate
    by (intros it d k Hk Hex; by apply (exec_create _ _ _ _ _ _ Hk) in Hex).
  intros Hp Hex. destruct r; try discriminate Hp; injection Hp as <-.
  - unfold gate_propose in Hex. destruct (negb _); [by destruct Hex as [_ ?]|]. eapply Hcreate; [apply encodeApproval_key|exact Hex].
  - apply exec_bind in Hex as [(stored & w1 & Hget & Hex)|(e' & _ & [? _]%exec_get_decoded)]; [|done].
    apply exec_get_decoded in Hget as [Hw1 _]. trans w1; [done|]. destruct stored as [stored|]; [|by destruct Hex as [_ ?]].
    destruct (_ || _); [by destruct Hex as [_ ?]|]. apply exec_bind in Hex as [(u & w2 & _ & [[=] _])|(e' & _ & Hput)].
    apply exec_catch in Hput as [(u & [=] & _)|(e'' & w2 & Hput & Hx)]. apply (exec_create _ _ _ _ _ _ (encodeApproval_key _)) in Hput.
    trans w2; [done|]. destruct e''; try (by destruct Hx as [_ ?]); repeat case_match; by destruct Hx as [_ ?].
  - eapply Hcreate; [apply encodeRule_key|exact Hex].
  - eapply reads_exec; [|exact Hex]. unfold listRules, list_decoded, queryPrefix. solve_reads.
  - eapply Hcreate; [apply encodeConnection_key|exact Hex].
  - by apply (exec_replace _ _ _ _ _ _ (encodeConnection_key _)) in Hex.
  - by apply exec_get_decoded in Hex as [? _].
  - eapply reads_exec; [|exact Hex]. unfold listConnectionRecords, list_decoded, queryPrefix. solve_reads.
  - by apply exec_send_fails in Hex as [? _].
  - by apply exec_get_decoded in Hex as [? _].
  - by apply exec_send_fails in Hex as [? _].
  - by apply exec_get_decoded in Hex as [? _].
  - eapply Hcreate; [apply encodeRefusal_key|exact Hex].
  - eapply reads_exec; [|exact Hex]. unfold listRefusals, list_decoded, queryPrefix. solve_reads.
Qed.
End exec.


Definition stored_rule : AutoReviewRule := Rule.mk "r1" AlwaysAllow "send" "acme" None [] (mkIdentity actor_human "ann").
Definition rule_world : World := (run (createRule stored_rule) demo_local empty_world).2.

Lemma empty_implements : implements empty_world empty_control.
Proof. split; intros; cbn in *; unfold gate; cbn; by rewrite ?lookup_empty in *. Qed.

