(* ===== verification/Bots.v ===== *)
(** * Bots and tasks

    The records of bots and tasks with their codecs (src/conversation/src/store/codecs/bot.ts and task.ts), the methods of
    [DynamoMessagingStore] on them (store/dynamo-messaging-store.ts), and the functions of domain/bots.ts and domain/tasks.ts.
    The board of a bot is kept by another service: [BotBoardProvisioner] is the interface of board/bot-board-service.ts that
    the functions call, with the message of a failure as its answer. A date of archiving that is no date, which the source reads
    as an invalid date, is a malformed item. The keys of a bot's memory stay in the order they were
    set, where JavaScript moves keys that are numbers to the front. *)

From S2P Require Import Prelude Json Dates Types Service Retry Paging TurnCodec TurnStore Actions LiveFiles.
From S2P Require Import Workers Organizations.
From coqutil Require Import Datatypes.RecordSetters.
Import DoubleBraceUpdate.
#[local] Open Scope Z_scope.
#[local] Open Scope prog_scope.

(** ** Bots *)

Module Bot.
Record Bot : Type := mk {
  botId : string;
  tenantId : string;
  name : string;
  memory : list (string * string);
  boardArchivedAt : option Z;
}.
End Bot.
Abbreviation Bot := Bot.Bot.

Definition botKey (tenantId botId : string) : key := (rosterPartition tenantId, "bot#" +:+ botId).
Definition botNameKey (tenantId name : string) : key := (rosterPartition tenantId, "bot_name#" +:+ name).
Definition botIdempotencyKey (tenantId idempotencyKey : string) : key := (rosterPartition tenantId, "botidem#" +:+ idempotencyKey).

Definition encodeBot (b : Bot) : item :=
  let k := botKey (Bot.tenantId b) (Bot.botId b) in
  put_if "board_archived_at" (AS ∘ toISOString) (Bot.boardArchivedAt b) (list_to_map [
    ("pk", AS k.1); ("sk", AS k.2);
    ("tenant_id", AS (Bot.tenantId b));
    ("bot_id", AS (Bot.botId b));
    ("name", AS (Bot.name b));
    ("memory", AS (stringifyPythonStyle (JObj ((fun kv => (kv.1, JStr kv.2)) <$> Bot.memory b))))]).

(** [Object.entries(parsed)] with every value as a text; an array has its indices as keys. *)
Definition memory_of (parsed : option json) : list (string * string) :=
  match parsed with
  | Some (JObj fields) => foldl (fun m kv => map_set kv.1 (js_string kv.2) m) [] fields
  | Some (JArr values) => imap (fun i v => (dec (Z.of_nat i), js_string v)) values
  | _ => []
  end.

Definition decodeBot (it : item) : option Bot :=
  botId ← optionalString it "bot_id";
  tenantId ← optionalString it "tenant_id";
  name ← optionalString it "name";
  boardArchivedAt ← match required_string it "board_archived_at" with
                    | None => Some None
                    | Some text => moment ← date_of_text text; Some (Some moment)
                    end;
  Some (Bot.mk botId tenantId name (memory_of (parse_json (default "{}" (required_string it "memory")))) boardArchivedAt).

Definition DuplicateBotNameError (message : string) : exn := DomainError "duplicate_bot_name" message.
Definition BotNotFoundError (message : string) : exn := NamedError "BotNotFoundError" message.
Definition BotBoardProvisioningError (message : string) : exn := NamedError "BotBoardProvisioningError" message.

(** The item that reserves a name. *)
Definition bot_name_row (b : Bot) : item :=
  let k := botNameKey (Bot.tenantId b) (Bot.name b) in
  list_to_map [
    ("pk", AS k.1); ("sk", AS k.2);
    ("tenant_id", AS (Bot.tenantId b));
    ("bot_id", AS (Bot.botId b));
    ("name", AS (Bot.name b))].

Definition reserve_ops (b : Bot) : list txop := [TPut (encodeBot b) CTrue; TPut (bot_name_row b) (AttrNotExists "pk")].

Definition putBot (b : Bot) (reserveName : bool) : prog unit :=
  if negb reserveName then put (encodeBot b)
  else
    catch (retryTransient (send (TransactWrite (reserve_ops b))))
      (fun error => match error with
                    | TransactionCanceledException reasons =>
                        if bool_decide (CONDITION_FAILED ∈ reasons)
                        then Throw (DuplicateBotNameError ("Bot named '" +:+ Bot.name b +:+ "' already exists for tenant '"
                               +:+ Bot.tenantId b +:+ "'."))
                        else Throw error
                    | _ => Throw error
                    end).

Definition getBot (tenantId botId : string) : prog (option Bot) := get_decoded decodeBot "bot" (botKey tenantId botId).

(** The first item of that name. *)
Definition named_bot (name : string) (its : list item) : option item :=
  List.find (fun it => bool_decide (required_string it "name" = Some name)) its.

Section bots.
Context (pages : nat).

Definition getBotByName (tenantId name : string) : prog (option Bot) :=
  let! reservation := send (GetItem (botNameKey tenantId name)) in
  match reservation with
  | Some row => getBot tenantId (text_or_empty row "bot_id")
  | None =>
      let! its := queryPrefix pages (rosterPartition tenantId) "bot#" in
      match named_bot name its with
      | None => Ret None
      | Some it => match decodeBot it with Some b => Ret (Some b) | None => Throw (MalformedItem "bot") end
      end
  end.

Definition store_listBots (tenantId : string) : prog (list Bot) :=
  let! its := queryPrefix pages (rosterPartition tenantId) "bot#" in
  match mapM decodeBot its with
  | None => Throw (MalformedItem "bot")
  | Some l => Ret (sort_by Bot.name l)
  end.

Definition getBotIdempotency (tenantId idempotencyKey : string) : prog (option Bot) :=
  let! it := send (GetItem (botIdempotencyKey tenantId idempotencyKey)) in
  match it ≫= fun it => optionalString it "bot_id" with
  | None => Ret None
  | Some botId => getBot tenantId botId
  end.

Definition bot_idempotency_row (tenantId idempotencyKey : string) (b : Bot) : item :=
  let k := botIdempotencyKey tenantId idempotencyKey in
  list_to_map [("pk", AS k.1); ("sk", AS k.2); ("tenant_id", AS tenantId); ("bot_id", AS (Bot.botId b))].

Definition putBotIdempotency (tenantId idempotencyKey : string) (b : Bot) : prog unit :=
  put (bot_idempotency_row tenantId idempotencyKey b).

(** The two calls take the organization, the bot and the user, and answer the message of a failure or nothing. *)
Record BotBoardProvisioner : Type := mkProvisioner {
  provisionBotBoard : string -> string -> string -> prog (option string);
  archiveBoardOfUnstoredBot : string -> string -> string -> prog (option string);
}.

(** A failure is only logged. *)
Definition archiveOrphanBoard (boards : option BotBoardProvisioner) (b : Bot) (creatorUserId : string) : prog unit :=
  match boards with
  | None => Ret tt
  | Some provisioner =>
      catch (archiveBoardOfUnstoredBot provisioner (Bot.tenantId b) (Bot.botId b) creatorUserId) (fun error => Ret None) ;;;
      Ret tt
  end.

Definition provision (boards : option BotBoardProvisioner) (b : Bot) (creatorUserId : string) : prog unit :=
  match boards with
  | None => Ret tt
  | Some provisioner =>
      let! failure := provisionBotBoard provisioner (Bot.tenantId b) (Bot.botId b) creatorUserId in
      match failure with
      | None => Ret tt
      | Some message => Throw (BotBoardProvisioningError ("The board of bot " +:+ pythonRepr (Bot.name b)
                          +:+ " could not be provisioned: " +:+ message))
      end
  end.

(** An optional idempotency key: what was stored under it, else [create]. *)
Definition replayed {A : Type} (idempotencyKey : option string) (cached : string -> prog (option A)) (create : prog A) : prog A :=
  match idempotencyKey with
  | None => create
  | Some k => let! found := cached k in match found with Some a => Ret a | None => create end
  end.

(** The bot and, under a key, what a replay finds. *)
Definition store_bot (tenantId : string) (idempotencyKey : option string) (b : Bot) : prog unit :=
  putBot b true ;;;
  match idempotencyKey with None => Ret tt | Some k => putBotIdempotency tenantId k b end.

(** A creation that is not a replay. *)
Definition create_new_bot (boards : option BotBoardProvisioner) (tenantId name creatorUserId : string) (idempotencyKey : option string) : prog Bot :=
  let! existing := getBotByName tenantId name in
  match existing with
  | Some _ => Throw (DuplicateBotNameError ("Bot named " +:+ pythonRepr name +:+ " already exists for tenant " +:+ pythonRepr tenantId +:+ "."))
  | None =>
      ensureComputer tenantId None ;;;
      let! botId := send NextId in
      let b := Bot.mk botId tenantId name [] None in
      provision boards b creatorUserId ;;;
      catch (store_bot tenantId idempotencyKey b) (fun error => archiveOrphanBoard boards b creatorUserId ;;; Throw error) ;;;
      Ret b
  end.

Definition createBot (boards : option BotBoardProvisioner) (tenantId name creatorUserId : string) (idempotencyKey : option string) : prog Bot :=
  replayed idempotencyKey (getBotIdempotency tenantId) (create_new_bot boards tenantId name creatorUserId idempotencyKey).

Definition botById (tenantId botId : string) : prog Bot :=
  let! found := getBot tenantId botId in
  match found with
  | None => Throw (BotNotFoundError botId)
  | Some b => if bool_decide (Bot.tenantId b = tenantId) then Ret b else Throw (BotNotFoundError botId)
  end.

Definition botByName (tenantId name : string) : prog Bot :=
  let! found := getBotByName tenantId name in
  match found with
  | None => Throw (BotNotFoundError name)
  | Some b => if bool_decide (Bot.tenantId b = tenantId) then Ret b else Throw (BotNotFoundError name)
  end.

Definition rememberBotMemory (tenantId botId key value : string) : prog unit :=
  let! b := botById tenantId botId in
  putBot (b {{ Bot.memory := map_set key value (Bot.memory b) }}) false.

Definition listBots (tenantId : string) : prog (list Bot) :=
  let! owned := store_listBots tenantId in
  Ret (sort_by Bot.name (List.filter (fun b => bool_decide (Bot.tenantId b = tenantId)) owned)).
End bots.

(** ** Tasks *)

Module Task.
Record Task : Type := mk {
  taskId : string;
  tenantId : string;
  userId : string;
  title : string;
  status : string;
  evidence : option string;
  closeReason : option string;
  createdByBotId : option string;
  updatedByBotId : option string;
}.
End Task.
Abbreviation Task := Task.Task.

Definition TASK_OPEN : string := "open".
Definition TASK_COMPLETED : string := "completed".
Definition TASK_CLOSED : string := "closed".

Definition taskKey (tenantId taskId : string) : key := (tenantId +:+ "#task#" +:+ taskId, "meta").
Definition taskRowKey (t : Task) : key :=
  (rosterPartition (Task.tenantId t), "task#" +:+ Task.userId t +:+ "#" +:+ Task.taskId t).

Definition encodeTask (t : Task) : item :=
  let k := taskKey (Task.tenantId t) (Task.taskId t) in
  let base : item := list_to_map [
    ("pk", AS k.1); ("sk", AS k.2);
    ("tenant_id", AS (Task.tenantId t));
    ("user_id", AS (Task.userId t));
    ("task_id", AS (Task.taskId t));
    ("title", AS (Task.title t));
    ("status", AS (Task.status t))] in
  let base := put_if "evidence" AS (Task.evidence t) base in
  let base := put_if "close_reason" AS (Task.closeReason t) base in
  let base := put_if "created_by_bot_id" AS (Task.createdByBotId t) base in
  put_if "updated_by_bot_id" AS (Task.updatedByBotId t) base.

Definition decodeTask (it : item) : option Task :=
  taskId ← optionalString it "task_id";
  tenantId ← optionalString it "tenant_id";
  userId ← optionalString it "user_id";
  title ← optionalString it "title";
  status ← optionalString it "status";
  Some (Task.mk taskId tenantId userId title status (required_string it "evidence") (required_string it "close_reason")
    (required_string it "created_by_bot_id") (required_string it "updated_by_bot_id")).

Definition task_row (t : Task) : item :=
  let k := taskRowKey t in
  list_to_map [("pk", AS k.1); ("sk", AS k.2); ("tenant_id", AS (Task.tenantId t)); ("user_id", AS (Task.userId t)); ("task_id", AS (Task.taskId t))].

Definition putTask (t : Task) : prog unit := put (encodeTask t) ;;; put (task_row t).

Definition getTask (tenantId taskId : string) : prog (option Task) := get_decoded decodeTask "task" (taskKey tenantId taskId).

(** The records that the rows name; a row without a record is passed over. *)
Definition records_of {A : Type} (attribute : string) (get : string -> prog (option A)) (rows : list item) : prog (list A) :=
  for_each rows [] (fun acc row =>
    let! found := get (text_or_empty row attribute) in
    Ret (match found with Some a => acc ++ [a] | None => acc end)).

Definition store_listTasks (pages : nat) (tenantId userId : string) : prog (list Task) :=
  let! rows := queryPrefix pages (rosterPartition tenantId) ("task#" +:+ userId +:+ "#") in
  let! tasks := records_of "task_id" (getTask tenantId) rows in
  Ret (sort_by Task.taskId tasks).

Definition TaskNotFoundError (message : string) : exn := DomainError "task_not_found" message.
Definition TaskEvidenceRequiredError (message : string) : exn := DomainError "task_evidence_required" message.
Definition TaskCloseReasonRequiredError (message : string) : exn := DomainError "task_close_reason_required" message.
Definition TaskToolRequestError (message : string) : exn := NamedError "TaskToolRequestError" message.

Definition createTask (tenantId userId title createdByBotId : string) : prog Task :=
  let! taskId := send NextId in
  let task := Task.mk taskId tenantId userId title TASK_OPEN None None (Some createdByBotId) (Some createdByBotId) in
  putTask task ;;;
  Ret task.

Definition taskById (tenantId taskId : string) : prog Task :=
  let unknown := TaskNotFoundError ("Task " +:+ pythonRepr taskId +:+ " is unknown to tenant " +:+ pythonRepr tenantId +:+ ".") in
  let! record := getTask tenantId taskId in
  match record with
  | None => Throw unknown
  | Some t => if bool_decide (Task.tenantId t = tenantId) then Ret t else Throw unknown
  end.

Definition listTasks (pages : nat) (tenantId userId : string) : prog (list Task) :=
  let! tasks := store_listTasks pages tenantId userId in
  Ret (List.filter (fun t => bool_decide (Task.tenantId t = tenantId)) tasks).

Definition completeTask (tenantId taskId evidence updatedByBotId : string) : prog Task :=
  if bool_decide (trim evidence = EmptyString)
  then Throw (TaskEvidenceRequiredError ("Task " +:+ pythonRepr taskId +:+ " cannot reach completed without evidence."))
  else
    let! record := taskById tenantId taskId in
    let completed := record {{ Task.status := TASK_COMPLETED }} {{ Task.evidence := Some evidence }} {{ Task.updatedByBotId := Some updatedByBotId }} in
    putTask completed ;;;
    Ret completed.

Definition closeTask (tenantId taskId reason updatedByBotId : string) : prog Task :=
  if bool_decide (trim reason = EmptyString)
  then Throw (TaskCloseReasonRequiredError ("Task " +:+ pythonRepr taskId +:+ " cannot close without a reason."))
  else
    let! record := taskById tenantId taskId in
    let closed := record {{ Task.status := TASK_CLOSED }} {{ Task.closeReason := Some reason }} {{ Task.updatedByBotId := Some updatedByBotId }} in
    putTask closed ;;;
    Ret closed.

Definition invokeTaskTool (tenantId userId botId action : string) (arguments_ : list (string * string)) : prog Task :=
  let argument name := default EmptyString (map_get name arguments_) in
  botById tenantId botId ;;;
  if bool_decide (action = "create") then
    let title := trim (argument "title") in
    if bool_decide (title = EmptyString) then Throw (TaskToolRequestError "Task create requires a title.")
    else createTask tenantId userId title botId
  else
    let taskId := trim (argument "task_id") in
    if bool_decide (taskId = EmptyString) then Throw (TaskToolRequestError ("Task action " +:+ pythonRepr action +:+ " requires task_id."))
    else if bool_decide (action = "get") then taskById tenantId taskId
    else if bool_decide (action = "complete") then completeTask tenantId taskId (argument "evidence") botId
    else if bool_decide (action = "close") then closeTask tenantId taskId (argument "reason") botId
    else Throw (TaskToolRequestError ("Unsupported task tool action " +:+ pythonRepr action +:+ ".")).
