(* ===== verification/Channels.v ===== *)
(** * Channels

    The codec of channels and their messages (src/conversation/src/store/codecs/channel.ts), the methods of
    [DynamoMessagingStore] on them (store/dynamo-messaging-store.ts), and the functions of domain/channels.ts. SHA-1 is a
    parameter. A participant whose kind or identifier is no text, which the source casts, is a malformed item. *)

From S2P Require Import Prelude Json Dates Types Service Retry Paging TurnCodec TurnStore Actions LiveFiles.
From S2P Require Import Workers Organizations Bots.
From stdpp Require Import sorting.
#[local] Open Scope Z_scope.
#[local] Open Scope prog_scope.

Module Participant.
Record ChannelParticipant : Type := mk { kind : string; actorId : string }.
End Participant.
Abbreviation ChannelParticipant := Participant.ChannelParticipant.

Module Channel.
Record Channel : Type := mk {
  channelId : string;
  tenantId : string;
  kind : string;
  name : option string;
  participants : list ChannelParticipant;
  nextSeq : Z;
}.
End Channel.
Abbreviation Channel := Channel.Channel.

Module Message.
Record ChannelMessageRecord : Type := mk {
  messageId : string;
  channelId : string;
  tenantId : string;
  seq : Z;
  authorKind : string;
  authorId : string;
  body : string;
  addressedToBotId : option string;
  createdAt : Z;
}.
End Message.
Abbreviation ChannelMessageRecord := Message.ChannelMessageRecord.

#[export] Instance ChannelParticipant_eq_dec : EqDecision ChannelParticipant.
Proof. solve_decision. Defined.

Definition participantIds (kind : string) (c : Channel) : list string :=
  Participant.actorId <$> List.filter (fun p => bool_decide (Participant.kind p = kind)) (Channel.participants c).

(** ** Items *)

Definition channelPartition (tenantId channelId : string) : string := tenantId +:+ "#channel#" +:+ channelId.
Definition channelKey (tenantId channelId : string) : key := (channelPartition tenantId channelId, "meta").
Definition messageSortKey (seq : Z) : string := "msg#" +:+ padded seq.

Definition participant_json (p : ChannelParticipant) : json :=
  JObj [("kind", JStr (Participant.kind p)); ("actor_id", JStr (Participant.actorId p))].

Definition encodeChannel (c : Channel) : item :=
  let k := channelKey (Channel.tenantId c) (Channel.channelId c) in
  put_if "name" AS (Channel.name c) (list_to_map [
    ("pk", AS k.1); ("sk", AS k.2);
    ("tenant_id", AS (Channel.tenantId c));
    ("channel_id", AS (Channel.channelId c));
    ("kind", AS (Channel.kind c));
    ("next_seq", AN (Channel.nextSeq c));
    ("participants", AS (stringifyPythonStyle (JArr (participant_json <$> Channel.participants c))))]).

(** The last field of that name. *)
Definition text_field (name : string) (j : json) : option string :=
  match j with
  | JObj fields => match map_get name (rev fields) with Some (JStr s) => Some s | _ => None end
  | _ => None
  end.

Definition participant_of_json (j : json) : option ChannelParticipant :=
  kind ← text_field "kind" j; actorId ← text_field "actor_id" j; Some (Participant.mk kind actorId).

Definition participants_of (text : string) : option (list ChannelParticipant) :=
  match parse_json text with Some (JArr rows) => mapM participant_of_json rows | _ => None end.

Definition decodeChannel (it : item) : option Channel :=
  participants ← optionalString it "participants" ≫= participants_of;
  nextSeq ← required_number it "next_seq";
  channelId ← optionalString it "channel_id";
  tenantId ← optionalString it "tenant_id";
  kind ← optionalString it "kind";
  Some (Channel.mk channelId tenantId kind (required_string it "name") participants nextSeq).

Definition encodeMessage (m : ChannelMessageRecord) : item :=
  list_to_map [
    ("pk", AS (channelPartition (Message.tenantId m) (Message.channelId m)));
    ("sk", AS (messageSortKey (Message.seq m)));
    ("tenant_id", AS (Message.tenantId m));
    ("channel_id", AS (Message.channelId m));
    ("message_id", AS (Message.messageId m));
    ("seq", AN (Message.seq m));
    ("author_kind", AS (Message.authorKind m));
    ("author_id", AS (Message.authorId m));
    ("body", AS (Message.body m));
    ("addressed_to_bot_id", AS (default EmptyString (Message.addressedToBotId m)));
    ("created_at", AS (formatIsoDateTime (Message.createdAt m)))].

(** A sequence that is missing, which the source reads as no number, is a malformed item. *)
Definition decodeMessage (it : item) : option ChannelMessageRecord :=
  messageId ← optionalString it "message_id";
  channelId ← optionalString it "channel_id";
  tenantId ← optionalString it "tenant_id";
  seq ← required_number it "seq";
  authorKind ← optionalString it "author_kind";
  authorId ← optionalString it "author_id";
  createdAt ← optionalString it "created_at" ≫= date_of_text;
  Some (Message.mk messageId channelId tenantId seq authorKind authorId (text_or_empty it "body")
    (optionalString it "addressed_to_bot_id") createdAt).

(** ** The store *)

Definition channelLookupKey (channelId : string) : key := ("channel_lookup#" +:+ channelId, "meta").
Definition channelRowKey (tenantId userId channelId : string) : key := (rosterPartition tenantId, "channel#" +:+ userId +:+ "#" +:+ channelId).

Definition channel_lookup_row (c : Channel) : item :=
  let k := channelLookupKey (Channel.channelId c) in
  list_to_map [("pk", AS k.1); ("sk", AS k.2); ("tenant_id", AS (Channel.tenantId c)); ("channel_id", AS (Channel.channelId c))].

Definition channel_row (c : Channel) (userId : string) : item :=
  let k := channelRowKey (Channel.tenantId c) userId (Channel.channelId c) in
  list_to_map [("pk", AS k.1); ("sk", AS k.2); ("tenant_id", AS (Channel.tenantId c)); ("user_id", AS userId); ("channel_id", AS (Channel.channelId c))].

Definition putChannelIndexes (c : Channel) : prog unit :=
  put (channel_lookup_row c) ;;;
  for_each (Channel.participants c) tt (fun _ p =>
    if bool_decide (Participant.kind p <> "human") then Ret tt else put (channel_row c (Participant.actorId p))).

Definition putChannel (c : Channel) : prog unit := put (encodeChannel c) ;;; putChannelIndexes c.

Definition store_getChannel (tenantId channelId : string) : prog (option Channel) :=
  get_decoded decodeChannel "channel" (channelKey tenantId channelId).

Definition putChannelIfAbsent (c : Channel) : prog Channel :=
  let! outcome := outcome_of (send (PutItem (encodeChannel c) (AttrNotExists "pk"))) in
  match outcome with
  | Ok _ => putChannelIndexes c ;;; Ret c
  | Err ConditionalCheckFailedException =>
      let! existing := store_getChannel (Channel.tenantId c) (Channel.channelId c) in
      match existing with
      | None => Throw ConditionalCheckFailedException
      | Some existing => putChannelIndexes existing ;;; Ret existing
      end
  | Err error => Throw error
  end.

Definition store_listChannels (pages : nat) (tenantId userId : string) : prog (list Channel) :=
  let! rows := queryPrefix pages (rosterPartition tenantId) ("channel#" +:+ userId +:+ "#") in
  let! channels := records_of "channel_id" (store_getChannel tenantId) rows in
  Ret (sort_by Channel.channelId channels).

Definition resolveChannelTenant (channelId : string) : prog (option string) :=
  let! it := send (GetItem (channelLookupKey channelId)) in
  Ret (it ≫= fun it => required_string it "tenant_id").

Definition channelIdempotencyKey (tenantId idempotencyKey : string) : key := (rosterPartition tenantId, "chidem#" +:+ idempotencyKey).

Definition getChannelIdempotency (tenantId idempotencyKey : string) : prog (option Channel) :=
  let! it := send (GetItem (channelIdempotencyKey tenantId idempotencyKey)) in
  match it ≫= fun it => optionalString it "channel_id" with
  | None => Ret None
  | Some channelId => store_getChannel tenantId channelId
  end.

Definition putChannelIdempotency (tenantId idempotencyKey : string) (c : Channel) : prog unit :=
  let k := channelIdempotencyKey tenantId idempotencyKey in
  put (list_to_map [("pk", AS k.1); ("sk", AS k.2); ("tenant_id", AS tenantId); ("channel_id", AS (Channel.channelId c))]).

Definition putMessage (m : ChannelMessageRecord) : prog unit := put (encodeMessage m).

(** The items of the partition after the sort key of [afterSeq] that are messages. *)
Definition message_of_item (it : item) : exn + option ChannelMessageRecord :=
  if starts_with "msg#" (text_or_empty it "sk")
  then match decodeMessage it with Some m => Ok (Some m) | None => Err (MalformedItem "message") end
  else Ok None.

Definition store_listMessages (pages : nat) (tenantId channelId : string) (afterSeq : Z) : prog (list ChannelMessageRecord) :=
  let! found := query_pages message_of_item (channelPartition tenantId channelId) (Above (messageSortKey afterSeq)) CTrue None pages in
  Ret (stable_sort (fun left right => Message.seq left <? Message.seq right) (omap id found)).

(** ** The functions *)

Definition ChannelNotFoundError (message : string) : exn := DomainError "channel_not_found" message.
Definition ChannelTenantMismatchError (message : string) : exn := DomainError "channel_tenant_mismatch" message.
Definition InvalidChannelIdentityError (message : string) : exn := DomainError "invalid_channel_identity" message.
Definition ActorNotInChannelError (message : string) : exn := DomainError "actor_not_in_channel" message.

Definition NAMESPACE_URL : string := "6ba7b811-9dad-11d1-80b4-00c04fd430c8".

(** The bytes that pairs of hexadecimal digits write. *)
Fixpoint bytes_of_hex (s : string) : list Z :=
  match s with
  | String a (String b s') =>
      match hex_value a, hex_value b with Some x, Some y => (16 * x + y) :: bytes_of_hex s' | _, _ => [] end
  | _ => []
  end.

Definition hex_of_bytes (l : list Z) : string :=
  foldr (fun n s => String (hex_digit (n / 16)) (String (hex_digit (n mod 16)) s)) EmptyString l.

Definition bytes_of (s : string) : list Z := code <$> String.list_ascii_of_string s.

(** [s.slice(i, i + n)]. *)
Definition slice (i n : nat) (s : string) : string := take_string n (drop_string i s).

Definition hex4 (n : Z) : string := hex_of_bytes [n / 256; n mod 256].

(** Every unit of UTF-16 from U+007F on as an escape. *)
Definition escaped_unit (n : Z) : string := "\u" +:+ hex4 n.
Definition escaped_point (n : Z) : string :=
  if n <? 65536 then escaped_unit n
  else escaped_unit (55296 + (n - 65536) / 1024) +:+ escaped_unit (56320 + (n - 65536) mod 1024).
Definition low_bits (c : Ascii.ascii) : Z := Z.land (code c) 63.

Fixpoint escape_non_ascii (s : string) : string :=
  match s with
  | EmptyString => EmptyString
  | String c s1 =>
      if code c <? 127 then String c (escape_non_ascii s1)
      else if code c <? 192 then escaped_unit (code c) +:+ escape_non_ascii s1
      else
        match s1 with
        | String d s2 =>
            if code c <? 224 then escaped_point (Z.land (code c) 31 * 64 + low_bits d) +:+ escape_non_ascii s2
            else
              match s2 with
              | String e s3 =>
                  if code c <? 240 then escaped_point ((Z.land (code c) 15 * 64 + low_bits d) * 64 + low_bits e) +:+ escape_non_ascii s3
                  else
                    match s3 with
                    | String f s4 =>
                        escaped_point (((Z.land (code c) 7 * 64 + low_bits d) * 64 + low_bits e) * 64 + low_bits f) +:+ escape_non_ascii s4
                    | EmptyString => EmptyString
                    end
              | EmptyString => EmptyString
              end
        | EmptyString => EmptyString
        end
  end.

Definition pythonJsonString (value : string) : string := escape_non_ascii (stringify (JStr value)).

(** [[...new Set(botIds)]]. *)
Definition unique (l : list string) : list string := foldl (fun acc x => if decide (x ∈ acc) then acc else acc ++ [x]) [] l.

Definition primaryHumanParticipant (c : Channel) : exn + string :=
  match participantIds "human" c with
  | userId :: _ => Ok userId
  | [] => Err (ActorNotInChannelError ("Channel " +:+ pythonRepr (Channel.channelId c) +:+ " has no human participants."))
  end.

(** Whether kind, bots and name make a channel. *)
Definition channel_identity (kind : string) (uniqueBotIds : list string) (normalizedName : option string) : exn + unit :=
  if bool_decide (kind = "direct") then
    if negb (bool_decide (length uniqueBotIds = 1%nat)) || bool_decide (normalizedName <> None)
    then Err (InvalidChannelIdentityError "A direct channel requires exactly one bot and no name.") else Ok tt
  else if bool_decide (kind = "named") then
    if (length uniqueBotIds <? 2)%nat || bool_decide (default EmptyString normalizedName = EmptyString)
    then Err (InvalidChannelIdentityError "A named channel requires a name and at least two bots.") else Ok tt
  else Err (InvalidChannelIdentityError ("Unknown channel kind " +:+ pythonRepr kind +:+ ".")).

Section channels.
Context (sha1 : list Z -> list Z) (pages : nat).

Definition uuid5 (namespace name : string) : string :=
  let hash := sha1 (bytes_of_hex (replace_char (Ascii.ascii_of_nat 45) EmptyString namespace) ++ bytes_of name) in
  let bytes := alter (fun b => Z.lor (Z.land b 15) 80) 6%nat (take 16 hash) in
  let bytes := alter (fun b => Z.lor (Z.land b 63) 128) 8%nat bytes in
  let hex := hex_of_bytes bytes in
  slice 0 8 hex +:+ "-" +:+ slice 8 4 hex +:+ "-" +:+ slice 12 4 hex +:+ "-" +:+ slice 16 4 hex +:+ "-" +:+ drop_string 20 hex.

Definition directChannelId (tenantId userId botId : string) : string :=
  uuid5 NAMESPACE_URL ("chatticus:direct:[" +:+ String.concat ", " (pythonJsonString <$> [tenantId; userId; botId]) +:+ "]").

(** The direct channel the user has with these bots. *)
Definition existing_direct (uniqueBotIds : list string) (channels : list Channel) : option Channel :=
  List.find (fun c => bool_decide (Channel.kind c = "direct") && bool_decide (participantIds "bot" c = uniqueBotIds)) channels.

Definition store_new_channel (kind : string) (c : Channel) : prog Channel :=
  if bool_decide (kind = "direct") then putChannelIfAbsent c else (putChannel c ;;; Ret c).

Definition open_channel (tenantId userId : string) (uniqueBotIds : list string) (kind : string) (normalizedName idempotencyKey : option string) : prog Channel :=
  let! participants := for_each uniqueBotIds [Participant.mk "human" userId] (fun acc botId =>
    let! b := botById tenantId botId in
    if bool_decide (Bot.tenantId b <> tenantId)
    then Throw (ActorNotInChannelError ("Bot " +:+ pythonRepr botId +:+ " does not belong to tenant " +:+ pythonRepr tenantId +:+ "."))
    else Ret (acc ++ [Participant.mk "bot" botId])) in
  let! existing :=
    if bool_decide (kind = "direct")
    then let! channels := store_listChannels pages tenantId userId in Ret (existing_direct uniqueBotIds channels)
    else Ret None in
  match existing with
  | Some c => Ret c
  | None =>
      let! channelId := if bool_decide (kind = "direct") then Ret (directChannelId tenantId userId (default EmptyString (head uniqueBotIds))) else send NextId in
      let! c := store_new_channel kind (Channel.mk channelId tenantId kind normalizedName participants 1) in
      match idempotencyKey with None => Ret tt | Some k => putChannelIdempotency tenantId k c end ;;;
      Ret c
  end.

Definition createChannel (tenantId userId : string) (botIds : list string) (kind name idempotencyKey : option string) : prog Channel :=
  let kind := default "direct" kind in
  let uniqueBotIds := unique botIds in
  let normalizedName := trim <$> name in
  match channel_identity kind uniqueBotIds normalizedName with
  | Err error => Throw error
  | Ok _ => replayed idempotencyKey (getChannelIdempotency tenantId) (open_channel tenantId userId uniqueBotIds kind normalizedName idempotencyKey)
  end.

Definition getChannel (tenantId channelId : string) : prog Channel :=
  let! record := store_getChannel tenantId channelId in
  match record with
  | None => Throw (ChannelNotFoundError ("Channel " +:+ pythonRepr channelId +:+ " does not exist."))
  | Some c => Ret c
  end.

Definition listChannels (tenantId userId : string) : prog (list Channel) :=
  let! owned := store_listChannels pages tenantId userId in
  Ret (sort_by Channel.channelId (List.filter (fun c => bool_decide (Channel.tenantId c = tenantId)) owned)).

Definition requireChannelTenant (channelId tenantId : string) : prog Channel :=
  let! found := store_getChannel tenantId channelId in
  match found with
  | Some c => Ret c
  | None =>
      let! owningTenant := resolveChannelTenant channelId in
      if match owningTenant with Some owner => bool_decide (owner <> tenantId) | None => false end
      then Throw (ChannelTenantMismatchError ("Tenant " +:+ pythonRepr tenantId +:+ " does not own channel " +:+ pythonRepr channelId +:+ "."))
      else Throw (ChannelNotFoundError ("Channel " +:+ pythonRepr channelId +:+ " does not exist."))
  end.
End channels.
