(* ===== verification/Messages.v ===== *)
(** * Messages

    Posting a message to a channel: [postMessage] of src/conversation/src/domain/messages.ts, with the records of the posts
    that are replayed (store/codecs/idempotency.ts and the methods of [DynamoMessagingStore] on them). A post takes a sequence
    of the channel, puts one item in the mailbox of each participating bot, and hands the message to the turn of the bot it is
    addressed to, or starts that turn. Listing the messages of a channel reads the session storage and is not modelled. *)

From S2P Require Import Prelude Json Dates Types Service Retry Paging TurnCodec Grant TurnStore Turns Mailbox Admission Actions.
From S2P Require Import Probes LiveFiles Policy Workers Organizations Bots Channels.
#[local] Open Scope Z_scope.
#[local] Open Scope prog_scope.

(** ** What a replay finds *)

Definition postIdempotencyKey (tenantId idempotencyKey : string) : key := (rosterPartition tenantId, "idem#" +:+ idempotencyKey).

Definition encodePost (tenantId idempotencyKey : string) (m : ChannelMessageRecord) (turnId : option string) : item :=
  let k := postIdempotencyKey tenantId idempotencyKey in
  put_if "turn_id" AS turnId (list_to_map [
    ("pk", AS k.1); ("sk", AS k.2);
    ("tenant_id", AS tenantId);
    ("channel_id", AS (Message.channelId m));
    ("message_id", AS (Message.messageId m));
    ("seq", AN (Message.seq m));
    ("author_kind", AS (Message.authorKind m));
    ("author_id", AS (Message.authorId m));
    ("body", AS (Message.body m));
    ("addressed_to_bot_id", AS (default EmptyString (Message.addressedToBotId m)));
    ("created_at", AS (toISOString (Message.createdAt m)))]).

(** The message a post was answered with, and the turn it started or joined. *)
Definition PostMessageResult : Type := ChannelMessageRecord * option string.

(** A text that is no date, which the source reads as an invalid date, is a malformed item. *)
Definition decodePost (it : item) : option PostMessageResult :=
  _ ← optionalString it "pk";
  _ ← optionalString it "sk";
  tenantId ← optionalString it "tenant_id";
  channelId ← optionalString it "channel_id";
  messageId ← optionalString it "message_id";
  seq ← required_number it "seq";
  authorKind ← optionalString it "author_kind";
  authorId ← optionalString it "author_id";
  body ← optionalString it "body";
  createdAt ← optionalString it "created_at" ≫= date_of_text;
  Some (Message.mk messageId channelId tenantId seq authorKind authorId body (optionalString it "addressed_to_bot_id") createdAt,
        required_string it "turn_id").

Definition getPostIdempotency (tenantId idempotencyKey : string) : prog (option PostMessageResult) :=
  get_decoded decodePost "idempotency" (postIdempotencyKey tenantId idempotencyKey).

Definition putPostIdempotency (tenantId idempotencyKey : string) (m : ChannelMessageRecord) (turnId : option string) : prog unit :=
  Organizations.put (encodePost tenantId idempotencyKey m turnId).

(** ** Posting *)

Module Post.
Record PostMessageRequest : Type := mk {
  tenantId : string;
  channelId : string;
  authorKind : string;
  authorId : string;
  body : string;
  addressedToBotId : option string;
  idempotencyKey : option string;
  enqueueTurn : option bool;
}.
End Post.
Abbreviation PostMessageRequest := Post.PostMessageRequest.

Definition CLOSING_POLL_ATTEMPTS : nat := 100.
Definition DEFAULT_CLOSING_POLL_MILLISECONDS : Z := 50.

Definition requireParticipant (c : Channel) (kind actorId : string) : exn + unit :=
  if bool_decide (Participant.mk kind actorId ∈ Channel.participants c) then Ok tt
  else Err (ActorNotInChannelError (kind +:+ " " +:+ pythonRepr actorId +:+ " is not a participant of channel "
         +:+ pythonRepr (Channel.channelId c) +:+ ".")).

(** A check that throws. *)
Definition checked (x : exn + unit) : prog unit := match x with Err e => Throw e | Ok _ => Ret tt end.

(** The item of a message in the mailbox of a bot. *)
Definition itemFor (c : Channel) (m : ChannelMessageRecord) (botId : string) : MailboxItem :=
  MailboxItem.mk (Channel.tenantId c) botId (Channel.channelId c) (Message.seq m) (Message.messageId m) (Message.authorKind m)
    (Message.authorId m) (Message.addressedToBotId m) (Message.body m) (toISOString (Message.createdAt m)).

Section messages.
Context `{Collation} (crashes : string -> string -> bool) (closingPollMilliseconds : option Z).

(** The start of the turn of a bot for a message. *)
Definition start_request (c : Channel) (m : ChannelMessageRecord) (botId turnId startedEventId : string) (open : option OpenTurnState) :
  StartTurnRequest :=
  StartTurnRequest.mk (Channel.tenantId c) (Channel.channelId c) botId turnId (Message.seq m) (Message.authorId m)
    (if bool_decide (Message.authorKind m = "human") then Some householdConversationGrant else None)
    (Message.createdAt m) startedEventId (OpenTurnState.pointerTurnId <$> open).

Definition not_accepted (c : Channel) (botId : string) : exn :=
  JsError ("Bot " +:+ pythonRepr botId +:+ " on channel " +:+ pythonRepr (Channel.channelId c)
    +:+ " did not accept a new turn; its previous turn is still closing.").

(** The turn that took the message, and whether it was started for it. *)
Fixpoint admit_attempts (attempts : nat) (c : Channel) (m : ChannelMessageRecord) (botId : string) : prog (string * bool) :=
  match attempts with
  | O => Throw (not_accepted c botId)
  | S attempts =>
      let! open := openTurn (Channel.tenantId c) (Channel.channelId c) botId in
      let is_active := match open with Some o => OpenTurnState.active o | None => false end in
      let is_closing := match open with Some o => OpenTurnState.closing o | None => false end in
      let pointer := match open with Some o => OpenTurnState.pointerTurnId o | None => EmptyString end in
      if is_active && negb is_closing then
        let! steered := steerTurn pointer (itemFor c m botId) in
        if (steered : bool) then Ret (pointer, false) else admit_attempts attempts c m botId
      else if is_active then
        send (Sleep (QArith_base.inject_Z (default DEFAULT_CLOSING_POLL_MILLISECONDS closingPollMilliseconds))) ;;;
        admit_attempts attempts c m botId
      else
        Mailbox.put (itemFor c m botId) ;;;
        let! turnId := send NextId in
        send (SendProbe (Probe.mk (Channel.tenantId c) turnId 0) TURN_DEADLINE_SECONDS) ;;;
        let! startedEventId := send NextId in
        let! started := startTurn (start_request c m botId turnId startedEventId open) in
        if (started : bool) then maybeCrash crashes "message_commit" "after" ;;; Ret (turnId, true)
        else admit_attempts attempts c m botId
  end.

Definition admitAddressedMessage := admit_attempts CLOSING_POLL_ATTEMPTS.

(** One item for each participating bot but the addressed one. *)
Definition deliver_to_others (c : Channel) (m : ChannelMessageRecord) : prog unit :=
  for_each (participantIds "bot" c) tt (fun _ botId =>
    if bool_decide (Some botId <> Message.addressedToBotId m) then Mailbox.put (itemFor c m botId) else Ret tt).

(** What a post does for the bot it is addressed to. *)
Definition hand_over (c : Channel) (m : ChannelMessageRecord) (enqueueTurn : option bool) (botId : string) : prog string :=
  let! admission := admitAddressedMessage c m botId in
  (if (admission.2 : bool) && negb (bool_decide (enqueueTurn = Some false)) then
     requestLogicalEnqueue crashes (RunJob.mk (Channel.tenantId c) (Channel.channelId c) botId admission.1 ["cpu"])
       (logicalEnqueueId admission.1 None) ;;;
     Ret tt
   else Ret tt) ;;;
  Ret admission.1.

Definition message_of (c : Channel) (r : PostMessageRequest) (seq : Z) (messageId : string) (now : Z) : ChannelMessageRecord :=
  Message.mk messageId (Channel.channelId c) (Channel.tenantId c) seq (Post.authorKind r) (Post.authorId r) (Post.body r)
    (Post.addressedToBotId r) now.

(** A post that is not a replay, on the channel it names. *)
Definition post_new (r : PostMessageRequest) (c : Channel) : prog PostMessageResult :=
  maybeCrash crashes "message_commit" "before" ;;;
  let! seq := allocateSeq (Channel.tenantId c) (Channel.channelId c) in
  let! messageId := send NextId in
  let! now := send ClockNow in
  let m := message_of c r seq messageId now in
  deliver_to_others c m ;;;
  let! turnId :=
    match Post.addressedToBotId r with
    | None => Ret None
    | Some botId => let! turnId := hand_over c m (Post.enqueueTurn r) botId in Ret (Some turnId)
    end in
  match Post.idempotencyKey r with None => Ret tt | Some k => putPostIdempotency (Post.tenantId r) k m turnId end ;;;
  Ret (m, turnId).

Definition postMessage (r : PostMessageRequest) : prog PostMessageResult :=
  replayed (Post.idempotencyKey r) (getPostIdempotency (Post.tenantId r)) (
    let! c := requireChannelTenant (Post.channelId r) (Post.tenantId r) in
    checked (requireParticipant c (Post.authorKind r) (Post.authorId r)) ;;;
    match Post.addressedToBotId r with None => Ret tt | Some botId => checked (requireParticipant c "bot" botId) end ;;;
    post_new r c).
End messages.
