(* ===== verification/MessageTheorems.v ===== *)
(** * Theorems on messages, bots and tasks

    What an answered post has done ([answered_post_is_delivered]), that a post of someone who takes no part in the channel
    writes nothing ([foreign_post_writes_nothing]), and what a replay of a post answers ([answered_post_is_replayed]); the
    names of bots ([bot_names_are_unique]) and their memory; the ends of a task. *)

From S2P Require Import Prelude Json Dates Types Service Retry Paging TurnCodec Grant TurnStore Turns TurnSpec TurnRefine.
From S2P Require Import TurnSystem TurnPrograms Mailbox Admission Actions Probes Demo ProbeTheorems LiveFiles Policy Footprint.
From S2P Require Import Workers Organizations SpendTheorems OrganizationTheorems OrganizationCodec AdmissionTheorems Bots Channels Messages.
#[local] Open Scope Z_scope.
#[local] Open Scope cond_scope.
#[local] Open Scope prog_scope.

(** ** Names without a separator *)

Definition plain_text (s : string) : Prop := string_has (Ascii.ascii_of_nat 35) s = false.

(** The first separator of a text after a plain name. *)
Lemma split_first (a s t v : string) :
  plain_text a -> a +:+ "#" +:+ s = t +:+ "#" +:+ v -> (t = a /\ s = v) \/ exists t', t = a +:+ "#" +:+ t' /\ s = t' +:+ "#" +:+ v.
Proof.
  unfold plain_text. revert t. induction a as [|c a IH]; intros [|d t] Ha Heq; cbn in *.
  - injection Heq as Heq. left. split; [done|exact Heq].
  - injection Heq as <- Heq. right. exists t. split; [done|exact Heq].
  - injection Heq as -> _. done.
  - injection Heq as <- Heq. apply orb_false_iff in Ha as [_ Ha]. destruct (IH t Ha Heq) as [[-> ->]|(t' & -> & ->)]; [by left|right; by exists t'].
Qed.

Lemma plain_no_separator (a b : string) : ~ plain_text (a +:+ "#" +:+ b).
Proof. unfold plain_text. induction a as [|c a IH]; cbn; [done|]. intros [_ Ha]%orb_false_iff. by apply IH. Qed.

Lemma channel_not_turn (tenantId channelId : string) :
  plain_text tenantId -> plain_text channelId -> ~ turn_partition (tenantId +:+ "#channel#" +:+ channelId).
Proof.
  intros Ht Hc (t & u & Heq). unfold turnItemPartitionKey in Heq.
  change (tenantId +:+ "#" +:+ ("channel#" +:+ channelId) = t +:+ "#" +:+ ("turn#" +:+ u)) in Heq.
  apply split_first in Heq as [[_ Heq]|(t2 & _ & Heq)]; [discriminate Heq| |done].
  change ("channel" +:+ "#" +:+ channelId = t2 +:+ "#" +:+ ("turn#" +:+ u)) in Heq.
  apply split_first in Heq as [[_ ->]|(t3 & _ & ->)]; [|by apply plain_no_separator in Hc|done].
  by apply (plain_no_separator "turn" u).
Qed.

Section post.
Context `{Collation} `{Service} (I : World -> World -> Prop) (HI : forall w w', I w w' -> sys w w').
Context (crashes : string -> string -> bool) (closingPollMilliseconds : option Z).

(** ** The mailbox *)

Definition mailbox_key (m : MailboxItem) : key :=
  (mailboxPartitionKey (MailboxItem.tenantId m) (MailboxItem.botId m) (MailboxItem.channelId m), mailboxSortKey (MailboxItem.seq m)).

Definition with_mail (w : World) (m : MailboxItem) : World := with_tbl w (<[mailbox_key m := mailboxItemAttributes m]> (tbl w)).

Lemma with_mail_in (w : World) (m : MailboxItem) : in_mailbox (with_mail w m) m.
Proof using Type. unfold in_mailbox. cbn. apply lookup_insert_eq. Qed.

Lemma with_mail_sys (w : World) (m : MailboxItem) : 0 <= MailboxItem.seq m -> sys w (with_mail w m).
Proof using Type.
  intros Hseq. apply sys_frame. intros pk _ sk Hsk. cbn. apply lookup_insert_ne. intros Heq%(f_equal snd). cbn in Heq. subst sk.
  by eapply mailbox_not_slot.
Qed.

(** At a moment between two states the mailbox of a bot held the message. *)
Definition delivered (w w' : World) (m : MailboxItem) : Prop := exists w1, rtc sys w w1 /\ in_mailbox w1 m /\ rtc sys w1 w'.

Lemma delivered_within (w0 w w' w1 : World) (m : MailboxItem) : rtc sys w0 w -> delivered w w' m -> rtc sys w' w1 -> delivered w0 w1 m.
Proof using Type. intros Ha (w2 & ? & ? & ?) Hz. exists w2. split_and!; [by trans w|done|by trans w']. Qed.

Lemma mailbox_put_exec (m : MailboxItem) w w' :
  0 <= MailboxItem.seq m -> exec I (Mailbox.put m) w (Ok tt) w' -> rtc sys w w' /\ delivered w w' m.
Proof using HI.
  intros Hseq Hex. apply exec_catch in Hex as [([] & _ & Hex)|(e & w1 & _ & Hx)]; [|destruct e; by destruct Hx as [[=] _]].
  apply exec_send in Hex as (w1 & w2 & Ha%(others_sys I HI) & (k & Hk & _ & ->)%respond_contract & Hz%(others_sys I HI)).
  rewrite mailboxItem_key in Hk. injection Hk as <-. pose proof (with_mail_sys w1 m Hseq) as Hs. split.
  - trans w1; [done|]. by eapply rtc_l.
  - exists (with_mail w1 m). split_and!; [by eapply rtc_r|apply with_mail_in|done].
Qed.

(** ** The other bots *)

Lemma deliver_each (c : Channel) (m : ChannelMessageRecord) (l : list string) w w' :
  0 <= Message.seq m ->
  exec I (for_each l tt (fun _ botId => if bool_decide (Some botId <> Message.addressedToBotId m) then Mailbox.put (itemFor c m botId) else Ret tt)) w (Ok tt) w' ->
  rtc sys w w' /\ forall botId, botId ∈ l -> Some botId <> Message.addressedToBotId m -> delivered w w' (itemFor c m botId).
Proof using HI.
  intros Hseq. revert w. induction l as [|b l IH]; intros w.
  - intros [_ Hw%(others_sys I HI)]. split; [done|]. by intros botId ?%elem_of_nil.
  - intros [([] & w1 & Hb & Hl)|(e & [=] & _)]%exec_bind. destruct (IH _ Hl) as [Hs Hall].
    assert (rtc sys w w1 /\ (Some b <> Message.addressedToBotId m -> delivered w w1 (itemFor c m b))) as [Hs1 Hd].
    { case_bool_decide as Hne; [|destruct Hb as [_ ?%(others_sys I HI)]; by split].
      by apply mailbox_put_exec in Hb as [? ?]. }
    split; [by trans w1|]. intros botId [->|Hin]%elem_of_cons Hne.
    + eapply delivered_within; [reflexivity|by apply Hd|done].
    + eapply delivered_within; [exact Hs1|by apply Hall|reflexivity].
Qed.

(** ** The addressed bot *)

(** A turn that was active and not closing took the message in one write with the check that it was. *)
Definition steered_into (w w' : World) (m : MailboxItem) (turnId : string) : Prop :=
  exists w1, rtc sys w w1 /\
    holds (status_active AND AttrNotExists "closing") (item_at w1 (metaKey (MailboxItem.tenantId m) turnId)) = true /\
    rtc sys (with_mail w1 m) w'.

(** The message was in the mailbox before the turn it started began; from its start on the pointer of the bot named the turn. *)
Definition started_for (w w' : World) (c : Channel) (m : ChannelMessageRecord) (botId turnId : string) : Prop :=
  exists startedEventId open w1,
    let r := start_request c m botId turnId startedEventId open in
    delivered w w1 (itemFor c m botId) /\ rtc sys w1 w' /\ represents w1 (turnItemPartitionKey (Channel.tenantId c) turnId) (started r) /\
    (tbl w1 !! activeTurnPointerKey (Channel.tenantId c) (Channel.channelId c) botId) ≫= (fun it => required_string it "turn_id") = Some turnId.

Definition taken (w w' : World) (c : Channel) (m : ChannelMessageRecord) (botId turnId : string) (begun : bool) : Prop :=
  if begun then started_for w w' c m botId turnId else steered_into w w' (itemFor c m botId) turnId.

Lemma taken_within w0 w w' w1 c m botId turnId begun :
  rtc sys w0 w -> taken w w' c m botId turnId begun -> rtc sys w' w1 -> taken w0 w1 c m botId turnId begun.
Proof using Type.
  intros Ha Ht Hz. destruct begun; cbn in *.
  - destruct Ht as (ev & open & w2 & Hd & Hs & Hr & Hp). exists ev, open, w2. cbn zeta. split_and!; [|by trans w'|done|done].
    eapply delivered_within; [done|exact Hd|reflexivity].
  - destruct Ht as (w2 & Hs & Hh & Hw). exists w2. split_and!; [by trans w|done|by trans w'].
Qed.

Lemma startTurn_started c m botId turnId ev open w w' :
  all_ok w -> exec I (startTurn (start_request c m botId turnId ev open)) w (Ok true) w' ->
  exists w1, rtc sys w w1 /\ rtc sys w1 w' /\
    represents w1 (turnItemPartitionKey (Channel.tenantId c) turnId) (started (start_request c m botId turnId ev open)) /\
    (tbl w1 !! activeTurnPointerKey (Channel.tenantId c) (Channel.channelId c) botId) ≫= (fun it => required_string it "turn_id") = Some turnId.
Proof using HI.
  intros Hok [(_ & w1 & w2 & Ha & Hcon & Hz)|[[[=]|[e [=]]] _]]%startTurn_exec.
  pose proof (others_ok I HI _ _ Hok Ha) as Hok1. destruct (start_represents _ _ _ Hok1 Hcon) as (_ & Hrep & Hsys).
  exists w2. split_and!; [eapply rtc_r; [by apply (others_sys I HI)|done]|by apply (others_sys I HI)|exact Hrep|].
  destruct (start_conditions _ _ _ Hcon) as (_ & _ & ->). exact (start_pointed w1 (start_request c m botId turnId ev open) PointerActive true).
Qed.

Lemma crash_silent boundary window w o w' : exec I (maybeCrash crashes boundary window) w o w' -> rtc I w w'.
Proof using Type. unfold maybeCrash. destruct (crashes _ _); by intros [_ ?]. Qed.

Lemma safe_sleep q : safe_request (Sleep q).
Proof using Type. apply safe_same_table. by intros w v w' ->. Qed.

Lemma openTurn_silent tenantId channelId botId w o w' : all_ok w -> exec I (openTurn tenantId channelId botId) w o w' -> rtc sys w w'.
Proof using HI. intros Hok Hex. by apply (guarantees_openTurn I HI _ _ _ _ _ _ Hok) in Hex. Qed.

(** An attempt that found no active turn: the mailbox item first, then the start. *)
Lemma begin_exec c m botId open (n : nat) w turnId begun w' :
  0 <= Message.seq m -> all_ok w ->
  (forall w1, all_ok w1 -> exec I (admit_attempts crashes closingPollMilliseconds n c m botId) w1 (Ok (turnId, begun)) w' ->
     rtc sys w1 w' /\ taken w1 w' c m botId turnId begun) ->
  exec I (
    Mailbox.put (itemFor c m botId) ;;;
    let! turnId := send NextId in
    send (SendProbe (Probe.mk (Channel.tenantId c) turnId 0) TURN_DEADLINE_SECONDS) ;;;
    let! startedEventId := send NextId in
    let! started := startTurn (start_request c m botId turnId startedEventId open) in
    if (started : bool) then maybeCrash crashes "message_commit" "after" ;;; Ret (turnId, true)
    else admit_attempts crashes closingPollMilliseconds n c m botId) w (Ok (turnId, begun)) w' ->
  rtc sys w w' /\ taken w w' c m botId turnId begun.
Proof using HI.
  intros Hseq Hok IH [([] & w1 & [Ha Hd]%mailbox_put_exec & Hex)|(e & [=] & _)]%exec_bind; [|done].
  pose proof (syses_ok _ _ Hok Ha) as Hok1.
  apply exec_bind in Hex as [(t & w2 & Ht & Hex)|(e & [=] & _)]. apply (guarantees_send I HI NextId safe_next_id) in Ht as Hs2; [|done].
  pose proof (syses_ok _ _ Hok1 Hs2) as Hok2.
  apply exec_bind in Hex as [([] & w3 & Hprobe & Hex)|(e & [=] & _)]. apply (guarantees_send I HI _ (safe_probe _ _)) in Hprobe as Hs3; [|done].
  pose proof (syses_ok _ _ Hok2 Hs3) as Hok3.
  apply exec_bind in Hex as [(ev & w4 & Hev & Hex)|(e & [=] & _)]. apply (guarantees_send I HI NextId safe_next_id) in Hev as Hs4; [|done].
  pose proof (syses_ok _ _ Hok3 Hs4) as Hok4. assert (rtc sys w1 w4) as Hs14 by (trans w2; [done|]; by trans w3).
  apply exec_bind in Hex as [(b & w5 & Hstart & Hex)|(e & [=] & _)].
  pose proof (guarantees_startTurn I HI _ _ _ _ Hok4 Hstart) as Hs5. destruct b.
  - apply exec_bind in Hex as [([] & w6 & Hc%crash_silent%(others_sys I HI) & [[= -> ->] Hw%(others_sys I HI)])|(e & [=] & _)].
    assert (rtc sys w5 w') as Hs5' by by trans w6. apply startTurn_started in Hstart as (w7 & Hs7 & Hs75 & Hr & Hp); [|done].
    split; [trans w4; [by trans w1|]; by trans w5|]. exists ev, open, w7. cbn zeta. split_and!; [|by trans w5|done|done].
    eapply delivered_within; [reflexivity|exact Hd|by trans w4].
  - destruct (IH w5) as [Hs Ht']; [by eapply syses_ok|done|]. assert (rtc sys w w5) as Hs05 by (trans w1; [done|]; by trans w4).
    split; [by trans w5|]. by eapply taken_within.
Qed.

Lemma admit_exec c m botId (n : nat) w turnId begun w' :
  0 <= Message.seq m -> all_ok w ->
  exec I (admit_attempts crashes closingPollMilliseconds n c m botId) w (Ok (turnId, begun)) w' ->
  rtc sys w w' /\ taken w w' c m botId turnId begun.
Proof using HI.
  intros Hseq. revert w. induction n as [|n IH]; intros w Hok; [by intros [[=] _]|]. cbn [admit_attempts].
  intros [(open & w1 & Ha%openTurn_silent & Hex)|(e & [=] & _)]%exec_bind; [|done]. pose proof (syses_ok _ _ Hok Ha) as Hok1.
  enough (rtc sys w1 w' /\ taken w1 w' c m botId turnId begun) as [Hs Ht] by (split; [by trans w1|by eapply taken_within]).
  destruct (_ && _).
  - apply exec_bind in Hex as [(b & w2 & Hsteer & Hex)|(e & [=] & _)].
    pose proof (guarantees_steerTurn I HI _ (itemFor c m botId) Hseq _ _ _ Hok1 Hsteer) as Hs2. destruct b.
    + destruct Hex as [[= -> ->] Hw%(others_sys I HI)]. split; [by trans w2|].
      apply steerTurn_exec in Hsteer as [(_ & w3 & w4 & Hw3 & Hcon & Hw4)|[[[=]|[e [=]]] _]]. apply steer_contract in Hcon as [Hh ->].
      exists w3. split_and!; [by apply (others_sys I HI)|exact Hh|]. trans w2; [by apply (others_sys I HI)|done].
    + destruct (IH w2) as [Hs Ht]; [by eapply syses_ok|done|]. split; [by trans w2|by eapply taken_within].
  - destruct open as [o|]; [destruct (OpenTurnState.active o)|]; [|by eapply begin_exec..].
    apply exec_bind in Hex as [([] & w2 & Hsleep & Hex)|(e & [=] & _)].
    assert (rtc sys w1 w2) as Hs2 by (eapply (guarantees_send I HI); [apply safe_sleep|exact Hok1|exact Hsleep]).
    destruct (IH w2) as [Hs Ht]; [by eapply syses_ok|done|]. split; [by trans w2|by eapply taken_within].
Qed.

(** ** The run of a started turn *)

(** A turn whose record refuses an identifier remembers it. *)
Lemma recordLogicalEnqueue_refused tenantId turnId enqueueId s w w' :
  let pk := turnItemPartitionKey tenantId turnId in
  all_ok w -> represents w pk s -> reachable s -> exec I (recordLogicalEnqueue tenantId turnId enqueueId) w (Ok false) w' -> remembers w' pk enqueueId.
Proof using HI.
  intros pk Hok Hrep Hreach [(o & w1 & Hu & Hrest)|(e & [=] & _)]%exec_bind. destruct o as [it0|]; [by destruct Hrest as [[=] _]|].
  assert (rtc sys w1 w') as Hs1.
  { apply exec_bind in Hrest as [(ex & w2 & Hget & Hr)|(e & [=] & _)]. apply exec_get in Hget as (w3 & Ha%(others_sys I HI) & -> & Hz%(others_sys I HI)).
    destruct (tbl w3 !! _); [|by destruct Hr as [[=] _]]. destruct Hr as [_ Hr%(others_sys I HI)]. trans w3; [done|]. by trans w2. }
  apply exec_null_when in Hu as [(a & [=] & _)|[[_ Hu]|(e & _ & [=] & _)]].
  apply exec_retry_send in Hu as (w2 & w3 & Ha & [-> [_ Hc]] & Hz%(others_sys I HI)). pose proof (others_ok I HI _ _ Hok Ha) as Hok2.
  destruct (syses_refine _ _ _ _ Hok (others_sys I HI _ _ Ha) Hrep (reachable_inv _ Hreach)) as (s2 & Hsteps & Hrep2).
  assert (reachable s2) as Hreach2 by (destruct Hreach as (s0 & ? & ?); exists s0; split; [done|by trans s]).
  apply (remembers_stays w2); [done|by trans w1|]. exists s2. split_and!; [done..|].
  pose proof Hrep2 as [it [Hit _ _ _ _]]. destruct (represents_reads _ _ _ _ Hrep2 Hit) as [Hwf Hr].
  unfold item_at, metaKey in Hc. fold pk in Hc. rewrite Hit in Hc. cbn [default from_option holds id] in Hc. change (id it) with it in Hc.
  destruct (wf_pk _ Hwf) as [v Hv]. rewrite bool_decide_eq_true_2 in Hc by by rewrite Hv. cbn [andb] in Hc.
  apply orb_false_iff in Hc as [_ Hc%negb_false_iff]. rewrite <- (r_enqueues _ _ Hr). unfold string_set.
  destruct (it !! "logical_enqueue_ids") as [[]|]; try done. by apply bool_decide_eq_true in Hc.
Qed.

Lemma requestLogicalEnqueue_remembers job enqueueId s b w w' :
  let pk := turnItemPartitionKey (RunJob.tenantId job) (RunJob.turnId job) in
  all_ok w -> represents w pk s -> reachable s -> exec I (requestLogicalEnqueue crashes job enqueueId) w (Ok b) w' ->
  rtc sys w w' /\ remembers w' pk enqueueId.
Proof using HI.
  intros pk Hok Hrep Hreach Hex. split; [by apply (guarantees_requestLogicalEnqueue I HI crashes) in Hex|].
  destruct b; [by eapply requestLogicalEnqueue_exec|].
  apply exec_bind in Hex as [([] & w1 & Ha%crash_silent & Hex)|(e & [=] & _)].
  destruct (syses_refine _ _ _ _ Hok (others_sys I HI _ _ Ha) Hrep (reachable_inv _ Hreach)) as (s1 & Hsteps & Hrep1).
  pose proof (others_ok I HI _ _ Hok Ha) as Hok1.
  apply exec_bind in Hex as [(b & w2 & Hrec & Hex)|(e & [=] & _)]. destruct b.
  { apply exec_bind in Hex as [([] & w3 & _ & Hex)|(e & [=] & _)]. apply exec_bind in Hex as [([] & w4 & _ & [[=] _])|(e & [=] & _)]. }
  destruct Hex as [_ Hw%(others_sys I HI)]. pose proof (guarantees_recordLogicalEnqueue I HI _ _ _ _ _ _ Hok1 Hrec) as Hs2.
  eapply (remembers_stays w2); [by eapply syses_ok|done|]. eapply recordLogicalEnqueue_refused; [exact Hok1|exact Hrep1| |exact Hrec].
  destruct Hreach as (s0 & ? & ?). exists s0. split; [done|by trans s].
Qed.

(** What the addressed bot gets: its turn takes the message, and the run of a turn that was started is asked for. *)
Definition handed (w w' : World) (c : Channel) (m : ChannelMessageRecord) (enqueueTurn : option bool) (botId turnId : string) : Prop :=
  exists begun, taken w w' c m botId turnId begun /\
    (begun = true -> enqueueTurn <> Some false ->
     remembers w' (turnItemPartitionKey (Channel.tenantId c) turnId) (logicalEnqueueId turnId None)).

Lemma hand_over_exec c m enqueueTurn botId w turnId w' :
  0 <= Message.seq m -> all_ok w -> exec I (hand_over crashes closingPollMilliseconds c m enqueueTurn botId) w (Ok turnId) w' ->
  rtc sys w w' /\ handed w w' c m enqueueTurn botId turnId.
Proof using HI.
  unfold hand_over, admitAddressedMessage. generalize CLOSING_POLL_ATTEMPTS as attempts.
  intros attempts Hseq Hok [([t begun] & w1 & Ha & Hex)|(e & [=] & _)]%exec_bind. apply admit_exec in Ha as [Hs1 Ht]; [|done..].
  pose proof (syses_ok _ _ Hok Hs1) as Hok1. cbn [fst snd] in Hex.
  apply exec_bind in Hex as [([] & w2 & Hrun & [[= ->] Hw%(others_sys I HI)])|(e & [=] & _)].
  assert (rtc sys w1 w2 /\ (begun = true -> enqueueTurn <> Some false ->
    remembers w2 (turnItemPartitionKey (Channel.tenantId c) t) (logicalEnqueueId t None))) as [Hs2 Hrem].
  { destruct begun; [|destruct Hrun as [_ ?%(others_sys I HI)]; by split]. cbn [andb] in Hrun.
    case_bool_decide as He; cbn [negb] in Hrun; [destruct Hrun as [_ ?%(others_sys I HI)]; by split|].
    apply exec_bind in Hrun as [(b & w3 & Hreq & [_ Hw3%(others_sys I HI)])|(e & [=] & _)].
    pose proof Ht as (ev & open & w4 & Hd & Hs4 & Hrep & _).
    pose proof (started_initial (start_request c m botId t ev open)) as Hinit. destruct Hd as (w5 & Hs5 & _ & Hs54).
    assert (all_ok w4) as Hok4 by (eapply syses_ok; [exact Hok|by trans w5]).
    destruct (syses_refine _ _ _ _ Hok4 Hs4 Hrep (spec_initial_inv _ Hinit)) as (s1 & Hsteps & Hrep1).
    destruct (requestLogicalEnqueue_remembers (RunJob.mk (Channel.tenantId c) (Channel.channelId c) botId t ["cpu"]) _ s1 b _ _ Hok1 Hrep1 ltac:(by exists (started (start_request c m botId t ev open))) Hreq) as [Hs3 Hrem].
    split; [by trans w3|]. intros _ _. eapply (remembers_stays w3); [exact (syses_ok _ _ Hok1 Hs3)|done|exact Hrem]. }
  assert (rtc sys w1 w') as Hs1' by by trans w2. split; [by trans w1|]. exists begun. split.
  - eapply taken_within; [reflexivity|exact Ht|done].
  - intros Hb He. eapply (remembers_stays w2); [exact (syses_ok _ _ Hok1 Hs2)|done|by apply Hrem].
Qed.

(** ** A post *)

Definition channel_at (w : World) (tenantId channelId : string) (c : Channel) : Prop :=
  exists it, tbl w !! channelKey tenantId channelId = Some it /\ decodeChannel it = Some c.

Lemma requireChannelTenant_exec channelId tenantId w c w' :
  exec I (requireChannelTenant channelId tenantId) w (Ok c) w' ->
  exists w1, rtc I w w1 /\ rtc I w1 w' /\ channel_at w1 tenantId channelId c.
Proof using Type.
  intros [(found & w1 & (w2 & Ha & Hz & Hf)%exec_get_record & Hex)|(e & [=] & _)]%exec_bind. destruct found as [c'|].
  - destruct Hex as [[= ->] Hw]. exists w2. split_and!; [done|by trans w1|exact Hf].
  - apply exec_bind in Hex as [(o & w3 & _ & Hex)|(e & [=] & _)]. destruct (match o with Some _ => _ | None => _ end); by destruct Hex as [[=] _].
Qed.

Lemma checked_exec x w w' : exec I (checked x) w (Ok tt) w' -> x = Ok tt /\ rtc I w w'.
Proof using Type. destruct x as [e|[]]; cbn; [by intros [[=] _]|by intros [_ ?]]. Qed.

Lemma requireParticipant_ok c kind actorId : requireParticipant c kind actorId = Ok tt -> Participant.mk kind actorId ∈ Channel.participants c.
Proof using Type. unfold requireParticipant. case_bool_decide; [by intros _|by intros [=]]. Qed.

(** Counters of channels are not negative. *)
Definition numbered (w : World) : Prop := forall tenantId channelId, 0 <= next_seq w tenantId channelId.

(** What an answered post of [r] has done between two states. *)
Record posted (w w' : World) (r : PostMessageRequest) (c : Channel) (m : ChannelMessageRecord) (turnId : option string) : Prop := mk_posted {
  posted_message : exists seq messageId now, m = message_of c r seq messageId now;
  posted_seq : exists w1, rtc sys w w1 /\ next_seq w1 (Channel.tenantId c) (Channel.channelId c) = Message.seq m + 1 /\ rtc sys w1 w';
  posted_author : Participant.mk (Post.authorKind r) (Post.authorId r) ∈ Channel.participants c;
  posted_others : forall botId, Participant.mk "bot" botId ∈ Channel.participants c -> Some botId <> Post.addressedToBotId r ->
    delivered w w' (itemFor c m botId);
  posted_addressed :
    match Post.addressedToBotId r with
    | None => turnId = None
    | Some botId => Participant.mk "bot" botId ∈ Channel.participants c /\
        exists t, turnId = Some t /\ handed w w' c m (Post.enqueueTurn r) botId t
    end;
  posted_replay : forall k, Post.idempotencyKey r = Some k ->
    exists w1, rtc sys w w1 /\ rtc sys (with_tbl w1 (<[postIdempotencyKey (Post.tenantId r) k := encodePost (Post.tenantId r) k m turnId]> (tbl w1))) w';
}.

Lemma allocateSeq_moves tenantId channelId w v w' :
  plain_text tenantId -> plain_text channelId -> exec I (allocateSeq tenantId channelId) w (Ok v) w' ->
  exists w1 w2, rtc I w w1 /\ v = next_seq w1 tenantId channelId /\ sys w1 w2 /\ next_seq w2 tenantId channelId = v + 1 /\ rtc sys w2 w'.
Proof using HI.
  intros Ht Hc [(it & w1 & (w2 & w3 & Ha & (_ & -> & ->)%respond_contract & Hz%(others_sys I HI))%exec_send & Hrest)|(e & [=] & _)]%exec_bind.
  set (k := (tenantId +:+ "#channel#" +:+ channelId, "meta")) in *.
  set (it' := apply_actions [INCREMENT "next_seq" 1 1] (base_item k (tbl w2 !! k))) in *.
  assert (it' !! "next_seq" = Some (AN (next_seq w2 tenantId channelId + 1))) as Hn.
  { unfold it', next_seq, item_at, apply_actions. fold k. cbn [foldl apply_action].
    destruct (tbl w2 !! k) as [it|]; cbn [base_item default from_option]; [|done]. unfold base_item, default, id. cbn.
    destruct (it !! "next_seq") as [[]|]; by rewrite lookup_insert_eq. }
  unfold required_number in Hrest. rewrite Hn in Hrest. destruct Hrest as [[= ->] Hw'%(others_sys I HI)].
  exists w2, (with_tbl w2 (<[k := it']> (tbl w2))). split_and!; [done|lia| | |by trans w1].
  - apply sys_frame. intros pk Hpk sk _. cbn [tbl with_tbl World.tbl]. apply lookup_insert_ne. intros [= <- _].
    exact (channel_not_turn _ _ Ht Hc Hpk).
  - unfold next_seq at 1, item_at. fold k. cbn [tbl with_tbl]. rewrite lookup_insert_eq. unfold default, id. cbn [from_option].
    rewrite Hn. lia.
Qed.

Lemma participant_bot botId c : Participant.mk "bot" botId ∈ Channel.participants c <-> botId ∈ participantIds "bot" c.
Proof using Type.
  unfold participantIds. rewrite list_elem_of_fmap. split.
  - intros Hin. exists (Participant.mk "bot" botId). split; [done|]. apply list_elem_of_In, filter_In. split; [by apply list_elem_of_In|done].
  - intros (p & -> & [Hin%list_elem_of_In Hk%bool_decide_eq_true]%list_elem_of_In%filter_In). by destruct p as [k a]; cbn in *; subst.
Qed.

(** ** What others are relied on *)

Context (numbered_stays : forall w w', I w w' -> numbered w -> numbered w').

Lemma numbered_others w w' : rtc I w w' -> numbered w -> numbered w'.
Proof using numbered_stays. induction 1; eauto. Qed.

Lemma replay_put tenantId k m turnId w w' :
  exec I (putPostIdempotency tenantId k m turnId) w (Ok tt) w' ->
  exists w1, rtc sys w w1 /\
    rtc sys (with_tbl w1 (<[postIdempotencyKey tenantId k := encodePost tenantId k m turnId]> (tbl w1))) w'.
Proof using HI.
  intros (w1 & Ha & Hz)%(exec_put I _ (postIdempotencyKey tenantId k)); [|by destruct turnId].
  exists w1. split; by apply (others_sys I HI).
Qed.

Lemma replay_put_sys tenantId k it w : sys w (with_tbl w (<[postIdempotencyKey tenantId k := it]> (tbl w))).
Proof using Type.
  apply sys_frame. intros pk _ sk Hsk. cbn. apply lookup_insert_ne. intros [= _ <-]. destruct Hsk as [[=]|Hp]; discriminate Hp.
Qed.

Lemma post_new_exec r c w m turnId w' :
  all_ok w -> numbered w -> plain_text (Channel.tenantId c) -> plain_text (Channel.channelId c) ->
  Participant.mk (Post.authorKind r) (Post.authorId r) ∈ Channel.participants c ->
  (forall botId, Post.addressedToBotId r = Some botId -> Participant.mk "bot" botId ∈ Channel.participants c) ->
  exec I (post_new crashes closingPollMilliseconds r c) w (Ok (m, turnId)) w' -> posted w w' r c m turnId.
Proof using HI numbered_stays.
  intros Hok Hnum Hpt Hpc Hauthor Hbot [([] & w1 & Ha%crash_silent & Hex)|(e & [=] & _)]%exec_bind.
  apply exec_bind in Hex as [(seq & w2 & (w3 & w4 & H3 & -> & H34 & H4 & H42)%allocateSeq_moves & Hex)|(e & [=] & _)]; [|done..].
  set (seq := next_seq w3 _ _) in *. assert (0 <= seq) as Hseq by (apply (numbered_others w w3); [by trans w1|done]).
  assert (rtc sys w w4) as Hs4 by (eapply rtc_r; [apply (others_sys I HI); by trans w1|done]).
  assert (rtc sys w w2) as Hs2 by by trans w4. pose proof (syses_ok _ _ Hok Hs2) as Hok2.
  apply exec_bind in Hex as [(id & w5 & Hid & Hex)|(e & [=] & _)]. apply (guarantees_send I HI NextId safe_next_id) in Hid as Hs5; [|done].
  pose proof (syses_ok _ _ Hok2 Hs5) as Hok5.
  apply exec_bind in Hex as [(now & w6 & Hnow & Hex)|(e & [=] & _)]. apply (guarantees_send I HI ClockNow safe_clock) in Hnow as Hs6; [|done].
  pose proof (syses_ok _ _ Hok5 Hs6) as Hok6. assert (rtc sys w w6) as Hs06 by (trans w2; [done|]; by trans w5).
  apply exec_bind in Hex as [([] & w7 & [Hs7 Hothers]%deliver_each & Hex)|(e & [=] & _)]; [|done].
  pose proof (syses_ok _ _ Hok6 Hs7) as Hok7.
  set (m' := message_of c r seq id now) in *.
  apply exec_bind in Hex as [(turn & w8 & Hturn & Hex)|(e & [=] & _)].
  assert (rtc sys w7 w8 /\ match Post.addressedToBotId r with
    | None => turn = None | Some botId => exists t, turn = Some t /\ handed w7 w8 c m' (Post.enqueueTurn r) botId t end) as [Hs8 Haddr].
  { destruct (Post.addressedToBotId r) as [botId|]; [|by destruct Hturn as [[= ->] ?%(others_sys I HI)]].
    apply exec_bind in Hturn as [(t & w9 & Hh & [[= ->] Hw%(others_sys I HI)])|(e & [=] & _)].
    apply hand_over_exec in Hh as [Hs9 Hd]; [|done..]. split; [by trans w9|]. exists t. split; [done|].
    destruct Hd as (begun & Ht & Hrem). exists begun. split; [by eapply taken_within; [reflexivity| |]|].
    intros Hb He. eapply (remembers_stays w9); [exact (syses_ok _ _ Hok7 Hs9)|done|by apply Hrem]. }
  pose proof (syses_ok _ _ Hok7 Hs8) as Hok8.
  apply exec_bind in Hex as [([] & w9 & Hput & [[= -> ->] Hw%(others_sys I HI)])|(e & [=] & _)].
  assert (rtc sys w8 w9 /\ forall k, Post.idempotencyKey r = Some k -> exists w10, rtc sys w8 w10 /\
    rtc sys (with_tbl w10 (<[postIdempotencyKey (Post.tenantId r) k := encodePost (Post.tenantId r) k m' turn]> (tbl w10))) w9) as [Hs9 Hreplay].
  { destruct (Post.idempotencyKey r) as [k|]; [|by destruct Hput as [_ ?%(others_sys I HI)]].
    apply replay_put in Hput as (w10 & Hs10 & Hs). split; [|intros k' [= <-]; by exists w10].
    trans w10; [done|]. eapply rtc_l; [apply replay_put_sys|exact Hs]. }
  assert (rtc sys w7 w') as Hs7' by (trans w8; [done|]; by trans w9). assert (rtc sys w w8) as Hs08 by (trans w6; [done|]; by trans w7).
  split.
  - by exists seq, id, now.
  - exists w4. split_and!; [done|exact H4|]. trans w2; [done|]. trans w5; [done|]. trans w6; [done|]. by trans w7.
  - done.
  - intros botId Hin%participant_bot Hne. eapply delivered_within; [exact Hs06|by apply Hothers|exact Hs7'].
  - destruct (Post.addressedToBotId r) as [botId|]; [|exact Haddr]. split; [by apply Hbot|]. destruct Haddr as (t & -> & begun & Ht & Hrem).
    exists t. split; [done|]. exists begun. split; [eapply taken_within; [|exact Ht|by trans w9]; by trans w6|].
    intros Hb He. eapply (remembers_stays w8); [exact Hok8|by trans w9|by apply Hrem].
  - intros k Hk. destruct (Hreplay k Hk) as (w10 & Hs10 & Hs). exists w10. split; [by trans w8|by trans w9].
Qed.
End post.

(** ** Replays *)

Section replay.
Context `{Service} (I : World -> World -> Prop).

Lemma replayed_exec {A : Type} (chosen : option string) (decode : item -> option A) what (place : string -> key) (create : prog A) w a w' :
  exec I (replayed chosen (fun s => get_decoded decode what (place s)) create) w (Ok a) w' ->
  (exists s w1 it, chosen = Some s /\ rtc I w w1 /\ rtc I w1 w' /\ tbl w1 !! place s = Some it /\ decode it = Some a) \/
  (exists w1, rtc I w w1 /\ exec I create w1 (Ok a) w').
Proof.
  unfold replayed. destruct chosen as [s|]; [|intros Hex; right; by exists w].
  intros [(found & w1 & (w2 & Ha & Hz & Hf)%exec_get_record & Hex)|(e & [=] & _)]%exec_bind. destruct found as [b|].
  - destruct Hf as (it & Hit & Hd). destruct Hex as [[= ->] Hw]. left. exists s, w2, it. split_and!; [done|done|by trans w1|done|done].
  - right. exists w1. split; [by trans w2|done].
Qed.

(** A message that its record keeps. *)
Definition storable_post (tenantId : string) (m : ChannelMessageRecord) : Prop :=
  tenantId <> EmptyString /\ Message.tenantId m = tenantId /\ Message.channelId m <> EmptyString /\ Message.messageId m <> EmptyString /\
  Message.authorKind m <> EmptyString /\ Message.authorId m <> EmptyString /\ Message.addressedToBotId m <> Some EmptyString /\
  four_digit_year (Message.createdAt m).

Lemma post_round_trip (tenantId k : string) (m : ChannelMessageRecord) (turnId : option string) :
  storable_post tenantId m ->
  decodePost (encodePost tenantId k m turnId) = if decide (Message.body m = EmptyString) then None else Some (m, turnId).
Proof.
  intros (Ht & Hmt & Hc & Hm & Hk & Hauthor & Haddr & Hyear). set (it := encodePost _ _ _ _). unfold decodePost.
  assert (forall n v, v <> EmptyString -> it !! n = Some (AS v) -> optionalString it n = Some v) as Htext by (intros; by apply optionalString_stored).
  assert (rosterPartition tenantId <> EmptyString) as Hpk by (unfold rosterPartition; by destruct tenantId).
  assert ("idem#" +:+ k <> EmptyString) as Hsk by discriminate.
  rewrite (Htext "pk" _ Hpk), (Htext "sk" _ Hsk) by by destruct turnId.
  rewrite (Htext "tenant_id" tenantId), (Htext "channel_id" (Message.channelId m)), (Htext "message_id" (Message.messageId m)),
    (Htext "author_kind" (Message.authorKind m)), (Htext "author_id" (Message.authorId m)) by (done || by destruct turnId).
  cbn [mbind option_bind]. assert (required_number it "seq" = Some (Message.seq m)) as -> by by destruct turnId. cbn [mbind option_bind].
  destruct (decide (Message.body m = EmptyString)) as [Hb|Hb].
  - assert (optionalString it "body" = None) as -> by (unfold optionalString; replace (it !! "body") with (Some (AS (Message.body m))) by (by destruct turnId); by rewrite Hb).
    done.
  - rewrite (Htext "body" (Message.body m)) by (done || by destruct turnId). cbn [mbind option_bind].
    assert (optionalString it "created_at" = Some (toISOString (Message.createdAt m))) as ->.
    { apply Htext; [|by destruct turnId]. intros He. pose proof (date_of_toISOString _ Hyear) as Hd. by rewrite He in Hd. }
    cbn [mbind option_bind]. rewrite date_of_toISOString by done. cbn [mbind option_bind].
    assert (required_string it "turn_id" = turnId) as -> by by destruct turnId.
    assert (optionalString it "addressed_to_bot_id" = Message.addressedToBotId m) as ->.
    { unfold optionalString. replace (it !! "addressed_to_bot_id") with (Some (AS (default EmptyString (Message.addressedToBotId m)))) by (by destruct turnId).
      destruct (Message.addressedToBotId m) as [b|]; cbn; [|done]. by rewrite decide_False by congruence. }
    subst tenantId. by destruct m.
Qed.
End replay.


(** C9: A post is answered again from its record, which is not written: a later post under the same key writes nothing and gets
    the same message and turn, or fails as the table fails. But a message with an empty text, which a post accepts, is never
    replayed: every later post under its key fails. *)
Theorem answered_post_is_replayed `{Collation} `{Service} (I : World -> World -> Prop) (crashes : string -> string -> bool)
    (closingPollMilliseconds : option Z) (r : PostMessageRequest) (k : string) (m : ChannelMessageRecord) (turnId : option string)
    (w w' : World) (o : exn + PostMessageResult) :
  let place := postIdempotencyKey (Post.tenantId r) k in
  (forall w w', I w w' -> tbl w' !! place = tbl w !! place) ->
  tbl w !! place = Some (encodePost (Post.tenantId r) k m turnId) -> storable_post (Post.tenantId r) m ->
  Post.idempotencyKey r = Some k -> exec I (postMessage crashes closingPollMilliseconds r) w o w' ->
  rtc I w w' /\
  match o with
  | Ok answer => Message.body m <> EmptyString /\ answer = (m, turnId)
  | Err e => is_service_exn e = true \/ (Message.body m = EmptyString /\ e = MalformedItem "idempotency")
  end.
Proof.
  intros place Hkeeps Hit Hstore Hkey Hex. unfold postMessage in Hex. rewrite Hkey in Hex.
  assert (forall w1, rtc I w w1 -> tbl w1 !! place = Some (encodePost (Post.tenantId r) k m turnId)) as Hstays.
  { intros w1 Hw. rewrite <- Hit. clear -Hw Hkeeps. induction Hw as [|w w1 w2 Ha _ IH]; [done|]. by rewrite IH, (Hkeeps _ _ Ha). }
  pose proof (post_round_trip (Post.tenantId r) k m turnId Hstore) as Hround.
  apply exec_bind in Hex as [(found & w1 & [Hw1 (w2 & Ha & Hz & Hf)]%exec_get_decoded & Hex)|(e & -> & Hget)].
  - fold place in Hf. rewrite Hstays, Hround in Hf by done. destruct (decide (Message.body m = EmptyString)); destruct Hf as (a & [=Heq] & ->).
    subst a. destruct Hex as [-> Hw]. split; [by trans w1|done].
  - unfold getPostIdempotency, get_decoded in Hget. apply exec_bind in Hget as [(it & w1 & (w2 & Ha & -> & Hz)%exec_get & Hex)|(e' & [= <-] & [Hw He]%exec_send_fails)]; [|by split; [|left]].
    fold place in Hex. rewrite Hstays, Hround in Hex by done. destruct (decide (Message.body m = EmptyString)); [|by destruct Hex as [[=] _]].
    destruct Hex as [[= ->] Hw]. split; [trans w2; [done|]; by trans w1|by right].
Qed.

(** A post that this channel does not take: its author or its addressee takes no part in it. *)
Definition foreign_post (r : PostMessageRequest) (c : Channel) : Prop :=
  Participant.mk (Post.authorKind r) (Post.authorId r) ∉ Channel.participants c \/
  exists botId, Post.addressedToBotId r = Some botId /\ Participant.mk "bot" botId ∉ Channel.participants c.

Lemma checked_foreign `{Service} (I : World -> World -> Prop) (r : PostMessageRequest) (c : Channel) {A : Type} (p : prog A) w o w' :
  foreign_post r c ->
  exec I (checked (requireParticipant c (Post.authorKind r) (Post.authorId r)) ;;;
          match Post.addressedToBotId r with None => Ret tt | Some botId => checked (requireParticipant c "bot" botId) end ;;; p) w o w' ->
  rtc I w w' /\ exists e, o = Err e.
Proof.
  unfold requireParticipant. intros [Hauthor|(botId & -> & Hbot)].
  - rewrite bool_decide_false by done. intros [-> ?]. eauto.
  - case_bool_decide; [|intros [-> ?]; eauto]. rewrite bool_decide_false by done. intros [-> ?]. eauto.
Qed.

(** C10: Only its participants post to a channel. A post whose organization has no such channel, whose author takes no part in
    it, or whose addressee is no bot of it, in any state that others bring about meanwhile, writes nothing; it ends with an
    error, or with the answer kept under its key. *)
Theorem foreign_post_writes_nothing `{Collation} `{Service} (I : World -> World -> Prop) (crashes : string -> string -> bool)
    (closingPollMilliseconds : option Z) (r : PostMessageRequest) (w w' : World) (o : exn + PostMessageResult) :
  (forall w1 c, rtc I w w1 -> channel_at w1 (Post.tenantId r) (Post.channelId r) c -> foreign_post r c) ->
  exec I (postMessage crashes closingPollMilliseconds r) w o w' ->
  rtc I w w' /\
  match o with
  | Err _ => True
  | Ok answer => exists k w1 it, Post.idempotencyKey r = Some k /\ rtc I w w1 /\
      tbl w1 !! postIdempotencyKey (Post.tenantId r) k = Some it /\ decodePost it = Some answer
  end.
Proof.
  intros Hforeign Hex. unfold postMessage in Hex. set (create := bind _ _) in Hex.
  assert (forall w1, rtc I w w1 -> exec I create w1 o w' -> rtc I w1 w' /\ exists e, o = Err e) as Hcreate.
  { intros w1 Hw1 [(c & w2 & Hc & Hpost)|(e & -> & Hc)]%exec_bind.
    - pose proof Hc as (w3 & Ha & Hz & Hat)%requireChannelTenant_exec. apply checked_foreign in Hpost as [Hw ?]; [|by eapply Hforeign; [trans w1|]].
      split; [trans w3; [done|]; by trans w2|done].
    - split; [|eauto]. eapply reads_exec; [|exact Hc]. unfold requireChannelTenant, store_getChannel, get_decoded, resolveChannelTenant. solve_reads. }
  unfold replayed in Hex. destruct (Post.idempotencyKey r) as [k|]; [|by destruct (Hcreate w) as [? [e ->]]].
  apply exec_bind in Hex as [(found & w1 & [Hw1 (w2 & Ha & Hz & Hf)]%exec_get_decoded & Hex)|(e & -> & [Hget _]%exec_get_decoded)]; [|done].
  destruct found as [answer|].
  - destruct Hex as [-> Hw]. split; [by trans w1|]. destruct (tbl w2 !! _) as [it|] eqn:Hit; [|done].
    destruct Hf as (a & Hd & [= ->]). by exists k, w2, it.
  - destruct (Hcreate w1) as [Hw [e ->]]; [done..|]. split; [by trans w1|done].
Qed.

(** ** The names of bots *)

Section names.
Context `{Service} (I : World -> World -> Prop) (tenantId name : string).

(** The name has its reservation. *)
Definition name_taken (w : World) : Prop := is_Some (item_at w (botNameKey tenantId name) !! "pk").

Definition keeps_name {A : Type} (p : prog A) : Prop := forall w o w', exec I p w o w' -> name_taken w -> name_taken w'.

Context (others_keep : forall w w', I w w' -> name_taken w -> name_taken w').

Lemma others_keep_name w w' : rtc I w w' -> name_taken w -> name_taken w'.
Proof using others_keep. induction 1; eauto. Qed.

Lemma keeps_name_reads {A : Type} (p : prog A) : reads p -> keeps_name p.
Proof using others_keep. intros Hp w o w' Hex. eapply others_keep_name, reads_exec; [exact Hp|exact Hex]. Qed.

Lemma keeps_name_bind {A B : Type} (p : prog A) (f : A -> prog B) : keeps_name p -> (forall a, keeps_name (f a)) -> keeps_name (bind p f).
Proof using Type. intros Hp Hf w o w' [(a & w1 & Ha & Hz)|(e & -> & Ha)]%exec_bind Hw; [eapply Hf; [exact Hz|]|]; by eapply Hp. Qed.

Lemma keeps_name_catch {A : Type} (p : prog A) (h : exn -> prog A) : keeps_name p -> (forall e, keeps_name (h e)) -> keeps_name (catch p h).
Proof using Type. intros Hp Hf w o w' [(a & -> & Ha)|(e & w1 & Ha & Hz)]%exec_catch Hw; [by eapply Hp|eapply Hf; [exact Hz|]; by eapply Hp]. Qed.

Lemma keeps_name_put (it : item) c k : item_key it = Some k -> k <> botNameKey tenantId name -> keeps_name (send (PutItem it c)).
Proof using others_keep.
  intros Hk Hne w o w' (w1 & w2 & Ha & Hr%respond_contract & Hz)%exec_send Hw. apply (others_keep_name w2); [done|].
  apply (others_keep_name w w1) in Hw; [|done]. destruct o as [e|u]; [by destruct Hr as [-> _]|]. destruct Hr as (k' & Hk' & _ & ->).
  rewrite Hk in Hk'. injection Hk' as <-. unfold name_taken, item_at. cbn. by rewrite lookup_insert_ne.
Qed.

Lemma keeps_name_computer : keeps_name (ensureComputer tenantId None).
Proof using others_keep.
  unfold ensureComputer. apply keeps_name_bind; [apply keeps_name_reads; unfold ComputerStore.getComputer; solve_reads|].
  intros [c|]; [by apply keeps_name_reads|]. apply keeps_name_bind; [by apply keeps_name_reads; solve_reads|]. intros id.
  unfold ComputerStore.createComputerIfAbsent. apply keeps_name_catch.
  - apply keeps_name_bind; [|intros; by apply keeps_name_reads]. eapply keeps_name_put; [reflexivity|discriminate].
  - intros e. apply keeps_name_reads. unfold ComputerStore.getComputer. solve_reads.
Qed.
End names.

(** The table after a bot was stored and its name reserved in one write. *)
Definition with_bot (w : World) (b : Bot) : World :=
  with_tbl w (<[botNameKey (Bot.tenantId b) (Bot.name b) := bot_name_row b]> (<[botKey (Bot.tenantId b) (Bot.botId b) := encodeBot b]> (tbl w))).

Lemma with_bot_taken w b : name_taken (Bot.tenantId b) (Bot.name b) (with_bot w b).
Proof. unfold name_taken, item_at. cbn [with_bot with_tbl tbl World.tbl]. rewrite lookup_insert_eq. by eexists. Qed.

(** A bot that is stored with its name found the name free. *)
Lemma putBot_reserves `{Service} (I : World -> World -> Prop) (b : Bot) w w' :
  exec I (putBot b true) w (Ok tt) w' ->
  exists w1, rtc I w w1 /\ ~ name_taken (Bot.tenantId b) (Bot.name b) w1 /\ rtc I (with_bot w1 b) w'.
Proof.
  intros [([] & _ & Hex)|(e & w1 & _ & Hx)]%exec_catch.
  2: { destruct e; try by destruct Hx as [[=] _]. case_bool_decide; by destruct Hx as [[=] _]. }
  apply exec_retry_send in Hex as (w1 & w2 & Ha & (Hnd & Hall & ->) & Hz). unfold reserve_ops in *.
  apply Forall_cons in Hall as [_ Hall]. apply Forall_cons in Hall as [Hfree _].
  change (bool_decide (item_at w1 (botNameKey (Bot.tenantId b) (Bot.name b)) !! "pk" = None) = true) in Hfree. apply bool_decide_eq_true in Hfree.
  assert (foldl txop_write (tbl w1) (reserve_ops b) =
    <[botNameKey (Bot.tenantId b) (Bot.name b) := bot_name_row b]> (<[botKey (Bot.tenantId b) (Bot.botId b) := encodeBot b]> (tbl w1))) as Hwrite
    by (by destruct b as [? ? ? ? []]).
  unfold reserve_ops in Hwrite. rewrite Hwrite in Hz. exists w1. split_and!; [done|intros [v Hv]; by rewrite Hfree in Hv|exact Hz].
Qed.

Lemma createBot_replays `{Service} (I : World -> World -> Prop) tenantId name :
  (forall w w', I w w' -> name_taken tenantId name w -> name_taken tenantId name w') ->
  forall pages boards creatorUserId idempotencyKey w b w',
  exec I (createBot pages boards tenantId name creatorUserId idempotencyKey) w (Ok b) w' ->
  (exists k, idempotencyKey = Some k /\ exec I (getBotIdempotency tenantId k) w (Ok (Some b)) w') \/
  (exists w0, (name_taken tenantId name w -> name_taken tenantId name w0) /\
     exec I (create_new_bot pages boards tenantId name creatorUserId idempotencyKey) w0 (Ok b) w').
Proof.
  intros Hkeep pages boards u [k|] w b w' Hex; [|right; by exists w].
  apply exec_bind in Hex as [(found & w0 & Hget & Hex)|(e & [=] & _)]. destruct found as [b'|].
  - destruct Hex as [[= ->] Hw]. left. exists k. split; [done|by eapply exec_others_r].
  - right. exists w0. split; [|done]. eapply (keeps_name_reads I _ _ Hkeep); [|exact Hget].
    unfold getBotIdempotency, getBot, get_decoded. solve_reads.
Qed.


(** The board that a failed creation archives can be the board of a bot that is stored: when the bot was put and the record of
    its key was not, the creation fails and archives the board. *)
Lemma failed_record_archives_stored_bots_board `{Service} (I : World -> World -> Prop) (provisioner : BotBoardProvisioner)
    (tenantId creatorUserId k : string) (b : Bot) w w1 w2 w3 e failure :
  exec I (putBot b true) w (Ok tt) w1 -> exec I (putBotIdempotency tenantId k b) w1 (Err e) w2 ->
  exec I (archiveBoardOfUnstoredBot provisioner (Bot.tenantId b) (Bot.botId b) creatorUserId) w2 (Ok failure) w3 ->
  exec I (catch (store_bot tenantId (Some k) b) (fun error => archiveOrphanBoard (Some provisioner) b creatorUserId ;;; Throw error)) w (Err e) w3 /\
  exists w0, rtc I (with_bot w0 b) w1.
Proof.
  intros Hput Hrecord Harchive. split; [|apply putBot_reserves in Hput as (w0 & _ & _ & ?); by exists w0].
  apply exec_catch. right. exists e, w2. split.
  - apply exec_bind. left. exists tt, w1. by split.
  - apply exec_bind. left. exists tt, w3. split; [|done]. apply exec_bind. left. exists failure, w3.
    split; [|done]. apply exec_catch. left. by exists failure.
Qed.

(** What a bot remembers is changed by being stored: a colon or a comma in it gets a space. *)
Lemma memory_is_stored_with_spaces :
  memory_of (parse_json (stringifyPythonStyle (JObj [("home", JStr "https://acme.example")]))) = [("home", "https: //acme.example")].
Proof. vm_compute. reflexivity. Qed.

(** So is a participant of a channel, who is then not found among the participants. *)
Lemma participants_are_stored_with_spaces :
  let c := Channel.mk "general" "acme" "named" (Some "general") [Participant.mk "human" "sso:ann"] 1 in
  requireParticipant c "human" "sso:ann" = Ok tt /\
  (fun c => requireParticipant c "human" "sso:ann") <$> decodeChannel (encodeChannel c)
    = Some (Err (ActorNotInChannelError "human 'sso:ann' is not a participant of channel 'general'.")).
Proof. vm_compute. by split. Qed.

(** A task ends with evidence or a reason, and as its record was at a moment. *)
Lemma task_completes_with_evidence `{Service} (I : World -> World -> Prop) tenantId taskId evidence botId w t w' :
  exec I (completeTask tenantId taskId evidence botId) w (Ok t) w' ->
  trim evidence <> EmptyString /\ Task.status t = TASK_COMPLETED /\ Task.evidence t = Some evidence /\ Task.tenantId t = tenantId /\
  exists w1 it before, rtc I w w1 /\ tbl w1 !! taskKey tenantId taskId = Some it /\ decodeTask it = Some before /\
    Task.title t = Task.title before /\ Task.userId t = Task.userId before.
Proof.
  unfold completeTask. case_bool_decide as He; [by intros [[=] _]|].
  intros [(record & w1 & Hget & Hex)|(e & [=] & _)]%exec_bind. apply exec_bind in Hget as [(found & w2 & (w3 & Ha & Hz & Hf)%exec_get_record & Hget)|(e & [=] & _)].
  destruct found as [t0|]; [|by destruct Hget as [[=] _]]. case_bool_decide as Ht; [|by destruct Hget as [[=] _]]. destruct Hget as [[= ->] _].
  apply exec_bind in Hex as [(u & w4 & _ & [[= ->] _])|(e & [=] & _)]. destruct Hf as (it & Hit & Hd).
  split_and!; [done|by destruct t0..|]. exists w3, it, t0. split_and!; [done|done|done|by destruct t0..].
Qed.

(** ** A channel with a person and two bots *)

Definition demo_channel : Channel :=
  Channel.mk "general" "acme" "named" (Some "general")
    [Participant.mk "human" "ann"; Participant.mk "bot" "helper"; Participant.mk "bot" "scribe"] 1.

Definition channel_world : World := with_tbl empty_world {[channelKey "acme" "general" := encodeChannel demo_channel]}.

Definition demo_post : PostMessageRequest := Post.mk "acme" "general" "human" "ann" "hello" (Some "helper") None None.

Lemma channel_world_ok : all_ok channel_world.
Proof.
  intros pk Hpk. cbn [channel_world with_tbl tbl World.tbl].
  assert (forall sk, ({[channelKey "acme" "general" := encodeChannel demo_channel]} : gmap key item) !! (pk, sk) = None) as Hnone.
  { intros sk. apply lookup_singleton_ne. intros [= <- _]. by apply (channel_not_turn "acme" "general") in Hpk. }
  rewrite Hnone. intros sk _. apply Hnone.
Qed.

Lemma channel_world_numbered : numbered channel_world.
Proof.
  intros t c. unfold next_seq, item_at. cbn [channel_world with_tbl tbl World.tbl].
  destruct (decide (channelKey "acme" "general" = (t +:+ "#channel#" +:+ c, "meta"))) as [<-|Hne].
  - rewrite lookup_singleton_eq. vm_compute. discriminate.
  - rewrite lookup_singleton_ne by done. vm_compute. discriminate.
Qed.

Definition demo_posted : (exn + PostMessageResult) * World := run (postMessage (fun _ _ => false) None demo_post) demo_local channel_world.

Definition posted_demo : ChannelMessageRecord := Message.mk "id-0" "general" "acme" 1 "human" "ann" "hello" (Some "helper") 1798761600000.

Lemma demo_post_returns : demo_posted.1 = Ok (posted_demo, Some "id-1").
Proof. vm_compute. reflexivity. Qed.

Lemma demo_channel_only (c : Channel) : channel_at channel_world "acme" "general" c -> c = demo_channel.
Proof.
  intros (it & Hit & Hd). cbn [channel_world with_tbl tbl World.tbl] in Hit. rewrite lookup_singleton_eq in Hit. injection Hit as <-.
  assert (decodeChannel (encodeChannel demo_channel) = Some demo_channel) as Hc by (vm_compute; reflexivity). by rewrite Hc in Hd; injection Hd.
Qed.


Definition demo_keyed_post : PostMessageRequest := Post.mk "acme" "general" "human" "ann" "hello" (Some "helper") (Some "k1") None.
Definition keyed_world : World :=
  with_tbl empty_world {[postIdempotencyKey "acme" "k1" := encodePost "acme" "k1" posted_demo (Some "id-1")]}.

Definition demo_replay : prog PostMessageResult := postMessage (fun _ _ => false) None demo_keyed_post.

Lemma demo_replay_returns : (run demo_replay demo_local keyed_world).1 = Ok (posted_demo, Some "id-1").
Proof. vm_compute. reflexivity. Qed.

Lemma demo_storable : storable_post "acme" posted_demo.
Proof.
  unfold storable_post. repeat apply conj; try discriminate; try reflexivity; apply (bool_decide_unpack _); vm_compute; exact Logic.I.
Qed.

Lemma keyed_found : tbl keyed_world !! postIdempotencyKey "acme" "k1" = Some (encodePost "acme" "k1" posted_demo (Some "id-1")).
Proof. apply lookup_singleton_eq. Qed.

Lemma answered_post_is_replayed_witness :
  Message.body posted_demo <> EmptyString /\ Ok (posted_demo, Some "id-1") = (run demo_replay demo_local keyed_world).1.
Proof.
  destruct (answered_post_is_replayed (H0:=local_service) alone (fun _ _ => false) None demo_keyed_post "k1" posted_demo (Some "id-1")
    keyed_world (run demo_replay demo_local keyed_world).2 (Ok (posted_demo, Some "id-1"))) as [_ [Hbody _]].
  - by intros w w' [].
  - exact keyed_found.
  - exact demo_storable.
  - reflexivity.
  - apply run_exec_to. exact demo_replay_returns.
  - split; [exact Hbody|]. symmetry. exact demo_replay_returns.
Defined.

Definition demo_create_bot : prog Bot := createBot 10 None "acme" "helper" "ann" None.


(** Zed takes no part in the channel. *)
Definition foreign_demo : PostMessageRequest := Post.mk "acme" "general" "human" "zed" "hello" None (Some "k1") None.
Definition demo_foreign : (exn + PostMessageResult) * World := run (postMessage (fun _ _ => false) None foreign_demo) demo_local channel_world.

Lemma demo_foreign_returns :
  demo_foreign.1 = Err (ActorNotInChannelError "human 'zed' is not a participant of channel 'general'.").
Proof. vm_compute. reflexivity. Qed.

Lemma foreign_post_writes_nothing_witness : demo_foreign.2 = channel_world.
Proof.
  apply alone_rtc.
  destruct (foreign_post_writes_nothing (H0:=local_service) alone (fun _ _ => false) None foreign_demo channel_world demo_foreign.2
    (Err (ActorNotInChannelError "human 'zed' is not a participant of channel 'general'."))) as [Hw _].
  - intros w1 c ->%alone_rtc ->%demo_channel_only. left. apply (bool_decide_unpack _). vm_compute. exact Logic.I.
  - apply run_exec_to. exact demo_foreign_returns.
  - exact Hw.
Defined.
